(* ===== verification/_CoqProject ===== *)
-Q . S2P
Prelude.v
JsString.v
JsNumber.v
JsInteger.v
JsRegex.v
JsValue.v
JsMap.v
JsonText.v
JsBytes.v
HttpStatusRules.v
RequestRules.v
TopLevelSplit.v
RequestRulesCorrect.v
FlowGraph.v
FlowCorrect.v
FlowTheorems.v
FlowSankey.v
Chat.v
ChatCorrect.v
Sidebar.v
SidebarCorrect.v
ModelMapping.v
Tiers.v
TiersCorrect.v
TiersReopen.v
Checkout.v
CheckoutCorrect.v
AdvancedCustom.v
AdvancedCustomCorrect.v
ChannelForm.v
ChannelSettings.v
ChannelFormCorrect.v
ChannelTags.v
ChannelTagsCorrect.v
TableUrl.v
TableUrlCorrect.v
Wallet.v
WalletCorrect.v
PriceDisplay.v
PriceDisplayCorrect.v
ParamOverride.v
ParamOverrideCorrect.v
ParamOverrideEditor.v
ParamOverrideEditorCorrect.v
ModelPricing.v
ModelPricingCorrect.v
UpstreamSync.v
UpstreamSyncCorrect.v
GroupSettings.v
GroupSettingsCorrect.v
GroupRules.v
ToolPrices.v
RatioSave.v
Currency.v
TierEditor.v
TierEditorCorrect.v
UsageCharts.v
UsageChartsCorrect.v
UsageLogs.v
UsageLogsCorrect.v
