(* ===== verification/Prelude.v ===== *)
(** * Verification of the web console's core logic

    The repository is an API gateway: a Go server (relay, billing, accounts),
    and a web console in TypeScript under src/web/default/src.  This library
    models the console's own logic, the TypeScript that decides something:
    what text a billing rule becomes, which rows a chart adds up, what a
    streamed reply turns into, which entries a user sees.  Paths below are
    relative to src/web/default/src.

    ** Parts and files

    The language (no file of the repository; what its sources use of
    ECMAScript):
    - Prelude: tactics, hint databases, outcomes (a value or a thrown
      exception), the stable sort of [Array.prototype.sort] under a comparator
      (class [ConsistentComparator]), [new Set] with insertion order.
    - JsString: strings as lists of 16-bit code units, trimming, searching,
      splitting and joining, decimal printing and reading.
    - JsNumber: binary64 numbers ([SpecFloat]), [Number(text)] and
      [Number.prototype.toString] (shortest round-trip digits), [toFixed].
    - JsInteger: integers as numbers; below [2^53] they are added, subtracted and
      compared exactly, and sums of counters are exact; the order of numbers.
    - JsRegex: a backtracking matcher with ECMAScript's order of attempts,
      captures, [exec] and the global loop, and the lemmas that evaluate it on
      symbolic subjects.
    - JsValue: dynamic values, property order, coercions, JSON.
    - JsMap: insertion-ordered maps and the laws of totals accumulated in them.
    - JsonText: [JSON.stringify] of values with any indentation, and its round
      trip through [JSON.parse].
    - JsBytes: [atob] and the UTF-8 [TextDecoder], with the encodings they undo.

    The components:
    - HttpStatusRules (lib/http-status-code-rules.ts): the text of status-code
      rules, [parseHttpStatusCodeRules], [parseToken], [mergeRanges].
    - RequestRules, TopLevelSplit, RequestRulesCorrect
      (features/pricing/lib/billing-expr.ts from line 168): conditional price
      multipliers; parser, builder, [splitBillingExprAndRequestRules] and
      [combineBillingExpr], the regular expressions written out.
    - Tiers, TiersCorrect, TiersReopen (billing-expr.ts up to line 305 and
      features/pricing/lib/tier-expr.ts): the registry of billing variables,
      the tier parser that price displays use, and the visual editor's
      generator, normaliser and parser.  RequestRules and Tiers meet in one
      expression text, [(tiers) * (rule ? multiplier : 1)]: the split of
      RequestRules gives Tiers its part.
    - FlowGraph, FlowCorrect, FlowTheorems (features/dashboard/lib/flow.ts up to
      line 1018): usage rows become paths, nodes and links with totals; limits,
      masking, filters, highlighting.
    - FlowSankey (flow.ts from line 1019, flow-selection.ts): the chart rows and
      the callbacks on the chart library's datums.
    - Chat, ChatCorrect (features/playground: types.ts, constants.ts,
      lib/message-utils.ts, lib/payload-builder.ts, hooks/use-chat-handler.ts,
      hooks/use-stream-request.ts): messages, thinking tags, the payload, and
      the event source as a state machine whose steps are the listeners.
    - Sidebar, SidebarCorrect (hooks/use-sidebar-config.ts, lib/nav-modules.ts):
      which navigation entries are shown, from two layers of JSON settings.
    - ModelMapping (features/channels/lib/model-mapping-validation.ts and
      status-code-risk-guard.ts): the channel form's lists and JSON mappings.
    - AdvancedCustom, AdvancedCustomCorrect (features/channels/lib/
      advanced-custom.ts): route tables of custom channels, on dynamic JSON
      values with thrown exceptions; validator, normaliser, templates.
    - ChannelForm, ChannelSettings, ChannelFormCorrect (features/channels/lib/
      channel-form.ts): the channel form, its validation, its payloads and the
      form of a stored channel.  The form calls AdvancedCustom for its route
      table, stores it in the settings JSON and reads it back.
    - Checkout, CheckoutCorrect (features/wallet/lib/alipay-desktop-payment.ts,
      hooks/use-alipay-desktop-payment.ts): the desktop payment dialog as a
      machine of events; [Hook] holds the React state, the refs, the mounted
      effect, its timers and the suspended asynchronous functions.

    - ChannelTags, ChannelTagsCorrect (features/channels/lib/channel-utils.ts):
      the rows of the channel table in tag mode, built by mutation of row objects
      that a map and the result share ([TagStore]); key texts, groups, attention.
    - TableUrl, TableUrlCorrect (hooks/use-table-url-state.ts): table state in
      the search parameters; the hook as a state with its handlers, [arrive] is a
      render with a new search.  The router is a parameter (class [Router]), the
      transformers of a filter obey [FilterCodec].
    - Wallet, WalletCorrect (features/wallet: hooks/use-topup-info.ts,
      lib/payment.ts, lib/amount-selection.ts): the gateway description read
      from JSON, the methods and amounts on offer, and the amount reducer.
    - PriceDisplay, PriceDisplayCorrect (features/pricing/lib: price.ts,
      dynamic-price.ts, filters.ts): the prices of the model catalogue, by ratio
      or by expression (read through RequestRules and Tiers), its filters and
      orders.  The currency formatter is a parameter.
    - ParamOverride, ParamOverrideCorrect (features/channels/components/dialogs/
      param-override-editor-dialog.tsx up to line 1080): rules that rewrite
      requests, between the stored JSON and the fields of the dialog.
    - ParamOverrideEditor, ParamOverrideEditorCorrect (the same file to the
      rendering): the state of the dialog and its callbacks; [handle] is one
      event, [step] an event followed by the effects.
    - ModelPricing, ModelPricingCorrect (features/system-settings/models:
      pricing-format.ts, model-pricing-core.ts, model-pricing-snapshots.ts,
      model-pricing-sheet.tsx, model-ratio-visual-editor.tsx): the ten price
      settings ([Settings], as texts and as objects), the table of models, the
      panel of one model ([Panel], [onPanel]) and storing and deleting.
    - UpstreamSync, UpstreamSyncCorrect (upstream-ratio-sync-helpers.ts,
      upstream-ratio-sync.tsx, upstream-ratio-sync-table.tsx): prices taken from
      upstream channels into the same ten settings; [onSync] is one event of the
      dialog, an answer of the server belongs to each request.
    - GroupSettings, GroupSettingsCorrect (group-ratio-visual-editor.tsx): the
      five settings of billing groups; the table of ratios with its effect, the
      top-up list, overrides between groups and the automatic order.
    - GroupRules (group-special-usable-editor.tsx): rules that add, remove or
      append selectable groups, between prefixed keys and rows.
    - ToolPrices (tool-price-settings.tsx): prices of tools as rows and as JSON.
    - RatioSave (ratio-settings-card.tsx, models/utils.ts): the form around the
      price and group editors: validation of the texts, the baseline, and the
      requests, with an answer of the server for each (as in UpstreamSync).
    - TierEditor, TierEditorCorrect (tiered-pricing-editor.tsx): the editor of a
      billing expression over Tiers and RequestRules; [commit] is one render
      with its four effects, the handlers are functions of the state.
    - Currency (lib/currency.ts, lib/format.ts, stores/system-config-store.ts):
      the currency configuration and the texts of amounts.
    - UsageCharts, UsageChartsCorrect (features/dashboard/lib/charts.ts,
      [formatChartTime] of lib/time.ts): the values of the usage charts by model
      and by user, their tooltips and totals.
    - UsageLogs, UsageLogsCorrect (features/usage-logs/lib: format.ts, utils.ts,
      filter.ts): the tier a log entry was charged by, read through JsBytes and
      Tiers, and the requests for entries from the filters of the page.

    ** What is shown

    - Texts survive: rules built are rules parsed, a combined expression splits
      into its parts, tiers written by the visual editor are the tiers shown and
      the configuration that the editor reopens,
      normalised status rules parse to themselves, model lists round-trip, a
      saved channel form reopens as it was and a route table survives its text.
      Where the code does not read its own text (numeric comparisons of request
      parameters) the failure is a theorem.
    - Totals are kept: every column of the flow graph adds up to the summary,
      what enters a node leaves it, a limit moves the rest to one node and loses
      nothing, masking changes labels only, counters stay below [2^53] when the
      rows' total does, so integer arithmetic is exact (JsInteger).  The usage
      charts add up to the rows on them; which rows are not on a chart over time
      is part of the theorem ([charts_account_for_usage]).
    - Streams behave: a reply cut into chunks at any place gives the message of
      the whole reply under the stated condition on empty tags (and a theorem
      shows the reply that violates it), no event changes earlier messages,
      errors are final, a finished stream leaves no message loading.
    - Settings are safe: a user's settings only hide what the administrator
      allows, parsed settings are complete and typed whatever the JSON was;
      saving a channel keeps the settings it does not manage and drops those of
      other types, a key is sent only when it was typed.
    - Validation is exact: a route table is accepted if and only if it satisfies
      its specification, the first broken rule of the first bad route is
      reported, and what passes the form is what is stored.  On a path that is
      not a string the validator throws, which is a theorem as well.
    - Payments are reported: the checkout refines a specification in which each
      event has its permitted actions, success is shown only for an order the
      server reported as paid, one query is in flight at a time, and the polling
      of an awaited order on a visible page is always alive; after the expiry
      every course of timers, answers and continuations ends it within what the
      suspended functions still have to do.  A polling timer that outlives its effect is shown by evaluation.
    - Lists and tables show what they hold: a tag row summarises exactly the
      channels of its tag and every channel has one row; filters and pages put
      into the URL are the ones read back, and a page out of range is left by one
      navigation.
    - Top-ups are in bounds: the amount to pay is always that of the selection, a
      custom amount is an integer from 1 to 100000, and only methods of enabled
      gateways are offered.
    - Prices are what was entered: the catalogue shows the tiers and prices that
      the two expression editors saved, and the ratio of the cheapest group;
      saving a model in the settings changes its row to what was entered and no
      other row; the ratios of the panel follow its prices under any edits; a
      synchronisation writes the selected values and nothing else, and without a
      confirmation removes nothing.  Where the code does otherwise (a fixed price
      that outlives the mode, a refused sync that ends as a success) this is a
      theorem.
    - Settings are written as edited: the group table and the rules of selectable
      groups open as they were saved, edits concern the addressed row only, an
      accepted save stores every changed field and nothing else.  A refused save
      counts as saved (RatioSave).
    - The expression editor keeps the edits of what it can show
      ([TierEditorCorrect.editor_keeps_edits]).  What it cannot show it replaces
      when it is opened, and the first preset with rules is applied without its
      prices: the reference that marks the first reading is cleared too late.
    - Logs show what was charged: an entry with the encoded expression and the
      label of a saved tier shows that tier and its prices, if no earlier tier has
      a similar label; a member's request goes to the member's own list, for
      common logs without channel and user name, while drawing and task logs send
      the channel of the URL for members too.
    - Amounts stay readable: the configuration in use always has positive rates,
      small amounts are not rounded to zero, a label's colour is that of a
      32-bit polynomial hash.
    - Dialogs keep their rules: the rules saved by the override dialog open again
      with their values in stored form, its validation is exact, and in every reachable state there is a
      selected rule and identifiers are distinct.
    - Loops end: unwrapping parentheses and reading tags stop with the stated
      result, within the counters used to define them.

    ** Conventions

    A JavaScript string is a list of code units and [js] writes a literal.
    [undefined] results are [None], a thrown exception is [Throw].  Integers of
    the server are [Z] with their bounds proved (FlowTheorems, JsInteger); prices,
    shares, quotas and page numbers are binary64.  Objects mutated through a map are that map's entries;
    links shared by several arrays are addressed by position.

    Counters that make recursion structural are chosen so that they never run
    out: the JSON parser has twice the length of the text plus two (every second
    call consumes a unit); a quantifier of a regular expression has one more
    than the units left (an empty iteration is refused); the global [exec] loop
    has one more than the length (a match of these expressions is never empty);
    the tag reader has the length of the text plus one and the parenthesis loop
    the length of the text, and their termination theorems show that the counter
    is never what stops them.

    Parameters, for what the sources import from outside: [localeCompare] and
    [toLowerCase], the translation function, the formatters of [Intl], the
    messages of [JSON.parse], the clock
    of identifiers, the number formatter and the
    colour schemes of the chart library, the message id generator, [new URL], the
    search a router arrives at.

    Asynchronous code: a suspended function is a value of the state, an event
    settles one of them in any order, and React renders and runs its effects
    after every event.

    ** Not modelled

    The Go server, the classic JSX console, the desktop shell, translations and
    generated routes are other languages or generated.  React components and
    hooks that only render or fetch, the localStorage wrappers around JSON, and
    [evalExprLocally] (it compiles text with [new Function]) are left out, and so
    are the checks that the schema library makes on single form fields.  Model
    names and other keys are taken not to be names of [Object.prototype], and a
    price setting that is JSON but not an object is outside the declared types.
    Of the remaining TypeScript, the styling of the chart specifications, the
    mutation calls of features/channels/lib/channel-actions.ts and the calendar
    functions over the date library are not modelled. *)
From stdpp Require Import prelude list.
From Stdlib Require Export ZArith Lia Sorting.Sorted Sorting.Permutation.

(** ** Hint databases and tactics of the development *)

Create HintDb jsdb.
Create Rewrite HintDb jsrw.

(** Split every boolean conjunction/disjunction/negation and comparison in the
    context into propositions that [lia] and [congruence] understand. *)
Ltac bool_hyps :=
  repeat match goal with
  | H : (_ && _)%bool = true |- _ => apply andb_true_iff in H as [? ?]
  | H : (_ || _)%bool = false |- _ => apply orb_false_iff in H as [? ?]
  | H : negb _ = true |- _ => apply negb_true_iff in H
  | H : negb _ = false |- _ => apply negb_false_iff in H
  | H : (_ <=? _)%Z = true |- _ => apply Z.leb_le in H
  | H : (_ <=? _)%Z = false |- _ => apply Z.leb_gt in H
  | H : (_ <? _)%Z = true |- _ => apply Z.ltb_lt in H
  | H : (_ <? _)%Z = false |- _ => apply Z.ltb_ge in H
  | H : (_ =? _)%Z = true |- _ => apply Z.eqb_eq in H
  | H : (_ =? _)%Z = false |- _ => apply Z.eqb_neq in H
  | H : (_ <=? _)%N = true |- _ => apply N.leb_le in H
  | H : (_ <=? _)%N = false |- _ => apply N.leb_gt in H
  | H : (_ <? _)%N = true |- _ => apply N.ltb_lt in H
  | H : (_ <? _)%N = false |- _ => apply N.ltb_ge in H
  | H : (_ =? _)%N = true |- _ => apply N.eqb_eq in H
  | H : (_ =? _)%N = false |- _ => apply N.eqb_neq in H
  | H : bool_decide _ = true |- _ => apply bool_decide_eq_true in H
  | H : bool_decide _ = false |- _ => apply bool_decide_eq_false in H
  end.

(** Case analysis on the innermost [if]/[match] scrutinee of the goal. *)
Ltac case_if :=
  match goal with
  | |- context [if ?b then _ else _] => destruct b eqn:?
  end.

(** ** Outcomes: a value, or an exception that leaves the function *)
Inductive outcome (A : Type) := Ret (a : A) | Throw.
Arguments Ret {A} a.
Arguments Throw {A}.

Definition obind {A B} (m : outcome A) (f : A -> outcome B) : outcome B :=
  match m with Ret a => f a | Throw => Throw end.
Notation "x <-- m ;; k" := (obind m (fun x => k)) (at level 100, m at next level, right associativity).

(** [xs.map(f)] for a callback that may throw. *)
Fixpoint mapOutcome {A B} (f : A -> outcome B) (xs : list A) : outcome (list B) :=
  match xs with
  | [] => Ret []
  | x :: xs' => y <-- f x ;; ys <-- mapOutcome f xs' ;; Ret (y :: ys)
  end.

Lemma mapOutcome_ret {A B} (f : A -> outcome B) xs ys : mapOutcome f xs = Ret ys <-> Forall2 (fun x y => f x = Ret y) xs ys.
Proof.
  revert ys. induction xs as [|x xs IH]; intros ys; cbn [mapOutcome].
  - split; [intros [= <-]; constructor|by intros H; inversion H].
  - split.
    + destruct (f x) as [y|] eqn:E; [|done]. cbn [obind]. destruct (mapOutcome f xs) as [zs|] eqn:Ez; [|done].
      cbn [obind]. intros [= <-]. constructor; [done|by apply IH].
    + intros H. inversion H as [|? y ? zs Hy Hz]; subst. rewrite Hy. cbn [obind]. apply IH in Hz. by rewrite Hz.
Qed.

Lemma mapOutcome_elem {A B} (f : A -> outcome B) xs ys y : mapOutcome f xs = Ret ys -> y ∈ ys <-> exists x, x ∈ xs /\ f x = Ret y.
Proof.
  intros H%mapOutcome_ret. induction H as [|x z xs ys Hz _ IH]; [split; [by intros ?%elem_of_nil|by intros (? & ?%elem_of_nil & _)]|].
  rewrite elem_of_cons, IH. split.
  - intros [->|(x' & Hx & E)]; [exists x|exists x']; by rewrite elem_of_cons; auto.
  - intros (x' & [->|Hx]%elem_of_cons & E); [left; congruence|eauto].
Qed.

Lemma mapOutcome_total {A B} (f : A -> outcome B) xs : (forall x, x ∈ xs -> exists y, f x = Ret y) -> exists ys, mapOutcome f xs = Ret ys.
Proof.
  intros H. induction xs as [|x xs IH]; [by exists []|]. destruct (H x) as [y E]; [by left|].
  destruct IH as [ys Es]; [intros z Hz; apply H; by right|]. exists (y :: ys). cbn [mapOutcome]. by rewrite E, Es.
Qed.

(** ** [Array.prototype.sort] with a comparator

    JavaScript's sort is stable and calls a comparator whose sign orders the
    elements; for a consistent comparator the result is the stable insertion
    sort of the array. *)
Section StableSort.
Context {A : Type} (cmp : A -> A -> Z).

Fixpoint insert_by (x : A) (l : list A) : list A :=
  match l with
  | [] => [x]
  | y :: l' => if (cmp x y <=? 0)%Z then x :: y :: l' else y :: insert_by x l'
  end.

Definition sort_by (l : list A) : list A := foldr insert_by [] l.

Lemma insert_by_perm x l : Permutation (insert_by x l) (x :: l).
Proof.
  induction l as [|y l IH]; simpl; [done|].
  case_if; [done|]. rewrite IH. apply Permutation_swap.
Qed.

Lemma sort_by_perm l : Permutation (sort_by l) l.
Proof.
  induction l as [|x l IH]; simpl; [done|].
  by rewrite insert_by_perm, IH.
Qed.

Lemma sort_by_elem x l : x ∈ sort_by l <-> x ∈ l.
Proof. by rewrite (sort_by_perm l). Qed.

Lemma sort_by_length l : length (sort_by l) = length l.
Proof. apply Permutation_length, sort_by_perm. Qed.

(** What a comparator must satisfy for the result to be ordered. *)
Class ConsistentComparator : Prop := {
  cmp_total : forall a b, (0 < cmp a b)%Z -> (cmp b a <= 0)%Z;
  cmp_trans : forall a b c,
    (cmp a b <= 0)%Z -> (cmp b c <= 0)%Z -> (cmp a c <= 0)%Z
}.

Definition cmp_le (a b : A) : Prop := (cmp a b <= 0)%Z.

Context `{!ConsistentComparator}.

Lemma insert_by_sorted x l :
  StronglySorted cmp_le l -> StronglySorted cmp_le (insert_by x l).
Proof.
  induction 1 as [|y l Hl IH Hy]; simpl; [repeat constructor|].
  case_if; bool_hyps.
  - constructor; [by constructor|]. constructor; [done|].
    eapply Forall_impl; [done|]. intros z Hz. unfold cmp_le in *. by eapply cmp_trans.
  - constructor; [done|]. rewrite insert_by_perm. constructor; [|done].
    by apply cmp_total.
Qed.

Lemma sort_by_sorted l : StronglySorted cmp_le (sort_by l).
Proof. induction l; simpl; [constructor|by apply insert_by_sorted]. Qed.

End StableSort.

(** A sorted array is left alone by the stable sort. *)
Lemma sort_by_id {A} (cmp : A -> A -> Z) l :
  StronglySorted (cmp_le cmp) l -> sort_by cmp l = l.
Proof.
  induction 1 as [|x l Hl IH Hx]; simpl; [done|].
  rewrite IH. destruct Hx as [|y l Hxy _]; simpl; [done|].
  unfold cmp_le in Hxy. apply Z.leb_le in Hxy. by rewrite Hxy.
Qed.

(** ** Sets and maps with insertion order

    [new Set(xs)] iterates its elements in order of first insertion. *)
Lemma sort_by_map {A B} (f : A -> B) (cmp : A -> A -> Z) (cmp' : B -> B -> Z) l :
  (forall a b, cmp' (f a) (f b) = cmp a b) -> sort_by cmp' (map f l) = map f (sort_by cmp l).
Proof.
  intros H. induction l as [|x l IH]; [done|]. simpl. rewrite IH. generalize (sort_by cmp l). intros s.
  induction s as [|y s IHs]; simpl; [done|]. rewrite H. destruct (cmp x y <=? 0)%Z; [done|]. by rewrite IHs.
Qed.

Lemma sort_by_ext {A} (cmp cmp' : A -> A -> Z) l :
  (forall a b, cmp a b = cmp' a b) -> sort_by cmp l = sort_by cmp' l.
Proof. intros H. rewrite <- (map_id l) at 1. rewrite (sort_by_map id cmp'); [apply map_id|done]. Qed.

Section Dedup.
Context {A : Type} `{EqDecision A}.

Fixpoint dedup (seen l : list A) : list A :=
  match l with
  | [] => []
  | x :: l' =>
      if bool_decide (x ∈ seen) then dedup seen l' else x :: dedup (x :: seen) l'
  end.

(** [Array.from(new Set(l))] *)
Definition set_from (l : list A) : list A := dedup [] l.

Lemma dedup_elem seen l x : x ∈ dedup seen l <-> x ∈ l /\ x ∉ seen.
Proof.
  revert seen. induction l as [|y l IH]; intros seen; simpl.
  - split; [intros Hx|intros [Hx _]]; by apply elem_of_nil in Hx.
  - case_bool_decide; rewrite ?elem_of_cons, IH, ?elem_of_cons.
    + naive_solver.
    + destruct (decide (x = y)); naive_solver.
Qed.

Lemma dedup_NoDup seen l : NoDup (dedup seen l).
Proof.
  revert seen. induction l as [|y l IH]; intros seen; simpl; [constructor|].
  case_bool_decide; [done|]. constructor; [|done].
  rewrite dedup_elem, elem_of_cons. naive_solver.
Qed.

Lemma set_from_elem l x : x ∈ set_from l <-> x ∈ l.
Proof.
  unfold set_from. rewrite dedup_elem. split; [naive_solver|].
  intros Hx; split; [done|]. intros H'; by apply elem_of_nil in H'.
Qed.

Lemma set_from_NoDup l : NoDup (set_from l).
Proof. apply dedup_NoDup. Qed.

Lemma dedup_id seen l :
  NoDup l -> (forall x, x ∈ l -> x ∉ seen) -> dedup seen l = l.
Proof.
  revert seen. induction l as [|y l IH]; intros seen Hnd Hs; simpl; [done|].
  apply NoDup_cons in Hnd as [Hy Hnd].
  rewrite bool_decide_eq_false_2 by (apply Hs; left).
  f_equal. apply IH; [done|]. intros x Hx [->|Hx']%elem_of_cons; [done|].
  eapply Hs; [right|]; done.
Qed.

Lemma set_from_id l : NoDup l -> set_from l = l.
Proof.
  intros. apply dedup_id; [done|]. intros x _ Hx. by apply elem_of_nil in Hx.
Qed.
End Dedup.

Lemma filter_NoDup {A} (p : A -> bool) l : NoDup l -> NoDup (List.filter p l).
Proof. rewrite !NoDup_ListNoDup. apply List.NoDup_filter. Qed.

#[export] Hint Resolve filter_NoDup set_from_NoDup dedup_NoDup sort_by_perm : jsdb.

(** ** Rows addressed by an identifier

    [rows.map((r) => (r.id === id ? change(r) : r))] and
    [rows.filter((r) => r.id !== id)], where identifiers are distinct. *)
Section Addressed.
Context {A K : Type} `{EqDecision K} (key : A -> K).

Lemma map_filter_NoDup (p : A -> bool) l : NoDup (map key l) -> NoDup (map key (List.filter p l)).
Proof.
  induction l as [|x l IH]; cbn; [done|]. intros [Hx Hl]%NoDup_cons. destruct (p x); cbn; [|by apply IH].
  apply NoDup_cons. split; [|by apply IH]. intros Hin. apply Hx.
  apply list_elem_of_fmap in Hin as (y & -> & Hy). apply list_elem_of_fmap. exists y. split; [done|].
  apply list_elem_of_In, List.filter_In in Hy as [Hy _]. by apply list_elem_of_In.
Qed.

Lemma map_keyed (f : A -> A) l : (forall x, key (f x) = key x) -> map key (map f l) = map key l.
Proof. intros H. rewrite map_map. apply map_ext, H. Qed.

Lemma change_addressed (change : A -> A) l i x : NoDup (map key l) -> l !! i = Some x ->
  map (fun y => if bool_decide (key y = key x) then change y else y) l = <[i := change x]> l.
Proof.
  revert i. induction l as [|y l IH]; intros [|i] Hnd Hi; try done; apply NoDup_cons in Hnd as [Hy Hnd].
  - injection Hi as ->. cbn. rewrite bool_decide_true by done. f_equal.
    rewrite <- (map_id l) at 2. apply map_ext_in. intros z Hz. rewrite bool_decide_false; [done|].
    intros E. apply Hy. rewrite <- E. apply list_elem_of_fmap. exists z. split; [done|by apply list_elem_of_In].
  - cbn in Hi |- *. rewrite bool_decide_false.
    + f_equal. by apply IH.
    + intros E. apply Hy. rewrite E. apply list_elem_of_fmap. exists x. split; [done|by eapply list_elem_of_lookup_2].
Qed.

Lemma remove_addressed l i x : NoDup (map key l) -> l !! i = Some x ->
  List.filter (fun y => negb (bool_decide (key y = key x))) l = delete i l.
Proof.
  revert i. induction l as [|y l IH]; intros [|i] Hnd Hi; try done; apply NoDup_cons in Hnd as [Hy Hnd].
  - injection Hi as ->. cbn. rewrite bool_decide_true by done. cbn. clear IH. induction l as [|z l IH]; [done|].
    cbn in *. apply not_elem_of_cons in Hy as [Hz Hy]. apply NoDup_cons in Hnd as [_ Hnd].
    rewrite bool_decide_false by congruence. cbn. f_equal. by apply IH.
  - cbn in Hi |- *. rewrite bool_decide_false.
    + cbn. f_equal. by apply IH.
    + intros E. apply Hy. rewrite E. apply list_elem_of_fmap. exists x. split; [done|by eapply list_elem_of_lookup_2].
Qed.
End Addressed.

(** Counting up from [i], [n + 1] candidates are enough to avoid [n] taken values. *)
Lemma fresh_among {A} `{EqDecision A} (name : Z -> A) (taken : list A) (i : Z) :
  (forall a b, (i <= a)%Z -> (i <= b)%Z -> name a = name b -> a = b) ->
  exists j, (i <= j <= i + Z.of_nat (length taken))%Z /\ name j ∉ taken.
Proof.
  intros Hinj. set (cands := map (fun n => name (i + Z.of_nat n)%Z) (seq 0 (S (length taken)))).
  assert (Hnd : NoDup cands).
  { apply NoDup_fmap_2_strong; [|apply NoDup_seq]. intros a b _ _ E. apply Hinj in E; lia. }
  destruct (decide (Forall (fun x => x ∈ taken) cands)) as [Hall|Hsome].
  - rewrite Forall_forall in Hall. pose proof (submseteq_length _ _ (NoDup_submseteq cands taken Hnd Hall)) as Hle.
    unfold cands in Hle. rewrite length_map, length_seq in Hle. lia.
  - apply not_Forall_Exists in Hsome; [|intros ?; apply _]. apply Exists_exists in Hsome as (x & Hx & Ht).
    apply list_elem_of_fmap in Hx as (n & -> & Hn). apply elem_of_seq in Hn.
    exists (i + Z.of_nat n)%Z. split; [lia|done].
Qed.

(** ** Identifiers from a counter

    [name k] is the identifier that the counter gives when it reaches [k]. *)
Section Issued.
Context {A K : Type} `{EqDecision K} (key : A -> K) (name : Z -> K).

(** Distinct identifiers, all given out up to [counter]. *)
Record issued (counter : Z) (l : list A) : Prop := {
  issued_distinct : NoDup (map key l);
  issued_before : forall x, x ∈ l -> exists k, (0 < k <= counter)%Z /\ key x = name k }.

Lemma issued_nil c : issued c [].
Proof. split; [constructor|by intros ? ?%elem_of_nil]. Qed.

Lemma issued_change c l (f : A -> A) : (forall x, key (f x) = key x) -> issued c l -> issued c (map f l).
Proof.
  intros Hf [Hd Hb]. split; [by rewrite map_keyed|]. intros x (y & -> & Hy)%list_elem_of_fmap. rewrite Hf. by apply Hb.
Qed.

Lemma issued_filter c l (p : A -> bool) : issued c l -> issued c (List.filter p l).
Proof.
  intros [Hd Hb]. split; [by apply map_filter_NoDup|].
  intros x Hx. apply list_elem_of_In, List.filter_In in Hx as [Hx%list_elem_of_In _]. by apply Hb.
Qed.

Context (name_inj : forall a b, (0 < a)%Z -> (0 < b)%Z -> name a = name b -> a = b).

Lemma issued_fresh c l k : (0 <= c)%Z -> issued c l -> (c < k)%Z -> name k ∉ map key l.
Proof.
  intros Hc [_ Hb] Hk (x & E & Hx)%list_elem_of_fmap. destruct (Hb x Hx) as (j & Hj & Ej).
  rewrite Ej in E. apply name_inj in E; lia.
Qed.

Lemma issued_snoc c l x : (0 <= c)%Z -> issued c l -> key x = name (c + 1) -> issued (c + 1) (l ++ [x]).
Proof.
  intros Hc Hl Hx. split.
  - rewrite map_app. apply NoDup_app. split_and!; [apply Hl| |apply NoDup_singleton].
    intros y Hy ->%list_elem_of_singleton. rewrite Hx in Hy. by apply (issued_fresh c l (c + 1)) in Hy; [|done|done|lia].
  - intros y [Hy| ->%list_elem_of_singleton]%elem_of_app.
    + destruct (issued_before c l Hl y Hy) as (k & Hk & E). exists k. split; [lia|done].
    + exists (c + 1)%Z. split; [lia|done].
Qed.

(** A list whose identifiers were given out one after the other. *)
Lemma issued_numbered c l : (0 <= c)%Z -> map key l = map (fun n => name (c + 1 + Z.of_nat n)) (seq 0 (length l)) ->
  issued (c + Z.of_nat (length l)) l.
Proof.
  intros Hc E. split.
  - rewrite E. apply NoDup_fmap_2_strong; [|apply NoDup_seq]. intros a b _ _ H. apply name_inj in H; lia.
  - intros x Hx. assert (H : key x ∈ map key l) by (apply list_elem_of_fmap; by exists x). rewrite E in H.
    apply list_elem_of_fmap in H as (n & -> & Hn). apply elem_of_seq in Hn. eexists. split; [|done]. lia.
Qed.

Lemma numbered_cons c x l : key x = name (c + 1) -> map key l = map (fun n => name (c + 1 + 1 + Z.of_nat n)) (seq 0 (length l)) ->
  map key (x :: l) = map (fun n => name (c + 1 + Z.of_nat n)) (seq 0 (length (x :: l))).
Proof.
  intros Hx Hl. cbn [map length seq]. rewrite Hx, Hl, Z.add_0_r. f_equal. rewrite <- seq_shift, map_map. apply map_ext.
  intros n. f_equal. lia.
Qed.
End Issued.

Lemma set_from_app {A} `{EqDecision A} (l l' : list A) : NoDup l -> (forall x, x ∈ l' -> x ∈ l) -> set_from (l ++ l') = l.
Proof.
  unfold set_from. assert (H : forall (seen l : list A), NoDup l -> (forall x, x ∈ l -> x ∉ seen) -> (forall x, x ∈ l' -> x ∈ l \/ x ∈ seen) -> dedup seen (l ++ l') = l).
  { intros seen m. revert seen. induction m as [|x m IH]; intros seen Hnd Hs Hsub.
    - cbn [app]. induction l' as [|y l' IHl]; [done|]. cbn. rewrite bool_decide_true; [apply IHl; intros; apply Hsub; by right|].
      destruct (Hsub y) as [?%elem_of_nil|]; [by left|done|done].
    - cbn. apply NoDup_cons in Hnd as [Hx Hnd]. rewrite bool_decide_false by (apply Hs; by left). f_equal. apply IH; [done|..].
      + intros y Hy [->|Hy']%elem_of_cons; [done|]. by apply (Hs y); [right|].
      + intros y Hy. rewrite elem_of_cons. destruct (Hsub y Hy) as [[->|?]%elem_of_cons|?]; tauto. }
  intros Hnd Hsub. apply H; [done|by intros x _ ?%elem_of_nil|auto].
Qed.
