(* ===== verification/JsString.v ===== *)
(** * JavaScript strings

    A JavaScript string is a sequence of 16-bit code units; the development
    writes it as a [list N] of code units.  [js] turns a Rocq literal into such
    a string.  The file defines the [String.prototype] operations the sources
    call ([trim], [split], [join], [includes], [startsWith], [indexOf],
    [slice], [replace] of a class), decimal printing and [parseInt(s, 10)] on
    digit strings, with the lemmas the components share. *)
From S2P Require Import Prelude.
From stdpp Require Import prelude list strings.
From Stdlib Require Import NArith Ascii.

Notation jstr := (list N).

Declare Scope js_scope.
Delimit Scope js_scope with js.

(** ** Literals *)
Definition u (a : Ascii.ascii) : N := Ascii.N_of_ascii a.
Arguments u a%_char_scope : simpl never.

Fixpoint js (s : string) : jstr :=
  match s with
  | EmptyString => []
  | String a s' => Ascii.N_of_ascii a :: js s'
  end.

Arguments js s%_string_scope : simpl never.

(** A literal in which an apostrophe stands for the double quote. *)
Definition jsq (s : string) : jstr :=
  map (fun c => if (c =? 39)%N then 34%N else c) (js s).
Arguments jsq s%_string_scope : simpl never.

Notation "a === b" := (bool_decide (a = b)) (at level 70, no associativity) : js_scope.
Open Scope js_scope.

(** Boolean coercion of a string: the empty string is falsy. *)
Definition truthy_str (s : jstr) : bool :=
  match s with [] => false | _ => true end.

Lemma truthy_str_spec s : truthy_str s = true <-> s <> [].
Proof. destruct s; simpl; split; congruence. Qed.

Lemma truthy_str_false s : truthy_str s = false <-> s = [].
Proof. destruct s; simpl; split; congruence. Qed.

(** [a || b] on strings. *)
Definition str_or (a b : jstr) : jstr := if truthy_str a then a else b.

(** ** Character classes *)

(** WhiteSpace and LineTerminator of ECMAScript, the set [trim] removes and the
    regular expression class [\s]. *)
Definition is_ws (c : N) : bool :=
  ((9 <=? c) && (c <=? 13) || (c =? 32) || (c =? 160) || (c =? 0x1680)
   || (0x2000 <=? c) && (c <=? 0x200A) || (c =? 0x2028) || (c =? 0x2029)
   || (c =? 0x202F) || (c =? 0x205F) || (c =? 0x3000) || (c =? 0xFEFF))%N.

(** The class [\d]. *)
Definition is_digit (c : N) : bool := ((48 <=? c) && (c <=? 57))%N.

(** The class [\w], for the assertion [\b]. *)
Definition is_word (c : N) : bool :=
  (is_digit c || ((65 <=? c) && (c <=? 90)) || ((97 <=? c) && (c <=? 122))
   || (c =? 95))%N.

(** LineTerminator, excluded from [.] without the [s] flag. *)
Definition is_lineterm (c : N) : bool :=
  ((c =? 10) || (c =? 13) || (c =? 0x2028) || (c =? 0x2029))%N.

(** ** Trimming *)
Fixpoint trim_start (s : jstr) : jstr :=
  match s with
  | c :: s' => if is_ws c then trim_start s' else s
  | [] => []
  end.

Definition trim_end (s : jstr) : jstr := rev (trim_start (rev s)).

Definition trim (s : jstr) : jstr := trim_end (trim_start s).

(** ** Searching *)
Fixpoint starts_with (p s : jstr) : bool :=
  match p, s with
  | [], _ => true
  | a :: p', b :: s' => (a =? b)%N && starts_with p' s'
  | _ :: _, [] => false
  end.

Definition ends_with (p s : jstr) : bool := starts_with (rev p) (rev s).

(** [s.indexOf(p)], [None] for [-1]. *)
Fixpoint index_of (p s : jstr) : option nat :=
  if starts_with p s then Some 0
  else match s with
       | [] => None
       | _ :: s' => S <$> index_of p s'
       end.

(** [s.indexOf(p, from)] *)
Definition index_of_from (p s : jstr) (from : nat) : option nat :=
  (fun i => from + i)%nat <$> index_of p (drop from s).

Definition includes (p s : jstr) : bool :=
  match index_of p s with Some _ => true | None => false end.

(** [s.slice(i, j)] for [0 <= i] and [0 <= j]. *)
Definition slice (i j : nat) (s : jstr) : jstr := take (j - i) (drop i s).

(** ** Splitting and joining *)

(** [s.split(c)] for a one-unit separator. *)
Fixpoint split_on (c : N) (s : jstr) : list jstr :=
  match s with
  | [] => [[]]
  | a :: s' =>
      if (a =? c)%N then [] :: split_on c s'
      else match split_on c s' with
           | w :: ws => (a :: w) :: ws
           | [] => [[a]]
           end
  end.

(** [xs.join(sep)] *)
Fixpoint js_join (sep : jstr) (xs : list jstr) : jstr :=
  match xs with
  | [] => []
  | [x] => x
  | x :: xs' => x ++ sep ++ js_join sep xs'
  end.

(** [s.replace(/[p]/g, r)] for a character class. *)
Definition replace_class (p : N -> bool) (r : jstr) (s : jstr) : jstr :=
  concat (map (fun c => if p c then r else [c]) s).

(** [xs.map(s => s.trim()).filter(Boolean)] *)
Definition trim_nonempty (xs : list jstr) : list jstr :=
  List.filter truthy_str (map trim xs).

(** ** Lemmas: trimming *)

(** A string with no white space at either end. *)
Definition trimmed (s : jstr) : bool :=
  match s with
  | [] => true
  | c :: _ => negb (is_ws c) && match last s with Some d => negb (is_ws d) | None => true end
  end.

Lemma trim_start_nows s :
  (forall c s', s = c :: s' -> is_ws c = false) -> trim_start s = s.
Proof. destruct s as [|c s]; simpl; [done|]. intros H. by rewrite (H c s). Qed.

Lemma trim_start_suffix s : exists w, s = w ++ trim_start s /\ Forall (fun c => is_ws c = true) w.
Proof.
  induction s as [|c s IH]; simpl; [by exists []|].
  destruct (is_ws c) eqn:E; [|by exists []].
  destruct IH as (w & Hw & HF). exists (c :: w). simpl. split; [congruence|by constructor].
Qed.

Lemma trim_start_head s c s' : trim_start s = c :: s' -> is_ws c = false.
Proof.
  induction s as [|a s IH]; simpl; [done|].
  destruct (is_ws a) eqn:E; [done|]. by intros [= -> _].
Qed.

Lemma trim_start_app_ws w s :
  Forall (fun c => is_ws c = true) w -> trim_start (w ++ s) = trim_start s.
Proof. induction 1 as [|c w Hc _ IH]; simpl; [done|]. by rewrite Hc. Qed.

Lemma rev_head_last (s : jstr) : head (rev s) = last s.
Proof.
  destruct s as [|c s] using rev_ind; [done|].
  rewrite rev_app_distr, last_snoc. done.
Qed.

Lemma last_rev_head (s : jstr) : last (rev s) = head s.
Proof. rewrite <- (rev_involutive s) at 2. by rewrite rev_head_last. Qed.

Lemma trimmed_trim s : trimmed s = true -> trim s = s.
Proof.
  destruct s as [|c s]; [done|]. unfold trimmed, trim, trim_end.
  intros H. bool_hyps. rewrite (trim_start_nows (c :: s)) by naive_solver.
  rewrite trim_start_nows, rev_involutive; [done|].
  intros d s' E. rewrite <- rev_head_last, E in H0. simpl in H0. by bool_hyps.
Qed.

Lemma trim_trimmed s : trimmed (trim s) = true.
Proof.
  unfold trim, trim_end. set (t := trim_start s).
  destruct (trim_start_suffix (rev t)) as (w & Hw & HF).
  destruct (trim_start (rev t)) as [|d r] eqn:E; [done|].
  assert (Hd := trim_start_head _ _ _ E).
  assert (Ht : t = rev (d :: r) ++ rev w).
  { rewrite <- rev_app_distr, <- Hw. by rewrite rev_involutive. }
  destruct (rev (d :: r)) as [|c q] eqn:Er.
  { simpl in Er. by destruct (rev r). }
  assert (Hc : is_ws c = false).
  { apply (trim_start_head s c (q ++ rev w)). fold t. by rewrite Ht. }
  assert (Hl : last (c :: q) = Some d) by (rewrite <- Er, last_rev_head; done).
  unfold trimmed. rewrite Hl, Hc, Hd. done.
Qed.

Lemma trim_idem s : trim (trim s) = trim s.
Proof. apply trimmed_trim, trim_trimmed. Qed.

Lemma trim_trimmed_iff s : trimmed s = true <-> trim s = s.
Proof. split; [apply trimmed_trim|]. intros <-. apply trim_trimmed. Qed.

Lemma trim_start_incl s c : In c (trim_start s) -> In c s.
Proof.
  destruct (trim_start_suffix s) as (w & Hw & _). rewrite Hw at 2.
  rewrite in_app_iff. auto.
Qed.

Lemma trim_incl s c : In c (trim s) -> In c s.
Proof.
  unfold trim, trim_end. rewrite <- in_rev.
  intros H%trim_start_incl. rewrite <- in_rev in H. by apply trim_start_incl.
Qed.

Lemma trim_all_ws s : Forall (fun c => is_ws c = true) s -> trim s = [].
Proof.
  intros H. unfold trim, trim_end.
  rewrite <- (app_nil_r s), trim_start_app_ws; done.
Qed.

Lemma trimmed_digits s : Forall (fun c => is_ws c = false) s -> trimmed s = true.
Proof.
  intros H. unfold trimmed. destruct s as [|c s]; [done|].
  rewrite (Forall_inv H). simpl andb.
  destruct (last (c :: s)) eqn:E; [|done].
  apply last_Some_elem_of in E. rewrite Forall_forall in H. by rewrite H.
Qed.

Lemma trimmed_last w c : trimmed (w ++ [c]) = true -> is_ws c = false.
Proof.
  unfold trimmed. rewrite last_snoc.
  destruct (w ++ [c]) eqn:E; [by destruct w|]. intros. by bool_hyps.
Qed.

Lemma trimmed_ends a w b : is_ws a = false -> is_ws b = false -> trimmed (a :: w ++ [b]) = true.
Proof.
  intros Ha Hb. unfold trimmed. rewrite Ha. change (a :: w ++ [b]) with ((a :: w) ++ [b]).
  by rewrite last_snoc, Hb.
Qed.

(** ** Lemmas: searching *)

Lemma starts_with_spec p s : starts_with p s = true <-> exists t, s = p ++ t.
Proof.
  revert s. induction p as [|a p IH]; intros s; simpl.
  - split; [by exists s|done].
  - destruct s as [|b s]; [split; [done|by intros [? ?]]|].
    rewrite andb_true_iff, N.eqb_eq, IH. split.
    + intros [-> [t ->]]. by exists t.
    + intros [t [= -> ->]]. split; [done|by exists t].
Qed.

Lemma starts_with_app p s : starts_with p (p ++ s) = true.
Proof. apply starts_with_spec. by exists s. Qed.

Lemma index_of_Some p s i :
  index_of p s = Some i ->
  exists a b, s = a ++ p ++ b /\ length a = i /\
    (forall a' b', s = a' ++ p ++ b' -> length a <= length a')%nat.
Proof.
  revert i. induction s as [|c s IH]; intros i; simpl.
  - destruct (starts_with p []) eqn:E; [|done].
    intros [= <-]. apply starts_with_spec in E as [t E].
    exists [], t. split_and!; [done|done|]. simpl. lia.
  - destruct (starts_with p (c :: s)) eqn:E.
    + intros [= <-]. apply starts_with_spec in E as [t E].
      exists [], t. split_and!; [done|done|]. simpl. lia.
    + destruct (index_of p s) as [j|] eqn:Ej; [|done]. intros [= <-].
      destruct (IH j eq_refl) as (a & b & -> & <- & Hm).
      exists (c :: a), b. split_and!; [done|done|].
      intros [|d a'] b' Heq.
      { assert (starts_with p (c :: a ++ p ++ b) = true); [|congruence].
        apply starts_with_spec. by exists b'. }
      simplify_eq/=. apply le_n_S. by eapply Hm.
Qed.

Lemma index_of_None p s a b : index_of p s = None -> s <> a ++ p ++ b.
Proof.
  revert a. induction s as [|c s IH]; intros a; simpl; intros H Heq.
  - destruct a, p; try done.
  - destruct (starts_with p (c :: s)) eqn:E; [done|].
    destruct a as [|d a]; simpl in Heq.
    + assert (starts_with p (c :: s) = true); [|congruence].
      apply starts_with_spec. by exists b.
    + simplify_eq. destruct (index_of p _) eqn:Ei; [done|]. by eapply IH.
Qed.

Lemma includes_spec p s : includes p s = true <-> exists a b, s = a ++ p ++ b.
Proof.
  unfold includes. destruct (index_of p s) eqn:E.
  - apply index_of_Some in E as (a & b & -> & _). split; eauto.
  - split; [done|]. intros (a & b & Hs). by destruct (index_of_None p s a b).
Qed.

Lemma includes_char c s : includes [c] s = true <-> In c s.
Proof.
  rewrite includes_spec. split.
  - intros (a & b & ->). rewrite !in_app_iff. simpl. auto.
  - intros (a & b & ->)%in_split. by exists a, b.
Qed.

(** ** Lemmas: split and join *)

Lemma split_on_nonempty c s : split_on c s <> [].
Proof. destruct s as [|a s]; simpl; [done|]. case_if; [done|]. by destruct (split_on c s). Qed.

Lemma split_on_no_sep c s : ~ In c s -> split_on c s = [s].
Proof.
  induction s as [|a s IH]; simpl; [done|]. intros H.
  destruct (N.eqb_spec a c); [naive_solver|]. rewrite IH; [done|naive_solver].
Qed.

Lemma split_on_app c s t :
  ~ In c s -> split_on c (s ++ c :: t) = s :: split_on c t.
Proof.
  induction s as [|a s IH]; simpl.
  - by rewrite N.eqb_refl.
  - intros H. destruct (N.eqb_spec a c); [naive_solver|].
    rewrite IH; [done|naive_solver].
Qed.

Lemma split_on_join c xs :
  xs <> [] -> Forall (fun x => ~ In c x) xs -> split_on c (js_join [c] xs) = xs.
Proof.
  induction xs as [|x xs IH]; [done|]. intros _ HF. inv HF as [|? ? Hx Hxs].
  destruct xs as [|y xs]; simpl.
  - by apply split_on_no_sep.
  - simpl in IH. rewrite split_on_app by done. f_equal. apply IH; done.
Qed.

Lemma join_split_on c s : js_join [c] (split_on c s) = s.
Proof.
  induction s as [|a s IH]; simpl; [done|].
  assert (Hne := split_on_nonempty c s).
  destruct (N.eqb_spec a c) as [->|]; destruct (split_on c s) as [|w ws] eqn:E; try done.
  - simpl. simpl in IH. by rewrite IH.
  - simpl in *. destruct ws; simpl in *; by rewrite IH.
Qed.

Lemma split_on_elem c s x : In x (split_on c s) -> ~ In c x.
Proof.
  revert x. induction s as [|a s IH]; intros x; simpl.
  - intros [<-|[]]. auto.
  - destruct (N.eqb_spec a c).
    + intros [<-|]; [auto|by apply IH].
    + destruct (split_on c s) as [|w ws] eqn:E.
      * by destruct (split_on_nonempty c s).
      * intros [<-|Hx]; [|by apply IH; right].
        intros [->|Hc]; [done|]. by apply (IH w); [left|].
Qed.

Lemma trim_nonempty_elem xs x :
  In x (trim_nonempty xs) <-> x <> [] /\ exists y, In y xs /\ x = trim y.
Proof.
  unfold trim_nonempty. rewrite filter_In, in_map_iff, truthy_str_spec. naive_solver.
Qed.

Lemma trim_nonempty_id xs :
  Forall (fun x => x <> [] /\ trimmed x = true) xs -> trim_nonempty xs = xs.
Proof.
  induction 1 as [|x xs [Hx Ht] _ IH]; [done|].
  unfold trim_nonempty in *. simpl. rewrite trimmed_trim by done.
  apply truthy_str_spec in Hx. by rewrite Hx, IH.
Qed.

Lemma js_join_Forall (P : N -> Prop) sep xs :
  Forall P sep -> Forall (Forall P) xs -> Forall P (js_join sep xs).
Proof.
  intros Hsep. induction 1 as [|x xs Hx Hxs IH]; [constructor|].
  destruct xs as [|y xs]; [done|].
  change (js_join sep (x :: y :: xs)) with (x ++ sep ++ js_join sep (y :: xs)).
  by rewrite !Forall_app.
Qed.

Lemma replace_class_id p r s :
  Forall (fun c => p c = false) s -> replace_class p r s = s.
Proof.
  unfold replace_class. induction 1 as [|c s Hc _ IH]; simpl; [done|].
  by rewrite Hc, IH.
Qed.

Lemma js_join_truthy sep x xs : x <> [] -> truthy_str (js_join sep (x :: xs)) = true.
Proof. intros Hx. destruct x; [done|]. by destruct xs. Qed.

(** ** Decimal notation of integers *)

(** [Number.parseInt(s, 10)] on a string of digits, and the value of a digit run. *)
Definition dec_step (acc : Z) (c : N) : Z := (acc * 10 + (Z.of_N c - 48))%Z.

Definition parse_dec (s : jstr) : Z := fold_left dec_step s 0%Z.

(** [/^\d+$/.test(s)] *)
Definition all_digits (s : jstr) : bool :=
  match s with [] => false | _ => forallb is_digit s end.

Fixpoint print_dec_fuel (f : nat) (z : Z) (acc : jstr) : jstr :=
  match f with
  | O => acc
  | S f' =>
      let acc' := (48 + Z.to_N (z mod 10))%N :: acc in
      if (z <? 10)%Z then acc' else print_dec_fuel f' (z / 10) acc'
  end.

(** Decimal digits of a non-negative integer; [log2 z + 1] rounds are enough
    because each round divides by ten. *)
Definition print_nat_dec (z : Z) : jstr :=
  print_dec_fuel (S (Z.to_nat (Z.log2 z))) z [].

(** [`${z}`] for an integer-valued number below 1e21. *)
Definition print_int (z : Z) : jstr :=
  if (z <? 0)%Z then u "-" :: print_nat_dec (- z) else print_nat_dec z.

Lemma is_digit_spec c : is_digit c = true <-> (48 <= c <= 57)%N.
Proof. unfold is_digit. rewrite andb_true_iff, !N.leb_le. done. Qed.

Lemma digit_char_ok d : (0 <= d < 10)%Z -> is_digit (48 + Z.to_N d) = true.
Proof. intros. apply is_digit_spec. lia. Qed.

Lemma parse_dec_app s t :
  parse_dec (s ++ t) = fold_left dec_step t (parse_dec s).
Proof. apply fold_left_app. Qed.

Lemma print_dec_fuel_parse f z acc :
  (0 <= z < 2 ^ Z.of_nat f)%Z ->
  exists k, forall x, fold_left dec_step (print_dec_fuel f z acc) x
    = fold_left dec_step acc (x * k + z)%Z.
Proof.
  revert z acc. induction f as [|f IH]; intros z acc Hz.
  - exists 1%Z. intros x. simpl in *. f_equal. lia.
  - simpl print_dec_fuel.
    assert (Hm : (0 <= z mod 10 < 10)%Z) by (apply Z.mod_pos_bound; lia).
    assert (Hdiv := Z.div_mod z 10 ltac:(lia)).
    destruct (z <? 10)%Z eqn:E; bool_hyps.
    + exists 10%Z. intros x. simpl. f_equal.
      unfold dec_step. rewrite Z.mod_small by lia. lia.
    + assert (Hb : (0 <= z / 10 < 2 ^ Z.of_nat f)%Z).
      { split; [apply Z.div_pos; lia|]. apply Z.div_lt_upper_bound; [lia|].
        rewrite Nat2Z.inj_succ, Z.pow_succ_r in Hz by lia. lia. }
      destruct (IH (z / 10)%Z ((48 + Z.to_N (z mod 10))%N :: acc) Hb) as (k & Hf).
      exists (k * 10)%Z. intros x. rewrite Hf. simpl. f_equal. unfold dec_step. lia.
Qed.

Lemma print_nat_dec_parse z : (0 <= z)%Z -> parse_dec (print_nat_dec z) = z.
Proof.
  intros Hz. unfold print_nat_dec, parse_dec.
  assert (Hb : (0 <= z < 2 ^ Z.of_nat (S (Z.to_nat (Z.log2 z))))%Z).
  { split; [done|]. assert (Hl := Z.log2_nonneg z).
    replace (Z.of_nat (S (Z.to_nat (Z.log2 z)))) with (Z.succ (Z.log2 z)) by lia.
    destruct (Z.eq_dec z 0%Z) as [->|]; [done|]. apply Z.log2_spec. lia. }
  destruct (print_dec_fuel_parse _ z [] Hb) as (k & Hf).
  rewrite Hf. simpl. lia.
Qed.

Lemma print_dec_fuel_digits f z acc :
  (0 <= z)%Z -> forallb is_digit acc = true -> forallb is_digit (print_dec_fuel f z acc) = true.
Proof.
  revert z acc. induction f as [|f IH]; intros z acc Hz Ha; simpl; [done|].
  assert (Hm : (0 <= z mod 10 < 10)%Z) by (apply Z.mod_pos_bound; lia).
  case_if; [|apply IH; [apply Z.div_pos; lia|]];
    simpl; by rewrite digit_char_ok.
Qed.

Lemma print_dec_fuel_nonempty f z acc : acc <> [] -> print_dec_fuel f z acc <> [].
Proof.
  revert z acc. induction f as [|f IH]; intros z acc Ha; simpl; [done|].
  case_if; [done|]. by apply IH.
Qed.

Lemma print_nat_dec_all_digits z : (0 <= z)%Z -> all_digits (print_nat_dec z) = true.
Proof.
  intros Hz. unfold all_digits.
  assert (H := print_dec_fuel_digits (S (Z.to_nat (Z.log2 z))) z [] Hz eq_refl).
  unfold print_nat_dec in *.
  destruct (print_dec_fuel _ z []) as [|c s] eqn:E; [|done].
  exfalso. simpl in E. destruct (z <? 10)%Z; [done|].
  by apply print_dec_fuel_nonempty in E.
Qed.

Lemma print_nat_dec_inj a b :
  (0 <= a)%Z -> (0 <= b)%Z -> print_nat_dec a = print_nat_dec b -> a = b.
Proof.
  intros Ha Hb E. rewrite <- (print_nat_dec_parse a), <- (print_nat_dec_parse b) by done.
  by rewrite E.
Qed.

Lemma all_digits_Forall s : all_digits s = true -> Forall (fun c => is_digit c = true) s.
Proof.
  destruct s as [|c s]; [done|]. unfold all_digits. intros H.
  apply Forall_forall. intros x Hx. rewrite forallb_forall in H.
  apply H. by apply list_elem_of_In.
Qed.

(** ** Code-unit order: the order of [<] and of [sort()] without a comparator *)

Local Open Scope Z_scope.

Fixpoint codeUnitCompare (a b : jstr) : Z :=
  match a, b with
  | [], [] => 0
  | [], _ => -1
  | _, [] => 1
  | x :: a', y :: b' => if (x <? y)%N then -1 else if (y <? x)%N then 1 else codeUnitCompare a' b'
  end.

Lemma codeUnitCompare_eq a b : codeUnitCompare a b = 0 -> a = b.
Proof.
  revert b. induction a as [|x a IH]; intros [|y b]; simpl; try done.
  destruct (x <? y)%N eqn:E1; [done|]. destruct (y <? x)%N eqn:E2; [done|].
  intros H. bool_hyps. rewrite (IH b H). f_equal. lia.
Qed.

Lemma codeUnitCompare_sign a b : codeUnitCompare a b = - codeUnitCompare b a.
Proof.
  revert b. induction a as [|x a IH]; intros [|y b]; simpl; try done.
  destruct (x <? y)%N eqn:E1, (y <? x)%N eqn:E2; try done; bool_hyps; lia.
Qed.

Lemma codeUnitCompare_trans a b c :
  codeUnitCompare a b <= 0 -> codeUnitCompare b c <= 0 -> codeUnitCompare a c <= 0.
Proof.
  revert b c. induction a as [|x a IH]; intros [|y b] [|z c]; simpl; try lia.
  destruct (x <? y)%N eqn:E1, (y <? x)%N eqn:E2, (y <? z)%N eqn:E3, (z <? y)%N eqn:E4,
    (x <? z)%N eqn:E5, (z <? x)%N eqn:E6; bool_hyps; try lia. apply IH.
Qed.

#[export] Instance codeUnit_comparator : ConsistentComparator codeUnitCompare.
Proof.
  constructor; [|apply codeUnitCompare_trans]. intros a b H. rewrite codeUnitCompare_sign. lia.
Qed.
