(* ===== verification/JsNumber.v ===== *)
(** * JavaScript numbers

    A JavaScript number is an IEEE 754 binary64; the development uses the
    executable specification of binary floating point of the standard library
    ([SpecFloat], 53 bits of precision, maximal exponent 1024).  The file adds
    what ECMAScript builds on top: [ToNumber] of a string (correctly rounded
    decimal input, also hexadecimal, octal and binary integers and [Infinity])
    and [Number::toString] (the shortest decimal that reads back as the same
    number, in ECMAScript's fixed or exponent layout). *)
From S2P Require Import Prelude JsString.
From stdpp Require Import prelude list strings.
From Stdlib Require Import NArith Ascii SpecFloat.

Notation number := spec_float.
#[export] Instance number_eq_dec : EqDecision number. Proof. solve_decision. Defined.

Definition prec64 : Z := 53.
Definition emax64 : Z := 1024.

Definition num_add : number -> number -> number := SFadd prec64 emax64.
Definition num_sub : number -> number -> number := SFsub prec64 emax64.
Definition num_mul : number -> number -> number := SFmul prec64 emax64.
Definition num_div : number -> number -> number := SFdiv prec64 emax64.

(** [===], [<] and [<=] on numbers: [NaN] is unequal to itself, [0 === -0]. *)
Definition num_eqb : number -> number -> bool := SFeqb.
Definition num_ltb : number -> number -> bool := SFltb.
Definition num_leb : number -> number -> bool := SFleb.

Definition num_zero : number := S754_zero false.
Definition num_nan : number := S754_nan.
Definition num_inf : number := S754_infinity false.

(** The number nearest to an integer. *)
Definition num_of_Z (z : Z) : number := binary_normalize prec64 emax64 z 0 false.

(** [Number.isFinite] *)
Definition num_is_finite (x : number) : bool :=
  match x with S754_zero _ | S754_finite _ _ _ => true | _ => false end.

(** Boolean coercion: zeros and [NaN] are falsy. *)
Definition num_truthy (x : number) : bool :=
  match x with S754_zero _ | S754_nan => false | _ => true end.

(** [x || 0] *)
Definition num_or_zero (x : number) : number := if num_truthy x then x else num_zero.

Lemma num_or_zero_idem x : num_or_zero (num_or_zero x) = num_or_zero x.
Proof. by destruct x. Qed.

(** The integer value of a number that has one. *)
Definition num_to_Z (x : number) : option Z :=
  match x with
  | S754_zero _ => Some 0%Z
  | S754_finite s m e =>
      let v := if (0 <=? e)%Z then Some (Z.pos m * 2 ^ e)%Z
               else if (Z.pos m mod 2 ^ (- e) =? 0)%Z then Some (Z.pos m / 2 ^ (- e))%Z
               else None in
      (fun z => if s then (- z)%Z else z) <$> v
  | _ => None
  end.

(** ** Decimal input *)

(** Number of decimal digits of a non-negative integer. *)
Definition ndigits (z : Z) : Z := Z.of_nat (length (print_nat_dec z)).

(** The binary64 nearest to [(-1)^neg * m * 10^e], ties to even.  Values beyond
    the range are sent to infinity or zero before the power of ten is formed. *)
Definition num_of_dec (neg : bool) (m e : Z) : number :=
  match m with
  | Zpos p =>
      let d := (e + ndigits m)%Z in
      if (310 <? d)%Z then S754_infinity neg
      else if (d <? -330)%Z then S754_zero neg
      else if (0 <=? e)%Z
           then binary_normalize prec64 emax64 (if neg then - (m * 10 ^ e) else m * 10 ^ e) 0 neg
           else SFdiv prec64 emax64 (S754_finite neg p 0) (S754_finite false (Z.to_pos (10 ^ (- e))) 0)
  | _ => S754_zero neg
  end.

Fixpoint span (p : N -> bool) (s : jstr) : jstr * jstr :=
  match s with
  | c :: s' => if p c then let '(a, b) := span p s' in (c :: a, b) else ([], s)
  | [] => ([], [])
  end.

Definition is_e (c : N) : bool := (c =? u "e")%N || (c =? u "E")%N.

(** An optional exponent part; [None] when [e] is not followed by digits. *)
Definition scan_exp (s : jstr) : option (Z * jstr) :=
  match s with
  | c :: r =>
      if is_e c then
        let '(neg, r1) :=
          match r with
          | c1 :: r' => if (c1 =? u "-")%N then (true, r')
                        else if (c1 =? u "+")%N then (false, r') else (false, r)
          | [] => (false, [])
          end in
        let '(ds, r2) := span is_digit r1 in
        match ds with
        | [] => None
        | _ => Some (if neg then (- parse_dec ds)%Z else parse_dec ds, r2)
        end
      else Some (0%Z, s)
  | [] => Some (0%Z, [])
  end.

(** [StrUnsignedDecimalLiteral] without [Infinity], from the start of [s]. *)
Definition scan_udec (s : jstr) : option (Z * Z * jstr) :=
  let '(ip, r) := span is_digit s in
  let '(fp, r1) :=
    match r with
    | c :: r' => if (c =? u ".")%N then span is_digit r' else ([], r)
    | [] => ([], [])
    end in
  match ip ++ fp with
  | [] => None
  | ds =>
      '(e, r2) ← scan_exp r1;
      Some (parse_dec ds, (e - Z.of_nat (length fp))%Z, r2)
  end.

Definition hex_value (c : N) : option N :=
  if is_digit c then Some (c - 48)%N
  else if ((97 <=? c) && (c <=? 102))%N then Some (c - 87)%N
  else if ((65 <=? c) && (c <=? 70))%N then Some (c - 55)%N
  else None.

(** Digits of an integer in base [b], all of the string. *)
Fixpoint radix_value (b : N) (acc : Z) (s : jstr) : option Z :=
  match s with
  | [] => Some acc
  | c :: s' =>
      match hex_value c with
      | Some d => if (d <? b)%N then radix_value b (acc * Z.of_N b + Z.of_N d) s' else None
      | None => None
      end
  end.

(** [Number(s)] for a string: [NaN] when it is not a numeric literal. *)
Definition num_of_str (s : jstr) : number :=
  let t := trim s in
  match t with
  | [] => num_zero
  | c :: r =>
      let '(sgn, neg, body) :=
        if (c =? u "-")%N then (true, true, r)
        else if (c =? u "+")%N then (true, false, r) else (false, false, t) in
      if bool_decide (body = js "Infinity") then S754_infinity neg
      else
        let radix :=
          match body with
          | z :: x :: ds =>
              if ((z =? 48)%N && negb sgn)%bool then
                if ((x =? u "x") || (x =? u "X"))%N then Some (16%N, ds)
                else if ((x =? u "o") || (x =? u "O"))%N then Some (8%N, ds)
                else if ((x =? u "b") || (x =? u "B"))%N then Some (2%N, ds)
                else None
              else None
          | _ => None
          end in
        match radix with
        | Some (b, ds) =>
            match ds with
            | [] => num_nan
            | _ => match radix_value b 0 ds with Some z => num_of_Z z | None => num_nan end
            end
        | None =>
            match scan_udec body with
            | Some (m, e, []) => num_of_dec neg m e
            | _ => num_nan
            end
        end
  end.

(** ** Output: [Number::toString] *)

(** [floor (x * 10^j)] for [x = m * 2^e], and whether a remainder is at least half. *)
Definition scaled (m e j : Z) : Z * Z * Z :=
  let num := (m * (if (0 <=? e)%Z then 2 ^ e else 1) * (if (0 <=? j)%Z then 10 ^ j else 1))%Z in
  let den := ((if (0 <=? e)%Z then 1 else 2 ^ (- e)) * (if (0 <=? j)%Z then 1 else 10 ^ (- j)))%Z in
  (num / den, num mod den, den)%Z.

(** The position of the decimal point: [10^(n-1) <= m*2^e < 10^n]; the search
    starts below the estimate from the binary logarithm. *)
Fixpoint point_search (fuel : nat) (m e n : Z) : Z :=
  match fuel with
  | O => n
  | S f =>
      let '(q, _, _) := scaled m e (- n) in
      if (q =? 0)%Z then n else point_search f m e (n + 1)
  end.

Definition point_of (m e : Z) : Z :=
  point_search 10 m e ((Z.log2 m + e) * 30102 / 100000 - 1).

(** The [k]-digit decimals next to [x = m*2^e], nearest first, as significands
    of [10^(n-k)]. *)
Definition candidates (m e n k : Z) : list Z :=
  let '(q, r, d) := scaled m e (k - n) in
  if (2 * r <? d)%Z then [q; q + 1]%Z
  else if (2 * r =? d)%Z then (if Z.even q then [q; q + 1]%Z else [q + 1; q]%Z)
  else [q + 1; q]%Z.

Definition reads_back (m : positive) (e : Z) (s : Z) (x : Z) : bool :=
  match num_of_dec false s x with
  | S754_finite false m' e' => (m =? m')%positive && (e =? e')%Z
  | _ => false
  end.

(** The shortest significand with its point position, 17 digits being always
    enough; a candidate that rounds up to [10^k] is [10^(k-1)] one place higher. *)
Definition carry (s n k : Z) : Z * Z :=
  if (s =? 10 ^ k)%Z then (10 ^ (k - 1), n + 1)%Z else (s, n).

Fixpoint shortest (fuel : nat) (m : positive) (e n k : Z) : Z * Z :=
  match fuel with
  | O => carry (match candidates (Z.pos m) e n k with s :: _ => s | [] => 0%Z end) n k
  | S f =>
      match List.filter (fun s => reads_back m e s (n - k)) (candidates (Z.pos m) e n k) with
      | s :: _ => carry s n k
      | [] => shortest f m e n (k + 1)
      end
  end.

Definition layout (digits : jstr) (n : Z) : jstr :=
  let k := Z.of_nat (length digits) in
  let zeros i := repeat 48%N (Z.to_nat i) in
  if ((k <=? n) && (n <=? 21))%Z then digits ++ zeros (n - k)%Z
  else if ((0 <? n) && (n <=? 21))%Z then
    take (Z.to_nat n) digits ++ u "." :: drop (Z.to_nat n) digits
  else if ((-6 <? n) && (n <=? 0))%Z then js "0." ++ zeros (- n)%Z ++ digits
  else
    let x := (n - 1)%Z in
    let ex := u "e" :: (if (x <? 0)%Z then u "-" else u "+") :: print_nat_dec (Z.abs x) in
    match digits with
    | [d] => d :: ex
    | d :: ds => d :: u "." :: ds ++ ex
    | [] => ex
    end.

Definition num_to_str (x : number) : jstr :=
  match x with
  | S754_nan => js "NaN"
  | S754_zero _ => js "0"
  | S754_infinity s => (if s then js "-" else []) ++ js "Infinity"
  | S754_finite s m e =>
      let '(sig, n) := shortest 16 m e (point_of (Z.pos m) e) 1 in
      (if s then js "-" else []) ++ layout (print_nat_dec sig) n
  end.

(** [Math.floor x] for a finite [x]. *)
Definition num_floor (x : number) : option Z :=
  match x with
  | S754_zero _ => Some 0%Z
  | S754_finite s m e =>
      let z := if s then Z.neg m else Z.pos m in
      Some (if (0 <=? e)%Z then z * 2 ^ e else z / 2 ^ (- e))%Z
  | _ => None
  end.

(** [Math.round x]: the nearest integer, the larger one on a tie; the sign of
    a zero result is that of [x]. *)
Definition num_round (x : number) : number :=
  match x with
  | S754_finite s m e =>
      if (0 <=? e)%Z then x
      else let z := if s then Z.neg m else Z.pos m in
           match ((2 * z + 2 ^ (- e)) / 2 ^ (- e + 1))%Z with
           | Z0 => S754_zero s
           | r => num_of_Z r
           end
  | _ => x
  end.

(** [Math.abs x], [Math.max a b] *)
Definition num_abs (x : number) : number := SFabs x.
Definition num_max (a b : number) : number :=
  match a, b with
  | S754_nan, _ | _, S754_nan => S754_nan
  | S754_zero sa, S754_zero sb => S754_zero (sa && sb)
  | _, _ => if num_ltb a b then b else a
  end.

(** [parseFloat s]: the longest prefix that is a decimal literal. *)
Definition parse_float (s : jstr) : number :=
  let t := trim_start s in
  let '(neg, body) :=
    match t with
    | c :: r => if (c =? u "-")%N then (true, r) else if (c =? u "+")%N then (false, r) else (false, t)
    | [] => (false, [])
    end in
  if starts_with (js "Infinity") body then S754_infinity neg
  else
    let '(ip, r) := span is_digit body in
    let '(fp, r1) :=
      match r with
      | c :: r' => if (c =? u ".")%N then span is_digit r' else ([], r)
      | [] => ([], [])
      end in
    match ip ++ fp with
    | [] => num_nan
    | ds => let e := match scan_exp r1 with Some (e, _) => e | None => 0%Z end in
            num_of_dec neg (parse_dec ds) (e - Z.of_nat (length fp))
    end.

(** [x.toFixed(d)] below [10^21]: the nearest multiple of [10^-d], the larger
    one on a tie. *)
Definition fixed_digits (d z : Z) : jstr :=
  let s := print_nat_dec z in
  let p := repeat 48%N (Z.to_nat (d + 1 - Z.of_nat (length s))) ++ s in
  let i := (length p - Z.to_nat d)%nat in
  if (d =? 0)%Z then p else take i p ++ u "." :: drop i p.

Definition num_to_fixed (d : Z) (x : number) : jstr :=
  match x with
  | S754_zero _ => fixed_digits d 0
  | S754_finite s m e =>
      let '(q, r, den) := scaled (Z.pos m) e d in
      let z := if (den <=? 2 * r)%Z then (q + 1)%Z else q in
      if (10 ^ (21 + d) <=? z)%Z then num_to_str x
      else (if s then js "-" else []) ++ fixed_digits d z
  | _ => num_to_str x
  end.

(** ** Conformance samples *)
Example num_to_fixed_samples :
  map (fun p => num_to_fixed (snd p) (num_of_str (js (fst p))))
    [("0.34", 2); ("1.005", 2); ("-1.5", 0); ("0.000001", 3); ("123.456", 1); ("2.5", 0); ("1e21", 2)]%string%Z
  = map js ["0.34"; "1.00"; "-2"; "0.000"; "123.5"; "3"; "1e+21"]%string.
Proof. vm_compute. reflexivity. Qed.

Example num_round_samples :
  map (fun s => num_to_str (num_round (num_of_str (js s)))) ["2.5"; "-2.5"; "2.4999"; "0.49999999999999994"; "1e300"; "7"]%string
  = map js ["3"; "-2"; "2"; "0"; "1e+300"; "7"]%string.
Proof. vm_compute. reflexivity. Qed.

Example parse_float_samples :
  map (fun s => num_to_str (parse_float (js s))) [" 1.50abc"; "-.5e1"; "3e"; "."; "Infinityx"; "5."; "0x10"; ""]%string
  = map js ["1.5"; "-5"; "3"; "NaN"; "Infinity"; "5"; "0"; "NaN"]%string.
Proof. vm_compute. reflexivity. Qed.

Example num_to_str_samples :
  map (fun s => num_to_str (num_of_str (js s)))
    ["0.1"; "1.50"; "123456789"; "1e21"; "1e-7"; "0.000001"; "5e-324"; "1.7976931348623157e308";
     "1e400"; "-2.5"; "9007199254740993"; "0.30000000000000004"; "1e23"; ""; "0x1F"; "1+1"; ".5"; "5."]%string
  = map js
    ["0.1"; "1.5"; "123456789"; "1e+21"; "1e-7"; "0.000001"; "5e-324"; "1.7976931348623157e+308";
     "Infinity"; "-2.5"; "9007199254740992"; "0.30000000000000004"; "1e+23"; "0"; "31"; "NaN"; "0.5"; "5"]%string.
Proof. vm_compute. reflexivity. Qed.

Example num_add_sample :
  num_to_str (num_add (num_of_str (js "0.1")) (num_of_str (js "0.2"))) = js "0.30000000000000004".
Proof. vm_compute. reflexivity. Qed.
