(* ===== verification/JsInteger.v ===== *)
(** * Integers as binary64 numbers

    JavaScript counts in binary64 numbers.  Below [2^53] the numbers of two
    integers are added, subtracted and compared exactly; the components that
    keep counters as integers rely on this file. *)
From Stdlib Require Import SpecFloat.
From stdpp Require Import prelude list.
From S2P Require Import Prelude JsNumber.
Open Scope Z_scope.

(** ** Shifts of mantissas *)

(** The mantissa [p * 2^k]. *)
Definition shl (k : nat) (p : positive) : positive := Nat.iter k xO p.

Lemma shl_value k p : Zpos (shl k p) = Zpos p * 2 ^ Z.of_nat k.
Proof.
  induction k as [|k IH]; [simpl; lia|]. change (shl (S k) p) with (xO (shl k p)).
  rewrite Nat2Z.inj_succ, Z.pow_succ_r, Pos2Z.inj_xO, IH by lia. ring.
Qed.

Lemma shl_shl a b p : shl a (shl b p) = shl (a + b) p.
Proof. induction a as [|a IH]; [done|]. simpl. f_equal. exact IH. Qed.

Lemma shl_digits k p : Zpos (digits2_pos (shl k p)) = Zpos (digits2_pos p) + Z.of_nat k.
Proof.
  induction k as [|k IH]; [simpl; lia|]. change (shl (S k) p) with (xO (shl k p)). cbn [digits2_pos].
  rewrite Pos2Z.inj_succ, IH. lia.
Qed.

Lemma pos_iter_shl d p : Pos.iter xO p d = shl (Pos.to_nat d) p.
Proof. apply Pos2Nat.inj_iter. Qed.

Lemma iter_pos_iter {A} (f : A -> A) n x : SpecFloat.iter_pos f n x = Nat.iter (Pos.to_nat n) f x.
Proof.
  revert x. induction n as [n IH|n IH|]; intros x; cbn [SpecFloat.iter_pos]; [| |done];
    rewrite !IH, <- Nat.iter_add.
  - rewrite Pos2Nat.inj_xI, <- Nat.iter_succ_r. f_equal. lia.
  - rewrite Pos2Nat.inj_xO. f_equal. lia.
Qed.

(** Shifting back drops only zeros. *)
Lemma shr_shl k p :
  Nat.iter k shr_1 (Build_shr_record (Zpos (shl k p)) false false) = Build_shr_record (Zpos p) false false.
Proof. induction k as [|k IH]; [done|]. rewrite Nat.iter_succ_r. exact IH. Qed.

Lemma digits_bounds p : 2 ^ (Zpos (digits2_pos p) - 1) <= Zpos p < 2 ^ Zpos (digits2_pos p).
Proof.
  induction p as [p IH|p IH|]; [| |simpl; lia].
  1: rewrite (Pos2Z.inj_xI p). 2: rewrite (Pos2Z.inj_xO p).
  all: cbn [digits2_pos]; rewrite Pos2Z.inj_succ; set (d := Zpos (digits2_pos p)) in *.
  all: replace (Z.succ d - 1) with (Z.succ (d - 1)) by lia; rewrite !Z.pow_succ_r by lia; lia.
Qed.

Lemma digits_le p : Zpos p < 2 ^ 53 -> Zpos (digits2_pos p) <= 53.
Proof.
  intros H. destruct (Z.le_gt_cases (Zpos (digits2_pos p)) 53); [done|].
  pose proof (digits_bounds p). pose proof (Z.pow_le_mono_r 2 53 (Zpos (digits2_pos p) - 1)). lia.
Qed.

(** ** Rounding an integer that needs no rounding *)

Lemma fexp64 e : -1021 <= e -> fexp prec64 emax64 e = e - 53.
Proof. intros H. unfold fexp, emin, prec64, emax64. lia. Qed.

(** A mantissa of 53 digits is left alone. *)
Lemma shr_fexp_full q e :
  Zpos (digits2_pos q) = 53 -> -1074 <= e ->
  shr_fexp prec64 emax64 (Zpos q) e loc_Exact = (Build_shr_record (Zpos q) false false, e).
Proof.
  intros Hd He. unfold shr_fexp. cbn [Zdigits2]. rewrite Hd, fexp64 by lia.
  replace (53 + e - 53 - e) with 0 by lia. done.
Qed.

Lemma round_aux_exact s q k e :
  Zpos (digits2_pos q) = 53 -> -1074 <= Z.of_nat k + e <= 971 -> -1074 <= e ->
  binary_round_aux prec64 emax64 s (Zpos (shl k q)) e loc_Exact = S754_finite s q (Z.of_nat k + e).
Proof.
  intros Hd Hke He. unfold binary_round_aux.
  assert (E : shr_fexp prec64 emax64 (Zpos (shl k q)) e loc_Exact =
              (Build_shr_record (Zpos q) false false, Z.of_nat k + e)).
  { unfold shr_fexp. cbn [Zdigits2]. rewrite shl_digits, Hd, fexp64 by lia.
    replace (53 + Z.of_nat k + e - 53 - e) with (Z.of_nat k) by lia. unfold shr. destruct k as [|k]; [done|].
    rewrite Nat2Z.inj_succ, <- Zpos_P_of_succ_nat, iter_pos_iter, SuccNat2Pos.id_succ. cbn [shr_record_of_loc].
    rewrite shr_shl. f_equal. lia. }
  rewrite E. cbn [loc_of_shr_record round_nearest_even shr_m]. rewrite shr_fexp_full by lia. cbn [shr_m].
  unfold emax64, prec64. by rewrite (proj2 (Z.leb_le _ _)) by lia.
Qed.

Lemma round_exact s p k :
  Zpos (digits2_pos p) <= 53 -> (k <= 1000)%nat ->
  binary_round prec64 emax64 s (shl k p) (- Z.of_nat k) =
  S754_finite s (shl (Z.to_nat (53 - Zpos (digits2_pos p))) p) (Zpos (digits2_pos p) - 53).
Proof.
  intros Hd Hk. unfold binary_round. rewrite shl_digits. set (d := Zpos (digits2_pos p)) in *.
  rewrite fexp64 by lia. unfold shl_align.
  set (q := shl (Z.to_nat (53 - d)) p).
  assert (Hq : Zpos (digits2_pos q) = 53) by (unfold q; rewrite shl_digits; lia).
  destruct (d + Z.of_nat k + - Z.of_nat k - 53 - - Z.of_nat k) as [|n|n] eqn:En.
  1,2: assert (Hs : shl k p = shl (Z.to_nat (Z.of_nat k + d - 53)) q)
         by (unfold q; rewrite shl_shl; f_equal; lia);
       rewrite Hs, round_aux_exact by lia; f_equal; lia.
  rewrite pos_iter_shl, shl_shl.
  assert (Hs : shl (Pos.to_nat n + k) p = shl 0 q) by (unfold q; rewrite shl_shl; f_equal; lia).
  rewrite Hs, round_aux_exact by lia. f_equal. lia.
Qed.

Lemma normalize_scaled z k :
  Z.abs z < 2 ^ 53 -> (k <= 1000)%nat ->
  binary_normalize prec64 emax64 (z * 2 ^ Z.of_nat k) (- Z.of_nat k) false = num_of_Z z.
Proof.
  intros Hz Hk. unfold num_of_Z. destruct z as [|p|p]; [done| |].
  - rewrite <- shl_value. cbn [binary_normalize]. rewrite round_exact by (lia || apply digits_le; lia).
    symmetry. apply (round_exact false p 0); [apply digits_le; lia|lia].
  - rewrite <- Pos2Z.opp_pos, Z.mul_opp_l, <- shl_value.
    change (- Zpos (shl k p)) with (Zneg (shl k p)). cbn [binary_normalize].
    rewrite round_exact by (lia || apply digits_le; lia).
    symmetry. apply (round_exact true p 0); [apply digits_le; lia|lia].
Qed.

(** The canonical form of an integer's number. *)
Lemma num_of_Z_pos p :
  Zpos p < 2 ^ 53 ->
  num_of_Z (Zpos p) = S754_finite false (shl (Z.to_nat (53 - Zpos (digits2_pos p))) p) (Zpos (digits2_pos p) - 53) /\
  num_of_Z (Zneg p) = S754_finite true (shl (Z.to_nat (53 - Zpos (digits2_pos p))) p) (Zpos (digits2_pos p) - 53).
Proof. intros H. split; apply (round_exact _ p 0); (lia || by apply digits_le). Qed.

(** ** Sums and differences *)

(** The mantissa of an integer aligned at an exponent not above its own. *)
Lemma shl_align_integer p (ez : Z) :
  Zpos p < 2 ^ 53 -> ez <= Zpos (digits2_pos p) - 53 ->
  Zpos (shl_align (shl (Z.to_nat (53 - Zpos (digits2_pos p))) p) (Zpos (digits2_pos p) - 53) ez).1 =
  Zpos p * 2 ^ (- ez).
Proof.
  intros Hp He. apply digits_le in Hp. unfold shl_align. set (d := Zpos (digits2_pos p)) in *.
  replace (- ez) with (Z.of_nat (Z.to_nat (d - 53 - ez) + Z.to_nat (53 - d))) by lia.
  rewrite <- shl_value, <- shl_shl. f_equal.
  destruct (ez - (d - 53)) as [|n|n] eqn:E; cbn [fst].
  - replace (d - 53 - ez) with 0 by lia. done.
  - lia.
  - rewrite pos_iter_shl. f_equal. lia.
Qed.

Lemma normalize_aligned z (ez : Z) :
  Z.abs z < 2 ^ 53 -> -1000 <= ez <= 0 -> binary_normalize prec64 emax64 (z * 2 ^ (- ez)) ez false = num_of_Z z.
Proof.
  intros Hz He. pose proof (normalize_scaled z (Z.to_nat (- ez)) Hz) as H.
  rewrite Z2Nat.id, Z.opp_involutive in H by lia. apply H. lia.
Qed.

(** Two integers that are not zero have finite numbers at exponents between -52
    and 0, whose aligned mantissas are multiples of the integers. *)
Lemma num_of_Z_finite z :
  z <> 0 -> Z.abs z < 2 ^ 53 ->
  exists s m e, num_of_Z z = S754_finite s m e /\ -52 <= e <= 0 /\
    forall ez, ez <= e -> cond_Zopp s (Zpos (shl_align m e ez).1) = z * 2 ^ (- ez).
Proof.
  intros Hz Hb. destruct z as [|p|p]; [done| |].
  all: assert (Hp : Zpos p < 2 ^ 53) by lia; pose proof (digits_le p Hp); destruct (num_of_Z_pos p Hp) as [H1 H2].
  all: eexists _, _, _; split; [(exact H1 || exact H2)|split; [lia|]].
  all: intros ez He; unfold cond_Zopp; rewrite (shl_align_integer p ez Hp He); lia.
Qed.

(** Integers are added exactly as long as the sum stays below [2^53]. *)
Theorem num_add_exact x y :
  Z.abs x < 2 ^ 53 -> Z.abs y < 2 ^ 53 -> Z.abs (x + y) < 2 ^ 53 ->
  num_add (num_of_Z x) (num_of_Z y) = num_of_Z (x + y).
Proof.
  intros Hx Hy Hs.
  destruct (Z.eq_dec x 0) as [->|Zx].
  { change (num_of_Z 0) with (S754_zero false). destruct (Z.eq_dec y 0) as [->|Zy]; [done|].
    destruct (num_of_Z_finite y Zy Hy) as (s & m & e & E & _). by rewrite E. }
  destruct (num_of_Z_finite x Zx Hx) as (sx & mx & ex & Ex & Bx & Ax).
  destruct (Z.eq_dec y 0) as [->|Zy]; [rewrite Z.add_0_r, Ex; done|].
  destruct (num_of_Z_finite y Zy Hy) as (sy & my & ey & Ey & By & Ay).
  rewrite Ex, Ey. unfold num_add, SFadd. cbv zeta. rewrite Ax, Ay, <- Z.mul_add_distr_r by lia.
  apply normalize_aligned; lia.
Qed.

Theorem num_sub_exact x y :
  Z.abs x < 2 ^ 53 -> Z.abs y < 2 ^ 53 -> Z.abs (x - y) < 2 ^ 53 ->
  num_sub (num_of_Z x) (num_of_Z y) = num_of_Z (x - y).
Proof.
  intros Hx Hy Hs.
  destruct (Z.eq_dec x 0) as [->|Zx].
  { destruct y as [|p|p]; [done| |]; destruct (num_of_Z_pos p ltac:(lia)) as [H1 H2].
    - change (0 - Zpos p) with (Zneg p). by rewrite H1, H2.
    - change (0 - Zneg p) with (Zpos p). by rewrite H1, H2. }
  destruct (num_of_Z_finite x Zx Hx) as (sx & mx & ex & Ex & Bx & Ax).
  destruct (Z.eq_dec y 0) as [->|Zy]; [rewrite Z.sub_0_r, Ex; done|].
  destruct (num_of_Z_finite y Zy Hy) as (sy & my & ey & Ey & By & Ay).
  rewrite Ex, Ey. unfold num_sub, SFsub. cbv zeta. rewrite Ax, Ay, <- Z.mul_sub_distr_r by lia.
  apply normalize_aligned; lia.
Qed.

(** ** Comparisons *)

Lemma shl_compare k p q : (shl k p ?= shl k q)%positive = (p ?= q)%positive.
Proof. induction k as [|k IH]; [done|]. exact IH. Qed.

Lemma canonical_compare p q :
  Zpos p < 2 ^ 53 -> Zpos q < 2 ^ 53 ->
  match Zpos (digits2_pos p) - 53 ?= Zpos (digits2_pos q) - 53 with
  | Eq => (shl (Z.to_nat (53 - Zpos (digits2_pos p))) p ?= shl (Z.to_nat (53 - Zpos (digits2_pos q))) q)%positive
  | Lt => Lt
  | Gt => Gt
  end = (p ?= q)%positive.
Proof.
  intros Hp Hq. pose proof (digits_bounds p). pose proof (digits_bounds q).
  pose proof (digits_le p Hp). pose proof (digits_le q Hq).
  destruct (Z.compare_spec (Zpos (digits2_pos p) - 53) (Zpos (digits2_pos q) - 53)) as [E|E|E].
  - replace (Zpos (digits2_pos q)) with (Zpos (digits2_pos p)) by lia. apply shl_compare.
  - symmetry. change (Zpos p < Zpos q).
    pose proof (Z.pow_le_mono_r 2 (Zpos (digits2_pos p)) (Zpos (digits2_pos q) - 1)). lia.
  - symmetry. change (Zpos p > Zpos q).
    pose proof (Z.pow_le_mono_r 2 (Zpos (digits2_pos q)) (Zpos (digits2_pos p) - 1)). lia.
Qed.

Theorem num_compare_exact x y :
  Z.abs x < 2 ^ 53 -> Z.abs y < 2 ^ 53 -> SFcompare (num_of_Z x) (num_of_Z y) = Some (x ?= y).
Proof.
  intros Hx Hy. destruct x as [|p|p], y as [|q|q]; [done|..].
  all: try (destruct (num_of_Z_pos p ltac:(lia)) as [P1 P2]).
  all: try (destruct (num_of_Z_pos q ltac:(lia)) as [Q1 Q2]).
  all: rewrite ?P1, ?P2, ?Q1, ?Q2; change (num_of_Z 0) with (S754_zero false); try done.
  all: cbn [SFcompare Z.compare]; f_equal.
  - apply (canonical_compare p q); lia.
  - etransitivity; [|apply (f_equal CompOpp), (canonical_compare p q); lia]. by destruct (_ ?= _).
Qed.

Corollary num_eqb_exact x y : Z.abs x < 2 ^ 53 -> Z.abs y < 2 ^ 53 -> num_eqb (num_of_Z x) (num_of_Z y) = (x =? y).
Proof.
  intros. unfold num_eqb, SFeqb. rewrite num_compare_exact by done.
  destruct (Z.compare_spec x y); symmetry; [by apply Z.eqb_eq|apply Z.eqb_neq; lia..].
Qed.

Corollary num_ltb_exact x y : Z.abs x < 2 ^ 53 -> Z.abs y < 2 ^ 53 -> num_ltb (num_of_Z x) (num_of_Z y) = (x <? y).
Proof. intros. unfold num_ltb, SFltb. by rewrite num_compare_exact. Qed.

Corollary num_leb_exact x y : Z.abs x < 2 ^ 53 -> Z.abs y < 2 ^ 53 -> num_leb (num_of_Z x) (num_of_Z y) = (x <=? y).
Proof. intros. unfold num_leb, SFleb. rewrite num_compare_exact by done. unfold Z.leb. by destruct (x ?= y). Qed.

(** The numbers of different integers differ. *)
Corollary num_of_Z_inj x y : Z.abs x < 2 ^ 53 -> Z.abs y < 2 ^ 53 -> num_of_Z x = num_of_Z y -> x = y.
Proof.
  intros Hx Hy E. pose proof (num_compare_exact x y Hx Hy) as H. rewrite E, num_compare_exact in H by done.
  injection H as H. symmetry in H. rewrite Z.compare_refl in H. by apply Z.compare_eq.
Qed.

(** The integer is read back. *)
Theorem num_to_of_Z z : Z.abs z < 2 ^ 53 -> num_to_Z (num_of_Z z) = Some z.
Proof.
  intros Hz. destruct z as [|p|p]; [done| |].
  all: destruct (num_of_Z_pos p ltac:(lia)) as [P1 P2]; pose proof (digits_le p ltac:(lia)).
  all: rewrite ?P1, ?P2; unfold num_to_Z; rewrite shl_value; set (d := Zpos (digits2_pos p)) in *.
  all: replace (Z.of_nat (Z.to_nat (53 - d))) with (53 - d) by lia.
  all: destruct (Z.leb_spec 0 (d - 53)); [replace (53 - d) with 0 by lia; replace (d - 53) with 0 by lia; simpl; f_equal; lia|].
  all: replace (- (d - 53)) with (53 - d) by lia; rewrite Z.mod_mul, Z.div_mul by lia; done.
Qed.

(** ** Integers from [2^53] on *)

Lemma shr_1_half r : 0 <= shr_m r -> shr_m (shr_1 r) = shr_m r / 2.
Proof.
  destruct r as [m r s]; cbn [shr_m]; intros Hm. destruct m as [|[p|p|]|p]; try done; cbn [shr_1 shr_m].
  - rewrite (Pos2Z.inj_xI p), Z.add_comm, Z.mul_comm, Z.div_add by lia. done.
  - rewrite (Pos2Z.inj_xO p), Z.mul_comm, Z.div_mul by lia. done.
Qed.

Lemma shr_iter k r : 0 <= shr_m r -> shr_m (Nat.iter k shr_1 r) = shr_m r / 2 ^ Z.of_nat k.
Proof.
  intros Hr. induction k as [|k IH]; [simpl Nat.iter; by rewrite Z.div_1_r|].
  rewrite Nat.iter_succ, shr_1_half, IH, Nat2Z.inj_succ, Z.pow_succ_r by (rewrite ?IH; try apply Z.div_pos; lia).
  rewrite Z.div_div by lia. f_equal. lia.
Qed.

(** Rounding a mantissa to 53 digits leaves at least [2^52]. *)
Lemma shr_fexp_large m e :
  2 ^ 52 <= m -> 0 <= e -> let r := shr_fexp prec64 emax64 m e loc_Exact in 2 ^ 52 <= shr_m r.1 /\ e <= r.2.
Proof.
  intros Hm He. destruct m as [|p|p]; [lia| |lia]. unfold shr_fexp. cbn [Zdigits2].
  pose proof (digits_bounds p) as Hd. rewrite fexp64 by lia. set (d := Zpos (digits2_pos p)) in *.
  unfold shr. destruct (d + e - 53 - e) as [|n|n] eqn:En; cbn [fst snd]; [done| |done].
  rewrite iter_pos_iter, shr_iter by done. cbn [shr_record_of_loc shr_m]. split; [|lia].
  rewrite positive_nat_Z. apply Z.div_le_lower_bound; [lia|].
  rewrite <- Z.pow_add_r by lia. replace (Zpos n + 52) with (d - 1) by lia. apply Hd.
Qed.

Lemma num_of_Z_large z :
  2 ^ 53 <= z -> num_of_Z z = num_inf \/ exists m e, num_of_Z z = S754_finite false m e /\ 1 <= e.
Proof.
  intros Hz. destruct z as [|p|p]; [lia| |lia]. unfold num_of_Z. cbn [binary_normalize]. unfold binary_round.
  pose proof (digits_bounds p) as Hd. assert (Hd54 : 54 <= Zpos (digits2_pos p)).
  { destruct (Z.le_gt_cases 54 (Zpos (digits2_pos p))) as [H|H]; [done|].
    pose proof (Z.pow_le_mono_r 2 (Zpos (digits2_pos p)) 53). lia. }
  rewrite fexp64 by lia. unfold shl_align.
  destruct (Zpos (digits2_pos p) + 0 - 53 - 0) as [|n|n] eqn:En; [lia| |lia]. unfold binary_round_aux.
  assert (E : shr_fexp prec64 emax64 (Zpos p) 0 loc_Exact =
              (SpecFloat.iter_pos shr_1 n (Build_shr_record (Zpos p) false false), Zpos n)).
  { unfold shr_fexp. cbn [Zdigits2]. rewrite fexp64, En by lia. done. }
  pose proof (shr_fexp_large (Zpos p) 0 ltac:(lia) ltac:(lia)) as [Hq _]. rewrite E in *. cbn [fst] in Hq.
  set (rec := SpecFloat.iter_pos shr_1 n _) in *.
  assert (Hr : 2 ^ 52 <= round_nearest_even (shr_m rec) (loc_of_shr_record rec)).
  { destruct rec as [m [] []]; cbn [loc_of_shr_record round_nearest_even shr_m] in *; [lia| |lia|lia].
    destruct (Z.even m); lia. }
  pose proof (shr_fexp_large _ (Zpos n) Hr ltac:(lia)) as [Hm He].
  destruct (shr_fexp _ _ (round_nearest_even _ _) _ _) as [r2 e2]. cbn [fst snd] in *.
  destruct (shr_m r2) as [|m|m]; [lia| |lia]. destruct (e2 <=? _); [right|by left]. exists m, e2. split; [done|lia].
Qed.

Theorem num_leb_large z b : 2 ^ 53 <= z -> Z.abs b < 2 ^ 53 -> num_leb (num_of_Z z) (num_of_Z b) = false.
Proof.
  intros Hz Hb. unfold num_leb, SFleb.
  enough (SFcompare (num_of_Z z) (num_of_Z b) = Some Gt) as -> by done.
  destruct (num_of_Z_large z Hz) as [->|(m & e & -> & He)], b as [|p|p]; try done.
  all: destruct (num_of_Z_pos p ltac:(lia)) as [P1 P2]; rewrite ?P1, ?P2; try done.
  cbn [SFcompare]. pose proof (digits_le p ltac:(lia)).
  by rewrite (proj2 (Z.compare_gt_iff _ _)) by lia.
Qed.

(** ** The strict order *)

(** A comparison as an order of three coordinates: the sign class, the exponent and the mantissa. *)
Definition num_rank (x : number) : option (Z * Z * Z) :=
  match x with
  | S754_nan => None
  | S754_infinity s => Some (if s then -2 else 2, 0, 0)%Z
  | S754_zero _ => Some (0, 0, 0)%Z
  | S754_finite s m e => Some (if s then (-1, - e, Z.neg m) else (1, e, Z.pos m))%Z
  end.

Definition rank_lt (a b : Z * Z * Z) : Prop :=
  let '(a1, a2, a3) := a in let '(b1, b2, b3) := b in
  (a1 < b1 \/ a1 = b1 /\ (a2 < b2 \/ a2 = b2 /\ a3 < b3))%Z.

Lemma num_ltb_rank x y : num_ltb x y = true <-> exists a b, num_rank x = Some a /\ num_rank y = Some b /\ rank_lt a b.
Proof.
  unfold num_ltb, SFltb. split.
  - intros E. destruct (num_rank x) as [a|] eqn:Ex, (num_rank y) as [b|] eqn:Ey.
    2-4: by destruct x as [| | |[]], y as [| | |[]].
    exists a, b. split_and!; [done..|]. revert E Ex Ey.
    destruct x as [s|[]| |[] m e], y as [s'|[]| |[] m' e']; cbn [SFcompare num_rank]; intros E [= <-] [= <-]; cbn; try done; try lia.
    + change (Pos.compare_cont Eq m m') with (Pos.compare m m') in E.
      destruct (Z.compare_spec e e'), (Pos.compare_spec m m'); cbn in E; done || lia.
    + change (Pos.compare_cont Eq m m') with (Pos.compare m m') in E.
      destruct (Z.compare_spec e e'), (Pos.compare_spec m m'); cbn in E; done || lia.
  - intros (a & b & Ex & Ey & E). revert Ex Ey E.
    destruct x as [s|[]| |[] m e], y as [s'|[]| |[] m' e']; cbn [SFcompare num_rank]; intros [= <-] [= <-]; cbn; try done; try lia.
    + change (Pos.compare_cont Eq m m') with (Pos.compare m m').
      destruct (Z.compare_spec e e'), (Pos.compare_spec m m'); cbn; done || lia.
    + change (Pos.compare_cont Eq m m') with (Pos.compare m m').
      destruct (Z.compare_spec e e'), (Pos.compare_spec m m'); cbn; done || lia.
Qed.

Lemma num_ltb_trans x y z : num_ltb x y = true -> num_ltb y z = true -> num_ltb x z = true.
Proof.
  rewrite !num_ltb_rank. intros (a & b & Ea & Eb & H1) (b' & c & Eb' & Ec & H2). simplify_eq.
  exists a, c. split_and!; [done..|]. destruct a as [[]], b as [[]], c as [[]]. unfold rank_lt in *. lia.
Qed.

Lemma num_ltb_irrefl x : num_ltb x x = false.
Proof.
  destruct (num_ltb x x) eqn:E; [|done]. apply num_ltb_rank in E as (a & b & Ea & Eb & E). simplify_eq.
  destruct a as [[]]. unfold rank_lt in E. lia.
Qed.

(** ** Counters *)

(** A counter that starts at an integer and is increased by integers that are
    not negative holds the exact sum while the sum is below [2^53]. *)
Theorem num_sum_exact (z : Z) (zs : list Z) :
  0 <= z -> Forall (fun x => 0 <= x) zs -> z + foldr Z.add 0 zs < 2 ^ 53 ->
  foldl (fun acc x => num_add acc (num_of_Z x)) (num_of_Z z) zs = num_of_Z (z + foldr Z.add 0 zs).
Proof.
  intros Hz Hzs. revert z Hz. induction Hzs as [|x zs Hx Hzs IH]; intros z Hz; simpl; [by rewrite Z.add_0_r|].
  intros Hb. assert (0 <= foldr Z.add 0 zs) by (clear -Hzs; induction Hzs; simpl; lia).
  rewrite num_add_exact by lia. rewrite IH by lia. f_equal. lia.
Qed.
