(* ===== verification/JsRegex.v ===== *)
(** * JavaScript regular expressions

    A backtracking matcher with ECMAScript's semantics for the constructs the
    sources use: character classes, sequences, ordered alternation, greedy
    quantifiers, capture groups, back-references, [^], [$] and [\b].  A state is
    a cursor in the subject: the units already consumed (most recent first) and
    the units left.  The matcher is written in continuation-passing style, as in
    the ECMAScript specification, so that alternatives and iterations are tried
    in the order the language prescribes.  The quantifier's loop runs on a
    counter of [length rest + 1]: an iteration that consumes nothing is refused
    (the language's empty check), so the counter is never exhausted. *)
From S2P Require Import Prelude JsString.
From stdpp Require Import prelude list strings.
From Stdlib Require Import NArith Ascii.

Inductive regex :=
| RChar (p : N -> bool)
| REps
| RSeq (a b : regex)
| RAlt (a b : regex)
| RStar (a : regex)
| RGroup (i : nat) (a : regex)
| RBackref (i : nat)
| RBol
| REol
| RWordB.

Record cursor := { before : jstr; rest : jstr }.

(** Captures by group number; an unset group is [undefined] in JavaScript. *)
Definition caps := list (nat * jstr).

Fixpoint cap (i : nat) (c : caps) : option jstr :=
  match c with
  | [] => None
  | (j, s) :: c' => if (i =? j)%nat then Some s else cap i c'
  end.

Definition cont := cursor -> caps -> option (cursor * caps).

(** The text consumed between two cursors of the same subject. *)
Definition consumed (a b : cursor) : jstr :=
  rev (take (length (before b) - length (before a)) (before b)).

Definition word_at (o : option N) : bool :=
  match o with Some c => is_word c | None => false end.

(** Advance over a literal, for back-references. *)
Definition skip_lit (w : jstr) (st : cursor) : option cursor :=
  if starts_with w (rest st)
  then Some {| before := rev w ++ before st; rest := drop (length w) (rest st) |}
  else None.

(** The greedy loop of [a*]: try one more iteration, else continue with [k]. *)
Fixpoint star_loop (body : cursor -> caps -> cont -> option (cursor * caps))
    (n : nat) (st : cursor) (c : caps) (k : cont) : option (cursor * caps) :=
  match n with
  | O => k st c
  | S n' =>
      match body st c (fun st' c' =>
              if (length (rest st') <? length (rest st))%nat
              then star_loop body n' st' c' k else None) with
      | Some r => Some r
      | None => k st c
      end
  end.

Fixpoint rx (r : regex) (st : cursor) (c : caps) (k : cont) : option (cursor * caps) :=
  match r with
  | RChar p =>
      match rest st with
      | x :: s => if p x then k {| before := x :: before st; rest := s |} c else None
      | [] => None
      end
  | REps => k st c
  | RSeq a b => rx a st c (fun st' c' => rx b st' c' k)
  | RAlt a b => match rx a st c k with Some x => Some x | None => rx b st c k end
  | RStar a => star_loop (rx a) (S (length (rest st))) st c k
  | RGroup i a => rx a st c (fun st' c' => k st' ((i, consumed st st') :: c'))
  | RBackref i =>
      match skip_lit (default [] (cap i c)) st with
      | Some st' => k st' c
      | None => None
      end
  | RBol => match before st with [] => k st c | _ => None end
  | REol => match rest st with [] => k st c | _ => None end
  | RWordB =>
      if xorb (word_at (head (before st))) (word_at (head (rest st))) then k st c else None
  end.

(** ** Derived forms *)
Definition RLit (s : string) : regex :=
  foldr (fun x r => RSeq (RChar (N.eqb x)) r) REps (js s).
Definition RPlus (a : regex) : regex := RSeq a (RStar a).
Definition ROpt (a : regex) : regex := RAlt a REps.
Definition RAny (s : string) : N -> bool := fun c => existsb (N.eqb c) (js s).
Definition RNot (s : string) : N -> bool := fun c => negb (RAny s c).
(** [.] without and with the [s] flag. *)
Definition RDot : regex := RChar (fun c => negb (is_lineterm c)).
Definition RDotAll : regex := RChar (fun _ => true).
Definition RSpaces : regex := RStar (RChar is_ws).
Fixpoint rseq (rs : list regex) : regex :=
  match rs with [] => REps | [r] => r | r :: rs' => RSeq r (rseq rs') end.
Fixpoint ralts (r : regex) (rs : list regex) : regex :=
  match rs with [] => r | r' :: rs' => RAlt r (ralts r' rs') end.

(** ** Execution *)

Definition accept : cont := fun st c => Some (st, c).

(** One attempt at a cursor. *)
Definition match_at (r : regex) (st : cursor) : option (cursor * caps) := rx r st [] accept.

(** [exec]: the leftmost position at which the expression matches; the result
    carries the cursor where the match starts and the one where it ends. *)
Fixpoint exec_from (n : nat) (r : regex) (st : cursor) : option (cursor * cursor * caps) :=
  match match_at r st with
  | Some (st', c) => Some (st, st', c)
  | None =>
      match n, rest st with
      | S n', x :: s => exec_from n' r {| before := x :: before st; rest := s |}
      | _, _ => None
      end
  end.

Definition at_start (s : jstr) : cursor := {| before := []; rest := s |}.

(** [s.match(/^.../)] for an expression anchored at the start. *)
Definition rmatch (r : regex) (s : jstr) : option caps :=
  snd <$> match_at (RSeq RBol r) (at_start s).

(** [/^...$/.test(s)] *)
Definition rtest (r : regex) (s : jstr) : bool :=
  match rmatch r s with Some _ => true | None => false end.

(** [/.../.test(s)] *)
Definition rsearch (r : regex) (s : jstr) : bool :=
  match exec_from (length s) r (at_start s) with Some _ => true | None => false end.

(** [while ((m = re.exec(s)) !== null)] with the [g] flag: the captures of the
    successive matches; the next search starts where the last match ended.  The
    expressions used this way never match the empty string; [n] rounds with
    [n > length s] are enough. *)
Fixpoint exec_all (n : nat) (r : regex) (st : cursor) : list caps :=
  match n with
  | O => []
  | S n' =>
      match exec_from (length (rest st)) r st with
      | Some (_, st', c) => c :: exec_all n' r st'
      | None => []
      end
  end.

Definition rexec_all (r : regex) (s : jstr) : list caps :=
  exec_all (S (length s)) r (at_start s).

(** ** Lemmas used to evaluate the matcher on symbolic subjects *)

Lemma rx_lit_cons st c k x w s :
  rest st = x :: s ->
  rx (foldr (fun x r => RSeq (RChar (N.eqb x)) r) REps (x :: w)) st c k =
  rx (foldr (fun x r => RSeq (RChar (N.eqb x)) r) REps w)
     {| before := x :: before st; rest := s |} c k.
Proof. intros H. simpl. by rewrite H, N.eqb_refl. Qed.

(** A literal matches exactly when it is a prefix of what is left. *)
Lemma rx_lit_spec w st c k :
  rx (foldr (fun x r => RSeq (RChar (N.eqb x)) r) REps w) st c k =
  match skip_lit w st with Some st' => k st' c | None => None end.
Proof.
  revert st. induction w as [|x w IH]; intros st; unfold skip_lit.
  - simpl. rewrite drop_0. by destruct st.
  - simpl. destruct st as [b [|y s]]; simpl; [done|].
    destruct (N.eqb_spec x y) as [->|]; simpl; [|done].
    rewrite IH. unfold skip_lit. simpl. destruct (starts_with w s); [|done].
    by rewrite <- app_assoc.
Qed.

Lemma rx_RLit s st c k :
  rx (RLit s) st c k = match skip_lit (js s) st with Some st' => k st' c | None => None end.
Proof. apply rx_lit_spec. Qed.

Lemma skip_lit_app w b s :
  skip_lit w {| before := b; rest := w ++ s |} = Some {| before := rev w ++ b; rest := s |}.
Proof. unfold skip_lit. simpl. by rewrite starts_with_app, drop_app_length. Qed.

Lemma rx_RLit_app l b s c k :
  rx (RLit l) {| before := b; rest := js l ++ s |} c k
  = k {| before := rev (js l) ++ b; rest := s |} c.
Proof. by rewrite rx_RLit, skip_lit_app. Qed.

Lemma rx_RStar a st c k :
  rx (RStar a) st c k = star_loop (rx a) (S (length (rest st))) st c k.
Proof. reflexivity. Qed.

Lemma rx_RSeq a b st c k : rx (RSeq a b) st c k = rx a st c (fun st' c' => rx b st' c' k).
Proof. reflexivity. Qed.

Lemma rx_RGroup i a st c k : rx (RGroup i a) st c k = rx a st c (fun st' c' => k st' ((i, consumed st st') :: c')).
Proof. reflexivity. Qed.

(** A literal regular expression for a list of units. *)
Notation rlit w := (foldr (fun x r => RSeq (RChar (N.eqb x)) r) REps w).

Lemma rx_lit_app w r b s c k :
  rx (RSeq (rlit w) r) {| before := b; rest := w ++ s |} c k
  = rx r {| before := rev w ++ b; rest := s |} c k.
Proof. rewrite rx_RSeq, rx_lit_spec, skip_lit_app. done. Qed.

Lemma rx_lit_mismatch w r st c k :
  starts_with w (rest st) = false -> rx (RSeq (rlit w) r) st c k = None.
Proof. intros H. rewrite rx_RSeq, rx_lit_spec. unfold skip_lit. by rewrite H. Qed.

Lemma consumed_rev b s w s' :
  consumed {| before := b; rest := s |} {| before := rev w ++ b; rest := s' |} = w.
Proof.
  unfold consumed. simpl. rewrite length_app.
  replace (length (rev w) + length b - length b)%nat with (length (rev w)) by lia.
  by rewrite take_app_length, rev_involutive.
Qed.

(** An expression that cannot start on a unit of class [p]. *)
Definition refuses (p : N -> bool) (r : regex) : Prop :=
  forall b x s c k, p x = true -> rx r {| before := b; rest := x :: s |} c k = None.

Lemma refuses_lit p x w r : p x = false -> refuses p (RSeq (rlit (x :: w)) r).
Proof.
  intros Hp b y s c k Hy. apply rx_lit_mismatch. simpl.
  destruct (N.eqb_spec x y); [congruence|done].
Qed.

Lemma refuses_eol p : refuses p REol.
Proof. by intros b x s c k _. Qed.

(** The end of a run: nothing left, or a unit outside the class. *)
Definition stops (p : N -> bool) (s : jstr) : Prop :=
  match s with [] => True | x :: _ => p x = false end.

(** *** Greedy loops

    [body] consumes one unit of class [p] and nothing else before [s]. *)
Section Loops.
Context (p : N -> bool) (body : cursor -> caps -> cont -> option (cursor * caps)).
Hypothesis body_one : forall b x s c k,
  p x = true -> body {| before := b; rest := x :: s |} c k = k {| before := x :: b; rest := s |} c.

(** The loop stops at the end of the run when the continuation refuses to
    start inside it. *)
Lemma star_loop_run n b w s c k :
  length w < n -> Forall (fun x => p x = true) w ->
  (forall b' k', body {| before := b'; rest := s |} c k' = None) ->
  (forall b' x s', p x = true -> k {| before := b'; rest := x :: s' |} c = None) ->
  star_loop body n {| before := b; rest := w ++ s |} c k
  = k {| before := rev w ++ b; rest := s |} c.
Proof.
  revert n b. induction w as [|x w IH]; intros [|n] b Hn Hw Hs Hk;
    try (simpl in Hn; lia); simpl.
  - by rewrite Hs.
  - inv Hw as [|? ? Hx Hw']. rewrite body_one by done. simpl.
    rewrite (proj2 (Nat.ltb_lt _ _)) by lia.
    rewrite IH by (done || (simpl in Hn; lia)). rewrite <- app_assoc. simpl.
    destruct (k _ c) eqn:E; [done|]. by apply Hk.
Qed.

(** Whatever the loop tries, it fails if the continuation always does. *)
Lemma star_loop_none n b s c k :
  Forall (fun x => p x = true) s ->
  (forall b' k', body {| before := b'; rest := [] |} c k' = None) ->
  (forall s1 s2, s = s1 ++ s2 -> k {| before := rev s1 ++ b; rest := s2 |} c = None) ->
  star_loop body n {| before := b; rest := s |} c k = None.
Proof.
  intros Hs Hnil. revert n b Hs. induction s as [|x s IH]; intros [|n] b Hs Hk; simpl.
  - by apply (Hk [] []).
  - rewrite Hnil. by apply (Hk [] []).
  - by apply (Hk [] (x :: s)).
  - inv Hs as [|? ? Hx Hs']. rewrite body_one by done. simpl.
    rewrite (proj2 (Nat.ltb_lt _ _)) by lia.
    rewrite IH; [by apply (Hk [] (x :: s))|done|].
    intros s1 s2 ->. specialize (Hk (x :: s1) s2 eq_refl). simpl in Hk.
    by rewrite <- app_assoc in Hk.
Qed.

(** Backtracking: the loop gives back the units of [s] when every longer
    attempt fails and the one at the end of [w] succeeds. *)
Lemma star_loop_last n b w s c k r :
  length w + length s < n -> Forall (fun x => p x = true) (w ++ s) ->
  (forall b' k', body {| before := b'; rest := [] |} c k' = None) ->
  (forall s1 s2, s = s1 ++ s2 -> s1 <> [] ->
     k {| before := rev s1 ++ rev w ++ b; rest := s2 |} c = None) ->
  k {| before := rev w ++ b; rest := s |} c = Some r ->
  star_loop body n {| before := b; rest := w ++ s |} c k = Some r.
Proof.
  intros Hn Hws Hnil. revert n b Hn. induction w as [|x w IH]; intros [|n] b Hn Hk Hr;
    try (simpl in Hn; lia); simpl in *.
  - destruct s as [|x s]; [by rewrite Hnil|]. inv Hws as [|? ? Hx Hs'].
    rewrite body_one by done. simpl. rewrite (proj2 (Nat.ltb_lt _ _)) by lia.
    rewrite star_loop_none; try done. intros s1 s2 ->.
    specialize (Hk (x :: s1) s2 eq_refl). simpl in Hk. rewrite <- app_assoc in Hk. by apply Hk.
  - inv Hws as [|? ? Hx Hws']. rewrite body_one by done. simpl.
    rewrite (proj2 (Nat.ltb_lt _ _)) by lia.
    rewrite IH; [done|done|lia| |].
    + intros s1 s2 Hs Hne. specialize (Hk s1 s2 Hs Hne). by rewrite <- app_assoc in Hk.
    + by rewrite <- app_assoc in Hr.
Qed.
End Loops.

Lemma rx_char_one p b x s c k :
  p x = true -> rx (RChar p) {| before := b; rest := x :: s |} c k
                = k {| before := x :: b; rest := s |} c.
Proof. intros H. simpl. by rewrite H. Qed.

Lemma rx_char_stop p b s c k : stops p s -> rx (RChar p) {| before := b; rest := s |} c k = None.
Proof. destruct s as [|x s]; simpl; [done|]. by intros ->. Qed.

Lemma rx_star_class p r b w s c k :
  Forall (fun x => p x = true) w -> stops p s -> refuses p r ->
  rx (RSeq (RStar (RChar p)) r) {| before := b; rest := w ++ s |} c k
  = rx r {| before := rev w ++ b; rest := s |} c k.
Proof.
  intros Hw Hs Hr. rewrite rx_RSeq, rx_RStar.
  rewrite (star_loop_run p); [done|apply rx_char_one| |done| |].
  - cbn [rest]. rewrite length_app. lia.
  - intros. by apply rx_char_stop.
  - intros. by apply Hr.
Qed.

(** A captured non-empty run of a class followed by something that cannot start
    inside the run: the capture is exactly the run. *)
Lemma rx_group_run i p r b w s c k :
  w <> [] -> Forall (fun x => p x = true) w -> stops p s -> refuses p r ->
  rx (RSeq (RGroup i (RPlus (RChar p))) r) {| before := b; rest := w ++ s |} c k
  = rx r {| before := rev w ++ b; rest := s |} ((i, w) :: c) k.
Proof.
  intros Hne Hw Hs Hr. destruct w as [|x w]; [done|]. inv Hw as [|? ? Hx Hw'].
  set (k' := fun st' c' =>
    rx r st' ((i, consumed {| before := b; rest := (x :: w) ++ s |} st') :: c') k).
  change (rx (RSeq (RGroup i (RPlus (RChar p))) r) {| before := b; rest := (x :: w) ++ s |} c k)
    with (rx (RPlus (RChar p)) {| before := b; rest := (x :: w) ++ s |} c k').
  unfold RPlus. rewrite rx_RSeq. cbn [app]. rewrite rx_char_one, rx_RStar by done.
  rewrite (star_loop_run p); [|apply rx_char_one| |done| |].
  - unfold k'. replace (rev w ++ x :: b) with (rev (x :: w) ++ b) by (simpl; by rewrite <- app_assoc).
    by rewrite consumed_rev.
  - cbn [rest]. rewrite length_app. lia.
  - intros. by apply rx_char_stop.
  - intros. by apply Hr.
Qed.

(** The same for a captured run of every unit, with backtracking: the capture
    ends at the last position from which the rest matches. *)
Lemma rx_group_last i r b w s c k res :
  w <> [] ->
  (forall s1 s2 c', s = s1 ++ s2 -> s1 <> [] ->
     rx r {| before := rev s1 ++ rev w ++ b; rest := s2 |} c' k = None) ->
  rx r {| before := rev w ++ b; rest := s |} ((i, w) :: c) k = Some res ->
  rx (RSeq (RGroup i (RPlus RDotAll)) r) {| before := b; rest := w ++ s |} c k = Some res.
Proof.
  intros Hne Hk Hres. destruct w as [|x w]; [done|].
  set (k' := fun st' c' =>
    rx r st' ((i, consumed {| before := b; rest := (x :: w) ++ s |} st') :: c') k).
  change (rx (RSeq (RGroup i (RPlus RDotAll)) r) {| before := b; rest := (x :: w) ++ s |} c k)
    with (rx (RPlus RDotAll) {| before := b; rest := (x :: w) ++ s |} c k').
  unfold RPlus. rewrite rx_RSeq. cbn [app]. rewrite (rx_char_one (fun _ => true)), rx_RStar by done.
  assert (Hb : forall q, rev w ++ x :: q = rev (x :: w) ++ q) by (intros; simpl; by rewrite <- app_assoc).
  apply (star_loop_last (fun _ => true)).
  - intros. by apply (rx_char_one (fun _ => true)).
  - cbn [rest]. rewrite length_app. lia.
  - apply Forall_true. done.
  - done.
  - intros s1 s2 Hs Hs1. unfold k'. rewrite Hb. by apply Hk.
  - unfold k'. by rewrite Hb, consumed_rev.
Qed.

(** *** What a successful match consumed *)
Fixpoint chars_in (P : N -> Prop) (r : regex) : Prop :=
  match r with
  | RChar p => forall c, p c = true -> P c
  | RSeq a b | RAlt a b => chars_in P a /\ chars_in P b
  | RStar a | RGroup _ a => chars_in P a
  | RBackref _ => False
  | REps | RBol | REol | RWordB => True
  end.

Fixpoint ends_eol (r : regex) : bool :=
  match r with REol => true | RSeq _ b => ends_eol b | _ => false end.

Lemma chars_in_lit P w : Forall P w -> chars_in P (rlit w).
Proof.
  induction 1 as [|x w Hx _ IH]; simpl; [done|]. split; [|done].
  by intros c ->%N.eqb_eq.
Qed.

Lemma chars_in_any P s : Forall P (js s) -> chars_in P (RChar (RAny s)).
Proof.
  intros H c Hc. apply existsb_exists in Hc as (x & Hx & ->%N.eqb_eq).
  rewrite List.Forall_forall in H. by apply H.
Qed.

Lemma star_loop_consumes P body n st c k res :
  (forall st c k res, body st c k = Some res -> exists w s' c',
     rest st = w ++ s' /\ Forall P w /\ k {| before := rev w ++ before st; rest := s' |} c' = Some res) ->
  star_loop body n st c k = Some res ->
  exists w s' c', rest st = w ++ s' /\ Forall P w /\
    k {| before := rev w ++ before st; rest := s' |} c' = Some res.
Proof.
  intros Hb. revert st c. induction n as [|n IH]; intros st c; simpl.
  - intros H. exists [], (rest st), c. split_and!; [done|constructor|]. by destruct st.
  - destruct (body st c _) as [x|] eqn:E.
    + intros [= ->]. apply Hb in E as (w & s' & c' & Hr & Hw & Hk).
      destruct (_ <? _)%nat; [|done]. apply IH in Hk as (w2 & s2 & c2 & Hr2 & Hw2 & Hk2).
      simpl in Hr2, Hk2. exists (w ++ w2), s2, c2. rewrite Hr, Hr2. split_and!.
      * by rewrite app_assoc.
      * by apply Forall_app.
      * by rewrite rev_app_distr, <- app_assoc.
    + intros H. exists [], (rest st), c. split_and!; [done|constructor|]. by destruct st.
Qed.

Lemma rx_consumes P r : chars_in P r -> forall st c k res,
  rx r st c k = Some res -> exists w s' c',
    rest st = w ++ s' /\ Forall P w /\
    k {| before := rev w ++ before st; rest := s' |} c' = Some res /\
    (ends_eol r = true -> s' = []).
Proof.
  assert (Hid : forall (k : cont) st c res, k st c = Some res -> exists w s' c',
    rest st = w ++ s' /\ Forall P w /\ k {| before := rev w ++ before st; rest := s' |} c' = Some res
    /\ s' = rest st).
  { intros k [b s] c res H. exists [], s, c. by split_and!. }
  induction r as [p| |a IHa b IHb|a IHa b IHb|a IHa|i a IHa|i| | |]; simpl; intros Hc st c k res H.
  - destruct (rest st) as [|x s]; [done|]. destruct (p x) eqn:Ep; [|done].
    exists [x], s, c. split_and!; [done|repeat constructor; by apply Hc|done|done].
  - apply Hid in H as (w & s' & c' & ? & ? & ? & _). exists w, s', c'. by split_and!.
  - destruct Hc as [Ha Hb]. apply (IHa Ha) in H as (w & s1 & c1 & Hr & Hw & H & _).
    apply (IHb Hb) in H as (w2 & s2 & c2 & Hr2 & Hw2 & H & He). simpl in Hr2, H.
    exists (w ++ w2), s2, c2. rewrite Hr, Hr2. split_and!;
      [by rewrite app_assoc|by apply Forall_app|by rewrite rev_app_distr, <- app_assoc|done].
  - destruct Hc as [Ha Hb]. destruct (rx a st c k) as [x|] eqn:E.
    + injection H as ->. apply (IHa Ha) in E as (w & s1 & c1 & ? & ? & ? & _).
      exists w, s1, c1. by split_and!.
    + apply (IHb Hb) in H as (w & s1 & c1 & ? & ? & ? & _). exists w, s1, c1. by split_and!.
  - apply (star_loop_consumes P (rx a) (S (length (rest st)))) in H as (w & s1 & c1 & ? & ? & ?).
    + exists w, s1, c1. by split_and!.
    + intros st0 c0 k0 res0 H0. apply (IHa Hc) in H0 as (w & s1 & c1 & ? & ? & ? & _). eauto 10.
  - apply (IHa Hc) in H as (w & s1 & c1 & ? & ? & ? & _). do 3 eexists. by split_and!.
  - done.
  - destruct (before st) eqn:Eb; [|done]. apply Hid in H as (w & s1 & c1 & ? & ? & ? & ?).
    rewrite Eb in *. exists w, s1, c1. by split_and!.
  - destruct (rest st) eqn:Er; [|done]. exists [], [], c. split_and!; [done|constructor| |done].
    destruct st; simpl in *. by subst.
  - destruct (xorb _ _); [|done]. apply Hid in H as (w & s1 & c1 & ? & ? & ? & ?).
    exists w, s1, c1. by split_and!.
Qed.

(** An anchored test that succeeds says what the whole subject is made of. *)
Lemma rtest_chars P r s :
  chars_in P r -> ends_eol r = true -> rtest r s = true -> Forall P s.
Proof.
  intros Hc He. unfold rtest, rmatch, match_at. simpl.
  destruct (rx r (at_start s) [] accept) as [res|] eqn:E; [|done]. intros _.
  apply (rx_consumes P r Hc) in E as (w & s' & c' & Hr & Hw & _ & Hs). simpl in Hr.
  rewrite Hs, app_nil_r in Hr by done. by subst.
Qed.

(** *** Greedy success: what the longest attempt finds is the result *)
Lemma star_class_greedy p b w s c k res :
  Forall (fun x => p x = true) w -> stops p s ->
  k {| before := rev w ++ b; rest := s |} c = Some res ->
  rx (RStar (RChar p)) {| before := b; rest := w ++ s |} c k = Some res.
Proof.
  intros Hw Hs Hk. rewrite rx_RStar. cbn [rest]. assert (Hn : length w < S (length (w ++ s))) by (rewrite length_app; lia).
  revert Hn. generalize (S (length (w ++ s))). intros n. revert b n Hk.
  induction Hw as [|x w Hx Hw IH]; intros b [|n] Hk Hn; simpl in Hn; try lia; cbn [star_loop app].
  - rewrite rx_char_stop by done. done.
  - rewrite rx_char_one by done. cbn [rest length]. rewrite (proj2 (Nat.ltb_lt _ _)) by lia.
    rewrite IH; [done| |lia]. simpl in Hk. by rewrite <- app_assoc in Hk.
Qed.

Lemma plus_class_greedy p b w s c k res :
  w <> [] -> Forall (fun x => p x = true) w -> stops p s ->
  k {| before := rev w ++ b; rest := s |} c = Some res ->
  rx (RPlus (RChar p)) {| before := b; rest := w ++ s |} c k = Some res.
Proof.
  intros Hne Hw Hs Hk. destruct Hw as [|x w Hx Hw]; [done|]. unfold RPlus. rewrite rx_RSeq. cbn [app].
  rewrite rx_char_one by done. apply star_class_greedy; [done..|]. simpl in Hk. by rewrite <- app_assoc in Hk.
Qed.

(** A run of a class that the continuation cannot start inside. *)
Lemma plus_class_run p b w s c k :
  w <> [] -> Forall (fun x => p x = true) w -> stops p s ->
  (forall b' x s', p x = true -> k {| before := b'; rest := x :: s' |} c = None) ->
  rx (RPlus (RChar p)) {| before := b; rest := w ++ s |} c k = k {| before := rev w ++ b; rest := s |} c.
Proof.
  intros Hne Hw Hs Hk. destruct Hw as [|x w Hx Hw]; [done|]. unfold RPlus. rewrite rx_RSeq. cbn [app].
  rewrite rx_char_one, rx_RStar by done. rewrite (star_loop_run p); [|apply rx_char_one| |done| |done].
  - simpl. by rewrite <- app_assoc.
  - cbn [rest]. rewrite length_app. lia.
  - intros. by apply rx_char_stop.
Qed.

Lemma star_class_run p b w s c k :
  Forall (fun x => p x = true) w -> stops p s ->
  (forall b' x s', p x = true -> k {| before := b'; rest := x :: s' |} c = None) ->
  rx (RStar (RChar p)) {| before := b; rest := w ++ s |} c k = k {| before := rev w ++ b; rest := s |} c.
Proof.
  intros Hw Hs Hk. rewrite rx_RStar, (star_loop_run p); [done|apply rx_char_one| |done| |done].
  - cbn [rest]. rewrite length_app. lia.
  - intros. by apply rx_char_stop.
Qed.

(** *** Searching *)
Lemma exec_from_hit n r st st' c : match_at r st = Some (st', c) -> exec_from n r st = Some (st, st', c).
Proof. destruct n; simpl; by intros ->. Qed.

(** The units of [w] are skipped when no match starts at any of them. *)
Lemma exec_from_skip r w n b s :
  (forall w1 x w2, w = w1 ++ x :: w2 -> match_at r {| before := rev w1 ++ b; rest := x :: w2 ++ s |} = None) ->
  exec_from (length w + n) r {| before := b; rest := w ++ s |} = exec_from n r {| before := rev w ++ b; rest := s |}.
Proof.
  revert b. induction w as [|x w IH]; intros b H; [done|].
  cbn [length app plus exec_from rest]. pose proof (H [] x w eq_refl) as H0. simpl in H0. rewrite H0.
  rewrite IH; [simpl; by rewrite <- app_assoc|].
  intros w1 y w2 ->. specialize (H (x :: w1) y w2 eq_refl). simpl in H. by rewrite <- app_assoc in H.
Qed.
