(* ===== verification/JsValue.v ===== *)
(** * JavaScript values and JSON

    Dynamic values ([unknown] in the sources), own properties in JavaScript's
    enumeration order, the coercions the sources use ([typeof], truthiness,
    [String(v)]), [JSON.parse] as a parser of the JSON grammar, and
    [JSON.stringify] of strings.  The parser recurses on a counter; two steps
    per input unit are enough, since every second step consumes a unit. *)
From S2P Require Import Prelude JsString JsNumber.
From stdpp Require Import prelude list strings.
From Stdlib Require Import NArith Ascii SpecFloat.

Inductive jsval :=
| VUndef
| VNull
| VBool (b : bool)
| VNum (n : number)
| VStr (s : jstr)
| VArr (xs : list jsval)
| VObj (fields : list (jstr * jsval)).

(** ** Coercions *)

Definition truthy (v : jsval) : bool :=
  match v with
  | VUndef | VNull => false
  | VBool b => b
  | VNum n => num_truthy n
  | VStr s => truthy_str s
  | VArr _ | VObj _ => true
  end.

(** [v === true], [v === false] *)
Definition isTrue (v : jsval) : bool := match v with VBool true => true | _ => false end.
Definition isFalse (v : jsval) : bool := match v with VBool false => true | _ => false end.

(** [typeof v === 'object' && v !== null && !Array.isArray(v)] *)
Definition is_plain_object (v : jsval) : option (list (jstr * jsval)) :=
  match v with VObj fs => Some fs | _ => None end.

(** [String(v)]; an array joins its elements with commas, nullish ones empty. *)
Fixpoint js_String (v : jsval) : jstr :=
  match v with
  | VUndef => js "undefined"
  | VNull => js "null"
  | VBool true => js "true"
  | VBool false => js "false"
  | VNum n => num_to_str n
  | VStr s => s
  | VArr xs =>
      js_join (js ",")
        (map (fun x => match x with VUndef | VNull => [] | _ => js_String x end) xs)
  | VObj _ => js "[object Object]"
  end.

(** [Number(v)]; an object or array converts through its string. *)
Definition js_Number (v : jsval) : number :=
  match v with
  | VUndef => num_nan
  | VNull => num_zero
  | VBool b => num_of_Z (if b then 1 else 0)%Z
  | VNum n => n
  | VStr s => num_of_str s
  | VArr _ | VObj _ => num_of_str (js_String v)
  end.

(** ** Properties *)

(** [o[k]] *)
Fixpoint get_prop (k : jstr) (fs : list (jstr * jsval)) : jsval :=
  match fs with
  | [] => VUndef
  | (k', v) :: fs' => if bool_decide (k = k') then v else get_prop k fs'
  end.

(** [o[k] = v]: replaces in place or appends. *)
Fixpoint set_prop (k : jstr) (v : jsval) (fs : list (jstr * jsval)) : list (jstr * jsval) :=
  match fs with
  | [] => [(k, v)]
  | (k', v') :: fs' =>
      if bool_decide (k = k') then (k', v) :: fs' else (k', v') :: set_prop k v fs'
  end.

(** A canonical array index ([0 .. 2^32 - 2]) is enumerated before other keys. *)
Definition array_index (k : jstr) : option Z :=
  if all_digits k then
    let z := parse_dec k in
    if bool_decide (print_nat_dec z = k) && (z <? 4294967295)%Z then Some z else None
  else None.

Definition is_index {A} (e : jstr * A) : bool :=
  match array_index (fst e) with Some _ => true | None => false end.

Definition indexCmp {A} (a b : jstr * A) : Z :=
  (default 0 (array_index (fst a)) - default 0 (array_index (fst b)))%Z.

(** [Object.entries]: integer keys ascending, then the others as inserted. *)
Definition entries {A} (fs : list (jstr * A)) : list (jstr * A) :=
  sort_by indexCmp (List.filter is_index fs) ++ List.filter (fun e => negb (is_index e)) fs.

Definition obj_keys (fs : list (jstr * jsval)) : list jstr := map fst (entries fs).
Definition obj_values (fs : list (jstr * jsval)) : list jsval := map snd (entries fs).

(** [v.k] for a name that no built-in prototype defines: reading it of [null] or
    [undefined] throws, a primitive or an array does not have it. *)
Definition prop (v : jsval) (k : jstr) : outcome jsval :=
  match v with
  | VUndef | VNull => Throw
  | VObj fs => Ret (get_prop k fs)
  | _ => Ret VUndef
  end.

(** [v?.k] *)
Definition optProp (v : jsval) (k : jstr) : outcome jsval :=
  match v with VUndef | VNull => Ret VUndef | _ => prop v k end.

(** ** JSON strings *)

Definition hex_digit (d : N) : N := if (d <? 10)%N then (48 + d)%N else (87 + d)%N.

Definition hex4 (c : N) : jstr :=
  map hex_digit [(c / 4096) mod 16; (c / 256) mod 16; (c / 16) mod 16; c mod 16]%N.

Definition unicode_escape (c : N) : jstr := u "\" :: u "u" :: hex4 c.

Arguments unicode_escape c : simpl never.

Definition is_lead (c : N) : bool := ((0xD800 <=? c) && (c <=? 0xDBFF))%N.
Definition is_trail (c : N) : bool := ((0xDC00 <=? c) && (c <=? 0xDFFF))%N.

(** The short escapes of [QuoteJSONString]. *)
Definition short_escape (c : N) : option N :=
  if (c =? 8)%N then Some (u "b") else if (c =? 9)%N then Some (u "t")
  else if (c =? 10)%N then Some (u "n") else if (c =? 12)%N then Some (u "f")
  else if (c =? 13)%N then Some (u "r") else if (c =? 34)%N then Some 34%N
  else if (c =? 92)%N then Some 92%N else None.

Fixpoint quote_body (s : jstr) : jstr :=
  match s with
  | [] => []
  | c :: r =>
      match short_escape c with
      | Some e => u "\" :: e :: quote_body r
      | None =>
          if (c <? 32)%N then unicode_escape c ++ quote_body r
          else if is_lead c then
            match r with
            | d :: r' => if is_trail d then c :: d :: quote_body r'
                         else unicode_escape c ++ quote_body r
            | [] => unicode_escape c
            end
          else if is_trail c then unicode_escape c ++ quote_body r
          else c :: quote_body r
      end
  end.

(** [JSON.stringify(s)] for a string. *)
Definition json_quote (s : jstr) : jstr := 34%N :: quote_body s ++ [34%N].

Definition unescape (e : N) : option N :=
  if (e =? 34)%N then Some 34%N else if (e =? 92)%N then Some 92%N
  else if (e =? 47)%N then Some 47%N
  else if (e =? u "b")%N then Some 8%N else if (e =? u "f")%N then Some 12%N
  else if (e =? u "n")%N then Some 10%N else if (e =? u "r")%N then Some 13%N
  else if (e =? u "t")%N then Some 9%N else None.

Definition hex4_value (a b c d : N) : option N :=
  x ← hex_value a; y ← hex_value b; z ← hex_value c; w ← hex_value d;
  Some (((x * 16 + y) * 16 + z) * 16 + w)%N.

(** The characters of a JSON string after the opening quote, and what follows
    the closing one. *)
Fixpoint parse_str_body (s : jstr) : option (jstr * jstr) :=
  match s with
  | [] => None
  | c :: r =>
      if (c =? 34)%N then Some ([], r)
      else if (c =? 92)%N then
        match r with
        | [] => None
        | e :: r1 =>
            if (e =? u "u")%N then
              match r1 with
              | a :: b :: d :: f :: r2 =>
                  match hex4_value a b d f, parse_str_body r2 with
                  | Some x, Some (t, q) => Some (x :: t, q)
                  | _, _ => None
                  end
              | _ => None
              end
            else
              match unescape e, parse_str_body r1 with
              | Some x, Some (t, q) => Some (x :: t, q)
              | _, _ => None
              end
        end
      else if (c <? 32)%N then None
      else match parse_str_body r with
           | Some (t, q) => Some (c :: t, q)
           | None => None
           end
  end.

(** ** JSON numbers *)
Definition json_sign (s : jstr) : bool * jstr :=
  match s with
  | c :: r => if (c =? u "-")%N then (true, r) else (false, s)
  | [] => (false, s)
  end.

(** An integer part has a digit, and no zero before another digit. *)
Definition json_int (ip : jstr) : bool :=
  match ip with [] => false | [_] => true | d :: _ => negb (d =? 48)%N end.

Definition json_frac (s : jstr) : option (jstr * jstr) :=
  match s with
  | c :: r => if (c =? u ".")%N
              then match span is_digit r with ([], _) => None | (fp, r2) => Some (fp, r2) end
              else Some ([], s)
  | [] => Some ([], [])
  end.

Definition json_number (s : jstr) : option (number * jstr) :=
  let '(neg, r) := json_sign s in
  let '(ip, r1) := span is_digit r in
  if negb (json_int ip) then None
  else
    '(fp, r2) ← json_frac r1;
    '(e, r3) ← scan_exp r2;
    Some (num_of_dec neg (parse_dec (ip ++ fp)) (e - Z.of_nat (length fp)), r3).

(** ** JSON values *)
Definition json_ws (c : N) : bool := ((c =? 32) || (c =? 9) || (c =? 10) || (c =? 13))%N.

Fixpoint skip_ws (s : jstr) : jstr :=
  match s with c :: s' => if json_ws c then skip_ws s' else s | [] => [] end.

Definition expect (w s : jstr) : option jstr :=
  if starts_with w s then Some (drop (length w) s) else None.

Fixpoint parse_value (fuel : nat) (s : jstr) {struct fuel} : option (jsval * jstr) :=
  match fuel with
  | O => None
  | S f =>
      match skip_ws s with
      | [] => None
      | c :: r =>
          if (c =? 34)%N then
            '(t, q) ← parse_str_body r; Some (VStr t, q)
          else if (c =? u "[")%N then
            match skip_ws r with
            | d :: q => if (d =? u "]")%N then Some (VArr [], q)
                        else '(xs, q') ← parse_elems f r; Some (VArr xs, q')
            | [] => None
            end
          else if (c =? u "{")%N then
            match skip_ws r with
            | d :: q => if (d =? u "}")%N then Some (VObj [], q)
                        else '(fs, q') ← parse_members f [] r; Some (VObj fs, q')
            | [] => None
            end
          else if (c =? u "t")%N then q ← expect (js "true") (c :: r); Some (VBool true, q)
          else if (c =? u "f")%N then q ← expect (js "false") (c :: r); Some (VBool false, q)
          else if (c =? u "n")%N then q ← expect (js "null") (c :: r); Some (VNull, q)
          else '(n, q) ← json_number (c :: r); Some (VNum n, q)
      end
  end
with parse_elems (fuel : nat) (s : jstr) {struct fuel} : option (list jsval * jstr) :=
  match fuel with
  | O => None
  | S f =>
      '(v, r) ← parse_value f s;
      match skip_ws r with
      | d :: q =>
          if (d =? u ",")%N then '(xs, q') ← parse_elems f q; Some (v :: xs, q')
          else if (d =? u "]")%N then Some ([v], q) else None
      | [] => None
      end
  end
with parse_members (fuel : nat) (acc : list (jstr * jsval)) (s : jstr) {struct fuel}
  : option (list (jstr * jsval) * jstr) :=
  match fuel with
  | O => None
  | S f =>
      match skip_ws s with
      | c :: r =>
          if (c =? 34)%N then
            '(k, r1) ← parse_str_body r;
            match skip_ws r1 with
            | d :: r2 =>
                if (d =? u ":")%N then
                  '(v, r3) ← parse_value f r2;
                  let acc' := set_prop k v acc in
                  match skip_ws r3 with
                  | e :: q =>
                      if (e =? u ",")%N then parse_members f acc' q
                      else if (e =? u "}")%N then Some (acc', q) else None
                  | [] => None
                  end
                else None
            | [] => None
            end
          else None
      | [] => None
      end
  end.

(** [JSON.parse(s)]; [None] is the [SyntaxError] the callers catch. *)
Definition json_parse (s : jstr) : option jsval :=
  match parse_value (2 * length s + 2) s with
  | Some (v, r) => match skip_ws r with [] => Some v | _ => None end
  | None => None
  end.

(** ** Lemmas *)

Lemma hex_value_digit d : (d < 16)%N -> hex_value (hex_digit d) = Some d.
Proof.
  intros H. unfold hex_digit, hex_value, is_digit.
  destruct (N.ltb_spec d 10).
  - rewrite !(proj2 (N.leb_le _ _)) by lia. simpl. f_equal. lia.
  - replace ((48 <=? 87 + d) && (87 + d <=? 57))%N with false.
    2: { symmetry. apply andb_false_iff. right. apply N.leb_gt. lia. }
    rewrite !(proj2 (N.leb_le _ _)) by lia. simpl. f_equal. lia.
Qed.

Lemma hex4_round c : (c < 65536)%N ->
  exists x y z w, hex4 c = [x; y; z; w] /\ hex4_value x y z w = Some c.
Proof.
  intros H. unfold hex4. simpl. do 4 eexists. split; [reflexivity|].
  unfold hex4_value. rewrite !hex_value_digit by (apply N.mod_lt; done). simpl. f_equal.
  assert (Hq : (c / 4096 < 16)%N) by (apply N.Div0.div_lt_upper_bound; lia).
  rewrite (N.mod_small (c / 4096)) by done.
  pose proof (N.div_mod' c 16). pose proof (N.div_mod' (c / 16) 16).
  pose proof (N.div_mod' (c / 256) 16).
  rewrite N.Div0.div_div in * by done. change (16 * 16)%N with 256%N in *.
  change (256 * 16)%N with 4096%N in *. lia.
Qed.

Lemma short_escape_round c e :
  short_escape c = Some e -> unescape e = Some c /\ (e =? u "u")%N = false.
Proof.
  unfold short_escape. intros H.
  repeat match goal with
  | H : (if ?b then _ else _) = Some _ |- _ => destruct b eqn:?; bool_hyps; subst
  end; simplify_eq; done.
Qed.

Lemma parse_unicode_escape c s :
  (c < 65536)%N ->
  parse_str_body (unicode_escape c ++ s) =
  match parse_str_body s with Some (t, q) => Some (c :: t, q) | None => None end.
Proof.
  intros H. destruct (hex4_round c H) as (x & y & z & w & E & Ev).
  unfold unicode_escape. rewrite E. simpl. by rewrite Ev.
Qed.

Lemma parse_plain_char c s :
  short_escape c = None -> (c <? 32)%N = false ->
  parse_str_body (c :: s) =
  match parse_str_body s with Some (t, q) => Some (c :: t, q) | None => None end.
Proof.
  intros Hse Hc. simpl. rewrite Hc. unfold short_escape in Hse.
  repeat match goal with
  | H : (if ?b then _ else _) = None |- _ => destruct b eqn:?; [discriminate|]
  end. simplify_eq.
  repeat match goal with H : (?a =? ?b)%N = false |- context [(?a =? ?b)%N] => rewrite H end.
  done.
Qed.

Lemma is_lead_bound c : is_lead c = true -> (c < 65536)%N /\ (c <? 32)%N = false.
Proof. unfold is_lead. intros. bool_hyps. split; [lia|apply N.ltb_ge; lia]. Qed.

Lemma is_trail_bound c : is_trail c = true -> (c < 65536)%N /\ (c <? 32)%N = false /\ short_escape c = None.
Proof.
  unfold is_trail. intros. bool_hyps. split_and!; [lia|apply N.ltb_ge; lia|].
  unfold short_escape. by rewrite !(proj2 (N.eqb_neq _ _)) by lia.
Qed.

(** Reading a quoted string gives the string back, whatever its units. *)
Lemma parse_quote_body s t :
  parse_str_body (quote_body s ++ 34%N :: t) = Some (s, t).
Proof.
  remember (length s) as n eqn:Hn. assert (Hle : (length s <= n)%nat) by lia. clear Hn.
  revert s Hle. induction n as [|n IH]; intros [|c r] Hle; try done; [simpl in Hle; lia|].
  simpl in Hle. cbn [quote_body]. destruct (short_escape c) as [e|] eqn:Ee.
  - destruct (short_escape_round _ _ Ee) as [Hu Hne]. simpl. rewrite Hne, Hu, IH by lia. done.
  - destruct (c <? 32)%N eqn:Hc.
    { rewrite <- app_assoc, parse_unicode_escape, IH by (bool_hyps; lia). done. }
    destruct (is_lead c) eqn:El.
    + destruct (is_lead_bound _ El) as [Hb _]. destruct r as [|d r].
      { by rewrite parse_unicode_escape. }
      destruct (is_trail d) eqn:Ed.
      * destruct (is_trail_bound _ Ed) as (_ & Hd & Hsd).
        cbn [app]. rewrite !parse_plain_char by done. rewrite IH by (simpl in *; lia). done.
      * rewrite <- app_assoc, parse_unicode_escape, IH by (done || lia). done.
    + destruct (is_trail c) eqn:Et.
      * destruct (is_trail_bound _ Et) as (Hb & _).
        rewrite <- app_assoc, parse_unicode_escape, IH by (done || lia). done.
      * cbn [app]. rewrite parse_plain_char, IH by (done || lia). done.
Qed.

(** [JSON.parse(JSON.stringify(s)) === s] *)
Lemma json_parse_quote s : json_parse (json_quote s) = Some (VStr s).
Proof.
  unfold json_parse, json_quote.
  replace (2 * length (34%N :: quote_body s ++ [34%N]) + 2)
    with (S (2 * length (34%N :: quote_body s ++ [34%N]) + 1)) by lia.
  simpl parse_value. by rewrite parse_quote_body.
Qed.

(** A string without quotes, backslashes, control characters or surrogates is
    quoted verbatim. *)
Definition plain_unit (c : N) : bool :=
  (32 <=? c)%N && negb (c =? 34)%N && negb (c =? 92)%N && negb (is_lead c) && negb (is_trail c).

Lemma quote_body_plain s : Forall (fun c => plain_unit c = true) s -> quote_body s = s.
Proof.
  induction 1 as [|c s Hc _ IH]; simpl; [done|]. unfold plain_unit in Hc. bool_hyps.
  replace (short_escape c) with (@None N).
  2: { unfold short_escape. by rewrite !(proj2 (N.eqb_neq _ _)) by lia. }
  rewrite (proj2 (N.ltb_ge c 32)) by done.
  repeat match goal with H : _ = false |- _ => rewrite H end. by rewrite IH.
Qed.

Lemma json_quote_plain s :
  Forall (fun c => plain_unit c = true) s -> json_quote s = 34%N :: s ++ [34%N].
Proof. intros H. unfold json_quote. by rewrite quote_body_plain. Qed.

Example json_parse_sample :
  json_parse (jsq "{ 'b': [1, -2.5e1, 'x\u0041\n'], '7': null, 'b': true, 'a': {} }")
  = Some (VObj [(js "b", VBool true); (js "7", VNull); (js "a", VObj [])]).
Proof. vm_compute. reflexivity. Qed.

(** ** Property lookup after updates *)

(** [{ ...base, ...fs }]: every own property of [fs] is copied over [base]. *)
Definition spread (base fs : list (jstr * jsval)) : list (jstr * jsval) :=
  foldl (fun acc k => set_prop k (get_prop k fs) acc) base (obj_keys fs).

Lemma get_set_prop k k' v fs : get_prop k (set_prop k' v fs) = if bool_decide (k = k') then v else get_prop k fs.
Proof.
  induction fs as [|[k2 v2] fs IH]; simpl; [done|].
  destruct (decide (k' = k2)) as [->|Hne].
  - rewrite bool_decide_true by done. simpl. by case_bool_decide.
  - rewrite (bool_decide_false (k' = k2)) by done. simpl. rewrite IH.
    repeat case_bool_decide; by subst.
Qed.

Lemma entries_perm {A} (fs : list (jstr * A)) : Permutation (entries fs) fs.
Proof.
  unfold entries. rewrite sort_by_perm. induction fs as [|e fs IH]; simpl; [done|].
  destruct (is_index e); simpl; [by rewrite IH|].
  etransitivity; [symmetry; apply Permutation_middle|]. by apply perm_skip.
Qed.

Lemma obj_keys_elem k fs : k ∈ obj_keys fs <-> k ∈ map fst fs.
Proof.
  unfold obj_keys, entries. rewrite map_app, elem_of_app.
  assert (H : k ∈ map fst (sort_by indexCmp (List.filter is_index fs)) <-> k ∈ map fst (List.filter is_index fs))
    by (by rewrite sort_by_perm).
  rewrite H. induction fs as [|e fs IH]; simpl; [rewrite elem_of_nil; naive_solver|].
  rewrite elem_of_cons, <- IH by (by rewrite sort_by_perm). destruct (is_index e); simpl; rewrite elem_of_cons; naive_solver.
Qed.

Lemma get_prop_absent k fs : k ∉ map fst fs -> get_prop k fs = VUndef.
Proof.
  induction fs as [|[k' v] fs IH]; simpl; [done|]. intros [H1 H2]%not_elem_of_cons.
  rewrite bool_decide_false by done. by apply IH.
Qed.

Lemma get_prop_spread k base fs :
  get_prop k (spread base fs) = if bool_decide (k ∈ map fst fs) then get_prop k fs else get_prop k base.
Proof.
  unfold spread. rewrite (bool_decide_ext _ (k ∈ obj_keys fs)) by (by rewrite obj_keys_elem).
  generalize (obj_keys fs). intros ks. revert base.
  induction ks as [|x ks IH]; intros base; simpl; [done|]. rewrite IH, get_set_prop.
  repeat case_bool_decide; rewrite ?elem_of_cons in *; naive_solver.
Qed.

Notation fields := (list (jstr * jsval)).

(** [delete o.k] *)
Definition delete_prop (k : jstr) (o : fields) : fields := List.filter (fun p => negb (p.1 === k)) o.

Lemma get_delete_prop k k' o : get_prop k (delete_prop k' o) = if k === k' then VUndef else get_prop k o.
Proof.
  unfold delete_prop. induction o as [|[a v] o IH]; cbn; [by destruct (k === k')|].
  destruct (a === k') eqn:Ea; cbn; rewrite IH.
  - apply bool_decide_eq_true in Ea as ->. by destruct (k === k').
  - apply bool_decide_eq_false in Ea. destruct (k === a) eqn:Ek; [|done]. apply bool_decide_eq_true in Ek as ->.
    by rewrite bool_decide_eq_false_2.
Qed.

Lemma set_prop_elem k k' v (fs : fields) : k ∈ map fst (set_prop k' v fs) <-> k = k' \/ k ∈ map fst fs.
Proof.
  induction fs as [|[k2 v2] fs IH]; simpl; [rewrite elem_of_cons; tauto|].
  case_bool_decide; simpl; rewrite ?elem_of_cons, ?IH; naive_solver.
Qed.

Lemma set_prop_keys k v o : map fst (set_prop k v o) = if bool_decide (k ∈ map fst o) then map fst o else map fst o ++ [k].
Proof.
  induction o as [|[a w] o IH]; cbn; [done|]. destruct (decide (k = a)) as [->|Hn].
  - rewrite bool_decide_eq_true_2 by done. rewrite bool_decide_eq_true_2 by (by left). done.
  - rewrite (bool_decide_eq_false_2 (k = a)) by done. cbn. rewrite IH. rewrite (bool_decide_ext (k ∈ a :: map fst o) (k ∈ map fst o)).
    + by case_bool_decide.
    + rewrite elem_of_cons. naive_solver.
Qed.

Lemma delete_prop_elem k k' (o : fields) : k ∈ map fst (delete_prop k' o) <-> k <> k' /\ k ∈ map fst o.
Proof.
  unfold delete_prop. induction o as [|[a v] o IH]; cbn; [rewrite elem_of_nil; tauto|].
  case_bool_decide; cbn; rewrite ?elem_of_cons, IH; naive_solver.
Qed.

(** The own property [k], if there is one. *)
Fixpoint own (k : jstr) (o : fields) : option jsval :=
  match o with
  | [] => None
  | (k', v) :: o' => if bool_decide (k = k') then Some v else own k o'
  end.

Lemma get_own k o : get_prop k o = default VUndef (own k o).
Proof. induction o as [|[a v] o IH]; cbn; [done|]. by case_bool_decide. Qed.

Lemma own_elem k o : k ∈ map fst o <-> is_Some (own k o).
Proof.
  induction o as [|[a v] o IH]; cbn; [rewrite elem_of_nil; split; [done|by intros [? ?]]|].
  rewrite elem_of_cons, IH. case_bool_decide; unfold is_Some; naive_solver.
Qed.

Lemma own_set_prop k k' v o : own k (set_prop k' v o) = if k === k' then Some v else own k o.
Proof.
  induction o as [|[a w] o IH]; cbn; [done|]. destruct (decide (k' = a)) as [->|Hne].
  - rewrite (bool_decide_true (a = a)) by done. cbn. by case_bool_decide.
  - rewrite (bool_decide_false (k' = a)) by done. cbn. rewrite IH. repeat case_bool_decide; by subst.
Qed.

Lemma own_delete_prop k k' o : own k (delete_prop k' o) = if k === k' then None else own k o.
Proof.
  unfold delete_prop. induction o as [|[a w] o IH]; cbn; [by destruct (k === k')|].
  destruct (decide (a = k')) as [->|Hne].
  - rewrite (bool_decide_true (k' = k')) by done. cbn. rewrite IH. by case_bool_decide.
  - rewrite (bool_decide_false (a = k')) by done. cbn. rewrite IH. repeat case_bool_decide; by subst.
Qed.

Lemma own_NoDup k v (o : fields) : NoDup (map fst o) -> (k, v) ∈ o -> own k o = Some v.
Proof.
  induction o as [|[a w] o IH]; [by intros _ ?%elem_of_nil|]. cbn. intros [Ha Hnd]%NoDup_cons [E|Hin]%elem_of_cons.
  - injection E as <- <-. by rewrite bool_decide_true.
  - rewrite bool_decide_false; [by apply IH|]. intros ->. apply Ha. apply list_elem_of_fmap. by exists (a, v).
Qed.

Lemma own_In k v (o : fields) : own k o = Some v -> (k, v) ∈ o.
Proof.
  induction o as [|[a w] o IH]; [done|]. cbn. case_bool_decide; [intros [= ->]; subst; by left|]. intros E. right. by apply IH.
Qed.

Lemma entries_idem {A} (o : list (jstr * A)) : entries (entries o) = entries o.
Proof.
  unfold entries. rewrite !List.filter_app. set (ix := sort_by indexCmp (List.filter is_index o)). set (rest := List.filter (fun e => negb (is_index e)) o).
  assert (Hix : Forall (fun e => is_index e = true) ix).
  { unfold ix. rewrite sort_by_perm. apply List.Forall_forall. intros e He. by apply List.filter_In in He as [_ ?]. }
  assert (Hr : Forall (fun e => is_index e = false) rest).
  { apply List.Forall_forall. intros e He. apply List.filter_In in He as [_ ?]. by destruct (is_index e). }
  assert (E1 : List.filter is_index ix = ix) by (clear -Hix; induction Hix as [|e l He _ IH]; cbn; [done|]; by rewrite He, IH).
  assert (E2 : List.filter is_index rest = []) by (clear -Hr; induction Hr as [|e l He _ IH]; cbn; [done|]; by rewrite He).
  assert (E3 : List.filter (fun e => negb (is_index e)) ix = []) by (clear -Hix; induction Hix as [|e l He _ IH]; cbn; [done|]; by rewrite He).
  assert (E4 : List.filter (fun e => negb (is_index e)) rest = rest) by (clear -Hr; induction Hr as [|e l He _ IH]; cbn; [done|]; by rewrite He, IH).
  rewrite E1, E2, E3, E4, app_nil_r. cbn [app]. f_equal. apply sort_by_id. unfold ix. apply sort_by_sorted.
  split; unfold indexCmp; intros; lia.
Qed.

Lemma entries_map {A B} (f : A -> B) (o : list (jstr * A)) : entries (map (fun p => (p.1, f p.2)) o) = map (fun p => (p.1, f p.2)) (entries o).
Proof.
  unfold entries. rewrite map_app. f_equal.
  - rewrite <- (sort_by_map (fun p => (p.1, f p.2)) indexCmp indexCmp) by done. f_equal. induction o as [|e o IH]; [done|]. cbn.
    change (is_index (e.1, f e.2)) with (is_index e). destruct (is_index e); cbn; by rewrite IH.
  - induction o as [|e o IH]; [done|]. cbn. change (is_index (e.1, f e.2)) with (is_index e). destruct (is_index e); cbn; by rewrite IH.
Qed.

Lemma set_prop_Forall (P : jstr * jsval -> Prop) k v (o : fields) : Forall P o -> (forall k', k' = k -> P (k', v)) -> Forall P (set_prop k v o).
Proof.
  intros Ho Hv. induction Ho as [|[k' v'] o H1 Ho IH]; cbn; [by repeat constructor; apply Hv|].
  case_bool_decide; constructor; done || by apply Hv.
Qed.
