(* ===== verification/JsMap.v ===== *)
(** * Insertion-ordered maps, and accumulation into them

    JavaScript's [Map] keeps its entries in the order their keys were first
    set; [mget], [mset] and [mvalues] are its [get], [set] and [values] on an
    association list.  The dashboard totals rows by the pattern
    [const prev = map.get(k) ?? init; prev.x += w; map.set(k, prev)]: [upsert]
    is one such step and [accumulate] the loop, with the laws its users need:
    the keys are the keys of the events, and every additive measure of the
    values totals the weights of the events. *)
From stdpp Require Import prelude list.
From S2P Require Import Prelude.
Open Scope Z_scope.

(** ** Sums over lists *)

Fixpoint sum_by {A} (f : A -> Z) (l : list A) : Z :=
  match l with [] => 0 | x :: l' => f x + sum_by f l' end.

Section Sums.
Context {A B : Type}.
Implicit Types (f g : A -> Z) (l : list A).

Lemma sum_by_app f l l' : sum_by f (l ++ l') = sum_by f l + sum_by f l'.
Proof. induction l; simpl; lia. Qed.

Lemma sum_by_perm f l l' : Permutation l l' -> sum_by f l = sum_by f l'.
Proof. induction 1; simpl; lia. Qed.

Lemma sum_by_ext f g l : Forall (fun x => f x = g x) l -> sum_by f l = sum_by g l.
Proof. induction 1; simpl; congruence. Qed.

Lemma sum_by_map (h : B -> A) f (l : list B) : sum_by f (map h l) = sum_by (fun x => f (h x)) l.
Proof. induction l; simpl; congruence. Qed.

Lemma sum_by_zero f l : Forall (fun x => f x = 0) l -> sum_by f l = 0.
Proof. induction 1; simpl; lia. Qed.

Lemma sum_by_nonneg f l : Forall (fun x => 0 <= f x) l -> 0 <= sum_by f l.
Proof. induction 1; simpl; lia. Qed.

Lemma sum_by_concat_map (h : B -> list A) f (l : list B) :
  sum_by f (concat (map h l)) = sum_by (fun x => sum_by f (h x)) l.
Proof. induction l; simpl; [done|]. rewrite sum_by_app. congruence. Qed.

Lemma sum_by_filter f (p : A -> bool) l :
  sum_by f (List.filter p l) = sum_by (fun x => if p x then f x else 0) l.
Proof. induction l as [|x l IH]; simpl; [done|]. destruct (p x); simpl; lia. Qed.

Lemma sum_by_le f g l : Forall (fun x => f x <= g x) l -> sum_by f l <= sum_by g l.
Proof. induction 1; simpl; lia. Qed.

Lemma sum_by_elem_le f l x : Forall (fun y => 0 <= f y) l -> x ∈ l -> f x <= sum_by f l.
Proof.
  intros H Hx. induction H as [|y l Hy H IH]; [by apply elem_of_nil in Hx|].
  apply sum_by_nonneg in H. apply elem_of_cons in Hx as [->|Hx]; simpl; [lia|].
  specialize (IH Hx). lia.
Qed.

Lemma sum_by_plus f g l : sum_by (fun x => f x + g x) l = sum_by f l + sum_by g l.
Proof. induction l; simpl; lia. Qed.

Lemma sum_by_indicator `{EqDecision A} (k : A) (w : Z) l : NoDup l ->
  sum_by (fun x => if bool_decide (k = x) then w else 0) l = if bool_decide (k ∈ l) then w else 0.
Proof.
  induction 1 as [|x l Hx Hl IH]; simpl; [done|]. rewrite IH. repeat case_bool_decide; subst; set_solver by lia.
Qed.

End Sums.

(** Summing over the keys the sums of each key gives the sum over the elements
    that have one of the keys. *)
Lemma sum_by_partition {A K} `{EqDecision K} (key : A -> K) (w : A -> Z) (ks : list K) (l : list A) : NoDup ks ->
  sum_by (fun k => sum_by (fun e => if bool_decide (key e = k) then w e else 0) l) ks =
  sum_by (fun e => if bool_decide (key e ∈ ks) then w e else 0) l.
Proof.
  intros H. induction l as [|e l IH]; simpl; [by apply sum_by_zero, List.Forall_forall|].
  by rewrite sum_by_plus, IH, sum_by_indicator.
Qed.

(** ** The map *)

Section JsMap.
Context {K V : Type} `{EqDecision K}.

Fixpoint mget (k : K) (m : list (K * V)) : option V :=
  match m with
  | [] => None
  | (k', v) :: m' => if bool_decide (k = k') then Some v else mget k m'
  end.

Fixpoint mset (k : K) (v : V) (m : list (K * V)) : list (K * V) :=
  match m with
  | [] => [(k, v)]
  | (k', v') :: m' => if bool_decide (k = k') then (k, v) :: m' else (k', v') :: mset k v m'
  end.

Definition mkeys (m : list (K * V)) : list K := map fst m.
Definition mvalues (m : list (K * V)) : list V := map snd m.

Definition upsert (k : K) (init : V) (f : V -> V) (m : list (K * V)) : list (K * V) :=
  mset k (f (default init (mget k m))) m.

Definition mdel (k : K) (m : list (K * V)) : list (K * V) := List.filter (fun e => negb (bool_decide (e.1 = k))) m.

Lemma mget_cons k k' v m : mget k ((k', v) :: m) = if bool_decide (k = k') then Some v else mget k m.
Proof. done. Qed.

Lemma mget_mset k k' v m : mget k (mset k' v m) = if bool_decide (k = k') then Some v else mget k m.
Proof.
  induction m as [|[k2 v2] m IH]; simpl; [done|].
  destruct (decide (k' = k2)) as [->|Hne]; [rewrite bool_decide_true by done|rewrite (bool_decide_false (k' = k2)) by done].
  - simpl. by repeat case_bool_decide.
  - simpl. rewrite IH. repeat case_bool_decide; by subst.
Qed.

Lemma mget_filter (P : K -> bool) k m : mget k (List.filter (fun e => P e.1) m) = if P k then mget k m else None.
Proof.
  induction m as [|[k' v] m IH]; simpl; [by destruct (P k)|]. destruct (P k') eqn:E; rewrite ?mget_cons, IH; case_bool_decide; subst; rewrite ?E; try done.
Qed.

Lemma mget_mdel k k' m : mget k (mdel k' m) = if bool_decide (k = k') then None else mget k m.
Proof. etransitivity; [exact (mget_filter (fun x => negb (bool_decide (x = k'))) k m)|]. by case_bool_decide. Qed.

Lemma mget_None k m : mget k m = None <-> k ∉ mkeys m.
Proof.
  induction m as [|[k' v] m IH]; simpl; [by split; [intros _ ?%elem_of_nil|]|].
  rewrite elem_of_cons. case_bool_decide; naive_solver.
Qed.

Lemma mget_elem k v m : mget k m = Some v -> (k, v) ∈ m.
Proof.
  induction m as [|[k' v'] m IH]; simpl; [done|].
  rewrite elem_of_cons. case_bool_decide; naive_solver.
Qed.

Lemma mget_NoDup k v m : NoDup (mkeys m) -> (k, v) ∈ m -> mget k m = Some v.
Proof.
  induction m as [|[k' v'] m IH]; simpl; [by intros _ ?%elem_of_nil|].
  intros [Hk Hm]%NoDup_cons [[= -> ->]|Hin]%elem_of_cons; [by rewrite bool_decide_true|].
  rewrite bool_decide_false; [by apply IH|].
  intros ->. apply Hk. unfold mkeys. apply (list_elem_of_fmap_2 fst) in Hin. done.
Qed.

Lemma mkeys_mset k v m :
  mkeys (mset k v m) = if bool_decide (k ∈ mkeys m) then mkeys m else mkeys m ++ [k].
Proof.
  induction m as [|[k' v'] m IH]; simpl; [done|].
  destruct (decide (k = k')) as [->|Hne].
  - rewrite bool_decide_true by done. rewrite bool_decide_true; [done|apply elem_of_cons; by left].
  - rewrite bool_decide_false by done. simpl. rewrite IH.
    repeat case_bool_decide; rewrite ?elem_of_cons in *; naive_solver.
Qed.

Lemma mset_NoDup k v m : NoDup (mkeys m) -> NoDup (mkeys (mset k v m)).
Proof.
  intros H. rewrite mkeys_mset. case_bool_decide as Hk; [done|].
  apply NoDup_app. repeat split; [done| |apply NoDup_singleton].
  intros x Hx ->%list_elem_of_singleton. done.
Qed.

Lemma mfilter_NoDup (P : K * V -> bool) m : NoDup (mkeys m) -> NoDup (mkeys (List.filter P m)).
Proof.
  unfold mkeys. induction m as [|e m IH]; simpl; [done|]. intros [Hn Hd]%NoDup_cons. destruct (P e); simpl; [|by apply IH].
  apply NoDup_cons. split; [|by apply IH]. intros Hin. apply Hn. apply list_elem_of_fmap in Hin as (x & -> & Hx).
  apply list_elem_of_fmap_2, list_elem_of_In. by apply list_elem_of_In, filter_In in Hx as [? _].
Qed.

Lemma mset_elem k v m x : x ∈ mkeys (mset k v m) <-> x = k \/ x ∈ mkeys m.
Proof.
  rewrite mkeys_mset. case_bool_decide; [naive_solver|].
  rewrite elem_of_app, list_elem_of_singleton. naive_solver.
Qed.

End JsMap.

(** ** Accumulation *)

Section Accumulate.
Context {K V E : Type} `{EqDecision K}.
Context (key : E -> K) (init : E -> V) (step : E -> V -> V).

Definition acc_add (m : list (K * V)) (e : E) : list (K * V) :=
  upsert (key e) (init e) (step e) m.

Definition accumulate (m : list (K * V)) (l : list E) : list (K * V) := foldl acc_add m l.

Lemma accumulate_NoDup m l : NoDup (mkeys m) -> NoDup (mkeys (accumulate m l)).
Proof.
  revert m. induction l as [|e l IH]; intros m Hm; simpl; [done|].
  apply IH. by apply mset_NoDup.
Qed.

Lemma accumulate_keys m l x :
  x ∈ mkeys (accumulate m l) <-> x ∈ mkeys m \/ x ∈ map key l.
Proof.
  revert m. induction l as [|e l IH]; intros m; simpl.
  - rewrite elem_of_nil. naive_solver.
  - rewrite IH. unfold acc_add, upsert. rewrite mset_elem, elem_of_cons. naive_solver.
Qed.

(** A property of entries that the initial value has and every step keeps. *)
Lemma accumulate_inv (I : K -> V -> Prop) m l :
  Forall (fun p => I p.1 p.2) m ->
  Forall (fun e => I (key e) (step e (init e)) /\ forall v, I (key e) v -> I (key e) (step e v)) l ->
  Forall (fun p => I p.1 p.2) (accumulate m l).
Proof.
  intros Hm Hl. revert m Hm. induction Hl as [|e l [H0 H1] Hl IH]; intros m Hm; simpl; [done|].
  apply IH. unfold acc_add, upsert. clear IH Hl.
  assert (Hv : I (key e) (step e (default (init e) (mget (key e) m)))).
  { destruct (mget (key e) m) as [v|] eqn:E'; simpl; [|done].
    apply H1. apply mget_elem in E'. rewrite Forall_forall in Hm. by apply Hm in E'. }
  revert Hv. generalize (step e (default (init e) (mget (key e) m))). intros v Hv.
  induction Hm as [|[k' v'] m Hk Hm IH]; simpl; [by repeat constructor|].
  case_bool_decide; subst; constructor; done.
Qed.

(** The entry of a key is the fold of that key's events. *)
Lemma accumulate_get m l k :
  mget k (accumulate m l) =
  match List.filter (fun e => bool_decide (key e = k)) l with
  | [] => mget k m
  | e :: es => Some (foldl (fun v e => step e v) (step e (default (init e) (mget k m))) es)
  end.
Proof.
  revert m. induction l as [|e l IH]; intros m; simpl; [done|]. rewrite IH.
  unfold acc_add, upsert. rewrite !mget_mset.
  destruct (decide (key e = k)) as [<-|Hk].
  - rewrite !bool_decide_true by done. destruct (List.filter _ l); done.
  - rewrite !bool_decide_false by naive_solver. done.
Qed.

(** An additive measure of the entry of a key: the sum over that key's events. *)
Lemma accumulate_value (mu : V -> Z) (w : E -> Z) l k :
  (forall e, mu (init e) = 0) -> (forall e v, mu (step e v) = mu v + w e) ->
  default 0 (mu <$> mget k (accumulate [] l)) = sum_by (fun e => if bool_decide (key e = k) then w e else 0) l.
Proof.
  intros H0 H1. rewrite accumulate_get, <- sum_by_filter.
  destruct (List.filter _ l) as [|e es]; simpl; [done|].
  assert (Hf : forall v, mu (foldl (fun v e => step e v) v es) = mu v + sum_by w es).
  { induction es as [|e' es IH]; intros v; simpl; [lia|]. rewrite IH, H1. lia. }
  rewrite Hf, H1. unfold mget. simpl. rewrite H0. lia.
Qed.

(** The total of an additive measure over the entries whose key satisfies [P]. *)
Definition msum (P : K -> bool) (mu : V -> Z) (m : list (K * V)) : Z :=
  sum_by (fun p => if P p.1 then mu p.2 else 0) m.

Lemma msum_mset (P : K -> bool) (mu : V -> Z) k v m :
  msum P mu (mset k v m) =
  msum P mu m + (if P k then mu v - default 0 (mu <$> mget k m) else 0).
Proof.
  unfold msum. induction m as [|[k' v'] m IH]; simpl; [destruct (P k); lia|].
  case_bool_decide; subst; simpl; [destruct (P k'); lia|].
  rewrite IH. destruct (P k); lia.
Qed.

Lemma accumulate_sum (P : K -> bool) (mu : V -> Z) (w : E -> Z) m l :
  (forall e, mu (init e) = 0) -> (forall e v, mu (step e v) = mu v + w e) ->
  msum P mu (accumulate m l) = msum P mu m + sum_by (fun e => if P (key e) then w e else 0) l.
Proof.
  intros H0 H1. revert m. induction l as [|e l IH]; intros m; simpl; [lia|].
  rewrite IH. unfold acc_add, upsert. rewrite msum_mset, H1.
  destruct (mget (key e) m); simpl; rewrite ?H0; destruct (P (key e)); lia.
Qed.

End Accumulate.

Arguments mget : simpl never.
Arguments mset : simpl never.

#[export] Hint Resolve mset_NoDup : jsdb.
