(* ===== verification/JsonText.v ===== *)
(** * JSON.stringify of values, and reading its text back

    [JSON.stringify(v)] and [JSON.stringify(v, null, 2)] on the values of
    JsValue: [undefined] members are left out, integer keys come first, and with
    a gap every element has its line.  [json_read_back] shows that [JSON.parse]
    gives the value back, less its [undefined] members, when its numbers are
    [plainNumber]s and no key is an integer, whatever the indentation. *)
From stdpp Require Import prelude list strings.
From S2P Require Import Prelude JsString JsNumber JsValue.
Open Scope js_scope.

(** ** Serialisation *)

(** What goes before an element, and before the closing bracket. *)
Definition lineBreak (gap indent : jstr) : jstr := match gap with [] => [] | _ => 10%N :: indent end.

Definition wrap (gap indent : jstr) (opening closing : jstr) (parts : list jstr) : jstr :=
  match parts with
  | [] => opening ++ closing
  | _ => let sep := lineBreak gap (indent ++ gap) in
         opening ++ sep ++ js_join (js "," ++ sep) parts ++ lineBreak gap indent ++ closing
  end.

Definition colon (gap : jstr) : jstr := match gap with [] => js ":" | _ => js ": " end.

Fixpoint json_ser (gap indent : jstr) (v : jsval) : option jstr :=
  match v with
  | VUndef => None
  | VNull => Some (js "null")
  | VBool b => Some (if b then js "true" else js "false")
  | VNum n => Some (if num_is_finite n then num_to_str n else js "null")
  | VStr s => Some (json_quote s)
  | VArr xs =>
      Some (wrap gap indent (js "[") (js "]")
        (map (fun x => default (js "null") (json_ser gap (indent ++ gap) x)) xs))
  | VObj fs =>
      Some (wrap gap indent (js "{") (js "}")
        (omap (fun p => (fun t => json_quote p.1 ++ colon gap ++ t) <$> p.2)
           (entries (map (fun p => (p.1, json_ser gap (indent ++ gap) p.2)) fs))))
  end.

(** [JSON.stringify(v)] and [JSON.stringify(v, null, 2)]; [None] is [undefined]. *)
Definition json_stringify (v : jsval) : option jstr := json_ser [] [] v.
Definition json_stringify2 (v : jsval) : option jstr := json_ser (js "  ") [] v.

(** ** Values that come back *)

Definition notIndex (k : jstr) : bool := match array_index k with Some _ => false | None => true end.

(** A number whose text is a JSON number that reads back as the number. *)
Definition plainNumber (n : number) : bool := num_is_finite n && bool_decide (json_number (num_to_str n) = Some (n, [])).

Fixpoint textual (v : jsval) : bool :=
  match v with
  | VNull | VBool _ | VStr _ => true
  | VNum n => plainNumber n
  | VUndef => false
  | VArr xs => forallb textual xs
  | VObj fs => bool_decide (NoDup (map fst fs)) && forallb notIndex (map fst fs) && forallb (fun p => textual p.2) fs
  end.

(** Induction with hypotheses for elements and members. *)
Section Induction.
Variable P : jsval -> Prop.
Hypotheses (H1 : P VUndef) (H2 : P VNull) (H3 : forall b, P (VBool b)) (H4 : forall n, P (VNum n)) (H5 : forall s, P (VStr s))
  (H6 : forall xs, Forall P xs -> P (VArr xs)) (H7 : forall fs, Forall (fun p => P p.2) fs -> P (VObj fs)).

Fixpoint jsval_nested_ind (v : jsval) : P v :=
  match v with
  | VUndef => H1 | VNull => H2 | VBool b => H3 b | VNum n => H4 n | VStr s => H5 s
  | VArr xs => H6 xs ((fix go l : Forall P l :=
      match l with [] => List.Forall_nil P | x :: l' => List.Forall_cons P x l' (jsval_nested_ind x) (go l') end) xs)
  | VObj fs => H7 fs ((fix go l : Forall (fun p => P p.2) l :=
      match l with [] => List.Forall_nil _ | p :: l' => List.Forall_cons _ p l' (jsval_nested_ind p.2) (go l') end) fs)
  end.
End Induction.

(** ** Reading back *)

Definition blank (w : jstr) : Prop := Forall (fun c => json_ws c = true) w.

Lemma skip_blank w s : blank w -> skip_ws (w ++ s) = skip_ws s.
Proof. induction 1 as [|c w Hc _ IH]; [done|]. cbn. by rewrite Hc. Qed.

Lemma blank_app a b : blank a -> blank b -> blank (a ++ b).
Proof. intros. by apply Forall_app. Qed.

Lemma blank_break gap indent : blank indent -> blank (lineBreak gap indent).
Proof. intros H. destruct gap; [constructor|]. by constructor. Qed.

(** What may follow a value. *)
Definition ends (rest : jstr) : Prop :=
  match rest with [] => True | c :: _ => json_ws c = true \/ c = 44%N \/ c = 93%N \/ c = 125%N end.

Lemma ends_blank w c rest : blank w -> ends (c :: rest) -> ends (w ++ c :: rest).
Proof. intros Hw Hc. destruct Hw as [|x w Hx _]; [done|]. by left. Qed.

(** The text [t] starts a value and is read as [v]. *)
Record reads (t : jstr) (v : jsval) : Prop := {
  reads_head : exists c t', t = c :: t' /\ json_ws c = false /\ c <> 93%N;
  reads_parse : forall w f rest, blank w -> ends rest -> (2 * length t <= f)%nat -> parse_value f (w ++ t ++ rest) = Some (v, rest) }.

Lemma reads_skip t v w rest : reads t v -> blank w -> skip_ws (w ++ t ++ rest) = t ++ rest.
Proof. intros [(c & t' & -> & Hc & _) _] Hw. rewrite skip_blank by done. cbn. by rewrite Hc. Qed.

(** A value read from a text that starts with no white space. *)
Lemma reads_intro t v c t' :
  t = c :: t' -> json_ws c = false -> c <> 93%N ->
  (forall f rest, ends rest -> (2 * length t <= S f)%nat -> parse_value (S f) (t ++ rest) = Some (v, rest)) -> reads t v.
Proof.
  intros -> Hc Hn H. split; [eauto|]. intros w [|f] rest Hw He Hf; [cbn in Hf; lia|]. rewrite <- (H f rest He Hf).
  cbn [parse_value]. rewrite skip_blank by done. done.
Qed.

Lemma reads_quote s : reads (json_quote s) (VStr s).
Proof.
  eapply reads_intro; [reflexivity|done|done|]. intros f rest _ _.
  replace (json_quote s ++ rest) with (34%N :: quote_body s ++ 34%N :: rest) by (unfold json_quote; cbn; by rewrite <- app_assoc).
  pose proof (parse_quote_body s rest) as E. revert E. generalize (quote_body s ++ 34%N :: rest). intros b E.
  cbn. by rewrite E.
Qed.

Lemma reads_word s v : (s, v) ∈ [(js "null", VNull); (js "true", VBool true); (js "false", VBool false)] -> reads s v.
Proof.
  intros H. repeat (apply elem_of_cons in H as [[= -> ->]|H]; [eapply reads_intro; [reflexivity|done|done|];
    intros f rest _ _; reflexivity|]). by apply elem_of_nil in H.
Qed.

(** *** Numbers *)

(** Evaluate the code units of character literals. *)
Ltac eval_units := repeat match goal with |- context [u ?a] => let v := eval vm_compute in (u a) in change (u a) with v end.

Lemma ends_head rest c q : ends rest -> rest = c :: q -> is_digit c = false /\ (c =? 46)%N = false /\ is_e c = false.
Proof.
  intros He ->. unfold ends, json_ws in He. assert (Hc : In c [32; 9; 10; 13; 44; 93; 125]%N).
  { destruct He as [H|[->|[-> | ->]]]; [|by repeat (try (by left); right)..]. rewrite !orb_true_iff, !N.eqb_eq in H.
    repeat (destruct H as [H|H]; [|subst; cbn; tauto]). subst. by left. }
  repeat (destruct Hc as [<-|Hc]; [done|]). done.
Qed.

Lemma span_end p t a rest : span p t = (a, []) -> (forall c q, rest = c :: q -> p c = false) -> span p (t ++ rest) = (a, rest).
Proof.
  intros H Hr. revert a H. induction t as [|c t IH]; intros a H; cbn in *.
  - injection H as <-. destruct rest as [|c q]; [done|]. cbn. by rewrite (Hr c q).
  - destruct (p c); [|done]. destruct (span p t) as [x y] eqn:E. injection H as <- ->. by rewrite (IH x).
Qed.

Lemma span_more p t a c b rest : span p t = (a, c :: b) -> span p (t ++ rest) = (a, c :: b ++ rest).
Proof.
  revert a. induction t as [|d t IH]; intros a H; cbn in *; [done|]. destruct (p d); [|by injection H as <- <- <-].
  destruct (span p t) as [x y] eqn:E. injection H as <- ->. by rewrite (IH x).
Qed.

Lemma scan_exp_app t e rest : scan_exp t = Some (e, []) -> ends rest -> scan_exp (t ++ rest) = Some (e, rest).
Proof.
  intros H He. destruct t as [|c r]; cbn [app].
  - injection H as <-. destruct rest as [|c q]; [done|]. destruct (ends_head _ c q He eq_refl) as (_ & _ & Hc). cbn. by rewrite Hc.
  - cbn in H |- *. destruct (is_e c); [|done].
    assert (Hd : forall x q, rest = x :: q -> is_digit x = false) by (intros x q E; by destruct (ends_head _ x q He E)).
    destruct r as [|c1 r']; [done|]. cbn [app] in *.
    destruct (c1 =? _)%N; [|destruct (c1 =? _)%N; [|change (c1 :: r' ++ rest) with ((c1 :: r') ++ rest)]].
    all: destruct (span is_digit _) as [ds r2] eqn:E in H; destruct ds as [|d ds]; [done|]; injection H as <- ->;
      by rewrite (span_end _ _ _ _ E Hd).
Qed.

Section Numbers.
Variable rest : jstr.
Hypothesis He : ends rest.

Lemma rest_stops x q : rest = x :: q -> is_digit x = false /\ (x =? 46)%N = false /\ is_e x = false.
Proof. by apply ends_head. Qed.

(** Reading digits that may end the text. *)
Lemma span_digits t a r : span is_digit t = (a, r) -> span is_digit (t ++ rest) = (a, r ++ rest).
Proof.
  intros H. destruct r as [|c r]; [apply span_end; [done|]; by intros x q [? _]%rest_stops|]. by apply span_more.
Qed.

Lemma json_frac_app r fp r2 : json_frac r = Some (fp, r2) -> json_frac (r ++ rest) = Some (fp, r2 ++ rest).
Proof.
  destruct r as [|c r]; cbn [app json_frac].
  - intros [= <- <-]. pose proof rest_stops as Hs. destruct rest as [|c q]; [done|]. destruct (Hs c q eq_refl) as (_ & Hc & _).
    cbn [json_frac app]. eval_units. by rewrite Hc.
  - destruct (c =? _)%N; [|by intros [= <- <-]]. destruct (span is_digit r) as [a b] eqn:E. rewrite (span_digits _ _ _ E).
    destruct a; [done|]. by intros [= <- <-].
Qed.

Lemma json_number_app t n : json_number t = Some (n, []) -> json_number (t ++ rest) = Some (n, rest).
Proof.
  intros H. unfold json_number in *. assert (Es : json_sign (t ++ rest) = ((json_sign t).1, (json_sign t).2 ++ rest)).
  { destruct t as [|c t]; [done|]. cbn. by destruct (c =? _)%N. }
  rewrite Es. destruct (json_sign t) as [neg r]. cbn [fst snd]. destruct (span is_digit r) as [ip r1] eqn:E1. rewrite (span_digits _ _ _ E1).
  destruct (negb (json_int ip)); [done|]. destruct (json_frac r1) as [[fp r2]|] eqn:E2; [|done]. rewrite (json_frac_app _ _ _ E2).
  cbn [mbind option_bind] in *. destruct (scan_exp r2) as [[e r3]|] eqn:E3; [|done]. cbn in H. injection H as <- ->.
  by rewrite (scan_exp_app _ _ _ E3 He).
Qed.
End Numbers.

(** A number starts with a digit or a minus sign. *)
Lemma json_number_head t n : json_number t = Some (n, []) -> exists c t', t = c :: t' /\ (c = 45%N \/ is_digit c = true).
Proof.
  unfold json_number. destruct t as [|c t]; [done|]. cbn [json_sign]. intros H. exists c, t. split; [done|].
  destruct (N.eqb_spec c 45) as [->|Hc]; [by left|]. right. destruct (is_digit c) eqn:E; [done|].
  change (c =? _)%N with (c =? 45)%N in H. rewrite (proj2 (N.eqb_neq _ _) Hc) in H. cbn [span] in H. by rewrite E in H.
Qed.

Lemma reads_number n : plainNumber n = true -> reads (num_to_str n) (VNum n).
Proof.
  unfold plainNumber. intros [_ H%bool_decide_eq_true]%andb_true_iff. destruct (json_number_head _ _ H) as (c & t' & Et & Hc).
  assert (Hw : json_ws c = false /\ c <> 93%N /\ Forall (fun x => (c =? x)%N = false) [34; 91; 123; 116; 102; 110]%N).
  { destruct Hc as [->|Hc]; [by repeat constructor|]. unfold is_digit in Hc. bool_hyps. unfold json_ws.
    split_and!; [|lia|repeat constructor; apply N.eqb_neq; lia]. rewrite !orb_false_iff, !N.eqb_neq. lia. }
  destruct Hw as (Hw & Hn & Hx). eapply reads_intro; [exact Et|done|done|]. intros f rest He _.
  rewrite Et in H |- *. pose proof (json_number_app rest He _ _ H) as E. cbn [app] in E |- *. cbn [parse_value skip_ws]. rewrite Hw.
  rewrite !Forall_cons in Hx. destruct Hx as (X1 & X2 & X3 & X4 & X5 & X6 & _). rewrite X1.
  eval_units. rewrite X2, X3, X4, X5, X6, E. done.
Qed.

Section Layout.
Variables (sep tail : jstr).
Hypotheses (Hsep : blank sep) (Htail : blank tail).

Lemma parse_elems_join ts xs : Forall2 reads ts xs -> ts <> [] -> forall f rest,
  (2 * length (js_join (js "," ++ sep) ts) + 1 <= f)%nat ->
  parse_elems f (sep ++ js_join (js "," ++ sep) ts ++ tail ++ js "]" ++ rest) = Some (xs, rest).
Proof.
  induction 1 as [|t v ts xs Ht Hrest IH]; [done|]. intros _ [|f] rest Hf; [lia|].
  destruct ts as [|t2 ts].
  - inversion Hrest; subst xs. cbn [js_join]. cbn [parse_elems]. cbn [js_join] in Hf.
    rewrite (reads_parse _ _ Ht) by (done || lia || by apply ends_blank; [|right; right; left]).
    cbn [mbind option_bind]. rewrite skip_blank by done. done.
  - change (js_join (js "," ++ sep) (t :: t2 :: ts)) with (t ++ (js "," ++ sep) ++ js_join (js "," ++ sep) (t2 :: ts)) in *.
    cbn [parse_elems]. rewrite <- !app_assoc. rewrite (reads_parse _ _ Ht) by (done || (right; left; done) || (rewrite !length_app in Hf; lia)).
    cbn [mbind option_bind]. change (skip_ws (js "," ++ ?s)) with (js "," ++ s).
    change (js "," ++ ?s) with (44%N :: s). cbn iota beta.
    rewrite IH by (done || (rewrite !length_app in Hf; change (length (js ",")) with 1%nat in Hf; lia)). done.
Qed.

(** A member read from the text of its key and of its value. *)
Definition memberText (c : jstr) (p : jstr * jstr) : jstr := json_quote p.1 ++ c ++ p.2.

Definition readsMember (a : jstr * jstr) (b : jstr * jsval) : Prop := a.1 = b.1 /\ reads a.2 b.2.

Lemma set_prop_new k v fs : k ∉ map fst fs -> set_prop k v fs = fs ++ [(k, v)].
Proof.
  induction fs as [|[k' v'] fs IH]; [done|]. cbn. intros [Hk Hn]%not_elem_of_cons. rewrite bool_decide_false by done. by rewrite IH.
Qed.

(** One member, up to what follows its value. *)
Lemma parse_member c w f acc k t v more : blank c -> blank w -> reads t v -> ends more -> (2 * length (memberText (58%N :: c) (k, t)) <= f)%nat ->
  k ∉ map fst acc ->
  parse_members (S f) acc (w ++ memberText (58%N :: c) (k, t) ++ more) =
    match skip_ws more with
    | e :: q => if (e =? 44)%N then parse_members f (acc ++ [(k, v)]) q
                else if (e =? 125)%N then Some (acc ++ [(k, v)], q) else None
    | [] => None
    end.
Proof.
  intros Hc Hw Ht He Hf Hk. unfold memberText, json_quote in *. cbn [fst snd] in *.
  replace (w ++ ((34%N :: quote_body k ++ [34%N]) ++ (58%N :: c) ++ t) ++ more)
    with (w ++ 34%N :: quote_body k ++ 34%N :: 58%N :: c ++ t ++ more)
    by (cbn; rewrite <- !app_assoc; cbn; rewrite <- !app_assoc; done).
  assert (Hf' : (2 * length t <= f)%nat) by (rewrite !length_app in Hf; lia).
  pose proof (parse_quote_body k (58%N :: c ++ t ++ more)) as E. revert E.
  generalize (quote_body k ++ 34%N :: 58%N :: c ++ t ++ more). intros b E.
  cbn [parse_members]. rewrite skip_blank by done. cbn [skip_ws]. change (json_ws 34) with false. cbn iota.
  change (34 =? 34)%N with true. cbn iota. rewrite E. cbn [mbind option_bind skip_ws]. change (json_ws 58) with false. cbn iota.
  cbn iota. rewrite (reads_parse _ _ Ht) by done. cbn [mbind option_bind].
  by rewrite set_prop_new.
Qed.

Lemma parse_members_join c ms fs : blank c -> Forall2 readsMember ms fs -> ms <> [] -> forall f acc rest,
  (2 * length (js_join (js "," ++ sep) (map (memberText (58%N :: c)) ms)) + 1 <= f)%nat -> NoDup (map fst (acc ++ fs)) ->
  parse_members f acc (sep ++ js_join (js "," ++ sep) (map (memberText (58%N :: c)) ms) ++ tail ++ js "}" ++ rest)
  = Some (acc ++ fs, rest).
Proof.
  intros Hc. induction 1 as [|[k t] [k' v] ms fs [Ek Ht] Hrest IH]; [done|]. cbn in Ek, Ht. subst k'.
  intros _ [|f] acc rest Hf Hd; [lia|].
  assert (Hk : k ∉ map fst acc).
  { rewrite map_app in Hd. apply NoDup_app in Hd as (_ & Hd & _). intros Hin. apply (Hd k Hin). by left. }
  destruct ms as [|m2 ms].
  - inversion Hrest; subst fs. cbn [map js_join] in *. rewrite (parse_member c sep f acc k t v) by (done || lia || by apply ends_blank; [|right; right; right]).
    rewrite skip_blank by done. done.
  - set (T := map (memberText (58%N :: c)) (m2 :: ms)) in *. assert (HT : T <> []) by done.
    change (map (memberText (58%N :: c)) ((k, t) :: m2 :: ms)) with (memberText (58%N :: c) (k, t) :: T) in *.
    assert (EJ : js_join (js "," ++ sep) (memberText (58%N :: c) (k, t) :: T) =
      memberText (58%N :: c) (k, t) ++ (js "," ++ sep) ++ js_join (js "," ++ sep) T) by done.
    rewrite EJ in *. rewrite !length_app in Hf. change (length (js ",")) with 1%nat in Hf. rewrite <- !app_assoc.
    rewrite (parse_member c sep f acc k t v) by (done || lia || (right; left; done)). set (M := sep ++ js_join _ T ++ _).
    change (skip_ws (js "," ++ M)) with (44%N :: M). cbn iota. change (44 =? 44)%N with true. cbn iota. unfold M.
    rewrite IH; [by rewrite <- app_assoc|done|lia|by rewrite <- app_assoc].
Qed.

End Layout.

(** ** Values *)

Lemma wrap_parts gap indent a b parts : parts <> [] ->
  wrap gap indent a b parts = a ++ lineBreak gap (indent ++ gap) ++
    js_join (js "," ++ lineBreak gap (indent ++ gap)) parts ++ lineBreak gap indent ++ b.
Proof. by destruct parts. Qed.

Lemma parse_open_array f r : parse_value (S f) (js "[" ++ r) =
  match skip_ws r with
  | d :: q => if (d =? 93)%N then Some (VArr [], q) else '(xs, q') ← parse_elems f r; Some (VArr xs, q')
  | [] => None
  end.
Proof. reflexivity. Qed.

Lemma parse_open_object f r : parse_value (S f) (js "{" ++ r) =
  match skip_ws r with
  | d :: q => if (d =? 125)%N then Some (VObj [], q) else '(fs, q') ← parse_members f [] r; Some (VObj fs, q')
  | [] => None
  end.
Proof. reflexivity. Qed.

(** The first unit of a joined text is that of its first part. *)
Lemma join_head sep c t ts : exists z, js_join sep ((c :: t) :: ts) = c :: z.
Proof. destruct ts; eexists; reflexivity. Qed.

Lemma reads_array gap indent ts xs : blank gap -> blank indent -> Forall2 reads ts xs ->
  reads (wrap gap indent (js "[") (js "]") ts) (VArr xs).
Proof.
  intros Hg Hi H. destruct ts as [|t0 ts].
  { inversion H; subst. by eapply reads_intro; [reflexivity|..]. }
  rewrite wrap_parts by done. set (sep := lineBreak gap (indent ++ gap)). set (J := js_join _ _).
  assert (Hs : blank sep) by (by apply blank_break, blank_app). assert (Ht : blank (lineBreak gap indent)) by (by apply blank_break).
  eapply reads_intro; [reflexivity|done|done|]. intros f rest _ Hf. rewrite <- !app_assoc, parse_open_array.
  rewrite (parse_elems_join sep (lineBreak gap indent) Hs Ht (t0 :: ts) xs) by (done || (rewrite !length_app in Hf; change (length (js "[")) with 1%nat in Hf; fold J; lia)).
  rewrite skip_blank by done. unfold J. inversion H as [|? ? ? ? [(c & t' & -> & Hc & Hn) _] _]; subst.
  destruct (join_head (js "," ++ sep) c t' ts) as [z ->]. cbn. by rewrite Hc, (proj2 (N.eqb_neq _ _) Hn).
Qed.

Lemma colon_blank gap : exists c, blank c /\ colon gap = 58%N :: c.
Proof. destruct gap; [exists []|exists [32%N]]; (split; [by repeat constructor|done]). Qed.

Lemma reads_object gap indent ms fs : blank gap -> blank indent -> Forall2 readsMember ms fs -> NoDup (map fst fs) ->
  reads (wrap gap indent (js "{") (js "}") (map (memberText (colon gap)) ms)) (VObj fs).
Proof.
  intros Hg Hi H Hd. destruct (colon_blank gap) as (c & Hc & ->). destruct ms as [|[k t] ms].
  { inversion H; subst. by eapply reads_intro; [reflexivity|..]. }
  rewrite wrap_parts by done. set (sep := lineBreak gap (indent ++ gap)).
  assert (Hs : blank sep) by (by apply blank_break, blank_app). assert (Ht : blank (lineBreak gap indent)) by (by apply blank_break).
  set (M := map _ _). set (J := js_join _ _).
  eapply reads_intro; [reflexivity|done|done|]. intros f rest _ Hf. rewrite <- !app_assoc, parse_open_object.
  rewrite (parse_members_join sep (lineBreak gap indent) Hs Ht c ((k, t) :: ms) fs)
    by (done || (rewrite !length_app in Hf; change (length (js "{")) with 1%nat in Hf; fold M J; lia)).
  rewrite skip_blank by done. assert (Ez : exists z, J = 34%N :: z) by apply (join_head _ 34%N). destruct Ez as [z ->]. done.
Qed.

(** ** The round trip *)

Lemma entries_notIndex {A} (fs : list (jstr * A)) : forallb notIndex (map fst fs) = true -> entries fs = fs.
Proof.
  intros H. unfold entries. assert (E : List.filter is_index fs = [] /\ List.filter (fun e => negb (is_index e)) fs = fs).
  { induction fs as [|[k v] fs IH]; [done|]. cbn [map fst forallb] in H. apply andb_true_iff in H as [Hk H]. destruct (IH H) as [E1 E2].
    assert (Ei : is_index (k, v) = false) by (unfold is_index, notIndex in *; cbn; by destruct (array_index k)).
    cbn [List.filter]. rewrite Ei. cbn [negb]. by rewrite E1, E2. }
  by destruct E as [-> ->].
Qed.

Definition ser (gap indent : jstr) (v : jsval) : jstr := default (js "null") (json_ser gap indent v).

Lemma ser_object gap indent fs : forallb notIndex (map fst fs) = true ->
  Forall (fun p => json_ser gap (indent ++ gap) p.2 <> None) fs ->
  ser gap indent (VObj fs) = wrap gap indent (js "{") (js "}")
    (map (memberText (colon gap)) (map (fun p => (p.1, ser gap (indent ++ gap) p.2)) fs)).
Proof.
  intros Hi Hs. unfold ser at 1. cbn [json_ser default from_option id]. rewrite entries_notIndex by (by rewrite map_map).
  f_equal. clear Hi. induction Hs as [|[k v] fs Hv _ IH]; [done|]. cbn. rewrite <- IH. unfold ser. cbn in Hv. by destruct (json_ser _ _ v).
Qed.

Lemma ser_reads v : textual v = true -> forall gap indent, blank gap -> blank indent ->
  json_ser gap indent v <> None /\ reads (ser gap indent v) v.
Proof.
  induction v as [| |b|n|s|xs IH|fs IH] using jsval_nested_ind; intros Ht gap indent Hg Hi; try done.
  - split; [done|]. apply reads_word. set_solver.
  - split; [done|]. apply reads_word. destruct b; set_solver.
  - split; [done|]. cbn in Ht. unfold ser. cbn. pose proof (reads_number n Ht) as Hr. unfold plainNumber in Ht.
    apply andb_true_iff in Ht as [-> _]. done.
  - split; [done|]. apply reads_quote.
  - split; [done|]. unfold ser. cbn [json_ser default from_option id]. apply reads_array; [done|done|].
    cbn in Ht. rewrite forallb_forall in Ht. apply Forall2_fmap_l, Forall_Forall2_diag.
    apply Forall_forall. intros x Hx. rewrite Forall_forall in IH.
    by apply IH; [done|apply Ht, list_elem_of_In| |apply blank_app].
  - cbn in Ht. rewrite !andb_true_iff in Ht. destruct Ht as [[Hd%bool_decide_eq_true Hk] Hall]. rewrite forallb_forall in Hall.
    assert (Hm : Forall (fun p => json_ser gap (indent ++ gap) p.2 <> None /\ reads (ser gap (indent ++ gap) p.2) p.2) fs).
    { apply Forall_forall. intros p Hp. rewrite Forall_forall in IH.
      by apply IH; [done|apply Hall, list_elem_of_In| |apply blank_app]. }
    split; [done|]. rewrite ser_object by (done || (eapply Forall_impl; [exact Hm|by intros ? []])).
    apply reads_object; [done|done| |done]. apply Forall2_fmap_l, Forall_Forall2_diag. eapply Forall_impl; [exact Hm|].
    by intros p [_ H].
Qed.

Lemma read_back_textual gap v : blank gap -> textual v = true ->
  exists t, json_ser gap [] v = Some t /\ json_parse t = Some v.
Proof.
  intros Hg Hv. destruct (ser_reads v Hv gap [] Hg) as [Hn Hr]; [constructor|]. unfold ser in Hr.
  destruct (json_ser gap [] v) as [t|]; [|done]. exists t. split; [done|]. unfold json_parse.
  pose proof (reads_parse _ _ Hr [] (2 * length t + 2) []) as E. cbn [app default from_option id] in E.
  rewrite app_nil_r in E. rewrite E by (constructor || lia || done). done.
Qed.

(** ** Members that are [undefined] *)

Definition defined (p : jstr * jsval) : bool := match p.2 with VUndef => false | _ => true end.

(** What a value looks like after the trip: [undefined] members are gone, an
    [undefined] element is [null]. *)
Fixpoint prune (v : jsval) : jsval :=
  match v with
  | VArr xs => VArr (map (fun x => match prune x with VUndef => VNull | y => y end) xs)
  | VObj fs => VObj (List.filter defined (map (fun p => (p.1, prune p.2)) fs))
  | _ => v
  end.

Fixpoint storable (v : jsval) : bool :=
  match v with
  | VUndef | VNull | VBool _ | VStr _ => true
  | VNum n => plainNumber n
  | VArr xs => forallb storable xs
  | VObj fs => bool_decide (NoDup (map fst fs)) && forallb notIndex (map fst fs) && forallb (fun p => storable p.2) fs
  end.

Lemma prune_undef v : prune v = VUndef <-> v = VUndef.
Proof. by destruct v. Qed.

Lemma filter_keys (P : jstr * jsval -> bool) fs : sublist (map fst (List.filter P fs)) (map fst fs).
Proof. induction fs as [|p fs IH]; cbn; [constructor|]. destruct (P p); cbn; by constructor. Qed.

Lemma storable_prune v : storable v = true -> v <> VUndef -> textual (prune v) = true.
Proof.
  induction v as [| |b|n|s|xs IH|fs IH] using jsval_nested_ind; intros Hs Hn; try done.
  - cbn in Hs |- *. rewrite forallb_forall in *. rewrite Forall_forall in IH. intros y Hy.
    apply in_map_iff in Hy as (x & <- & Hx). pose proof (IH x (proj2 (list_elem_of_In _ _) Hx) (Hs x Hx)) as Hi.
    destruct x; try done; by apply Hi.
  - cbn in Hs |- *. rewrite !andb_true_iff in *. destruct Hs as [[Hd%bool_decide_eq_true Hk] Hall].
    assert (Hsub : sublist (map fst (List.filter defined (map (fun p => (p.1, prune p.2)) fs))) (map fst fs)).
    { etransitivity; [apply filter_keys|]. by rewrite map_map. }
    split_and!.
    + apply bool_decide_eq_true. by eapply sublist_NoDup.
    + rewrite forallb_forall in *. intros k Hi. apply Hk. apply list_elem_of_In. apply list_elem_of_In in Hi.
      by eapply elem_of_sublist.
    + rewrite forallb_forall in *. intros p Hp. apply filter_In in Hp as [Hp Hdef]. apply in_map_iff in Hp as (q & <- & Hq).
      rewrite Forall_forall in IH. apply (IH q); [by apply list_elem_of_In|by apply Hall|].
      intros E. unfold defined in Hdef. cbn in Hdef. by rewrite (proj2 (prune_undef q.2) E) in Hdef.
Qed.

Lemma json_ser_prune v : storable v = true -> forall gap indent, json_ser gap indent (prune v) = json_ser gap indent v.
Proof.
  induction v as [| |b|n|s|xs IH|fs IH] using jsval_nested_ind; intros Hs gap indent; try done.
  - cbn in Hs |- *. rewrite map_map. do 2 f_equal. rewrite forallb_forall in Hs. rewrite Forall_forall in IH.
    apply map_ext_in. intros x Hx. rewrite <- (IH x (proj2 (list_elem_of_In _ _) Hx) (Hs x Hx)). by destruct x.
  - cbn in Hs |- *. rewrite !andb_true_iff in *. destruct Hs as [[_ Hk] Hall].
    do 2 f_equal. rewrite !entries_notIndex; cycle 1.
    { by rewrite map_map. }
    { rewrite map_map. cbn. rewrite forallb_forall in *. intros k Hi. apply Hk. apply list_elem_of_In.
      apply list_elem_of_In in Hi. eapply elem_of_sublist; [exact Hi|]. etransitivity; [apply filter_keys|]. by rewrite map_map. }
    clear Hk. induction IH as [|[k v] fs Hv _ IH']; [done|]. cbn in Hall, Hv. apply andb_true_iff in Hall as [Hv1 Hall].
    specialize (IH' Hall). cbn. rewrite <- (Hv Hv1). unfold defined at 1. cbn. destruct (prune v) eqn:E; cbn; by rewrite IH'.
Qed.

(** ** Stored objects *)

Lemma storable_obj o : storable (VObj o) = true <->
  NoDup (map fst o) /\ forallb notIndex (map fst o) = true /\ forallb (fun p => storable p.2) o = true.
Proof. cbn [storable]. rewrite !andb_true_iff, bool_decide_eq_true. tauto. Qed.

Lemma storable_set k v o : storable (VObj o) = true -> notIndex k = true -> storable v = true -> storable (VObj (set_prop k v o)) = true.
Proof.
  rewrite !storable_obj, set_prop_keys. intros (Hd & Hk & Hv) Hn Hs. split_and!.
  - case_bool_decide; [done|]. apply NoDup_app. split_and!; [done| |apply NoDup_singleton]. intros x Hx ->%list_elem_of_singleton. done.
  - case_bool_decide; [done|]. rewrite forallb_app, Hk. cbn. by rewrite Hn.
  - clear Hd Hk. induction o as [|[a w] o IH]; cbn in *; [by rewrite Hs|]. apply andb_true_iff in Hv as [Hw Hv].
    destruct (k === a); cbn; [by rewrite Hs|]. by rewrite Hw, IH.
Qed.

Lemma storable_delete k o : storable (VObj o) = true -> storable (VObj (delete_prop k o)) = true.
Proof.
  rewrite !storable_obj. intros (Hd & Hk & Hv). unfold delete_prop.
  assert (Hs := filter_keys (fun p => negb (p.1 === k)) o). split_and!; [by eapply sublist_NoDup| |].
  - rewrite forallb_forall in *. intros x Hx. apply Hk, list_elem_of_In. apply list_elem_of_In in Hx. by eapply elem_of_sublist.
  - rewrite forallb_forall in *. intros p [Hp _]%filter_In. by apply Hv.
Qed.

Lemma get_prune_fields k o : NoDup (map fst o) -> get_prop k (List.filter defined (map (fun p => (p.1, prune p.2)) o)) = prune (get_prop k o).
Proof.
  induction o as [|[a v] o IH]; intros Hd; [done|]. cbn [map fst snd List.filter] in *. apply NoDup_cons in Hd as [Hn Hd]. cbn [get_prop].
  destruct (decide (k = a)) as [->|Hk].
  - rewrite (bool_decide_eq_true_2 (a = a)) by done. destruct (defined (a, prune v)) eqn:Ed; cbn [get_prop].
    + by rewrite bool_decide_eq_true_2.
    + rewrite IH, get_prop_absent by done. unfold defined in Ed. cbn in Ed. by destruct (prune v).
  - rewrite (bool_decide_eq_false_2 (k = a)) by done. destruct (defined _); cbn [get_prop]; rewrite ?bool_decide_eq_false_2 by done; by apply IH.
Qed.

Lemma textual_fields fs : textual (VObj fs) = true <->
  NoDup (map fst fs) /\ Forall (fun k => notIndex k = true) (map fst fs) /\ Forall (fun p => textual p.2 = true) fs.
Proof.
  cbn [textual]. rewrite !andb_true_iff, bool_decide_eq_true, !forallb_forall, !List.Forall_forall. tauto.
Qed.

Lemma textual_set k v fs : textual (VObj fs) = true -> textual v = true -> notIndex k = true ->
  textual (VObj (set_prop k v fs)) = true.
Proof.
  rewrite !textual_fields. intros (Hd & Hk & Ht) Hv Hi. split_and!.
  - rewrite set_prop_keys. case_bool_decide; [done|]. apply NoDup_app. split_and!; [done| |apply NoDup_singleton].
    intros x Hx ->%list_elem_of_singleton. done.
  - rewrite set_prop_keys. case_bool_decide; [done|]. apply Forall_app. split; [done|by constructor].
  - clear Hd Hk. induction Ht as [|[k0 v0] fs H0 Ht IH]; simpl; [by constructor|]. case_bool_decide; by constructor.
Qed.

Lemma textual_delete k fs : textual (VObj fs) = true -> textual (VObj (delete_prop k fs)) = true.
Proof.
  rewrite !textual_fields, !Forall_forall. intros (Hd & Hk & Ht). unfold delete_prop.
  assert (Hs := filter_keys (fun p => negb (p.1 === k)%js) fs). split_and!; [by eapply sublist_NoDup| |].
  - intros x Hx. apply Hk. by eapply elem_of_sublist.
  - intros p Hp. apply list_elem_of_In, filter_In in Hp as [Hp _]. by apply Ht, list_elem_of_In.
Qed.

(** The text of an object starts and ends with a brace. *)
Lemma ser_object_trimmed gap fs : exists w, json_ser gap [] (VObj fs) = Some (123%N :: w ++ [125%N]).
Proof.
  cbn [json_ser]. unfold wrap. destruct (omap _ _) as [|p ps]; [by exists []|]. eexists. rewrite !app_assoc. reflexivity.
Qed.

Lemma ser_array_trimmed gap xs : exists w, json_ser gap [] (VArr xs) = Some (91%N :: w ++ [93%N]).
Proof. cbn [json_ser]. unfold wrap. destruct (map _ _) as [|p ps]; [by exists []|]. eexists. rewrite !app_assoc. reflexivity. Qed.

Lemma textual_entries o : textual (VObj o) = true -> entries o = o.
Proof.
  intros (_ & H & _)%textual_fields. apply entries_notIndex.
  apply forallb_forall. intros k Hk%list_elem_of_In. rewrite Forall_forall in H. by apply H.
Qed.

Lemma textual_keys o : textual (VObj o) = true -> obj_keys o = map fst o.
Proof. intros H. unfold obj_keys. by rewrite textual_entries. Qed.

(** Texts written from an object depend on its entries only. *)
Lemma stringify_entries gap a b : entries a = entries b -> json_ser gap [] (VObj a) = json_ser gap [] (VObj b).
Proof. intros E. cbn [json_ser]. by rewrite !entries_map, E. Qed.

Lemma foldl_set_new (acc o : fields) : NoDup (map fst (acc ++ o)) -> foldl (fun m p => set_prop p.1 p.2 m) acc o = acc ++ o.
Proof.
  revert acc. induction o as [|[k v] o IH]; intros acc H; [by rewrite app_nil_r|]. cbn [foldl fst snd]. rewrite set_prop_new.
  - rewrite IH; rewrite <- app_assoc; done.
  - rewrite map_app in H. apply NoDup_app in H as (_ & H & _). intros Hk. apply (H k Hk). by left.
Qed.

Lemma textual_own k v o : textual (VObj o) = true -> own k o = Some v -> textual v = true.
Proof. intros (_ & _ & H)%textual_fields E%own_In. rewrite Forall_forall in H. by apply (H (k, v)). Qed.

(** [JSON.parse(JSON.stringify(v, null, gap))], for any blank gap. *)
Lemma json_read_back gap v : blank gap -> storable v = true -> v <> VUndef ->
  exists t, json_ser gap [] v = Some t /\ json_parse t = Some (prune v).
Proof.
  intros Hg Hs Hn. rewrite <- (json_ser_prune v) by done. apply read_back_textual; [done|by apply storable_prune].
Qed.

Example json_stringify_sample :
  let v := VObj [(js "b", VArr [VStr (js "x"); VUndef]); (js "7", VNull); (js "a", VUndef); (js "c", VObj [])] in
  (json_stringify v, json_stringify2 (VObj [(js "b", VArr [VNull])])) =
  (Some (jsq "{'7':null,'b':['x',null],'c':{}}"),
   Some (js "{" ++ [10%N] ++ jsq "  'b': [" ++ [10%N] ++ js "    null" ++ [10%N] ++ js "  ]" ++ [10%N] ++ js "}")).
Proof. vm_compute. reflexivity. Qed.
