(* ===== verification/JsBytes.v ===== *)
(** * Bytes of text: base64 and UTF-8

    [atob] (the forgiving base64 decoder), [TextDecoder] for UTF-8 with its
    replacement of malformed input, and the two encodings a sender uses.  Bytes
    are numbers below 256.  Decoding what was encoded gives the text back
    ([decode_encoded]). *)
From Stdlib Require Import ZifyN ZifyNat.
From stdpp Require Import prelude list strings.
From S2P Require Import Prelude JsString.
Ltac Zify.zify_post_hook ::= Z.to_euclidean_division_equations.
Open Scope N_scope.

(** ** Base64 *)

Definition b64Value (c : N) : option N :=
  if (65 <=? c) && (c <=? 90) then Some (c - 65)
  else if (97 <=? c) && (c <=? 122) then Some (c - 71)
  else if (48 <=? c) && (c <=? 57) then Some (c + 4)
  else if c =? 43 then Some 62 else if c =? 47 then Some 63 else None.
Definition b64Char (v : N) : N :=
  if v <? 26 then v + 65 else if v <? 52 then v + 71 else if v <? 62 then v - 4 else if v =? 62 then 43 else 47.

(** Four values are three bytes; two or three values at the end are one or two,
    the remaining bits are dropped. *)
Fixpoint b64Bytes (vs : list N) : list N :=
  match vs with
  | a :: b :: c :: d :: vs' => (a * 4 + b / 16) :: (b mod 16 * 16 + c / 4) :: (c mod 4 * 64 + d) :: b64Bytes vs'
  | [a; b; c] => [a * 4 + b / 16; b mod 16 * 16 + c / 4]
  | [a; b] => [a * 4 + b / 16]
  | _ => []
  end.

(** The spaces that are ignored: tab, line feed, form feed, return and blank. *)
Definition b64Space (c : N) : bool := (c =? 9) || (c =? 10) || (c =? 12) || (c =? 13) || (c =? 32).
(** One or two equal signs at the end, when the length is a multiple of four. *)
Definition dropPadding (s : jstr) : jstr :=
  if (length s mod 4 =? 0)%nat
  then match rev s with a :: b :: t => if a =? 61 then if b =? 61 then rev t else rev (b :: t) else s | _ => s end
  else s.
(** [window.atob(s)]: the bytes, or an exception. *)
Definition atob (s : jstr) : option (list N) :=
  let t := dropPadding (List.filter (fun c => negb (b64Space c)) s) in
  if (length t mod 4 =? 1)%nat then None else b64Bytes <$> mapM b64Value t.

Fixpoint b64Encode (bs : list N) : jstr :=
  match bs with
  | x :: y :: z :: bs' => b64Char (x / 4) :: b64Char (x mod 4 * 16 + y / 16) :: b64Char (y mod 16 * 4 + z / 64) :: b64Char (z mod 64) :: b64Encode bs'
  | [x; y] => [b64Char (x / 4); b64Char (x mod 4 * 16 + y / 16); b64Char (y mod 16 * 4); 61]
  | [x] => [b64Char (x / 4); b64Char (x mod 4 * 16); 61; 61]
  | [] => []
  end.

(** ** UTF-8 *)

(** A code point as UTF-16 units. *)
Definition utf16 (cp : N) : jstr := if cp <? 0x10000 then [cp] else [0xD800 + (cp - 0x10000) / 0x400; 0xDC00 + (cp - 0x10000) mod 0x400].

(** The decoder: continuation bytes still needed, the bits so far, and the
    bounds of the next byte. *)
Record Utf8 := mkUtf8 { needed : nat; bits : N; lower : N; upper : N }.
Definition utf8Start : Utf8 := mkUtf8 0 0 0x80 0xBF.
Definition replacement : N := 0xFFFD.

(** A byte that begins a code point. *)
Definition leadByte (b : N) : list N * Utf8 :=
  if b <? 0x80 then ([b], utf8Start)
  else if (0xC2 <=? b) && (b <=? 0xDF) then ([], mkUtf8 1 (b - 0xC0) 0x80 0xBF)
  else if (0xE0 <=? b) && (b <=? 0xEF) then ([], mkUtf8 2 (b - 0xE0) (if b =? 0xE0 then 0xA0 else 0x80) (if b =? 0xED then 0x9F else 0xBF))
  else if (0xF0 <=? b) && (b <=? 0xF4) then ([], mkUtf8 3 (b - 0xF0) (if b =? 0xF0 then 0x90 else 0x80) (if b =? 0xF4 then 0x8F else 0xBF))
  else ([replacement], utf8Start).
(** One byte: the code points it completes.  A byte that does not continue the
    sequence ends it with a replacement and is read again. *)
Definition utf8Step (st : Utf8) (b : N) : list N * Utf8 :=
  match needed st with
  | O => leadByte b
  | S n =>
      if (b <? lower st) || (upper st <? b) then let '(out, st') := leadByte b in (replacement :: out, st')
      else let v := bits st * 64 + (b - 0x80) in
           match n with O => ([v], utf8Start) | _ => ([], mkUtf8 n v 0x80 0xBF) end
  end.
Fixpoint utf8Run (st : Utf8) (bs : list N) : list N :=
  match bs with
  | [] => match needed st with O => [] | _ => [replacement] end
  | b :: bs' => let '(out, st') := utf8Step st b in out ++ utf8Run st' bs'
  end.
(** [new TextDecoder().decode(bytes)]: a byte order mark at the start is dropped. *)
Definition decodeUtf8 (bs : list N) : jstr :=
  let cps := utf8Run utf8Start bs in
  concat (map utf16 (match cps with c :: cps' => if c =? 0xFEFF then cps' else cps | [] => [] end)).

Definition utf8Of (cp : N) : list N :=
  if cp <? 0x80 then [cp]
  else if cp <? 0x800 then [0xC0 + cp / 64; 0x80 + cp mod 64]
  else if cp <? 0x10000 then [0xE0 + cp / 4096; 0x80 + cp / 64 mod 64; 0x80 + cp mod 64]
  else [0xF0 + cp / 262144; 0x80 + cp / 4096 mod 64; 0x80 + cp / 64 mod 64; 0x80 + cp mod 64].
(** A code point that can be encoded. *)
Definition scalar (cp : N) : bool := (cp <? 0xD800) || ((0xE000 <=? cp) && (cp <? 0x110000)).
Definition encodeUtf8 (cps : list N) : list N := concat (map utf8Of cps).

(** ** Decoding what was encoded *)

Lemma b64_char v : v < 64 -> b64Value (b64Char v) = Some v /\ b64Space (b64Char v) = false /\ b64Char v <> 61.
Proof.
  intros H. assert (Hall : forallb (fun v => (bool_decide (b64Value (b64Char v) = Some v)) && negb (b64Space (b64Char v)) && negb (b64Char v =? 61))
    (map N.of_nat (seq 0 64)) = true) by (vm_compute; reflexivity).
  rewrite forallb_forall in Hall. specialize (Hall v). rewrite !andb_true_iff, !negb_true_iff, bool_decide_eq_true, N.eqb_neq in Hall.
  destruct Hall as [[H1 H2] H3]; [|done]. apply in_map_iff. exists (N.to_nat v). rewrite in_seq. lia.
Qed.

(** The values of the digits, and how many equal signs follow. *)
Fixpoint b64Digits (bs : list N) : list N :=
  match bs with
  | x :: y :: z :: bs' => (x / 4) :: (x mod 4 * 16 + y / 16) :: (y mod 16 * 4 + z / 64) :: (z mod 64) :: b64Digits bs'
  | [x; y] => [x / 4; x mod 4 * 16 + y / 16; y mod 16 * 4]
  | [x] => [x / 4; x mod 4 * 16]
  | [] => []
  end.
Fixpoint b64Padding (bs : list N) : jstr := match bs with _ :: _ :: _ :: bs' => b64Padding bs' | [_; _] => [61] | [_] => [61; 61] | [] => [] end.

Lemma list_ind3 {A} (P : list A -> Prop) :
  P [] -> (forall x, P [x]) -> (forall x y, P [x; y]) -> (forall x y z l, P l -> P (x :: y :: z :: l)) -> forall l, P l.
Proof.
  intros H0 H1 H2 H3 l. induction (Nat.lt_wf_0_projected (@length A) l) as [l _ IH].
  destruct l as [|x [|y [|z l]]]; [done..|]. apply H3, IH. simpl. lia.
Qed.

Lemma b64_encode_digits bs : b64Encode bs = map b64Char (b64Digits bs) ++ b64Padding bs.
Proof. induction bs as [|x|x y|x y z bs IH] using list_ind3; [done..|]. cbn [b64Encode b64Digits b64Padding map app]. by rewrite IH. Qed.

Lemma b64_digits_small bs : Forall (fun b => b < 256) bs -> Forall (fun v => v < 64) (b64Digits bs).
Proof.
  induction bs as [|x|x y|x y z bs IH] using list_ind3; intros H; cbn [b64Digits]; decompose_Forall_hyps; repeat constructor; try lia. by apply IH.
Qed.

Lemma b64_bytes_digits bs : Forall (fun b => b < 256) bs -> b64Bytes (b64Digits bs) = bs.
Proof.
  induction bs as [|x|x y|x y z bs IH] using list_ind3; intros H; decompose_Forall_hyps; cbn [b64Digits b64Bytes]; [done|..].
  - f_equal. lia.
  - repeat f_equal; lia.
  - rewrite IH by done. repeat f_equal; lia.
Qed.

Lemma b64_digits_length bs : ((length (b64Digits bs) + length (b64Padding bs)) mod 4 = 0)%nat /\ (length (b64Digits bs) mod 4 <> 1)%nat /\
  (b64Padding bs = [] \/ b64Padding bs = [61] \/ b64Padding bs = [61; 61]).
Proof.
  induction bs as [|x|x y|x y z bs IH] using list_ind3; cbn [b64Digits b64Padding length]; [split; [done|]; split; [done|]; auto..|].
  destruct IH as (H1 & H2 & H3). split; [|split; [|done]]; lia.
Qed.

Lemma rev_case {A} (l : list A) : l = [] \/ exists x l', l = l' ++ [x].
Proof. destruct l as [|x l _] using rev_ind; [by left|right]. by exists x, l. Qed.

Lemma no_space_chars ds : Forall (fun v => v < 64) ds -> List.filter (fun c => negb (b64Space c)) (map b64Char ds) = map b64Char ds.
Proof. induction 1 as [|v ds Hv _ IH]; [done|]. cbn [map List.filter]. destruct (b64_char v Hv) as (_ & -> & _). cbn [negb]. by rewrite IH. Qed.

Lemma drop_padding ds pad :
  Forall (fun v => v < 64) ds -> ((length ds + length pad) mod 4 = 0)%nat -> pad = [] \/ pad = [61] \/ pad = [61; 61] ->
  dropPadding (map b64Char ds ++ pad) = map b64Char ds.
Proof.
  intros Hds Hlen Hpad. unfold dropPadding. rewrite length_app, length_map, Hlen. cbn [Nat.eqb]. rewrite rev_app_distr.
  destruct (rev_case ds) as [->|(d & ds' & ->)].
  { destruct Hpad as [->|[->| ->]]; done. }
  apply Forall_app in Hds as [Hds' Hd]. apply Forall_inv in Hd. destruct (b64_char d Hd) as (_ & _ & Hne%N.eqb_neq).
  rewrite map_app, rev_app_distr. cbn [map rev app].
  destruct Hpad as [->|[->| ->]]; cbn [rev app].
  - rewrite app_nil_r. destruct (rev (map b64Char ds')) as [|c t]; [done|]. by rewrite Hne.
  - rewrite Hne. cbn. by rewrite rev_involutive.
  - cbn. by rewrite rev_involutive.
Qed.

Lemma read_digits ds : Forall (fun v => v < 64) ds -> mapM b64Value (map b64Char ds) = Some ds.
Proof. induction 1 as [|v ds Hv _ IH]; [done|]. cbn. destruct (b64_char v Hv) as (-> & _). cbn. by rewrite IH. Qed.

Lemma atob_encode bs : Forall (fun b => b < 256) bs -> atob (b64Encode bs) = Some bs.
Proof.
  intros H. pose proof (b64_digits_small bs H) as Hd. destruct (b64_digits_length bs) as (Hl & Hn & Hp). unfold atob. rewrite b64_encode_digits.
  rewrite List.filter_app, no_space_chars by done.
  assert (Hf : List.filter (fun c => negb (b64Space c)) (b64Padding bs) = b64Padding bs) by (by destruct Hp as [->|[->| ->]]).
  rewrite Hf, drop_padding by done. cbv zeta. rewrite length_map. apply Nat.eqb_neq in Hn as ->.
  rewrite read_digits by done. cbn. by rewrite b64_bytes_digits.
Qed.

(** *** UTF-8 *)

Ltac compare_n :=
  repeat match goal with
         | |- context [?a <? ?b] => destruct (N.ltb_spec a b); try lia
         | |- context [?a <=? ?b] => destruct (N.leb_spec a b); try lia
         | |- context [?a =? ?b] => destruct (N.eqb_spec a b); try lia
         end; cbn [orb andb].

Lemma scalar_range cp : scalar cp = true -> cp < 0xD800 \/ 0xE000 <= cp < 0x110000.
Proof. unfold scalar. rewrite orb_true_iff, andb_true_iff, !N.ltb_lt, N.leb_le. done. Qed.

Lemma utf8_bytes cp : scalar cp = true -> Forall (fun b => b < 256) (utf8Of cp).
Proof.
  intros H%scalar_range. unfold utf8Of. compare_n; repeat (apply List.Forall_cons; [lia|]); apply List.Forall_nil.
Qed.

Lemma lead_step b rest : utf8Run utf8Start (b :: rest) = (leadByte b).1 ++ utf8Run (leadByte b).2 rest.
Proof. cbn. by destruct (leadByte b). Qed.
Lemma cont_step n v lo hi b rest : lo <= b -> b <= hi ->
  utf8Run (mkUtf8 (S n) v lo hi) (b :: rest) =
  match n with O => (v * 64 + (b - 0x80)) :: utf8Run utf8Start rest | _ => utf8Run (mkUtf8 n (v * 64 + (b - 0x80)) 0x80 0xBF) rest end.
Proof.
  intros H1 H2. cbn [utf8Run]. unfold utf8Step. cbn [needed lower upper bits]. apply N.ltb_ge in H1 as ->, H2 as ->. cbn [orb]. by destruct n.
Qed.

Lemma lead2 d : 2 <= d -> d < 32 -> leadByte (0xC0 + d) = ([], mkUtf8 1 d 0x80 0xBF).
Proof. intros. unfold leadByte. compare_n. do 2 f_equal. lia. Qed.
Lemma lead3 d : d < 16 -> leadByte (0xE0 + d) = ([], mkUtf8 2 d (if d =? 0 then 0xA0 else 0x80) (if d =? 13 then 0x9F else 0xBF)).
Proof. intros. unfold leadByte. compare_n; do 2 f_equal; lia. Qed.
Lemma lead4 d : d < 5 -> leadByte (0xF0 + d) = ([], mkUtf8 3 d (if d =? 0 then 0x90 else 0x80) (if d =? 4 then 0x8F else 0xBF)).
Proof. intros. unfold leadByte. compare_n; do 2 f_equal; lia. Qed.

Lemma utf8_point cp rest : scalar cp = true -> utf8Run utf8Start (utf8Of cp ++ rest) = cp :: utf8Run utf8Start rest.
Proof.
  intros H%scalar_range. unfold utf8Of.
  destruct (N.ltb_spec cp 0x80); [|destruct (N.ltb_spec cp 0x800); [|destruct (N.ltb_spec cp 0x10000)]]; cbn [app]; rewrite lead_step.
  - unfold leadByte. by compare_n.
  - rewrite lead2 by lia. cbn [fst snd app]. rewrite cont_step by lia. f_equal. lia.
  - rewrite lead3 by lia. cbn [fst snd app]. rewrite cont_step by (compare_n; lia). rewrite cont_step by lia. f_equal. lia.
  - rewrite lead4 by lia. cbn [fst snd app]. rewrite cont_step by (compare_n; lia). rewrite cont_step, cont_step by lia. f_equal. lia.
Qed.

Lemma decode_encode cps : Forall (fun cp => scalar cp = true) cps -> utf8Run utf8Start (encodeUtf8 cps) = cps.
Proof.
  unfold encodeUtf8. induction 1 as [|cp cps Hc _ IH]; [done|]. cbn [map concat]. by rewrite utf8_point, IH.
Qed.

Lemma encode_bytes cps : Forall (fun cp => scalar cp = true) cps -> Forall (fun b => b < 256) (encodeUtf8 cps).
Proof. unfold encodeUtf8. induction 1 as [|cp cps Hc _ IH]; [constructor|]. cbn. apply Forall_app. split; [by apply utf8_bytes|done]. Qed.

(** A text without a byte order mark at its start is read back from the base64
    text of its UTF-8 bytes. *)
Lemma decode_encoded cps : Forall (fun cp => scalar cp = true) cps -> head cps <> Some 0xFEFF ->
  decodeUtf8 <$> atob (b64Encode (encodeUtf8 cps)) = Some (concat (map utf16 cps)).
Proof.
  intros H Hb. rewrite atob_encode by (by apply encode_bytes). cbn. f_equal. unfold decodeUtf8. rewrite decode_encode by done. cbv zeta.
  destruct cps as [|c cps]; [done|]. cbn in Hb. destruct (N.eqb_spec c 0xFEFF); [congruence|done].
Qed.

(** Malformed bytes: a stray continuation, a cut sequence, an overlong form, a
    surrogate; then blanks, missing padding and a mark that is dropped. *)
Example decoder_samples :
  map (utf8Run utf8Start) [[0x80]; [0xE4; 0xBD]; [0xC0; 0xAF]; [0xED; 0xA0; 0x80]; [0xE4; 0x41]]
    = [[0xFFFD]; [0xFFFD]; [0xFFFD; 0xFFFD]; [0xFFFD; 0xFFFD; 0xFFFD]; [0xFFFD; 0x41]] /\
  decodeUtf8 <$> atob (js "5L2g 5aW9") = Some [0x4F60; 0x597D] /\ atob (js "YQ") = Some [97] /\ atob (js "Y") = None /\ atob (js "Y=Q=") = None /\
  decodeUtf8 <$> atob (b64Encode (encodeUtf8 [0xFEFF; 97; 0x1F600])) = Some [97; 0xD83D; 0xDE00].
Proof. vm_compute. repeat split. Qed.
