(* ===== verification/HttpStatusRules.v ===== *)
(** * HTTP status code rules ([lib/http-status-code-rules.ts])

    The console lets an administrator type the status codes that disable or
    retry a channel as text such as [401, 403, 500-599].  This file models the
    parser ([parseHttpStatusCodeRules], [parseToken]) and the interval merge
    ([mergeRanges]), and shows that the merge keeps the set of codes, produces
    the unique canonical interval list, and that the normalised text parses
    back to itself. *)
From S2P Require Import Prelude JsString.
From stdpp Require Import prelude list strings.
From Stdlib Require Import NArith Ascii.

Record StatusCodeRange := { start : Z; end_ : Z }.

#[export] Instance StatusCodeRange_eq_dec : EqDecision StatusCodeRange.
Proof. solve_decision. Defined.

Record ParsedHttpStatusCodeRules := {
  ok : bool;
  ranges : list StatusCodeRange;
  tokens : list jstr;
  normalized : jstr;
  invalidTokens : list jstr
}.

(** U+FF0C, the full-width comma of [replace(/[，]/g, ',')]. *)
Definition FULLWIDTH_COMMA : N := 0xFF0C.

Definition isNumber (s : jstr) : bool := all_digits s.

Definition isValidCode (code : Z) : bool := ((100 <=? code) && (code <=? 599))%Z.

Definition parseToken (token : jstr) : option StatusCodeRange :=
  let cleaned := replace_class is_ws [] (trim token) in
  if negb (truthy_str cleaned) then None
  else if includes (js "-") cleaned then
    match split_on (u "-") cleaned with
    | a :: b :: _ =>
        if negb (isNumber a) || negb (isNumber b) then None
        else
          let s := parse_dec a in
          let e := parse_dec b in
          if negb (isValidCode s) || negb (isValidCode e) || (e <? s)%Z then None
          else Some {| start := s; end_ := e |}
    | _ => None
    end
  else if negb (isNumber cleaned) then None
  else
    let code := parse_dec cleaned in
    if negb (isValidCode code) then None
    else Some {| start := code; end_ := code |}.

(** The comparator of [mergeRanges]. *)
Definition rangeCmp (a b : StatusCodeRange) : Z :=
  if (start a =? start b)%Z then (end_ a - end_ b)%Z else (start a - start b)%Z.

(** One round of the [reduce]: push a copy, or extend the last range. *)
Definition mergeStep (merged : list StatusCodeRange) (current : StatusCodeRange)
  : list StatusCodeRange :=
  match last merged with
  | None => merged ++ [current]
  | Some l =>
      if (end_ l + 1 <? start current)%Z then merged ++ [current]
      else removelast merged ++ [{| start := start l; end_ := Z.max (end_ l) (end_ current) |}]
  end.

Definition mergeRanges (rs : list StatusCodeRange) : list StatusCodeRange :=
  match rs with
  | [] => []
  | _ => fold_left mergeStep (sort_by rangeCmp rs) []
  end.

Definition printRange (r : StatusCodeRange) : jstr :=
  if (start r =? end_ r)%Z then print_int (start r)
  else print_int (start r) ++ u "-" :: print_int (end_ r).

(** The loop over the segments: parsed ranges and rejected tokens, in order. *)
Fixpoint parseSegments (segments : list jstr) : list StatusCodeRange * list jstr :=
  match segments with
  | [] => ([], [])
  | s :: rest =>
      let '(rs, bad) := parseSegments rest in
      match parseToken s with
      | None => (rs, s :: bad)
      | Some r => (r :: rs, bad)
      end
  end.

Definition segmentsOf (raw : jstr) : list jstr :=
  trim_nonempty (split_on (u ",") (replace_class (N.eqb FULLWIDTH_COMMA) (js ",") raw)).

Definition parseHttpStatusCodeRules (input : option jstr) : ParsedHttpStatusCodeRules :=
  let raw := trim (default [] input) in
  if negb (truthy_str raw) then
    {| ok := true; ranges := []; tokens := []; normalized := []; invalidTokens := [] |}
  else
    let '(rs, bad) := parseSegments (segmentsOf raw) in
    match bad with
    | _ :: _ => {| ok := false; ranges := []; tokens := []; normalized := raw; invalidTokens := bad |}
    | [] =>
        let merged := mergeRanges rs in
        let toks := map printRange merged in
        {| ok := true; ranges := merged; tokens := toks; normalized := js_join (js ",") toks;
           invalidTokens := [] |}
    end.

(** ** Specification: the set of codes a list of ranges selects *)

Definition covers (rs : list StatusCodeRange) (c : Z) : Prop :=
  exists r, In r rs /\ (start r <= c <= end_ r)%Z.

Definition wfRange (r : StatusCodeRange) : Prop := (100 <= start r <= end_ r /\ end_ r <= 599)%Z.

(** Canonical interval lists: increasing, disjoint and not even adjacent. *)
Fixpoint canonical (rs : list StatusCodeRange) : Prop :=
  match rs with
  | [] => True
  | r :: rest =>
      (start r <= end_ r)%Z /\
      match rest with [] => True | r' :: _ => (end_ r + 1 < start r')%Z end /\
      canonical rest
  end.

(** ** Helper lemmas *)

(** The [reduce] read from the front: [l] is the range being grown. *)
Fixpoint mergeFrom (l : StatusCodeRange) (rs : list StatusCodeRange) : list StatusCodeRange :=
  match rs with
  | [] => [l]
  | r :: rest =>
      if (end_ l + 1 <? start r)%Z then l :: mergeFrom r rest
      else mergeFrom {| start := start l; end_ := Z.max (end_ l) (end_ r) |} rest
  end.

Lemma fold_mergeStep pre l rs :
  fold_left mergeStep rs (pre ++ [l]) = pre ++ mergeFrom l rs.
Proof.
  revert pre l. induction rs as [|r rs IH]; intros pre l; simpl; [done|].
  unfold mergeStep at 2. rewrite last_snoc. case_if.
  - rewrite IH. by rewrite <- app_assoc.
  - rewrite removelast_last. apply IH.
Qed.

Lemma mergeRanges_from rs :
  mergeRanges rs = match sort_by rangeCmp rs with [] => [] | r :: rest => mergeFrom r rest end.
Proof.
  destruct rs as [|r0 rs]; [done|]. unfold mergeRanges.
  destruct (sort_by rangeCmp (r0 :: rs)) as [|r rest]; [done|].
  simpl. unfold mergeStep at 2. simpl. by apply (fold_mergeStep []).
Qed.

#[export] Instance rangeCmp_consistent : ConsistentComparator rangeCmp.
Proof.
  split; unfold rangeCmp; intros;
    repeat match goal with
    | H : context [if ?b then _ else _] |- _ => destruct b eqn:?
    | |- context [if ?b then _ else _] => destruct b eqn:?
    end; bool_hyps; lia.
Qed.

Lemma covers_cons r rs c :
  covers (r :: rs) c <-> (start r <= c <= end_ r)%Z \/ covers rs c.
Proof. unfold covers. simpl. naive_solver. Qed.

Lemma covers_nil c : ~ covers [] c.
Proof. by intros (? & [] & _). Qed.

Lemma covers_perm rs rs' c : Permutation rs rs' -> covers rs c <-> covers rs' c.
Proof.
  intros P. unfold covers. split; intros (r & Hin & Hc); exists r; split; try done;
    (eapply Permutation_in; [|done]); [done|by symmetry].
Qed.

(** Ordered by start only, which is what the merge relies on. *)
Definition startLe (a b : StatusCodeRange) : Prop := (start a <= start b)%Z.

Lemma sort_by_startLe rs : StronglySorted startLe (sort_by rangeCmp rs).
Proof.
  assert (H := sort_by_sorted rangeCmp rs).
  induction H as [|r l _ IH HF]; constructor; [done|].
  eapply Forall_impl; [done|]. intros r' Hr. unfold cmp_le, rangeCmp in Hr.
  unfold startLe. destruct (_ =? _)%Z eqn:E in Hr; bool_hyps; lia.
Qed.

Definition nonemptyRange (r : StatusCodeRange) : Prop := (start r <= end_ r)%Z.

(** Growing a range keeps the hypotheses of the merge. *)
Lemma startLe_grow l r rs e :
  StronglySorted startLe (l :: r :: rs) ->
  StronglySorted startLe ({| start := start l; end_ := e |} :: rs).
Proof.
  intros H. inv H as [|? ? Hs HF]. inv Hs. inv HF. constructor; [done|].
  eapply Forall_impl; [done|]. done.
Qed.

Lemma mergeFrom_covers l rs c :
  StronglySorted startLe (l :: rs) -> Forall nonemptyRange (l :: rs) ->
  covers (mergeFrom l rs) c <-> covers (l :: rs) c.
Proof.
  revert l. induction rs as [|r rs IH]; intros l Hs Hwf; simpl; [done|].
  inv Hwf as [|? ? Hl Hwf']. inv Hwf' as [|? ? Hr Hwf''].
  unfold nonemptyRange in *. case_if; bool_hyps.
  - rewrite covers_cons, IH, !covers_cons; [done| |by constructor].
    by inv Hs.
  - rewrite IH, !covers_cons; simpl.
    + assert (start l <= start r)%Z by (inv Hs as [|? ? _ HF]; by inv HF).
      assert ((start l <= c <= Z.max (end_ l) (end_ r) <->
               start l <= c <= end_ l \/ start r <= c <= end_ r)%Z) by lia.
      tauto.
    + by eapply startLe_grow.
    + constructor; [simpl; lia|done].
Qed.

Lemma mergeFrom_head l rs : exists e rest,
  mergeFrom l rs = {| start := start l; end_ := e |} :: rest /\ (end_ l <= e)%Z.
Proof.
  revert l. induction rs as [|r rs IH]; intros l; simpl.
  - exists (end_ l), []. by destruct l.
  - case_if.
    + exists (end_ l), (mergeFrom r rs). by destruct l.
    + destruct (IH {| start := start l; end_ := Z.max (end_ l) (end_ r) |})
        as (e & rest & -> & He). simpl in *. exists e, rest. split; [done|lia].
Qed.

Lemma mergeFrom_canonical l rs :
  Forall nonemptyRange (l :: rs) -> canonical (mergeFrom l rs).
Proof.
  revert l. induction rs as [|r rs IH]; intros l Hwf; simpl;
    inv Hwf as [|? ? Hl Hwf']; unfold nonemptyRange in *; [done|].
  inv Hwf' as [|? ? Hr Hwf'']. case_if; bool_hyps.
  - simpl. split_and!; [done| |apply IH; by constructor].
    destruct (mergeFrom_head r rs) as (e & rest & -> & _). simpl. lia.
  - apply IH. constructor; [simpl; lia|done].
Qed.

Lemma mergeRanges_perm_hyps rs r rest :
  sort_by rangeCmp rs = r :: rest -> Forall nonemptyRange rs ->
  StronglySorted startLe (r :: rest) /\ Forall nonemptyRange (r :: rest).
Proof.
  intros E H. rewrite <- E. split; [apply sort_by_startLe|]. by rewrite sort_by_perm.
Qed.

Lemma mergeRanges_covers_aux rs c :
  Forall nonemptyRange rs -> covers (mergeRanges rs) c <-> covers rs c.
Proof.
  intros H. rewrite mergeRanges_from, <- (covers_perm _ _ c (sort_by_perm rangeCmp rs)).
  destruct (sort_by rangeCmp rs) as [|r rest] eqn:E; [done|].
  apply mergeRanges_perm_hyps in E as [? ?]; [|done]. by apply mergeFrom_covers.
Qed.

Lemma mergeRanges_canonical_aux rs :
  Forall nonemptyRange rs -> canonical (mergeRanges rs).
Proof.
  intros H. rewrite mergeRanges_from.
  destruct (sort_by rangeCmp rs) as [|r rest] eqn:E; [done|].
  apply mergeRanges_perm_hyps in E as [? ?]; [|done]. by apply mergeFrom_canonical.
Qed.

(** *** Canonical lists are determined by the codes they cover *)

Lemma canonical_bounds r rs c :
  canonical (r :: rs) -> covers rs c -> (end_ r + 1 < c)%Z.
Proof.
  revert r. induction rs as [|r' rs IH]; intros r Hc Hcov; [by apply covers_nil in Hcov|].
  destruct Hc as (Hr & Hrr' & Hc). apply covers_cons in Hcov as [?|Hcov]; [lia|].
  specialize (IH r' Hc Hcov). destruct Hc as (? & _). lia.
Qed.

Lemma canonical_head_le r rs r' rs' :
  canonical (r :: rs) -> canonical (r' :: rs') ->
  (forall c, covers (r :: rs) c <-> covers (r' :: rs') c) ->
  (start r' <= start r)%Z.
Proof.
  intros Hc Hc' Heq. pose proof Hc as (Hr & _ & _). pose proof Hc' as (Hr' & _ & _).
  assert (H : covers (r :: rs) (start r)) by (apply covers_cons; lia).
  apply Heq, covers_cons in H as [?|H]; [lia|].
  apply (canonical_bounds _ _ _ Hc') in H. lia.
Qed.

Lemma canonical_head_end r rs r' rs' :
  canonical (r :: rs) -> canonical (r' :: rs') -> start r = start r' ->
  (forall c, covers (r :: rs) c <-> covers (r' :: rs') c) ->
  (end_ r <= end_ r')%Z.
Proof.
  intros Hc Hc' Hst Heq. pose proof Hc as (Hr & _ & _). pose proof Hc' as (Hr' & _ & _).
  destruct (Z.le_gt_cases (end_ r) (end_ r')) as [|Hgt]; [done|].
  assert (H : covers (r :: rs) (end_ r' + 1)) by (apply covers_cons; lia).
  apply Heq, covers_cons in H as [?|H]; [lia|].
  apply (canonical_bounds _ _ _ Hc') in H. lia.
Qed.

Lemma canonical_unique rs rs' :
  canonical rs -> canonical rs' -> (forall c, covers rs c <-> covers rs' c) -> rs = rs'.
Proof.
  revert rs'. induction rs as [|r rs IH]; intros [|r' rs'] Hc Hc' Heq; [done| | |].
  - exfalso. apply (covers_nil (start r')), Heq, covers_cons. destruct Hc' as (? & _). lia.
  - exfalso. apply (covers_nil (start r)), Heq, covers_cons. destruct Hc as (? & _). lia.
  - assert (Heq' : forall c, covers (r' :: rs') c <-> covers (r :: rs) c) by (by intros c).
    assert (Hs : start r = start r').
    { apply Z.le_antisymm; by eapply canonical_head_le. }
    assert (He : end_ r = end_ r').
    { apply Z.le_antisymm; eapply canonical_head_end; done || (by symmetry). }
    assert (r = r') as <- by (destruct r, r'; simpl in *; congruence).
    f_equal. pose proof Hc as (Hr & _ & Hc1). pose proof Hc' as (_ & _ & Hc1').
    apply IH; [done|done|]. intros c. specialize (Heq c). rewrite !covers_cons in Heq.
    split; intros H.
    + pose proof (canonical_bounds _ _ _ Hc H). destruct Heq as [[?|?] _]; [by right|lia|done].
    + pose proof (canonical_bounds _ _ _ Hc' H). destruct Heq as [_ [?|?]]; [by right|lia|done].
Qed.

(** *** Tokens *)

Lemma isValidCode_spec c : isValidCode c = true <-> (100 <= c <= 599)%Z.
Proof. unfold isValidCode. rewrite andb_true_iff, !Z.leb_le. done. Qed.

Lemma parseToken_wf t r : parseToken t = Some r -> wfRange r.
Proof.
  unfold parseToken, wfRange. intros H.
  repeat match goal with
  | H : (if ?b then _ else _) = Some _ |- _ => destruct b eqn:?; try discriminate
  | H : match ?l with _ => _ end = Some _ |- _ => destruct l; try discriminate
  end; simplify_eq/=; bool_hyps; rewrite isValidCode_spec in *; lia.
Qed.

Lemma parseSegments_wf segs :
  Forall wfRange (fst (parseSegments segs)).
Proof.
  induction segs as [|s segs IH]; simpl; [constructor|].
  destruct (parseSegments segs) as [rs bad]. simpl in IH.
  destruct (parseToken s) eqn:E; simpl; [|done]. constructor; [by eapply parseToken_wf|done].
Qed.

Lemma parseSegments_bad segs :
  snd (parseSegments segs) = List.filter (fun s => match parseToken s with None => true | _ => false end) segs.
Proof.
  induction segs as [|s segs IH]; simpl; [done|].
  destruct (parseSegments segs) as [rs bad]. simpl in IH.
  by destruct (parseToken s); simpl; rewrite IH.
Qed.

Lemma parseSegments_covers segs c :
  covers (fst (parseSegments segs)) c <->
  exists s r, In s segs /\ parseToken s = Some r /\ (start r <= c <= end_ r)%Z.
Proof.
  induction segs as [|s segs IH]; simpl.
  - split; [by intros ?%covers_nil|by intros (? & ? & [] & _)].
  - destruct (parseSegments segs) as [rs bad]. simpl in IH.
    destruct (parseToken s) as [r|] eqn:E; simpl; rewrite ?covers_cons, IH; naive_solver.
Qed.

Lemma wfRange_nonempty rs : Forall wfRange rs -> Forall nonemptyRange rs.
Proof. intros H. eapply Forall_impl; [done|]. unfold wfRange, nonemptyRange. lia. Qed.

Lemma covers_between rs c : Forall wfRange rs -> covers rs c -> (100 <= c <= 599)%Z.
Proof. intros H (r & Hr & Hc). rewrite List.Forall_forall in H. specialize (H r Hr). unfold wfRange in H. lia. Qed.

(** Every range of a canonical list is inside the codes it covers. *)
Lemma canonical_wf rs :
  canonical rs -> (forall c, covers rs c -> (100 <= c <= 599)%Z) -> Forall wfRange rs.
Proof.
  induction rs as [|r rs IH]; [constructor|]. intros (Hr & _ & Hc) Hb; constructor.
  - pose proof (Hb (start r) ltac:(apply covers_cons; lia)).
    pose proof (Hb (end_ r) ltac:(apply covers_cons; lia)). unfold wfRange. lia.
  - apply IH; [done|]. intros c ?. apply Hb, covers_cons. by right.
Qed.

Lemma mergeRanges_wf_aux rs : Forall wfRange rs -> Forall wfRange (mergeRanges rs).
Proof.
  intros H. pose proof (wfRange_nonempty _ H) as Hne.
  apply canonical_wf; [by apply mergeRanges_canonical_aux|].
  intros c Hc. rewrite mergeRanges_covers_aux in Hc by done. by eapply covers_between.
Qed.

Lemma mergeRanges_fix rs : canonical rs -> Forall wfRange rs -> mergeRanges rs = rs.
Proof.
  intros Hc Hw%wfRange_nonempty. apply canonical_unique; [by apply mergeRanges_canonical_aux|done|].
  intros c. by apply mergeRanges_covers_aux.
Qed.

(** *** Printing and reading back one range *)

Lemma digit_not_ws c : is_digit c = true -> is_ws c = false.
Proof.
  rewrite is_digit_spec. intros H. unfold is_ws.
  repeat (apply orb_false_iff; split); try (apply andb_false_iff); rewrite ?N.eqb_neq, ?N.leb_gt; lia.
Qed.

Lemma print_int_nonneg z : (0 <= z)%Z -> print_int z = print_nat_dec z.
Proof. intros H. unfold print_int. destruct (z <? 0)%Z eqn:E; bool_hyps; [lia|done]. Qed.

(** The characters of a printed range: digits and hyphens. *)
Definition rangeChar (c : N) : Prop := is_digit c = true \/ c = u "-".

(** The characters of normalised text: the above and the comma. *)
Definition textChar (c : N) : Prop := rangeChar c \/ c = u ",".

Lemma textChar_facts c : textChar c -> is_ws c = false /\ (FULLWIDTH_COMMA =? c)%N = false.
Proof.
  intros [[Hd| ->]| ->]; [|done|done].
  split; [by apply digit_not_ws|]. apply is_digit_spec in Hd.
  apply N.eqb_neq. intros <-. unfold FULLWIDTH_COMMA in Hd. lia.
Qed.

Lemma textChar_clean s :
  Forall textChar s ->
  trim s = s /\ replace_class is_ws [] s = s /\
  replace_class (N.eqb FULLWIDTH_COMMA) (js ",") s = s.
Proof.
  intros H.
  assert (Hw : Forall (fun c => is_ws c = false) s)
    by (eapply Forall_impl; [exact H|]; intros c Hc; exact (proj1 (textChar_facts c Hc))).
  split_and!.
  - by apply trimmed_trim, trimmed_digits.
  - by apply replace_class_id.
  - apply replace_class_id. eapply Forall_impl; [exact H|]. intros c Hc.
    apply (proj2 (textChar_facts c Hc)).
Qed.

Lemma rangeChar_textChar s : Forall rangeChar s -> Forall textChar s.
Proof. intros H. eapply Forall_impl; [done|]. by left. Qed.

Lemma rangeChar_no_comma s : Forall rangeChar s -> ~ In (u ",") s.
Proof.
  intros H Hin. rewrite List.Forall_forall in H. specialize (H _ Hin) as [H|H]; done.
Qed.

Lemma print_int_digits z :
  (0 <= z)%Z -> all_digits (print_int z) = true /\ parse_dec (print_int z) = z.
Proof.
  intros H. rewrite print_int_nonneg by done.
  split; [by apply print_nat_dec_all_digits|by apply print_nat_dec_parse].
Qed.

Lemma all_digits_rangeChar s : all_digits s = true -> Forall rangeChar s.
Proof. intros H%all_digits_Forall. eapply Forall_impl; [done|]. by left. Qed.

Lemma printRange_chars r : wfRange r -> Forall rangeChar (printRange r).
Proof.
  intros (Hs & He). unfold printRange.
  destruct (print_int_digits (start r) ltac:(lia)) as [Ds%all_digits_rangeChar _].
  destruct (print_int_digits (end_ r) ltac:(lia)) as [De%all_digits_rangeChar _].
  case_if; [done|]. apply Forall_app; split; [done|]. constructor; [by right|done].
Qed.

Lemma all_digits_no_dash s : all_digits s = true -> ~ In (u "-") s.
Proof.
  intros H%all_digits_Forall Hin. rewrite List.Forall_forall in H.
  specialize (H _ Hin). by vm_compute in H.
Qed.

Lemma all_digits_truthy s : all_digits s = true -> truthy_str s = true.
Proof. by destruct s. Qed.

Lemma parseToken_printRange r : wfRange r -> parseToken (printRange r) = Some r.
Proof.
  intros (Hs & He). assert (Hs0 : (0 <= start r)%Z) by lia. assert (He0 : (0 <= end_ r)%Z) by lia.
  destruct (textChar_clean (printRange r)) as (Ht & Hr & _);
    [by apply rangeChar_textChar, printRange_chars|].
  unfold parseToken. rewrite Ht, Hr. clear Ht Hr. unfold printRange.
  destruct (print_int_digits _ Hs0) as [Ds Ps]. destruct (print_int_digits _ He0) as [De Pe].
  destruct (start r =? end_ r)%Z eqn:E; bool_hyps.
  - rewrite all_digits_truthy by done. simpl negb.
    replace (includes (js "-") (print_int (start r))) with false.
    2: { symmetry. apply not_true_iff_false. change (js "-") with [u "-"].
         rewrite includes_char. by apply all_digits_no_dash. }
    unfold isNumber. rewrite Ds, Ps. simpl.
    rewrite (proj2 (isValidCode_spec (start r))) by lia. simpl. destruct r; simpl in *. congruence.
  - replace (truthy_str _) with true by (by destruct (print_int (start r))).
    simpl negb. replace (includes _ _) with true.
    2: { symmetry. change (js "-") with [u "-"]. apply includes_char, in_app_iff. right. by left. }
    rewrite split_on_app, split_on_no_sep by (by apply all_digits_no_dash).
    unfold isNumber. rewrite Ds, De, Ps, Pe. simpl.
    rewrite !(proj2 (isValidCode_spec _)) by lia. simpl.
    destruct (end_ r <? start r)%Z eqn:E'; bool_hyps; [lia|]. by destruct r.
Qed.

Lemma parseSegments_print rs :
  Forall wfRange rs -> parseSegments (map printRange rs) = (rs, []).
Proof.
  induction 1 as [|r rs Hr _ IH]; simpl; [done|].
  by rewrite IH, parseToken_printRange.
Qed.

Lemma printRange_nonempty r : wfRange r -> printRange r <> [].
Proof.
  intros (Hs & He). unfold printRange.
  destruct (print_int_digits (start r) ltac:(lia)) as [Ds _].
  case_if; [|by destruct (print_int (start r))]. by apply truthy_str_spec, all_digits_truthy.
Qed.

(** The normalised text splits back into the printed tokens. *)
Lemma segmentsOf_print r rs :
  Forall wfRange (r :: rs) ->
  let text := js_join (js ",") (map printRange (r :: rs)) in
  trim text = text /\ truthy_str text = true /\ segmentsOf text = map printRange (r :: rs).
Proof.
  intros Hwf text.
  assert (Hrc : Forall (Forall rangeChar) (map printRange (r :: rs))).
  { apply Forall_map. eapply Forall_impl; [done|]. intros ? ?. by apply printRange_chars. }
  destruct (textChar_clean text) as (Ht & _ & Hc).
  { apply js_join_Forall; [repeat constructor; by right|].
    eapply Forall_impl; [done|]. apply rangeChar_textChar. }
  split_and!; [done| |].
  - apply js_join_truthy, printRange_nonempty. by inv Hwf.
  - unfold segmentsOf. rewrite Hc. unfold text. change (js ",") with [u ","].
    rewrite split_on_join; [|done|]; [apply trim_nonempty_id|].
    + apply Forall_map. eapply Forall_impl; [done|]. intros x Hx.
      split; [by apply printRange_nonempty|]. apply trim_trimmed_iff.
      by apply textChar_clean, rangeChar_textChar, printRange_chars.
    + eapply Forall_impl; [done|]. apply rangeChar_no_comma.
Qed.

(** ** Theorems *)

(** A token of the rule text selects a code. *)
Definition tokenSelects (s : jstr) (c : Z) : Prop :=
  exists r, parseToken s = Some r /\ (start r <= c <= end_ r)%Z.

Definition invalidToken (s : jstr) : bool :=
  match parseToken s with None => true | Some _ => false end.

(** Merging is a canonical form: two lists of ranges select the same status
    codes exactly when they merge to the same list. *)
Theorem mergeRanges_unique_canonical rs rs' :
  Forall nonemptyRange rs -> Forall nonemptyRange rs' ->
  (forall c, covers rs c <-> covers rs' c) <-> mergeRanges rs = mergeRanges rs'.
Proof.
  intros H H'. split.
  - intros Heq. apply canonical_unique; try by apply mergeRanges_canonical_aux.
    intros c. by rewrite !mergeRanges_covers_aux.
  - intros E c. by rewrite <- mergeRanges_covers_aux, E, mergeRanges_covers_aux.
Qed.

Definition splitRanges : list StatusCodeRange :=
  [{| start := 500; end_ := 503 |}; {| start := 504; end_ := 599 |}; {| start := 400; end_ := 400 |}]%Z.
Definition joinedRanges : list StatusCodeRange :=
  [{| start := 400; end_ := 400 |}; {| start := 500; end_ := 599 |}]%Z.

Lemma mergeRanges_unique_canonical_witness :
  mergeRanges splitRanges = mergeRanges joinedRanges /\
  ((forall c, covers splitRanges c <-> covers joinedRanges c) <->
   mergeRanges splitRanges = mergeRanges joinedRanges).
Proof.
  split; [vm_compute; reflexivity|].
  apply (mergeRanges_unique_canonical _ _); repeat constructor; unfold nonemptyRange; simpl; lia.
Defined.

(** When the text is accepted, the parsed ranges are canonical and inside
    100..599, and they select exactly the codes its tokens select. *)
Theorem parse_selects_codes input :
  let p := parseHttpStatusCodeRules input in
  let segs := segmentsOf (trim (default [] input)) in
  ok p = true ->
  canonical (ranges p) /\ Forall wfRange (ranges p) /\ invalidTokens p = [] /\
  forall c, covers (ranges p) c <-> exists s, In s segs /\ tokenSelects s c.
Proof.
  simpl. unfold parseHttpStatusCodeRules.
  destruct (truthy_str (trim (default [] input))) eqn:Et; simpl.
  2: { intros _. apply truthy_str_false in Et. rewrite Et.
       split_and!; [done|constructor|done|]. intros c.
       split; [by intros ?%covers_nil|]. intros (s & [] & _). }
  pose proof (parseSegments_wf (segmentsOf (trim (default [] input)))) as Hwf.
  pose proof (parseSegments_covers (segmentsOf (trim (default [] input)))) as Hcov.
  destruct (parseSegments _) as [rs bad]. simpl in *.
  destruct bad; simpl; [|done]. intros _.
  pose proof (wfRange_nonempty _ Hwf).
  split_and!; [by apply mergeRanges_canonical_aux|by apply mergeRanges_wf_aux|done|].
  intros c. rewrite mergeRanges_covers_aux, Hcov by done. unfold tokenSelects. naive_solver.
Qed.

Definition sampleInput : option jstr := Some (js " 500-599, 401 ,403,402").

Lemma parse_selects_codes_witness :
  ok (parseHttpStatusCodeRules sampleInput) = true /\
  canonical (ranges (parseHttpStatusCodeRules sampleInput)).
Proof.
  split; [vm_compute; reflexivity|].
  exact (proj1 (parse_selects_codes sampleInput ltac:(vm_compute; reflexivity))).
Defined.

(** The error branch: the reported invalid tokens are exactly the segments
    that are not rules, in order; the parse fails exactly when there is one,
    and then returns no range and the trimmed text. *)
Theorem parse_error_reports_every_bad_token input :
  let p := parseHttpStatusCodeRules input in
  let segs := segmentsOf (trim (default [] input)) in
  invalidTokens p = List.filter invalidToken segs /\
  (ok p = false <-> exists s, In s segs /\ parseToken s = None) /\
  (ok p = false -> ranges p = [] /\ tokens p = [] /\ normalized p = trim (default [] input)).
Proof.
  simpl. unfold parseHttpStatusCodeRules.
  destruct (truthy_str (trim (default [] input))) eqn:Et; simpl.
  2: { apply truthy_str_false in Et. rewrite Et. split_and!; [done| |done].
       split; [done|]. intros (s & [] & _). }
  pose proof (parseSegments_bad (segmentsOf (trim (default [] input)))) as Hbad.
  fold invalidToken in Hbad.
  destruct (parseSegments _) as [rs bad]. simpl in Hbad. rewrite <- Hbad.
  assert (Hiff : bad <> [] <-> exists s, In s (segmentsOf (trim (default [] input))) /\ parseToken s = None).
  { rewrite Hbad. split.
    - destruct (List.filter _ _) as [|s l] eqn:E; [done|]. intros _. exists s.
      assert (Hin : In s (s :: l)) by (by left). rewrite <- E in Hin.
      apply filter_In in Hin as [? Hs]. unfold invalidToken in Hs.
      by destruct (parseToken s).
    - intros (s & Hin & Hs) E.
      assert (Hf : In s (List.filter invalidToken (segmentsOf (trim (default [] input))))).
      { apply filter_In. split; [done|]. unfold invalidToken. by rewrite Hs. }
      by rewrite E in Hf. }
  destruct bad; simpl; (split_and!; [done| |done]); rewrite <- Hiff; done.
Qed.

Lemma parse_error_reports_every_bad_token_witness :
  let p := parseHttpStatusCodeRules (Some (js "500,6xx,99")) in
  ok p = false /\ ranges p = [] /\ invalidTokens p = [js "6xx"; js "99"].
Proof.
  destruct (parse_error_reports_every_bad_token (Some (js "500,6xx,99"))) as (_ & _ & H).
  split; [vm_compute; reflexivity|]. split; [apply H; vm_compute; reflexivity|vm_compute; reflexivity].
Defined.

(** The normalised text is a fixed point: parsing it again gives the same
    ranges, tokens and text. *)
Theorem normalize_round_trip input :
  let p := parseHttpStatusCodeRules input in
  ok p = true -> parseHttpStatusCodeRules (Some (normalized p)) = p.
Proof.
  simpl. intros Hok.
  destruct (parse_selects_codes input Hok) as (Hc & Hwf & _).
  revert Hok Hc Hwf. unfold parseHttpStatusCodeRules at 1 2 3 5 6.
  destruct (negb _); [done|].
  destruct (parseSegments _) as [rs bad].
  destruct bad; cbn [ok ranges normalized]; [|done]. intros _ Hc Hwf.
  destruct (mergeRanges rs) as [|r ms] eqn:Em; [done|].
  destruct (segmentsOf_print r ms Hwf) as (Ht & Htr & Hseg).
  unfold parseHttpStatusCodeRules. cbn [default from_option id]. rewrite Ht, Htr, Hseg.
  rewrite parseSegments_print by done. simpl negb. cbn iota.
  by rewrite mergeRanges_fix.
Qed.

Lemma normalize_round_trip_witness :
  normalized (parseHttpStatusCodeRules sampleInput) = js "401-403,500-599" /\
  parseHttpStatusCodeRules (Some (normalized (parseHttpStatusCodeRules sampleInput)))
  = parseHttpStatusCodeRules sampleInput.
Proof.
  split; [vm_compute; reflexivity|]. apply normalize_round_trip. vm_compute; reflexivity.
Defined.

(** The token parser reads only the first two hyphen-separated numbers. *)
Example third_number_ignored :
  parseToken (js "200-299-404") = Some {| start := 200; end_ := 299 |}%Z.
Proof. vm_compute. reflexivity. Qed.
