(* ===== verification/RequestRules.v ===== *)
(** * Request rules of billing expressions
      ([features/pricing/lib/billing-expr.ts], lines 166-779)

    A billing expression is a base expression times conditional multipliers,
    [(base) * (cond && cond ? 1.5 : 1) * ...].  This file models the request
    rule part: the data ([RequestCondition], [RequestRuleGroup]), the parser
    ([tryParseRequestRuleExpr] and what it calls, with its regular expressions
    written out), the builder ([buildRequestRuleExpr]), and the functions that
    split a whole expression and put it together again.  [JSON.parse] throws on
    a malformed literal and two of its calls are not guarded, so the parser's
    result is [Throw] or a value. *)
From S2P Require Import Prelude JsString JsRegex JsNumber JsValue.
From stdpp Require Import prelude list strings.
From Stdlib Require Import NArith Ascii.

(** ** Constants and data *)
Definition SOURCE_PARAM := js "param".
Definition SOURCE_HEADER := js "header".
Definition SOURCE_TIME := js "time".
Definition MATCH_EQ := js "eq".
Definition MATCH_CONTAINS := js "contains".
Definition MATCH_GT := js "gt".
Definition MATCH_GTE := js "gte".
Definition MATCH_LT := js "lt".
Definition MATCH_LTE := js "lte".
Definition MATCH_EXISTS := js "exists".
Definition MATCH_RANGE := js "range".

Inductive TimeFunc := hour | minute | weekday | month | day.

Definition timeFuncName (f : TimeFunc) : jstr :=
  match f with
  | hour => js "hour" | minute => js "minute" | weekday => js "weekday"
  | month => js "month" | day => js "day"
  end.

Definition TIME_FUNCS : list TimeFunc := [hour; minute; weekday; month; day].

Inductive phSource := SrcParam | SrcHeader.

Definition phSourceName (s : phSource) : jstr :=
  match s with SrcParam => SOURCE_PARAM | SrcHeader => SOURCE_HEADER end.

Record ParamHeaderCondition := {
  ph_source : phSource; ph_path : jstr; ph_mode : jstr; ph_value : jstr }.

Record TimeCondition := {
  timeFunc : TimeFunc; timezone : jstr; t_mode : jstr; t_value : jstr;
  rangeStart : jstr; rangeEnd : jstr }.

Inductive RequestCondition :=
| CTime (t : TimeCondition)
| CParamHeader (c : ParamHeaderCondition).

Record RequestRuleGroup := { conditions : list RequestCondition; multiplier : jstr }.

#[export] Instance TimeFunc_eq_dec : EqDecision TimeFunc.
Proof. solve_decision. Defined.
#[export] Instance phSource_eq_dec : EqDecision phSource.
Proof. solve_decision. Defined.
#[export] Instance ParamHeaderCondition_eq_dec : EqDecision ParamHeaderCondition.
Proof. solve_decision. Defined.
#[export] Instance TimeCondition_eq_dec : EqDecision TimeCondition.
Proof. solve_decision. Defined.
#[export] Instance RequestCondition_eq_dec : EqDecision RequestCondition.
Proof. solve_decision. Defined.

(** ** Regular expressions *)

(** A literal in which an apostrophe stands for the double quote. *)
Definition RLitQ (s : string) : regex :=
  foldr (fun x r => RSeq (RChar (N.eqb x)) r) REps (jsq s).

(** [\d.eE+-] *)
Definition numChar (c : N) : bool := is_digit c || RAny ".eE+-" c.
(** [^] of the double quote *)
Definition notQuote (c : N) : bool := negb (c =? 34)%N.
(** neither the double quote nor the backslash *)
Definition notQuoteBackslash (c : N) : bool := negb (c =? 34)%N && negb (c =? 92)%N.

Definition NUMERIC_LITERAL_REGEX : regex :=
  rseq [ROpt (RLit "-");
        RAlt (rseq [RPlus (RChar is_digit); ROpt (RLit "."); RStar (RChar is_digit)])
             (rseq [RLit "."; RPlus (RChar is_digit)]);
        ROpt (rseq [RChar is_e; ROpt (RChar (RAny "+-")); RPlus (RChar is_digit)]);
        REol].

Definition isNumericLiteral (s : jstr) : bool := rtest NUMERIC_LITERAL_REGEX s.

Definition timeFuncRegex : regex :=
  ralts (RLit "hour") [RLit "minute"; RLit "weekday"; RLit "month"; RLit "day"].
Definition quotedRun (i : nat) : regex := RGroup i (RPlus (RChar notQuote)).
Definition numRun (i : nat) : regex := RGroup i (RPlus (RChar numChar)).

(** The body shared by the first two expressions of [tryParseTimeCondition]. *)
Definition timeRangeBody (tail : regex) : regex :=
  rseq [RGroup 1 timeFuncRegex; RLitQ "('"; quotedRun 2; RLitQ "') >= "; numRun 3;
        RLit " || "; RBackref 1; RLitQ "('"; RBackref 2; RLitQ "') < "; numRun 4; tail].

Definition timeRange1 : regex := timeRangeBody REol.
Definition timeRange2 : regex := RSeq (RLit "(") (timeRangeBody (RSeq (RLit ")") REol)).
Definition timeCompare : regex :=
  rseq [RGroup 1 timeFuncRegex; RLitQ "('"; quotedRun 2; RLitQ "') ";
        RGroup 3 (ralts (RLit "==") [RLit ">="; RLit "<"]); RLit " "; numRun 4; REol].

Definition headerExists : regex := rseq [RLitQ "header('"; quotedRun 1; RLitQ "') != ''"; REol].
Definition paramExists : regex := rseq [RLitQ "param('"; quotedRun 1; RLitQ "') != nil"; REol].

(** A double-quoted literal with backslash escapes, captured in group [i]. *)
Definition quotedLiteral (i : nat) : regex :=
  RGroup i (rseq [RLitQ "'";
                  RStar (RAlt (RChar notQuoteBackslash) (RSeq (RLit "\") RDot));
                  RLitQ "'"]).
Definition headerContains : regex :=
  rseq [RLitQ "has(header('"; quotedRun 1; RLitQ "'), "; quotedLiteral 2; RLit ")"; REol].
Definition paramContains : regex :=
  rseq [RLitQ "param('"; quotedRun 1; RLitQ "') != nil && has(param('"; quotedRun 2; RLitQ "'), ";
        quotedLiteral 3; RLit ")"; REol].
Definition paramCompare : regex :=
  rseq [RLitQ "param('"; quotedRun 1; RLitQ "') != nil && param('"; quotedRun 2; RLitQ "') ";
        RGroup 3 (ralts (RLit ">") [RLit ">="; RLit "<"; RLit "<="]); RLit " "; numRun 4; REol].
Definition equality : regex :=
  rseq [RGroup 1 (RAlt (RLit "param") (RLit "header")); RLitQ "('"; quotedRun 2; RLitQ "') == ";
        RGroup 3 (RPlus RDot); REol].
(** [/^\((.+) \? ([\d.eE+-]+) : 1\)$/s] *)
Definition ruleFactor : regex :=
  rseq [RLit "("; RGroup 1 (RPlus RDotAll); RLit " ? "; numRun 2; RLit " : 1)"; REol].

(** ** Splitting at the top level of parentheses *)

(** The loop of [splitTopLevelMultiply] and [splitTopLevelAnd]: [cur] is the
    current piece (reversed), [skip] the units of a separator still to jump over. *)
Fixpoint splitLoop (sep : jstr) (skip : nat) (s cur : jstr) (depth : Z) : list jstr :=
  match s with
  | [] => [trim (rev cur)]
  | c :: s' =>
      match skip with
      | S k => splitLoop sep k s' cur depth
      | O =>
          let depth1 := if (c =? u "(")%N then (depth + 1)%Z else depth in
          let depth2 := if (c =? u ")")%N then (depth1 - 1)%Z else depth1 in
          if (depth2 =? 0)%Z && starts_with sep s
          then trim (rev cur) :: splitLoop sep (length sep - 1) s' [] depth2
          else splitLoop sep 0 s' (c :: cur) depth2
      end
  end.

Definition splitTopLevelMultiply (expr : jstr) : list jstr :=
  List.filter truthy_str (splitLoop (js " * ") 0 expr [] 0).

Definition splitTopLevelAnd (expr : jstr) : list jstr :=
  List.filter truthy_str (splitLoop (js " && ") 0 expr [] 0).

(** ** The parser *)

Definition getCap (i : nat) (c : caps) : jstr := default [] (cap i c).

Definition timeFuncOfName (s : jstr) : option TimeFunc :=
  find (fun f => bool_decide (timeFuncName f = s)) TIME_FUNCS.

(** [parseExprLiteral]: the literal's value, [VNull] for [null]. *)
Definition parseExprLiteral (raw : jstr) : jsval :=
  let text := trim raw in
  if bool_decide (text = js "true") || bool_decide (text = js "false") then VStr text
  else if isNumericLiteral text then VStr text
  else default VNull (json_parse text).

(** [opMap[op] || MATCH_EQ] of the time comparison. *)
Definition timeOpMode (op : jstr) : jstr :=
  if bool_decide (op = js "==") then MATCH_EQ
  else if bool_decide (op = js ">=") then MATCH_GTE
  else if bool_decide (op = js "<") then MATCH_LT else MATCH_EQ.

Definition mkTime (c : caps) (mode value s e : jstr) : option RequestCondition :=
  f ← timeFuncOfName (getCap 1 c);
  Some (CTime {| timeFunc := f; timezone := getCap 2 c; t_mode := mode; t_value := value;
                 rangeStart := s; rangeEnd := e |}).

Definition tryParseTimeCondition (expr : jstr) : option RequestCondition :=
  match rmatch timeRange1 expr with
  | Some c => mkTime c MATCH_RANGE [] (getCap 3 c) (getCap 4 c)
  | None =>
      match rmatch timeRange2 expr with
      | Some c => mkTime c MATCH_RANGE [] (getCap 3 c) (getCap 4 c)
      | None =>
          match rmatch timeCompare expr with
          | Some c => mkTime c (timeOpMode (getCap 3 c)) (getCap 4 c) [] []
          | None => None
          end
      end
  end.

Definition mkPH (src : phSource) (path mode value : jstr) : RequestCondition :=
  CParamHeader {| ph_source := src; ph_path := path; ph_mode := mode; ph_value := value |}.

(** [JSON.parse(m[i]) as string], unguarded. *)
Definition jsonString (s : jstr) : outcome jstr :=
  match json_parse s with Some v => Ret (js_String v) | None => Throw end.

Definition paramOpMode (op : jstr) : jstr :=
  if bool_decide (op = js ">") then MATCH_GT
  else if bool_decide (op = js ">=") then MATCH_GTE
  else if bool_decide (op = js "<") then MATCH_LT else MATCH_LTE.

(** The guarded form [m && m[1] === m[2]]. *)
Definition sameGroups (m : option caps) : option caps :=
  c ← m; if bool_decide (getCap 1 c = getCap 2 c) then Some c else None.

Definition tryParseRequestCondition (expr : jstr) : outcome (option RequestCondition) :=
  match tryParseTimeCondition expr with
  | Some tc => Ret (Some tc)
  | None =>
  match rmatch headerExists expr with
  | Some c => Ret (Some (mkPH SrcHeader (getCap 1 c) MATCH_EXISTS []))
  | None =>
  match rmatch paramExists expr with
  | Some c => Ret (Some (mkPH SrcParam (getCap 1 c) MATCH_EXISTS []))
  | None =>
  match rmatch headerContains expr with
  | Some c => v <-- jsonString (getCap 2 c) ;;
              Ret (Some (mkPH SrcHeader (getCap 1 c) MATCH_CONTAINS v))
  | None =>
  match sameGroups (rmatch paramContains expr) with
  | Some c => v <-- jsonString (getCap 3 c) ;;
              Ret (Some (mkPH SrcParam (getCap 1 c) MATCH_CONTAINS v))
  | None =>
  match sameGroups (rmatch paramCompare expr) with
  | Some c => Ret (Some (mkPH SrcParam (getCap 1 c) (paramOpMode (getCap 3 c)) (getCap 4 c)))
  | None =>
  match rmatch equality expr with
  | Some c =>
      match parseExprLiteral (getCap 3 c) with
      | VNull => Ret None
      | v => Ret (Some (mkPH (if bool_decide (getCap 1 c = SOURCE_HEADER) then SrcHeader else SrcParam)
                             (getCap 2 c) MATCH_EQ (js_String v)))
      end
  | None => Ret None
  end end end end end end end.

(** The loop over the conjuncts: [None] as soon as one is not a condition. *)
Fixpoint parseConditions (parts : list jstr) : outcome (option (list RequestCondition)) :=
  match parts with
  | [] => Ret (Some [])
  | p :: rest =>
      c <-- tryParseRequestCondition (trim p) ;;
      match c with
      | None => Ret None
      | Some c => cs <-- parseConditions rest ;; Ret (cons c <$> cs)
      end
  end.

Definition tryParseRuleGroupFactor (part : jstr) : outcome (option RequestRuleGroup) :=
  match rmatch ruleFactor part with
  | None => Ret None
  | Some c =>
      cs <-- parseConditions (splitTopLevelAnd (getCap 1 c)) ;;
      match cs with
      | None | Some [] => Ret None
      | Some cs => Ret (Some {| conditions := cs; multiplier := getCap 2 c |})
      end
  end.

Fixpoint parseFactors (parts : list jstr) : outcome (option (list RequestRuleGroup)) :=
  match parts with
  | [] => Ret (Some [])
  | p :: rest =>
      g <-- tryParseRuleGroupFactor p ;;
      match g with
      | None => Ret None
      | Some g => gs <-- parseFactors rest ;; Ret (cons g <$> gs)
      end
  end.

Definition tryParseRequestRuleExpr (expr : jstr) : outcome (option (list RequestRuleGroup)) :=
  let trimmed := trim expr in
  if negb (truthy_str trimmed) then Ret (Some [])
  else parseFactors (splitTopLevelMultiply trimmed).

(** ** Splitting and combining whole expressions *)

(** The scan of [hasFullOuterParens]: depth 0 is reached only at the last unit. *)
Fixpoint outerLoop (s : jstr) (depth : Z) : bool :=
  match s with
  | [] => (depth =? 0)%Z
  | c :: s' =>
      let d1 := if (c =? u "(")%N then (depth + 1)%Z else depth in
      let d2 := if (c =? u ")")%N then (d1 - 1)%Z else d1 in
      if (d2 =? 0)%Z && truthy_str s' then false else outerLoop s' d2
  end.

Definition hasFullOuterParens (expr : jstr) : bool :=
  starts_with (js "(") expr && ends_with (js ")") expr && outerLoop expr 0.

(** [current.slice(1, -1)] *)
Definition dropEnds (s : jstr) : jstr := removelast (tail s).

Fixpoint unwrapLoop (fuel : nat) (current : jstr) : jstr :=
  match fuel with
  | O => current
  | S f => if hasFullOuterParens current then unwrapLoop f (trim (dropEnds current)) else current
  end.

(** Each round shortens the string, so its length bounds the rounds. *)
Definition unwrapOuterParens (expr : jstr) : jstr :=
  let t := trim expr in unwrapLoop (length t) t.

Record BillingSplit := { billingExpr : jstr; requestRuleExpr : jstr }.

(** The [forEach]: rule parts and base parts, in order. *)
Fixpoint classifyParts (parts : list jstr) : outcome (list jstr * list jstr) :=
  match parts with
  | [] => Ret ([], [])
  | p :: rest =>
      parsed <-- tryParseRequestRuleExpr p ;;
      rb <-- classifyParts rest ;;
      match parsed with
      | Some (_ :: _) => Ret (p :: fst rb, snd rb)
      | _ => Ret (fst rb, p :: snd rb)
      end
  end.

Definition splitBillingExprAndRequestRules (expr : jstr) : outcome BillingSplit :=
  let trimmed := trim expr in
  if negb (truthy_str trimmed) then Ret {| billingExpr := []; requestRuleExpr := [] |}
  else
    let parts := splitTopLevelMultiply trimmed in
    if (length parts <=? 1)%nat then Ret {| billingExpr := trimmed; requestRuleExpr := [] |}
    else
      rb <-- classifyParts parts ;;
      match rb with
      | (r :: rs, [b]) =>
          Ret {| billingExpr := unwrapOuterParens b; requestRuleExpr := js_join (js " * ") (r :: rs) |}
      | _ => Ret {| billingExpr := trimmed; requestRuleExpr := [] |}
      end.

Definition combineBillingExpr (baseExpr rules : jstr) : jstr :=
  let base := trim baseExpr in
  let r := trim rules in
  if negb (truthy_str base) then []
  else if negb (truthy_str r) then base
  else js "(" ++ base ++ js ") * " ++ r.

(** ** Editor: empty conditions and match options *)
Definition createEmptyCondition : ParamHeaderCondition :=
  {| ph_source := SrcParam; ph_path := []; ph_mode := MATCH_EQ; ph_value := [] |}.

Definition createEmptyTimeCondition : TimeCondition :=
  {| timeFunc := hour; timezone := js "Asia/Shanghai"; t_mode := MATCH_GTE; t_value := [];
     rangeStart := []; rangeEnd := [] |}.

Definition createEmptyRuleGroup : RequestRuleGroup :=
  {| conditions := [CParamHeader createEmptyCondition]; multiplier := [] |}.

Definition createEmptyTimeRuleGroup : RequestRuleGroup :=
  {| conditions := [CTime createEmptyTimeCondition]; multiplier := [] |}.

Record MatchOption := { value : jstr; labelKey : jstr }.

Definition opt (v : jstr) (l : string) : MatchOption := {| value := v; labelKey := js l |}.

Definition getRequestRuleMatchOptions (source : jstr) : list MatchOption :=
  if bool_decide (source = SOURCE_TIME) then
    [opt MATCH_EQ "Equals"; opt MATCH_GTE "Greater than or equal"; opt MATCH_LT "Less than";
     opt MATCH_RANGE "Overnight range"]
  else
    let base := [opt MATCH_EQ "Equals"; opt MATCH_CONTAINS "Contains"; opt MATCH_EXISTS "Exists"] in
    if bool_decide (source = SOURCE_HEADER) then base
    else base ++ [opt MATCH_GT "Greater than"; opt MATCH_GTE "Greater than or equal";
                  opt MATCH_LT "Less than"; opt MATCH_LTE "Less than or equal"].

(** ** Normalisation of a partial condition *)

(** [Partial<RequestCondition>]: every field may be missing. *)
Record PartialCondition := {
  p_source : option jstr; p_path : option jstr; p_mode : option jstr; p_value : option jstr;
  p_timeFunc : option jstr; p_timezone : option jstr;
  p_rangeStart : option jstr; p_rangeEnd : option jstr }.

Definition allowedMode (source : jstr) (mode : option jstr) (fallback : jstr) : jstr :=
  match mode with
  | Some m =>
      if existsb (fun o => bool_decide (value o = m)) (getRequestRuleMatchOptions source)
      then m else fallback
  | None => fallback
  end.

Definition normalizeCondition (cond : option PartialCondition) : RequestCondition :=
  let field (f : PartialCondition -> option jstr) := c ← cond; f c in
  if bool_decide (field p_source = Some SOURCE_TIME) then
    CTime {| timeFunc := default hour (field p_timeFunc ≫= timeFuncOfName);
             timezone := str_or (default [] (field p_timezone)) (js "Asia/Shanghai");
             t_mode := allowedMode SOURCE_TIME (field p_mode) MATCH_GTE;
             t_value := default [] (field p_value);
             rangeStart := default [] (field p_rangeStart);
             rangeEnd := default [] (field p_rangeEnd) |}
  else
    let src := if bool_decide (field p_source = Some SOURCE_HEADER) then SrcHeader else SrcParam in
    CParamHeader {| ph_source := src;
                    ph_path := default [] (field p_path);
                    ph_mode := allowedMode (phSourceName src) (field p_mode) MATCH_EQ;
                    ph_value := default [] (field p_value) |}.

(** A condition seen as a partial one. *)
Definition toPartial (c : RequestCondition) : PartialCondition :=
  match c with
  | CTime t =>
      {| p_source := Some SOURCE_TIME; p_path := None; p_mode := Some (t_mode t);
         p_value := Some (t_value t); p_timeFunc := Some (timeFuncName (timeFunc t));
         p_timezone := Some (timezone t); p_rangeStart := Some (rangeStart t);
         p_rangeEnd := Some (rangeEnd t) |}
  | CParamHeader c =>
      {| p_source := Some (phSourceName (ph_source c)); p_path := Some (ph_path c);
         p_mode := Some (ph_mode c); p_value := Some (ph_value c); p_timeFunc := None;
         p_timezone := None; p_rangeStart := None; p_rangeEnd := None |}
  end.

(** ** The builder *)

Definition buildExprLiteral (mode v : jstr) : jstr :=
  let text := trim v in
  if bool_decide (mode = MATCH_CONTAINS) then json_quote text
  else if bool_decide (text = js "true") || bool_decide (text = js "false") then text
  else if isNumericLiteral text then text
  else json_quote text.

Definition timeModeOp (mode : jstr) : jstr :=
  if bool_decide (mode = MATCH_EQ) then js "=="
  else if bool_decide (mode = MATCH_GTE) then js ">="
  else if bool_decide (mode = MATCH_LT) then js "<" else js "==".

Definition buildTimeText (t : TimeCondition) : jstr :=
  let fn := timeFuncName (timeFunc t) ++ js "(" ++ json_quote (timezone t) ++ js ")" in
  if bool_decide (t_mode t = MATCH_RANGE) then
    let s := trim (rangeStart t) in
    let e := trim (rangeEnd t) in
    if negb (isNumericLiteral s) || negb (isNumericLiteral e) then []
    else fn ++ js " >= " ++ s ++ js " || " ++ fn ++ js " < " ++ e
  else
    let v := trim (t_value t) in
    if negb (isNumericLiteral v) then []
    else fn ++ js " " ++ timeModeOp (t_mode t) ++ js " " ++ v.

(** [opMap[mode]] of the numeric comparisons, when the mode is one of them. *)
Definition paramModeOp (mode : jstr) : option jstr :=
  if bool_decide (mode = MATCH_GT) then Some (js ">")
  else if bool_decide (mode = MATCH_GTE) then Some (js ">=")
  else if bool_decide (mode = MATCH_LT) then Some (js "<")
  else if bool_decide (mode = MATCH_LTE) then Some (js "<=")
  else None.

Definition buildParamHeaderText (c : ParamHeaderCondition) : jstr :=
  let path := trim (ph_path c) in
  if negb (truthy_str path) then []
  else
    let isHeader := bool_decide (ph_source c = SrcHeader) in
    let src := phSourceName (ph_source c) ++ js "(" ++ json_quote path ++ js ")" in
    let m := ph_mode c in
    if bool_decide (m = MATCH_EXISTS) then
      if isHeader then src ++ jsq " != ''" else src ++ js " != nil"
    else if bool_decide (m = MATCH_CONTAINS) then
      let hasText := js "has(" ++ src ++ js ", " ++ buildExprLiteral m (ph_value c) ++ js ")" in
      if isHeader then hasText else src ++ js " != nil && " ++ hasText
    else match paramModeOp m with
         | Some op =>
             let numText := trim (ph_value c) in
             if negb (isNumericLiteral numText) then []
             else src ++ js " != nil && " ++ src ++ js " " ++ op ++ js " " ++ numText
         | None => src ++ js " == " ++ buildExprLiteral m (ph_value c)
         end.

Definition buildRequestConditionExpr (cond : RequestCondition) : jstr :=
  match normalizeCondition (Some (toPartial cond)) with
  | CTime t => buildTimeText t
  | CParamHeader c => buildParamHeaderText c
  end.

Definition buildRuleGroupFactor (group : RequestRuleGroup) : jstr :=
  let m := trim (multiplier group) in
  if negb (isNumericLiteral m) then []
  else
    match List.filter truthy_str (map buildRequestConditionExpr (conditions group)) with
    | [] => []
    | condExprs =>
        let combined :=
          match condExprs with
          | [e] => e
          | _ => js_join (js " && ")
                   (map (fun e => if includes (js " || ") e then js "(" ++ e ++ js ")" else e) condExprs)
          end in
        js "(" ++ combined ++ js " ? " ++ m ++ js " : 1)"
    end.

Definition buildRequestRuleExpr (groups : list RequestRuleGroup) : jstr :=
  js_join (js " * ") (List.filter truthy_str (map buildRuleGroupFactor groups)).

(** ** Samples *)
Definition sampleTime : RequestCondition :=
  CTime {| timeFunc := hour; timezone := js "Asia/Shanghai"; t_mode := MATCH_RANGE; t_value := [];
           rangeStart := js "21"; rangeEnd := js "6" |}.
Definition sampleHeader : RequestCondition := mkPH SrcHeader (js "x-tier") MATCH_CONTAINS (js "fast").
Definition sampleParam : RequestCondition := mkPH SrcParam (js "service_tier") MATCH_EQ (js "priority").
Definition sampleNumeric : RequestCondition := mkPH SrcParam (js "n") MATCH_GT (js "4").

Definition sampleGroups : list RequestRuleGroup :=
  [{| conditions := [sampleTime; sampleHeader]; multiplier := js "0.5" |};
   {| conditions := [sampleParam]; multiplier := js "2" |}].

Example build_sample :
  buildRequestRuleExpr sampleGroups
  = jsq "((hour('Asia/Shanghai') >= 21 || hour('Asia/Shanghai') < 6) && has(header('x-tier'), 'fast') ? 0.5 : 1) * (param('service_tier') == 'priority' ? 2 : 1)".
Proof. vm_compute. reflexivity. Qed.

Example parse_sample :
  tryParseRequestRuleExpr (buildRequestRuleExpr sampleGroups) = Ret (Some sampleGroups).
Proof. vm_compute. reflexivity. Qed.

Example numeric_sample :
  tryParseRequestRuleExpr (buildRequestRuleExpr
    [{| conditions := [sampleNumeric]; multiplier := js "2" |}]) = Ret None.
Proof. vm_compute. reflexivity. Qed.

Example throw_sample :
  tryParseRequestRuleExpr (jsq "(has(header('x'), '\q') ? 2 : 1)") = Throw.
Proof. vm_compute. reflexivity. Qed.
