(* ===== verification/TopLevelSplit.v ===== *)
(** * Lemmas on splitting at the top level of parentheses

    [splitLoop] of [RequestRules] walks a string with a parenthesis depth.  The
    lemmas here say what it does on balanced pieces joined by the separator:
    it gives the pieces back. *)
From S2P Require Import Prelude JsString RequestRules.
From stdpp Require Import prelude list strings.
From Stdlib Require Import NArith Ascii.

(** Depth after reading [s] from depth [d]; [None] when it would go below zero. *)
Fixpoint pscan (d : nat) (s : jstr) : option nat :=
  match s with
  | [] => Some d
  | c :: s' =>
      if (c =? u "(")%N then pscan (S d) s'
      else if (c =? u ")")%N then match d with O => None | S d' => pscan d' s' end
      else pscan d s'
  end.

Definition balanced (s : jstr) : Prop := pscan 0 s = Some 0.

Definition noParen (c : N) : bool := negb (c =? u "(")%N && negb (c =? u ")")%N.

Lemma pscan_app d a b : pscan d (a ++ b) = pscan d a ≫= fun e => pscan e b.
Proof.
  revert d. induction a as [|c a IH]; intros d; simpl; [done|].
  repeat case_if; try apply IH. destruct d; [done|]. apply IH.
Qed.

Lemma pscan_flat d s : Forall (fun c => noParen c = true) s -> pscan d s = Some d.
Proof.
  induction 1 as [|c s Hc _ IH]; simpl; [done|]. unfold noParen in Hc. bool_hyps.
  rewrite (proj2 (N.eqb_neq _ _) H), (proj2 (N.eqb_neq _ _) H0). done.
Qed.

Lemma pscan_shift k d s e : pscan d s = Some e -> pscan (d + k) s = Some (e + k).
Proof.
  revert d. induction s as [|c s IH]; intros d; simpl; [by intros [= ->]|].
  repeat case_if.
  - apply (IH (S d)).
  - destruct d; [done|]. apply IH.
  - apply IH.
Qed.

Lemma balanced_app a b : balanced a -> balanced b -> balanced (a ++ b).
Proof. unfold balanced. intros Ha Hb. by rewrite pscan_app, Ha. Qed.

Lemma balanced_flat s : Forall (fun c => noParen c = true) s -> balanced s.
Proof. apply pscan_flat. Qed.

Lemma balanced_wrap s : balanced s -> balanced (u "(" :: s ++ [u ")"]).
Proof.
  unfold balanced. intros H. change (pscan 0 (u "(" :: s ++ [u ")"])) with (pscan 1 (s ++ [u ")"])).
  rewrite pscan_app. apply (pscan_shift 1) in H. simpl in H. by rewrite H.
Qed.

Lemma balanced_join sep xs : balanced sep -> Forall balanced xs -> balanced (js_join sep xs).
Proof.
  intros Hs. induction 1 as [|x xs Hx Hxs IH]; [done|].
  destruct xs as [|y xs]; [done|].
  change (js_join sep (x :: y :: xs)) with (x ++ sep ++ js_join sep (y :: xs)).
  by repeat apply balanced_app.
Qed.

(** ** The loop inside parentheses never splits *)
Lemma splitLoop_inside sep w s cur d e :
  pscan d w = Some e ->
  splitLoop sep 0 (w ++ s) cur (Z.of_nat d + 1) = splitLoop sep 0 s (rev w ++ cur) (Z.of_nat e + 1).
Proof.
  revert d cur. induction w as [|c w IH]; intros d cur; simpl; [by intros [= ->]|].
  rewrite <- app_assoc. simpl. destruct (N.eqb_spec c (u "(")) as [->|Ho].
  - intros H. change (u "(" =? u ")")%N with false. cbn iota.
    replace (Z.of_nat d + 1 + 1)%Z with (Z.of_nat (S d) + 1)%Z by lia.
    rewrite (proj2 (Z.eqb_neq _ _)) by lia. by apply IH.
  - destruct (N.eqb_spec c (u ")")) as [->|Hc].
    + destruct d as [|d]; [done|]. intros H.
      replace (Z.of_nat (S d) + 1 - 1)%Z with (Z.of_nat d + 1)%Z by lia.
      rewrite (proj2 (Z.eqb_neq _ _)) by lia. by apply IH.
    + intros H. rewrite (proj2 (Z.eqb_neq _ _)) by lia. by apply IH.
Qed.

(** ** A piece with no separator start is read whole *)
Definition noSepStart (sep w s : jstr) : Prop :=
  forall w1 x w2, w = w1 ++ x :: w2 -> starts_with sep (x :: w2 ++ s) = false.

Lemma noSepStart_cons sep x w s :
  noSepStart sep (x :: w) s -> starts_with sep (x :: w ++ s) = false /\ noSepStart sep w s.
Proof.
  intros H. split; [by apply (H [] x w)|]. intros w1 y w2 ->. by apply (H (x :: w1) y w2).
Qed.

Lemma splitLoop_piece sep w s cur d e :
  pscan d w = Some e -> noSepStart sep w s ->
  splitLoop sep 0 (w ++ s) cur (Z.of_nat d) = splitLoop sep 0 s (rev w ++ cur) (Z.of_nat e).
Proof.
  revert d cur. induction w as [|c w IH]; intros d cur; [by intros [= ->]|].
  intros H [Hns Hns']%noSepStart_cons. cbn [app splitLoop rev]. rewrite Hns, andb_false_r.
  rewrite <- app_assoc. cbn [app]. simpl in H. destruct (N.eqb_spec c (u "(")) as [->|Ho].
  - change (u "(" =? u ")")%N with false. cbn iota.
    replace (Z.of_nat d + 1)%Z with (Z.of_nat (S d)) by lia. by apply IH.
  - destruct (N.eqb_spec c (u ")")) as [->|Hc].
    + destruct d as [|d]; [done|].
      replace (Z.of_nat (S d) - 1)%Z with (Z.of_nat d) by lia. by apply IH.
    + by apply IH.
Qed.

Lemma splitLoop_balanced sep w s cur :
  balanced w -> noSepStart sep w s ->
  splitLoop sep 0 (w ++ s) cur 0 = splitLoop sep 0 s (rev w ++ cur) 0.
Proof. apply (splitLoop_piece sep w s cur 0 0). Qed.

(** A separator made of a blank and other units, none of them a parenthesis. *)
Record goodSep (sep : jstr) : Prop := {
  sep_shape : exists x t, sep = u " " :: x :: t /\ Forall (fun c => noParen c = true) sep
}.

Lemma splitLoop_skip sep k s t cur d :
  length t = k -> splitLoop sep k (t ++ s) cur d = splitLoop sep 0 s cur d.
Proof.
  revert k. induction t as [|c t IH]; intros k Hk; simpl in Hk; subst k; [done|].
  cbn [app splitLoop]. by apply IH.
Qed.

Lemma splitLoop_sep sep s cur :
  goodSep sep -> splitLoop sep 0 (sep ++ s) cur 0 = trim (rev cur) :: splitLoop sep 0 s [] 0.
Proof.
  intros [(x & t & Hsep & _)].
  assert (Hst : starts_with sep (sep ++ s) = true) by apply starts_with_app.
  rewrite Hsep in Hst |- *. cbn [app splitLoop]. cbn [app] in Hst.
  rewrite Hst. change (u " " =? u "(")%N with false. change (u " " =? u ")")%N with false.
  cbn [Z.eqb andb]. f_equal. apply (splitLoop_skip (u " " :: x :: t) _ s (x :: t)). simpl. lia.
Qed.

(** Pieces the loop reads whole and gives back. *)
Record piece (sep w : jstr) : Prop := {
  piece_nonempty : w <> [];
  piece_trimmed : trimmed w = true;
  piece_whole : forall s cur,
    splitLoop sep 0 (w ++ s) cur 0 = splitLoop sep 0 s (rev w ++ cur) 0
}.

Lemma splitLoop_join sep ws :
  goodSep sep -> ws <> [] -> Forall (piece sep) ws ->
  splitLoop sep 0 (js_join sep ws) [] 0 = ws.
Proof.
  intros Hsep. induction ws as [|w ws IH]; [done|]. intros _ HF. inv HF as [|? ? Hw Hws].
  destruct ws as [|w' ws].
  - cbn [js_join]. rewrite <- (app_nil_r w) at 1. rewrite (piece_whole _ _ Hw).
    cbn [splitLoop]. rewrite app_nil_r, rev_involutive, trimmed_trim; [done|apply Hw].
  - change (js_join sep (w :: w' :: ws)) with (w ++ sep ++ js_join sep (w' :: ws)).
    rewrite (piece_whole _ _ Hw), splitLoop_sep, IH by done.
    rewrite app_nil_r, rev_involutive, trimmed_trim; [done|apply Hw].
Qed.

Lemma filter_truthy_all ws : Forall (fun w => w <> []) ws -> List.filter truthy_str ws = ws.
Proof.
  induction 1 as [|w ws Hw _ IH]; simpl; [done|].
  apply truthy_str_spec in Hw. by rewrite Hw, IH.
Qed.

Lemma split_join_pieces sep ws :
  goodSep sep -> ws <> [] -> Forall (piece sep) ws ->
  List.filter truthy_str (splitLoop sep 0 (js_join sep ws) [] 0) = ws.
Proof.
  intros. rewrite splitLoop_join by done. apply filter_truthy_all.
  eapply Forall_impl; [eassumption|]. intros w Hw. apply Hw.
Qed.

Lemma goodSep_and : goodSep (js " && ").
Proof. split. exists (u "&"), (js "& "). split; [done|]. by repeat constructor. Qed.

Lemma goodSep_mul : goodSep (js " * ").
Proof. split. exists (u "*"), (js " "). split; [done|]. by repeat constructor. Qed.

(** Without the separator's second unit a separator cannot start inside, and it
    cannot start on the last unit either if that is not a blank. *)
Lemma noSepStart_unit sep x t w s :
  sep = u " " :: x :: t -> ~ In x w -> trimmed w = true -> noSepStart sep w s.
Proof.
  intros -> Hx Ht w1 c w2 ->. cbn [starts_with].
  destruct (N.eqb_spec (u " ") c) as [<-|]; [|done]. simpl. destruct w2 as [|y w2].
  - by apply trimmed_last in Ht.
  - simpl. destruct (N.eqb_spec x y) as [->|]; [|done].
    destruct Hx. apply in_app_iff. right. right. by left.
Qed.

Lemma piece_units sep x t w :
  sep = u " " :: x :: t -> ~ In x w -> w <> [] -> trimmed w = true -> balanced w -> piece sep w.
Proof.
  intros Hsep Hx Hne Ht Hb. split; [done|done|]. intros s cur.
  apply splitLoop_balanced; [done|]. by eapply noSepStart_unit.
Qed.

(** A parenthesised balanced text is a piece, whatever it contains. *)
Lemma piece_factor sep inner :
  goodSep sep -> balanced inner -> piece sep (u "(" :: inner ++ [u ")"]).
Proof.
  intros [(x & t & -> & _)] Hb. split; [done|by apply trimmed_ends|]. intros s cur.
  cbn [app splitLoop]. rewrite <- app_assoc. cbn [app].
  change (u "(" =? u "(")%N with true. change (u "(" =? u ")")%N with false. cbn [Z.add Z.eqb andb].
  rewrite (splitLoop_inside _ inner _ _ 0 0) by done. cbn [app splitLoop].
  change (u ")" =? u "(")%N with false. change (u ")" =? u ")")%N with true.
  cbn [starts_with]. change (u " " =? u ")")%N with false. rewrite andb_false_r.
  f_equal. cbn [rev]. rewrite rev_app_distr. cbn [rev app]. by rewrite <- app_assoc.
Qed.
