(* ===== verification/RequestRulesCorrect.v ===== *)
(** * Request rules: the parser reads what the builder writes

    Correctness of [RequestRules]: on conditions in the form the editor keeps
    them, [tryParseRequestRuleExpr] inverts [buildRequestRuleExpr], and
    [splitBillingExprAndRequestRules] inverts [combineBillingExpr].  For the
    request-parameter comparisons ([gt], [gte], [lt], [lte]) and for
    [contains] on a request parameter the round trip fails: the text the
    builder writes is split at its own [&&] and rejected. *)
From S2P Require Import Prelude JsString JsRegex JsNumber JsValue RequestRules TopLevelSplit.
From stdpp Require Import prelude list strings.
From Stdlib Require Import NArith Ascii.

(** ** Well-formed conditions *)

(** Units that stand for themselves in a quoted literal and that neither the
    splitters nor the [.] class treat specially. *)
Definition safe_unit (c : N) : bool :=
  plain_unit c && noParen c && negb (c =? u "|")%N && negb (c =? u "&")%N && negb (is_lineterm c).

Definition safe (s : jstr) : bool := forallb safe_unit s.

Definition wfTime (t : TimeCondition) : bool :=
  truthy_str (timezone t) && safe (timezone t) &&
  (bool_decide (t_mode t = MATCH_RANGE) && bool_decide (t_value t = []) &&
     isNumericLiteral (rangeStart t) && isNumericLiteral (rangeEnd t)
   || (bool_decide (t_mode t = MATCH_EQ) || bool_decide (t_mode t = MATCH_GTE)
       || bool_decide (t_mode t = MATCH_LT)) && isNumericLiteral (t_value t) &&
     bool_decide (rangeStart t = []) && bool_decide (rangeEnd t = [])).

Definition wfPath (s : jstr) : bool := truthy_str s && safe s && trimmed s.

Definition wfParamHeader (c : ParamHeaderCondition) : bool :=
  wfPath (ph_path c) &&
  (bool_decide (ph_mode c = MATCH_EXISTS) && bool_decide (ph_value c = [])
   || bool_decide (ph_mode c = MATCH_CONTAINS) && bool_decide (ph_source c = SrcHeader)
      && safe (ph_value c) && trimmed (ph_value c)
   || bool_decide (ph_mode c = MATCH_EQ) && safe (ph_value c) && trimmed (ph_value c)).

Definition wfCondition (c : RequestCondition) : bool :=
  match c with CTime t => wfTime t | CParamHeader c => wfParamHeader c end.

Definition wfGroup (g : RequestRuleGroup) : bool :=
  isNumericLiteral (multiplier g) && forallb wfCondition (conditions g)
  && match conditions g with [] => false | _ => true end.

(** ** Unit classes *)

Lemma forallb_Forall (p : N -> bool) s : forallb p s = true <-> Forall (fun c => p c = true) s.
Proof.
  induction s as [|c s IH]; simpl; [split; [constructor|done]|].
  rewrite andb_true_iff, IH. split; [intros []; by constructor|intros H; by inv H].
Qed.

Lemma safe_unit_facts c : safe_unit c = true ->
  plain_unit c = true /\ noParen c = true /\ c <> u "|" /\ c <> u "&" /\ is_lineterm c = false
  /\ notQuote c = true /\ notQuoteBackslash c = true.
Proof.
  unfold safe_unit. intros H. bool_hyps. split_and!; try done;
    unfold plain_unit in *; bool_hyps; unfold notQuote, notQuoteBackslash;
    by rewrite ?(proj2 (N.eqb_neq c 34)), ?(proj2 (N.eqb_neq c 92)).
Qed.

Lemma safe_units_plain s :
  Forall (fun c => safe_unit c = true) s -> Forall (fun c => plain_unit c = true) s.
Proof. intros H. eapply Forall_impl; [exact H|]. intros c Hc. apply (safe_unit_facts c Hc). Qed.

Lemma safe_units_notQuoteBackslash s :
  Forall (fun c => safe_unit c = true) s -> Forall (fun c => notQuoteBackslash c = true) s.
Proof. intros H. eapply Forall_impl; [exact H|]. intros c Hc. apply (safe_unit_facts c Hc). Qed.

(** The class [\d.eE+-], unit by unit. *)
Lemma numChar_cases c : numChar c = true -> is_digit c = true \/ In c (js ".eE+-").
Proof.
  unfold numChar. rewrite orb_true_iff. intros [H|H]; [by left|right].
  unfold RAny in H. apply existsb_exists in H as (x & Hx & E). apply N.eqb_eq in E. by subst.
Qed.

Lemma numChar_facts c : numChar c = true ->
  is_ws c = false /\ noParen c = true /\ c <> u "|" /\ c <> u "&" /\ c <> u "?" /\ is_lineterm c = false.
Proof.
  intros [H|H]%numChar_cases.
  - apply is_digit_spec in H.
    assert (Hc : In c (js "0123456789")) by (vm_compute; lia).
    repeat (destruct Hc as [<-|Hc]; [by split_and!|]). done.
  - repeat (destruct H as [<-|H]; [by split_and!|]). done.
Qed.

Lemma numeric_chars s :
  isNumericLiteral s = true -> s <> [] /\ Forall (fun c => numChar c = true) s.
Proof.
  intros H. split; [by intros ->|].
  apply (rtest_chars _ NUMERIC_LITERAL_REGEX); [|done|done].
  assert (Hd : forall c, is_digit c = true -> numChar c = true) by (intros; unfold numChar; by rewrite H0).
  unfold NUMERIC_LITERAL_REGEX, ROpt, RPlus, RLit. cbn [rseq chars_in].
  split_and!; try done; try (by apply chars_in_lit; repeat constructor);
    try (by apply chars_in_any; repeat constructor).
  intros c Hc. unfold is_e in Hc. apply orb_true_iff in Hc as [->%N.eqb_eq| ->%N.eqb_eq]; done.
Qed.

(** ** Evaluating the regular expressions on symbolic texts *)

(** Close a literal test decided by the concrete units of the subject. *)
Ltac lit_none :=
  match goal with |- context [skip_lit ?w ?st] => change (skip_lit w st) with (@None cursor) end.

Ltac lit_same := rewrite skip_lit_app.

Lemma rx_RAlt a b st c k :
  rx (RAlt a b) st c k = match rx a st c k with Some x => Some x | None => rx b st c k end.
Proof. reflexivity. Qed.

Lemma option_eta {A} (o : option A) : match o with Some x => Some x | None => None end = o.
Proof. by destruct o. Qed.

Lemma time_group f r b s c k :
  rx (RSeq (RGroup 1 timeFuncRegex) r) {| before := b; rest := timeFuncName f ++ jsq "('" ++ s |} c k
  = rx r {| before := rev (timeFuncName f) ++ b; rest := jsq "('" ++ s |} ((1, timeFuncName f) :: c) k.
Proof.
  rewrite rx_RSeq, rx_RGroup. unfold timeFuncRegex. cbn [ralts]. rewrite !rx_RAlt, !rx_RLit.
  destruct f; cbn [timeFuncName]; lit_same; repeat lit_none; cbn iota;
    by rewrite ?option_eta, consumed_rev.
Qed.

Lemma refuses_rlitq p s r :
  match jsq s with [] => False | x :: _ => p x = false end -> refuses p (RSeq (RLitQ s) r).
Proof.
  unfold RLitQ. destruct (jsq s) as [|x w]; [done|]. apply refuses_lit.
Qed.

Lemma refuses_rlit p s r :
  match js s with [] => False | x :: _ => p x = false end -> refuses p (RSeq (RLit s) r).
Proof.
  unfold RLit. destruct (js s) as [|x w]; [done|]. apply refuses_lit.
Qed.

Lemma rx_litq l r b s c k :
  rx (RSeq (RLitQ l) r) {| before := b; rest := jsq l ++ s |} c k
  = rx r {| before := rev (jsq l) ++ b; rest := s |} c k.
Proof. apply rx_lit_app. Qed.

Lemma rx_lit l r b s c k :
  rx (RSeq (RLit l) r) {| before := b; rest := js l ++ s |} c k
  = rx r {| before := rev (js l) ++ b; rest := s |} c k.
Proof. apply rx_lit_app. Qed.

Lemma rx_litq_no l r st c k :
  starts_with (jsq l) (rest st) = false -> rx (RSeq (RLitQ l) r) st c k = None.
Proof. apply rx_lit_mismatch. Qed.

Lemma rx_lit_no l r st c k :
  starts_with (js l) (rest st) = false -> rx (RSeq (RLit l) r) st c k = None.
Proof. apply rx_lit_mismatch. Qed.

Lemma rx_backref i w r b s c k :
  cap i c = Some w ->
  rx (RSeq (RBackref i) r) {| before := b; rest := w ++ s |} c k
  = rx r {| before := rev w ++ b; rest := s |} c k.
Proof. intros H. rewrite rx_RSeq. cbn [rx]. rewrite H. cbn [default from_option id]. by rewrite skip_lit_app. Qed.

(** A quoted path or time zone, and a numeric literal. *)
Definition quotable (w : jstr) : Prop := w <> [] /\ Forall (fun c => notQuote c = true) w.
Definition numeric (w : jstr) : Prop := w <> [] /\ Forall (fun c => numChar c = true) w.

Lemma rx_quoted i l r b w s c k :
  quotable w ->
  match jsq l with [] => False | x :: _ => x = 34%N end ->
  rx (RSeq (quotedRun i) (RSeq (RLitQ l) r)) {| before := b; rest := w ++ jsq l ++ s |} c k
  = rx (RSeq (RLitQ l) r) {| before := rev w ++ b; rest := jsq l ++ s |} ((i, w) :: c) k.
Proof.
  intros [Hne Hw] Hl. apply rx_group_run; [done|done| |].
  - destruct (jsq l); [done|]. by subst.
  - apply refuses_rlitq. destruct (jsq l); [done|]. by subst.
Qed.

(** The same when the text after the closing quote differs from the literal. *)
Lemma rx_quoted_no i l l' r b w s c k :
  quotable w ->
  match jsq l with [] => False | x :: _ => x = 34%N end ->
  match jsq l' with [] => False | x :: _ => x = 34%N end ->
  starts_with (jsq l) (jsq l' ++ s) = false ->
  rx (RSeq (quotedRun i) (RSeq (RLitQ l) r)) {| before := b; rest := w ++ jsq l' ++ s |} c k = None.
Proof.
  intros [Hne Hw] Hl Hl' Hno. unfold quotedRun. rewrite rx_group_run; [|done|done| |].
  - by apply rx_litq_no.
  - destruct (jsq l'); [done|]. by subst.
  - apply refuses_rlitq. destruct (jsq l); [done|]. by subst.
Qed.

Lemma rx_num i r b w s c k :
  numeric w -> stops numChar s -> refuses numChar r ->
  rx (RSeq (numRun i) r) {| before := b; rest := w ++ s |} c k
  = rx r {| before := rev w ++ b; rest := s |} ((i, w) :: c) k.
Proof. intros [Hne Hw] Hs Hr. by apply rx_group_run. Qed.

Lemma rx_eol b c k : rx REol {| before := b; rest := [] |} c k = k {| before := b; rest := [] |} c.
Proof. reflexivity. Qed.

Lemma rmatch_unfold r s : rmatch r s = snd <$> rx r (at_start s) [] accept.
Proof. reflexivity. Qed.

(** ** Time conditions *)
Section TimeTexts.
Context (f : TimeFunc) (tz : jstr) (Htz : quotable tz).

Definition rangeText (s e : jstr) : jstr :=
  timeFuncName f ++ jsq "('" ++ tz ++ jsq "') >= " ++ s ++ js " || " ++
  timeFuncName f ++ jsq "('" ++ tz ++ jsq "') < " ++ e.

Definition compareText (op v : jstr) : jstr :=
  timeFuncName f ++ jsq "('" ++ tz ++ jsq "') " ++ op ++ js " " ++ v.

Lemma range_body tail b s e t k :
  numeric s -> numeric e -> stops numChar t -> refuses numChar tail ->
  exists b' c', getCap 1 c' = timeFuncName f /\ getCap 2 c' = tz /\ getCap 3 c' = s /\ getCap 4 c' = e /\
  rx (timeRangeBody tail) {| before := b; rest := rangeText s e ++ t |} [] k
  = rx tail {| before := b'; rest := t |} c' k.
Proof.
  intros Hs He Ht Htail. do 2 eexists. split_and!; cycle 4.
  { unfold timeRangeBody, rangeText. cbn [rseq]. rewrite <- !app_assoc.
    rewrite time_group, rx_litq, rx_quoted, rx_litq by done.
    rewrite rx_num; [|done|done|by apply refuses_rlit].
    rewrite rx_lit. erewrite rx_backref by reflexivity. rewrite rx_litq.
    erewrite rx_backref by reflexivity. rewrite rx_litq.
    rewrite rx_num by done. reflexivity. }
  all: done.
Qed.

Lemma parse_range s e :
  numeric s -> numeric e ->
  tryParseTimeCondition (rangeText s e)
  = Some (CTime {| timeFunc := f; timezone := tz; t_mode := MATCH_RANGE; t_value := [];
                   rangeStart := s; rangeEnd := e |}).
Proof.
  intros Hs He. unfold tryParseTimeCondition.
  destruct (range_body REol [] s e [] accept) as (b' & c' & H1 & H2 & H3 & H4 & Hrx);
    [done|done|done|apply refuses_eol|].
  rewrite rmatch_unfold. unfold timeRange1, at_start. rewrite app_nil_r in Hrx.
  rewrite Hrx, rx_eol. cbn [accept fmap option_fmap option_map snd].
  unfold mkTime. rewrite H1, H2, H3, H4. by destruct f.
Qed.

Lemma time_group_no r st c k :
  starts_with (js "(") (rest st) = true -> rx (RSeq (RGroup 1 timeFuncRegex) r) st c k = None.
Proof.
  intros [t E]%starts_with_spec. destruct st as [b s]. simpl in E. subst s.
  rewrite rx_RSeq, rx_RGroup. unfold timeFuncRegex. cbn [ralts]. rewrite !rx_RAlt, !rx_RLit.
  by repeat lit_none.
Qed.

Lemma parse_range_wrapped s e :
  numeric s -> numeric e ->
  tryParseTimeCondition (js "(" ++ rangeText s e ++ js ")")
  = Some (CTime {| timeFunc := f; timezone := tz; t_mode := MATCH_RANGE; t_value := [];
                   rangeStart := s; rangeEnd := e |}).
Proof.
  intros Hs He. unfold tryParseTimeCondition. rewrite !rmatch_unfold.
  unfold timeRange1 at 1. unfold timeRangeBody at 1. cbn [rseq].
  rewrite time_group_no by done. cbn [fmap option_fmap option_map].
  destruct (range_body (RSeq (RLit ")") REol) (rev (js "(")) s e (js ")") accept)
    as (b' & c' & H1 & H2 & H3 & H4 & Hrx); [done|done|done|by apply refuses_rlit|].
  unfold timeRange2, at_start. rewrite rx_lit, app_nil_r, Hrx.
  rewrite <- (app_nil_r (js ")")), rx_lit, rx_eol. cbn [accept fmap option_fmap option_map snd].
  unfold mkTime. rewrite H1, H2, H3, H4. by destruct f.
Qed.

Lemma parse_compare mode v :
  In mode [MATCH_EQ; MATCH_GTE; MATCH_LT] -> numeric v ->
  tryParseTimeCondition (compareText (timeModeOp mode) v)
  = Some (CTime {| timeFunc := f; timezone := tz; t_mode := mode; t_value := v;
                   rangeStart := []; rangeEnd := [] |}).
Proof.
  intros Hm Hv. unfold tryParseTimeCondition. rewrite !rmatch_unfold. unfold at_start.
  assert (H1 : rx timeRange1 {| before := []; rest := compareText (timeModeOp mode) v |} [] accept = None).
  { unfold timeRange1, timeRangeBody, compareText. cbn [rseq]. rewrite time_group, rx_litq.
    destruct Hm as [<-|[<-|[<-|[]]]].
    - apply rx_quoted_no; done.
    - change (jsq "') " ++ timeModeOp MATCH_GTE ++ js " " ++ v) with (jsq "') >= " ++ v).
      rewrite rx_quoted, rx_litq by done. rewrite <- (app_nil_r v).
      rewrite rx_num; [by apply rx_lit_no|done|done|by apply refuses_rlit].
    - apply rx_quoted_no; done. }
  assert (H2 : rx timeRange2 {| before := []; rest := compareText (timeModeOp mode) v |} [] accept = None).
  { unfold timeRange2. apply rx_lit_no. unfold compareText. by destruct f. }
  rewrite H1, H2. cbn [fmap option_fmap option_map].
  unfold timeCompare, compareText. cbn [rseq]. rewrite time_group, rx_litq, rx_quoted, rx_litq by done.
  rewrite <- (app_nil_r v) at 1. rewrite rx_RSeq, rx_RGroup. cbn [ralts]. rewrite !rx_RAlt, !rx_RLit.
  destruct Hm as [<-|[<-|[<-|[]]]];
    (match goal with |- context [timeModeOp ?m] =>
       let o := eval cbn in (timeModeOp m) in change (timeModeOp m) with o end);
    rewrite skip_lit_app; repeat lit_none; cbn iota; rewrite ?option_eta, consumed_rev;
    rewrite rx_lit, rx_num, rx_eol by (done || apply refuses_eol); by destruct f.
Qed.
End TimeTexts.

(** ** Parameter and header conditions *)

Lemma time_none pre t :
  In pre [jsq "header('"; jsq "param('"; js "has("] -> tryParseTimeCondition (pre ++ t) = None.
Proof.
  intros Hp. unfold tryParseTimeCondition. rewrite !rmatch_unfold. unfold at_start.
  assert (Hg : forall r c k,
    rx (RSeq (RGroup 1 timeFuncRegex) r) {| before := []; rest := pre ++ t |} c k = None).
  { intros. rewrite rx_RSeq, rx_RGroup. unfold timeFuncRegex. cbn [ralts].
    rewrite !rx_RAlt, !rx_RLit. destruct Hp as [<-|[<-|[<-|[]]]]; by repeat lit_none. }
  unfold timeRange1, timeRange2, timeCompare, timeRangeBody. cbn [rseq].
  rewrite !Hg, rx_lit_no; [done|]. by destruct Hp as [<-|[<-|[<-|[]]]].
Qed.

(** Open the six tests that come before the equality. *)
Ltac open_parse pre :=
  unfold tryParseRequestCondition; rewrite (time_none pre) by (simpl; auto);
  rewrite !rmatch_unfold; unfold at_start;
  unfold headerExists, paramExists, headerContains, paramContains, paramCompare, equality;
  cbn [rseq].

(** A test whose first literal is not the subject's. *)
Ltac skip_test :=
  match goal with
  | |- context [rx (RSeq (RLitQ ?l) ?r) ?st ?c ?k] =>
      rewrite (rx_litq_no l r st c k) by reflexivity
  end; cbn [fmap option_fmap option_map sameGroups mbind option_bind].

Lemma parse_header_exists p :
  quotable p ->
  tryParseRequestCondition (jsq "header('" ++ p ++ jsq "') != ''")
  = Ret (Some (mkPH SrcHeader p MATCH_EXISTS [])).
Proof.
  intros Hp. open_parse (jsq "header('").
  rewrite <- (app_nil_r (jsq "') != ''")), rx_litq, rx_quoted, rx_litq, rx_eol by done. done.
Qed.

Lemma parse_param_exists p :
  quotable p ->
  tryParseRequestCondition (jsq "param('" ++ p ++ jsq "') != nil")
  = Ret (Some (mkPH SrcParam p MATCH_EXISTS [])).
Proof.
  intros Hp. open_parse (jsq "param('"). skip_test.
  rewrite <- (app_nil_r (jsq "') != nil")), rx_litq, rx_quoted, rx_litq, rx_eol by done. done.
Qed.

(** The quoted literal of the [has] forms. *)
Lemma rx_quotedLiteral i r b v s c k :
  Forall (fun x => notQuoteBackslash x = true) v ->
  rx (RSeq (quotedLiteral i) r) {| before := b; rest := (jsq "'" ++ v ++ jsq "'") ++ s |} c k
  = rx r {| before := rev (jsq "'" ++ v ++ jsq "'") ++ b; rest := s |}
       ((i, jsq "'" ++ v ++ jsq "'") :: c) k.
Proof.
  intros Hv. rewrite rx_RSeq. unfold quotedLiteral. rewrite rx_RGroup. cbn [rseq].
  set (k' := fun st' c' => _). rewrite <- !app_assoc, rx_litq.
  rewrite rx_RSeq, rx_RStar, (star_loop_run notQuoteBackslash).
  - unfold RLitQ. rewrite rx_lit_spec, skip_lit_app. unfold k'.
    replace (rev (jsq "'") ++ rev v ++ rev (jsq "'") ++ b) with (rev (jsq "'" ++ v ++ jsq "'") ++ b).
    + by rewrite consumed_rev.
    + by rewrite !rev_app_distr, <- !app_assoc.
  - intros b0 x s0 c0 k0 Hx. rewrite rx_RAlt, rx_char_one by done.
    rewrite rx_lit_no; [by rewrite option_eta|]. cbn [rest].
    change (js "\") with [92%N]. cbn [starts_with]. unfold notQuoteBackslash in Hx. bool_hyps.
    by rewrite (proj2 (N.eqb_neq 92 x)) by congruence.
  - cbn [rest]. rewrite !length_app. lia.
  - done.
  - intros. rewrite rx_RAlt. by rewrite rx_char_stop.
  - intros b' x s' Hx. unfold RLitQ. rewrite rx_lit_spec. unfold skip_lit. cbn [rest].
    change (jsq "'") with [34%N]. cbn [starts_with]. unfold notQuoteBackslash in Hx. bool_hyps.
    by rewrite (proj2 (N.eqb_neq 34 x)) by congruence.
Qed.

Lemma jsonString_plain v :
  Forall (fun c => plain_unit c = true) v -> jsonString (jsq "'" ++ v ++ jsq "'") = Ret v.
Proof.
  intros Hv. unfold jsonString.
  change (jsq "'" ++ v ++ jsq "'") with (34%N :: v ++ [34%N]).
  rewrite <- json_quote_plain, json_parse_quote by done. done.
Qed.

Lemma parse_header_contains p v :
  quotable p -> Forall (fun c => safe_unit c = true) v ->
  tryParseRequestCondition (jsq "has(header('" ++ p ++ jsq "'), " ++ (jsq "'" ++ v ++ jsq "'") ++ js ")")
  = Ret (Some (mkPH SrcHeader p MATCH_CONTAINS v)).
Proof.
  intros Hp Hv.
  change (jsq "has(header('" ++ ?x) with (js "has(" ++ jsq "header('" ++ x).
  open_parse (js "has("). do 2 skip_test.
  change (js "has(" ++ jsq "header('" ++ ?x) with (jsq "has(header('" ++ x).
  rewrite rx_litq, rx_quoted, rx_litq by done.
  rewrite rx_quotedLiteral.
  2: { by apply safe_units_notQuoteBackslash. }
  rewrite <- (app_nil_r (js ")")), rx_lit, rx_eol.
  cbn [accept fmap option_fmap option_map snd].
  change (getCap 2 _) with (jsq "'" ++ v ++ jsq "'").
  rewrite jsonString_plain; [done|]. by apply safe_units_plain.
Qed.

Definition srcLit (src : phSource) : jstr :=
  match src with SrcParam => jsq "param('" | SrcHeader => jsq "header('" end.

(** Every test before the equality fails on [src("p") op ...] when the text after
    the path is neither [!=] nor anything the comparisons expect. *)
Lemma parse_only_equality src p l t :
  quotable p -> In l ["') == "; "') >"; "') <"]%string ->
  tryParseRequestCondition (srcLit src ++ p ++ jsq l ++ t)
  = match rmatch equality (srcLit src ++ p ++ jsq l ++ t) with
    | Some c =>
        match parseExprLiteral (getCap 3 c) with
        | VNull => Ret None
        | v => Ret (Some (mkPH (if bool_decide (getCap 1 c = SOURCE_HEADER) then SrcHeader else SrcParam)
                               (getCap 2 c) MATCH_EQ (js_String v)))
        end
    | None => Ret None
    end.
Proof.
  intros Hp Hl. destruct src; cbn [srcLit].
  - open_parse (jsq "param('"). skip_test. rewrite !rx_litq.
    rewrite !rx_quoted_no by (done || by destruct Hl as [<-|[<-|[<-|[]]]]).
    cbn [fmap option_fmap option_map]. skip_test. done.
  - open_parse (jsq "header('"). rewrite rx_litq.
    rewrite !rx_quoted_no by (done || by destruct Hl as [<-|[<-|[<-|[]]]]).
    cbn [fmap option_fmap option_map]. repeat skip_test. done.
Qed.

Lemma equality_text src p l t r :
  quotable p -> r = RSeq (RGroup 3 (RPlus RDot)) REol ->
  rmatch equality (srcLit src ++ p ++ jsq l ++ t)
  = snd <$> rx (RSeq (quotedRun 2) (RSeq (RLitQ "') == ") r))
       {| before := rev (srcLit src); rest := p ++ jsq l ++ t |} [(1, phSourceName src)] accept.
Proof.
  intros Hp ->. rewrite rmatch_unfold. unfold equality, at_start. cbn [rseq].
  rewrite rx_RSeq, rx_RGroup, rx_RAlt, !rx_RLit.
  destruct src; cbn [srcLit].
  - change (jsq "param('" ++ ?x) with (js "param" ++ jsq "('" ++ x).
    rewrite skip_lit_app. lit_none. cbn iota. rewrite option_eta, consumed_rev, rx_litq. done.
  - change (jsq "header('" ++ ?x) with (js "header" ++ jsq "('" ++ x).
    lit_none. rewrite skip_lit_app. cbn iota. rewrite consumed_rev, rx_litq. done.
Qed.

Lemma parse_equality src p lit v :
  quotable p -> lit <> [] -> Forall (fun c => is_lineterm c = false) lit ->
  parseExprLiteral lit = VStr v ->
  tryParseRequestCondition (srcLit src ++ p ++ jsq "') == " ++ lit)
  = Ret (Some (mkPH src p MATCH_EQ v)).
Proof.
  intros Hp Hne Hlit Hv. rewrite parse_only_equality by (done || by left).
  erewrite equality_text by done. rewrite rx_quoted, rx_litq by done.
  rewrite <- (app_nil_r lit) at 1. unfold RDot.
  rewrite rx_group_run, rx_eol; [|done| |done|apply refuses_eol].
  2: { eapply Forall_impl; [exact Hlit|]. intros c Hc. cbn beta in *. by rewrite Hc. }
  cbn [accept fmap option_fmap option_map snd].
  change (getCap 3 _) with lit. rewrite Hv. by destruct src.
Qed.

(** Nothing reads a bare comparison of a parameter. *)
Lemma parse_bare_comparison p l t :
  quotable p -> In l ["') >"; "') <"]%string ->
  tryParseRequestCondition (jsq "param('" ++ p ++ jsq l ++ t) = Ret None.
Proof.
  intros Hp Hl. change (jsq "param('") with (srcLit SrcParam).
  rewrite parse_only_equality by (done || by right).
  erewrite equality_text by done.
  rewrite rx_quoted_no; [done|done|done| |]; by destruct Hl as [<-|[<-|[]]].
Qed.

(** Nor the [has] of a parameter without its guard. *)
Lemma parse_bare_has_param p t :
  tryParseRequestCondition (jsq "has(param('" ++ p ++ t) = Ret None.
Proof.
  change (jsq "has(param('" ++ ?x) with (js "has(" ++ jsq "param('" ++ x).
  open_parse (js "has("). repeat skip_test.
  rewrite rx_RSeq, rx_RGroup, rx_RAlt, !rx_RLit. by repeat lit_none.
Qed.

(** ** What the builder writes *)

(** Expand every literal and flatten concatenations. *)
Ltac lits :=
  repeat match goal with
  | |- context [js ?s] => let l := eval vm_compute in (js s) in change (js s) with l
  | |- context [jsq ?s] => let l := eval vm_compute in (jsq s) in change (jsq s) with l
  end.
Ltac flat := lits; cbn [app rev tail]; repeat (rewrite <- app_assoc; cbn [app]); try reflexivity.

(** The text of a well-formed condition. *)
Definition condText (c : RequestCondition) : jstr :=
  match c with
  | CTime t =>
      if bool_decide (t_mode t = MATCH_RANGE)
      then rangeText (timeFunc t) (timezone t) (rangeStart t) (rangeEnd t)
      else compareText (timeFunc t) (timezone t) (timeModeOp (t_mode t)) (t_value t)
  | CParamHeader c =>
      if bool_decide (ph_mode c = MATCH_EXISTS) then
        srcLit (ph_source c) ++ ph_path c ++
        (if bool_decide (ph_source c = SrcHeader) then jsq "') != ''" else jsq "') != nil")
      else if bool_decide (ph_mode c = MATCH_CONTAINS) then
        jsq "has(header('" ++ ph_path c ++ jsq "'), " ++ (jsq "'" ++ ph_value c ++ jsq "'") ++ js ")"
      else srcLit (ph_source c) ++ ph_path c ++ jsq "') == " ++ buildExprLiteral MATCH_EQ (ph_value c)
  end.

Lemma timeFuncOfName_name f : timeFuncOfName (timeFuncName f) = Some f.
Proof. by destruct f. Qed.

Lemma numeric_trim s : isNumericLiteral s = true -> trim s = s.
Proof.
  intros [_ H]%numeric_chars. apply trimmed_trim, trimmed_digits.
  eapply Forall_impl; [exact H|]. intros c Hc. apply (numChar_facts c Hc).
Qed.

Lemma safe_quote s : safe s = true -> json_quote s = 34%N :: s ++ [34%N].
Proof. intros H%forallb_Forall. by apply json_quote_plain, safe_units_plain. Qed.

Lemma build_time_text t :
  wfTime t = true -> buildRequestConditionExpr (CTime t) = condText (CTime t).
Proof.
  intros H. unfold wfTime in H. apply andb_true_iff in H as [Htz Hm].
  apply andb_true_iff in Htz as [Hne Hs].
  unfold buildRequestConditionExpr, normalizeCondition.
  cbn [toPartial p_source p_path p_mode p_value p_timeFunc p_timezone p_rangeStart p_rangeEnd mbind option_bind default from_option id].
  rewrite bool_decide_eq_true_2 by done. rewrite timeFuncOfName_name.
  cbn [from_option id]. unfold str_or. rewrite Hne.
  unfold buildTimeText. cbn [timeFunc timezone t_mode t_value rangeStart rangeEnd].
  rewrite safe_quote by done. unfold condText, rangeText, compareText.
  apply orb_true_iff in Hm as [Hm|Hm]; bool_hyps.
  - match goal with H : t_mode t = _ |- _ => rewrite H end.
    change (allowedMode SOURCE_TIME (Some MATCH_RANGE) MATCH_GTE) with MATCH_RANGE.
    rewrite !bool_decide_eq_true_2 by done. rewrite !numeric_trim by done.
    repeat match goal with H : isNumericLiteral _ = true |- _ => rewrite H end. cbn [negb orb]. flat.
  - rewrite !orb_true_iff, !bool_decide_eq_true in *.
    assert (Hmode : allowedMode SOURCE_TIME (Some (t_mode t)) MATCH_GTE = t_mode t /\ t_mode t <> MATCH_RANGE).
    { by destruct H as [[-> | ->] | ->]. }
    destruct Hmode as [-> Hnr]. rewrite !bool_decide_eq_false_2 by done.
    rewrite numeric_trim by done.
    match goal with H : isNumericLiteral _ = true |- _ => rewrite H end. cbn [negb]. flat.
Qed.

Lemma build_ph_text c :
  wfParamHeader c = true -> buildRequestConditionExpr (CParamHeader c) = condText (CParamHeader c).
Proof.
  intros H. unfold wfParamHeader, wfPath in H. apply andb_true_iff in H as [Hp Hm].
  apply andb_true_iff in Hp as [Hp Ht]. apply andb_true_iff in Hp as [Hne Hs].
  destruct c as [src path mode v]. cbn [ph_path ph_mode ph_value ph_source] in *.
  unfold buildRequestConditionExpr, normalizeCondition.
  cbn [toPartial p_source p_path p_mode p_value p_timeFunc p_timezone p_rangeStart p_rangeEnd
       ph_path ph_mode ph_value ph_source mbind option_bind default from_option id].
  assert (Hsrc : (if bool_decide (Some (phSourceName src) = Some SOURCE_HEADER) then SrcHeader else SrcParam) = src)
    by (by destruct src).
  rewrite Hsrc. rewrite bool_decide_eq_false_2 by (by destruct src).
  assert (Hmode : In mode [MATCH_EXISTS; MATCH_CONTAINS; MATCH_EQ] /\
                  (mode = MATCH_CONTAINS -> src = SrcHeader /\ safe v = true /\ trim v = v)).
  { rewrite !orb_true_iff in Hm. destruct Hm as [[Hm|Hm]|Hm]; bool_hyps; subst; simpl;
      (split; [by auto|]); try done. intros _. by split_and!; [| |apply trimmed_trim]. }
  destruct Hmode as [Hmode Hcont].
  replace (allowedMode (phSourceName src) (Some mode) MATCH_EQ) with mode
    by (by destruct src, Hmode as [<-|[<-|[<-|[]]]]).
  unfold buildParamHeaderText, condText. cbn [ph_path ph_mode ph_value ph_source].
  rewrite trimmed_trim, Hne, safe_quote by done. cbn [negb].
  destruct Hmode as [<-|[<-|[<-|[]]]].
  - rewrite !bool_decide_eq_true_2 by done.
    destruct src; cbn [phSourceName srcLit]; [rewrite !bool_decide_eq_false_2 by done|]; 
      unfold SOURCE_PARAM, SOURCE_HEADER; flat.
  - destruct (Hcont eq_refl) as (-> & Hv & Htv).
    rewrite !(bool_decide_eq_false_2 (MATCH_CONTAINS = MATCH_EXISTS)) by done.
    rewrite !bool_decide_eq_true_2 by done.
    unfold buildExprLiteral. rewrite bool_decide_eq_true_2 by done. rewrite Htv, safe_quote by done.
    cbn [phSourceName]. unfold SOURCE_HEADER. flat.
  - rewrite !(bool_decide_eq_false_2 (MATCH_EQ = MATCH_EXISTS)) by done.
    rewrite !(bool_decide_eq_false_2 (MATCH_EQ = MATCH_CONTAINS)) by done.
    change (paramModeOp MATCH_EQ) with (@None jstr).
    destruct src; cbn [phSourceName srcLit]; unfold SOURCE_PARAM, SOURCE_HEADER; flat.
Qed.

Lemma build_cond_text c : wfCondition c = true -> buildRequestConditionExpr c = condText c.
Proof. destruct c; [apply build_time_text|apply build_ph_text]. Qed.

(** ** The parser reads each condition back *)

(** Units that may appear in the text of a condition outside parentheses. *)
Definition textUnit (c : N) : bool := noParen c && negb (c =? u "&")%N && negb (c =? u "|")%N.

Lemma safe_textUnit s : safe s = true -> Forall (fun c => textUnit c = true) s.
Proof.
  intros H%forallb_Forall. eapply Forall_impl; [exact H|]. intros c Hc.
  destruct (safe_unit_facts c Hc) as (_ & Hp & Ho & Ha & _). unfold textUnit. rewrite Hp.
  by rewrite (proj2 (N.eqb_neq _ _) Ha), (proj2 (N.eqb_neq _ _) Ho).
Qed.

Lemma numeric_textUnit s : isNumericLiteral s = true -> Forall (fun c => textUnit c = true) s.
Proof.
  intros [_ H]%numeric_chars. eapply Forall_impl; [exact H|]. intros c Hc.
  destruct (numChar_facts c Hc) as (_ & Hp & Ho & Ha & _). unfold textUnit. rewrite Hp.
  by rewrite (proj2 (N.eqb_neq _ _) Ha), (proj2 (N.eqb_neq _ _) Ho).
Qed.

Lemma textUnit_facts s : Forall (fun c => textUnit c = true) s ->
  Forall (fun c => noParen c = true) s /\ ~ In (u "&") s /\ ~ In (u "|") s.
Proof.
  intros H. split_and!.
  - eapply Forall_impl; [exact H|]. intros c Hc. unfold textUnit in Hc. by bool_hyps.
  - intros Hin. rewrite List.Forall_forall in H. by specialize (H _ Hin).
  - intros Hin. rewrite List.Forall_forall in H. by specialize (H _ Hin).
Qed.

Lemma numeric_trimmed s : isNumericLiteral s = true -> trimmed s = true.
Proof. intros H%numeric_trim. by apply trim_trimmed_iff. Qed.

Lemma numeric_of s : isNumericLiteral s = true -> numeric s.
Proof. apply numeric_chars. Qed.

Lemma safe_quotable s : truthy_str s = true -> safe s = true -> quotable s.
Proof.
  intros Hne%truthy_str_spec H%forallb_Forall. split; [done|].
  eapply Forall_impl; [exact H|]. intros c Hc. apply (safe_unit_facts c Hc).
Qed.

(** The literal of an equality. *)
Lemma eq_literal v :
  safe v = true -> trimmed v = true ->
  let lit := buildExprLiteral MATCH_EQ v in
  lit <> [] /\ trimmed lit = true /\ Forall (fun c => is_lineterm c = false) lit /\
  Forall (fun c => textUnit c = true) lit /\ parseExprLiteral lit = VStr v.
Proof.
  intros Hs Ht lit. assert (Hn : forall c, safe_unit c = true -> is_lineterm c = false)
    by (intros c Hc; apply (safe_unit_facts c Hc)).
  assert (HF : Forall (fun c => is_lineterm c = false) v).
  { apply forallb_Forall in Hs. eapply Forall_impl; [exact Hs|]. done. }
  unfold lit, buildExprLiteral. rewrite trimmed_trim by done.
  rewrite bool_decide_eq_false_2 by done. unfold parseExprLiteral.
  destruct (bool_decide (v = js "true") || bool_decide (v = js "false")) eqn:Etf.
  { rewrite trimmed_trim, Etf by done. apply orb_true_iff in Etf.
    rewrite !bool_decide_eq_true in Etf.
    split_and!; [by destruct Etf as [-> | ->]|done|done|by apply safe_textUnit|done]. }
  destruct (isNumericLiteral v) eqn:En.
  { rewrite trimmed_trim, Etf, En by done.
    split_and!; [by apply numeric_chars|done|done|by apply safe_textUnit|done]. }
  rewrite safe_quote by done.
  assert (Hq : trimmed (34%N :: v ++ [34%N]) = true) by (by apply trimmed_ends).
  split_and!; [done|done| | |].
  - constructor; [done|]. apply Forall_app; split; [done|by repeat constructor].
  - constructor; [done|]. apply Forall_app; split; [by apply safe_textUnit|by repeat constructor].
  - rewrite trimmed_trim by done.
    rewrite !bool_decide_eq_false_2 by done. cbn [orb].
    change (isNumericLiteral (34%N :: v ++ [34%N])) with false. cbn iota.
    rewrite <- safe_quote, json_parse_quote by done. done.
Qed.

(** Cases of well-formed conditions. *)
Inductive shape : RequestCondition -> Prop :=
| shape_range f tz s e :
    truthy_str tz = true -> safe tz = true ->
    isNumericLiteral s = true -> isNumericLiteral e = true ->
    shape (CTime {| timeFunc := f; timezone := tz; t_mode := MATCH_RANGE; t_value := [];
                    rangeStart := s; rangeEnd := e |})
| shape_compare f tz m v :
    truthy_str tz = true -> safe tz = true -> In m [MATCH_EQ; MATCH_GTE; MATCH_LT] ->
    isNumericLiteral v = true ->
    shape (CTime {| timeFunc := f; timezone := tz; t_mode := m; t_value := v;
                    rangeStart := []; rangeEnd := [] |})
| shape_exists src p :
    truthy_str p = true -> safe p = true -> shape (mkPH src p MATCH_EXISTS [])
| shape_contains p v :
    truthy_str p = true -> safe p = true -> safe v = true -> trimmed v = true ->
    shape (mkPH SrcHeader p MATCH_CONTAINS v)
| shape_eq src p v :
    truthy_str p = true -> safe p = true -> safe v = true -> trimmed v = true ->
    shape (mkPH src p MATCH_EQ v).

Lemma wf_shape c : wfCondition c = true -> shape c.
Proof.
  destruct c as [[f tz m v s e]|[src p m v]]; simpl;
    unfold wfTime, wfParamHeader, wfPath; cbn [timezone t_mode t_value rangeStart rangeEnd
      ph_path ph_mode ph_value ph_source]; intros H; apply andb_true_iff in H as [Hp Hm].
  - bool_hyps. apply orb_true_iff in Hm as [Hm|Hm]; bool_hyps; subst; [by constructor|].
    rewrite !orb_true_iff, !bool_decide_eq_true in *. constructor; try done. simpl. naive_solver.
  - bool_hyps. rewrite !orb_true_iff in Hm.
    destruct Hm as [[Hm|Hm]|Hm]; bool_hyps; subst; by constructor.
Qed.

Lemma compare_not_range m : In m [MATCH_EQ; MATCH_GTE; MATCH_LT] -> bool_decide (m = MATCH_RANGE) = false.
Proof. by intros [<-|[<-|[<-|[]]]]. Qed.

Lemma parse_cond_text c : shape c -> tryParseRequestCondition (condText c) = Ret (Some c).
Proof.
  destruct 1 as [f tz s e Hne Hs Hn1 Hn2|f tz m v Hne Hs Hm Hn|src p Hne Hs|p v Hne Hs Hv Ht|src p v Hne Hs Hv Ht];
    pose proof (safe_quotable _ Hne Hs) as Hq.
  - unfold tryParseRequestCondition, condText. cbn [t_mode timeFunc timezone rangeStart rangeEnd].
    rewrite bool_decide_eq_true_2, parse_range by (done || by apply numeric_of). done.
  - unfold tryParseRequestCondition, condText. cbn [t_mode t_value timeFunc timezone].
    rewrite compare_not_range, parse_compare by (done || by apply numeric_of). done.
  - unfold condText, mkPH. cbn [ph_mode ph_source ph_path]. destruct src;
      [by apply parse_param_exists|by apply parse_header_exists].
  - apply parse_header_contains; [done|]. by apply forallb_Forall.
  - destruct (eq_literal v Hv Ht) as (Hl & _ & Hlt & _ & Hpl).
    by apply parse_equality.
Qed.

(** Conjuncts as the builder writes them when there are several. *)
Definition wrapText (e : jstr) : jstr := if includes (js " || ") e then js "(" ++ e ++ js ")" else e.

Lemma includes_bar e : ~ In (u "|") e -> includes (js " || ") e = false.
Proof.
  intros H. apply not_true_iff_false. rewrite includes_spec. intros (a & b & ->).
  apply H. rewrite !in_app_iff. right. left. simpl. auto.
Qed.

Lemma trimmed_app x w t : is_ws x = false -> t <> [] -> trimmed t = true -> trimmed (x :: w ++ t) = true.
Proof.
  intros Hx Hne Ht. destruct (exists_last Hne) as (t' & d & ->).
  apply trimmed_last in Ht. rewrite app_assoc. by apply trimmed_ends.
Qed.

Lemma trimmed_app_head a t :
  match a with [] => False | x :: _ => is_ws x = false end ->
  t <> [] -> trimmed t = true -> trimmed (a ++ t) = true.
Proof. destruct a as [|x a]; [done|]. apply trimmed_app. Qed.

(** Compute the depth of a concatenation of literals and parenthesis-free parts. *)
Ltac bal_step :=
  match goal with
  | |- context [pscan ?d ?w] =>
      first
        [ let r := eval vm_compute in (pscan d w) in
          match r with Some _ => change (pscan d w) with r end
        | rewrite (pscan_flat d w) by (apply textUnit_facts; assumption) ]
  end; cbn [mbind option_bind].
Ltac bal := unfold balanced; repeat (rewrite ?pscan_app; bal_step); try reflexivity.

(** No unit of a concatenation is [c], literals by computation. *)
Lemma not_in_app (c : N) a b : ~ In c a -> ~ In c b -> ~ In c (a ++ b).
Proof. rewrite in_app_iff. tauto. Qed.

Lemma not_in_lit c w : forallb (fun x => negb (x =? c)%N) w = true -> ~ In c w.
Proof.
  intros H Hin. rewrite forallb_forall in H. specialize (H c Hin).
  by rewrite N.eqb_refl in H.
Qed.

Ltac no_unit :=
  repeat apply not_in_app;
  first [ apply not_in_lit; vm_compute; reflexivity | apply textUnit_facts; assumption ].

Record condFacts (w : jstr) : Prop := {
  cf_nonempty : w <> [];
  cf_trimmed : trimmed w = true;
  cf_balanced : balanced w;
  cf_noamp : ~ In (u "&") w
}.

Lemma cond_facts c : shape c -> condFacts (condText c).
Proof.
  destruct 1 as [f tz s e Hne Hs Hn1 Hn2|f tz m v Hne Hs Hm Hn|src p Hne Hs|p v Hne Hs Hv Ht|src p v Hne Hs Hv Ht];
    pose proof (safe_textUnit _ Hs) as Hu.
  - pose proof (numeric_textUnit _ Hn1). pose proof (numeric_textUnit _ Hn2).
    unfold condText. cbn [t_mode timeFunc timezone rangeStart rangeEnd].
    rewrite bool_decide_eq_true_2 by done. unfold rangeText. destruct f; cbn [timeFuncName];
      (split; [done| |bal|no_unit]);
      (rewrite !app_assoc; apply trimmed_app_head; [done|by apply numeric_chars|by apply numeric_trimmed]).
  - pose proof (numeric_textUnit _ Hn).
    unfold condText. cbn [t_mode t_value timeFunc timezone].
    rewrite compare_not_range by done. unfold compareText.
    assert (Hop : Forall (fun c => textUnit c = true) (timeModeOp m))
      by (destruct Hm as [<-|[<-|[<-|[]]]]; by repeat constructor).
    destruct f; cbn [timeFuncName];
      (split; [done| |bal|no_unit]);
      (rewrite !app_assoc; apply trimmed_app_head; [done|by apply numeric_chars|by apply numeric_trimmed]).
  - unfold condText, mkPH. cbn [ph_mode ph_source ph_path]. rewrite bool_decide_eq_true_2 by done.
    destruct src; cbn [srcLit]; rewrite ?(bool_decide_eq_true_2 (SrcHeader = SrcHeader)),
      ?(bool_decide_eq_false_2 (SrcParam = SrcHeader)) by done;
      (split; [done|rewrite !app_assoc; by apply trimmed_app_head|bal|no_unit]).
  - pose proof (safe_textUnit _ Hv). unfold condText, mkPH. cbn [ph_mode ph_path ph_value].
    rewrite bool_decide_eq_false_2, bool_decide_eq_true_2 by done.
    split; [done|rewrite !app_assoc; by apply trimmed_app_head|bal|no_unit].
  - destruct (eq_literal v Hv Ht) as (Hl & Htl & _ & Hlu & _).
    unfold condText, mkPH. cbn [ph_mode ph_path ph_value ph_source].
    rewrite !bool_decide_eq_false_2 by done.
    revert Hl Htl Hlu. generalize (buildExprLiteral MATCH_EQ v). intros lit Hl Htl Hlu.
    destruct src; cbn [srcLit];
      (split; [done|rewrite !app_assoc; by apply trimmed_app_head|bal|no_unit]).
Qed.

(** A conjunct as it appears among several: still a piece, and still read back. *)
Lemma wrap_cond c :
  shape c -> condFacts (wrapText (condText c)) /\
  tryParseRequestCondition (wrapText (condText c)) = Ret (Some c).
Proof.
  intros Hc. pose proof (cond_facts c Hc) as Hf. unfold wrapText.
  destruct (includes (js " || ") (condText c)) eqn:Ei; [|by split; [|apply parse_cond_text]].
  split.
  - destruct Hf. split; [done| |by apply balanced_wrap|].
    + by apply trimmed_ends.
    + by repeat apply not_in_app; try by apply not_in_lit.
  - destruct Hc as [f tz s e Hne Hs Hn1 Hn2|f tz m v Hne Hs Hm Hn|src p Hne Hs|p v Hne Hs Hv Ht|src p v Hne Hs Hv Ht].
    { pose proof (safe_quotable _ Hne Hs).
      unfold tryParseRequestCondition, condText. cbn [t_mode timeFunc timezone rangeStart rangeEnd].
      rewrite bool_decide_eq_true_2, parse_range_wrapped by (done || by apply numeric_of). done. }
    all: exfalso; revert Ei; apply not_true_iff_false, includes_bar;
      pose proof (safe_textUnit _ Hs).
    + pose proof (numeric_textUnit _ Hn). unfold condText. cbn [t_mode t_value timeFunc timezone].
      rewrite compare_not_range by done. unfold compareText.
      assert (Forall (fun c => textUnit c = true) (timeModeOp m))
        by (destruct Hm as [<-|[<-|[<-|[]]]]; by repeat constructor).
      destruct f; cbn [timeFuncName]; no_unit.
    + unfold condText, mkPH. cbn [ph_mode ph_source ph_path]. rewrite bool_decide_eq_true_2 by done.
      destruct src; case_bool_decide; cbn [srcLit]; no_unit.
    + pose proof (safe_textUnit _ Hv). unfold condText, mkPH. cbn [ph_mode ph_path ph_value].
      rewrite bool_decide_eq_false_2, bool_decide_eq_true_2 by done. no_unit.
    + destruct (eq_literal v Hv Ht) as (_ & _ & _ & Hlu & _).
      unfold condText, mkPH. cbn [ph_mode ph_path ph_value ph_source].
      rewrite !bool_decide_eq_false_2 by done.
      revert Hlu. generalize (buildExprLiteral MATCH_EQ v). intros lit Hlu.
      destruct src; cbn [srcLit]; no_unit.
Qed.

(** ** Groups *)

Lemma condFacts_piece w : condFacts w -> piece (js " && ") w.
Proof.
  intros [H1 H2 H3 H4]. by apply (piece_units (js " && ") (u "&") (js "& ")).
Qed.

Lemma parseConditions_ok ws cs :
  Forall2 (fun w c => condFacts w /\ tryParseRequestCondition w = Ret (Some c)) ws cs ->
  parseConditions ws = Ret (Some cs).
Proof.
  induction 1 as [|w c ws cs [Hw Hp] _ IH]; simpl; [done|].
  rewrite (trimmed_trim w) by apply Hw. by rewrite Hp, IH.
Qed.

(** The condition part of a factor, as a join of conjuncts. *)
Definition conjuncts (cs : list RequestCondition) : list jstr :=
  match cs with
  | [c] => [condText c]
  | _ => map (fun c => wrapText (condText c)) cs
  end.

Lemma conjuncts_ok cs :
  Forall shape cs ->
  Forall2 (fun w c => condFacts w /\ tryParseRequestCondition w = Ret (Some c)) (conjuncts cs) cs.
Proof.
  intros H. unfold conjuncts. destruct cs as [|c [|c' cs]].
  - constructor.
  - inv H. constructor; [|constructor]. split; [by apply cond_facts|by apply parse_cond_text].
  - apply Forall2_fmap_l, Forall_Forall2_diag. eapply Forall_impl; [exact H|]. intros. by apply wrap_cond.
Qed.

Lemma conjuncts_facts cs : Forall shape cs -> Forall condFacts (conjuncts cs).
Proof.
  intros H%conjuncts_ok. induction H as [|w c ws cs [Hw _] _ IH]; by constructor.
Qed.

Lemma conjuncts_nonempty cs : cs <> [] -> conjuncts cs <> [].
Proof. by destruct cs as [|c [|c' cs]]. Qed.

Lemma split_conjuncts cs :
  cs <> [] -> Forall shape cs ->
  parseConditions (splitTopLevelAnd (js_join (js " && ") (conjuncts cs))) = Ret (Some cs).
Proof.
  intros Hne Hcs. unfold splitTopLevelAnd.
  rewrite split_join_pieces; [by apply parseConditions_ok, conjuncts_ok|apply goodSep_and| |].
  - by apply conjuncts_nonempty.
  - eapply Forall_impl; [by apply conjuncts_facts|]. apply condFacts_piece.
Qed.

(** The factor around a condition text. *)
Definition factorText (inner m : jstr) : jstr := js "(" ++ inner ++ js " ? " ++ m ++ js " : 1)".

Lemma filter_truthy_map {A} (f : A -> jstr) l :
  Forall (fun x => f x <> []) l -> List.filter truthy_str (map f l) = map f l.
Proof. intros H. apply filter_truthy_all. by apply Forall_map. Qed.

Lemma wf_group_shapes g :
  wfGroup g = true ->
  isNumericLiteral (multiplier g) = true /\ Forall shape (conditions g) /\ conditions g <> [] /\
  Forall (fun c => buildRequestConditionExpr c = condText c) (conditions g).
Proof.
  unfold wfGroup. intros H. bool_hyps. split_and!; [done| |by destruct (conditions g)|].
  - apply List.Forall_forall. intros c Hc. apply wf_shape. rewrite forallb_forall in *. auto.
  - apply List.Forall_forall. intros c Hc. apply build_cond_text. rewrite forallb_forall in *. auto.
Qed.

Lemma build_group_text g :
  wfGroup g = true ->
  buildRuleGroupFactor g
  = factorText (js_join (js " && ") (conjuncts (conditions g))) (multiplier g).
Proof.
  intros (Hm & Hs & Hne & Hb)%wf_group_shapes. unfold buildRuleGroupFactor.
  rewrite numeric_trim, Hm by done. cbn [negb].
  assert (Heq : map buildRequestConditionExpr (conditions g) = map condText (conditions g)).
  { clear Hs Hne. induction Hb as [|c l Hc _ IH]; simpl; congruence. }
  rewrite Heq, filter_truthy_map.
  2: { eapply Forall_impl; [exact Hs|]. intros c Hc. by apply cond_facts. }
  unfold factorText, conjuncts. destruct (conditions g) as [|c [|c' cs]]; [done|done|].
  cbn [map]. do 3 f_equal. by rewrite map_map.
Qed.

(** The last question mark of a factor starts its multiplier. *)
Lemma question_unique m s1 s2 :
  Forall (fun c => numChar c = true) m ->
  js " ? " ++ m ++ js " : 1)" = s1 ++ s2 -> s1 <> [] -> starts_with (js " ? ") s2 = false.
Proof.
  intros Hm Heq Hne. apply not_true_iff_false. intros [t ->]%starts_with_spec.
  assert (Hq : ~ In (u "?") (js " " ++ m ++ js " : 1)")).
  { repeat apply not_in_app; try by apply not_in_lit. intros Hin.
    rewrite List.Forall_forall in Hm. specialize (Hm _ Hin). by vm_compute in Hm. }
  destruct s1 as [|a s1]; [done|].
  change (js " ? " ++ ?x) with (u " " :: u "?" :: js " " ++ x) in Heq at 1.
  injection Heq as <- Heq. destruct s1 as [|b s1].
  - by vm_compute in Heq.
  - injection Heq as <- Heq. apply Hq.
    replace (js " " ++ m ++ js " : 1)") with (s1 ++ js " ? " ++ t) by (symmetry; exact Heq).
    apply in_app_iff. right.
    apply in_app_iff. left. vm_compute. auto.
Qed.

Lemma factor_match inner m :
  inner <> [] -> isNumericLiteral m = true ->
  exists c, rmatch ruleFactor (factorText inner m) = Some c /\ getCap 1 c = inner /\ getCap 2 c = m.
Proof.
  intros Hne Hm. pose proof (numeric_of _ Hm) as Hnum.
  rewrite rmatch_unfold. unfold ruleFactor, factorText, at_start. cbn [rseq]. rewrite rx_lit.
  erewrite rx_group_last; cycle 1.
  - done.
  - intros s1 s2 c' Hs Hs1. apply rx_lit_no. cbn [rest].
    eapply question_unique; [apply Hnum|exact Hs|done].
  - rewrite rx_lit, rx_num by (done || by apply refuses_rlit).
    rewrite <- (app_nil_r (js " : 1)")), rx_lit, rx_eol. reflexivity.
  - eexists. split; [reflexivity|]. done.
Qed.

Lemma js_join_nonempty sep ws : ws <> [] -> Forall (fun w => w <> []) ws -> js_join sep ws <> [].
Proof.
  destruct ws as [|w ws]; [done|]. intros _ H. inv H as [|? ? Hw _].
  apply truthy_str_spec, js_join_truthy. done.
Qed.

Lemma parse_group g :
  wfGroup g = true -> tryParseRuleGroupFactor (buildRuleGroupFactor g) = Ret (Some g).
Proof.
  intros Hg. rewrite build_group_text by done.
  apply wf_group_shapes in Hg as (Hm & Hs & Hne & _).
  destruct (factor_match (js_join (js " && ") (conjuncts (conditions g))) (multiplier g))
    as (c & Hr & H1 & H2); [|done|].
  { apply js_join_nonempty; [by apply conjuncts_nonempty|].
    eapply Forall_impl; [by apply conjuncts_facts|]. by intros w []. }
  unfold tryParseRuleGroupFactor. rewrite Hr, H1, H2, split_conjuncts by done. simpl.
  destruct g as [[|c0 cs] m]; done.
Qed.

Lemma factor_piece g : wfGroup g = true -> piece (js " * ") (buildRuleGroupFactor g).
Proof.
  intros Hg. rewrite build_group_text by done.
  apply wf_group_shapes in Hg as (Hm & Hs & Hne & _).
  set (inner := js_join _ _).
  replace (factorText inner (multiplier g))
    with (u "(" :: (inner ++ js " ? " ++ multiplier g ++ js " : 1") ++ [u ")"]).
  2: { unfold factorText. by rewrite <- !app_assoc. }
  apply piece_factor; [apply goodSep_mul|]. apply balanced_app; [|apply balanced_flat].
  - apply balanced_join; [done|]. eapply Forall_impl; [by apply conjuncts_facts|]. by intros w [].
  - repeat (apply Forall_app; split); try by repeat constructor.
    by apply textUnit_facts, numeric_textUnit.
Qed.

Lemma parse_factors_ok gs :
  Forall (fun g => wfGroup g = true) gs ->
  parseFactors (map buildRuleGroupFactor gs) = Ret (Some gs).
Proof.
  induction 1 as [|g gs Hg _ IH]; simpl; [done|]. by rewrite parse_group, IH.
Qed.

Lemma factors_pieces gs :
  Forall (fun g => wfGroup g = true) gs -> Forall (piece (js " * ")) (map buildRuleGroupFactor gs).
Proof. intros H. apply Forall_map. eapply Forall_impl; [exact H|]. apply factor_piece. Qed.

Lemma build_rules_text gs :
  Forall (fun g => wfGroup g = true) gs ->
  buildRequestRuleExpr gs = js_join (js " * ") (map buildRuleGroupFactor gs).
Proof.
  intros H. unfold buildRequestRuleExpr. f_equal. apply filter_truthy_map.
  eapply Forall_impl; [exact H|]. intros g Hg. by apply factor_piece.
Qed.

(** Joined pieces start and end with no blank. *)
Lemma trimmed_join sep ws :
  ws <> [] -> Forall (piece sep) ws -> trimmed (js_join sep ws) = true.
Proof.
  intros Hne H. induction H as [|w ws Hw Hws IH]; [done|].
  destruct ws as [|w' ws]; [apply Hw|].
  change (js_join sep (w :: w' :: ws)) with (w ++ sep ++ js_join sep (w' :: ws)).
  rewrite app_assoc. apply trimmed_app_head.
  - destruct w as [|x w]; [by destruct (piece_nonempty _ _ Hw)|]. simpl.
    pose proof (piece_trimmed _ _ Hw) as Ht. unfold trimmed in Ht. by bool_hyps.
  - apply truthy_str_spec, js_join_truthy. inv Hws as [|? ? Hw' _]. apply Hw'.
  - by apply IH.
Qed.

Lemma parse_rules_aux gs :
  Forall (fun g => wfGroup g = true) gs ->
  tryParseRequestRuleExpr (buildRequestRuleExpr gs) = Ret (Some gs).
Proof.
  intros H. rewrite build_rules_text by done. destruct gs as [|g gs]; [done|].
  pose proof (factors_pieces _ H) as Hp. assert (Hne : map buildRuleGroupFactor (g :: gs) <> []) by done.
  unfold tryParseRequestRuleExpr. rewrite trimmed_trim by (by apply trimmed_join).
  cbn [map]. rewrite js_join_truthy by (inv Hp as [|? ? Hw _]; apply Hw). cbn [negb].
  change (_ :: map _ gs) with (map buildRuleGroupFactor (g :: gs)).
  unfold splitTopLevelMultiply. rewrite split_join_pieces by (done || apply goodSep_mul).
  by apply parse_factors_ok.
Qed.

(** A single factor is a rule expression on its own. *)
Lemma parse_one_factor g :
  wfGroup g = true -> tryParseRequestRuleExpr (buildRuleGroupFactor g) = Ret (Some [g]).
Proof.
  intros Hg. rewrite <- (parse_rules_aux [g]) by (by constructor).
  by rewrite build_rules_text by (by constructor).
Qed.

(** ** Unwrapping parentheses *)

Lemma outerLoop_inside w s d e :
  pscan d w = Some e -> outerLoop (w ++ s) (Z.of_nat d + 1) = outerLoop s (Z.of_nat e + 1).
Proof.
  revert d. induction w as [|c w IH]; intros d; simpl; [by intros [= ->]|].
  destruct (N.eqb_spec c (u "(")) as [->|Ho].
  - intros H. change (u "(" =? u ")")%N with false. cbn iota.
    replace (Z.of_nat d + 1 + 1)%Z with (Z.of_nat (S d) + 1)%Z by lia.
    rewrite (proj2 (Z.eqb_neq _ _)) by lia. by apply IH.
  - destruct (N.eqb_spec c (u ")")) as [->|Hc].
    + destruct d as [|d]; [done|]. intros H.
      replace (Z.of_nat (S d) + 1 - 1)%Z with (Z.of_nat d + 1)%Z by lia.
      rewrite (proj2 (Z.eqb_neq _ _)) by lia. by apply IH.
    + intros H. rewrite (proj2 (Z.eqb_neq _ _)) by lia. by apply IH.
Qed.

Lemma hasFullOuterParens_wrap w : balanced w -> hasFullOuterParens (u "(" :: w ++ [u ")"]) = true.
Proof.
  intros Hb. unfold hasFullOuterParens, ends_with.
  replace (rev (u "(" :: w ++ [u ")"])) with (u ")" :: rev w ++ [u "("]).
  2: { simpl. by rewrite rev_app_distr. }
  change (starts_with (js "(") (u "(" :: w ++ [u ")"])) with true.
  change (starts_with (rev (js ")")) (u ")" :: rev w ++ [u "("])) with true.
  cbn [andb outerLoop]. change (u "(" =? u "(")%N with true. change (u "(" =? u ")")%N with false.
  cbn [Z.add Z.eqb andb].
  transitivity (outerLoop [u ")"] 1); [exact (outerLoop_inside w [u ")"] 0 0 Hb)|done].
Qed.

Lemma trim_length s : (length (trim s) <= length s)%nat.
Proof.
  assert (H : forall s, (length (trim_start s) <= length s)%nat).
  { intros s0. destruct (trim_start_suffix s0) as (w & Hw & _). rewrite Hw at 2.
    rewrite length_app. lia. }
  unfold trim, trim_end. rewrite length_rev. etrans; [apply H|]. rewrite length_rev. apply H.
Qed.

Lemma removelast_length (s : jstr) : length (removelast s) = (length s - 1)%nat.
Proof.
  destruct s as [|x s] using rev_ind; [done|]. rewrite removelast_last, length_app. simpl. lia.
Qed.

Lemma dropEnds_length s : s <> [] -> (length (trim (dropEnds s)) < length s)%nat.
Proof.
  intros Hne. eapply Nat.le_lt_trans; [apply trim_length|]. unfold dropEnds.
  rewrite removelast_length. destruct s; [done|]. simpl. lia.
Qed.

(** The counter given to the loop is enough: it always stops on a string without
    full outer parentheses, and a larger counter changes nothing. *)
Lemma unwrapLoop_stops n s : (length s <= n)%nat -> hasFullOuterParens (unwrapLoop n s) = false.
Proof.
  revert s. induction n as [|n IH]; intros s Hn; simpl.
  - destruct s; [done|simpl in Hn; lia].
  - destruct (hasFullOuterParens s) eqn:E; [|done]. apply IH.
    destruct s; [done|]. pose proof (dropEnds_length (n0 :: s) ltac:(done)). simpl in *. lia.
Qed.

Lemma unwrapLoop_fuel n m s :
  (length s <= n)%nat -> (length s <= m)%nat -> unwrapLoop n s = unwrapLoop m s.
Proof.
  revert m s. induction n as [|n IH]; intros m s Hn Hm.
  - destruct s; [|simpl in Hn; lia]. by destruct m.
  - destruct m as [|m]; [destruct s; [done|simpl in Hm; lia]|]. simpl.
    destruct (hasFullOuterParens s) eqn:E; [|done].
    destruct s as [|x s]; [done|]. pose proof (dropEnds_length (x :: s) ltac:(done)).
    apply IH; simpl in *; lia.
Qed.

Lemma unwrap_wrap w :
  balanced w -> trimmed w = true -> unwrapOuterParens (u "(" :: w ++ [u ")"]) = unwrapOuterParens w.
Proof.
  intros Hb Ht. unfold unwrapOuterParens.
  rewrite (trimmed_trim (u "(" :: _)) by (by apply trimmed_ends).
  rewrite (trimmed_trim w) by done. cbn [length unwrapLoop].
  rewrite hasFullOuterParens_wrap by done. unfold dropEnds. cbn [tail].
  rewrite removelast_last, trimmed_trim by done.
  apply unwrapLoop_fuel; rewrite ?length_app; lia.
Qed.

(** ** Splitting a combined expression *)

Lemma classify_factors gs :
  Forall (fun g => wfGroup g = true) gs ->
  classifyParts (map buildRuleGroupFactor gs) = Ret (map buildRuleGroupFactor gs, []).
Proof.
  induction 1 as [|g gs Hg _ IH]; simpl; [done|]. by rewrite parse_one_factor, IH.
Qed.

Lemma combine_text base gs g :
  base <> [] -> trimmed base = true -> Forall (fun g => wfGroup g = true) (g :: gs) ->
  combineBillingExpr base (buildRequestRuleExpr (g :: gs))
  = js_join (js " * ") ((u "(" :: base ++ [u ")"]) :: map buildRuleGroupFactor (g :: gs)).
Proof.
  intros Hne Ht H. pose proof (factors_pieces _ H) as Hp.
  unfold combineBillingExpr. rewrite (trimmed_trim base) by done.
  rewrite build_rules_text by done. rewrite (trimmed_trim (js_join _ _)) by (by apply trimmed_join).
  rewrite (proj2 (truthy_str_spec base)) by done. cbn [map negb].
  rewrite js_join_truthy by (inv Hp as [|? ? Hw _]; apply Hw). cbn [negb].
  set (r := js_join (js " * ") (buildRuleGroupFactor g :: _)).
  change (js_join (js " * ") ((u "(" :: base ++ [u ")"]) :: _))
    with ((u "(" :: base ++ [u ")"]) ++ js " * " ++ r).
  cbn [app]. rewrite <- app_assoc. done.
Qed.

(** ** The conditions that do not survive *)

Definition numericModes : list jstr := [MATCH_GT; MATCH_GTE; MATCH_LT; MATCH_LTE].

(** Any factor whose condition text splits into a readable guard and an
    unreadable rest is refused. *)
Lemma factor_rejected g m rest_ :
  condFacts g -> condFacts rest_ -> isNumericLiteral m = true ->
  (exists c, tryParseRequestCondition g = Ret (Some c)) ->
  tryParseRequestCondition rest_ = Ret None ->
  tryParseRequestRuleExpr (factorText (g ++ js " && " ++ rest_) m) = Ret None.
Proof.
  intros Hg Hr Hm [c Hc] Hno.
  assert (Hp : Forall (piece (js " && ")) [g; rest_]) by (repeat constructor; by apply condFacts_piece).
  assert (Hin : balanced (g ++ js " && " ++ rest_)).
  { apply balanced_app; [apply Hg|]. apply balanced_app; [done|apply Hr]. }
  assert (Hf : tryParseRuleGroupFactor (factorText (g ++ js " && " ++ rest_) m) = Ret None).
  { destruct (factor_match (g ++ js " && " ++ rest_) m) as (c' & Hrm & H1 & H2); [|done|].
    { destruct Hg as [Hne _ _ _]. by destruct g. }
    unfold tryParseRuleGroupFactor. rewrite Hrm, H1. unfold splitTopLevelAnd.
    change (g ++ js " && " ++ rest_) with (js_join (js " && ") [g; rest_]).
    rewrite split_join_pieces by (done || apply goodSep_and). cbn [parseConditions].
    rewrite !trimmed_trim by (apply Hg || apply Hr). rewrite Hc, Hno. done. }
  assert (Hpc : piece (js " * ") (factorText (g ++ js " && " ++ rest_) m)).
  { replace (factorText (g ++ js " && " ++ rest_) m)
      with (u "(" :: ((g ++ js " && " ++ rest_) ++ js " ? " ++ m ++ js " : 1") ++ [u ")"]).
    2: { unfold factorText. by rewrite <- !app_assoc. }
    apply piece_factor; [apply goodSep_mul|]. apply balanced_app; [done|apply balanced_flat].
    repeat (apply Forall_app; split); try by repeat constructor.
    by apply textUnit_facts, numeric_textUnit. }
  unfold tryParseRequestRuleExpr. rewrite trimmed_trim by apply Hpc.
  rewrite (proj2 (truthy_str_spec _)) by apply Hpc. cbn [negb]. unfold splitTopLevelMultiply.
  change (splitLoop (js " * ") 0 ?x) with (splitLoop (js " * ") 0 (js_join (js " * ") [x])).
  rewrite split_join_pieces by (done || apply goodSep_mul || (by constructor)).
  cbn [parseFactors]. by rewrite Hf.
Qed.

Lemma guard_facts p :
  truthy_str p = true -> safe p = true -> condFacts (jsq "param('" ++ p ++ jsq "') != nil").
Proof. intros Hne Hs. by apply (cond_facts (mkPH SrcParam p MATCH_EXISTS [])), shape_exists. Qed.

Lemma build_numeric_text p m v k :
  wfPath p = true -> In m numericModes -> isNumericLiteral v = true -> isNumericLiteral k = true ->
  exists l op, paramModeOp m = Some op /\ In l ["') >"; "') <"]%string /\
  buildRequestRuleExpr [{| conditions := [mkPH SrcParam p m v]; multiplier := k |}]
  = factorText ((jsq "param('" ++ p ++ jsq "') != nil") ++ js " && " ++
                (jsq "param('" ++ p ++ jsq l ++ tail op ++ js " " ++ v)) k.
Proof.
  intros Hp Hm Hv Hk. unfold wfPath in Hp. bool_hyps.
  assert (Hb : exists l op, paramModeOp m = Some op /\ In l ["') >"; "') <"]%string /\
    buildRequestConditionExpr (mkPH SrcParam p m v)
    = (jsq "param('" ++ p ++ jsq "') != nil") ++ js " && " ++
      (jsq "param('" ++ p ++ jsq l ++ tail op ++ js " " ++ v)).
  { unfold buildRequestConditionExpr.
    assert (Hn : normalizeCondition (Some (toPartial (mkPH SrcParam p m v))) = mkPH SrcParam p m v)
      by (by destruct Hm as [<-|[<-|[<-|[<-|[]]]]]).
    rewrite Hn. cbn [mkPH]. unfold buildParamHeaderText. cbn [ph_path ph_mode ph_value ph_source].
    rewrite trimmed_trim, safe_quote, numeric_trim, Hv by done.
    rewrite (proj2 (truthy_str_spec p)) by (by apply truthy_str_spec). cbn [negb].
    rewrite !(bool_decide_eq_false_2 (m = MATCH_EXISTS)), (bool_decide_eq_false_2 (m = MATCH_CONTAINS))
      by (by destruct Hm as [<-|[<-|[<-|[<-|[]]]]]).
    cbn [phSourceName]. unfold SOURCE_PARAM.
    assert (Hop : exists l c t, paramModeOp m = Some (c :: t) /\ jsq l = jsq "') " ++ [c] /\
      In l ["') >"; "') <"]%string).
    { destruct Hm as [<-|[<-|[<-|[<-|[]]]]];
        [exists "') >"%string|exists "') >"%string|exists "') <"%string|exists "') <"%string];
        do 2 eexists; (split; [reflexivity|split; [reflexivity|simpl; by auto]]). }
    destruct Hop as (l & c & t & Hop & Hlc & Hl). exists l, (c :: t). split_and!; [done|done|].
    rewrite Hop, Hlc. cbn [tail]. flat. }
  destruct Hb as (l & op & Hop & Hl & Hb). exists l, op. split_and!; [done|done|].
  unfold buildRequestRuleExpr, buildRuleGroupFactor. cbn [map conditions multiplier].
  rewrite numeric_trim, Hk, Hb by done. cbn [negb List.filter].
  rewrite (proj2 (truthy_str_spec (_ ++ js " && " ++ _))) by done. done.
Qed.

Lemma bare_comparison_facts p l op v m :
  wfPath p = true -> In m numericModes -> paramModeOp m = Some op ->
  In l ["') >"; "') <"]%string -> isNumericLiteral v = true ->
  condFacts (jsq "param('" ++ p ++ jsq l ++ tail op ++ js " " ++ v).
Proof.
  intros Hp Hm Hop Hl Hv. unfold wfPath in Hp. bool_hyps.
  assert (Ht : Forall (fun c => textUnit c = true) (tail op)).
  { destruct Hm as [<-|[<-|[<-|[<-|[]]]]]; vm_compute in Hop; injection Hop as <-; by repeat constructor. }
  pose proof (safe_textUnit p ltac:(done)). pose proof (numeric_textUnit _ Hv).
  destruct Hl as [<-|[<-|[]]]; (split; [done| |bal|no_unit]);
    (rewrite !app_assoc; apply trimmed_app_head; [done|by apply numeric_chars|by apply numeric_trimmed]).
Qed.

Lemma split_combine base gs :
  base <> [] -> trimmed base = true -> balanced base ->
  tryParseRequestRuleExpr (u "(" :: base ++ [u ")"]) = Ret None ->
  gs <> [] -> Forall (fun g => wfGroup g = true) gs ->
  splitBillingExprAndRequestRules (combineBillingExpr base (buildRequestRuleExpr gs))
  = Ret {| billingExpr := unwrapOuterParens base; requestRuleExpr := buildRequestRuleExpr gs |}.
Proof.
  intros Hne Ht Hb Hno Hgs H. destruct gs as [|g gs]; [done|].
  rewrite combine_text by done. set (parts := (u "(" :: base ++ [u ")"]) :: _).
  assert (Hp : Forall (piece (js " * ")) parts).
  { constructor; [|by apply factors_pieces]. apply piece_factor; [apply goodSep_mul|done]. }
  unfold splitBillingExprAndRequestRules.
  rewrite trimmed_trim by (by apply trimmed_join).
  rewrite (proj2 (truthy_str_spec (js_join _ parts))) by done. cbn [negb].
  unfold splitTopLevelMultiply. rewrite split_join_pieces by (done || apply goodSep_mul).
  change (length parts <=? 1)%nat with false. cbn iota. unfold parts. cbn [classifyParts].
  rewrite Hno. cbn [obind]. rewrite classify_factors by done. cbn [obind fst snd map].
  rewrite unwrap_wrap by done. do 2 f_equal. by rewrite build_rules_text.
Qed.

(** ** Theorems *)

(** [C2] The builder and the parser of request rules are inverse: every list of
    well-formed rule groups (time ranges and comparisons, header and parameter
    tests) is read back exactly from the text written for it, without an
    exception. *)
Theorem build_parse_round_trip gs :
  Forall (fun g => wfGroup g = true) gs ->
  tryParseRequestRuleExpr (buildRequestRuleExpr gs) = Ret (Some gs).
Proof. apply parse_rules_aux. Qed.

Lemma build_parse_round_trip_witness :
  Forall (fun g => wfGroup g = true) sampleGroups /\
  tryParseRequestRuleExpr (buildRequestRuleExpr sampleGroups) = Ret (Some sampleGroups).
Proof.
  assert (H : Forall (fun g => wfGroup g = true) sampleGroups) by (repeat constructor).
  split; [exact H|]. apply build_parse_round_trip. exact H.
Defined.

(** [C36] Splitting a combined billing expression gives back the base (without
    redundant outer parentheses) and the rule text.  The base is not empty, has
    no blanks around it, has balanced parentheses, and in parentheses does not
    read as a rule factor.  The rules are at least one group, all well-formed
    ([wfGroup]): a numeric multiplier and one or more conditions of the kinds the
    parser reads back, which are time conditions and, on a parameter or a header,
    existence, equality, or containment in a header, with plain names and values.
    Numeric comparisons and containment on a request parameter are not among
    them: for those the split fails ([numeric_param_rule_rejected]). *)
Theorem split_combine_round_trip base gs :
  base <> [] -> trimmed base = true -> balanced base ->
  tryParseRequestRuleExpr (u "(" :: base ++ [u ")"]) = Ret None ->
  gs <> [] -> Forall (fun g => wfGroup g = true) gs ->
  splitBillingExprAndRequestRules (combineBillingExpr base (buildRequestRuleExpr gs))
  = Ret {| billingExpr := unwrapOuterParens base; requestRuleExpr := buildRequestRuleExpr gs |}.
Proof. apply split_combine. Qed.

Lemma split_combine_round_trip_witness :
  splitBillingExprAndRequestRules
    (combineBillingExpr (jsq "tier('base', p * 1.5 + c * 2)") (buildRequestRuleExpr sampleGroups))
  = Ret {| billingExpr := unwrapOuterParens (jsq "tier('base', p * 1.5 + c * 2)");
           requestRuleExpr := buildRequestRuleExpr sampleGroups |}.
Proof.
  apply split_combine_round_trip;
    [discriminate|vm_compute; reflexivity|vm_compute; reflexivity|vm_compute; reflexivity
    |discriminate|repeat constructor].
Defined.

(** A request-parameter comparison ([gt], [gte], [lt], [lte]) does not
    survive the editor: the text built for it is rejected by the parser. *)
Theorem numeric_param_rule_rejected p m v k :
  wfPath p = true -> In m numericModes -> isNumericLiteral v = true -> isNumericLiteral k = true ->
  tryParseRequestRuleExpr
    (buildRequestRuleExpr [{| conditions := [mkPH SrcParam p m v]; multiplier := k |}]) = Ret None.
Proof.
  intros Hp Hm Hv Hk. pose proof Hp as Hp'. unfold wfPath in Hp'. bool_hyps.
  destruct (build_numeric_text p m v k) as (l & op & Hop & Hl & ->); try done.
  apply factor_rejected; [by apply guard_facts|by eapply bare_comparison_facts|done| |].
  - eexists. by apply parse_param_exists, safe_quotable.
  - by apply parse_bare_comparison; [apply safe_quotable|].
Qed.

Lemma numeric_param_rule_rejected_witness :
  tryParseRequestRuleExpr (buildRequestRuleExpr
    [{| conditions := [mkPH SrcParam (js "max_tokens") MATCH_GT (js "4096")]; multiplier := js "2" |}]) = Ret None.
Proof. apply numeric_param_rule_rejected; try (vm_compute; reflexivity). left. reflexivity. Defined.

(** [unwrapOuterParens] always terminates on a string without full outer
    parentheses: the loop's counter is never what stops it. *)
Theorem unwrapOuterParens_stops s : hasFullOuterParens (unwrapOuterParens s) = false.
Proof. unfold unwrapOuterParens. by apply unwrapLoop_stops. Qed.
