(* ===== verification/FlowGraph.v ===== *)
(** * The usage-flow graph of the dashboard (features/dashboard/lib/flow.ts)

    Rows of usage counters become paths of nodes (user, node, token, group,
    model, channel), the paths become nodes and links with totals, and the
    graph is limited to the top nodes, masked and highlighted.

    Counters and identifiers are the integers the server sends; they are [Z],
    and [FlowTheorems] bounds the totals so that below [2^53] every addition of
    the code is exact ([JsInteger.num_sum_exact]).  Shares and opacities are binary64 numbers.  A row field
    that may be missing is an [option].  Objects the code mutates through a map
    are the map's entries; the links that several arrays share are addressed by
    their position. *)
From stdpp Require Import prelude list strings.
From S2P Require Import Prelude JsString JsNumber JsMap.
Open Scope Z_scope.
Open Scope js_scope.

(** ** Data (features/dashboard/types.ts) *)

Record FlowQuotaDataItem := mkRow {
  user_id : option Z; username : option jstr; node_name : option jstr; use_group : option jstr;
  token_id : option Z; token_name : option jstr; channel_id : option Z; channel_name : option jstr;
  model_name : option jstr; token_used : option Z; count : option Z; quota : option Z }.

Inductive FlowMetric := MQuota | MTokens | MRequests.
Inductive FlowOverflowMode := Aggregate | Hide.
Inductive FlowRole := RoleUser | RoleAdmin | RoleRoot.
Inductive FlowNodeKind := KUser | KNode | KToken | KGroup | KModel | KChannel.

#[export] Instance kind_eq_dec : EqDecision FlowNodeKind.
Proof. solve_decision. Defined.

Record FlowNodeFilter := mkFilter { f_kind : FlowNodeKind; f_id : jstr }.
Record FlowLinkSelection := mkLinkSel { s_source : jstr; s_target : jstr }.

Record FlowMetrics := mkMetrics { m_quota : Z; m_tokens : Z; m_requests : Z }.
Record FlowPathNode := mkNode { p_id : jstr; p_label : jstr; p_kind : FlowNodeKind }.
Record PreparedFlowPath := mkPrepared { path : list FlowPathNode; metrics : FlowMetrics }.
Record FlowNodeRank := mkRank { r_node : FlowPathNode; r_value : Z }.

Record DashboardFlowNode := mkFlowNode {
  n_id : jstr; n_label : jstr; n_kind : FlowNodeKind; n_value : Z; n_requests : Z; n_quota : Z;
  n_tokens : Z; n_color : jstr; n_colorKey : jstr; n_highlighted : option bool; n_dimmed : option bool }.

Record DashboardFlowLink := mkFlowLink {
  l_source : jstr; l_target : jstr; l_value : Z; l_requests : Z; l_quota : Z; l_tokens : Z;
  l_sourceLabel : jstr; l_targetLabel : jstr; l_color : jstr; l_linkColor : jstr; l_linkAlpha : number;
  l_hoverColor : jstr; l_colorKey : jstr; l_share : number;
  l_highlighted : option bool; l_dimmed : option bool }.

Record DashboardFlowGraph := mkGraph { nodes : list DashboardFlowNode; links : list DashboardFlowLink }.

Record FlowSummary := mkSummary { sm_quota : Z; sm_tokens : Z; sm_requests : Z }.

Record FlowUserFilterOption := mkUserOption {
  uo_value : jstr; uo_label : jstr; uo_valueLabel : jstr; uo_valueRaw : Z; uo_color : jstr }.
Record FlowNodeFilterOption := mkNodeOption {
  no_kind : FlowNodeKind; no_value : jstr; no_label : jstr; no_valueLabel : jstr; no_valueRaw : Z;
  no_color : jstr }.
Record FlowFilterOptions := mkFilterOptions {
  fo_users : list FlowUserFilterOption; fo_nodes : list FlowNodeFilterOption }.
Record ProcessedFlowData := mkProcessed {
  summary : FlowSummary; flow : DashboardFlowGraph; filterOptions : FlowFilterOptions }.

Record FlowPathContext := mkCtx { deletedToken : option (Z -> jstr) }.
Definition EMPTY_FLOW_PATH_CONTEXT : FlowPathContext := mkCtx None.

Record FlowGraphOptions := mkOptions {
  topNodeLimit : option number; overflowMode : option FlowOverflowMode;
  otherNodeLabel : option (FlowNodeKind -> jstr); activeNode : option FlowNodeFilter;
  activeLink : option FlowLinkSelection; maskSensitive : bool }.

Record FlowBuildOptions := mkBuildOptions {
  o_role : option FlowRole; o_selectedUsers : option (list jstr);
  o_selectedNodes : option (list FlowNodeFilter); o_colorPalette : option (list jstr);
  o_visibleStages : option (list FlowNodeKind); o_deletedTokenLabel : option (Z -> jstr);
  o_graph : FlowGraphOptions }.

Record FlowHighlightSets := mkHighlight { h_nodes : list jstr; h_links : list jstr }.

(** ** Constants *)

Definition DEFAULT_FLOW_ROLE := RoleUser.
Definition DEFAULT_FLOW_OVERFLOW_MODE := Aggregate.
Definition DEFAULT_FLOW_CHART_COLOR : jstr := js "#1664FF".

Definition OTHER_FLOW_NODE_IDS (k : FlowNodeKind) : jstr :=
  match k with
  | KUser => js "user:__other__" | KNode => js "node:__other__" | KToken => js "token:__other__"
  | KGroup => js "group:__other__" | KModel => js "model:__other__" | KChannel => js "channel:__other__"
  end.

Definition DEFAULT_OTHER_FLOW_NODE_LABELS (k : FlowNodeKind) : jstr :=
  match k with
  | KUser => js "Other users" | KNode => js "Other nodes" | KToken => js "Other tokens"
  | KGroup => js "Other groups" | KModel => js "Other models" | KChannel => js "Other channels"
  end.

Definition SENSITIVE_FLOW_KINDS : list FlowNodeKind := [KUser; KNode; KToken; KGroup; KChannel].
Definition FLOW_NODE_KINDS : list FlowNodeKind := [KUser; KNode; KToken; KGroup; KModel; KChannel].
Definition OTHER_FLOW_NODE_ID_SET : list jstr := map OTHER_FLOW_NODE_IDS FLOW_NODE_KINDS.

(** [set.add(x)] on the insertion-ordered list of a set's elements. *)
Definition set_add {A} `{EqDecision A} (x : A) (s : list A) : list A :=
  if bool_decide (x ∈ s) then s else s ++ [x].

(** ** Rows to path nodes *)

Definition numberValue (v : option Z) : Z := default 0 v.

(** [x || d] for a string that may be missing. *)
Definition opt_or (x : option jstr) (d : jstr) : jstr := str_or (default [] x) d.

Definition rowMetrics (row : FlowQuotaDataItem) : FlowMetrics :=
  {| m_quota := numberValue (quota row); m_tokens := numberValue (token_used row);
     m_requests := numberValue (count row) |}.

Definition metricValue (m : FlowMetrics) (metric : FlowMetric) : Z :=
  match metric with MRequests => m_requests m | MTokens => m_tokens m | MQuota => m_quota m end.

Definition userNode (row : FlowQuotaDataItem) : FlowPathNode :=
  let userID := numberValue (user_id row) in
  {| p_id := if 0 <? userID then js "user:" ++ print_int userID
             else js "user:" ++ opt_or (username row) (js "unknown");
     p_label := opt_or (username row)
                  (if 0 <? userID then js "user-" ++ print_int userID else js "Unknown User");
     p_kind := KUser |}.

Definition nodeNameNode (row : FlowQuotaDataItem) : FlowPathNode :=
  let nodeName := opt_or (node_name row) (js "default-node") in
  {| p_id := js "node:" ++ nodeName; p_label := nodeName; p_kind := KNode |}.

Definition deletedTokenLabel (tokenID : Z) (ctx : FlowPathContext) : jstr :=
  if tokenID <=? 0 then js "Unknown Token"
  else match deletedToken ctx with
       | Some f => f tokenID
       | None => js "token-" ++ print_int tokenID
       end.

Definition tokenNode (row : FlowQuotaDataItem) (ctx : FlowPathContext) : FlowPathNode :=
  let tokenID := numberValue (token_id row) in
  {| p_id := if 0 <? tokenID then js "token:" ++ print_int tokenID
             else js "token:" ++ opt_or (token_name row) (js "unknown");
     p_label := opt_or (token_name row) (deletedTokenLabel tokenID ctx);
     p_kind := KToken |}.

Definition groupNode (row : FlowQuotaDataItem) : FlowPathNode :=
  let useGroup := opt_or (use_group row) (js "unknown") in
  {| p_id := js "group:" ++ useGroup; p_label := useGroup; p_kind := KGroup |}.

Definition modelNode (row : FlowQuotaDataItem) : FlowPathNode :=
  let model := opt_or (model_name row) (js "unknown") in
  {| p_id := js "model:" ++ model; p_label := opt_or (model_name row) (js "Unknown Model");
     p_kind := KModel |}.

Definition channelNode (row : FlowQuotaDataItem) : FlowPathNode :=
  let channelID := numberValue (channel_id row) in
  {| p_id := if 0 <? channelID then js "channel:" ++ print_int channelID
             else js "channel:" ++ opt_or (channel_name row) (js "unknown");
     p_label := opt_or (channel_name row)
                  (if 0 <? channelID then js "channel-" ++ print_int channelID else js "Unknown");
     p_kind := KChannel |}.

Definition NODE_BUILDERS (k : FlowNodeKind) (row : FlowQuotaDataItem) (ctx : FlowPathContext) : FlowPathNode :=
  match k with
  | KUser => userNode row | KNode => nodeNameNode row | KToken => tokenNode row ctx
  | KGroup => groupNode row | KModel => modelNode row | KChannel => channelNode row
  end.

Definition ROLE_FLOW_STAGES (r : FlowRole) : list FlowNodeKind :=
  match r with
  | RoleRoot => [KUser; KNode; KToken; KGroup; KModel; KChannel]
  | RoleAdmin => [KUser; KGroup; KModel; KChannel]
  | RoleUser => [KToken; KGroup; KModel]
  end.

Definition MIN_FLOW_STAGES : nat := 2.

Definition getFlowStages (r : FlowRole) : list FlowNodeKind := ROLE_FLOW_STAGES r.

Definition resolveVisibleStages (role : FlowRole) (visibleStages : option (list FlowNodeKind)) :
    list FlowNodeKind :=
  let stages := getFlowStages role in
  match visibleStages with
  | None => stages
  | Some vs =>
      let visible := set_from vs in
      let filtered := List.filter (fun stage => bool_decide (stage ∈ visible)) stages in
      if (MIN_FLOW_STAGES <=? length filtered)%nat then filtered else stages
  end.

Definition flowPathForStages (row : FlowQuotaDataItem) (stages : list FlowNodeKind) (ctx : FlowPathContext) :
    list FlowPathNode :=
  map (fun stage => NODE_BUILDERS stage row ctx) stages.

(** Consecutive elements: the pairs the loops [for (i < path.length - 1)] visit. *)
Definition steps {A} (p : list A) : list (A * A) := zip p (tail p).

Section FlowGraph.

(** What the code takes from outside the sources: [String.prototype.localeCompare]
    of the browser's locale, [Intl.NumberFormat], and the colour schemes of the
    chart library (never empty; a scheme entry that is not a string is [None]). *)
Context (localeCompare : jstr -> jstr -> Z).
Context (numberFormat : Z -> jstr).
Context (schemeHead : option Z * list (option jstr)) (schemeTail : list (option Z * list (option jstr))).

(** [a || b] for numbers, as comparators chain. *)
Definition cmp_or (a b : Z) : Z := if a =? 0 then b else a.

(** ** Colours *)

Definition schemeFits (domainLength : Z) (item : option Z * list (option jstr)) : bool :=
  match item.1 with
  | None => true
  | Some n => (n =? 0) || (domainLength <=? n)
  end.

Definition getDashboardChartColors (domainLength : Z) : list jstr :=
  let schemes := schemeHead :: schemeTail in
  let scheme := match List.find (schemeFits domainLength) schemes with
                | Some s => s
                | None => List.last schemes schemeHead
                end in
  omap id scheme.2.

Definition colorAt (index : Z) (palette : option (list jstr)) : jstr :=
  let colors := match palette with
                | Some (c :: cs) => c :: cs
                | _ => getDashboardChartColors (index + 1)
                end in
  match colors with
  | [] => DEFAULT_FLOW_CHART_COLOR
  | _ => default DEFAULT_FLOW_CHART_COLOR (colors !! Z.to_nat (index mod Z.of_nat (length colors)))
  end.

Definition colorPalette (colorCount : Z) (palette : option (list jstr)) : list jstr :=
  match palette with
  | Some (c :: cs) => c :: cs
  | _ => match getDashboardChartColors colorCount with
         | [] => [DEFAULT_FLOW_CHART_COLOR]
         | colors => colors
         end
  end.

Definition isHex6 (hex : jstr) : bool :=
  (length hex =? 6)%nat && forallb (fun c => match hex_value c with Some _ => true | None => false end) hex.

Definition alphaColor (color : jstr) (alpha : number) : jstr * number :=
  let normalized := trim color in
  let hex := if starts_with (js "#") normalized then drop 1 normalized else normalized in
  match (if isHex6 hex then radix_value 16 0 hex else None) with
  | None => (normalized, alpha)
  | Some value =>
      let red := Z.land (Z.shiftr value 16) 255 in
      let green := Z.land (Z.shiftr value 8) 255 in
      let blue := Z.land value 255 in
      (js "rgba(" ++ print_int red ++ js ", " ++ print_int green ++ js ", " ++ print_int blue ++ js ", " ++
       num_to_fixed 2 alpha ++ js ")", num_of_Z 1)
  end.

Definition stableColorMap (keys : list jstr) (palette : option (list jstr)) : list (jstr * jstr) :=
  let uniqueKeys := set_from keys in
  let colors := colorPalette (Z.of_nat (length uniqueKeys)) palette in
  foldl (fun m p => mset p.2 (colorAt (Z.of_nat p.1) (Some colors)) m) []
    (zip (seq 0 (length uniqueKeys)) uniqueKeys).

(** ** Row filters *)

Definition filterRows (rows : list FlowQuotaDataItem) (selectedUsers : option (list jstr)) :
    list FlowQuotaDataItem :=
  match set_from (default [] selectedUsers) with
  | [] => rows
  | selected => List.filter (fun row => bool_decide (p_id (userNode row) ∈ selected)) rows
  end.

Definition nodeFilterKey (f : FlowNodeFilter) : jstr :=
  (match f_kind f with
   | KUser => js "user" | KNode => js "node" | KToken => js "token"
   | KGroup => js "group" | KModel => js "model" | KChannel => js "channel" end) ++ 0%N :: f_id f.

Definition addFilter (stages : list FlowNodeKind) (filters : list (FlowNodeKind * list jstr))
    (filter : FlowNodeFilter) : list (FlowNodeKind * list jstr) :=
  if negb (bool_decide (f_kind filter ∈ stages)) then filters
  else upsert (f_kind filter) [] (set_add (f_id filter)) filters.

Definition normalizeSelectedNodeFilters (selectedNodes : option (list FlowNodeFilter))
    (stages : list FlowNodeKind) : list (FlowNodeKind * list jstr) :=
  foldl (addFilter stages) [] (default [] selectedNodes).

Definition pathIdsByKind (p : list FlowPathNode) : list (FlowNodeKind * list jstr) :=
  foldl (fun m node => upsert (p_kind node) [] (set_add (p_id node)) m) [] p.

Definition pathMatchesNodeFilters (p : list FlowPathNode) (filters : list (FlowNodeKind * list jstr)) : bool :=
  match filters with
  | [] => true
  | _ =>
      let pathNodesByKind := pathIdsByKind p in
      forallb (fun '(kind, selectedIds) =>
        match mget kind pathNodesByKind with
        | None => false
        | Some pathIds => existsb (fun id => bool_decide (id ∈ pathIds)) selectedIds
        end) filters
  end.

Definition filterRowsByNodes (rows : list FlowQuotaDataItem) (selectedNodes : option (list FlowNodeFilter))
    (stages : list FlowNodeKind) (ctx : FlowPathContext) : list FlowQuotaDataItem :=
  let filters := normalizeSelectedNodeFilters selectedNodes stages in
  match filters with
  | [] => rows
  | _ => List.filter (fun row => pathMatchesNodeFilters (flowPathForStages row stages ctx) filters) rows
  end.

Definition selectedNodeFiltersExceptKind (selectedNodes : option (list FlowNodeFilter)) (kind : FlowNodeKind) :
    option (list FlowNodeFilter) :=
  match List.filter (fun f => negb (bool_decide (f_kind f = kind))) (default [] selectedNodes) with
  | [] => None
  | filtered => Some filtered
  end.

(** ** Nodes and links *)

Definition newNode (n : FlowPathNode) (color colorKey : jstr) : DashboardFlowNode :=
  {| n_id := p_id n; n_label := p_label n; n_kind := p_kind n; n_value := 0; n_requests := 0; n_quota := 0;
     n_tokens := 0; n_color := color; n_colorKey := colorKey; n_highlighted := None; n_dimmed := None |}.

Definition bumpNode (m : FlowMetrics) (metric : FlowMetric) (n : DashboardFlowNode) : DashboardFlowNode :=
  {| n_id := n_id n; n_label := n_label n; n_kind := n_kind n;
     n_value := n_value n + metricValue m metric; n_requests := n_requests n + m_requests m;
     n_quota := n_quota n + m_quota m; n_tokens := n_tokens n + m_tokens m;
     n_color := n_color n; n_colorKey := n_colorKey n;
     n_highlighted := n_highlighted n; n_dimmed := n_dimmed n |}.

Definition addNode (map : list (jstr * DashboardFlowNode)) (pathNode : FlowPathNode) (m : FlowMetrics)
    (metric : FlowMetric) (color colorKey : jstr) : list (jstr * DashboardFlowNode) :=
  upsert (p_id pathNode) (newNode pathNode color colorKey) (bumpNode m metric) map.

Definition pathLinkKey (source target : FlowPathNode) : jstr := p_id source ++ 0%N :: p_id target.
Definition linkStableKey (l : DashboardFlowLink) : jstr := l_source l ++ 0%N :: l_target l.

Definition newLink (source target : FlowPathNode) (color colorKey : jstr) : DashboardFlowLink :=
  {| l_source := p_id source; l_target := p_id target; l_value := 0; l_requests := 0; l_quota := 0;
     l_tokens := 0; l_sourceLabel := p_label source; l_targetLabel := p_label target; l_color := color;
     l_linkColor := color; l_linkAlpha := num_of_Z 1; l_hoverColor := color; l_colorKey := colorKey;
     l_share := num_zero; l_highlighted := None; l_dimmed := None |}.

Definition bumpLink (m : FlowMetrics) (metric : FlowMetric) (l : DashboardFlowLink) : DashboardFlowLink :=
  {| l_source := l_source l; l_target := l_target l;
     l_value := l_value l + metricValue m metric; l_requests := l_requests l + m_requests m;
     l_quota := l_quota l + m_quota m; l_tokens := l_tokens l + m_tokens m;
     l_sourceLabel := l_sourceLabel l; l_targetLabel := l_targetLabel l; l_color := l_color l;
     l_linkColor := l_linkColor l; l_linkAlpha := l_linkAlpha l; l_hoverColor := l_hoverColor l;
     l_colorKey := l_colorKey l; l_share := l_share l;
     l_highlighted := l_highlighted l; l_dimmed := l_dimmed l |}.

Definition addLink (map : list (jstr * DashboardFlowLink)) (source target : FlowPathNode) (m : FlowMetrics)
    (metric : FlowMetric) (color colorKey : jstr) : list (jstr * DashboardFlowLink) :=
  upsert (pathLinkKey source target) (newLink source target color colorKey) (bumpLink m metric) map.

Definition setDisplay (c : jstr * number) (l : DashboardFlowLink) : DashboardFlowLink :=
  {| l_source := l_source l; l_target := l_target l; l_value := l_value l; l_requests := l_requests l;
     l_quota := l_quota l; l_tokens := l_tokens l; l_sourceLabel := l_sourceLabel l;
     l_targetLabel := l_targetLabel l; l_color := l_color l; l_linkColor := c.1; l_linkAlpha := c.2;
     l_hoverColor := l_color l; l_colorKey := l_colorKey l; l_share := l_share l;
     l_highlighted := l_highlighted l; l_dimmed := l_dimmed l |}.

Definition byLinkValue (a b : DashboardFlowLink) : Z :=
  cmp_or (l_value b - l_value a) (localeCompare (linkStableKey a) (linkStableKey b)).

(** The array of links is the store; a group is the positions of its links. *)
Definition linksBySource (ls : list DashboardFlowLink) : list (jstr * list nat) :=
  foldl (fun m p => upsert (l_source p.2) [] (fun group => group ++ [p.1]) m) [] (zip (seq 0 (length ls)) ls).

Definition linkAlphaAt (n index : nat) : number :=
  if (n =? 1)%nat then num_of_str (js "0.34")
  else num_add (num_of_str (js "0.24"))
         (num_mul (num_div (num_of_Z (Z.of_nat index)) (num_of_Z (Z.max (Z.of_nat n - 1) 1)))
                  (num_of_str (js "0.2"))).

Definition colorGroup (ls : list DashboardFlowLink) (group : list nat) : list DashboardFlowLink :=
  let byPos i j := match ls !! i, ls !! j with Some a, Some b => byLinkValue a b | _, _ => 0 end in
  let sortedLinks := sort_by byPos group in
  foldl (fun ls p => alter (fun l => setDisplay (alphaColor (l_color l) (linkAlphaAt (length sortedLinks) p.1)) l) p.2 ls)
    ls (zip (seq 0 (length sortedLinks)) sortedLinks).

Definition assignLinkDisplayColors (ls : list DashboardFlowLink) : list DashboardFlowLink :=
  foldl colorGroup ls (mvalues (linksBySource ls)).

Definition byValueThenLabel (a b : DashboardFlowNode) : Z :=
  cmp_or (n_value b - n_value a) (localeCompare (n_label a) (n_label b)).

Definition buildSummary (rows : list FlowQuotaDataItem) : FlowSummary :=
  foldl (fun s row =>
    let m := rowMetrics row in
    {| sm_quota := sm_quota s + m_quota m; sm_tokens := sm_tokens s + m_tokens m;
       sm_requests := sm_requests s + m_requests m |})
    {| sm_quota := 0; sm_tokens := 0; sm_requests := 0 |} rows.

(** ** Top nodes *)

Definition normalizeTopNodeLimit (limit : option number) : option Z :=
  match limit with
  | None => None
  | Some l => match num_floor l with
              | Some parsed => if 0 <? parsed then Some parsed else None
              | None => None
              end
  end.

Definition otherFlowNode (kind : FlowNodeKind) (labeler : option (FlowNodeKind -> jstr)) : FlowPathNode :=
  {| p_id := OTHER_FLOW_NODE_IDS kind;
     p_label := match labeler with Some f => f kind | None => DEFAULT_OTHER_FLOW_NODE_LABELS kind end;
     p_kind := kind |}.

Definition bumpRank (value : Z) (r : FlowNodeRank) : FlowNodeRank :=
  {| r_node := r_node r; r_value := r_value r + value |}.

Definition addTotal (value : Z) (totals : list (FlowNodeKind * list (jstr * FlowNodeRank))) (node : FlowPathNode) :
    list (FlowNodeKind * list (jstr * FlowNodeRank)) :=
  match mget (p_kind node) totals with
  | None => totals
  | Some stageTotals =>
      mset (p_kind node) (upsert (p_id node) {| r_node := node; r_value := 0 |} (bumpRank value) stageTotals) totals
  end.

Definition byRank (a b : FlowNodeRank) : Z :=
  cmp_or (r_value b - r_value a)
    (cmp_or (localeCompare (p_label (r_node a)) (p_label (r_node b)))
            (localeCompare (p_id (r_node a)) (p_id (r_node b)))).

Definition stageTotalsOf (rows : list FlowQuotaDataItem) (metric : FlowMetric) (stages : list FlowNodeKind)
    (ctx : FlowPathContext) : list (FlowNodeKind * list (jstr * FlowNodeRank)) :=
  foldl (fun totals row =>
      foldl (addTotal (metricValue (rowMetrics row) metric)) totals (flowPathForStages row stages ctx))
    (foldl (fun m stage => mset stage [] m) [] stages) rows.

Definition topIds (limit : Z) (stageTotals : list (jstr * FlowNodeRank)) : list jstr :=
  set_from (map (fun rank => p_id (r_node rank)) (take (Z.to_nat limit) (sort_by byRank (mvalues stageTotals)))).

Definition buildTopNodeSets (rows : list FlowQuotaDataItem) (metric : FlowMetric) (stages : list FlowNodeKind)
    (limit : option Z) (ctx : FlowPathContext) : option (list (FlowNodeKind * list jstr)) :=
  match limit with
  | None => None
  | Some limit =>
      if limit =? 0 then None
      else Some (foldl (fun topSets p => mset p.1 (topIds limit p.2) topSets) []
                   (stageTotalsOf rows metric stages ctx))
  end.

Definition isTopFlowNode (node : FlowPathNode) (topNodeSets : option (list (FlowNodeKind * list jstr))) : bool :=
  match topNodeSets with
  | None => true
  | Some sets => match mget (p_kind node) sets with
                 | None => true
                 | Some topNodes => bool_decide (p_id node ∈ topNodes)
                 end
  end.

Definition applyTopNodeLimit (p : list FlowPathNode) (topNodeSets : option (list (FlowNodeKind * list jstr)))
    (mode : FlowOverflowMode) (labeler : option (FlowNodeKind -> jstr)) : option (list FlowPathNode) :=
  match topNodeSets with
  | None => Some p
  | Some _ =>
      let containsOverflowNode := existsb (fun node => negb (isTopFlowNode node topNodeSets)) p in
      if negb containsOverflowNode then Some p
      else match mode with
           | Hide => None
           | Aggregate =>
               Some (map (fun node => if isTopFlowNode node topNodeSets then node
                                      else otherFlowNode (p_kind node) labeler) p)
           end
  end.

(** ** Highlighting and masking *)

Definition pathContainsFlowNode (p : list FlowPathNode) (filter : FlowNodeFilter) : bool :=
  existsb (fun node => (p_kind node === f_kind filter) && (p_id node === f_id filter)) p.

Definition pathContainsFlowLink (p : list FlowPathNode) (link : FlowLinkSelection) : bool :=
  existsb (fun '(a, b) => (p_id a === s_source link) && (p_id b === s_target link)) (steps p).

Definition matchesPath (activeNode : option FlowNodeFilter) (activeLink : option FlowLinkSelection)
    (p : list FlowPathNode) : bool :=
  match activeLink with
  | Some link => pathContainsFlowLink p link
  | None => match activeNode with Some n => pathContainsFlowNode p n | None => false end
  end.

Definition addHighlights (s : FlowHighlightSets) (p : list FlowPathNode) : FlowHighlightSets :=
  {| h_nodes := foldl (fun s node => set_add (p_id node) s) (h_nodes s) p;
     h_links := foldl (fun s '(a, b) => set_add (pathLinkKey a b) s) (h_links s) (steps p) |}.

Definition buildFlowHighlightSets (preparedPaths : list PreparedFlowPath) (activeNode : option FlowNodeFilter)
    (activeLink : option FlowLinkSelection) (stages : list FlowNodeKind) : option FlowHighlightSets :=
  let nodeActive := match activeNode with Some n => bool_decide (f_kind n ∈ stages) | None => false end in
  if negb nodeActive && (match activeLink with None => true | Some _ => false end) then None
  else
    let sets := foldl (fun s prepared => if matchesPath activeNode activeLink (path prepared)
                                         then addHighlights s (path prepared) else s)
                  {| h_nodes := []; h_links := [] |} preparedPaths in
    match h_nodes sets with [] => None | _ => Some sets end.

Definition FLOW_MASK_TEXT : jstr := [8226; 8226; 8226; 8226]%N.

Definition maskFlowLabel (label : jstr) : jstr :=
  match label with [] => label | _ => FLOW_MASK_TEXT end.

Definition setLabel (label : jstr) (n : DashboardFlowNode) : DashboardFlowNode :=
  {| n_id := n_id n; n_label := label; n_kind := n_kind n; n_value := n_value n; n_requests := n_requests n;
     n_quota := n_quota n; n_tokens := n_tokens n; n_color := n_color n; n_colorKey := n_colorKey n;
     n_highlighted := n_highlighted n; n_dimmed := n_dimmed n |}.

Definition setEndLabels (source target : jstr) (l : DashboardFlowLink) : DashboardFlowLink :=
  {| l_source := l_source l; l_target := l_target l; l_value := l_value l; l_requests := l_requests l;
     l_quota := l_quota l; l_tokens := l_tokens l; l_sourceLabel := source; l_targetLabel := target;
     l_color := l_color l; l_linkColor := l_linkColor l; l_linkAlpha := l_linkAlpha l;
     l_hoverColor := l_hoverColor l; l_colorKey := l_colorKey l; l_share := l_share l;
     l_highlighted := l_highlighted l; l_dimmed := l_dimmed l |}.

Definition isMaskedNode (n : DashboardFlowNode) : bool :=
  bool_decide (n_kind n ∈ SENSITIVE_FLOW_KINDS) && negb (bool_decide (n_id n ∈ OTHER_FLOW_NODE_ID_SET)).

Definition maskedById (ns : list (jstr * DashboardFlowNode)) : list (jstr * jstr) :=
  foldl (fun m p => if isMaskedNode p.2 then mset (n_id p.2) (maskFlowLabel (n_label p.2)) m else m) [] ns.

Definition maskFlowGraphLabels (ns : list (jstr * DashboardFlowNode)) (ls : list (jstr * DashboardFlowLink)) :
    list (jstr * DashboardFlowNode) * list (jstr * DashboardFlowLink) :=
  let masked := maskedById ns in
  let ns' := map (fun p => (p.1, if isMaskedNode p.2 then setLabel (maskFlowLabel (n_label p.2)) p.2 else p.2)) ns in
  match masked with
  | [] => (ns', ls)
  | _ => (ns', map (fun p =>
             let l := p.2 in
             (p.1, setEndLabels (default (l_sourceLabel l) (mget (l_source l) masked))
                     (default (l_targetLabel l) (mget (l_target l) masked)) l)) ls)
  end.

Definition setNodeHighlight (h : bool) (n : DashboardFlowNode) : DashboardFlowNode :=
  {| n_id := n_id n; n_label := n_label n; n_kind := n_kind n; n_value := n_value n;
     n_requests := n_requests n; n_quota := n_quota n; n_tokens := n_tokens n; n_color := n_color n;
     n_colorKey := n_colorKey n; n_highlighted := Some h; n_dimmed := Some (negb h) |}.

Definition setLinkHighlight (h : bool) (l : DashboardFlowLink) : DashboardFlowLink :=
  {| l_source := l_source l; l_target := l_target l; l_value := l_value l; l_requests := l_requests l;
     l_quota := l_quota l; l_tokens := l_tokens l; l_sourceLabel := l_sourceLabel l;
     l_targetLabel := l_targetLabel l; l_color := l_color l; l_linkColor := l_linkColor l;
     l_linkAlpha := l_linkAlpha l; l_hoverColor := l_hoverColor l; l_colorKey := l_colorKey l;
     l_share := l_share l; l_highlighted := Some h; l_dimmed := Some (negb h) |}.

Definition applyFlowHighlights (ns : list (jstr * DashboardFlowNode)) (ls : list (jstr * DashboardFlowLink))
    (sets : option FlowHighlightSets) : list (jstr * DashboardFlowNode) * list (jstr * DashboardFlowLink) :=
  match sets with
  | None => (ns, ls)
  | Some s =>
      (map (fun p => (p.1, setNodeHighlight (bool_decide (n_id p.2 ∈ h_nodes s)) p.2)) ns,
       map (fun p => (p.1, setLinkHighlight (bool_decide (linkStableKey p.2 ∈ h_links s)) p.2)) ls)
  end.

(** ** The graph *)

Definition preparePaths (rows : list FlowQuotaDataItem) (stages : list FlowNodeKind) (ctx : FlowPathContext)
    (topNodeSets : option (list (FlowNodeKind * list jstr))) (mode : FlowOverflowMode)
    (labeler : option (FlowNodeKind -> jstr)) : list PreparedFlowPath :=
  foldl (fun prepared row =>
    match applyTopNodeLimit (flowPathForStages row stages ctx) topNodeSets mode labeler with
    | None => prepared
    | Some p => prepared ++ [{| path := p; metrics := rowMetrics row |}]
    end) [] rows.

(** [preparedPaths.map(p => p.path[0]?.id).filter(Boolean)] *)
Definition rootIds (preparedPaths : list PreparedFlowPath) : list jstr :=
  List.filter truthy_str (omap (fun prepared => p_id <$> head (path prepared)) preparedPaths).

Definition addPath (metric : FlowMetric) (colors : list (jstr * jstr)) (palette : option (list jstr))
    (st : list (jstr * DashboardFlowNode) * list (jstr * DashboardFlowLink)) (prepared : PreparedFlowPath) :
    list (jstr * DashboardFlowNode) * list (jstr * DashboardFlowLink) :=
  match path prepared with
  | [] => st
  | root :: _ =>
      let color := default (colorAt 0 palette) (mget (p_id root) colors) in
      (foldl (fun ns node => addNode ns node (metrics prepared) metric color (p_id root)) st.1 (path prepared),
       foldl (fun ls '(source, target) => addLink ls source target (metrics prepared) metric color (p_id root))
         st.2 (steps (path prepared)))
  end.

Definition setShare (share : number) (l : DashboardFlowLink) : DashboardFlowLink :=
  {| l_source := l_source l; l_target := l_target l; l_value := l_value l; l_requests := l_requests l;
     l_quota := l_quota l; l_tokens := l_tokens l; l_sourceLabel := l_sourceLabel l;
     l_targetLabel := l_targetLabel l; l_color := l_color l; l_linkColor := l_linkColor l;
     l_linkAlpha := l_linkAlpha l; l_hoverColor := l_hoverColor l; l_colorKey := l_colorKey l;
     l_share := share; l_highlighted := l_highlighted l; l_dimmed := l_dimmed l |}.

Definition byEnds (a b : DashboardFlowLink) : Z :=
  cmp_or (localeCompare (l_source a) (l_source b)) (localeCompare (l_target a) (l_target b)).

Definition linkTotal (firstStepSources : list jstr) (ls : list DashboardFlowLink) : Z :=
  foldl (fun sum l => sum + l_value l) 0
    (List.filter (fun l => bool_decide (l_source l ∈ firstStepSources)) ls).

Definition shareOf (total value : Z) : number :=
  if 0 <? total then num_div (num_of_Z value) (num_of_Z total) else num_zero.

Definition buildFlowGraph (rows : list FlowQuotaDataItem) (metric : FlowMetric) (role : FlowRole)
    (palette : option (list jstr)) (visibleStages : option (list FlowNodeKind)) (ctx : FlowPathContext)
    (options : FlowGraphOptions) : DashboardFlowGraph :=
  let stages := resolveVisibleStages role visibleStages in
  let topNodeSets :=
    buildTopNodeSets rows metric stages (normalizeTopNodeLimit (topNodeLimit options)) ctx in
  let mode := default DEFAULT_FLOW_OVERFLOW_MODE (overflowMode options) in
  let preparedPaths := preparePaths rows stages ctx topNodeSets mode (otherNodeLabel options) in
  let colors := stableColorMap (sort_by localeCompare (rootIds preparedPaths)) palette in
  let built := foldl (addPath metric colors palette) ([], []) preparedPaths in
  let masked := if maskSensitive options then maskFlowGraphLabels built.1 built.2 else built in
  let lit := applyFlowHighlights masked.1 masked.2
               (buildFlowHighlightSets preparedPaths (activeNode options) (activeLink options) stages) in
  let flowLinks := sort_by byEnds (mvalues lit.2) in
  let firstStepSources := set_from (rootIds preparedPaths) in
  let total := linkTotal firstStepSources flowLinks in
  let shared := map (fun l => setShare (shareOf total (l_value l)) l) flowLinks in
  {| nodes := sort_by byValueThenLabel (mvalues lit.1); links := assignLinkDisplayColors shared |}.

(** ** Filter options and the whole dashboard data *)

Record UserTotal := mkUserTotal { ut_label : jstr; ut_value : Z; ut_color : jstr }.

Definition addUser (metric : FlowMetric) (colors : list (jstr * jstr)) (palette : option (list jstr))
    (users : list (jstr * UserTotal)) (row : FlowQuotaDataItem) : list (jstr * UserTotal) :=
  let user := userNode row in
  if (numberValue (user_id row) =? 0) && negb (truthy_str (default [] (username row))) then users
  else
    let value := metricValue (rowMetrics row) metric in
    upsert (p_id user)
      {| ut_label := p_label user; ut_value := 0; ut_color := default (colorAt 0 palette) (mget (p_id user) colors) |}
      (fun t => {| ut_label := ut_label t; ut_value := ut_value t + value; ut_color := ut_color t |}) users.

Definition byUserOption (a b : FlowUserFilterOption) : Z :=
  cmp_or (uo_valueRaw b - uo_valueRaw a) (localeCompare (uo_label a) (uo_label b)).

Definition buildUserFilterOptions (rows : list FlowQuotaDataItem) (metric : FlowMetric)
    (palette : option (list jstr)) : list FlowUserFilterOption :=
  let colors := stableColorMap (sort_by localeCompare (map (fun row => p_id (userNode row)) rows)) palette in
  let users := foldl (addUser metric colors palette) [] rows in
  sort_by byUserOption
    (map (fun '(value, user) =>
       {| uo_value := value; uo_label := ut_label user; uo_valueLabel := numberFormat (ut_value user);
          uo_valueRaw := ut_value user; uo_color := ut_color user |}) users).

Definition stageRanks (rows : list FlowQuotaDataItem) (metric : FlowMetric) (ctx : FlowPathContext)
    (stage : FlowNodeKind) : list (jstr * FlowNodeRank) :=
  foldl (fun totals row =>
    let value := metricValue (rowMetrics row) metric in
    let node := NODE_BUILDERS stage row ctx in
    upsert (nodeFilterKey {| f_kind := p_kind node; f_id := p_id node |}) {| r_node := node; r_value := 0 |}
      (bumpRank value) totals) [] rows.

Definition stageOptions (rows : list FlowQuotaDataItem) (metric : FlowMetric) (stages : list FlowNodeKind)
    (palette : option (list jstr)) (ctx : FlowPathContext) (selectedNodes : option (list FlowNodeFilter))
    (colors : list (jstr * jstr)) (stage : FlowNodeKind) : list FlowNodeFilterOption :=
  let candidateRows := filterRowsByNodes rows (selectedNodeFiltersExceptKind selectedNodes stage) stages ctx in
  map (fun rank =>
    {| no_kind := p_kind (r_node rank); no_value := p_id (r_node rank); no_label := p_label (r_node rank);
       no_valueLabel := numberFormat (r_value rank); no_valueRaw := r_value rank;
       no_color := default (colorAt 0 palette) (mget (p_id (r_node rank)) colors) |})
    (mvalues (stageRanks candidateRows metric ctx stage)).

Definition stageOrder (stages : list FlowNodeKind) (kind : FlowNodeKind) : Z :=
  default 0 (mget kind (foldl (fun m p => mset p.2 (Z.of_nat p.1) m) [] (zip (seq 0 (length stages)) stages))).

Definition byNodeOption (stages : list FlowNodeKind) (a b : FlowNodeFilterOption) : Z :=
  cmp_or (stageOrder stages (no_kind a) - stageOrder stages (no_kind b))
    (cmp_or (no_valueRaw b - no_valueRaw a)
      (cmp_or (localeCompare (no_label a) (no_label b)) (localeCompare (no_value a) (no_value b)))).

Definition buildNodeFilterOptions (rows : list FlowQuotaDataItem) (metric : FlowMetric) (role : FlowRole)
    (visibleStages : option (list FlowNodeKind)) (palette : option (list jstr)) (ctx : FlowPathContext)
    (selectedNodes : option (list FlowNodeFilter)) : list FlowNodeFilterOption :=
  let stages := resolveVisibleStages role visibleStages in
  let colorIds := set_from (concat (map (fun row => map p_id (flowPathForStages row stages ctx)) rows)) in
  let colors := stableColorMap (sort_by localeCompare colorIds) palette in
  sort_by (byNodeOption stages)
    (concat (map (stageOptions rows metric stages palette ctx selectedNodes colors) stages)).

Definition buildFlowFilterOptions (rows : list FlowQuotaDataItem) (metric : FlowMetric)
    (palette : option (list jstr)) (role : FlowRole) (visibleStages : option (list FlowNodeKind))
    (selectedNodes : option (list FlowNodeFilter)) : FlowFilterOptions :=
  {| fo_users := buildUserFilterOptions rows metric palette;
     fo_nodes := buildNodeFilterOptions rows metric role visibleStages palette EMPTY_FLOW_PATH_CONTEXT selectedNodes |}.

Definition buildDashboardFlowData (rows : list FlowQuotaDataItem) (metric : FlowMetric)
    (options : FlowBuildOptions) : ProcessedFlowData :=
  let role := default DEFAULT_FLOW_ROLE (o_role options) in
  let palette := o_colorPalette options in
  let ctx := {| deletedToken := o_deletedTokenLabel options |} in
  let stages := resolveVisibleStages role (o_visibleStages options) in
  let userFilteredRows := filterRows rows (o_selectedUsers options) in
  let filteredRows := filterRowsByNodes userFilteredRows (o_selectedNodes options) stages ctx in
  {| summary := buildSummary filteredRows;
     flow := buildFlowGraph filteredRows metric role palette (o_visibleStages options) ctx (o_graph options);
     filterOptions :=
       {| fo_users := buildUserFilterOptions rows metric palette;
          fo_nodes := buildNodeFilterOptions userFilteredRows metric role (o_visibleStages options) palette ctx
                        (o_selectedNodes options) |} |}.

End FlowGraph.
