(* ===== verification/FlowCorrect.v ===== *)
(** * Correctness of the usage-flow graph

    The graph conserves what it aggregates: every column totals the summary,
    what flows into and out of a node is the node's value, a limit bounds the
    nodes of a column without losing traffic, masking changes labels only, and
    the filters keep exactly the rows the selection describes. *)
From stdpp Require Import prelude list strings.
From S2P Require Import Prelude JsString JsNumber JsMap FlowGraph.
Open Scope Z_scope.

(** ** Ids carry their kind *)

Definition kindPrefix (k : FlowNodeKind) : jstr :=
  match k with
  | KUser => js "user:" | KNode => js "node:" | KToken => js "token:"
  | KGroup => js "group:" | KModel => js "model:" | KChannel => js "channel:"
  end.

Definition hasKind (k : FlowNodeKind) (id : jstr) : bool := starts_with (kindPrefix k) id.
Definition wellKinded (n : FlowPathNode) : Prop := hasKind (p_kind n) (p_id n) = true.

Lemma hasKind_inj k k' id : hasKind k id = true -> hasKind k' id = true -> k = k'.
Proof.
  unfold hasKind. intros (t & ->)%starts_with_spec H.
  destruct k, k'; first [reflexivity | vm_compute in H; discriminate].
Qed.

Lemma builder_kind k row ctx : p_kind (NODE_BUILDERS k row ctx) = k.
Proof. by destruct k. Qed.

Lemma builder_wellKinded k row ctx : wellKinded (NODE_BUILDERS k row ctx).
Proof.
  unfold wellKinded, hasKind. rewrite builder_kind.
  destruct k; cbn [NODE_BUILDERS kindPrefix userNode nodeNameNode tokenNode groupNode modelNode channelNode p_id];
    repeat case_if; apply starts_with_app.
Qed.

Lemma other_wellKinded k f : wellKinded (otherFlowNode k f).
Proof. by destruct k. Qed.

Lemma wellKinded_kind n k : wellKinded n -> hasKind k (p_id n) = bool_decide (p_kind n = k).
Proof.
  intros H. case_bool_decide as E; [by subst|].
  destruct (hasKind k (p_id n)) eqn:E'; [|done]. destruct E. by eapply hasKind_inj.
Qed.

(** ** Prepared paths *)

Lemma filter_sub {A} (p : A -> bool) l x : x ∈ List.filter p l <-> x ∈ l /\ p x = true.
Proof. rewrite !list_elem_of_In. apply filter_In. Qed.

Lemma concat_map_sub {A B} (f : A -> list B) l y : y ∈ concat (map f l) <-> exists x, x ∈ l /\ y ∈ f x.
Proof.
  rewrite list_elem_of_In, <- flat_map_concat_map, in_flat_map.
  split; intros (x & Hx & Hy); exists x; by rewrite ?list_elem_of_In in *.
Qed.

Lemma stages_role role vs k : k ∈ resolveVisibleStages role vs -> k ∈ getFlowStages role.
Proof.
  unfold resolveVisibleStages. destruct vs; [|done]. case_if; [|done].
  by intros [? _]%filter_sub.
Qed.

Lemma stages_min role vs : (2 <= length (resolveVisibleStages role vs))%nat.
Proof.
  unfold resolveVisibleStages. destruct vs as [vs|]; [|destruct role; simpl; lia].
  case_if; [by apply Nat.leb_le in Heqb|destruct role; simpl; lia].
Qed.

Lemma stages_NoDup role vs : NoDup (resolveVisibleStages role vs).
Proof.
  assert (H : NoDup (getFlowStages role)).
  { apply (bool_decide_unpack _). by destruct role. }
  unfold resolveVisibleStages. destruct vs; [|done]. case_if; [by apply filter_NoDup|done].
Qed.

Definition preparedPath ctx stages sets mode labeler (row : FlowQuotaDataItem) : option PreparedFlowPath :=
  (fun p => {| path := p; metrics := rowMetrics row |}) <$>
    applyTopNodeLimit (flowPathForStages row stages ctx) sets mode labeler.

Lemma preparePaths_omap rows stages ctx sets mode labeler :
  preparePaths rows stages ctx sets mode labeler = omap (preparedPath ctx stages sets mode labeler) rows.
Proof.
  unfold preparePaths.
  match goal with |- foldl ?f _ _ = _ => enough (H : forall acc, foldl f acc rows =
    acc ++ omap (preparedPath ctx stages sets mode labeler) rows) by apply H end.
  induction rows as [|row rows IH]; intros acc; simpl; [by rewrite app_nil_r|].
  rewrite IH. unfold preparedPath at 2.
  destruct (applyTopNodeLimit _ _ _ _); simpl; [by rewrite <- app_assoc|done].
Qed.

(** A path of the prepared list has one node of each stage, in order. *)
Definition pathShape (stages : list FlowNodeKind) (p : list FlowPathNode) : Prop :=
  map p_kind p = stages /\ Forall wellKinded p.

Lemma row_shape row stages ctx : pathShape stages (flowPathForStages row stages ctx).
Proof.
  unfold pathShape, flowPathForStages. rewrite map_map. split.
  - rewrite (map_ext _ id); [apply map_id|]. intros k. apply builder_kind.
  - apply Forall_map, Forall_true. intros k. apply builder_wellKinded.
Qed.

Lemma limit_shape p stages sets mode labeler p' :
  pathShape stages p -> applyTopNodeLimit p sets mode labeler = Some p' -> pathShape stages p'.
Proof.
  unfold applyTopNodeLimit. intros [H1 H2]. destruct sets as [sets|]; [|by intros [= <-]].
  case_if; [by intros [= <-]|]. destruct mode; [|done]. intros [= <-]. split.
  - rewrite map_map, <- H1. apply map_ext. intros n. by case_if.
  - apply Forall_map. eapply Forall_impl; [exact H2|]. intros n Hn. simpl.
    case_if; [done|apply other_wellKinded].
Qed.

Lemma prepared_shape rows stages ctx sets mode labeler :
  Forall (fun pp => pathShape stages (path pp)) (preparePaths rows stages ctx sets mode labeler).
Proof.
  rewrite preparePaths_omap. apply Forall_forall. intros pp (row & _ & H)%list_elem_of_omap.
  unfold preparedPath in H. destruct (applyTopNodeLimit _ _ _ _) eqn:E; simplify_eq/=.
  eapply limit_shape; [apply row_shape|done].
Qed.

(** Without hiding, every row keeps its path. *)
Lemma prepared_metrics rows stages ctx sets mode labeler :
  sets = None \/ mode = Aggregate ->
  map metrics (preparePaths rows stages ctx sets mode labeler) = map rowMetrics rows.
Proof.
  intros H. rewrite preparePaths_omap. induction rows as [|row rows IH]; simpl; [done|].
  assert (E : exists p, preparedPath ctx stages sets mode labeler row = Some {| path := p; metrics := rowMetrics row |}).
  { unfold preparedPath, applyTopNodeLimit. destruct sets; [|by eexists].
    destruct H as [H|H]; [done|subst mode]. case_if; by eexists. }
  destruct E as (p & E); rewrite E. simpl. f_equal. exact IH.
Qed.

(** ** Building is accumulation *)

Notation nodeEvent := (FlowPathNode * FlowMetrics * jstr * jstr)%type.
Notation linkEvent := (FlowPathNode * FlowPathNode * FlowMetrics * jstr * jstr)%type.

Definition nodeKey (e : nodeEvent) : jstr := p_id e.1.1.1.
Definition nodeInit (e : nodeEvent) : DashboardFlowNode := newNode e.1.1.1 e.1.2 e.2.
Definition nodeStep (metric : FlowMetric) (e : nodeEvent) : DashboardFlowNode -> DashboardFlowNode :=
  bumpNode e.1.1.2 metric.
Definition linkKey (e : linkEvent) : jstr := pathLinkKey e.1.1.1.1 e.1.1.1.2.
Definition linkInit (e : linkEvent) : DashboardFlowLink := newLink e.1.1.1.1 e.1.1.1.2 e.1.2 e.2.
Definition linkStep (metric : FlowMetric) (e : linkEvent) : DashboardFlowLink -> DashboardFlowLink :=
  bumpLink e.1.1.2 metric.

Section Events.
Context (schemeHead : option Z * list (option jstr)) (schemeTail : list (option Z * list (option jstr))).
Context (metric : FlowMetric) (colors : list (jstr * jstr)) (palette : option (list jstr)).

Definition rootColor (root : FlowPathNode) : jstr :=
  default (colorAt schemeHead schemeTail 0 palette) (mget (p_id root) colors).

Definition nodeEvents (pp : PreparedFlowPath) : list nodeEvent :=
  match path pp with
  | [] => []
  | root :: _ => map (fun n => (n, metrics pp, rootColor root, p_id root)) (path pp)
  end.

Definition linkEvents (pp : PreparedFlowPath) : list linkEvent :=
  match path pp with
  | [] => []
  | root :: _ => map (fun s => (s, metrics pp, rootColor root, p_id root)) (steps (path pp))
  end.

Lemma foldl_map' {A B C} (f : A -> B -> A) (g : C -> B) l a :
  foldl f a (map g l) = foldl (fun a c => f a (g c)) a l.
Proof. revert a. by induction l; intros; simpl. Qed.

Lemma addPath_accumulate pps st :
  foldl (addPath schemeHead schemeTail metric colors palette) st pps =
  (accumulate nodeKey nodeInit (nodeStep metric) st.1 (concat (map nodeEvents pps)),
   accumulate linkKey linkInit (linkStep metric) st.2 (concat (map linkEvents pps))).
Proof.
  revert st. induction pps as [|pp pps IH]; intros st; [by destruct st|].
  cbn [foldl map concat]. rewrite IH. unfold accumulate. rewrite !foldl_app.
  assert (E : addPath schemeHead schemeTail metric colors palette st pp =
    (foldl (acc_add nodeKey nodeInit (nodeStep metric)) st.1 (nodeEvents pp),
     foldl (acc_add linkKey linkInit (linkStep metric)) st.2 (linkEvents pp))); [|by rewrite E].
  unfold addPath, nodeEvents, linkEvents. destruct (path pp) as [|root ns]; [by destruct st|].
  rewrite !foldl_map'. f_equal.
  generalize st.2. by induction (steps (root :: ns)) as [|[a b] l IHl]; intros ls; simpl; [|rewrite IHl].
Qed.

End Events.

(** ** Additive measures of nodes and links *)

(** [nodeCore] and [linkCore] forget what display passes change. *)
Definition nodeCore (n : DashboardFlowNode) : DashboardFlowNode :=
  {| n_id := n_id n; n_label := []; n_kind := n_kind n; n_value := n_value n; n_requests := n_requests n;
     n_quota := n_quota n; n_tokens := n_tokens n; n_color := n_color n; n_colorKey := n_colorKey n;
     n_highlighted := None; n_dimmed := None |}.

Definition linkCore (l : DashboardFlowLink) : DashboardFlowLink :=
  {| l_source := l_source l; l_target := l_target l; l_value := l_value l; l_requests := l_requests l;
     l_quota := l_quota l; l_tokens := l_tokens l; l_sourceLabel := []; l_targetLabel := [];
     l_color := l_color l; l_linkColor := []; l_linkAlpha := num_zero; l_hoverColor := [];
     l_colorKey := l_colorKey l; l_share := num_zero; l_highlighted := None; l_dimmed := None |}.

Class NodeMeasure (metric : FlowMetric) (mu : DashboardFlowNode -> Z) (w : FlowMetrics -> Z) : Prop := {
  nm_new : forall n c k, mu (newNode n c k) = 0;
  nm_bump : forall m n, mu (bumpNode m metric n) = mu n + w m;
  nm_core : forall n, mu (nodeCore n) = mu n }.

#[export] Instance value_measure metric : NodeMeasure metric n_value (fun m => metricValue m metric).
Proof. by constructor. Qed.
#[export] Instance requests_measure metric : NodeMeasure metric n_requests m_requests.
Proof. by constructor. Qed.
#[export] Instance quota_measure metric : NodeMeasure metric n_quota m_quota.
Proof. by constructor. Qed.
#[export] Instance tokens_measure metric : NodeMeasure metric n_tokens m_tokens.
Proof. by constructor. Qed.

Lemma sum_by_core {A} (core : A -> A) (f : A -> Z) l l' :
  (forall x, f (core x) = f x) -> Permutation (map core l) (map core l') -> sum_by f l = sum_by f l'.
Proof.
  intros H Hp. apply (sum_by_perm f) in Hp. rewrite !sum_by_map in Hp.
  rewrite (sum_by_ext f (fun x => f (core x)) l), (sum_by_ext f (fun x => f (core x)) l'); [done|..];
    apply Forall_true; intros; by rewrite H.
Qed.

(** Display passes keep the cores. *)
Lemma alter_core {A B} (core : A -> B) (f : A -> A) i l :
  (forall x, core (f x) = core x) -> map core (alter f i l) = map core l.
Proof.
  intros H. revert i. induction l as [|x l IH]; intros [|i]; simpl; try done; [by rewrite H|].
  f_equal. apply IH.
Qed.

(** Colouring keeps every projection that [setDisplay] keeps. *)
Lemma colorGroup_proj {B} (core : DashboardFlowLink -> B) lc ls g :
  (forall c l, core (setDisplay c l) = core l) -> map core (colorGroup lc ls g) = map core ls.
Proof.
  intros H. unfold colorGroup. cbv zeta. generalize (sort_by (fun i j => match ls !! i with
    | Some a => match ls !! j with Some b => byLinkValue lc a b | None => 0 end | None => 0 end) g).
  intros s. generalize (length s) at 1. intros n.
  set (L := zip _ _). clearbody L. revert ls. induction L as [|p L IH]; intros ls; simpl; [done|].
  rewrite IH. by apply alter_core.
Qed.

Lemma assign_proj {B} (core : DashboardFlowLink -> B) lc ls :
  (forall c l, core (setDisplay c l) = core l) -> map core (assignLinkDisplayColors lc ls) = map core ls.
Proof.
  intros H. unfold assignLinkDisplayColors. generalize (mvalues (linksBySource ls)). intros gs.
  revert ls. induction gs as [|g gs IH]; intros ls; simpl; [done|].
  by rewrite IH, colorGroup_proj.
Qed.

Lemma values_core {K V} (core : V -> V) (f : K * V -> V) (m : list (K * V)) :
  (forall p, core (f p) = core p.2) ->
  map core (mvalues (map (fun p => (p.1, f p)) m)) = map core (mvalues m).
Proof. intros H. unfold mvalues. rewrite !map_map. apply map_ext. intros p. apply H. Qed.

Lemma mask_core ns ls :
  map nodeCore (mvalues (maskFlowGraphLabels ns ls).1) = map nodeCore (mvalues ns) /\
  map linkCore (mvalues (maskFlowGraphLabels ns ls).2) = map linkCore (mvalues ls).
Proof.
  unfold maskFlowGraphLabels. split.
  - replace (match maskedById ns with [] => _ | _ => _ end.1) with
      (map (fun p => (p.1, if isMaskedNode p.2 then setLabel (maskFlowLabel (n_label p.2)) p.2 else p.2)) ns)
      by by destruct (maskedById ns).
    apply values_core. intros p. by case_if.
  - destruct (maskedById ns) as [|e m]; [done|]. by apply values_core.
Qed.

Lemma highlight_core ns ls sets :
  map nodeCore (mvalues (applyFlowHighlights ns ls sets).1) = map nodeCore (mvalues ns) /\
  map linkCore (mvalues (applyFlowHighlights ns ls sets).2) = map linkCore (mvalues ls).
Proof. destruct sets; [|done]. split; by apply values_core. Qed.

(** ** NUL-free names *)

Definition nulFree (s : jstr) : Prop := 0%N ∉ s.
Definition rowNames (row : FlowQuotaDataItem) : list (option jstr) :=
  [username row; node_name row; use_group row; token_name row; channel_name row; model_name row].
Definition namesNulFree (row : FlowQuotaDataItem) : Prop :=
  Forall (fun o => nulFree (default [] o)) (rowNames row).

#[export] Instance namesNulFree_dec row : Decision (namesNulFree row).
Proof. unfold namesNulFree, nulFree. apply _. Defined.

Lemma nulFree_app s t : nulFree (s ++ t) <-> nulFree s /\ nulFree t.
Proof. unfold nulFree. rewrite elem_of_app. naive_solver. Qed.

Lemma nulFree_print_int z : nulFree (print_int z).
Proof.
  assert (D : forall n, 0 <= n -> nulFree (print_nat_dec n)).
  { intros n Hn H. pose proof (all_digits_Forall _ (print_nat_dec_all_digits n Hn)) as F.
    rewrite Forall_forall in F. apply F in H. done. }
  unfold print_int. case_if; [|apply D; bool_hyps; lia].
  intros [H|H]%elem_of_cons; [done|]. apply D in H; [done|]. bool_hyps. lia.
Qed.

Lemma nulFree_opt_or o d : nulFree (default [] o) -> nulFree d -> nulFree (opt_or o d).
Proof. intros ? ?. unfold opt_or, str_or. by case_if. Qed.

Ltac nul_lit := apply (bool_decide_unpack _); vm_compute; exact I.

Lemma builder_nulFree k row ctx : namesNulFree row -> nulFree (p_id (NODE_BUILDERS k row ctx)).
Proof.
  unfold namesNulFree, rowNames. rewrite !Forall_cons. intros (H1 & H2 & H3 & H4 & H5 & H6 & _).
  destruct k; cbn [NODE_BUILDERS userNode nodeNameNode tokenNode groupNode modelNode channelNode p_id];
    repeat case_if; apply nulFree_app;
    (split; [nul_lit|first [apply nulFree_print_int | apply nulFree_opt_or; [assumption|nul_lit]]]).
Qed.

Lemma other_nulFree k f : nulFree (p_id (otherFlowNode k f)).
Proof. destruct k; nul_lit. Qed.

Lemma limit_nulFree p sets mode labeler p' :
  Forall (fun n => nulFree (p_id n)) p -> applyTopNodeLimit p sets mode labeler = Some p' ->
  Forall (fun n => nulFree (p_id n)) p'.
Proof.
  unfold applyTopNodeLimit. intros H. destruct sets as [sets|]; [|by intros [= <-]].
  case_if; [by intros [= <-]|]. destruct mode; [|done]. intros [= <-].
  apply Forall_map. eapply Forall_impl; [exact H|]. intros n Hn. simpl. case_if; [done|apply other_nulFree].
Qed.

Lemma prepared_nulFree rows stages ctx sets mode labeler :
  Forall namesNulFree rows ->
  Forall (fun pp => Forall (fun n => nulFree (p_id n)) (path pp)) (preparePaths rows stages ctx sets mode labeler).
Proof.
  intros H. rewrite preparePaths_omap. apply Forall_forall. intros pp (row & Hrow & E)%list_elem_of_omap.
  unfold preparedPath in E. destruct (applyTopNodeLimit _ _ _ _) eqn:E'; simplify_eq/=.
  eapply limit_nulFree; [|done]. apply Forall_map, Forall_true. intros k. apply builder_nulFree.
  rewrite Forall_forall in H. by apply H.
Qed.

(** The ends of a link, read off its key. *)
Fixpoint keyEnds (k : jstr) : jstr * jstr :=
  match k with
  | [] => ([], [])
  | c :: k' => if (c =? 0)%N then ([], k') else let '(s, t) := keyEnds k' in (c :: s, t)
  end.

Lemma keyEnds_app s t : nulFree s -> keyEnds (s ++ 0%N :: t) = (s, t).
Proof.
  induction s as [|c s IH]; simpl; intros H; [done|].
  apply not_elem_of_cons in H as [Hc Hs]. destruct (c =? 0)%N eqn:E; [bool_hyps; congruence|].
  by rewrite IH.
Qed.

(** ** The graph of a set of rows *)

Section Graph.
Context (localeCompare : jstr -> jstr -> Z).
Context (schemeHead : option Z * list (option jstr)) (schemeTail : list (option Z * list (option jstr))).
Context (rows : list FlowQuotaDataItem) (metric : FlowMetric) (role : FlowRole)
  (palette : option (list jstr)) (visible : option (list FlowNodeKind)) (ctx : FlowPathContext)
  (options : FlowGraphOptions).

Notation stages := (resolveVisibleStages role visible).
Definition topSets : option (list (FlowNodeKind * list jstr)) :=
  buildTopNodeSets localeCompare rows metric stages (normalizeTopNodeLimit (topNodeLimit options)) ctx.
Definition graphMode : FlowOverflowMode := default DEFAULT_FLOW_OVERFLOW_MODE (overflowMode options).
Definition graphPaths : list PreparedFlowPath :=
  preparePaths rows stages ctx topSets graphMode (otherNodeLabel options).
Definition graphColors : list (jstr * jstr) :=
  stableColorMap schemeHead schemeTail (sort_by localeCompare (rootIds graphPaths)) palette.
Definition allNodeEvents : list nodeEvent :=
  concat (map (nodeEvents schemeHead schemeTail graphColors palette) graphPaths).
Definition allLinkEvents : list linkEvent :=
  concat (map (linkEvents schemeHead schemeTail graphColors palette) graphPaths).
Definition builtNodes : list (jstr * DashboardFlowNode) :=
  accumulate nodeKey nodeInit (nodeStep metric) [] allNodeEvents.
Definition builtLinks : list (jstr * DashboardFlowLink) :=
  accumulate linkKey linkInit (linkStep metric) [] allLinkEvents.
Definition maskedMaps : list (jstr * DashboardFlowNode) * list (jstr * DashboardFlowLink) :=
  if maskSensitive options then maskFlowGraphLabels builtNodes builtLinks else (builtNodes, builtLinks).
Definition graphHighlights : option FlowHighlightSets :=
  buildFlowHighlightSets graphPaths (activeNode options) (activeLink options) stages.
Definition litMaps : list (jstr * DashboardFlowNode) * list (jstr * DashboardFlowLink) :=
  applyFlowHighlights maskedMaps.1 maskedMaps.2 graphHighlights.
Definition sortedLinks : list DashboardFlowLink := sort_by (byEnds localeCompare) (mvalues litMaps.2).
Definition graphTotal : Z := linkTotal (set_from (rootIds graphPaths)) sortedLinks.

Notation graph := (buildFlowGraph localeCompare schemeHead schemeTail rows metric role palette visible ctx options).

Lemma graph_unfold :
  graph = {| nodes := sort_by (byValueThenLabel localeCompare) (mvalues litMaps.1);
             links := assignLinkDisplayColors localeCompare
                        (map (fun l => setShare (shareOf graphTotal (l_value l)) l) sortedLinks) |}.
Proof.
  unfold buildFlowGraph. fold topSets graphMode graphPaths graphColors.
  rewrite addPath_accumulate. cbn [fst snd]. fold allNodeEvents allLinkEvents builtNodes builtLinks.
  fold maskedMaps graphHighlights litMaps sortedLinks graphTotal. done.
Qed.

Lemma graph_nodes_core : Permutation (map nodeCore (nodes graph)) (map nodeCore (mvalues builtNodes)).
Proof.
  rewrite graph_unfold. cbn [nodes]. rewrite sort_by_perm.
  unfold litMaps. rewrite (proj1 (highlight_core _ _ _)).
  unfold maskedMaps. case_if; [|done]. by rewrite (proj1 (mask_core _ _)).
Qed.

Lemma graph_links_core : Permutation (map linkCore (links graph)) (map linkCore (mvalues builtLinks)).
Proof.
  rewrite graph_unfold. cbn [links]. rewrite (assign_proj linkCore), map_map by done. cbn.
  rewrite (map_ext _ linkCore) by done. unfold sortedLinks. rewrite sort_by_perm.
  unfold litMaps. rewrite (proj2 (highlight_core _ _ _)).
  unfold maskedMaps. case_if; [|done]. by rewrite (proj2 (mask_core _ _)).
Qed.

(** Entries of the node map are stored under their id, with its kind. *)
Lemma builtNodes_entry :
  Forall (fun p => n_id p.2 = p.1 /\ hasKind (n_kind p.2) p.1 = true) builtNodes.
Proof.
  apply (accumulate_inv nodeKey nodeInit (nodeStep metric)
    (fun k v => n_id v = k /\ hasKind (n_kind v) k = true)); [done|].
  unfold allNodeEvents. apply Forall_concat, Forall_map.
  pose proof (prepared_shape rows stages ctx topSets graphMode (otherNodeLabel options)) as Hs.
  eapply Forall_impl; [exact Hs|]. intros pp [_ Hw]. unfold nodeEvents.
  destruct (path pp) as [|root ns]; [done|]. apply Forall_map.
  eapply Forall_impl; [exact Hw|]. intros n Hn. split; [done|]. by intros v ?.
Qed.

Lemma nodes_sum mu w `{!NodeMeasure metric mu w} (q : jstr -> bool) :
  sum_by (fun n => if q (n_id n) then mu n else 0) (nodes graph) =
  sum_by (fun pp => sum_by (fun n => if q (p_id n) then w (metrics pp) else 0) (path pp)) graphPaths.
Proof.
  rewrite (sum_by_core nodeCore _ _ (mvalues builtNodes)); [| |apply graph_nodes_core].
  2: { intros n. by rewrite (nm_core (metric := metric)). }
  transitivity (msum q mu builtNodes).
  { unfold mvalues, msum. rewrite sum_by_map. apply sum_by_ext.
    eapply Forall_impl; [apply builtNodes_entry|]. by intros [k v] [-> _]. }
  unfold builtNodes. rewrite (accumulate_sum _ _ _ q mu (fun e => w e.1.1.2)).
  2: { intros e. apply nm_new. } 2: { intros e v. apply nm_bump. }
  cbn. unfold allNodeEvents. rewrite sum_by_concat_map. apply sum_by_ext, Forall_true.
  intros pp. unfold nodeEvents. destruct (path pp); [done|]. by rewrite sum_by_map.
Qed.

(** *** Links *)

Lemma steps_in {A} (p : list A) a b : (a, b) ∈ steps p -> a ∈ p /\ b ∈ p.
Proof.
  unfold steps. intros H. split.
  - by apply elem_of_zip_l in H.
  - apply elem_of_zip_r in H. destruct p; [done|]. apply elem_of_cons. by right.
Qed.

Lemma builtLinks_entry :
  Forall namesNulFree rows ->
  Forall (fun p => keyEnds p.1 = (l_source p.2, l_target p.2)) builtLinks.
Proof.
  intros Hn. apply (accumulate_inv linkKey linkInit (linkStep metric)
    (fun k v => keyEnds k = (l_source v, l_target v))); [done|].
  unfold allLinkEvents. apply Forall_concat, Forall_map.
  pose proof (prepared_nulFree rows stages ctx topSets graphMode (otherNodeLabel options) Hn) as Hs.
  eapply Forall_impl; [exact Hs|]. intros pp Hp. unfold linkEvents.
  destruct (path pp) as [|root ns] eqn:E; [done|]. apply Forall_map, Forall_forall. intros [a b] Hab.
  apply steps_in in Hab as [Ha _]. cbn beta in Hp. rewrite E, Forall_forall in Hp. apply Hp in Ha.
  split; [|by intros v ?]. by apply keyEnds_app.
Qed.

Lemma links_sum (q : jstr -> jstr -> bool) :
  Forall namesNulFree rows ->
  sum_by (fun l => if q (l_source l) (l_target l) then l_value l else 0) (links graph) =
  sum_by (fun pp => sum_by (fun s => if q (p_id s.1) (p_id s.2) then metricValue (metrics pp) metric else 0)
                      (steps (path pp))) graphPaths.
Proof.
  intros Hn. rewrite (sum_by_core linkCore _ _ (mvalues builtLinks)); [|done|apply graph_links_core].
  transitivity (msum (fun k => q (keyEnds k).1 (keyEnds k).2) l_value builtLinks).
  { unfold mvalues, msum. rewrite sum_by_map. apply sum_by_ext.
    eapply Forall_impl; [by apply builtLinks_entry|]. intros [k v] E. cbn in *. by rewrite E. }
  unfold builtLinks. rewrite (accumulate_sum _ _ _ _ _ (fun e => metricValue e.1.1.2 metric)) by done.
  cbn. unfold allLinkEvents. rewrite sum_by_concat_map. apply sum_by_ext.
  pose proof (prepared_nulFree rows stages ctx topSets graphMode (otherNodeLabel options) Hn) as Hs.
  eapply Forall_impl; [exact Hs|]. intros pp Hp. unfold linkEvents.
  destruct (path pp) as [|root ns] eqn:E; [done|]. rewrite sum_by_map. apply sum_by_ext, Forall_forall.
  intros [a b] [Ha _]%steps_in. cbn beta in Hp. rewrite E, Forall_forall in Hp. apply Hp in Ha.
  unfold linkKey, pathLinkKey. cbn. by rewrite keyEnds_app.
Qed.

(** The first and last elements aside, steps visit each node once at each end. *)
Lemma steps_targets (f : FlowPathNode -> Z) p :
  sum_by (fun s => f s.2) (steps p) = sum_by f (tail p).
Proof.
  unfold steps. rewrite <- sum_by_map. f_equal. destruct p as [|x p]; [done|]. cbn [tail].
  change (map snd) with (fmap (M := list) (@snd FlowPathNode FlowPathNode)). apply snd_zip. simpl. lia.
Qed.

Lemma steps_sources (f : FlowPathNode -> Z) p :
  sum_by (fun s => f s.1) (steps p) = sum_by f p - default 0 (f <$> last p).
Proof.
  unfold steps. induction p as [|x [|y p] IH]; simpl; [done|lia|].
  cbn [tail zip zip_with sum_by fst] in *. rewrite IH. cbn [sum_by]. 
  change (last (x :: y :: p)) with (last (y :: p)). lia.
Qed.

Lemma shape_head p k0 ks : pathShape (k0 :: ks) p -> exists r p', p = r :: p' /\ p_kind r = k0.
Proof. intros [H _]. destruct p as [|r p']; [done|]. simplify_eq/=. by exists r, p'. Qed.

Lemma shape_last p stages' k :
  pathShape stages' p -> last stages' = Some k -> exists r, last p = Some r /\ p_kind r = k.
Proof.
  intros [<- _]. change (map p_kind) with (fmap (M := list) p_kind). rewrite fmap_last.
  destruct (last p); simpl; [|done]. intros [= <-]. by eexists.
Qed.

Lemma shape_elem p stages' n : pathShape stages' p -> n ∈ p -> wellKinded n.
Proof. intros [_ H] Hn. rewrite Forall_forall in H. by apply H. Qed.

Lemma graph_node_built n : n ∈ nodes graph -> exists v, v ∈ mvalues builtNodes /\ nodeCore v = nodeCore n.
Proof.
  intros H. apply (list_elem_of_fmap_2 nodeCore) in H.
  change (nodeCore n ∈ map nodeCore (nodes graph)) in H. rewrite graph_nodes_core in H.
  apply list_elem_of_fmap in H as (v & E & Hv). by exists v.
Qed.

Lemma built_node_graph v : v ∈ mvalues builtNodes -> exists n, n ∈ nodes graph /\ nodeCore v = nodeCore n.
Proof.
  intros H. apply (list_elem_of_fmap_2 nodeCore) in H.
  change (nodeCore v ∈ map nodeCore (mvalues builtNodes)) in H. rewrite <- graph_nodes_core in H.
  apply list_elem_of_fmap in H as (n & E & Hn). by exists n.
Qed.

Lemma graph_node_kind n : n ∈ nodes graph -> hasKind (n_kind n) (n_id n) = true.
Proof.
  intros (v & Hv & E)%graph_node_built. injection E as E1 E2 _ _ _ _ _ _. rewrite <- E1, <- E2.
  apply list_elem_of_fmap in Hv as ([k v'] & -> & Hv). pose proof builtNodes_entry as F.
  rewrite Forall_forall in F. apply F in Hv as [-> Hk]. done.
Qed.

Lemma graph_kind_id n k : n ∈ nodes graph -> bool_decide (n_kind n = k) = hasKind k (n_id n).
Proof.
  intros H%graph_node_kind. case_bool_decide as E; [by subst|].
  destruct (hasKind k (n_id n)) eqn:E'; [|done]. destruct E. by eapply hasKind_inj.
Qed.

Lemma shape_stage_once p stages' k (c : Z) :
  pathShape stages' p -> NoDup stages' -> k ∈ stages' ->
  sum_by (fun n => if hasKind k (p_id n) then c else 0) p = c.
Proof.
  intros [<- Hw] Hd Hk. induction Hw as [|n p Hn Hw IH]; [by apply elem_of_nil in Hk|].
  cbn [map] in *. apply NoDup_cons in Hd as [Hnot Hd]. cbn [sum_by].
  rewrite (wellKinded_kind n k Hn). case_bool_decide as E.
  - rewrite sum_by_zero; [lia|]. apply Forall_forall. intros m Hm.
    rewrite Forall_forall in Hw. rewrite (wellKinded_kind m k (Hw _ Hm)). case_bool_decide as E'; [|done].
    destruct Hnot. rewrite E, <- E'. by apply (list_elem_of_fmap_2 p_kind).
  - apply elem_of_cons in Hk as [->|Hk]; [done|]. rewrite IH by done. lia.
Qed.

Lemma graph_shape : Forall (fun pp => pathShape stages (path pp)) graphPaths.
Proof. apply prepared_shape. Qed.

Lemma column_total mu w `{!NodeMeasure metric mu w} k :
  k ∈ stages ->
  sum_by mu (List.filter (fun n => bool_decide (n_kind n = k)) (nodes graph)) =
  sum_by (fun pp => w (metrics pp)) graphPaths.
Proof.
  intros Hk. rewrite sum_by_filter.
  rewrite (sum_by_ext _ (fun n => if hasKind k (n_id n) then mu n else 0)).
  2: { apply Forall_forall. intros n Hn. by rewrite graph_kind_id. }
  rewrite (nodes_sum mu w). apply sum_by_ext. eapply Forall_impl; [apply graph_shape|].
  intros pp Hp. eapply shape_stage_once; [exact Hp|apply stages_NoDup|done].
Qed.

(** *** Flow through a node *)

Lemma unique_entry_sum {V} (idOf : V -> jstr) (mu : V -> Z) (m : list (jstr * V)) k v :
  NoDup (mkeys m) -> Forall (fun p => idOf p.2 = p.1) m -> (k, v) ∈ m ->
  sum_by (fun p => if bool_decide (idOf p.2 = k) then mu p.2 else 0) m = mu v.
Proof.
  intros Hd Hf. induction Hf as [|[k' v'] m Hk Hf IH]; intros Hv; [by apply elem_of_nil in Hv|].
  cbn [mkeys map fst snd sum_by] in *. apply NoDup_cons in Hd as [Hnot Hd].
  apply elem_of_cons in Hv as [[= -> ->]|Hv].
  - rewrite bool_decide_true by done. rewrite sum_by_zero; [lia|].
    eapply Forall_impl; [apply Forall_and; split; [exact Hf|apply Forall_forall; intros x Hx; exact Hx]|].
    intros [k1 v1] [F H1]. cbn in *. rewrite bool_decide_false; [done|]. intros E. destruct Hnot.
    rewrite <- E, F. by apply (list_elem_of_fmap_2 fst) in H1.
  - rewrite bool_decide_false; [by rewrite IH|]. intros E. destruct Hnot. rewrite <- Hk, E.
    by apply (list_elem_of_fmap_2 fst) in Hv.
Qed.

Lemma node_value n :
  n ∈ nodes graph ->
  n_value n = sum_by (fun pp => sum_by (fun m => if bool_decide (p_id m = n_id n) then metricValue (metrics pp) metric else 0)
                                  (path pp)) graphPaths.
Proof.
  intros (v & Hv & E)%graph_node_built. injection E as E1 _ E2 _ _ _ _ _. rewrite <- E1, <- E2.
  apply list_elem_of_fmap in Hv as ([k v'] & -> & Hv). cbn [snd].
  pose proof builtNodes_entry as F. rewrite Forall_forall in F. pose proof (F _ Hv) as [Hid _]. cbn in Hid.
  pose proof (nodes_sum n_value (fun m => metricValue m metric) (fun id => bool_decide (id = n_id v'))) as <-.
  rewrite (sum_by_core nodeCore _ _ (mvalues builtNodes)); [|done|apply graph_nodes_core].
  unfold mvalues. rewrite sum_by_map.
  rewrite Hid. symmetry. apply unique_entry_sum; [apply accumulate_NoDup, NoDup_nil_2| |done].
  eapply Forall_impl; [apply builtNodes_entry|]. by intros ? [? _].
Qed.

Lemma other_kind_zero n m (c : Z) :
  n ∈ nodes graph -> wellKinded m -> p_kind m <> n_kind n ->
  (if bool_decide (p_id m = n_id n) then c else 0) = 0.
Proof.
  intros Hn%graph_node_kind Hm Hne. case_bool_decide as E; [|done]. destruct Hne.
  unfold wellKinded in Hm. rewrite E in Hm. by eapply hasKind_inj.
Qed.

Lemma inflow n :
  Forall namesNulFree rows -> n ∈ nodes graph -> Some (n_kind n) <> head stages ->
  sum_by l_value (List.filter (fun l => bool_decide (l_target l = n_id n)) (links graph)) = n_value n.
Proof.
  intros Hnul Hn Hk. rewrite (node_value n Hn), sum_by_filter.
  etransitivity; [exact (links_sum (fun _ t => bool_decide (t = n_id n)) Hnul)|].
  apply sum_by_ext. eapply Forall_impl; [apply graph_shape|]. intros pp Hp. cbn beta.
  etransitivity; [exact (steps_targets (fun m => if bool_decide (p_id m = n_id n) then metricValue (metrics pp) metric else 0) (path pp))|].
  destruct stages as [|k0 ks]; [by destruct Hp as [->%map_eq_nil _]|].
  pose proof Hp as Hp'. apply shape_head in Hp as (r & p' & E & Hr). rewrite E in *. cbn [tail sum_by].
  rewrite other_kind_zero; [lia|done| |].
  - eapply shape_elem; [exact Hp'|apply elem_of_cons; by left].
  - rewrite Hr. intros ->. by apply Hk.
Qed.

Lemma outflow n :
  Forall namesNulFree rows -> n ∈ nodes graph -> Some (n_kind n) <> last stages ->
  sum_by l_value (List.filter (fun l => bool_decide (l_source l = n_id n)) (links graph)) = n_value n.
Proof.
  intros Hnul Hn Hk. rewrite (node_value n Hn), sum_by_filter.
  etransitivity; [exact (links_sum (fun s _ => bool_decide (s = n_id n)) Hnul)|].
  apply sum_by_ext. eapply Forall_impl; [apply graph_shape|]. intros pp Hp. cbn beta.
  etransitivity; [exact (steps_sources (fun m => if bool_decide (p_id m = n_id n) then metricValue (metrics pp) metric else 0) (path pp))|].
  destruct (last stages) as [k|] eqn:El.
  - destruct (shape_last _ _ _ Hp El) as (r & Er & Hr). rewrite Er. cbn.
    rewrite other_kind_zero; [lia|done| |].
    + eapply shape_elem; [exact Hp|by apply last_Some_elem_of].
    + rewrite Hr. intros ->. by apply Hk.
  - apply last_None in El. rewrite El in Hp. by destruct Hp as [->%map_eq_nil _].
Qed.

(** *** The node limit *)

Lemma dedup_length {A} `{EqDecision A} (seen l : list A) : (length (dedup seen l) <= length l)%nat.
Proof. revert seen. induction l as [|x l IH]; intros seen; simpl; [done|]. case_if; simpl; [rewrite IH; lia|apply le_n_S, IH]. Qed.

Lemma topIds_length limit st : (length (topIds localeCompare limit st) <= Z.to_nat limit)%nat.
Proof.
  unfold topIds, set_from. etransitivity; [apply dedup_length|].
  rewrite length_map, length_take. lia.
Qed.

Lemma mset_value {K V} `{EqDecision K} (P : V -> Prop) (k : K) v m :
  P v -> Forall (fun p => P p.2) m -> Forall (fun p => P p.2) (mset k v m).
Proof.
  intros Hv Hm. induction Hm as [|[k' v'] m Hp Hm IH]; unfold mset; [by constructor|].
  case_bool_decide; constructor; done.
Qed.

Definition topSetOk (limit : Z) (sets : list (FlowNodeKind * list jstr)) : Prop :=
  Forall (fun p => (length p.2 <= Z.to_nat limit)%nat) sets /\
  forall k, k ∈ stages -> k ∈ mkeys sets.

Lemma fold_keys {K V W} `{EqDecision K} (f : W -> V) (l : list (K * W)) (m : list (K * V)) k :
  k ∈ mkeys (foldl (fun m p => mset p.1 (f p.2) m) m l) <-> k ∈ mkeys m \/ k ∈ mkeys l.
Proof.
  revert m. induction l as [|[k' w] l IH]; intros m; simpl.
  - rewrite elem_of_nil. naive_solver.
  - rewrite IH, mset_elem, elem_of_cons. naive_solver.
Qed.

Lemma addTotal_keys value totals node k : k ∈ mkeys totals -> k ∈ mkeys (addTotal value totals node).
Proof. intros H. unfold addTotal. destruct (mget _ totals); [|done]. apply mset_elem. by right. Qed.

Lemma stageTotals_keys k : k ∈ stages -> k ∈ mkeys (stageTotalsOf rows metric stages ctx).
Proof.
  intros Hk. unfold stageTotalsOf.
  assert (H0 : k ∈ mkeys (foldl (fun m stage => mset stage ([] : list (jstr * FlowNodeRank)) m) [] stages)).
  { clear -Hk. revert Hk. generalize (@nil (FlowNodeKind * list (jstr * FlowNodeRank))).
    assert (G : forall l m, k ∈ mkeys m -> k ∈ mkeys (foldl (fun m stage => mset stage ([] : list (jstr * FlowNodeRank)) m) m l)).
    { induction l as [|x l IH]; intros m H; simpl; [done|]. apply IH, mset_elem. by right. }
    induction stages as [|x l IH]; intros m Hk; [by apply elem_of_nil in Hk|]. simpl.
    apply elem_of_cons in Hk as [->|Hk]; [|by apply IH]. apply G, mset_elem. by left. }
  revert H0. generalize (foldl (fun m stage => mset stage ([] : list (jstr * FlowNodeRank)) m) [] stages).
  induction rows as [|row rs IH]; intros totals H0; simpl; [done|]. apply IH.
  revert totals H0. generalize (metricValue (rowMetrics row) metric). intros v.
  induction (flowPathForStages row stages ctx) as [|n p IHp]; intros totals H0; simpl; [done|].
  apply IHp. by apply addTotal_keys.
Qed.

Lemma topSets_ok limit sets :
  normalizeTopNodeLimit (topNodeLimit options) = Some limit -> topSets = Some sets -> topSetOk limit sets.
Proof.
  unfold topSets, buildTopNodeSets. intros ->. case_if; [done|]. intros [= <-]. split.
  - set (l := stageTotalsOf _ _ _ _). clearbody l.
    assert (G : forall m, Forall (fun p => (length p.2 <= Z.to_nat limit)%nat) m ->
      Forall (fun p => (length p.2 <= Z.to_nat limit)%nat)
        (foldl (fun topSets p => mset p.1 (topIds localeCompare limit p.2) topSets) m l)).
    { induction l as [|p l IH]; intros m Hm; simpl; [done|]. apply IH.
      apply (mset_value (fun v => (length v <= Z.to_nat limit)%nat)); [apply topIds_length|done]. }
    apply G. constructor.
  - intros k Hk. apply (fold_keys (topIds localeCompare limit)). right. by apply stageTotals_keys.
Qed.

Lemma limited_node p sets mode labeler p' m :
  applyTopNodeLimit p (Some sets) mode labeler = Some p' -> m ∈ p' ->
  isTopFlowNode m (Some sets) = true \/ (mode = Aggregate /\ p_id m = OTHER_FLOW_NODE_IDS (p_kind m)).
Proof.
  unfold applyTopNodeLimit. case_if.
  - intros [= <-] Hm. left. apply negb_true_iff in Heqb.
    destruct (isTopFlowNode m (Some sets)) eqn:E; [done|].
    assert (existsb (fun node => negb (isTopFlowNode node (Some sets))) p = true) as E'; [|congruence].
    apply existsb_exists. exists m. rewrite E. split; [by apply list_elem_of_In|done].
  - destruct mode; [|done]. intros [= <-] (m0 & -> & Hm)%list_elem_of_fmap.
    case_if; [by left|right; done].
Qed.

Lemma path_node_limited sets pp m :
  topSets = Some sets -> pp ∈ graphPaths -> m ∈ path pp ->
  isTopFlowNode m (Some sets) = true \/ (graphMode = Aggregate /\ p_id m = OTHER_FLOW_NODE_IDS (p_kind m)).
Proof.
  unfold graphPaths. intros -> Hpp Hm. rewrite preparePaths_omap in Hpp.
  apply list_elem_of_omap in Hpp as (row & _ & E). unfold preparedPath in E.
  destruct (applyTopNodeLimit _ _ _ _) eqn:E'; simplify_eq/=. by eapply limited_node.
Qed.

Lemma node_event_origin e : e ∈ allNodeEvents -> exists pp, pp ∈ graphPaths /\ e.1.1.1 ∈ path pp.
Proof.
  unfold allNodeEvents. intros (pp & Hpp & He)%concat_map_sub. exists pp. split; [done|].
  unfold nodeEvents in He. destruct (path pp); [by apply elem_of_nil in He|].
  by apply list_elem_of_fmap in He as (m & -> & Hm).
Qed.

Lemma node_origin n :
  n ∈ nodes graph -> exists pp m, pp ∈ graphPaths /\ m ∈ path pp /\ p_id m = n_id n /\ p_kind m = n_kind n.
Proof.
  intros Hn. pose proof (graph_node_kind _ Hn) as Hk. apply graph_node_built in Hn as (v & Hv & E).
  injection E as E1 _ _ _ _ _ _ _.
  apply list_elem_of_fmap in Hv as ([k v'] & -> & Hv). pose proof builtNodes_entry as F.
  rewrite Forall_forall in F. pose proof (F _ Hv) as [Hid _]. cbn in Hid, E1.
  apply (list_elem_of_fmap_2 fst) in Hv. change (k ∈ mkeys builtNodes) in Hv.
  apply accumulate_keys in Hv as [Hv|Hv]; [by apply elem_of_nil in Hv|].
  apply list_elem_of_fmap in Hv as (e & -> & (pp & Hpp & Hm)%node_event_origin).
  exists pp, e.1.1.1. repeat split; try done; [by rewrite <- E1, Hid|].
  pose proof graph_shape as G. rewrite Forall_forall in G. pose proof (shape_elem _ _ _ (G _ Hpp) Hm) as W.
  unfold wellKinded in W. eapply hasKind_inj; [exact W|].
  change (hasKind (n_kind n) (nodeKey e) = true). by rewrite <- Hid, E1.
Qed.

Lemma node_ids_NoDup : NoDup (map n_id (nodes graph)).
Proof.
  rewrite (map_ext n_id (fun n => n_id (nodeCore n))) by done. rewrite <- (map_map nodeCore n_id).
  rewrite graph_nodes_core, map_map. cbn. unfold mvalues. rewrite map_map.
  erewrite (map_ext_Forall _ fst); [apply accumulate_NoDup, NoDup_nil_2|].
  eapply Forall_impl; [apply builtNodes_entry|]. by intros p [? _].
Qed.

Lemma column_limit limit k :
  normalizeTopNodeLimit (topNodeLimit options) = Some limit -> k ∈ stages ->
  (length (List.filter (fun n => bool_decide (n_kind n = k)) (nodes graph)) <=
   Z.to_nat limit + match graphMode with Aggregate => 1 | Hide => 0 end)%nat.
Proof.
  intros Hl Hk. destruct topSets as [sets|] eqn:Ht.
  2: { unfold topSets, buildTopNodeSets in Ht. rewrite Hl in Ht. destruct (limit =? 0) eqn:E0; [|done].
       unfold normalizeTopNodeLimit in Hl. destruct (topNodeLimit options) as [x|]; [|done].
       destruct (num_floor x) as [z|]; [|done]. destruct (0 <? z) eqn:E1; [|done]. simplify_eq. bool_hyps. lia. }
  destruct (topSets_ok limit sets Hl Ht) as [Hlen Hkeys]. apply Hkeys in Hk.
  destruct (mget k sets) as [ids|] eqn:Hg; [|by apply mget_None in Hg].
  assert (Hids : (length ids <= Z.to_nat limit)%nat).
  { rewrite Forall_forall in Hlen. by apply (Hlen (k, ids)), mget_elem. }
  rewrite <- (length_map n_id).
  transitivity (length (ids ++ match graphMode with Aggregate => [OTHER_FLOW_NODE_IDS k] | Hide => [] end)).
  2: { rewrite length_app. destruct graphMode; simpl; lia. }
  apply submseteq_length, NoDup_submseteq; [apply map_filter_NoDup, node_ids_NoDup|].
  intros id (n & -> & [Hn Hkind]%filter_sub)%list_elem_of_fmap. bool_hyps.
  destruct (node_origin n Hn) as (pp & m & Hpp & Hm & <- & Hmk). apply elem_of_app.
  destruct (path_node_limited sets pp m Ht Hpp Hm) as [H|[-> H]].
  - left. unfold isTopFlowNode in H. rewrite Hmk, Hkind, Hg in H. by bool_hyps.
  - right. rewrite H, Hmk, Hkind. by apply list_elem_of_singleton.
Qed.

(** *** What the display passes leave on a link *)

Definition linkText (l : DashboardFlowLink) :=
  (l_source l, l_target l, l_sourceLabel l, l_targetLabel l, l_highlighted l, l_dimmed l).

Lemma graph_link_text l :
  l ∈ links graph -> exists l0, l0 ∈ mvalues litMaps.2 /\ linkText l = linkText l0.
Proof.
  rewrite graph_unfold. cbn [links]. intros H. apply (list_elem_of_fmap_2 linkText) in H.
  match goal with H : _ ∈ fmap _ (assignLinkDisplayColors ?lc ?ls) |- _ =>
    pose proof (assign_proj linkText lc ls (fun _ _ => eq_refl)) as E end.
  change (map linkText) with (fmap (M := list) linkText) in E. rewrite E in H.
  apply list_elem_of_fmap in H as (l1 & E1 & Hl1). apply list_elem_of_fmap in Hl1 as (l0 & -> & Hl0).
  unfold sortedLinks in Hl0. apply sort_by_elem in Hl0. by exists l0.
Qed.

Lemma graph_link_share l : l ∈ links graph -> l_share l = shareOf graphTotal (l_value l).
Proof.
  rewrite graph_unfold. cbn [links]. intros H.
  set (pr := fun l => (l_share l, l_value l)). apply (list_elem_of_fmap_2 pr) in H.
  match goal with H : _ ∈ fmap _ (assignLinkDisplayColors ?lc ?ls) |- _ =>
    pose proof (assign_proj pr lc ls (fun _ _ => eq_refl)) as E end.
  change (map pr) with (fmap (M := list) pr) in E. rewrite E in H.
  apply list_elem_of_fmap in H as (l1 & [= E1 E2] & Hl1). apply list_elem_of_fmap in Hl1 as (l0 & -> & _).
  cbn in *. congruence.
Qed.

(** *** The total the shares divide by *)

Lemma sortedLinks_core : Permutation (map linkCore sortedLinks) (map linkCore (links graph)).
Proof.
  rewrite graph_unfold. cbn [links]. rewrite (assign_proj linkCore), map_map by done. by cbn.
Qed.

Lemma foldl_sum (ls : list DashboardFlowLink) a :
  foldl (fun sum l => sum + l_value l) a ls = a + sum_by l_value ls.
Proof. revert a. induction ls as [|l ls IH]; intros a; simpl; [lia|]. rewrite IH. lia. Qed.

Lemma rootIds_elem id :
  id ∈ rootIds graphPaths -> exists pp r, pp ∈ graphPaths /\ head (path pp) = Some r /\ p_id r = id.
Proof.
  intros [(pp & Hpp & E)%list_elem_of_omap _]%filter_sub.
  destruct (head (path pp)) as [r|] eqn:Hh; simplify_eq/=. by exists pp, r.
Qed.

Lemma rootIds_head pp r : pp ∈ graphPaths -> head (path pp) = Some r -> p_id r ∈ rootIds graphPaths.
Proof.
  intros Hpp Hr. apply filter_sub. split.
  - apply list_elem_of_omap. exists pp. by rewrite Hr.
  - pose proof graph_shape as G. rewrite Forall_forall in G.
    assert (W : wellKinded r). { eapply shape_elem; [by apply G|]. by apply head_Some_elem_of. }
    unfold wellKinded, hasKind in W. apply truthy_str_spec. intros E. rewrite E in W. by destruct (p_kind r).
Qed.

Lemma root_member pp m k0 :
  pp ∈ graphPaths -> m ∈ path pp -> head stages = Some k0 -> p_id m ∈ rootIds graphPaths -> p_kind m = k0.
Proof.
  intros Hpp Hm Hk (pp' & r & Hpp' & Hr & E)%rootIds_elem. pose proof graph_shape as G.
  rewrite Forall_forall in G. pose proof (shape_elem _ _ _ (G _ Hpp) Hm) as W.
  pose proof (G _ Hpp') as G'. destruct stages as [|k ks]; [done|]. injection Hk as ->.
  destruct (shape_head _ _ _ G') as (r' & p' & E' & Hk'). rewrite E' in Hr. injection Hr as ->.
  pose proof (shape_elem _ _ r G' ltac:(rewrite E'; apply elem_of_cons; by left)) as W'.
  unfold wellKinded in *. rewrite E, Hk' in W'. by eapply hasKind_inj.
Qed.

Lemma steps_cons2 {A} (x y : A) p : steps (x :: y :: p) = (x, y) :: steps (y :: p).
Proof. done. Qed.

Lemma graphTotal_sum :
  Forall namesNulFree rows -> graphTotal = sum_by (fun pp => metricValue (metrics pp) metric) graphPaths.
Proof.
  intros Hnul. unfold graphTotal, linkTotal. rewrite foldl_sum, sum_by_filter. cbn [Z.add].
  rewrite (sum_by_core linkCore _ _ (links graph)); [|done|apply sortedLinks_core].
  etransitivity; [exact (links_sum (fun s _ => bool_decide (s ∈ set_from (rootIds graphPaths))) Hnul)|].
  apply sum_by_ext, Forall_forall. intros pp Hpp. pose proof graph_shape as G.
  rewrite Forall_forall in G. pose proof (G _ Hpp) as Hp.
  pose proof (stages_min role visible) as Hmin. pose proof (stages_NoDup role visible) as Hnd.
  pose proof (fun m => root_member pp m) as Hroot.
  destruct stages as [|k0 [|k1 ks]]; [simpl in Hmin; lia..|].
  destruct (path pp) as [|x [|y p]] eqn:E; [destruct Hp as [Hp _]; discriminate Hp..|].
  rewrite steps_cons2. cbn [sum_by fst]. rewrite bool_decide_true.
  2: { apply set_from_elem, (rootIds_head pp); [done|by rewrite E]. }
  rewrite sum_by_zero; [lia|]. apply Forall_forall. intros [a b] [Ha _]%steps_in. cbn [fst].
  case_bool_decide as Hin; [|done]. rewrite set_from_elem in Hin.
  assert (Hk : p_kind a = k0). { apply (Hroot a k0); [done| |done|exact Hin]. apply elem_of_cons. by right. }
  destruct Hp as [Hp _]. cbn [map] in Hp. injection Hp as Hx Hy Hrest. apply NoDup_cons in Hnd as [[] _].
  rewrite <- Hy, <- Hrest, <- Hk. by apply (list_elem_of_fmap_2 p_kind (y :: p) a).
Qed.

(** *** Masked labels *)

Definition isMaskText (s : jstr) : Prop := s = [] \/ s = FLOW_MASK_TEXT.

Lemma maskFlowLabel_text s : isMaskText (maskFlowLabel s).
Proof. destruct s; [by left|by right]. Qed.

Lemma graph_node_lit n :
  n ∈ nodes graph -> exists p, p ∈ maskedMaps.1 /\ n_id n = n_id p.2 /\ n_kind n = n_kind p.2 /\ n_label n = n_label p.2.
Proof.
  rewrite graph_unfold. cbn [nodes]. intros H%sort_by_elem. unfold litMaps, applyFlowHighlights in H.
  apply list_elem_of_fmap in H as (p & -> & Hp). destruct graphHighlights; cbn [fst] in Hp.
  - apply list_elem_of_fmap in Hp as (p0 & -> & Hp0). by exists p0.
  - by exists p.
Qed.

Lemma masked_node p :
  maskSensitive options = true -> p ∈ maskedMaps.1 -> isMaskedNode p.2 = true -> isMaskText (n_label p.2).
Proof.
  unfold maskedMaps. intros ->. unfold maskFlowGraphLabels. intros H.
  assert (Hp : p ∈ map (fun p => (p.1, if isMaskedNode p.2 then setLabel (maskFlowLabel (n_label p.2)) p.2 else p.2))
    builtNodes) by (by destruct (maskedById builtNodes)).
  clear H. apply list_elem_of_fmap in Hp as (p0 & -> & _). cbn [snd].
  destruct (isMaskedNode p0.2) eqn:E; [intros _; apply maskFlowLabel_text|]. by rewrite E.
Qed.

Lemma maskedById_spec ns :
  Forall (fun p => isMaskText p.2) (maskedById ns) /\
  forall p, p ∈ ns -> isMaskedNode p.2 = true -> n_id p.2 ∈ mkeys (maskedById ns).
Proof.
  unfold maskedById.
  match goal with |- context [foldl ?f _ _] => enough (G : forall ns m,
    Forall (fun p => isMaskText p.2) m ->
    Forall (fun p => isMaskText p.2) (foldl f m ns) /\
    (forall k, k ∈ mkeys m -> k ∈ mkeys (foldl f m ns)) /\
    forall p, p ∈ ns -> isMaskedNode p.2 = true -> n_id p.2 ∈ mkeys (foldl f m ns)) end.
  { destruct (G ns []) as (H1 & _ & H2); [done|by split]. }
  clear. intros ns. induction ns as [|p ns IH]; intros m Hm; cbn [foldl].
  { repeat split; [done..|]. by intros p ?%elem_of_nil. }
  destruct (isMaskedNode p.2) eqn:E.
  - destruct (IH (mset (n_id p.2) (maskFlowLabel (n_label p.2)) m)) as (H1 & H2 & H3).
    { apply (mset_value isMaskText); [apply maskFlowLabel_text|done]. }
    split; [done|]. split; [intros k Hk; apply H2, mset_elem; by right|].
    intros q [->|Hq]%elem_of_cons Hmask; [|by apply H3]. apply H2, mset_elem. by left.
  - destruct (IH m Hm) as (H1 & H2 & H3). split; [done|]. split; [done|].
    intros q [->|Hq]%elem_of_cons Hmask; [congruence|by apply H3].
Qed.

Lemma masked_get v d :
  v ∈ mvalues builtNodes -> isMaskedNode v = true ->
  isMaskText (default d (mget (n_id v) (maskedById builtNodes))).
Proof.
  intros (p & -> & Hp)%list_elem_of_fmap Hm. destruct (maskedById_spec builtNodes) as [F K].
  destruct (mget _ _) as [t|] eqn:E.
  - apply mget_elem in E. rewrite Forall_forall in F. by apply F in E.
  - apply mget_None in E. destruct E. by apply K.
Qed.

Lemma maskedById_nonempty v : v ∈ mvalues builtNodes -> isMaskedNode v = true -> maskedById builtNodes <> [].
Proof.
  intros (p & -> & Hp)%list_elem_of_fmap Hm E. destruct (maskedById_spec builtNodes) as [_ K].
  specialize (K p Hp Hm). rewrite E in K. by apply elem_of_nil in K.
Qed.

Lemma masked_link l n :
  maskSensitive options = true -> l ∈ links graph -> n ∈ nodes graph -> isMaskedNode n = true ->
  (l_source l = n_id n -> isMaskText (l_sourceLabel l)) /\ (l_target l = n_id n -> isMaskText (l_targetLabel l)).
Proof.
  intros Hmask (l0 & Hl0 & E)%graph_link_text (v & Hv & Ec)%graph_node_built Hn.
  injection Ec as E1 E2 _ _ _ _ _ _. assert (Hmv : isMaskedNode v = true) by (unfold isMaskedNode in *; by rewrite E1, E2).
  assert (exists l1, l1 ∈ mvalues maskedMaps.2 /\ (l_source l0, l_target l0, l_sourceLabel l0, l_targetLabel l0) =
    (l_source l1, l_target l1, l_sourceLabel l1, l_targetLabel l1)) as (l1 & Hl1 & E').
  { unfold litMaps, applyFlowHighlights in Hl0. destruct graphHighlights; [|by exists l0].
    apply list_elem_of_fmap in Hl0 as (p & -> & Hp). apply list_elem_of_fmap in Hp as (p0 & -> & Hp0).
    exists p0.2. split; [by apply (list_elem_of_fmap_2 snd)|done]. }
  unfold maskedMaps in Hl1. rewrite Hmask in Hl1. unfold maskFlowGraphLabels in Hl1.
  destruct (maskedById builtNodes) as [|e m] eqn:Em; [by destruct (maskedById_nonempty v Hv Hmv)|].
  rewrite <- Em in Hl1. apply list_elem_of_fmap in Hl1 as (p & -> & Hp).
  apply list_elem_of_fmap in Hp as (p0 & -> & _). cbn in E'.
  injection E as -> -> -> -> _ _. injection E' as -> -> -> ->. rewrite <- E1.
  split; intros ->; by apply masked_get.
Qed.

(** *** Bounds *)

Definition metricsNonneg (row : FlowQuotaDataItem) : Prop :=
  0 <= m_quota (rowMetrics row) /\ 0 <= m_tokens (rowMetrics row) /\ 0 <= m_requests (rowMetrics row).

Lemma graphPaths_metrics pp : pp ∈ graphPaths -> exists row, row ∈ rows /\ metrics pp = rowMetrics row.
Proof.
  unfold graphPaths. rewrite preparePaths_omap. intros (row & Hrow & E)%list_elem_of_omap.
  unfold preparedPath in E. destruct (applyTopNodeLimit _ _ _ _); simplify_eq/=. by exists row.
Qed.

Lemma graphPaths_sum_le (w : FlowMetrics -> Z) :
  Forall (fun row => 0 <= w (rowMetrics row)) rows ->
  0 <= sum_by (fun pp => w (metrics pp)) graphPaths <= sum_by (fun row => w (rowMetrics row)) rows.
Proof.
  unfold graphPaths. rewrite preparePaths_omap.
  generalize topSets graphMode (otherNodeLabel options). intros sets mode labeler.
  induction 1 as [|row rs Hr Hrs IH]; cbn [omap list_omap sum_by]; [lia|].
  destruct (preparedPath ctx stages sets mode labeler row) as [pp|] eqn:E; [|lia].
  unfold preparedPath in E. destruct (applyTopNodeLimit _ _ _ _); simplify_eq/=. lia.
Qed.

Lemma builtNodes_nonneg mu w `{!NodeMeasure metric mu w} :
  Forall (fun row => 0 <= w (rowMetrics row)) rows -> Forall (fun n => 0 <= mu n) (nodes graph).
Proof.
  intros H. apply Forall_forall. intros n (v & Hv & E)%graph_node_built.
  rewrite <- (nm_core (metric := metric) (mu := mu) n), <- E, nm_core.
  apply list_elem_of_fmap in Hv as (p & -> & Hp).
  assert (F : Forall (fun p => 0 <= mu p.2) builtNodes).
  { apply (accumulate_inv nodeKey nodeInit (nodeStep metric) (fun _ v => 0 <= mu v)); [done|].
    apply Forall_forall. intros e He. unfold nodeStep, nodeInit.
    assert (Hw : 0 <= w e.1.1.2).
    { unfold allNodeEvents in He. apply concat_map_sub in He as (pp & Hpp & He).
      apply graphPaths_metrics in Hpp as (row & Hrow & Em). rewrite Forall_forall in H. specialize (H row Hrow).
      unfold nodeEvents in He. destruct (path pp); [by apply elem_of_nil in He|].
      apply list_elem_of_fmap in He as (m & -> & _). cbn. by rewrite Em. }
    rewrite nm_bump, nm_new. split; [lia|]. intros v Hv. rewrite nm_bump. lia. }
  rewrite Forall_forall in F. by apply F.
Qed.

Lemma node_bound mu w `{!NodeMeasure metric mu w} n :
  Forall (fun row => 0 <= w (rowMetrics row)) rows -> n ∈ nodes graph ->
  0 <= mu n <= sum_by (fun row => w (rowMetrics row)) rows.
Proof.
  intros H Hn. pose proof (builtNodes_nonneg mu w H) as F. rewrite Forall_forall in F.
  split; [by apply F|]. etransitivity; [|apply graphPaths_sum_le; exact H].
  assert (Hk : n_kind n ∈ stages).
  { destruct (node_origin n Hn) as (pp & m & Hpp & Hm & _ & <-). pose proof graph_shape as G.
    rewrite Forall_forall in G. destruct (G _ Hpp) as [E _]. rewrite <- E. by apply (list_elem_of_fmap_2 p_kind). }
  rewrite <- (column_total mu w (n_kind n) Hk). apply sum_by_elem_le.
  - apply Forall_forall. intros x [Hx _]%filter_sub. by apply F.
  - apply filter_sub. split; [done|]. by apply bool_decide_eq_true.
Qed.

(** *** Highlighting *)

Lemma set_add_elem {A} `{EqDecision A} (x y : A) s : x ∈ set_add y s <-> x = y \/ x ∈ s.
Proof.
  unfold set_add. case_bool_decide; [naive_solver|]. rewrite elem_of_app, list_elem_of_singleton. naive_solver.
Qed.

Lemma fold_set_add {A B} `{EqDecision A} (f : B -> A) l s x :
  x ∈ foldl (fun s e => set_add (f e) s) s l <-> x ∈ s \/ x ∈ map f l.
Proof.
  revert s. induction l as [|e l IH]; intros s; simpl; [rewrite elem_of_nil; naive_solver|].
  rewrite IH, set_add_elem, elem_of_cons. naive_solver.
Qed.

Definition stepKey (s : FlowPathNode * FlowPathNode) : jstr := pathLinkKey s.1 s.2.

Lemma addHighlights_elem s p :
  (forall x, x ∈ h_nodes (addHighlights s p) <-> x ∈ h_nodes s \/ x ∈ map p_id p) /\
  (forall x, x ∈ h_links (addHighlights s p) <-> x ∈ h_links s \/ x ∈ map stepKey (steps p)).
Proof.
  split; intros x; [apply (fold_set_add p_id)|].
  rewrite <- (fold_set_add stepKey). cbn [h_links addHighlights].
  generalize (h_links s). by induction (steps p) as [|[a b] l IH]; intros h; simpl; [|rewrite IH].
Qed.

Lemma exists_cons {A} (P : A -> Prop) x l : (exists y, y ∈ x :: l /\ P y) <-> P x \/ exists y, y ∈ l /\ P y.
Proof. setoid_rewrite elem_of_cons. naive_solver. Qed.

Notation pathMatches := (matchesPath (activeNode options) (activeLink options)).

Lemma highlight_fold (pps : list PreparedFlowPath) s :
  let r := foldl (fun s prepared => if pathMatches (path prepared)
                                    then addHighlights s (path prepared) else s) s pps in
  (forall x, x ∈ h_nodes r <-> x ∈ h_nodes s \/
     exists pp, pp ∈ pps /\ pathMatches (path pp) = true /\ x ∈ map p_id (path pp)) /\
  (forall x, x ∈ h_links r <-> x ∈ h_links s \/
     exists pp, pp ∈ pps /\ pathMatches (path pp) = true /\ x ∈ map stepKey (steps (path pp))).
Proof.
  revert s. induction pps as [|pp pps IH]; intros s; cbn [foldl].
  { split; intros x; (split; [by left|]); intros [?|(pp & ?%elem_of_nil & _)]; done. }
  destruct (IH (if pathMatches (path pp) then addHighlights s (path pp) else s)) as [H1 H2].
  destruct (addHighlights_elem s (path pp)) as [A1 A2].
  split; intros x; [rewrite H1|rewrite H2]; rewrite exists_cons;
    destruct (pathMatches (path pp)); rewrite ?A1, ?A2; intuition discriminate.
Qed.

(** The sets exist when a selection is active and some path matches it. *)
Definition selectionActive : bool :=
  match activeLink options with
  | Some _ => true
  | None => match activeNode options with Some n => bool_decide (f_kind n ∈ stages) | None => false end
  end.

Lemma highlights_exist :
  selectionActive = true -> (exists pp, pp ∈ graphPaths /\ pathMatches (path pp) = true) ->
  exists sets, graphHighlights = Some sets /\
    (forall x, x ∈ h_nodes sets <-> exists pp, pp ∈ graphPaths /\ pathMatches (path pp) = true /\ x ∈ map p_id (path pp)) /\
    (forall x, x ∈ h_links sets <-> exists pp, pp ∈ graphPaths /\ pathMatches (path pp) = true /\ x ∈ map stepKey (steps (path pp))).
Proof.
  intros Ha (pp & Hpp & Hm). unfold graphHighlights, buildFlowHighlightSets.
  assert (E : negb match activeNode options with Some n => bool_decide (f_kind n ∈ stages) | None => false end &&
    match activeLink options with Some _ => false | None => true end = false).
  { unfold selectionActive in Ha. destruct (activeLink options); [apply andb_false_r|]. by rewrite Ha. }
  rewrite E. cbv zeta.
  destruct (highlight_fold graphPaths {| h_nodes := []; h_links := [] |}) as [H1 H2].
  set (r := foldl _ _ _) in *.
  assert (Hr : h_nodes r <> []).
  { intros Hnil. assert (Hin : exists x, x ∈ map p_id (path pp)).
    { pose proof graph_shape as G. rewrite Forall_forall in G. pose proof (G _ Hpp) as [Hs _].
      pose proof (stages_min role visible) as Hmin. destruct (path pp) as [|x p]; [rewrite <- Hs in Hmin; simpl in Hmin; lia|].
      exists (p_id x). apply elem_of_cons. by left. }
    destruct Hin as [x Hx]. assert (Hin : x ∈ h_nodes r) by (apply H1; right; by exists pp).
    rewrite Hnil in Hin. by apply elem_of_nil in Hin. }
  exists r. destruct (h_nodes r) as [|a l] eqn:En; [done|]. split; [done|].
  split; intros x; [rewrite H1|rewrite H2]; cbn [h_nodes h_links]; rewrite elem_of_nil; naive_solver.
Qed.

Lemma node_highlight sets n :
  graphHighlights = Some sets -> n ∈ nodes graph ->
  n_highlighted n = Some (bool_decide (n_id n ∈ h_nodes sets)) /\
  n_dimmed n = Some (negb (bool_decide (n_id n ∈ h_nodes sets))).
Proof.
  intros E. rewrite graph_unfold. cbn [nodes]. intros H%sort_by_elem. unfold litMaps in H. rewrite E in H.
  apply list_elem_of_fmap in H as (p & -> & Hp). by apply list_elem_of_fmap in Hp as (p0 & -> & _).
Qed.

Lemma link_highlight sets l :
  graphHighlights = Some sets -> l ∈ links graph ->
  l_highlighted l = Some (bool_decide (linkStableKey l ∈ h_links sets)).
Proof.
  intros E (l0 & Hl0 & Et)%graph_link_text. unfold litMaps in Hl0. rewrite E in Hl0.
  apply list_elem_of_fmap in Hl0 as (p & -> & Hp). apply list_elem_of_fmap in Hp as (p0 & -> & _).
  injection Et as E1 E2 _ _ -> _. cbn [snd setLinkHighlight l_highlighted]. f_equal.
  unfold linkStableKey. by rewrite E1, E2.
Qed.

Lemma graph_link_nulFree l : Forall namesNulFree rows -> l ∈ links graph -> nulFree (l_source l).
Proof.
  intros Hn H. apply (list_elem_of_fmap_2 linkCore) in H.
  change (linkCore l ∈ map linkCore (links graph)) in H. rewrite graph_links_core in H.
  apply list_elem_of_fmap in H as (v & E & Hv). injection E as -> _ _ _ _ _ _ _.
  apply list_elem_of_fmap in Hv as (p & -> & Hp).
  assert (F : Forall (fun p => nulFree (l_source p.2)) builtLinks).
  { apply (accumulate_inv linkKey linkInit (linkStep metric) (fun _ v => nulFree (l_source v))); [done|].
    apply Forall_forall. intros e He. split; [|by intros v ?].
    apply concat_map_sub in He as (pp & Hpp & He).
    pose proof (prepared_nulFree rows stages ctx topSets graphMode (otherNodeLabel options) Hn) as Hs.
    rewrite Forall_forall in Hs. specialize (Hs pp Hpp). unfold linkEvents in He.
    destruct (path pp) as [|r ns] eqn:Ep; [by apply elem_of_nil in He|].
    apply list_elem_of_fmap in He as ([a b] & -> & [Ha _]%steps_in). rewrite Forall_forall in Hs. by apply Hs. }
  rewrite Forall_forall in F. by apply F.
Qed.

End Graph.
