(* ===== verification/FlowTheorems.v ===== *)
(** * What the usage-flow graph promises

    The theorems about [buildFlowGraph] and [buildDashboardFlowData], proved
    from the accumulation lemmas of [FlowCorrect]. *)
From stdpp Require Import prelude list strings.
From S2P Require Import Prelude JsString JsNumber JsMap FlowGraph FlowCorrect.
Open Scope Z_scope.

(** ** The summary *)

Lemma buildSummary_sum rows :
  sm_quota (buildSummary rows) = sum_by (fun row => m_quota (rowMetrics row)) rows /\
  sm_tokens (buildSummary rows) = sum_by (fun row => m_tokens (rowMetrics row)) rows /\
  sm_requests (buildSummary rows) = sum_by (fun row => m_requests (rowMetrics row)) rows.
Proof.
  unfold buildSummary.
  match goal with |- context [foldl ?f ?a rows] => enough (H : forall s,
    sm_quota (foldl f s rows) = sm_quota s + sum_by (fun row => m_quota (rowMetrics row)) rows /\
    sm_tokens (foldl f s rows) = sm_tokens s + sum_by (fun row => m_tokens (rowMetrics row)) rows /\
    sm_requests (foldl f s rows) = sm_requests s + sum_by (fun row => m_requests (rowMetrics row)) rows) end.
  { by destruct (H {| sm_quota := 0; sm_tokens := 0; sm_requests := 0 |}) as (-> & -> & ->). }
  induction rows as [|row rows IH]; intros s; cbn [foldl sum_by]; [lia|].
  destruct (IH {| sm_quota := sm_quota s + m_quota (rowMetrics row); sm_tokens := sm_tokens s + m_tokens (rowMetrics row);
    sm_requests := sm_requests s + m_requests (rowMetrics row) |}) as (-> & -> & ->). cbn. lia.
Qed.

Definition summaryValue (s : FlowSummary) (metric : FlowMetric) : Z :=
  match metric with MQuota => sm_quota s | MTokens => sm_tokens s | MRequests => sm_requests s end.

Lemma summaryValue_sum rows metric :
  summaryValue (buildSummary rows) metric = sum_by (fun row => metricValue (rowMetrics row) metric) rows.
Proof. destruct (buildSummary_sum rows) as (H1 & H2 & H3). by destruct metric. Qed.

(** ** Node filters *)

Lemma normalize_accumulate sel stages :
  normalizeSelectedNodeFilters (Some sel) stages =
  accumulate f_kind (fun _ => []) (fun f => set_add (f_id f)) []
    (List.filter (fun f => bool_decide (f_kind f ∈ stages)) sel).
Proof.
  unfold normalizeSelectedNodeFilters, accumulate. change (default [] (Some sel)) with sel.
  generalize (@nil (FlowNodeKind * list jstr)). induction sel as [|f sel IH]; intros m; [done|].
  cbn [foldl List.filter]. rewrite IH. unfold addFilter.
  destruct (bool_decide (f_kind f ∈ stages)); done.
Qed.

Lemma accumulate_ids {E} (key : E -> FlowNodeKind) (idOf : E -> jstr) l k x :
  (exists ids, mget k (accumulate key (fun _ => []) (fun e => set_add (idOf e)) [] l) = Some ids /\ x ∈ ids) <->
  exists e, e ∈ l /\ key e = k /\ idOf e = x.
Proof.
  rewrite accumulate_get.
  assert (Hx : (exists e, e ∈ l /\ key e = k /\ idOf e = x) <->
    x ∈ map idOf (List.filter (fun e => bool_decide (key e = k)) l)).
  { rewrite list_elem_of_fmap. setoid_rewrite filter_sub. setoid_rewrite bool_decide_eq_true. naive_solver. }
  rewrite Hx. destruct (List.filter _ l) as [|e es]; [cbn; rewrite elem_of_nil; naive_solver|].
  cbn [map]. rewrite elem_of_cons. change (mget k []) with (@None (list jstr)). cbn [default].
  pose proof (fold_set_add idOf es (set_add (idOf e) []) x) as F. rewrite set_add_elem, elem_of_nil in F.
  split; [intros (ids & [= <-] & H); apply F in H; naive_solver|].
  intros H. eexists. split; [done|]. apply F. naive_solver.
Qed.

Lemma path_ids row stages ctx k x :
  k ∈ stages ->
  (exists ids, mget k (pathIdsByKind (flowPathForStages row stages ctx)) = Some ids /\ x ∈ ids) <->
  x = p_id (NODE_BUILDERS k row ctx).
Proof.
  intros Hk. change (pathIdsByKind ?p) with (accumulate p_kind (fun _ => []) (fun n => set_add (p_id n)) [] p).
  rewrite accumulate_ids. split.
  - intros (n & (s & -> & Hs)%list_elem_of_fmap & E & <-). rewrite builder_kind in E. by subst.
  - intros ->. exists (NODE_BUILDERS k row ctx). split; [|split; [apply builder_kind|done]].
    by apply (list_elem_of_fmap_2 (fun stage => NODE_BUILDERS stage row ctx)).
Qed.

(** A row is selected when, for every visible kind that has selections, its
    node of that kind is one of them. *)
Definition rowSelected (sel : list FlowNodeFilter) (stages : list FlowNodeKind) (ctx : FlowPathContext)
    (row : FlowQuotaDataItem) : bool :=
  forallb (fun k =>
    let chosen := List.filter (fun f => bool_decide (f_kind f = k)) sel in
    match chosen with
    | [] => true
    | _ => existsb (fun f => bool_decide (f_id f = p_id (NODE_BUILDERS k row ctx))) chosen
    end) stages.

Lemma rowSelected_spec sel stages ctx row :
  rowSelected sel stages ctx row = true <->
  forall k, k ∈ stages -> (exists f, f ∈ sel /\ f_kind f = k) ->
    exists f, f ∈ sel /\ f_kind f = k /\ f_id f = p_id (NODE_BUILDERS k row ctx).
Proof.
  unfold rowSelected. rewrite forallb_forall.
  assert (Hc : forall k, (let chosen := List.filter (fun f => bool_decide (f_kind f = k)) sel in
      match chosen with
      | [] => true
      | _ => existsb (fun f => bool_decide (f_id f = p_id (NODE_BUILDERS k row ctx))) chosen
      end) = true <->
    ((exists f, f ∈ sel /\ f_kind f = k) ->
     exists f, f ∈ sel /\ f_kind f = k /\ f_id f = p_id (NODE_BUILDERS k row ctx))).
  { intros k. cbv zeta. set (c := List.filter _ sel).
    assert (Hin : forall f, f ∈ c <-> f ∈ sel /\ f_kind f = k).
    { intros f. unfold c. rewrite filter_sub. by rewrite bool_decide_eq_true. }
    clearbody c. destruct c as [|f0 c].
    - split; [|done]. intros _ (f & Hf & Hk). by destruct (proj1 (elem_of_nil f) (proj2 (Hin f) (conj Hf Hk))).
    - rewrite existsb_exists. split.
      + intros (f & Hf & E) _. bool_hyps. apply list_elem_of_In, Hin in Hf as [? ?]. by exists f.
      + intros H. destruct H as (f & Hf & Hk & E).
        { exists f0. apply Hin, elem_of_cons. by left. }
        exists f. split; [apply list_elem_of_In, Hin; done|by apply bool_decide_eq_true]. }
  split; intros H k Hk; [apply Hc, H; by apply list_elem_of_In|apply Hc, H; by apply list_elem_of_In].
Qed.

Lemma pathMatches_spec sel stages ctx row :
  pathMatchesNodeFilters (flowPathForStages row stages ctx) (normalizeSelectedNodeFilters (Some sel) stages) =
  rowSelected sel stages ctx row.
Proof.
  apply eq_true_iff_eq. rewrite rowSelected_spec.
  assert (Hm : pathMatchesNodeFilters (flowPathForStages row stages ctx) (normalizeSelectedNodeFilters (Some sel) stages) = true
    <-> Forall (fun p => exists x, x ∈ p.2 /\ exists ids,
          mget p.1 (pathIdsByKind (flowPathForStages row stages ctx)) = Some ids /\ x ∈ ids)
        (normalizeSelectedNodeFilters (Some sel) stages)).
  { unfold pathMatchesNodeFilters. destruct (normalizeSelectedNodeFilters _ _) as [|e es]; [by split|].
    rewrite forallb_forall, Forall_forall.
    split; intros H [k sids] Hin; apply list_elem_of_In in Hin; specialize (H _ Hin); cbn [fst snd] in *.
    - destruct (mget k _) as [ids|]; [|done]. apply existsb_exists in H as (x & Hx & E). bool_hyps.
      exists x. split; [by apply list_elem_of_In|]. by exists ids.
    - destruct H as (x & Hx & ids & -> & Hids). apply existsb_exists. exists x.
      split; [by apply list_elem_of_In|by apply bool_decide_eq_true]. }
  rewrite Hm, Forall_forall, normalize_accumulate. set (l := List.filter _ sel).
  assert (Hl : forall f, f ∈ l <-> f ∈ sel /\ f_kind f ∈ stages).
  { intros f. unfold l. rewrite filter_sub. by rewrite bool_decide_eq_true. }
  pose proof (fun k x => accumulate_ids f_kind f_id l k x) as Hids. set (m := accumulate _ _ _ _ _) in *.
  assert (Hnd : NoDup (mkeys m)) by (apply accumulate_NoDup, NoDup_nil_2).
  split.
  - intros H k Hk (f & Hf & Hfk). destruct (Hids k (f_id f)) as [_ (ids & Hg & _)].
    { exists f. split; [apply Hl; by subst|done]. }
    destruct (H (k, ids)) as (x & Hx & Hp); [by apply mget_elem|]. apply path_ids in Hp; [|done]. cbn [fst snd] in *.
    destruct (proj1 (Hids k x)) as (f' & Hf' & E1 & E2); [by exists ids|].
    exists f'. apply Hl in Hf' as [? _]. by subst.
  - intros H [k ids] Hin. cbn [fst snd].
    assert (Hk : k ∈ mkeys m) by (by apply (list_elem_of_fmap_2 fst) in Hin).
    apply accumulate_keys in Hk as [Hk|Hk]; [by apply elem_of_nil in Hk|].
    apply list_elem_of_fmap in Hk as (f & -> & Hf). apply Hl in Hf as [Hf Hst].
    destruct (H (f_kind f) Hst) as (f' & Hf' & E1 & E2); [by exists f|].
    destruct (Hids (f_kind f) (f_id f')) as [_ (ids' & Hg & Hx)].
    { exists f'. split; [apply Hl; by rewrite E1|done]. }
    rewrite (mget_NoDup _ _ _ Hnd Hin) in Hg. injection Hg as <-.
    exists (f_id f'). split; [done|]. by apply path_ids.
Qed.

(** ** Masking only touches labels *)

Definition withMask (b : bool) (o : FlowGraphOptions) : FlowGraphOptions :=
  {| topNodeLimit := topNodeLimit o; overflowMode := overflowMode o; otherNodeLabel := otherNodeLabel o;
     activeNode := activeNode o; activeLink := activeLink o; maskSensitive := b |}.

Definition blankLink : DashboardFlowLink -> DashboardFlowLink := setEndLabels [] [].
Definition blankNode : DashboardFlowNode -> DashboardFlowNode := setLabel [].

Lemma alter_map {A B} (h : A -> B) (f : A -> A) (g : B -> B) i l :
  (forall x, h (f x) = g (h x)) -> map h (alter f i l) = alter g i (map h l).
Proof.
  intros H. revert i. induction l as [|x l IH]; intros [|i]; simpl; try done; [by rewrite H|]. f_equal. apply IH.
Qed.

Lemma colorGroup_blank lc ls g : map blankLink (colorGroup lc ls g) = colorGroup lc (map blankLink ls) g.
Proof.
  unfold colorGroup. cbv zeta.
  rewrite (sort_by_ext (fun i j => match map blankLink ls !! i with Some a => match map blankLink ls !! j with
      Some b => byLinkValue lc a b | None => 0 end | None => 0 end)
    (fun i j => match ls !! i with Some a => match ls !! j with Some b => byLinkValue lc a b | None => 0 end | None => 0 end)).
  2: { intros i j. change (map blankLink) with (fmap (M := list) blankLink). rewrite !list_lookup_fmap.
       by destruct (ls !! i), (ls !! j). }
  set (s := sort_by _ g). clearbody s. generalize (length s) at 1 3. intros n.
  set (L := zip _ _). clearbody L. revert ls. induction L as [|p L IH]; intros ls; simpl; [done|].
  rewrite IH. f_equal. by apply alter_map.
Qed.

Lemma linksBySource_blank ls : linksBySource (map blankLink ls) = linksBySource ls.
Proof.
  unfold linksBySource. rewrite length_map. generalize (@nil (jstr * list nat)) 0%nat (length ls).
  intros m a n. revert a n m. induction ls as [|l ls IH]; intros a [|n] m; simpl; done || apply IH.
Qed.

Lemma assign_blank lc ls :
  map blankLink (assignLinkDisplayColors lc ls) = assignLinkDisplayColors lc (map blankLink ls).
Proof.
  unfold assignLinkDisplayColors. rewrite linksBySource_blank. generalize (mvalues (linksBySource ls)). intros gs.
  revert ls. induction gs as [|g gs IH]; intros ls; simpl; [done|]. by rewrite IH, colorGroup_blank.
Qed.

Lemma values_map {K V W} (h : V -> W) (f : K * V -> V) (m : list (K * V)) :
  map h (mvalues (map (fun p => (p.1, f p)) m)) = map (fun p => h (f p)) m.
Proof. unfold mvalues. by rewrite !map_map. Qed.

Lemma mask_blank ns ls :
  map blankNode (mvalues (maskFlowGraphLabels ns ls).1) = map blankNode (mvalues ns) /\
  map blankLink (mvalues (maskFlowGraphLabels ns ls).2) = map blankLink (mvalues ls).
Proof.
  unfold maskFlowGraphLabels. split.
  - replace (match maskedById ns with [] => _ | _ => _ end.1) with
      (map (fun p => (p.1, if isMaskedNode p.2 then setLabel (maskFlowLabel (n_label p.2)) p.2 else p.2)) ns)
      by by destruct (maskedById ns).
    rewrite values_map. unfold mvalues. rewrite map_map. apply map_ext. intros p. by case_if.
  - destruct (maskedById ns) as [|e m]; [done|]. cbn [snd]. unfold mvalues. rewrite !map_map. by apply map_ext.
Qed.

Lemma highlight_blank ns ls ns' ls' sets :
  map blankNode (mvalues ns) = map blankNode (mvalues ns') ->
  map blankLink (mvalues ls) = map blankLink (mvalues ls') ->
  map blankNode (mvalues (applyFlowHighlights ns ls sets).1) = map blankNode (mvalues (applyFlowHighlights ns' ls' sets).1) /\
  map blankLink (mvalues (applyFlowHighlights ns ls sets).2) = map blankLink (mvalues (applyFlowHighlights ns' ls' sets).2).
Proof.
  intros Hn Hl. destruct sets as [s|]; [|done]. cbn [applyFlowHighlights fst snd]. rewrite !values_map.
  unfold mvalues in *. rewrite !map_map in *. split.
  - pose proof (f_equal (map (fun n => setNodeHighlight (bool_decide (n_id n ∈ h_nodes s)) n)) Hn) as H.
    by rewrite !map_map in H.
  - pose proof (f_equal (map (fun l => setLinkHighlight (bool_decide (linkStableKey l ∈ h_links s)) l)) Hl) as H.
    by rewrite !map_map in H.
Qed.

Section Mask.
Context (localeCompare : jstr -> jstr -> Z).
Context (schemeHead : option Z * list (option jstr)) (schemeTail : list (option Z * list (option jstr))).
Context (rows : list FlowQuotaDataItem) (metric : FlowMetric) (role : FlowRole)
  (palette : option (list jstr)) (visible : option (list FlowNodeKind)) (ctx : FlowPathContext)
  (options : FlowGraphOptions).
Notation lit b := (litMaps localeCompare schemeHead schemeTail rows metric role palette visible ctx (withMask b options)).
Notation sorted b := (sortedLinks localeCompare schemeHead schemeTail rows metric role palette visible ctx (withMask b options)).

Lemma lit_blank :
  map blankNode (mvalues (lit true).1) = map blankNode (mvalues (lit false).1) /\
  map blankLink (mvalues (lit true).2) = map blankLink (mvalues (lit false).2).
Proof. unfold litMaps. apply highlight_blank; apply mask_blank. Qed.

Lemma sorted_blank : map blankLink (sorted true) = map blankLink (sorted false).
Proof.
  unfold sortedLinks. rewrite <- !(sort_by_map blankLink (byEnds localeCompare) (byEnds localeCompare)) by done.
  by rewrite (proj2 lit_blank).
Qed.

Lemma linkTotal_blank roots ls : linkTotal roots (map blankLink ls) = linkTotal roots ls.
Proof.
  unfold linkTotal. rewrite !foldl_sum, !sum_by_filter, sum_by_map. done.
Qed.

Lemma mask_only_labels :
  let g b := buildFlowGraph localeCompare schemeHead schemeTail rows metric role palette visible ctx (withMask b options) in
  map blankLink (links (g true)) = map blankLink (links (g false)) /\
  Permutation (map blankNode (nodes (g true))) (map blankNode (nodes (g false))).
Proof.
  cbv beta zeta. rewrite !graph_unfold. cbn [links nodes]. split.
  - rewrite !assign_blank. f_equal. rewrite !map_map.
    assert (T : graphTotal localeCompare schemeHead schemeTail rows metric role palette visible ctx (withMask true options) =
      graphTotal localeCompare schemeHead schemeTail rows metric role palette visible ctx (withMask false options)).
    { unfold graphTotal. rewrite <- linkTotal_blank, <- (linkTotal_blank _ (sorted false)). by rewrite sorted_blank. }
    rewrite T. generalize (graphTotal localeCompare schemeHead schemeTail rows metric role palette visible ctx (withMask false options)).
    intros t. pose proof (f_equal (map (fun l => setShare (shareOf t (l_value l)) l)) sorted_blank) as H.
    by rewrite !map_map in H.
  - rewrite !sort_by_perm. by rewrite (proj1 lit_blank).
Qed.

End Mask.

(** ** A concrete dashboard *)

Definition demoRow (user : string) (group model : string) (q t c : Z) : FlowQuotaDataItem :=
  {| user_id := None; username := Some (js user); node_name := None; use_group := Some (js group);
     token_id := Some 7; token_name := None; channel_id := Some 3; channel_name := Some (js "azure");
     model_name := Some (js model); token_used := Some t; count := Some c; quota := Some q |}.

Definition demoRows : list FlowQuotaDataItem :=
  [demoRow "alice" "vip" "gpt-4o" 500 1200 3; demoRow "bob" "default" "gpt-4o" 200 800 2;
   demoRow "alice" "vip" "claude" 300 100 1; demoRow "carol" "default" "o3" 40 70 1].

Definition demoOptions : FlowGraphOptions :=
  {| topNodeLimit := Some (num_of_Z 2); overflowMode := None; otherNodeLabel := None;
     activeNode := Some {| f_kind := KUser; f_id := js "user:alice" |}; activeLink := None; maskSensitive := true |}.

Definition demoBuild : FlowBuildOptions :=
  {| o_role := Some RoleAdmin; o_selectedUsers := None; o_selectedNodes := None; o_colorPalette := None;
     o_visibleStages := None; o_deletedTokenLabel := None; o_graph := demoOptions |}.

Definition demoScheme : option Z * list (option jstr) := (None, [Some (js "#1664FF"); None; Some (js "#1AC6FF")]).

Definition demoGraph : DashboardFlowGraph :=
  buildFlowGraph codeUnitCompare demoScheme [] demoRows MQuota RoleAdmin None None EMPTY_FLOW_PATH_CONTEXT demoOptions.

Example demoGraph_links :
  map (fun l => (l_source l, l_target l, l_value l)) (links demoGraph) =
  [(js "group:default", js "model:__other__", 40); (js "group:default", js "model:gpt-4o", 200);
   (js "group:vip", js "model:claude", 300); (js "group:vip", js "model:gpt-4o", 500);
   (js "model:__other__", js "channel:3", 40); (js "model:claude", js "channel:3", 300);
   (js "model:gpt-4o", js "channel:3", 700); (js "user:__other__", js "group:default", 40);
   (js "user:alice", js "group:vip", 800); (js "user:bob", js "group:default", 200)].
Proof. vm_compute. reflexivity. Qed.

Example demoGraph_nodes :
  map (fun n => (n_id n, n_label n, n_value n, n_highlighted n)) (nodes demoGraph) =
  [(js "channel:3", FLOW_MASK_TEXT, 1040, Some true); (js "user:alice", FLOW_MASK_TEXT, 800, Some true);
   (js "group:vip", FLOW_MASK_TEXT, 800, Some true); (js "model:gpt-4o", js "gpt-4o", 700, Some true);
   (js "model:claude", js "claude", 300, Some true); (js "group:default", FLOW_MASK_TEXT, 240, Some false);
   (js "user:bob", FLOW_MASK_TEXT, 200, Some false); (js "model:__other__", js "Other models", 40, Some false);
   (js "user:__other__", js "Other users", 40, Some false)].
Proof. vm_compute. reflexivity. Qed.

Example demoGraph_colors :
  map (fun l => (l_linkColor l, num_to_str (l_share l))) (links demoGraph) =
  map (fun p => (js p.1, js p.2))
  [("rgba(22, 100, 255, 0.44)", "0.038461538461538464"); ("rgba(22, 100, 255, 0.24)", "0.19230769230769232");
   ("rgba(26, 198, 255, 0.44)", "0.28846153846153844"); ("rgba(26, 198, 255, 0.24)", "0.4807692307692308");
   ("rgba(22, 100, 255, 0.34)", "0.038461538461538464"); ("rgba(26, 198, 255, 0.34)", "0.28846153846153844");
   ("rgba(26, 198, 255, 0.34)", "0.6730769230769231"); ("rgba(22, 100, 255, 0.34)", "0.038461538461538464");
   ("rgba(26, 198, 255, 0.34)", "0.7692307692307693"); ("rgba(22, 100, 255, 0.34)", "0.19230769230769232")]%string.
Proof. vm_compute. reflexivity. Qed.

(** ** Theorems *)

Lemma paths_sum_rows lc rows metric role visible ctx options (w : FlowMetrics -> Z) :
  overflowMode options <> Some Hide ->
  sum_by (fun pp => w (metrics pp)) (graphPaths lc rows metric role visible ctx options) =
  sum_by (fun row => w (rowMetrics row)) rows.
Proof.
  intros H. rewrite <- (sum_by_map metrics), <- (sum_by_map rowMetrics). f_equal. apply prepared_metrics. right.
  unfold graphMode. destruct (overflowMode options) as [[]|]; done.
Qed.

(** [C1] Nothing is lost or counted twice: unless overflowing paths are hidden,
    the nodes of every visible column total the summary of the filtered rows, in
    quota, tokens and requests, and in the displayed metric. *)
Theorem flow_columns_total_summary lc nf sh st rows metric options k :
  overflowMode (o_graph options) <> Some Hide ->
  k ∈ resolveVisibleStages (default DEFAULT_FLOW_ROLE (o_role options)) (o_visibleStages options) ->
  let d := buildDashboardFlowData lc nf sh st rows metric options in
  let column := List.filter (fun n => bool_decide (n_kind n = k)) (nodes (flow d)) in
  sum_by n_quota column = sm_quota (summary d) /\
  sum_by n_tokens column = sm_tokens (summary d) /\
  sum_by n_requests column = sm_requests (summary d) /\
  sum_by n_value column = summaryValue (summary d) metric.
Proof.
  intros Hh Hk. cbv zeta. unfold buildDashboardFlowData. cbn [flow summary].
  set (frows := filterRowsByNodes _ _ _ _). rewrite summaryValue_sum.
  destruct (buildSummary_sum frows) as (-> & -> & ->).
  repeat split; erewrite column_total; try exact Hk; try apply _; by apply paths_sum_rows.
Qed.

Lemma flow_columns_total_summary_witness :
  let d := buildDashboardFlowData codeUnitCompare print_int demoScheme [] demoRows MQuota demoBuild in
  let column := List.filter (fun n => bool_decide (n_kind n = KModel)) (nodes (flow d)) in
  sum_by n_quota column = sm_quota (summary d) /\
  sum_by n_tokens column = sm_tokens (summary d) /\
  sum_by n_requests column = sm_requests (summary d) /\
  sum_by n_value column = summaryValue (summary d) MQuota.
Proof.
  apply (flow_columns_total_summary codeUnitCompare print_int demoScheme [] demoRows MQuota demoBuild KModel);
    [done|apply (bool_decide_unpack _); vm_compute; exact I].
Defined.

(** [C18] Flow is conserved through every node: what enters a node that is not in
    the first column, and what leaves one that is not in the last, is the
    node's value.  Names must not contain the NUL character, with which the
    code separates the two ends in a link's key. *)
Theorem flow_conserved_through_nodes lc sh st rows metric role palette visible ctx options n :
  let g := buildFlowGraph lc sh st rows metric role palette visible ctx options in
  let stages := resolveVisibleStages role visible in
  Forall namesNulFree rows -> n ∈ nodes g ->
  (Some (n_kind n) <> head stages ->
   sum_by l_value (List.filter (fun l => bool_decide (l_target l = n_id n)) (links g)) = n_value n) /\
  (Some (n_kind n) <> last stages ->
   sum_by l_value (List.filter (fun l => bool_decide (l_source l = n_id n)) (links g)) = n_value n).
Proof. intros g stages Hnul Hn. split; intros Hk; [by apply inflow|by apply outflow]. Qed.

(** A model node of the demonstration graph. *)
Definition demoNode : DashboardFlowNode :=
  default (newNode {| p_id := []; p_label := []; p_kind := KUser |} [] []) (nodes demoGraph !! 3%nat).

Lemma flow_conserved_through_nodes_witness :
  (Some (n_kind demoNode) <> head (resolveVisibleStages RoleAdmin None) ->
   sum_by l_value (List.filter (fun l => bool_decide (l_target l = n_id demoNode)) (links demoGraph)) = n_value demoNode) /\
  (Some (n_kind demoNode) <> last (resolveVisibleStages RoleAdmin None) ->
   sum_by l_value (List.filter (fun l => bool_decide (l_source l = n_id demoNode)) (links demoGraph)) = n_value demoNode).
Proof.
  apply (flow_conserved_through_nodes codeUnitCompare demoScheme [] demoRows MQuota RoleAdmin None None
    EMPTY_FLOW_PATH_CONTEXT demoOptions demoNode).
  - apply (bool_decide_unpack _). vm_compute. exact I.
  - unfold demoNode. apply list_elem_of_lookup_2 with (i := 3%nat). vm_compute. reflexivity.
Defined.

(** A node limit holds in every column: at most that many nodes, and one
    more for the aggregate node when overflow is aggregated. *)
Theorem flow_limit_bounds_columns lc sh st rows metric role palette visible ctx options limit k :
  normalizeTopNodeLimit (topNodeLimit options) = Some limit ->
  k ∈ resolveVisibleStages role visible ->
  (length (List.filter (fun n => bool_decide (n_kind n = k))
     (nodes (buildFlowGraph lc sh st rows metric role palette visible ctx options))) <=
   Z.to_nat limit + match default DEFAULT_FLOW_OVERFLOW_MODE (overflowMode options) with
                    | Aggregate => 1 | Hide => 0 end)%nat.
Proof. intros Hl Hk. by apply (column_limit lc sh st rows metric role palette visible ctx options limit k). Qed.

Lemma flow_limit_bounds_columns_witness :
  (length (List.filter (fun n => bool_decide (n_kind n = KModel)) (nodes demoGraph)) <= 3)%nat.
Proof.
  apply (flow_limit_bounds_columns codeUnitCompare demoScheme [] demoRows MQuota RoleAdmin None None
    EMPTY_FLOW_PATH_CONTEXT demoOptions 2 KModel); [vm_compute; reflexivity|].
  apply (bool_decide_unpack _). vm_compute. exact I.
Defined.

(** Every share is the link's part of the summary: the total the code
    divides by is the displayed metric of all the rows. *)
Theorem flow_shares_divide_summary lc sh st rows metric role palette visible ctx options l :
  Forall namesNulFree rows -> overflowMode options <> Some Hide ->
  l ∈ links (buildFlowGraph lc sh st rows metric role palette visible ctx options) ->
  l_share l = shareOf (summaryValue (buildSummary rows) metric) (l_value l).
Proof.
  intros Hn Hh Hl. rewrite (graph_link_share _ _ _ _ _ _ _ _ _ _ l Hl), graphTotal_sum by done.
  by rewrite summaryValue_sum, (paths_sum_rows lc rows metric role visible ctx options (fun m => metricValue m metric)).
Qed.

Definition demoLink : DashboardFlowLink :=
  default (newLink {| p_id := []; p_label := []; p_kind := KUser |} {| p_id := []; p_label := []; p_kind := KUser |} [] [])
    (links demoGraph !! 8%nat).

Lemma flow_shares_divide_summary_witness :
  l_share demoLink = shareOf (summaryValue (buildSummary demoRows) MQuota) (l_value demoLink).
Proof.
  apply (flow_shares_divide_summary codeUnitCompare demoScheme [] demoRows MQuota RoleAdmin None None
    EMPTY_FLOW_PATH_CONTEXT demoOptions demoLink).
  - apply (bool_decide_unpack _). vm_compute. exact I.
  - done.
  - unfold demoLink. apply list_elem_of_lookup_2 with (i := 8%nat). vm_compute. reflexivity.
Defined.

(** With masking on, no sensitive name is left: a user, node, token, group
    or channel that is not an aggregate shows the mask (or an empty label), on
    the node and on both ends of every link. *)
Theorem flow_mask_hides_names lc sh st rows metric role palette visible ctx options n :
  let g := buildFlowGraph lc sh st rows metric role palette visible ctx options in
  maskSensitive options = true -> n ∈ nodes g ->
  n_kind n ∈ SENSITIVE_FLOW_KINDS -> n_id n ∉ OTHER_FLOW_NODE_ID_SET ->
  isMaskText (n_label n) /\
  Forall (fun l => (l_source l = n_id n -> isMaskText (l_sourceLabel l)) /\
                   (l_target l = n_id n -> isMaskText (l_targetLabel l))) (links g).
Proof.
  intros g Hm Hn Hk Ho. assert (Hmask : isMaskedNode n = true).
  { unfold isMaskedNode. apply andb_true_intro. split; [by apply bool_decide_eq_true|].
    apply negb_true_iff. by apply bool_decide_eq_false. }
  split.
  - destruct (graph_node_lit _ _ _ _ _ _ _ _ _ _ n Hn) as (p & Hp & E1 & E2 & ->).
    apply (masked_node _ _ _ _ _ _ _ _ _ _ p Hm Hp). unfold isMaskedNode in *. by rewrite <- E1, <- E2.
  - apply Forall_forall. intros l Hl. by apply (masked_link lc sh st rows metric role palette visible ctx options l n).
Qed.

Lemma flow_mask_hides_names_witness :
  let n := default demoNode (nodes demoGraph !! 1%nat) in
  isMaskText (n_label n) /\
  Forall (fun l => (l_source l = n_id n -> isMaskText (l_sourceLabel l)) /\
                   (l_target l = n_id n -> isMaskText (l_targetLabel l))) (links demoGraph).
Proof.
  apply (flow_mask_hides_names codeUnitCompare demoScheme [] demoRows MQuota RoleAdmin None None
    EMPTY_FLOW_PATH_CONTEXT demoOptions (default demoNode (nodes demoGraph !! 1%nat))).
  - done.
  - apply list_elem_of_lookup_2 with (i := 1%nat). vm_compute. reflexivity.
  - apply (bool_decide_unpack _). vm_compute. exact I.
  - apply (bool_decide_unpack _). vm_compute. exact I.
Defined.

(** Masking changes nothing but labels: the links are the same list with the
    same values, shares, colours and highlighting, and the nodes are the same
    up to their order. *)
Theorem flow_mask_changes_only_labels lc sh st rows metric role palette visible ctx options :
  let g b := buildFlowGraph lc sh st rows metric role palette visible ctx (withMask b options) in
  map blankLink (links (g true)) = map blankLink (links (g false)) /\
  Permutation (map blankNode (nodes (g true))) (map blankNode (nodes (g false))).
Proof. apply mask_only_labels. Qed.

(** The node filter keeps, in order, exactly the rows that have, for every
    visible kind with selections, a selected node of that kind. *)
Theorem flow_node_filter_selects_rows rows sel stages ctx :
  filterRowsByNodes rows (Some sel) stages ctx = List.filter (rowSelected sel stages ctx) rows.
Proof.
  unfold filterRowsByNodes. destruct (normalizeSelectedNodeFilters (Some sel) stages) as [|e es] eqn:E.
  - symmetry. rewrite (filter_ext _ (fun _ => true)); [by induction rows; simpl; congruence|].
    intros row. rewrite <- (pathMatches_spec sel stages ctx row), E. done.
  - rewrite <- E. apply filter_ext. intros row. apply pathMatches_spec.
Qed.

(** The counters of the graph stay within the summary: with non-negative
    rows every node's totals lie between 0 and the summary's, so below [2^53]
    all the sums are exact in binary64. *)
Theorem flow_counters_bounded lc sh st rows metric role palette visible ctx options n :
  Forall metricsNonneg rows ->
  n ∈ nodes (buildFlowGraph lc sh st rows metric role palette visible ctx options) ->
  0 <= n_quota n <= sm_quota (buildSummary rows) /\
  0 <= n_tokens n <= sm_tokens (buildSummary rows) /\
  0 <= n_requests n <= sm_requests (buildSummary rows) /\
  0 <= n_value n <= summaryValue (buildSummary rows) metric.
Proof.
  intros H Hn. rewrite summaryValue_sum. destruct (buildSummary_sum rows) as (-> & -> & ->).
  assert (B : forall mu w, NodeMeasure metric mu w -> (forall row, metricsNonneg row -> 0 <= w (rowMetrics row)) ->
    0 <= mu n <= sum_by (fun row => w (rowMetrics row)) rows).
  { intros mu w ? Hw. eapply node_bound; [exact _| |exact Hn]. eapply Forall_impl; [exact H|exact Hw]. }
  split; [apply (B n_quota m_quota _)|split; [apply (B n_tokens m_tokens _)|split; [apply (B n_requests m_requests _)|
    apply (B n_value (fun m => metricValue m metric) _)]]];
    intros row (? & ? & ?); try destruct metric; simpl in *; lia.
Qed.

Lemma flow_counters_bounded_witness :
  0 <= n_quota demoNode <= sm_quota (buildSummary demoRows) /\
  0 <= n_tokens demoNode <= sm_tokens (buildSummary demoRows) /\
  0 <= n_requests demoNode <= sm_requests (buildSummary demoRows) /\
  0 <= n_value demoNode <= summaryValue (buildSummary demoRows) MQuota.
Proof.
  apply (flow_counters_bounded codeUnitCompare demoScheme [] demoRows MQuota RoleAdmin None None
    EMPTY_FLOW_PATH_CONTEXT demoOptions demoNode).
  - repeat constructor; vm_compute; discriminate.
  - unfold demoNode. apply list_elem_of_lookup_2 with (i := 3%nat). vm_compute. reflexivity.
Defined.

(** With a selection that some path matches, a node is highlighted exactly
    when it lies on a matching path, a link exactly when a matching path takes
    it, and every other node is dimmed. *)
Theorem flow_highlight_marks_matching_paths lc sh st rows metric role palette visible ctx options :
  let g := buildFlowGraph lc sh st rows metric role palette visible ctx options in
  let paths := graphPaths lc rows metric role visible ctx options in
  let chosen p := matchesPath (activeNode options) (activeLink options) (path p) = true in
  Forall namesNulFree rows -> selectionActive role visible options = true ->
  (exists p, p ∈ paths /\ chosen p) ->
  Forall (fun n => (n_highlighted n = Some true <-> exists p, p ∈ paths /\ chosen p /\ n_id n ∈ map p_id (path p)) /\
                   (n_dimmed n = Some true <-> n_highlighted n = Some false)) (nodes g) /\
  Forall (fun l => l_highlighted l = Some true <-> exists p a b, p ∈ paths /\ chosen p /\
                   (a, b) ∈ steps (path p) /\ l_source l = p_id a /\ l_target l = p_id b) (links g).
Proof.
  cbv beta zeta. intros Hnul Ha Hp.
  destruct (highlights_exist lc sh rows metric role visible ctx options Ha Hp) as (sets & E & Hn & Hl).
  split; apply Forall_forall.
  - intros n H. destruct (node_highlight _ sh st _ _ _ palette _ _ _ sets n E H) as [-> ->]. split.
    + rewrite <- Hn. split; [intros [= ?]; by bool_hyps|]. intros ?. f_equal. by apply bool_decide_eq_true.
    + by destruct (bool_decide _).
  - intros l H. rewrite (link_highlight _ sh st _ _ _ palette _ _ _ sets l E H).
    transitivity (linkStableKey l ∈ h_links sets).
    { split; [intros [= ?]; by bool_hyps|]. intros ?. f_equal. by apply bool_decide_eq_true. }
    rewrite Hl. pose proof (graph_link_nulFree _ _ _ _ _ _ _ _ _ _ l Hnul H) as Hs.
    pose proof (prepared_nulFree rows (resolveVisibleStages role visible) ctx
      (topSets lc rows metric role visible ctx options) (graphMode options) (otherNodeLabel options) Hnul) as F.
    rewrite Forall_forall in F. split.
    + intros (p & Hpp & Hc & ([a b] & Ek & Hab)%list_elem_of_fmap). exists p, a, b.
      specialize (F p Hpp). rewrite Forall_forall in F. pose proof (F a (proj1 (steps_in _ _ _ Hab))) as Fa.
      apply (f_equal keyEnds) in Ek. unfold linkStableKey, stepKey, pathLinkKey in Ek.
      rewrite !keyEnds_app in Ek by done. by injection Ek as -> ->.
    + intros (p & a & b & Hpp & Hc & Hab & E1 & E2). exists p. split; [done|]. split; [done|].
      unfold linkStableKey. rewrite E1, E2. by apply (list_elem_of_fmap_2 stepKey _ (a, b)).
Qed.

Lemma flow_highlight_marks_matching_paths_witness :
  let paths := graphPaths codeUnitCompare demoRows MQuota RoleAdmin None EMPTY_FLOW_PATH_CONTEXT demoOptions in
  let chosen p := matchesPath (activeNode demoOptions) (activeLink demoOptions) (path p) = true in
  Forall (fun n => (n_highlighted n = Some true <-> exists p, p ∈ paths /\ chosen p /\ n_id n ∈ map p_id (path p)) /\
                   (n_dimmed n = Some true <-> n_highlighted n = Some false)) (nodes demoGraph) /\
  Forall (fun l => l_highlighted l = Some true <-> exists p a b, p ∈ paths /\ chosen p /\
                   (a, b) ∈ steps (path p) /\ l_source l = p_id a /\ l_target l = p_id b) (links demoGraph).
Proof.
  apply (flow_highlight_marks_matching_paths codeUnitCompare demoScheme [] demoRows MQuota RoleAdmin None None
    EMPTY_FLOW_PATH_CONTEXT demoOptions).
  - apply (bool_decide_unpack _). vm_compute. exact I.
  - vm_compute. reflexivity.
  - eexists. split; [apply list_elem_of_lookup_2 with (i := 0%nat); vm_compute; reflexivity|vm_compute; reflexivity].
Defined.
