(* ===== verification/FlowSankey.v ===== *)
(** * The Sankey chart of the flow graph (features/dashboard/lib/flow.ts,
      lines 505-515 and 1019-1336, and features/dashboard/lib/flow-selection.ts)

    The chart data built from a graph (node and link rows with their drawing
    order), and the callbacks the chart library calls with its own datum, an
    arbitrary JavaScript value ([jsval]): how a field is looked up in a datum,
    which datum is a link, and which node a click selects. *)
From stdpp Require Import prelude list strings.
From S2P Require Import Prelude JsString JsNumber JsValue JsMap FlowGraph.
Open Scope Z_scope.
Open Scope js_scope.

(** ** Chart datums *)

Definition numberValueJs (v : jsval) : number :=
  let n := js_Number v in if num_is_finite n then n else num_zero.

(** [typeof v === 'object'] with a property lookup; an array has its elements
    under their decimal indices and its length. *)
Definition elementKeys (xs : list jsval) : list (jstr * jsval) :=
  zip (map (fun i => print_int (Z.of_nat i)) (seq 0 (length xs))) xs.

Definition recordValue (v : jsval) : option (list (jstr * jsval)) :=
  match v with
  | VObj fs => Some fs
  | VArr xs => Some (elementKeys xs ++ [(js "length", VNum (num_of_Z (Z.of_nat (length xs))))])
  | _ => None
  end.

Definition orRecord (a : option (list (jstr * jsval))) (b : list (jstr * jsval)) : list (jstr * jsval) := default b a.

(** [nested[depth]]: an integral depth indexes, anything else misses. *)
Definition arrayAt (xs : list jsval) (depth : number) : jsval :=
  match num_to_Z depth with
  | Some z => if z <? 0 then VUndef else default VUndef (xs !! Z.to_nat z)
  | None => VUndef
  end.

Definition sankeyDatumSource (datum : list (jstr * jsval)) : list (jstr * jsval) :=
  let nested := get_prop (js "datum") datum in
  match nested with
  | VArr xs =>
      let depth := numberValueJs (get_prop (js "depth") datum) in
      orRecord (recordValue (arrayAt xs depth)) (orRecord (recordValue (arrayAt xs num_zero)) datum)
  | _ => orRecord (recordValue nested) datum
  end.

Definition isUndef (v : jsval) : bool := match v with VUndef => true | _ => false end.

Definition sankeyDatumValue (datum : list (jstr * jsval)) (key : jstr) : jsval :=
  if negb (isUndef (get_prop key datum)) then get_prop key datum
  else get_prop key (sankeyDatumSource datum).

Definition sankeyDatumFlag (datum : list (jstr * jsval)) (key : jstr) : bool :=
  match sankeyDatumValue datum key with VBool b => b | _ => false end.

Definition flowSankeyDatumValue (datum : jsval) (key : jstr) : jsval :=
  match recordValue datum with Some r => sankeyDatumValue r key | None => VUndef end.

Definition isSankeyLinkDatum (datum : list (jstr * jsval)) : bool :=
  negb (isUndef (sankeyDatumValue datum (js "source"))) && negb (isUndef (sankeyDatumValue datum (js "target"))).

Definition kindName (k : FlowNodeKind) : jstr :=
  match k with
  | KUser => js "user" | KNode => js "node" | KToken => js "token"
  | KGroup => js "group" | KModel => js "model" | KChannel => js "channel"
  end.

Definition isFlowNodeKind (v : jsval) : option FlowNodeKind :=
  match v with
  | VStr s => List.find (fun k => s === kindName k) FLOW_NODE_KINDS
  | _ => None
  end.

Definition flowNodeFilterFromSankeyDatum (datum : jsval) : option FlowNodeFilter :=
  match recordValue datum with
  | None => None
  | Some record =>
      if isSankeyLinkDatum record then None
      else
        let id := sankeyDatumValue record (js "key") in
        let kind := isFlowNodeKind (sankeyDatumValue record (js "kind")) in
        match id, kind with
        | VStr s, Some k => Some {| f_kind := k; f_id := s |}
        | VNum n, Some k => Some {| f_kind := k; f_id := num_to_str n |}
        | _, _ => None
        end
  end.

(** ** The chart data *)

Definition flagNumber (b : option bool) : option Z :=
  match b with Some true => Some 1 | Some false => Some 0 | None => None end.

(** [Number(x) - Number(y)] of two optional flags; [NaN] (a missing flag) is
    falsy, so the chain of [||] goes on. *)
Definition flagDiff (a b : option bool) : Z :=
  match flagNumber a, flagNumber b with Some x, Some y => x - y | _, _ => 0 end.

Section Sankey.
Context (localeCompare : jstr -> jstr -> Z).

Definition byLinkDrawPriority (a b : DashboardFlowLink) : Z :=
  cmp_or (flagDiff (l_dimmed a) (l_dimmed b))
    (cmp_or (flagDiff (l_highlighted b) (l_highlighted a))
      (cmp_or (l_value b - l_value a) (localeCompare (linkStableKey a) (linkStableKey b)))).

Record SankeyNode := mkSankeyNode { sk_key : jstr; sk_name : jstr; sk_rawLabel : jstr; sk_node : DashboardFlowNode }.
Record SankeyLink := mkSankeyLink { sk_linkKey : jstr; sk_zIndex : Z; sk_link : DashboardFlowLink }.

Definition sankeyNode (n : DashboardFlowNode) : SankeyNode :=
  {| sk_key := n_id n; sk_name := n_label n; sk_rawLabel := n_label n; sk_node := n |}.

Definition linkZIndex (index : Z) (l : DashboardFlowLink) : Z :=
  match l_highlighted l, l_dimmed l with
  | Some true, _ => 1000000 + index
  | _, Some true => index
  | _, _ => 100000 + index
  end.

Definition sankeyLink (p : nat * DashboardFlowLink) : SankeyLink :=
  {| sk_linkKey := linkStableKey p.2; sk_zIndex := linkZIndex (Z.of_nat p.1) p.2; sk_link := p.2 |}.

(** The [data] of the chart specification. *)
Definition sankeyData (g : DashboardFlowGraph) : list SankeyNode * list SankeyLink :=
  let drawn := sort_by byLinkDrawPriority (List.filter (fun l => 0 <? l_value l) (links g)) in
  (map sankeyNode (nodes g), map sankeyLink (zip (seq 0 (length drawn)) drawn)).

End Sankey.

(** ** Style callbacks *)

Definition num_lit (s : string) : number := num_of_str (js s).

Definition nodeFillOpacity (datum : list (jstr * jsval)) : number :=
  if sankeyDatumFlag datum (js "dimmed") then num_lit "0.18"
  else if sankeyDatumFlag datum (js "highlighted") then num_of_Z 1
  else num_lit "0.92".

Definition linkFillOpacity (datum : list (jstr * jsval)) : number :=
  if sankeyDatumFlag datum (js "dimmed") then num_lit "0.08"
  else if sankeyDatumFlag datum (js "highlighted") then num_lit "0.86"
  else
    let alpha := numberValueJs (sankeyDatumValue datum (js "linkAlpha")) in
    if num_truthy alpha then alpha else num_of_Z 1.

Definition linkZIndexOf (datum : list (jstr * jsval)) : number :=
  let zIndex := sankeyDatumValue datum (js "zIndex") in
  if negb (isUndef zIndex) then numberValueJs zIndex
  else num_sub (num_of_Z 1000000000) (numberValueJs (sankeyDatumValue datum (js "value"))).

Definition nullish (v : jsval) : bool := match v with VUndef | VNull => true | _ => false end.
Definition orNullish (a b : jsval) : jsval := if nullish a then b else a.

Definition tooltipVisible (datum : list (jstr * jsval)) : bool :=
  isSankeyLinkDatum datum || negb (isUndef (sankeyDatumValue datum (js "key"))).

Definition tooltipTitle (datum : list (jstr * jsval)) : jstr :=
  let source := sankeyDatumValue datum (js "source") in
  let target := sankeyDatumValue datum (js "target") in
  if truthy source && truthy target then
    js_String (orNullish (sankeyDatumValue datum (js "sourceLabel")) source) ++ js " -> " ++
    js_String (orNullish (sankeyDatumValue datum (js "targetLabel")) target)
  else js_String (orNullish (orNullish (sankeyDatumValue datum (js "name")) (sankeyDatumValue datum (js "rawLabel")))
                   (VStr [])).

(** ** Selection helpers (flow-selection.ts) *)

Inductive FlowDisplayState := DLoading | DError | DEmpty | DChart.

Definition flowDisplayState (isLoading isError : bool) (linkCount : Z) (themeReady : bool) : FlowDisplayState :=
  if isLoading then DLoading
  else if isError then DError
  else if linkCount =? 0 then DEmpty
  else if negb themeReady then DLoading
  else DChart.

Record FlowResponse := mkFlowResponse {
  fr_success : bool; fr_data : option (list FlowQuotaDataItem); fr_message : option jstr }.

(** The rows, or the message of the error that is thrown. *)
Definition requireSuccessfulFlowRows (response : FlowResponse) (fallbackMessage : jstr) :
    list FlowQuotaDataItem + jstr :=
  if negb (fr_success response) then inr (opt_or (fr_message response) fallbackMessage)
  else inl (default [] (fr_data response)).

Definition compactFlowSelectionLabel (count : Z) : jstr := if 0 <? count then print_int count else js "*".

Definition visibleFlowUsers (users : list FlowUserFilterOption) (selectedUsers : list jstr) : list FlowUserFilterOption :=
  match selectedUsers with
  | [] => users
  | _ => let selected := set_from selectedUsers in
         List.filter (fun user => bool_decide (uo_value user ∈ selected)) users
  end.

(** ** Clicking a drawn node selects it *)

(** The datum the chart hands to a click on a node row. *)
Definition nodeDatum (n : DashboardFlowNode) : jsval :=
  VObj [(js "key", VStr (n_id n)); (js "name", VStr (n_label n)); (js "rawLabel", VStr (n_label n));
        (js "kind", VStr (kindName (n_kind n))); (js "value", VNum (num_of_Z (n_value n)))].

(** The datum a click on a link row carries. *)
Definition linkDatum (l : DashboardFlowLink) : jsval :=
  VObj [(js "source", VStr (l_source l)); (js "target", VStr (l_target l)); (js "linkKey", VStr (linkStableKey l));
        (js "sourceLabel", VStr (l_sourceLabel l)); (js "targetLabel", VStr (l_targetLabel l));
        (js "value", VNum (num_of_Z (l_value l)))].

(** Sankey layouts wrap a row as [{ datum: [row, ...], depth }]. *)
Definition wrapDatum (depth : nat) (rows : list jsval) : jsval :=
  VObj [(js "datum", VArr rows); (js "depth", VNum (num_of_Z (Z.of_nat depth)))].

Example click_samples :
  let n := newNode {| p_id := js "user:7"; p_label := js "eve"; p_kind := KUser |} (js "#000000") (js "user:7") in
  flowNodeFilterFromSankeyDatum (nodeDatum n) = Some {| f_kind := KUser; f_id := js "user:7" |} /\
  flowNodeFilterFromSankeyDatum (wrapDatum 1 [VNull; nodeDatum n]) = Some {| f_kind := KUser; f_id := js "user:7" |} /\
  flowNodeFilterFromSankeyDatum (wrapDatum 5 [nodeDatum n]) = Some {| f_kind := KUser; f_id := js "user:7" |} /\
  flowNodeFilterFromSankeyDatum (VStr (js "user:7")) = None.
Proof. vm_compute. auto. Qed.

(** ** Drawing order *)

(** Highlighted links are the top layer, dimmed ones the bottom. *)
Definition linkLayer (l : DashboardFlowLink) : Z :=
  match l_highlighted l, l_dimmed l with Some true, _ => 2 | _, Some true => 0 | _, _ => 1 end.

Lemma zip_seq_lookup {A} (l : list A) a i p :
  zip (seq a (length l)) l !! i = Some p -> p.1 = (a + i)%nat /\ l !! i = Some p.2 /\ (i < length l)%nat.
Proof.
  revert a i. induction l as [|x l IH]; intros a i H; [done|].
  destruct i as [|i]; simpl in H; [injection H as <-; simpl; repeat split; lia|].
  apply IH in H as (E & H2 & H3). simpl. repeat split; [lia|done|lia].
Qed.

Lemma sankeyData_lookup lc g i s :
  (sankeyData lc g).2 !! i = Some s ->
  sk_zIndex s = linkZIndex (Z.of_nat i) (sk_link s) /\ (i < length (links g))%nat.
Proof.
  unfold sankeyData. cbv zeta. cbn [snd].
  change (map sankeyLink) with (fmap (M := list) sankeyLink). rewrite list_lookup_fmap.
  intros (p & Hp & ->)%fmap_Some. apply zip_seq_lookup in Hp as (E & _ & Hi). rewrite sort_by_length in Hi.
  cbn. rewrite E. split; [done|]. eapply Nat.lt_le_trans; [exact Hi|apply filter_length_le].
Qed.

(** The drawn links are exactly the graph's links with a positive value, and
    with at most 100,000 links the layers never mix: a highlighted link is drawn
    above every plain one and a plain one above every dimmed one, and within a
    layer a later row is above an earlier one. *)
Theorem sankey_layers_do_not_mix lc g i j a b :
  Permutation (map sk_link (sankeyData lc g).2) (List.filter (fun l => 0 <? l_value l) (links g)) /\
  (Z.of_nat (length (links g)) <= 100000 ->
   (sankeyData lc g).2 !! i = Some a -> (sankeyData lc g).2 !! j = Some b ->
   linkLayer (sk_link a) < linkLayer (sk_link b) \/
   (linkLayer (sk_link a) = linkLayer (sk_link b) /\ (i < j)%nat) ->
   sk_zIndex a < sk_zIndex b).
Proof.
  split.
  - unfold sankeyData. cbv zeta. cbn [snd]. rewrite map_map. cbn.
    change (fun x : nat * DashboardFlowLink => x.2) with (@snd nat DashboardFlowLink).
    change (map snd) with (fmap (M := list) (@snd nat DashboardFlowLink)).
    rewrite snd_zip by (rewrite length_seq; lia). apply sort_by_perm.
  - intros Hn (-> & Ha)%sankeyData_lookup (-> & Hb)%sankeyData_lookup H.
    unfold linkLayer, linkZIndex in *.
    destruct (l_highlighted (sk_link a)) as [[]|], (l_dimmed (sk_link a)) as [[]|],
      (l_highlighted (sk_link b)) as [[]|], (l_dimmed (sk_link b)) as [[]|]; lia.
Qed.

Definition demoSankeyLink (source target : string) (v : Z) (h : option bool) : DashboardFlowLink :=
  let l := newLink {| p_id := js source; p_label := js source; p_kind := KUser |}
             {| p_id := js target; p_label := js target; p_kind := KModel |} [] [] in
  let l := bumpLink {| m_quota := v; m_tokens := 0; m_requests := 1 |} MQuota l in
  match h with Some b => setLinkHighlight b l | None => l end.

Definition demoSankey : DashboardFlowGraph :=
  {| nodes := []; links := [demoSankeyLink "user:1" "model:a" 5 (Some false); demoSankeyLink "user:2" "model:a" 9 (Some true);
                            demoSankeyLink "user:2" "model:b" 0 (Some true)] |}.

Definition drawnAt (i : nat) : SankeyLink :=
  default (sankeyLink (0%nat, demoSankeyLink "" "" 0 None)) ((sankeyData (fun _ _ => 0) demoSankey).2 !! i).

Lemma sankey_layers_do_not_mix_witness :
  sk_zIndex (drawnAt 1) < sk_zIndex (drawnAt 0).
Proof.
  apply (proj2 (sankey_layers_do_not_mix (fun _ _ => 0) demoSankey 1 0 (drawnAt 1) (drawnAt 0)));
    [vm_compute; discriminate|vm_compute; reflexivity|vm_compute; reflexivity|left; vm_compute; reflexivity].
Defined.
