(* ===== verification/Chat.v ===== *)
(** * The playground chat (features/playground: types.ts, constants.ts,
      lib/message-utils.ts, lib/payload-builder.ts, hooks/use-chat-handler.ts,
      hooks/use-stream-request.ts)

    Messages and their operations, the parser that separates the thinking part
    of a reply, the request payload, and the state machine of a streamed reply:
    the hook's handlers are functions on the message list, the stream's refs
    are the fields of [StreamState], and every callback of the event source is
    one [Event]. *)
From stdpp Require Import prelude list strings.
From S2P Require Import Prelude JsString JsNumber JsValue.
Open Scope js_scope.

(** ** Data *)

Inductive MessageRole := User | Assistant | System.
Inductive MessageStatus := Loading | Streaming | Complete | Error.

#[export] Instance role_eq_dec : EqDecision MessageRole.
Proof. solve_decision. Defined.
#[export] Instance status_eq_dec : EqDecision MessageStatus.
Proof. solve_decision. Defined.

(** The id is missing only in a version rebuilt from a message without any. *)
Record MessageVersion := mkVersion { v_id : option jstr; v_content : jstr }.
Record MessageImage := mkImage { img_id : jstr; img_url : jstr }.
Record Reasoning := mkReasoning { r_content : jstr; r_duration : number }.

Record Message := mkMessage {
  key : jstr; from : MessageRole; versions : list MessageVersion; images : option (list MessageImage);
  sources : option (list (jstr * jstr)); (* href, title *)
  reasoning : option Reasoning; isReasoningStreaming : option bool; isReasoningComplete : option bool;
  isContentComplete : option bool; status : option MessageStatus; errorCode : jsval }.

Inductive ContentPart := TextPart (text : jstr) | ImagePart (url : jstr).
Inductive MessageContent := PlainText (text : jstr) | Parts (parts : list ContentPart).
Record ChatCompletionMessage := mkApiMessage { role : MessageRole; content : MessageContent }.

Definition API_REQUEST_ERROR : jstr := js "Request error occurred".
Definition PARSE_ERROR : jstr := js "Error parsing response data".
Definition STREAM_START_ERROR : jstr := js "Error establishing connection".
Definition CONNECTION_CLOSED : jstr := js "Connection closed".
Definition INTERRUPTED : jstr := js "Generation was interrupted".

(** ** Messages *)

Section Ids.
(** [nanoid()]: a supply of identifiers, drawn in order. *)
Context (nanoid : nat -> jstr).

Definition createMessageVersion (n : nat) (text : jstr) : MessageVersion :=
  {| v_id := Some (nanoid n); v_content := text |}.

Definition createUserMessage (n : nat) (text : jstr) (imageUrls : list jstr) : Message :=
  {| key := nanoid n; from := User; versions := [createMessageVersion (n + 1) text];
     images := match imageUrls with
               | [] => None
               | _ => Some (map (fun p => {| img_id := nanoid (n + 2 + p.1); img_url := p.2 |})
                              (zip (seq 0 (length imageUrls)) imageUrls))
               end;
     sources := None; reasoning := None; isReasoningStreaming := None; isReasoningComplete := None; isContentComplete := None;
     status := None; errorCode := VUndef |}.

Definition createLoadingAssistantMessage (n : nat) : Message :=
  {| key := nanoid n; from := Assistant; versions := [createMessageVersion (n + 1) []]; images := None; sources := None;
     reasoning := None; isReasoningStreaming := Some false; isReasoningComplete := Some false;
     isContentComplete := Some false; status := Some Loading; errorCode := VUndef |}.

End Ids.

Definition getCurrentVersion (m : Message) : MessageVersion :=
  match versions m with v :: _ => v | [] => {| v_id := Some (js "default"); v_content := [] |} end.

Definition withVersions (vs : list MessageVersion) (m : Message) : Message :=
  {| key := key m; from := from m; versions := vs; images := images m; sources := sources m; reasoning := reasoning m;
     isReasoningStreaming := isReasoningStreaming m; isReasoningComplete := isReasoningComplete m;
     isContentComplete := isContentComplete m; status := status m; errorCode := errorCode m |}.

Definition withReasoning (r : option Reasoning) (streaming : bool) (m : Message) : Message :=
  {| key := key m; from := from m; versions := versions m; images := images m; sources := sources m; reasoning := r;
     isReasoningStreaming := Some streaming; isReasoningComplete := isReasoningComplete m;
     isContentComplete := isContentComplete m; status := status m; errorCode := errorCode m |}.

Definition withStatus (s : MessageStatus) (m : Message) : Message :=
  {| key := key m; from := from m; versions := versions m; images := images m; sources := sources m; reasoning := reasoning m;
     isReasoningStreaming := isReasoningStreaming m; isReasoningComplete := isReasoningComplete m;
     isContentComplete := isContentComplete m; status := Some s; errorCode := errorCode m |}.

Definition withErrorCode (c : jsval) (m : Message) : Message :=
  {| key := key m; from := from m; versions := versions m; images := images m; sources := sources m; reasoning := reasoning m;
     isReasoningStreaming := isReasoningStreaming m; isReasoningComplete := isReasoningComplete m;
     isContentComplete := isContentComplete m; status := status m; errorCode := c |}.

Definition updateCurrentVersionContent (m : Message) (text : jstr) : Message :=
  withVersions [{| v_id := v_id (getCurrentVersion m); v_content := text |}] m.

Definition buildMessageContent (text : jstr) (imageUrls : list jstr) : MessageContent :=
  let validImages := List.filter (fun url => truthy_str (trim url)) imageUrls in
  match validImages with
  | [] => PlainText text
  | _ => Parts (TextPart text :: map (fun url => ImagePart (trim url)) validImages)
  end.

Definition getTextContent (c : MessageContent) : jstr :=
  match c with
  | PlainText t => t
  | Parts ps => match List.find (fun p => match p with TextPart _ => true | _ => false end) ps with
                | Some (TextPart t) => t
                | _ => []
                end
  end.

Definition formatMessageForAPI (m : Message) : ChatCompletionMessage :=
  {| role := from m;
     content := buildMessageContent (v_content (getCurrentVersion m)) (map img_url (default [] (images m))) |}.

Definition isValidMessage (m : Message) : bool :=
  match versions m with
  | [] => false
  | v :: _ => negb ((from m === Assistant) && negb (truthy_str (trim (v_content v))))
  end.

(** ** Thinking tags *)

Definition OPEN_TAG : jstr := js "<think>".
Definition CLOSE_TAG : jstr := js "</think>".

Record Think := mkThink { visibleContent : jstr; thinking : jstr; hasUnclosedTag : bool }.

(** The [while (true)] loop from [currentPos], with the parts pushed so far;
    [None] is a loop that did not finish within the fuel. *)
Fixpoint thinkLoop (fuel : nat) (text : jstr) (currentPos : nat) (visibleParts reasoningParts : list jstr) :
    option (list jstr * list jstr * bool) :=
  match fuel with
  | O => None
  | S fuel' =>
      match index_of_from OPEN_TAG text currentPos with
      | None =>
          Some (if (currentPos <? length text)%nat then visibleParts ++ [drop currentPos text] else visibleParts,
                reasoningParts, false)
      | Some openPos =>
          let visibleParts' :=
            if (currentPos <? openPos)%nat then visibleParts ++ [slice currentPos openPos text] else visibleParts in
          match index_of_from CLOSE_TAG text (openPos + 7) with
          | None => Some (visibleParts', reasoningParts ++ [drop (openPos + 7) text], true)
          | Some closePos =>
              thinkLoop fuel' text (closePos + 8) visibleParts'
                (reasoningParts ++ [slice (openPos + 7) closePos text])
          end
      end
  end.

Definition thinkFuel (text : jstr) : nat := S (length text).

Definition parseThinkTags (text : jstr) : Think :=
  if negb (includes OPEN_TAG text) then {| visibleContent := text; thinking := []; hasUnclosedTag := false |}
  else match thinkLoop (thinkFuel text) text 0 [] [] with
       | Some (visibleParts, reasoningParts, unclosed) =>
           {| visibleContent := trim (js_join [] visibleParts);
              thinking := trim (js_join [10; 10]%N reasoningParts); hasUnclosedTag := unclosed |}
       | None => {| visibleContent := []; thinking := []; hasUnclosedTag := false |}
       end.

Definition processStreamingContent (m : Message) (contentChunk : jstr) : Message :=
  let fullContent := v_content (getCurrentVersion m) ++ contentChunk in
  let t := parseThinkTags fullContent in
  let finalReasoning :=
    if truthy_str (thinking t) then Some {| r_content := thinking t; r_duration := num_zero |} else reasoning m in
  withReasoning finalReasoning (hasUnclosedTag t) (updateCurrentVersionContent m fullContent).

Definition finalizeMessage (m : Message) (apiReasoningContent : jstr) : Message :=
  let t := parseThinkTags (v_content (getCurrentVersion m)) in
  let existing := match reasoning m with Some r => r_content r | None => [] end in
  let finalReasoning := str_or apiReasoningContent (str_or existing (thinking t)) in
  let duration := match reasoning m with Some r => num_or_zero (r_duration r) | None => num_zero end in
  withReasoning
    (if truthy_str finalReasoning then Some {| r_content := finalReasoning; r_duration := duration |} else None)
    false (updateCurrentVersionContent m (visibleContent t)).

(** ** Updating the list *)

Definition updateLastAssistantMessage (ms : list Message) (updater : Message -> Message) : list Message :=
  match last ms with
  | Some m => if from m === Assistant then removelast ms ++ [updater m] else ms
  | None => ms
  end.

Definition orNull (code : jsval) : jsval := if truthy code then code else VNull.

Definition failMessage (errorMessage : jstr) (code : jsval) (m : Message) : Message :=
  let updated := updateCurrentVersionContent m (API_REQUEST_ERROR ++ js ": " ++ errorMessage) in
  withErrorCode (orNull code) (withReasoning (reasoning updated) false (withStatus Error updated)).

Definition updateAssistantMessageWithError (ms : list Message) (errorMessage : jstr) (code : jsval) : list Message :=
  updateLastAssistantMessage ms (failMessage errorMessage code).

Definition isStuck (m : Message) : bool :=
  (from m === Assistant) &&
  match status m with Some Loading | Some Streaming => true | _ => false end.

(** The last index that satisfies [p], as the descending loop finds it. *)
Fixpoint lastIndex {A} (p : A -> bool) (l : list A) : option nat :=
  match l with
  | [] => None
  | x :: l' => match lastIndex p l' with
               | Some i => Some (S i)
               | None => if p x then Some O else None
               end
  end.

Definition sanitizeMessage (m : Message) : Message :=
  let finalized := finalizeMessage m [] in
  let hasContent := truthy_str (trim (v_content (getCurrentVersion finalized))) in
  let hasReasoning := match reasoning finalized with Some r => truthy_str (trim (r_content r)) | None => false end in
  if hasContent || hasReasoning then
    withReasoning (reasoning finalized) false (withStatus Complete finalized)
  else
    let failed := updateCurrentVersionContent finalized (API_REQUEST_ERROR ++ js ": " ++ INTERRUPTED) in
    withReasoning (reasoning failed) false (withStatus Error failed).

Definition sanitizeMessagesOnLoad (ms : list Message) : list Message :=
  match lastIndex isStuck ms with
  | None => ms
  | Some i => match ms !! i with
              | Some m => <[i := sanitizeMessage m]> ms
              | None => ms
              end
  end.

(** ** The request payload *)

Record PlaygroundConfig := mkConfig {
  c_model : jstr; c_group : jstr; c_temperature : option number; c_top_p : option number;
  c_max_tokens : option number; c_frequency_penalty : option number; c_presence_penalty : option number;
  c_seed : option number; c_stream : bool }.

Record ParameterEnabled := mkEnabled {
  e_temperature : bool; e_top_p : bool; e_max_tokens : bool; e_frequency_penalty : bool;
  e_presence_penalty : bool; e_seed : bool }.

Record ChatCompletionRequest := mkRequest {
  q_model : jstr; q_group : jstr; q_messages : list ChatCompletionMessage; q_stream : bool;
  q_temperature : option number; q_top_p : option number; q_max_tokens : option number;
  q_frequency_penalty : option number; q_presence_penalty : option number; q_seed : option number }.

(** A parameter is sent when it is enabled and neither undefined nor null. *)
Definition sentParam (enabled : bool) (value : option number) : option number := if enabled then value else None.

Definition buildChatCompletionPayload (ms : list Message) (config : PlaygroundConfig) (enabled : ParameterEnabled) :
    ChatCompletionRequest :=
  {| q_model := c_model config; q_group := c_group config;
     q_messages := map formatMessageForAPI (List.filter isValidMessage ms); q_stream := c_stream config;
     q_temperature := sentParam (e_temperature enabled) (c_temperature config);
     q_top_p := sentParam (e_top_p enabled) (c_top_p config);
     q_max_tokens := sentParam (e_max_tokens enabled) (c_max_tokens config);
     q_frequency_penalty := sentParam (e_frequency_penalty enabled) (c_frequency_penalty config);
     q_presence_penalty := sentParam (e_presence_penalty enabled) (c_presence_penalty config);
     q_seed := sentParam (e_seed enabled) (c_seed config) |}.

(** ** The chat handler *)

Definition streamReasoning (chunk : jstr) (m : Message) : Message :=
  if decide (status m = Some Error) then m
  else withStatus Streaming
         (withReasoning (Some {| r_content := (match reasoning m with Some r => r_content r | None => [] end) ++ chunk;
                                 r_duration := num_zero |}) true m).

Definition streamContent (chunk : jstr) (m : Message) : Message :=
  if decide (status m = Some Error) then m else withStatus Streaming (processStreamingContent m chunk).

Definition completeMessage (m : Message) : Message :=
  match status m with
  | Some Complete | Some Error => m
  | _ => withStatus Complete (finalizeMessage m [])
  end.

Definition stopMessage (m : Message) : Message :=
  match status m with
  | Some Loading | Some Streaming => withStatus Complete (finalizeMessage m [])
  | _ => m
  end.

Inductive UpdateType := UReasoning | UContent.

Definition handleStreamUpdate (type : UpdateType) (chunk : jstr) (ms : list Message) : list Message :=
  updateLastAssistantMessage ms
    (match type with UReasoning => streamReasoning chunk | UContent => streamContent chunk end).

Definition handleStreamComplete (ms : list Message) : list Message := updateLastAssistantMessage ms completeMessage.

Definition handleStreamError (error : jstr) (code : jsval) (ms : list Message) : list Message :=
  updateAssistantMessageWithError ms error code.

(** The reply of a request that does not stream: the first choice's message, or
    the error the client throws (its messages, each possibly missing). *)
Record ChatChoice := mkChoice { ch_content : jstr; ch_reasoning : jstr }.
Record RequestFailure := mkFailure { rf_dataMessage : jstr; rf_message : jstr; rf_code : jsval }.

Definition applyChoice (c : ChatChoice) (m : Message) : Message :=
  withStatus Complete
    (finalizeMessage
       (withVersions [{| v_id := match versions m with v :: _ => v_id v | [] => None end;
                         v_content := ch_content c |}] m) (ch_reasoning c)).

Definition sendNonStreamingChat (response : option ChatChoice + RequestFailure) (ms : list Message) : list Message :=
  match response with
  | inl None => ms
  | inl (Some choice) => updateLastAssistantMessage ms (applyChoice choice)
  | inr err =>
      handleStreamError (str_or (rf_dataMessage err) (str_or (rf_message err) API_REQUEST_ERROR))
        (if truthy (rf_code err) then rf_code err else VUndef) ms
  end.

(** ** The event stream *)

(** [v?.[0]] *)
Definition optFirst (v : jsval) : jsval :=
  match v with
  | VArr (x :: _) => x
  | VStr (c :: _) => VStr [c]
  | VObj fs => get_prop (js "0") fs
  | _ => VUndef
  end.

Record StreamState := mkStream {
  msgs : list Message;            (* the message list of the page *)
  sseSource : option nat;         (* sseSourceRef.current *)
  isStreamComplete : bool;        (* isStreamCompleteRef.current *)
  nextSource : nat;               (* sources created so far *)
  closedSources : list nat }.     (* sources on which close() was called *)

Definition onMessages (f : list Message -> list Message) (st : StreamState) : StreamState :=
  {| msgs := f (msgs st); sseSource := sseSource st; isStreamComplete := isStreamComplete st;
     nextSource := nextSource st; closedSources := closedSources st |}.

Definition closeSource (sid : nat) (st : StreamState) : StreamState :=
  {| msgs := msgs st; sseSource := None; isStreamComplete := isStreamComplete st;
     nextSource := nextSource st; closedSources := sid :: closedSources st |}.

Definition setComplete (st : StreamState) : StreamState :=
  {| msgs := msgs st; sseSource := sseSource st; isStreamComplete := true;
     nextSource := nextSource st; closedSources := closedSources st |}.

Definition handleError (sid : nat) (errorMessage : jstr) (code : jsval) (st : StreamState) : StreamState :=
  if isStreamComplete st then st
  else closeSource sid (onMessages (handleStreamError errorMessage code) st).

(** The chunks of a parsed [data] line, in the order they are applied. *)
Definition chunkUpdates (data : jstr) : outcome (list (UpdateType * jstr)) :=
  match json_parse data with
  | None => Throw
  | Some chunk =>
      choices <-- prop chunk (js "choices") ;;
      delta <-- optProp (optFirst choices) (js "delta") ;;
      if negb (truthy delta) then Ret []
      else
        r <-- prop delta (js "reasoning_content") ;;
        c <-- prop delta (js "content") ;;
        Ret ((if truthy r then [(UReasoning, js_String r)] else []) ++
             (if truthy c then [(UContent, js_String c)] else []))
  end.

Definition applyUpdates (us : list (UpdateType * jstr)) (ms : list Message) : list Message :=
  foldl (fun ms u => handleStreamUpdate u.1 u.2 ms) ms us.

Definition onMessageEvent (sid : nat) (data : jstr) (st : StreamState) : StreamState :=
  if data === js "[DONE]" then onMessages handleStreamComplete (closeSource sid (setComplete st))
  else match chunkUpdates data with
       | Ret us => onMessages (applyUpdates us) st
       | Throw => handleError sid PARSE_ERROR VUndef st
       end.

(** The message and code an error event carries. *)
Definition errorDetails (data : option jstr) : jstr * jsval :=
  match data with
  | Some ((_ :: _) as d) =>
      match json_parse d with
      | Some parsed =>
          match optProp parsed (js "error") with
          | Ret err =>
              if truthy err then
                match prop err (js "message"), prop err (js "code") with
                | Ret m, Ret c => (if truthy m then js_String m else d, if truthy c then c else VUndef)
                | _, _ => (d, VUndef)
                end
              else (d, VUndef)
          | Throw => (d, VUndef)
          end
      | None => (d, VUndef)
      end
  | _ => (API_REQUEST_ERROR, VUndef)
  end.

Definition onErrorEvent (sid : nat) (readyState : Z) (data : option jstr) (st : StreamState) : StreamState :=
  if (readyState =? 2)%Z then st
  else let '(m, c) := errorDetails data in handleError sid m c st.

Definition onReadyStateChange (sid : nat) (readyState httpStatus : option Z) (st : StreamState) : StreamState :=
  match readyState, httpStatus with
  | Some r, Some s =>
      if (2 <=? r)%Z && negb (s =? 200)%Z
      then handleError sid (js "HTTP " ++ print_int s ++ js ": " ++ CONNECTION_CLOSED) VUndef st
      else st
  | _, _ => st
  end.

(** [source.stream()] is called last and may throw. *)
Definition sendStreamRequest (startFails : bool) (st : StreamState) : StreamState :=
  let st := {| msgs := msgs st; sseSource := Some (nextSource st); isStreamComplete := false;
               nextSource := S (nextSource st); closedSources := closedSources st |} in
  if startFails then
    let st := onMessages (handleStreamError STREAM_START_ERROR VUndef) st in
    {| msgs := msgs st; sseSource := None; isStreamComplete := isStreamComplete st;
       nextSource := nextSource st; closedSources := closedSources st |}
  else st.

Definition stopStream (st : StreamState) : StreamState :=
  match sseSource st with Some sid => closeSource sid st | None => st end.

Definition stopGeneration (st : StreamState) : StreamState :=
  onMessages (fun ms => updateLastAssistantMessage ms stopMessage) (stopStream st).

Definition isGenerating (st : StreamState) : bool :=
  match sseSource st with Some _ => true | None => false end.

Inductive Event :=
| EvSend (startFails : bool)
| EvMessage (sid : nat) (data : jstr)
| EvError (sid : nat) (readyState : Z) (data : option jstr)
| EvReady (sid : nat) (readyState httpStatus : option Z)
| EvStop.

Definition step (st : StreamState) (e : Event) : StreamState :=
  match e with
  | EvSend b => sendStreamRequest b st
  | EvMessage sid d => onMessageEvent sid d st
  | EvError sid r d => onErrorEvent sid r d st
  | EvReady sid r s => onReadyStateChange sid r s st
  | EvStop => stopGeneration st
  end.

Definition startState (ms : list Message) : StreamState :=
  {| msgs := ms; sseSource := None; isStreamComplete := false; nextSource := 0; closedSources := [] |}.

(** The states a sequence of events reaches. *)
Inductive reaches : StreamState -> list Event -> StreamState -> Prop :=
| reaches_here st : reaches st [] st
| reaches_step st e es st' : reaches (step st e) es st' -> reaches st (e :: es) st'.

(** ** Samples *)

Definition demoIds (n : nat) : jstr := js "id-" ++ print_int (Z.of_nat n).

Definition demoChat : list Message :=
  [createUserMessage demoIds 0 (js "hi") []; createLoadingAssistantMessage demoIds 2].

Definition demoChunk (s : string) : jstr :=
  jsq "{'choices':[{'index':0,'delta':{'content':" ++ json_quote (js s) ++ jsq "}}]}".

Example stream_sample :
  let st := foldl step (startState demoChat)
    [EvSend false; EvMessage 0 (demoChunk "<think>hm"); EvMessage 0 (demoChunk "m</think> Hel");
     EvMessage 0 (demoChunk "lo"); EvMessage 0 (js "[DONE]")] in
  map (fun m => (v_content (getCurrentVersion m), r_content <$> reasoning m, status m)) (msgs st) =
  [(js "hi", None, None); (js "Hello", Some (js "hmm"), Some Complete)].
Proof. vm_compute. reflexivity. Qed.

Example error_sample :
  let st := foldl step (startState demoChat)
    [EvSend false; EvMessage 0 (js "oops"); EvMessage 0 (demoChunk "late"); EvMessage 0 (js "[DONE]")] in
  map (fun m => (v_content (getCurrentVersion m), status m)) (msgs st) =
  [(js "hi", None); (js "Request error occurred: Error parsing response data", Some Error)] /\
  isGenerating st = false.
Proof. vm_compute. auto. Qed.
