(* ===== verification/ChatCorrect.v ===== *)
(** * Correctness of the playground chat

    The tag parser is characterised by the texts it reads, streaming a reply in
    chunks is compared with receiving it at once, and the event machine keeps
    its invariants on every sequence of events. *)
From stdpp Require Import prelude list strings.
From Stdlib Require Import NArith Ascii.
From S2P Require Import Prelude JsString JsNumber JsValue Chat.

(** ** Texts with thinking tags *)

(** [v0 <think>r1</think>v1 ... <think>rn</think>vn], and possibly an unclosed
    [<think>r] at the end. *)
Fixpoint renderSegs (segs : list (jstr * jstr)) : jstr :=
  match segs with
  | [] => []
  | (r, v) :: segs' => OPEN_TAG ++ r ++ CLOSE_TAG ++ v ++ renderSegs segs'
  end.

Definition renderTail (tail : option jstr) : jstr :=
  match tail with Some r => OPEN_TAG ++ r | None => [] end.

Definition renderThink (v0 : jstr) (segs : list (jstr * jstr)) (tail : option jstr) : jstr :=
  v0 ++ renderSegs segs ++ renderTail tail.

Definition noOpen (v : jstr) : Prop := includes OPEN_TAG v = false.
Definition noClose (r : jstr) : Prop := includes CLOSE_TAG r = false.

Definition wfThink (v0 : jstr) (segs : list (jstr * jstr)) (tail : option jstr) : Prop :=
  noOpen v0 /\ Forall (fun p => noClose p.1 /\ noOpen p.2) segs /\
  (match tail with Some r => noClose r | None => True end).

Definition blankLine : jstr := [10; 10]%N.

Definition thinkSpec (v0 : jstr) (segs : list (jstr * jstr)) (tail : option jstr) : Think :=
  {| visibleContent := trim (v0 ++ concat (map snd segs));
     thinking := trim (js_join blankLine (map fst segs ++ match tail with Some r => [r] | None => [] end));
     hasUnclosedTag := match tail with Some _ => true | None => false end |}.

(** ** Searching for a tag whose first character does not recur in it *)

Lemma includes_cons_false p x s : includes p (x :: s) = false -> includes p s = false.
Proof.
  intros H. apply not_true_iff_false. intros (a & b & ->)%includes_spec.
  apply not_true_iff_false in H. apply H, includes_spec. by exists (x :: a), b.
Qed.

Lemma index_of_first c q v t :
  c ∉ q -> includes (c :: q) v = false -> index_of (c :: q) (v ++ (c :: q) ++ t) = Some (length v).
Proof.
  intros Hc. induction v as [|x v IH]; intros Hv.
  - change ([] ++ (c :: q) ++ t) with ((c :: q) ++ t).
    pose proof (starts_with_app (c :: q) t) as E. destruct ((c :: q) ++ t) as [|y s] eqn:Es; [done|].
    cbn [index_of]. by rewrite E.
  - assert (E : starts_with (c :: q) ((x :: v) ++ (c :: q) ++ t) = false).
    { apply not_true_iff_false. intros (t' & E)%starts_with_spec.
      apply not_true_iff_false in Hv. apply Hv, includes_spec.
      apply app_eq_inv in E as [(k & Ek & _)|(k & Ek & E')]; [exists [], k; by rewrite Ek|].
      destruct k as [|y k]; [exists [], []; by rewrite Ek, !app_nil_r|].
      cbn in E'. injection E' as <- E'. exfalso. apply Hc.
      cbn in Ek. injection Ek as _ Ek. rewrite Ek. apply elem_of_app. right. by left. }
    cbn [index_of app] in *. rewrite E, IH; [done|]. by eapply includes_cons_false.
Qed.

Lemma index_of_open v t : noOpen v -> index_of OPEN_TAG (v ++ OPEN_TAG ++ t) = Some (length v).
Proof. apply (index_of_first (u "<") (js "think>")). apply (bool_decide_unpack _). vm_compute. exact I. Qed.

Lemma index_of_close v t : noClose v -> index_of CLOSE_TAG (v ++ CLOSE_TAG ++ t) = Some (length v).
Proof. apply (index_of_first (u "<") (js "/think>")). apply (bool_decide_unpack _). vm_compute. exact I. Qed.

Lemma index_of_absent p v : includes p v = false -> index_of p v = None.
Proof. unfold includes. by destruct (index_of p v). Qed.

Lemma slice_app a b c : slice (length a) (length a + length b) (a ++ b ++ c) = b.
Proof.
  unfold slice. rewrite drop_app_length. replace (length a + length b - length a)%nat with (length b) by lia.
  apply take_app_length.
Qed.

(** ** The loop on a rendered text *)

Lemma join_nil_app vs ws : js_join [] (vs ++ ws) = js_join [] vs ++ js_join [] ws.
Proof.
  induction vs as [|v vs IH]; [done|]. destruct vs as [|v' vs].
  - destruct ws as [|w ws]; cbn; [by rewrite app_nil_r|done].
  - change (js_join [] ((v :: v' :: vs) ++ ws)) with (v ++ [] ++ js_join [] ((v' :: vs) ++ ws)).
    change (js_join [] (v :: v' :: vs)) with (v ++ [] ++ js_join [] (v' :: vs)). rewrite IH. cbn.
    by rewrite <- app_assoc.
Qed.

(** Pushing a part only when it is not empty does not change the joined text. *)
Lemma join_push (b : bool) vs v : (b = false -> v = []) -> js_join [] (if b then vs ++ [v] else vs) = js_join [] vs ++ v.
Proof. intros H. destruct b; [by rewrite join_nil_app|]. by rewrite H, app_nil_r. Qed.

Lemma length_open : length OPEN_TAG = 7. Proof. reflexivity. Qed.
Lemma length_close : length CLOSE_TAG = 8. Proof. reflexivity. Qed.

(** One turn of the loop at a closed segment. *)
Lemma thinkLoop_segment fuel pre v0 r rest vis rea :
  noOpen v0 -> noClose r ->
  let text := pre ++ v0 ++ OPEN_TAG ++ r ++ CLOSE_TAG ++ rest in
  let vis' := if (length pre <? length pre + length v0)%nat then vis ++ [v0] else vis in
  thinkLoop (S fuel) text (length pre) vis rea =
  thinkLoop fuel text (length (pre ++ v0 ++ OPEN_TAG ++ r ++ CLOSE_TAG)) vis' (rea ++ [r]).
Proof.
  intros Hv Hr text vis'. cbn [thinkLoop]. unfold index_of_from.
  assert (E1 : drop (length pre) text = v0 ++ OPEN_TAG ++ r ++ CLOSE_TAG ++ rest) by apply drop_app_length.
  rewrite E1, index_of_open by done. cbn [fmap option_fmap option_map].
  assert (E2 : text = (pre ++ v0 ++ OPEN_TAG) ++ r ++ CLOSE_TAG ++ rest) by (unfold text; by rewrite <- !app_assoc).
  assert (L : (length pre + length v0 + 7 = length (pre ++ v0 ++ OPEN_TAG))%nat)
    by (rewrite !length_app, length_open; lia).
  rewrite L. rewrite E2 at 1. rewrite drop_app_length, index_of_close by done. cbn [fmap option_fmap option_map].
  rewrite E2 at 3. rewrite slice_app.
  replace (length (pre ++ v0 ++ OPEN_TAG) + length r + 8)%nat with (length (pre ++ v0 ++ OPEN_TAG ++ r ++ CLOSE_TAG))
    by (rewrite !length_app, length_open, length_close; lia).
  f_equal. unfold vis'. case_if; [|done]. f_equal. f_equal. unfold text. apply slice_app.
Qed.

Lemma thinkLoop_render segs : forall fuel pre v0 tail vis rea text,
  wfThink v0 segs tail -> text = pre ++ renderThink v0 segs tail -> (length segs < fuel)%nat ->
  exists vis',
    thinkLoop fuel text (length pre) vis rea =
      Some (vis', rea ++ map fst segs ++ match tail with Some r => [r] | None => [] end,
            match tail with Some _ => true | None => false end) /\
    js_join [] vis' = js_join [] vis ++ v0 ++ concat (map snd segs).
Proof.
  induction segs as [|[r v] segs IH]; intros fuel pre v0 tail vis rea text (Hv & Hs & Ht) -> Hf.
  - destruct fuel as [|fuel]; [simpl in Hf; lia|]. cbn [thinkLoop map concat app renderSegs].
    unfold renderThink. cbn [renderSegs app]. unfold index_of_from. rewrite drop_app_length.
    destruct tail as [r|]; cbn [renderTail].
    + rewrite index_of_open by done. cbn [fmap option_fmap option_map].
      replace (pre ++ v0 ++ OPEN_TAG ++ r) with ((pre ++ v0 ++ OPEN_TAG) ++ r) by (by rewrite <- !app_assoc).
      replace (length pre + length v0 + 7)%nat with (length (pre ++ v0 ++ OPEN_TAG))
        by (rewrite !length_app, length_open; lia).
      rewrite drop_app_length, index_of_absent by done. eexists. split; [done|].
      rewrite join_push; [|intros E; apply Nat.ltb_ge in E; destruct v0; [|simpl in E; lia]].
      * rewrite <- !app_assoc, slice_app. by rewrite app_nil_r.
      * unfold slice. by rewrite Nat.add_0_r, Nat.sub_diag.
    + rewrite !app_nil_r, index_of_absent by done. cbn [fmap option_fmap option_map]. eexists. split; [done|].
      apply join_push. intros E. apply Nat.ltb_ge in E. rewrite length_app in E.
      destruct v0; [done|]. simpl in E. lia.
  - destruct fuel as [|fuel]; [lia|]. apply Forall_cons in Hs as [[Hr Hv'] Hs]. cbn [fst snd] in *.
    unfold renderThink. cbn [renderSegs].
    pose proof (thinkLoop_segment fuel pre v0 r (v ++ renderSegs segs ++ renderTail tail) vis rea Hv Hr) as T.
    cbv zeta in T. rewrite <- !app_assoc in *. rewrite T. clear T.
    edestruct (IH fuel (pre ++ v0 ++ OPEN_TAG ++ r ++ CLOSE_TAG) v tail) as (vis' & -> & E).
    { split; [exact Hv'|split; [exact Hs|exact Ht]]. }
    { unfold renderThink. by rewrite <- !app_assoc. }
    { simpl in Hf. lia. }
    exists vis'. split; [by rewrite <- app_assoc|]. rewrite E, join_push.
    + cbn [map concat snd]. by rewrite <- !app_assoc.
    + intros E'. apply Nat.ltb_ge in E'. destruct v0; [done|]. simpl in E'. lia.
Qed.

Lemma segs_length segs : (length segs <= length (renderSegs segs))%nat.
Proof.
  induction segs as [|[r v] segs IH]; [done|]. cbn [renderSegs length].
  rewrite !length_app, length_open, length_close. lia.
Qed.

Lemma loop_of_render v0 segs tail :
  wfThink v0 segs tail ->
  exists vis, thinkLoop (thinkFuel (renderThink v0 segs tail)) (renderThink v0 segs tail) 0 [] [] =
    Some (vis, map fst segs ++ match tail with Some r => [r] | None => [] end,
          match tail with Some _ => true | None => false end) /\
    js_join [] vis = v0 ++ concat (map snd segs).
Proof.
  intros H. destruct (thinkLoop_render segs (thinkFuel (renderThink v0 segs tail)) [] v0 tail [] []
    (renderThink v0 segs tail) H eq_refl) as (vis & E & Ev).
  { unfold thinkFuel, renderThink. rewrite !length_app. pose proof (segs_length segs). lia. }
  by exists vis.
Qed.

Lemma render_has_tag v0 segs tail :
  segs <> [] \/ tail <> None -> includes OPEN_TAG (renderThink v0 segs tail) = true.
Proof.
  intros H. apply includes_spec. destruct segs as [|[r v] segs].
  - destruct tail as [r|]; [|naive_solver]. by exists v0, r.
  - eexists v0, _. unfold renderThink. cbn [renderSegs]. by rewrite <- !app_assoc.
Qed.

Lemma parse_of_render v0 segs tail :
  wfThink v0 segs tail -> segs <> [] \/ tail <> None ->
  parseThinkTags (renderThink v0 segs tail) = thinkSpec v0 segs tail.
Proof.
  intros Hwf Hne. unfold parseThinkTags. rewrite render_has_tag by done. cbn [negb].
  destruct (loop_of_render v0 segs tail Hwf) as (vis & -> & E). unfold thinkSpec. by rewrite E.
Qed.

(** Every text is such a rendering. *)
Lemma split_at_open s :
  noOpen s \/ exists v t, s = v ++ OPEN_TAG ++ t /\ noOpen v.
Proof.
  unfold noOpen. destruct (index_of OPEN_TAG s) as [i|] eqn:E; [|left; unfold includes; by rewrite E].
  apply index_of_Some in E as (a & b & -> & _ & Hmin). right. exists a, b. split; [done|].
  apply not_true_iff_false. intros (a' & b' & ->)%includes_spec.
  specialize (Hmin a' (b' ++ OPEN_TAG ++ b)). rewrite !length_app, length_open in Hmin.
  specialize (Hmin ltac:(by rewrite <- !app_assoc)). lia.
Qed.

Lemma split_at_close s :
  noClose s \/ exists r t, s = r ++ CLOSE_TAG ++ t /\ noClose r.
Proof.
  unfold noClose. destruct (index_of CLOSE_TAG s) as [i|] eqn:E; [|left; unfold includes; by rewrite E].
  apply index_of_Some in E as (a & b & -> & _ & Hmin). right. exists a, b. split; [done|].
  apply not_true_iff_false. intros (a' & b' & ->)%includes_spec.
  specialize (Hmin a' (b' ++ CLOSE_TAG ++ b)). rewrite !length_app, length_close in Hmin.
  specialize (Hmin ltac:(by rewrite <- !app_assoc)). lia.
Qed.

Lemma text_render_fuel n : forall s, (length s <= n)%nat -> exists v0 segs tail, wfThink v0 segs tail /\ s = renderThink v0 segs tail.
Proof.
  induction n as [|n IH]; intros s Hn.
  - destruct s; [|simpl in Hn; lia]. by exists [], [], None.
  - destruct (split_at_open s) as [Hs|(v & t & -> & Hv)].
    + exists s, [], None. split; [by repeat split|]. unfold renderThink. cbn. by rewrite app_nil_r.
    + destruct (split_at_close t) as [Ht|(r & t' & -> & Hr)].
      * exists v, [], (Some t). split; [by repeat split|done].
      * destruct (IH t') as (v1 & segs & tail & (H1 & H2 & H3) & ->).
        { rewrite !length_app, length_open, length_close in Hn. lia. }
        exists v, ((r, v1) :: segs), tail. split; [split; [done|split; [by constructor|done]]|].
        unfold renderThink. cbn [renderSegs]. by rewrite <- !app_assoc.
Qed.

Lemma text_render s : exists v0 segs tail, wfThink v0 segs tail /\ s = renderThink v0 segs tail.
Proof. by apply (text_render_fuel (length s)). Qed.

(** The tag parser reads every text of the grammar as intended: the visible
    content is what lies outside the tags, the reasoning is the parts inside
    them (an unclosed last one included), separated by blank lines. *)
Theorem parseThinkTags_reads_segments v0 segs tail :
  wfThink v0 segs tail -> segs <> [] \/ tail <> None ->
  parseThinkTags (renderThink v0 segs tail) = thinkSpec v0 segs tail.
Proof. apply parse_of_render. Qed.

Lemma parseThinkTags_reads_segments_witness :
  parseThinkTags (js "a <think>x</think>b<think></think> c<think>y")
  = {| visibleContent := js "a b c"; thinking := trim (js "x" ++ blankLine ++ [] ++ blankLine ++ js "y");
       hasUnclosedTag := true |}.
Proof.
  apply (parseThinkTags_reads_segments (js "a ") [(js "x", js "b"); ([], js " c")] (Some (js "y"))); [|by right].
  repeat constructor; vm_compute; reflexivity.
Defined.

(** The loop always ends, with nothing left unread: every text is a
    rendering of segments, and the loop returns after at most one turn per
    tag, within the bound on the text's length. *)
Theorem thinkLoop_terminates text :
  exists v0 segs tail vis, wfThink v0 segs tail /\ text = renderThink v0 segs tail /\
    thinkLoop (thinkFuel text) text 0 [] [] =
      Some (vis, map fst segs ++ match tail with Some r => [r] | None => [] end,
            match tail with Some _ => true | None => false end) /\
    js_join [] vis = v0 ++ concat (map snd segs).
Proof.
  destruct (text_render text) as (v0 & segs & tail & Hwf & ->).
  destruct (loop_of_render v0 segs tail Hwf) as (vis & E & Ev). by exists v0, segs, tail, vis.
Qed.

(** ** Streaming in chunks *)

Definition notFailed (m : Message) : Prop := status m <> Some Error.

Lemma streamContent_eq chunk m :
  notFailed m -> streamContent chunk m = withStatus Streaming (processStreamingContent m chunk).
Proof. intros H. unfold streamContent. by rewrite decide_False. Qed.

Lemma prefix_noOpen s t : noOpen (s ++ t) -> noOpen s.
Proof.
  unfold noOpen. intros H. apply not_true_iff_false. intros (a & b & ->)%includes_spec.
  apply not_true_iff_false in H. apply H, includes_spec. exists a, (b ++ t). by rewrite <- !app_assoc.
Qed.

Lemma parse_noOpen s : noOpen s -> parseThinkTags s = {| visibleContent := s; thinking := []; hasUnclosedTag := false |}.
Proof. unfold parseThinkTags, noOpen. by intros ->. Qed.

(** What a sequence of content chunks leaves: the text so far, and the last
    non-empty reasoning any prefix of it had. *)
Lemma stream_chunks_shape chunks : forall m,
  notFailed m ->
  let r := foldl (fun m c => streamContent c m) m chunks in
  notFailed r /\ v_content (getCurrentVersion r) = v_content (getCurrentVersion m) ++ concat chunks /\
  v_id (getCurrentVersion r) = v_id (getCurrentVersion m) /\
  key r = key m /\ from r = from m /\ images r = images m /\ sources r = sources m /\ errorCode r = errorCode m /\
  isReasoningComplete r = isReasoningComplete m /\ isContentComplete r = isContentComplete m.
Proof.
  induction chunks as [|c chunks IH]; intros m Hm; cbn [foldl concat].
  - by rewrite app_nil_r.
  - rewrite streamContent_eq by done. destruct (IH (withStatus Streaming (processStreamingContent m c)))
      as (H1 & H2 & H3 & H4); [done|]. cbn in H1, H2, H3, H4. rewrite H2, H3. split; [done|].
    by rewrite <- app_assoc.
Qed.

Lemma stream_last_reasoning chunks c m :
  notFailed m ->
  let before := foldl (fun m c => streamContent c m) m chunks in
  let full := v_content (getCurrentVersion m) ++ concat (chunks ++ [c]) in
  reasoning (streamContent c before) =
  if truthy_str (thinking (parseThinkTags full))
  then Some {| r_content := thinking (parseThinkTags full); r_duration := num_zero |} else reasoning before.
Proof.
  intros Hm before full. destruct (stream_chunks_shape chunks m Hm) as (H1 & H2 & _).
  fold before in H1, H2. rewrite streamContent_eq by done.
  cbn [withStatus withReasoning processStreamingContent reasoning].
  assert (E : v_content (getCurrentVersion before) ++ c = full).
  { unfold full. rewrite H2, concat_app, <- app_assoc. cbn. by rewrite app_nil_r. }
  by rewrite E.
Qed.

Lemma stream_no_tag_reasoning chunks : forall m,
  notFailed m -> noOpen (v_content (getCurrentVersion m) ++ concat chunks) ->
  reasoning (foldl (fun m c => streamContent c m) m chunks) = reasoning m.
Proof.
  induction chunks as [|c chunks IH]; intros m Hm Hn; cbn [foldl concat] in *; [done|].
  rewrite streamContent_eq by done. rewrite IH; [|done|].
  - cbn. rewrite parse_noOpen; [done|]. by eapply prefix_noOpen; rewrite <- app_assoc.
  - cbn. by rewrite <- app_assoc.
Qed.

(** Two messages that agree on everything [completeMessage] reads. *)
Lemma complete_ext m m' :
  notFailed m -> notFailed m' -> status m = status m' -> key m = key m' -> from m = from m' -> images m = images m' -> sources m = sources m' ->
  v_content (getCurrentVersion m) = v_content (getCurrentVersion m') ->
  v_id (getCurrentVersion m) = v_id (getCurrentVersion m') ->
  reasoning m = reasoning m' -> errorCode m = errorCode m' -> status m = Some Streaming ->
  isReasoningComplete m = isReasoningComplete m' -> isContentComplete m = isContentComplete m' ->
  completeMessage m = completeMessage m'.
Proof.
  intros _ _ Hs Hk Hf Hi Hso Hc Hv Hr He Hst H1 H2. unfold completeMessage. rewrite <- Hs, Hst.
  unfold finalizeMessage, updateCurrentVersionContent, withStatus, withReasoning, withVersions. cbn.
  by rewrite Hk, Hf, Hi, Hso, Hc, Hv, Hr, He, H1, H2.
Qed.

(** [C16] How a reply is cut into chunks does not matter: once completed, the
    message is the one that a single chunk with the whole text gives, whenever
    that text has some reasoning in its tags or has no tag at all. *)
Theorem chunking_does_not_matter m chunks c :
  notFailed m ->
  let full := v_content (getCurrentVersion m) ++ concat (chunks ++ [c]) in
  thinking (parseThinkTags full) <> [] \/ includes OPEN_TAG full = false ->
  completeMessage (foldl (fun m c => streamContent c m) m (chunks ++ [c])) =
  completeMessage (streamContent (concat (chunks ++ [c])) m).
Proof.
  intros Hm full Hcond. rewrite foldl_app. cbn [foldl].
  set (before := foldl (fun m c => streamContent c m) m chunks).
  destruct (stream_chunks_shape (chunks ++ [c]) m Hm) as (S1 & S2 & S3 & S4 & S5 & S6 & S10 & S7 & S8 & S9).
  rewrite foldl_app in *. cbn [foldl] in *. fold before in S1, S2, S3, S4, S5, S6, S7, S8, S9, S10 |- *.
  destruct (stream_chunks_shape chunks m Hm) as (B1 & _). fold before in B1.
  assert (Hst : status (streamContent c before) = Some Streaming) by (by rewrite streamContent_eq).
  apply complete_ext; rewrite ?S2, ?S3, ?S4, ?S5, ?S6, ?S7, ?S8, ?S9, ?S10; try done;
    rewrite (streamContent_eq (concat (chunks ++ [c])) m Hm) in *; try done.
  pose proof (stream_last_reasoning chunks c m Hm) as R. cbv zeta in R. fold before in R. rewrite R.
  cbn [withStatus withReasoning processStreamingContent reasoning]. fold full.
  destruct Hcond as [Hne|Hno].
  - by rewrite (proj2 (truthy_str_spec _) Hne).
  - rewrite parse_noOpen by done. cbn. apply (stream_no_tag_reasoning chunks m Hm).
    unfold full in Hno. rewrite concat_app in Hno. by eapply prefix_noOpen; rewrite <- app_assoc.
Qed.

Lemma chunking_does_not_matter_witness :
  let m := createLoadingAssistantMessage demoIds 0 in
  completeMessage (foldl (fun m c => streamContent c m) m ([js "<thi"; js "nk>a</th"] ++ [js "ink>b"])) =
  completeMessage (streamContent (concat ([js "<thi"; js "nk>a</th"] ++ [js "ink>b"])) m).
Proof.
  apply (chunking_does_not_matter (createLoadingAssistantMessage demoIds 0) [js "<thi"; js "nk>a</th"] (js "ink>b"));
    [done|left; vm_compute; discriminate].
Defined.

(** An empty thinking block whose closing tag is cut leaves the cut tag as
    the reply's reasoning, although the whole text has none: the partial tag was
    taken for reasoning and nothing removes it. *)
Theorem split_empty_think_leaves_tag m answer :
  notFailed m -> v_content (getCurrentVersion m) = [] -> reasoning m = None ->
  includes OPEN_TAG answer = false ->
  let full := js "<think></think>" ++ answer in
  let split := [js "<think></thin"; js "k>" ++ answer] in
  (r_content <$> reasoning (completeMessage (foldl (fun m c => streamContent c m) m split))) = Some (js "</thin") /\
  reasoning (completeMessage (streamContent full m)) = None.
Proof.
  intros Hm Hc Hr Ha full split.
  assert (P : parseThinkTags full = thinkSpec [] [([], answer)] None).
  { replace full with (renderThink [] [([], answer)] None)
      by (unfold full, renderThink; cbn [renderSegs renderTail app]; by rewrite !app_nil_r).
    apply parse_of_render; [|left; discriminate]. repeat split; try done. by repeat constructor. }
  assert (T : thinking (parseThinkTags full) = []) by (rewrite P; reflexivity).
  split.
  - unfold split. cbn [foldl]. rewrite (streamContent_eq _ m Hm). rewrite streamContent_eq by done.
    set (m1 := withStatus Streaming (processStreamingContent m (js "<think></thin"))).
    assert (C1 : v_content (getCurrentVersion m1) ++ (js "k>" ++ answer) = full).
    { unfold m1. cbn. rewrite Hc. reflexivity. }
    assert (R1 : r_content <$> reasoning m1 = Some (js "</thin")).
    { unfold m1. cbn [withStatus withReasoning processStreamingContent reasoning]. rewrite Hc. reflexivity. }
    assert (R2 : reasoning (withStatus Streaming (processStreamingContent m1 (js "k>" ++ answer))) = reasoning m1).
    { cbn [withStatus withReasoning processStreamingContent reasoning]. rewrite C1, T. reflexivity. }
    unfold completeMessage. cbn [status withStatus]. unfold finalizeMessage.
    cbn [withStatus withReasoning reasoning] in R2 |- *. rewrite R2.
    destruct (reasoning m1) as [r1|]; [|discriminate R1]. injection R1 as ->. reflexivity.
  - rewrite streamContent_eq by done. set (m2 := withStatus Streaming (processStreamingContent m full)).
    assert (C2 : v_content (getCurrentVersion m2) = full) by (unfold m2; cbn; by rewrite Hc).
    assert (R2 : reasoning m2 = None).
    { unfold m2. cbn [withStatus withReasoning processStreamingContent reasoning]. rewrite Hc.
      change ([] ++ full) with full. rewrite T. exact Hr. }
    change (completeMessage m2) with (withStatus Complete (finalizeMessage m2 [])).
    cbn [withStatus reasoning]. unfold finalizeMessage. rewrite C2, R2, T. reflexivity.
Qed.

Lemma split_empty_think_leaves_tag_witness :
  let m := createLoadingAssistantMessage demoIds 0 in
  (r_content <$> reasoning (completeMessage (foldl (fun m c => streamContent c m) m
     [js "<think></thin"; js "k>" ++ js "Hi"]))) = Some (js "</thin") /\
  reasoning (completeMessage (streamContent (js "<think></think>" ++ js "Hi") m)) = None.
Proof.
  apply (split_empty_think_leaves_tag (createLoadingAssistantMessage demoIds 0) (js "Hi"));
    [done|reflexivity|reflexivity|vm_compute; reflexivity].
Defined.

(** ** The event machine *)

(** What no handler changes of a message. *)
Definition sameIdentity (m m' : Message) : Prop :=
  key m' = key m /\ from m' = from m /\ images m' = images m /\ sources m' = sources m.

(** Two lists that differ at most in the last message, whose identity is kept. *)
Definition sameFrame (ms ms' : list Message) : Prop :=
  ms' = ms \/ exists init m m', ms = init ++ [m] /\ ms' = init ++ [m'] /\ sameIdentity m m'.

Lemma sameFrame_trans a b c : sameFrame a b -> sameFrame b c -> sameFrame a c.
Proof.
  unfold sameFrame. intros [->|(i & m & m' & -> & -> & H)] H'; [done|].
  destruct H' as [->|(i2 & n & n' & E & -> & H')]; right; [by exists i, m, m'|].
  apply app_inj_tail in E as [<- <-]. exists i, m, n'. destruct H as (H1 & H2 & H3 & H7), H' as (H4 & H5 & H6 & H8).
  unfold sameIdentity. by rewrite H4, H5, H6, H8.
Qed.

Definition keepsIdentity (f : Message -> Message) : Prop := forall m, sameIdentity m (f m).

Lemma update_frame f ms : keepsIdentity f -> sameFrame ms (updateLastAssistantMessage ms f).
Proof.
  intros Hf. unfold updateLastAssistantMessage, sameFrame.
  destruct (last ms) as [m|] eqn:E; [|by left]. case_if; [|by left]. right.
  apply last_Some in E as (init & ->). rewrite removelast_last. by exists init, m, (f m).
Qed.

Lemma update_last f init m :
  from m = Assistant -> updateLastAssistantMessage (init ++ [m]) f = init ++ [f m].
Proof.
  intros H. unfold updateLastAssistantMessage. rewrite last_snoc, H, removelast_last. done.
Qed.

Lemma streamReasoning_id c : keepsIdentity (streamReasoning c).
Proof. intros m. unfold streamReasoning. by case_decide. Qed.
Lemma streamContent_id c : keepsIdentity (streamContent c).
Proof. intros m. unfold streamContent. by case_decide. Qed.
Lemma completeMessage_id : keepsIdentity completeMessage.
Proof. intros m. unfold completeMessage. by destruct (status m) as [[]|]. Qed.
Lemma stopMessage_id : keepsIdentity stopMessage.
Proof. intros m. unfold stopMessage. by destruct (status m) as [[]|]. Qed.
Lemma failMessage_id e c : keepsIdentity (failMessage e c).
Proof. by intros m. Qed.

#[local] Hint Resolve streamReasoning_id streamContent_id completeMessage_id stopMessage_id failMessage_id update_frame : jsdb.

(** A property of the message list that every handler keeps, every step keeps. *)
Section Steps.
Context (P : list Message -> list Message -> Prop).
Hypothesis P_refl : forall ms, P ms ms.
Hypothesis P_trans : forall a b c, P a b -> P b c -> P a c.
Hypothesis P_update : forall t c ms, P ms (handleStreamUpdate t c ms).
Hypothesis P_complete : forall ms, P ms (handleStreamComplete ms).
Hypothesis P_error : forall e c ms, P ms (handleStreamError e c ms).
Hypothesis P_stop : forall ms, P ms (updateLastAssistantMessage ms stopMessage).

Lemma handleError_P sid e c st : P (msgs st) (msgs (handleError sid e c st)).
Proof. unfold handleError. case_if; [apply P_refl|apply P_error]. Qed.

Lemma applyUpdates_P us ms : P ms (applyUpdates us ms).
Proof.
  unfold applyUpdates. revert ms. induction us as [|[t c] us IH]; intros ms; cbn [foldl]; [apply P_refl|].
  eapply P_trans; [apply (P_update t c)|apply IH].
Qed.

Lemma step_P st e : P (msgs st) (msgs (step st e)).
Proof.
  destruct e as [b|sid d|sid r d|sid r s|]; cbn [step].
  - unfold sendStreamRequest. destruct b; [apply P_error|apply P_refl].
  - unfold onMessageEvent. case_if; [apply P_complete|].
    destruct (chunkUpdates d); [apply applyUpdates_P|apply handleError_P].
  - unfold onErrorEvent. case_if; [apply P_refl|]. destruct (errorDetails d). apply handleError_P.
  - unfold onReadyStateChange. destruct r as [r|], s as [s|]; try apply P_refl.
    case_if; [apply handleError_P|apply P_refl].
  - unfold stopGeneration, stopStream. destruct (sseSource st); apply P_stop.
Qed.

Lemma reaches_P st es st' : reaches st es st' -> P (msgs st) (msgs st').
Proof.
  induction 1 as [st|st e es st' H IH]; [apply P_refl|]. eapply P_trans; [apply step_P|exact IH].
Qed.

End Steps.

(** No sequence of events touches the conversation: whatever the stream does,
    in whatever order, all messages but the last are unchanged and the last one
    keeps its key, its role and its images. *)
Theorem events_keep_conversation st es st' :
  reaches st es st' -> sameFrame (msgs st) (msgs st').
Proof.
  apply reaches_P.
  - by left.
  - apply sameFrame_trans.
  - intros [] c ms; apply update_frame; auto with jsdb.
  - intros ms. apply update_frame. auto with jsdb.
  - intros e c ms. apply update_frame. auto with jsdb.
  - intros ms. apply update_frame. auto with jsdb.
Qed.

Definition demoEvents : list Event :=
  [EvSend false; EvMessage 0 (demoChunk "par"); EvMessage 0 (js "not json"); EvMessage 0 (demoChunk "late"); EvStop].

Lemma reaches_foldl st es : reaches st es (foldl step st es).
Proof. revert st. induction es as [|e es IH]; intros st; cbn; constructor. apply IH. Qed.

Lemma events_keep_conversation_witness :
  sameFrame demoChat (msgs (foldl step (startState demoChat) demoEvents)).
Proof. apply (events_keep_conversation (startState demoChat) demoEvents). apply reaches_foldl. Defined.

(** The last message is an assistant message that shows an error. *)
Definition showsError (ms : list Message) : Prop :=
  exists init m, ms = init ++ [m] /\ from m = Assistant /\ status m = Some Error /\
    starts_with (API_REQUEST_ERROR ++ js ": ") (v_content (getCurrentVersion m)) = true.

Lemma update_showsError f ms :
  (forall m, status m = Some Error -> f m = m) -> showsError ms -> showsError (updateLastAssistantMessage ms f).
Proof.
  intros Hf (init & m & -> & Hm & Hs & Hc). rewrite update_last by done. rewrite Hf by done. by exists init, m.
Qed.

Lemma fail_showsError e c ms :
  (exists init m, ms = init ++ [m] /\ from m = Assistant) -> showsError (handleStreamError e c ms).
Proof.
  intros (init & m & -> & Hm). unfold handleStreamError, updateAssistantMessageWithError. rewrite update_last by done.
  exists init, (failMessage e c m). split; [done|]. split; [done|]. split; [done|].
  unfold failMessage. cbn [getCurrentVersion versions withErrorCode withReasoning withStatus updateCurrentVersionContent withVersions v_content].
  rewrite app_assoc. apply starts_with_app.
Qed.

(** An error is final: once the last message shows an error, no later event,
    be it a chunk, the end of the stream, another error, a stop or a new
    request, makes it show anything but an error. *)
Theorem errors_are_final st es st' :
  reaches st es st' -> showsError (msgs st) -> showsError (msgs st').
Proof.
  intros H. apply (reaches_P (fun a b => showsError a -> showsError b)) with (es := es); auto.
  - intros [] c ms; apply update_showsError; intros m Hm.
    + unfold streamReasoning. by rewrite decide_True.
    + unfold streamContent. by rewrite decide_True.
  - intros ms. apply update_showsError. intros m Hm. unfold completeMessage. by rewrite Hm.
  - intros e c ms (init & m & -> & Hm & _). apply fail_showsError. by exists init, m.
  - intros ms. apply update_showsError. intros m Hm. unfold stopMessage. by rewrite Hm.
Qed.

Definition failedState : StreamState := foldl step (startState demoChat) (take 3 demoEvents).

Lemma errors_are_final_witness :
  showsError (msgs (foldl step failedState [EvMessage 0 (demoChunk "late"); EvMessage 0 (js "[DONE]"); EvSend true])).
Proof.
  apply (errors_are_final failedState [EvMessage 0 (demoChunk "late"); EvMessage 0 (js "[DONE]"); EvSend true]).
  - apply reaches_foldl.
  - exists [createUserMessage demoIds 0 (js "hi") []]. eexists. split; [vm_compute; reflexivity|].
    split; [reflexivity|split; [reflexivity|vm_compute; reflexivity]].
Defined.

(** The error and ready-state events. *)
Definition isFailureEvent (e : Event) : Prop :=
  match e with EvError _ _ _ | EvReady _ _ _ => True | _ => False end.

Lemma complete_ignores_failure st e : isStreamComplete st = true -> isFailureEvent e -> step st e = st.
Proof.
  intros Hc He. destruct e as [b|sid d|sid r d|sid r s|]; try done; cbn [step].
  - unfold onErrorEvent. case_if; [done|]. destruct (errorDetails d). unfold handleError. by rewrite Hc.
  - unfold onReadyStateChange, handleError. rewrite Hc. destruct r, s; try done. by case_if.
Qed.

(** The end of the stream settles the reply: after [DONE] nothing is being
    generated, an assistant reply is complete or shows its error, and every
    error or ready-state event that still arrives is ignored. *)
Theorem done_settles_reply st sid es st' :
  Forall isFailureEvent es -> reaches (step st (EvMessage sid (js "[DONE]"))) es st' ->
  st' = step st (EvMessage sid (js "[DONE]")) /\ isGenerating st' = false /\
  forall m, last (msgs st') = Some m -> from m = Assistant -> status m = Some Complete \/ status m = Some Error.
Proof.
  intros Hes Hr.
  assert (E : st' = step st (EvMessage sid (js "[DONE]"))).
  { remember (step st (EvMessage sid (js "[DONE]"))) as s0 eqn:E0.
    assert (Hc : isStreamComplete s0 = true) by (subst; reflexivity). clear E0.
    induction Hr as [s|s e es s' Hr IH]; [done|]. apply Forall_cons in Hes as [He Hes].
    rewrite complete_ignores_failure in * by done. by apply IH. }
  split; [done|]. rewrite E. split; [reflexivity|]. intros m Hm Hf. cbn [step] in Hm.
  change (msgs (onMessageEvent sid (js "[DONE]") st)) with (handleStreamComplete (msgs st)) in Hm.
  unfold handleStreamComplete, updateLastAssistantMessage in Hm.
  destruct (last (msgs st)) as [m0|] eqn:El; [|congruence].
  destruct (bool_decide (from m0 = Assistant)) eqn:Ef.
  - rewrite last_snoc in Hm. injection Hm as <-. unfold completeMessage.
    destruct (status m0) as [[]|] eqn:Es; cbn; auto.
  - rewrite El in Hm. injection Hm as ->. bool_hyps. congruence.
Qed.

Lemma done_settles_reply_witness :
  let st := foldl step (startState demoChat) [EvSend false; EvMessage 0 (demoChunk "ok")] in
  let done := step st (EvMessage 0 (js "[DONE]")) in
  foldl step done [EvReady 0 (Some 2%Z) (Some 500%Z); EvError 0 1%Z None] = done /\ isGenerating done = false /\
  (forall m, last (msgs done) = Some m -> from m = Assistant -> status m = Some Complete \/ status m = Some Error).
Proof.
  apply (done_settles_reply (foldl step (startState demoChat) [EvSend false; EvMessage 0 (demoChunk "ok")]) 0
    [EvReady 0 (Some 2%Z) (Some 500%Z); EvError 0 1%Z None]).
  - repeat constructor.
  - apply reaches_foldl.
Defined.

(** ** Loading a stored conversation *)

Definition countStuck (ms : list Message) : nat := length (List.filter isStuck ms).

Lemma lastIndex_split {A} (p : A -> bool) l :
  match lastIndex p l with
  | None => Forall (fun x => p x = false) l
  | Some i => exists a x b, l = a ++ x :: b /\ length a = i /\ p x = true /\ Forall (fun y => p y = false) b
  end.
Proof.
  induction l as [|x l IH]; simpl; [done|]. destruct (lastIndex p l) as [i|].
  - destruct IH as (a & y & b & -> & <- & Hy & Hb). by exists (x :: a), y, b.
  - destruct (p x) eqn:E; [by exists [], x, l|by constructor].
Qed.

Lemma filter_none {A} (p : A -> bool) l : Forall (fun x => p x = false) l -> List.filter p l = [].
Proof. induction 1 as [|x l Hx Hl IH]; simpl; [done|]. by rewrite Hx. Qed.

Lemma sanitizeMessage_settled m :
  isStuck (sanitizeMessage m) = false /\ sameIdentity m (sanitizeMessage m) /\
  (status (sanitizeMessage m) = Some Complete \/ status (sanitizeMessage m) = Some Error).
Proof.
  unfold sanitizeMessage. case_if; unfold isStuck; cbn; (split; [apply andb_false_r|]); split; auto; done.
Qed.

(** Loading settles the last interrupted reply and nothing else: it becomes
    complete or an error with its key, role and images kept, every other message
    is unchanged, and exactly one interrupted reply less is left. *)
Theorem sanitize_settles_last_interrupted ms :
  countStuck (sanitizeMessagesOnLoad ms) = pred (countStuck ms) /\
  (sanitizeMessagesOnLoad ms = ms /\ countStuck ms = 0 \/
   exists before m after, ms = before ++ m :: after /\ isStuck m = true /\ countStuck after = 0 /\
     sanitizeMessagesOnLoad ms = before ++ sanitizeMessage m :: after /\ sameIdentity m (sanitizeMessage m) /\
     (status (sanitizeMessage m) = Some Complete \/ status (sanitizeMessage m) = Some Error)).
Proof.
  unfold sanitizeMessagesOnLoad, countStuck. pose proof (lastIndex_split isStuck ms) as H.
  destruct (lastIndex isStuck ms) as [i|].
  - destruct H as (a & m & b & -> & <- & Hm & Hb). rewrite list_lookup_middle by done.
    replace (length a) with (length a + 0)%nat by lia. rewrite insert_app_r. cbn [insert list_insert].
    destruct (sanitizeMessage_settled m) as (Hs & Hid & Hst).
    rewrite !List.filter_app. cbn [List.filter]. rewrite Hs, Hm, (filter_none _ b Hb).
    split; [rewrite !length_app; simpl; lia|]. right. exists a, m, b. by rewrite (filter_none _ b Hb).
  - rewrite (filter_none _ ms H). split; [done|]. by left.
Qed.

(** ** The payload *)

Lemma valid_assistant_text m :
  isValidMessage m = true -> from m = Assistant -> trim (getTextContent (content (formatMessageForAPI m))) <> [].
Proof.
  unfold isValidMessage, formatMessageForAPI. intros H Hf. destruct (versions m) as [|v vs] eqn:E; [done|].
  rewrite Hf in H. cbn in H. apply negb_true_iff, negb_false_iff in H. apply truthy_str_spec in H.
  cbn [content]. unfold getCurrentVersion. rewrite E. unfold buildMessageContent.
  by destruct (List.filter _ _).
Qed.

(** The request never carries a placeholder: the assistant message that waits
    for the reply does not change the payload, and every assistant message sent
    has visible text. *)
Theorem payload_skips_placeholders nanoid n ms config enabled :
  buildChatCompletionPayload (ms ++ [createLoadingAssistantMessage nanoid n]) config enabled =
    buildChatCompletionPayload ms config enabled /\
  Forall (fun m => role m = Assistant -> trim (getTextContent (content m)) <> [])
    (q_messages (buildChatCompletionPayload ms config enabled)).
Proof.
  split.
  - unfold buildChatCompletionPayload. rewrite List.filter_app. cbn. by rewrite app_nil_r.
  - cbn [q_messages buildChatCompletionPayload]. apply Forall_map, Forall_forall. intros m Hm Hr.
    apply list_elem_of_In, filter_In in Hm as [_ Hv]. by apply valid_assistant_text.
Qed.
