(* ===== verification/Sidebar.v ===== *)
(** * Which navigation entries are shown (hooks/use-sidebar-config.ts,
      lib/nav-modules.ts)

    The administrator's and the user's sidebar configurations are JSON texts;
    a configuration is the parsed JavaScript value.  The first half filters the
    sidebar by both layers, the second half parses the header navigation
    settings.  Property reads go to own properties. *)
From stdpp Require Import prelude list strings.
From S2P Require Import Prelude JsString JsNumber JsValue JsMap.
Open Scope js_scope.

(** ** Sidebar configuration *)

(** The own properties that spreading a value copies. *)
Definition ownProps (v : jsval) : list (jstr * jsval) :=
  match v with
  | VObj fs => fs
  | VArr xs => zip (map (fun i => print_int (Z.of_nat i)) (seq 0 (length xs))) xs
  | VStr s => zip (map (fun i => print_int (Z.of_nat i)) (seq 0 (length s))) (map (fun c => VStr [c]) s)
  | _ => []
  end.

(** [v.k] for a value that is not nullish. *)
Definition readProp (v : jsval) (k : jstr) : jsval := get_prop k (ownProps v).

Definition allOn (ks : list string) : list (jstr * jsval) := map (fun k => (js k, VBool true)) ks.

Definition DEFAULT_SIDEBAR_MODULES : list (jstr * list (jstr * jsval)) :=
  [(js "chat", allOn ["enabled"; "playground"; "chat"]%string);
   (js "console", allOn ["enabled"; "detail"; "token"; "log"; "midjourney"; "task"]%string);
   (js "personal", allOn ["enabled"; "topup"; "personal"]%string);
   (js "admin", allOn ["enabled"; "channel"; "models"; "redemption"; "user"; "setting"; "subscription"]%string)].

Definition defaultConfig : list (jstr * jsval) := map (fun p => (p.1, VObj p.2)) DEFAULT_SIDEBAR_MODULES.

Definition isUndefined (v : jsval) : bool := match v with VUndef => true | _ => false end.

(** The loop that restores the default of a module left undefined. *)
Definition fillUndefined (defaultSection section : list (jstr * jsval)) : list (jstr * jsval) :=
  foldl (fun s moduleKey => if isUndefined (get_prop moduleKey s)
                            then set_prop moduleKey (get_prop moduleKey defaultSection) s else s)
    section (obj_keys defaultSection).

Definition mergeSection (merged : list (jstr * jsval)) (p : jstr * list (jstr * jsval)) : list (jstr * jsval) :=
  let existingSection := get_prop p.1 merged in
  if negb (truthy existingSection) then set_prop p.1 (VObj p.2) merged
  else set_prop p.1 (VObj (fillUndefined p.2 (spread p.2 (ownProps existingSection)))) merged.

Definition mergeWithDefaultSidebarModules (config : jsval) : list (jstr * jsval) :=
  foldl mergeSection (spread [] (ownProps config)) DEFAULT_SIDEBAR_MODULES.

Definition URL_TO_CONFIG_MAP : list (jstr * (jstr * jstr)) :=
  map (fun e => (js e.1, (js e.2.1, js e.2.2)))
  [("/playground", ("chat", "playground")); ("/dashboard", ("console", "detail"));
   ("/dashboard/overview", ("console", "detail")); ("/dashboard/models", ("console", "detail"));
   ("/dashboard/users", ("console", "detail")); ("/keys", ("console", "token"));
   ("/usage-logs", ("console", "log")); ("/usage-logs/common", ("console", "log"));
   ("/usage-logs/drawing", ("console", "midjourney")); ("/usage-logs/task", ("console", "task"));
   ("/wallet", ("personal", "topup")); ("/billing", ("personal", "topup"));
   ("/profile", ("personal", "personal")); ("/channels", ("admin", "channel"));
   ("/models", ("admin", "models")); ("/models/metadata", ("admin", "models"));
   ("/models/deployments", ("admin", "models")); ("/users", ("admin", "user"));
   ("/redemption-codes", ("admin", "redemption")); ("/subscriptions", ("admin", "subscription"));
   ("/system-settings", ("admin", "setting")); ("/system-settings/site", ("admin", "setting"))]%string.

(** [!value || value.trim() === ''] for a text that may be missing. *)
Definition blankText (value : option jstr) : bool := negb (truthy_str (trim (default [] value))).

Definition parseSidebarConfig (value : option jstr) : list (jstr * jsval) :=
  if blankText value then defaultConfig
  else match json_parse (default [] value) with
       | Some parsed => mergeWithDefaultSidebarModules parsed
       | None => defaultConfig
       end.

Definition parseUserSidebarConfig (value : option jstr) : option (list (jstr * jsval)) :=
  if blankText value then None
  else match json_parse (default [] value) with
       | Some ((VObj _ | VArr _) as parsed) => Some (ownProps parsed)
       | _ => None
       end.

(** The two layers for a section and a module of it. *)
Definition adminAllows (adminConfig : list (jstr * jsval)) (section module : jstr) : bool :=
  let adminSection := get_prop section adminConfig in
  truthy adminSection && truthy (readProp adminSection (js "enabled")) && isTrue (readProp adminSection module).

Definition userAllows (userConfig : option (list (jstr * jsval))) (section module : jstr) : bool :=
  match userConfig with
  | None => true
  | Some c =>
      let userSection := get_prop section c in
      if negb (truthy userSection) then true
      else if isFalse (readProp userSection (js "enabled")) then false
      else negb (isFalse (readProp userSection module))
  end.

Definition isModuleEnabled (url : jstr) (adminConfig : list (jstr * jsval))
    (userConfig : option (list (jstr * jsval))) : bool :=
  match mget url URL_TO_CONFIG_MAP with
  | None => true
  | Some (section, module) =>
      if negb (adminAllows adminConfig section module) then false else userAllows userConfig section module
  end.

(** ** Navigation items (components/layout/types.ts) *)

Record NavSubItem := mkSub { sub_title : jstr; sub_url : jstr }.

Inductive NavItem :=
| NavLink (title url : jstr) (configUrls : option (list jstr))
| NavCollapsible (title : jstr) (items : list NavSubItem)
| NavChatPresets (title : jstr).

Record NavGroup := mkGroup { g_title : jstr; g_items : list NavItem }.

Section Filter.
Context (adminConfig : list (jstr * jsval)) (userConfig : option (list (jstr * jsval))).

Definition isNavItemVisible (item : NavItem) : bool :=
  match item with
  | NavChatPresets _ =>
      if negb (adminAllows adminConfig (js "chat") (js "chat")) then false
      else userAllows userConfig (js "chat") (js "chat")
  | NavLink _ url configUrls =>
      if truthy_str url
      then existsb (fun url => isModuleEnabled url adminConfig userConfig) (default [url] configUrls)
      else true
  | NavCollapsible _ items => existsb (fun s => isModuleEnabled (sub_url s) adminConfig userConfig) items
  end.

Definition filterSubItems (item : NavItem) : NavItem :=
  match item with
  | NavCollapsible title items =>
      NavCollapsible title (List.filter (fun s => isModuleEnabled (sub_url s) adminConfig userConfig) items)
  | _ => item
  end.

Definition filterNavItems (items : list NavItem) : list NavItem :=
  List.filter isNavItemVisible (map filterSubItems items).

Definition filterGroups (groups : list NavGroup) : list NavGroup :=
  List.filter (fun g => match g_items g with [] => false | _ => true end)
    (map (fun g => {| g_title := g_title g; g_items := filterNavItems (g_items g) |}) groups).

End Filter.

(** What the hook reads from the stores: the administrator's text, whether the
    user may configure the sidebar ([permissions.sidebar_settings]) and the
    user's text. *)
Record SidebarInputs := mkInputs {
  si_admin : option jstr; si_sidebarSettings : option bool; si_user : option jstr }.

Definition resolveUserConfig (i : SidebarInputs) : option (list (jstr * jsval)) :=
  match si_sidebarSettings i with
  | Some false => None
  | _ => parseUserSidebarConfig (si_user i)
  end.

Definition useSidebarConfig (i : SidebarInputs) (navGroups : list NavGroup) : list NavGroup :=
  filterGroups (parseSidebarConfig (si_admin i)) (resolveUserConfig i) navGroups.

Definition useIsSidebarModuleVisible (i : SidebarInputs) (url : jstr) : bool :=
  isModuleEnabled url (parseSidebarConfig (si_admin i)) (resolveUserConfig i).

(** ** The cached-status gate (nav-modules.ts) *)

(** [isSidebarModuleEnabled] on the cached status, [None] when there is none;
    reading a property of a nullish parsed value throws and is caught. *)
Definition isSidebarModuleEnabled (status : option (list (jstr * jsval))) (section module : jstr) : bool :=
  match status with
  | None => true
  | Some st =>
      let raw := get_prop (js "SidebarModulesAdmin") st in
      if negb (truthy raw) || negb (truthy_str (trim (js_String raw))) then true
      else match json_parse (js_String raw) with
           | None | Some VNull => true
           | Some parsed =>
               let sectionConfig := readProp parsed section in
               if negb (truthy sectionConfig) then true
               else if isFalse (readProp sectionConfig (js "enabled")) then false
               else negb (isFalse (readProp sectionConfig module))
           end
  end.

(** ** Header navigation modules (nav-modules.ts) *)

Record ModuleAccess := mkAccess { enabled : bool; requireAuth : bool }.
Inductive NavValue := NavBool (b : bool) | NavAccess (a : ModuleAccess).

Inductive HeaderNavModule := Rankings | Pricing.

Definition moduleName (m : HeaderNavModule) : jstr := match m with Rankings => js "rankings" | Pricing => js "pricing" end.

Definition openAccess : ModuleAccess := {| enabled := true; requireAuth := false |}.

Definition DEFAULT_HEADER_NAV_MODULES : list (jstr * NavValue) :=
  [(js "home", NavBool true); (js "console", NavBool true); (js "pricing", NavAccess openAccess);
   (js "rankings", NavAccess openAccess); (js "playground", NavBool true); (js "docs", NavBool true);
   (js "about", NavBool true)].

Definition DEFAULTS (m : HeaderNavModule) : ModuleAccess := openAccess.

(** [toLowerCase] on the ASCII letters; no other character lowers to a letter of
    the words it is compared with. *)
Definition lowerAscii (c : N) : N := if ((65 <=? c) && (c <=? 90))%N then (c + 32)%N else c.

Definition parseHeaderNavBoolean (raw : jsval) (fallback : bool) : bool :=
  match raw with
  | VBool b => b
  | VNum n => if num_eqb n (num_of_Z 1) then true else if num_eqb n num_zero then false else fallback
  | VStr s =>
      let normalized := map lowerAscii (trim s) in
      if (normalized === js "true") || (normalized === js "1") then true
      else if (normalized === js "false") || (normalized === js "0") then false
      else fallback
  | _ => fallback
  end.

Definition parseAccess (raw : jsval) (fallback : ModuleAccess) : ModuleAccess :=
  match raw with
  | VBool _ | VNum _ | VStr _ =>
      {| enabled := parseHeaderNavBoolean raw (enabled fallback); requireAuth := requireAuth fallback |}
  | VObj _ | VArr _ =>
      {| enabled := parseHeaderNavBoolean (readProp raw (js "enabled")) (enabled fallback);
         requireAuth := parseHeaderNavBoolean (readProp raw (js "requireAuth")) (requireAuth fallback) |}
  | VUndef | VNull => fallback
  end.

Definition parseHeaderNavRecord (raw : jsval) : option jsval :=
  if negb (truthy raw) || negb (truthy_str (trim (js_String raw))) then None
  else match raw with
       | VObj _ | VArr _ => Some raw
       | _ => json_parse (js_String raw)
       end.

Definition isBoolLike (v : jsval) : bool := match v with VBool _ | VNum _ | VStr _ => true | _ => false end.

Definition accessOr (d : ModuleAccess) (v : option NavValue) : ModuleAccess :=
  match v with Some (NavAccess a) => a | _ => d end.

Definition parseEntry (result : list (jstr * NavValue)) (e : jstr * jsval) : list (jstr * NavValue) :=
  let '(key, value) := e in
  if key === js "pricing" then
    mset key (NavAccess (parseAccess value (accessOr openAccess (mget key result)))) result
  else if key === js "rankings" then
    mset key (NavAccess (parseAccess value (accessOr openAccess (mget key result)))) result
  else
    let fallback := mget key result in
    let boolFallback := match fallback with Some (NavBool _) => true | _ => false end in
    if boolFallback || isBoolLike value then
      mset key (NavBool (parseHeaderNavBoolean value (match fallback with Some (NavBool b) => b | _ => true end))) result
    else result.

Definition parseHeaderNavModules (raw : jsval) : list (jstr * NavValue) :=
  match parseHeaderNavRecord raw with
  | None => DEFAULT_HEADER_NAV_MODULES
  | Some parsed =>
      if negb (truthy parsed) then DEFAULT_HEADER_NAV_MODULES
      else foldl parseEntry DEFAULT_HEADER_NAV_MODULES (entries (ownProps parsed))
  end.

Definition parseHeaderNavModulesFromStatus (status : option (list (jstr * jsval))) : list (jstr * NavValue) :=
  parseHeaderNavModules (match status with Some st => get_prop (js "HeaderNavModules") st | None => VUndef end).

Definition getModuleAccessFromStatus (status : option (list (jstr * jsval))) (m : HeaderNavModule) : ModuleAccess :=
  accessOr (DEFAULTS m) (mget (moduleName m) (parseHeaderNavModulesFromStatus status)).

(** The status request's result, [None] when it fails. *)
Definition getFreshModuleAccess (response : option (option (list (jstr * jsval)))) (m : HeaderNavModule) : ModuleAccess :=
  match response with
  | Some status => getModuleAccessFromStatus status m
  | None => {| enabled := false; requireAuth := true |}
  end.
