(* ===== verification/SidebarCorrect.v ===== *)
(** * Correctness of the navigation gates

    A user's sidebar settings can only hide what the administrator allows, the
    administrator's settings are complete after parsing, the two gates that read
    them agree on boolean settings, and the header navigation settings always
    have their types. *)
From stdpp Require Import prelude list strings.
From S2P Require Import Prelude JsString JsNumber JsValue JsMap Sidebar.

(** ** Layers *)

Lemma module_enabled_layers url admin user :
  isModuleEnabled url admin user = true <->
  match mget url URL_TO_CONFIG_MAP with
  | None => True
  | Some (s, m) => adminAllows admin s m = true /\ userAllows user s m = true
  end.
Proof.
  unfold isModuleEnabled. destruct (mget url _) as [[s m]|]; [|done].
  destruct (adminAllows admin s m); simpl; [|split; [done|by intros [? _]]]. by split; [split|intros [_ ?]].
Qed.

Lemma module_enabled_mono url admin user : isModuleEnabled url admin user = true -> isModuleEnabled url admin None = true.
Proof. rewrite !module_enabled_layers. destruct (mget url _) as [[s m]|]; [|done]. by intros [? _]. Qed.

(** The leaves of an item: the links a user can follow. *)
Definition itemLeaves (item : NavItem) : list (jstr * jstr) :=
  match item with
  | NavLink title url _ => [(title, url)]
  | NavCollapsible _ items => map (fun s => (sub_title s, sub_url s)) items
  | NavChatPresets title => [(title, [])]
  end.

Definition groupLeaves (groups : list NavGroup) : list (jstr * jstr) :=
  concat (map (fun g => concat (map itemLeaves (g_items g))) groups).

Lemma in_concat_map {A B} (f : A -> list B) l y : y ∈ concat (map f l) <-> exists x, x ∈ l /\ y ∈ f x.
Proof.
  rewrite list_elem_of_In, <- flat_map_concat_map, in_flat_map.
  split; intros (x & Hx & Hy); exists x; by rewrite ?list_elem_of_In in *.
Qed.

Lemma in_filter {A} (p : A -> bool) l x : x ∈ List.filter p l <-> x ∈ l /\ p x = true.
Proof. rewrite !list_elem_of_In. apply filter_In. Qed.

(** An item that is left of [item] after filtering, with its leaves. *)
Lemma filtered_leaf admin user items e :
  e ∈ concat (map itemLeaves (filterNavItems admin user items)) <->
  exists item, item ∈ items /\ isNavItemVisible admin user (filterSubItems admin user item) = true /\
    e ∈ itemLeaves (filterSubItems admin user item).
Proof.
  rewrite in_concat_map. unfold filterNavItems. setoid_rewrite in_filter. setoid_rewrite list_elem_of_fmap.
  naive_solver.
Qed.

Lemma group_leaf admin user groups e :
  e ∈ groupLeaves (filterGroups admin user groups) <->
  exists g item, g ∈ groups /\ item ∈ g_items g /\ isNavItemVisible admin user (filterSubItems admin user item) = true /\
    e ∈ itemLeaves (filterSubItems admin user item).
Proof.
  unfold groupLeaves. rewrite in_concat_map. unfold filterGroups. split.
  - intros (g & [Hg _]%in_filter & He). apply list_elem_of_fmap in Hg as (g0 & -> & Hg0). cbn [g_items] in He.
    apply filtered_leaf in He as (item & H1 & H2 & H3). by exists g0, item.
  - intros (g & item & Hg & Hi & Hv & He).
    assert (Hl : e ∈ concat (map itemLeaves (filterNavItems admin user (g_items g)))) by (apply filtered_leaf; by exists item).
    exists {| g_title := g_title g; g_items := filterNavItems admin user (g_items g) |}. split; [|done].
    apply in_filter. split; [by apply (list_elem_of_fmap_2 (fun g => {| g_title := g_title g; g_items := filterNavItems admin user (g_items g) |}))|].
    cbn. destruct (filterNavItems admin user (g_items g)); [by apply elem_of_nil in Hl|done].
Qed.

Lemma existsb_mono {A} (p q : A -> bool) l : (forall x, p x = true -> q x = true) -> existsb p l = true -> existsb q l = true.
Proof. intros H. rewrite !existsb_exists. intros (x & Hx & Hp). exists x. auto. Qed.

Lemma existsb_filter {A} (p : A -> bool) l : existsb p (List.filter p l) = existsb p l.
Proof. induction l as [|x l IH]; simpl; [done|]. destruct (p x) eqn:E; simpl; by rewrite ?E. Qed.

Lemma visible_mono admin user item :
  isNavItemVisible admin user (filterSubItems admin user item) = true ->
  isNavItemVisible admin None (filterSubItems admin None item) = true /\
  forall e, e ∈ itemLeaves (filterSubItems admin user item) -> e ∈ itemLeaves (filterSubItems admin None item).
Proof.
  destruct item as [t url cu|t items|t]; cbn [filterSubItems isNavItemVisible itemLeaves].
  - case_if; [|done]. intros H. split; [|done]. eapply existsb_mono; [|exact H]. intros u. apply module_enabled_mono.
  - rewrite !existsb_filter. intros H. split; [eapply existsb_mono; [|exact H]; intros s; apply module_enabled_mono|].
    intros e (s & -> & [Hs Hu]%in_filter)%list_elem_of_fmap.
    apply (list_elem_of_fmap_2 (fun s => (sub_title s, sub_url s))), in_filter. split; [done|]. by apply module_enabled_mono in Hu.
  - by destruct (adminAllows admin (js "chat") (js "chat")).
Qed.

Lemma leaf_original admin user item e : e ∈ itemLeaves (filterSubItems admin user item) -> e ∈ itemLeaves item.
Proof.
  destruct item; cbn; auto. intros (s & -> & [Hs _]%in_filter)%list_elem_of_fmap.
  by apply (list_elem_of_fmap_2 (fun s => (sub_title s, sub_url s))).
Qed.

Definition withoutUser (i : SidebarInputs) : SidebarInputs :=
  {| si_admin := si_admin i; si_sidebarSettings := si_sidebarSettings i; si_user := None |}.

(** [C40] The user's layer only narrows: every link the sidebar shows is one it
    would show without the user's settings, and one of the navigation's own. *)
Theorem user_settings_only_hide i groups e :
  e ∈ groupLeaves (useSidebarConfig i groups) ->
  e ∈ groupLeaves (useSidebarConfig (withoutUser i) groups) /\ e ∈ groupLeaves groups.
Proof.
  unfold useSidebarConfig. assert (E : resolveUserConfig (withoutUser i) = None).
  { unfold resolveUserConfig. cbn. by destruct (si_sidebarSettings i) as [[]|]. }
  rewrite E. cbn [withoutUser si_admin]. rewrite !group_leaf.
  intros (g & item & Hg & Hi & Hv & He). split.
  - apply visible_mono in Hv as [Hv Hl]. exists g, item. auto.
  - unfold groupLeaves. apply in_concat_map. exists g. split; [done|]. apply in_concat_map.
    exists item. split; [done|]. by eapply leaf_original.
Qed.

Definition demoNav : list NavGroup :=
  [{| g_title := js "Console"; g_items :=
      [NavLink (js "Keys") (js "/keys") None;
       NavCollapsible (js "Logs") [mkSub (js "Common") (js "/usage-logs/common"); mkSub (js "Task") (js "/usage-logs/task")]] |};
   {| g_title := js "Personal"; g_items := [NavLink (js "Wallet") (js "/wallet") None; NavChatPresets (js "Chat")] |}].

Definition demoInputs : SidebarInputs :=
  {| si_admin := Some (jsq "{'personal':{'enabled':true,'topup':false},'chat':{'chat':true}}");
     si_sidebarSettings := None; si_user := Some (jsq "{'console':{'task':false,'enabled':true}}") |}.

Example demoNav_shown :
  groupLeaves (useSidebarConfig demoInputs demoNav) =
  [(js "Keys", js "/keys"); (js "Common", js "/usage-logs/common"); (js "Chat", [])].
Proof. vm_compute. reflexivity. Qed.

Lemma user_settings_only_hide_witness :
  (js "Keys", js "/keys") ∈ groupLeaves (useSidebarConfig (withoutUser demoInputs) demoNav) /\
  (js "Keys", js "/keys") ∈ groupLeaves demoNav.
Proof. apply user_settings_only_hide. apply (bool_decide_unpack _). vm_compute. exact I. Defined.

(** ** Merging with the defaults *)

Definition mergedSection (d : list (jstr * jsval)) (v : jsval) : list (jstr * jsval) :=
  if negb (truthy v) then d else fillUndefined d (spread d (ownProps v)).

Lemma mergeSection_get m p k :
  get_prop k (mergeSection m p) = if bool_decide (k = p.1) then VObj (mergedSection p.2 (get_prop p.1 m)) else get_prop k m.
Proof. unfold mergeSection, mergedSection. destruct (truthy _); simpl; by rewrite get_set_prop. Qed.

Lemma mergeSections_get ds : forall m k, NoDup (map fst ds) ->
  get_prop k (foldl mergeSection m ds) =
  match mget k ds with Some d => VObj (mergedSection d (get_prop k m)) | None => get_prop k m end.
Proof.
  induction ds as [|[k' d] ds IH]; intros m k Hd; [done|]. cbn [foldl map fst] in *.
  apply NoDup_cons in Hd as [Hk Hd]. rewrite IH, !mergeSection_get by done. cbn [fst snd].
  unfold mget at 2. fold (mget k ds). case_bool_decide as E; [subst k'|done].
  destruct (mget k ds) eqn:Hg; [|done]. apply mget_elem in Hg. destruct Hk. by apply (list_elem_of_fmap_2 fst) in Hg.
Qed.

Lemma fillUndefined_get d s k :
  get_prop k (fillUndefined d s) =
  if isUndefined (get_prop k s) && bool_decide (k ∈ map fst d) then get_prop k d else get_prop k s.
Proof.
  unfold fillUndefined. rewrite (bool_decide_ext _ (k ∈ obj_keys d)) by (by rewrite obj_keys_elem).
  generalize (obj_keys d). intros ks. revert s. induction ks as [|x ks IH]; intros s; cbn [foldl].
  { destruct (isUndefined (get_prop k s)); done. }
  rewrite IH. destruct (isUndefined (get_prop x s)) eqn:Ex.
  - rewrite get_set_prop. destruct (decide (k = x)) as [->|Hne].
    + rewrite bool_decide_true by done. rewrite (bool_decide_true (x ∈ x :: ks)) by (apply elem_of_cons; by left).
      rewrite Ex. cbn [andb]. by destruct (isUndefined (get_prop x d) && _).
    + rewrite (bool_decide_false (k = x)) by done.
      rewrite (bool_decide_ext (k ∈ x :: ks) (k ∈ ks)); [done|]. rewrite elem_of_cons. naive_solver.
  - destruct (decide (k = x)) as [->|Hne]; [by rewrite Ex|].
    rewrite (bool_decide_ext (k ∈ x :: ks) (k ∈ ks)); [done|]. rewrite elem_of_cons. naive_solver.
Qed.

(** A module of a merged section: what the text says, or the default. *)
Lemma mergedSection_get d v k :
  k ∈ map fst d ->
  get_prop k (mergedSection d v) =
  if negb (truthy v) || isUndefined (readProp v k) then get_prop k d else readProp v k.
Proof.
  intros Hk. unfold mergedSection. destruct (truthy v) eqn:Ev; cbn [negb orb]; [|done].
  rewrite fillUndefined_get, (bool_decide_true (k ∈ map fst d)), andb_true_r by done.
  rewrite get_prop_spread. unfold readProp.
  destruct (bool_decide (k ∈ map fst (ownProps v))) eqn:Hin; [done|].
  apply bool_decide_eq_false in Hin. rewrite (get_prop_absent k (ownProps v)) by done. cbn [isUndefined].
  by destruct (isUndefined (get_prop k d)).
Qed.

Lemma defaultSections_NoDup : NoDup (map fst DEFAULT_SIDEBAR_MODULES).
Proof. apply (bool_decide_unpack _). vm_compute. exact I. Qed.

Lemma merged_get c section d :
  mget section DEFAULT_SIDEBAR_MODULES = Some d ->
  get_prop section (mergeWithDefaultSidebarModules c) = VObj (mergedSection d (readProp c section)).
Proof.
  intros Hd. unfold mergeWithDefaultSidebarModules. rewrite mergeSections_get by apply defaultSections_NoDup.
  rewrite Hd. do 2 f_equal. rewrite get_prop_spread. unfold readProp. case_bool_decide as E; [done|].
  by rewrite (get_prop_absent section (ownProps c)).
Qed.

(** Every default module is on. *)
Lemma default_modules_on section d k :
  mget section DEFAULT_SIDEBAR_MODULES = Some d -> k ∈ map fst d -> get_prop k d = VBool true.
Proof.
  intros Hd Hk. apply mget_elem in Hd.
  assert (F : Forall (fun p => Forall (fun k => get_prop k p.2 = VBool true) (map fst p.2)) DEFAULT_SIDEBAR_MODULES).
  { repeat constructor. }
  rewrite Forall_forall in F. specialize (F _ Hd). cbn in F. rewrite Forall_forall in F. by apply F.
Qed.

Lemma defaultConfig_get section d :
  mget section DEFAULT_SIDEBAR_MODULES = Some d -> get_prop section defaultConfig = VObj d.
Proof.
  unfold defaultConfig. generalize DEFAULT_SIDEBAR_MODULES. intros l. induction l as [|[k v] l IH]; [done|].
  unfold mget. fold (mget section l). cbn. case_bool_decide; [by intros [= ->]|]. apply IH.
Qed.

(** [C35] Parsing the administrator's setting never fails and its result is
    complete: whatever the text, every section of the default layout is there as
    an object, and every module of it has a value, which is the text's own value
    wherever the text gives one. *)
Theorem parsed_admin_config_complete value section d k :
  mget section DEFAULT_SIDEBAR_MODULES = Some d -> k ∈ map fst d ->
  exists fs, get_prop section (parseSidebarConfig value) = VObj fs /\ get_prop k fs <> VUndef /\
    forall parsed, blankText value = false -> json_parse (default [] value) = Some parsed ->
      truthy (readProp parsed section) = true -> readProp (readProp parsed section) k <> VUndef ->
      get_prop k fs = readProp (readProp parsed section) k.
Proof.
  intros Hd Hk. pose proof (default_modules_on section d k Hd Hk) as Hon. unfold parseSidebarConfig.
  destruct (blankText value) eqn:Hb.
  { exists d. rewrite (defaultConfig_get section d Hd), Hon. done. }
  destruct (json_parse (default [] value)) as [c|].
  - exists (mergedSection d (readProp c section)). rewrite (merged_get c section d Hd).
    rewrite (mergedSection_get d _ k Hk), Hon. split; [done|]. split.
    + destruct (negb _ || isUndefined (readProp (readProp c section) k)) eqn:E; [done|].
      apply orb_false_iff in E as [_ E]. by destruct (readProp _ k).
    + intros parsed _ [= <-] Ht Hne. rewrite Ht. cbn. by destruct (readProp (readProp c section) k).
  - exists d. rewrite (defaultConfig_get section d Hd), Hon. done.
Qed.

Lemma parsed_admin_config_complete_witness :
  exists fs, get_prop (js "admin") (parseSidebarConfig (Some (js "[1,2]"))) = VObj fs /\ get_prop (js "user") fs <> VUndef /\
    forall parsed, blankText (Some (js "[1,2]")) = false -> json_parse (js "[1,2]") = Some parsed ->
      truthy (readProp parsed (js "admin")) = true -> readProp (readProp parsed (js "admin")) (js "user") <> VUndef ->
      get_prop (js "user") fs = readProp (readProp parsed (js "admin")) (js "user").
Proof.
  apply (parsed_admin_config_complete (Some (js "[1,2]")) (js "admin")
    (allOn ["enabled"; "channel"; "models"; "redemption"; "user"; "setting"; "subscription"]%string) (js "user")).
  - vm_compute. reflexivity.
  - apply (bool_decide_unpack _). vm_compute. exact I.
Defined.

(** ** The two gates *)

(** A setting that is a boolean, or not given. *)
Definition boolOrAbsent (v : jsval) : Prop := v = VUndef \/ exists b, v = VBool b.

Lemma mapped_modules_known url section module :
  mget url URL_TO_CONFIG_MAP = Some (section, module) ->
  exists d, mget section DEFAULT_SIDEBAR_MODULES = Some d /\ js "enabled" ∈ map fst d /\ module ∈ map fst d.
Proof.
  intros H. apply mget_elem in H.
  assert (F : Forall (fun p => match mget p.2.1 DEFAULT_SIDEBAR_MODULES with
    | Some d => bool_decide (js "enabled" ∈ map fst d) && bool_decide (p.2.2 ∈ map fst d) | None => false end = true)
    URL_TO_CONFIG_MAP).
  { apply (bool_decide_unpack _). vm_compute. exact I. }
  rewrite Forall_forall in F. specialize (F _ H). cbn in F.
  destruct (mget section DEFAULT_SIDEBAR_MODULES) as [d|]; [|done]. exists d. by bool_hyps.
Qed.

Lemma bool_gate v : boolOrAbsent v ->
  truthy (if isUndefined v then VBool true else v) = negb (isFalse v) /\
  isTrue (if isUndefined v then VBool true else v) = negb (isFalse v).
Proof. intros [->|[[] ->]]; done. Qed.

Lemma admin_allows_merged url section module parsed :
  mget url URL_TO_CONFIG_MAP = Some (section, module) ->
  boolOrAbsent (readProp (readProp parsed section) (js "enabled")) ->
  boolOrAbsent (readProp (readProp parsed section) module) ->
  adminAllows (mergeWithDefaultSidebarModules parsed) section module =
  if negb (truthy (readProp parsed section)) then true
  else negb (isFalse (readProp (readProp parsed section) (js "enabled"))) &&
       negb (isFalse (readProp (readProp parsed section) module)).
Proof.
  intros Hurl He Hm. destruct (mapped_modules_known url section module Hurl) as (d & Hd & Ke & Km).
  unfold adminAllows. rewrite (merged_get parsed section d Hd). set (v := readProp parsed section) in *.
  change (readProp (VObj (mergedSection d v))) with (fun k => get_prop k (mergedSection d v)). cbn beta.
  rewrite (mergedSection_get d _ _ Ke), (mergedSection_get d _ _ Km).
  rewrite (default_modules_on section d _ Hd Ke), (default_modules_on section d _ Hd Km).
  destruct (bool_gate _ He) as [Ge _], (bool_gate _ Hm) as [_ Gm].
  destruct (truthy v); cbn [negb orb]; [|done]. by rewrite Ge, Gm.
Qed.

(** The sidebar's gate and the route guard's gate agree: on an
    administrator's text whose settings are booleans or left out, both say the
    same about every mapped page. *)
Theorem sidebar_gates_agree url section module text parsed :
  mget url URL_TO_CONFIG_MAP = Some (section, module) -> json_parse text = Some parsed ->
  blankText (Some text) = false ->
  boolOrAbsent (readProp (readProp parsed section) (js "enabled")) ->
  boolOrAbsent (readProp (readProp parsed section) module) ->
  isModuleEnabled url (parseSidebarConfig (Some text)) None =
  isSidebarModuleEnabled (Some [(js "SidebarModulesAdmin", VStr text)]) section module.
Proof.
  intros Hurl Hp Hb He Hm. unfold isModuleEnabled. rewrite Hurl. unfold parseSidebarConfig. rewrite Hb.
  change (default [] (Some text)) with text. rewrite Hp, (admin_allows_merged url) by done.
  unfold isSidebarModuleEnabled. cbn [get_prop]. rewrite bool_decide_true by done.
  assert (Ht : truthy (VStr text) = true /\ truthy_str (trim text) = true).
  { unfold blankText in Hb. apply negb_false_iff in Hb. change (default [] (Some text)) with text in Hb.
    split; [|done]. cbn. destruct text; [by vm_compute in Hb|done]. }
  destruct Ht as [Ht1 Ht2]. cbn [js_String]. rewrite Ht1, Ht2, Hp. cbn [negb orb userAllows].
  transitivity (if negb (truthy (readProp parsed section)) then true
    else if isFalse (readProp (readProp parsed section) (js "enabled")) then false
    else negb (isFalse (readProp (readProp parsed section) module))); [|by destruct parsed].
  by destruct (truthy (readProp parsed section)), (isFalse (readProp (readProp parsed section) (js "enabled"))),
    (isFalse (readProp (readProp parsed section) module)).
Qed.

Lemma sidebar_gates_agree_witness :
  let text := jsq "{'personal':{'enabled':true,'topup':false}}" in
  isModuleEnabled (js "/wallet") (parseSidebarConfig (Some text)) None =
  isSidebarModuleEnabled (Some [(js "SidebarModulesAdmin", VStr text)]) (js "personal") (js "topup").
Proof.
  apply (sidebar_gates_agree (js "/wallet") (js "personal") (js "topup") (jsq "{'personal':{'enabled':true,'topup':false}}")
    (VObj [(js "personal", VObj [(js "enabled", VBool true); (js "topup", VBool false)])]));
    [vm_compute; reflexivity|vm_compute; reflexivity|vm_compute; reflexivity| |].
  - right. exists true. vm_compute. reflexivity.
  - right. exists false. vm_compute. reflexivity.
Defined.

(** On other values they differ: a module switched off with the number 0 is
    hidden in the sidebar and open to the route guard. *)
Example gates_differ_on_numbers :
  let text := jsq "{'personal':{'enabled':true,'topup':0}}" in
  isModuleEnabled (js "/wallet") (parseSidebarConfig (Some text)) None = false /\
  isSidebarModuleEnabled (Some [(js "SidebarModulesAdmin", VStr text)]) (js "personal") (js "topup") = true.
Proof. vm_compute. auto. Qed.

(** ** Header navigation *)

Definition isAccessKey (k : jstr) : bool := bool_decide (k = js "pricing") || bool_decide (k = js "rankings").

(** The type the code gives the settings: access records under [pricing] and
    [rankings], booleans elsewhere, and every default key present. *)
Definition wellTypedNav (m : list (jstr * NavValue)) : Prop :=
  (forall k v, mget k m = Some v -> (exists a, v = NavAccess a) <-> isAccessKey k = true) /\
  (forall k, k ∈ mkeys DEFAULT_HEADER_NAV_MODULES -> mget k m <> None).

Lemma set_wellTyped m k v :
  wellTypedNav m -> ((exists a, v = NavAccess a) <-> isAccessKey k = true) -> wellTypedNav (mset k v m).
Proof.
  intros [H1 H2] Hv. split; intros k'; rewrite mget_mset; case_bool_decide as E; subst; auto.
  by intros v' [= <-].
Qed.

Lemma parseEntry_wellTyped m e : wellTypedNav m -> wellTypedNav (parseEntry m e).
Proof.
  intros H. destruct e as [k v]. unfold parseEntry.
  assert (Hk : isAccessKey k = bool_decide (k = js "pricing") || bool_decide (k = js "rankings")) by done.
  destruct (bool_decide (k = js "pricing")); [|destruct (bool_decide (k = js "rankings"))].
  - apply set_wellTyped; [done|]. rewrite Hk. naive_solver.
  - apply set_wellTyped; [done|]. rewrite Hk. naive_solver.
  - case_if; [|done]. apply set_wellTyped; [done|]. rewrite Hk. naive_solver.
Qed.

Lemma defaults_wellTyped : wellTypedNav DEFAULT_HEADER_NAV_MODULES.
Proof.
  split.
  - intros k v H%mget_elem.
    assert (F : Forall (fun p => match p.2 with NavAccess _ => true | NavBool _ => false end = isAccessKey p.1)
      DEFAULT_HEADER_NAV_MODULES) by (apply (bool_decide_unpack _); vm_compute; exact I).
    rewrite Forall_forall in F. apply F in H. cbn in H. rewrite <- H. destruct v; naive_solver.
  - intros k Hk E. by apply mget_None in E.
Qed.

(** Whatever value the status carries, the header navigation settings have
    their type: every known module is present, [pricing] and [rankings] are
    access records and every other entry is a boolean. *)
Theorem header_nav_well_typed raw : wellTypedNav (parseHeaderNavModules raw).
Proof.
  unfold parseHeaderNavModules. destruct (parseHeaderNavRecord raw) as [p|]; [|apply defaults_wellTyped].
  case_if; [apply defaults_wellTyped|].
  assert (G : forall es m, wellTypedNav m -> wellTypedNav (foldl parseEntry m es)).
  { intros es. induction es as [|e es IH]; intros m Hm; cbn; [done|]. apply IH. by apply parseEntry_wellTyped. }
  apply G, defaults_wellTyped.
Qed.

Lemma parseEntry_other m e k : k <> e.1 -> mget k (parseEntry m e) = mget k m.
Proof.
  destruct e as [k' v]. cbn [fst]. intros Hne. unfold parseEntry. repeat case_if; try done;
    rewrite mget_mset; by rewrite bool_decide_false.
Qed.

Lemma parseEntry_module m md v :
  mget (moduleName md) (parseEntry m (moduleName md, v)) =
  Some (NavAccess (parseAccess v (accessOr openAccess (mget (moduleName md) m)))).
Proof.
  unfold parseEntry. destruct md.
  - rewrite (bool_decide_false (moduleName Rankings = js "pricing")) by (vm_compute; discriminate).
    rewrite (bool_decide_true (moduleName Rankings = js "rankings")) by done. by rewrite mget_mset, bool_decide_true.
  - rewrite (bool_decide_true (moduleName Pricing = js "pricing")) by done. by rewrite mget_mset, bool_decide_true.
Qed.

(** The entry of a key among entries with distinct keys. *)
Lemma fold_entries_module es md : forall m,
  NoDup (map fst es) ->
  mget (moduleName md) (foldl parseEntry m es) =
  match mget (moduleName md) es with
  | Some v => Some (NavAccess (parseAccess v (accessOr openAccess (mget (moduleName md) m))))
  | None => mget (moduleName md) m
  end.
Proof.
  induction es as [|[k v] es IH]; intros m Hd; [done|]. cbn [foldl map fst] in *. apply NoDup_cons in Hd as [Hk Hd].
  rewrite IH, (mget_cons _ k v es) by done. destruct (decide (moduleName md = k)) as [<-|Hne].
  - rewrite bool_decide_true by done. assert (E : mget (moduleName md) es = None) by (by apply mget_None).
    rewrite E. apply parseEntry_module.
  - rewrite bool_decide_false by done. rewrite (parseEntry_other m (k, v)) by done. by destruct (mget _ es).
Qed.

Lemma mget_perm {V} (k : jstr) (a b : list (jstr * V)) : Permutation a b -> NoDup (map fst a) -> mget k a = mget k b.
Proof.
  intros Hp Hd. assert (Hd' : NoDup (map fst b)) by (by rewrite <- Hp).
  destruct (mget k a) as [v|] eqn:E.
  - symmetry. apply mget_NoDup; [done|]. rewrite <- Hp. by apply mget_elem.
  - symmetry. apply mget_None. apply mget_None in E. unfold mkeys in *. by rewrite <- Hp.
Qed.

(** The access of a header module is what the setting says: with a JSON
    object in the status, [pricing] or [rankings] is the entry read by
    [parseAccess], and open when there is no entry; a failed status request
    denies access. *)
Theorem header_access_follows_setting text fs st md :
  get_prop (js "HeaderNavModules") st = VStr text -> trim text <> [] ->
  json_parse text = Some (VObj fs) -> NoDup (map fst fs) ->
  getFreshModuleAccess (Some (Some st)) md =
    match mget (moduleName md) fs with Some v => parseAccess v openAccess | None => openAccess end /\
  getFreshModuleAccess None md = {| enabled := false; requireAuth := true |}.
Proof.
  intros Hst Htrim Hp Hd. split; [|done].
  unfold getFreshModuleAccess, getModuleAccessFromStatus, parseHeaderNavModulesFromStatus. rewrite Hst.
  unfold parseHeaderNavModules, parseHeaderNavRecord. cbn [js_String truthy].
  assert (Ht : truthy_str text = true) by (apply truthy_str_spec; intros ->; by apply Htrim).
  rewrite Ht, (proj2 (truthy_str_spec _) Htrim), Hp. cbn [negb orb truthy ownProps].
  rewrite fold_entries_module by (by rewrite entries_perm).
  rewrite (mget_perm _ (entries fs) fs) by (by rewrite ?entries_perm).
  assert (E : mget (moduleName md) DEFAULT_HEADER_NAV_MODULES = Some (NavAccess openAccess)) by (by destruct md).
  rewrite E. by destruct (mget _ fs).
Qed.

Lemma header_access_follows_setting_witness :
  let st := [(js "HeaderNavModules", VStr (jsq "{'pricing':{'enabled':'FALSE','requireAuth':1},'home':false}"))] in
  getFreshModuleAccess (Some (Some st)) Pricing = {| enabled := false; requireAuth := true |} /\
  getFreshModuleAccess None Pricing = {| enabled := false; requireAuth := true |}.
Proof.
  apply (header_access_follows_setting (jsq "{'pricing':{'enabled':'FALSE','requireAuth':1},'home':false}")
    [(js "pricing", VObj [(js "enabled", VStr (js "FALSE")); (js "requireAuth", VNum (num_of_Z 1))]); (js "home", VBool false)]
    [(js "HeaderNavModules", VStr (jsq "{'pricing':{'enabled':'FALSE','requireAuth':1},'home':false}"))] Pricing).
  - vm_compute. reflexivity.
  - vm_compute. discriminate.
  - vm_compute. reflexivity.
  - apply (bool_decide_unpack _). vm_compute. exact I.
Defined.
