(* ===== verification/ModelMapping.v ===== *)
(** * Model lists, model mappings and status-code redirects of a channel
      (features/channels/lib/model-mapping-validation.ts,
      features/channels/lib/status-code-risk-guard.ts)

    The channel form keeps these as texts: a comma-separated list of models and
    JSON objects.  The functions below read them; malformed texts give empty
    results or an error value, never an exception. *)
From stdpp Require Import prelude list strings.
From Stdlib Require Import NArith Ascii.
From S2P Require Import Prelude JsString JsNumber JsValue.
Open Scope js_scope.

(** ** Model lists *)

Definition parseModelsString (modelsStr : jstr) : list jstr :=
  if truthy_str modelsStr then trim_nonempty (split_on (u ",") modelsStr) else [].

Definition formatModelsArray (models : list jstr) : jstr := js_join (js ",") (set_from models).

Definition normalizeModelName (model : jstr) : jstr := trim model.

(** [JSON.parse] of a text that must hold an object that is not an array. *)
Definition parseObject (text : jstr) : option (list (jstr * jsval)) :=
  match json_parse text with Some (VObj fs) => Some fs | _ => None end.

Definition trimmedKeys (ks : list jstr) : list jstr := List.filter truthy_str (map trim ks).

Definition extractMappingSourceModels (modelMapping : jstr) : list jstr :=
  let trimmed := trim modelMapping in
  if negb (truthy_str trimmed) then []
  else match parseObject trimmed with
       | Some fs => set_from (trimmedKeys (obj_keys fs))
       | None => []
       end.

Definition stringValues (vs : list jsval) : list jstr :=
  List.filter truthy_str (omap (fun v => match v with VStr s => Some (trim s) | _ => None end) vs).

Definition extractRedirectModels (modelMapping : jstr) : list jstr :=
  let trimmed := trim modelMapping in
  if negb (truthy_str trimmed) then []
  else match parseObject trimmed with
       | Some fs => set_from (stringValues (obj_values fs))
       | None => []
       end.

Definition hasModelConfigChanged (currentModels : list jstr) (currentModelMapping : jstr)
    (initialModels : list jstr) (initialModelMapping : jstr) : bool :=
  if (length initialModels =? 0)%nat && negb (truthy_str initialModelMapping) then true
  else if negb (length currentModels =? length initialModels)%nat then true
  else if existsb (fun p => negb (p.1 === p.2)) (zip currentModels initialModels) then true
  else negb (trim currentModelMapping === trim initialModelMapping).

Definition findMissingModelsInMapping (modelMapping : jstr) (currentModels : list jstr) : list jstr :=
  if negb (truthy_str (trim modelMapping)) then []
  else match parseObject modelMapping with
       | None => []
       | Some fs =>
           let modelSet := set_from (map normalizeModelName currentModels) in
           set_from (List.filter (fun k => truthy_str k && negb (bool_decide (k ∈ modelSet)))
                       (map normalizeModelName (obj_keys fs)))
       end.

Inductive MappingValidity := Valid | NotAnObject | NotStrings | NotJson.

Definition validateModelMappingJson (modelMapping : jstr) : MappingValidity :=
  if negb (truthy_str (trim modelMapping)) then Valid
  else match json_parse modelMapping with
       | None => NotJson
       | Some (VObj fs) =>
           if existsb (fun v => match v with VStr _ => false | _ => true end) (obj_values fs) then NotStrings else Valid
       | Some _ => NotAnObject
       end.

Definition findExposedTargetModels (modelMapping : jstr) (currentModels : list jstr) : list jstr :=
  match extractRedirectModels modelMapping with
  | [] => []
  | redirectModels =>
      let modelSet := set_from (map normalizeModelName currentModels) in
      List.filter (fun m => bool_decide (normalizeModelName m ∈ modelSet)) redirectModels
  end.

Record ModelCategories := mkCategories {
  normalizedCurrentModels : list jstr; normalizedRedirectModels : list jstr;
  classificationSet : list jstr; redirectOnlySet : list jstr }.

Definition categorizeModelsWithRedirect (currentModels redirectModels : list jstr) : ModelCategories :=
  let cur := set_from (trimmedKeys currentModels) in
  let red := set_from (trimmedKeys redirectModels) in
  {| normalizedCurrentModels := cur; normalizedRedirectModels := red; classificationSet := set_from (cur ++ red);
     redirectOnlySet := set_from (List.filter (fun m => negb (bool_decide (m ∈ cur))) red) |}.

(** ** Status-code redirects *)

Definition NON_REDIRECTABLE_STATUS_CODES : list Z := [504; 524]%Z.

(** [/^[1-5]\d{2}$/] *)
Definition isStatusCode (s : jstr) : bool :=
  match s with
  | [a; b; c] => ((49 <=? a) && (a <=? 53))%N && is_digit b && is_digit c
  | _ => false
  end.

Definition parseStatusCodeKey (rawKey : jstr) : option Z :=
  let normalized := trim rawKey in
  if isStatusCode normalized then Some (parse_dec normalized) else None.

Definition inStatusRange (code : Z) : bool := ((100 <=? code) && (code <=? 599))%Z.

Definition parseStatusCodeMappingTarget (rawValue : jsval) : option Z :=
  match rawValue with
  | VNum n => match num_to_Z n with
              | Some z => if inStatusRange z then Some z else None
              | None => None
              end
  | VStr s =>
      let normalized := trim s in
      if negb (isStatusCode normalized) then None
      else let code := parse_dec normalized in if inStatusRange code then Some code else None
  | _ => None
  end.

Definition parseMappingText (text : jstr) : list (jstr * jsval) :=
  if negb (truthy_str (trim text)) then []
  else match parseObject text with Some fs => entries fs | None => [] end.

Definition collectInvalidStatusCodeEntries (statusCodeMappingStr : jstr) : list jstr :=
  omap (fun e => match parseStatusCodeKey e.1, parseStatusCodeMappingTarget e.2 with
                 | Some _, Some _ => None
                 | _, _ => Some (e.1 ++ [32; 8594; 32]%N ++ js_String e.2)
                 end) (parseMappingText statusCodeMappingStr).

(** The redirect of an entry, when both codes are valid. *)
Definition entryRedirect (e : jstr * jsval) : option (Z * Z) :=
  match parseStatusCodeKey e.1, parseStatusCodeMappingTarget e.2 with
  | Some fromCode, Some toCode => Some (fromCode, toCode)
  | _, _ => None
  end.

Definition isRisky (r : Z * Z) : bool :=
  bool_decide (r.1 ∈ NON_REDIRECTABLE_STATUS_CODES) && negb (r.1 =? r.2)%Z.

Definition printRedirect (r : Z * Z) : jstr := print_int r.1 ++ js " -> " ++ print_int r.2.

Definition collectDisallowedStatusCodeRedirects (statusCodeMappingStr : jstr) : list jstr :=
  let riskyMappings := map printRedirect (List.filter isRisky (omap entryRedirect (parseMappingText statusCodeMappingStr))) in
  sort_by codeUnitCompare (set_from riskyMappings).

Definition collectNewDisallowedStatusCodeRedirects (originalStr currentStr : jstr) : list jstr :=
  match collectDisallowedStatusCodeRedirects currentStr with
  | [] => []
  | currentRisky =>
      let originalRiskySet := set_from (collectDisallowedStatusCodeRedirects originalStr) in
      List.filter (fun m => negb (bool_decide (m ∈ originalRiskySet))) currentRisky
  end.

(** ** Samples *)

Example risk_samples :
  collectDisallowedStatusCodeRedirects (jsq "{'524':500,'504':'200','429':200,' 504 ':504}") = [js "504 -> 200"; js "524 -> 500"] /\
  collectNewDisallowedStatusCodeRedirects (jsq "{'504':200}") (jsq "{'524':500,'504':'200'}") = [js "524 -> 500"] /\
  collectInvalidStatusCodeEntries (jsq "{'600':200,'500':'x'}") =
    [js "500 " ++ [8594; 32]%N ++ js "x"; js "600 " ++ [8594; 32]%N ++ js "200"].
Proof. vm_compute. auto. Qed.

(** ** Lemmas *)

Lemma elem_filter {A} (p : A -> bool) l x : x ∈ List.filter p l <-> x ∈ l /\ p x = true.
Proof. rewrite !list_elem_of_In. apply filter_In. Qed.

Lemma missing_spec mapping fs models k :
  truthy_str (trim mapping) = true -> parseObject mapping = Some fs ->
  k ∈ findMissingModelsInMapping mapping models <->
  k <> [] /\ k ∉ map trim models /\ exists raw, raw ∈ map fst fs /\ trim raw = k.
Proof.
  intros Ht Hp. unfold findMissingModelsInMapping. rewrite Ht, Hp. cbn [negb]. rewrite set_from_elem, elem_filter.
  rewrite list_elem_of_fmap. setoid_rewrite obj_keys_elem. unfold normalizeModelName. split.
  - intros [(raw & -> & Hr) H]. bool_hyps. rewrite set_from_elem in *. split; [by apply truthy_str_spec|].
    split; [done|]. by exists raw.
  - intros (H1 & H2 & raw & Hr & <-). split; [by exists raw|]. apply andb_true_intro.
    split; [by apply truthy_str_spec|]. apply negb_true_iff, bool_decide_eq_false. by rewrite set_from_elem.
Qed.

(** ** Theorems *)

(** The missing-model check is exact and its fix works: the models it reports
    are the non-empty trimmed sources of the mapping that are not in the list,
    each once, and adding them to the list leaves nothing missing. *)
Theorem missing_models_exact mapping fs models :
  truthy_str (trim mapping) = true -> parseObject mapping = Some fs ->
  NoDup (findMissingModelsInMapping mapping models) /\
  (forall k, k ∈ findMissingModelsInMapping mapping models <->
     k <> [] /\ k ∉ map trim models /\ exists raw, raw ∈ map fst fs /\ trim raw = k) /\
  findMissingModelsInMapping mapping (models ++ findMissingModelsInMapping mapping models) = [].
Proof.
  intros Ht Hp. split; [|split].
  - unfold findMissingModelsInMapping. rewrite Ht, Hp. apply set_from_NoDup.
  - intros k. by apply missing_spec.
  - set (miss := findMissingModelsInMapping mapping models).
    destruct (findMissingModelsInMapping mapping (models ++ miss)) as [|k l] eqn:E; [done|].
    assert (Hk : k ∈ findMissingModelsInMapping mapping (models ++ miss)) by (rewrite E; by left).
    apply (missing_spec mapping fs) in Hk as (H1 & H2 & raw & Hr & <-); [|done|done].
    rewrite map_app, elem_of_app in H2. destruct (decide (trim raw ∈ map trim models)) as [Hin|Hout].
    { destruct H2. by left. }
    destruct H2. right. rewrite <- trim_idem. apply (list_elem_of_fmap_2 trim). unfold miss.
    apply (missing_spec mapping fs); [done|done|]. split; [done|]. split; [done|]. by exists raw.
Qed.

Definition demoMapping : jstr := jsq "{'gpt-4':'gpt-4o',' gpt-4 ':'x','':'y','o1':'o3'}".

Lemma missing_models_exact_witness :
  NoDup (findMissingModelsInMapping demoMapping [js "o1 "]) /\
  (forall k, k ∈ findMissingModelsInMapping demoMapping [js "o1 "] <->
     k <> [] /\ k ∉ map trim [js "o1 "] /\
     exists raw, raw ∈ map fst [(js "gpt-4", VStr (js "gpt-4o")); (js " gpt-4 ", VStr (js "x")); ([], VStr (js "y")); (js "o1", VStr (js "o3"))] /\ trim raw = k) /\
  findMissingModelsInMapping demoMapping ([js "o1 "] ++ findMissingModelsInMapping demoMapping [js "o1 "]) = [].
Proof. apply missing_models_exact; vm_compute; reflexivity. Defined.

(** A model name as the form stores it: trimmed, not empty, without a comma. *)
Definition cleanModel (m : jstr) : Prop := m <> [] /\ trim m = m /\ ~ In (u ",") m.

(** The model list survives its text form: parsing the formatted list gives
    the models back without duplicates, in their order. *)
Theorem models_text_round_trip models :
  Forall cleanModel models -> parseModelsString (formatModelsArray models) = set_from models.
Proof.
  intros H. assert (Hs : Forall cleanModel (set_from models)).
  { apply Forall_forall. intros m Hm. rewrite set_from_elem in Hm. rewrite Forall_forall in H. by apply H. }
  unfold parseModelsString, formatModelsArray. destruct (set_from models) as [|m ms]; [done|].
  apply Forall_cons in Hs as [Hm Hs]. rewrite js_join_truthy by apply Hm. change (js ",") with [u ","].
  rewrite split_on_join.
  - apply trim_nonempty_id. constructor; [|eapply Forall_impl; [exact Hs|]]; [destruct Hm as (? & ? & _)|intros x (? & ? & _)];
      (split; [done|by apply trim_trimmed_iff]).
  - done.
  - constructor; [apply Hm|]. eapply Forall_impl; [exact Hs|]. by intros x (_ & _ & ?).
Qed.

Lemma models_text_round_trip_witness :
  parseModelsString (formatModelsArray [js "gpt-4o"; js "o3"; js "gpt-4o"]) = [js "gpt-4o"; js "o3"].
Proof.
  apply (models_text_round_trip [js "gpt-4o"; js "o3"; js "gpt-4o"]).
  repeat constructor; try (vm_compute; reflexivity); try discriminate; vm_compute; intuition discriminate.
Defined.

(** The redirects a mapping text configures. *)
Definition configuredRedirects (text : jstr) : list (Z * Z) := omap entryRedirect (parseMappingText text).

Lemma risky_spec text m :
  m ∈ collectDisallowedStatusCodeRedirects text <->
  exists r, r ∈ configuredRedirects text /\ isRisky r = true /\ m = printRedirect r.
Proof.
  unfold collectDisallowedStatusCodeRedirects. rewrite sort_by_elem, set_from_elem, list_elem_of_fmap.
  setoid_rewrite elem_filter. naive_solver.
Qed.

Lemma new_risky_spec original current m :
  m ∈ collectNewDisallowedStatusCodeRedirects original current <->
  m ∈ collectDisallowedStatusCodeRedirects current /\ m ∉ collectDisallowedStatusCodeRedirects original.
Proof.
  unfold collectNewDisallowedStatusCodeRedirects.
  destruct (collectDisallowedStatusCodeRedirects current) as [|x l] eqn:E; [rewrite elem_of_nil; naive_solver|].
  rewrite elem_filter, negb_true_iff, bool_decide_eq_false, set_from_elem. done.
Qed.

(** The guard warns of exactly the new risky redirects: an entry is reported
    when the current mapping redirects 504 or 524 to another code and the
    original mapping has no such redirect with the same text, each is reported
    once, and the report is sorted. *)
Theorem risk_guard_reports_new_redirects original current :
  NoDup (collectDisallowedStatusCodeRedirects current) /\
  StronglySorted (cmp_le codeUnitCompare) (collectDisallowedStatusCodeRedirects current) /\
  forall m, m ∈ collectNewDisallowedStatusCodeRedirects original current <->
    (exists r, r ∈ configuredRedirects current /\ r.1 ∈ NON_REDIRECTABLE_STATUS_CODES /\ r.1 <> r.2 /\ m = printRedirect r) /\
    ~ exists r, r ∈ configuredRedirects original /\ isRisky r = true /\ m = printRedirect r.
Proof.
  split; [|split].
  - unfold collectDisallowedStatusCodeRedirects. rewrite sort_by_perm. apply set_from_NoDup.
  - apply sort_by_sorted. apply _.
  - intros m. rewrite new_risky_spec, !risky_spec. unfold isRisky.
    setoid_rewrite andb_true_iff. setoid_rewrite bool_decide_eq_true. setoid_rewrite negb_true_iff.
    setoid_rewrite Z.eqb_neq. naive_solver.
Qed.
