(* ===== verification/Tiers.v ===== *)
(** * Tier prices of billing expressions
      (features/pricing/lib/billing-expr.ts, lines 30-166 and 231-316, and
      features/pricing/lib/tier-expr.ts)

    The registry of billing variables, the tier parser that the price displays
    use, and the visual editor's model: tiers are generated as
    [cond ? tier("label", p * 1 + c * 2) : ...] and parsed back.  The regular
    expressions are written out; prices are binary64 numbers. *)
From stdpp Require Import prelude list strings.
From Stdlib Require Import NArith Ascii.
From S2P Require Import Prelude JsString JsNumber JsRegex JsMap.
Open Scope js_scope.

(** ** Variable registry *)

Inductive BillingSide := SideInput | SideOutput | SideCondition.

Record BillingVar := mkVar {
  bv_key : jstr; bv_field : option jstr; bv_tierField : option jstr; bv_label : jstr; bv_shortLabel : jstr;
  bv_side : BillingSide; bv_isBase : bool; bv_isConditionOnly : bool; bv_group : option jstr }.

Definition var (k f t l s : string) (side : BillingSide) (isBase : bool) (g : option string) : BillingVar :=
  {| bv_key := js k; bv_field := Some (js f); bv_tierField := Some (js t); bv_label := js l; bv_shortLabel := js s;
     bv_side := side; bv_isBase := isBase; bv_isConditionOnly := false; bv_group := js <$> g |}.

Definition BILLING_VARS : list BillingVar :=
  [var "p" "inputPrice" "input_unit_cost" "Input price" "Input" SideInput true None;
   var "c" "outputPrice" "output_unit_cost" "Completion price" "Output" SideOutput true None;
   {| bv_key := js "len"; bv_field := None; bv_tierField := None; bv_label := js "Input length";
      bv_shortLabel := js "Length"; bv_side := SideCondition; bv_isBase := false; bv_isConditionOnly := true;
      bv_group := None |};
   var "cr" "cacheReadPrice" "cache_read_unit_cost" "Cache read price" "Cache Read" SideInput false (Some "cache");
   var "cc" "cacheCreatePrice" "cache_create_unit_cost" "Cache create price" "Cache Write" SideInput false (Some "cache");
   var "cc1h" "cacheCreate1hPrice" "cache_create_1h_unit_cost" "Cache create (1h) price" "Cache Write (1h)"
     SideInput false (Some "cache");
   var "img" "imagePrice" "image_unit_cost" "Image input price" "Image In" SideInput false (Some "media");
   var "img_o" "imageOutputPrice" "image_output_unit_cost" "Image output price" "Image Out" SideOutput false (Some "media");
   var "ai" "audioInputPrice" "audio_input_unit_cost" "Audio input price" "Audio In" SideInput false (Some "media");
   var "ao" "audioOutputPrice" "audio_output_unit_cost" "Audio output price" "Audio Out" SideOutput false (Some "media")]%string.

Definition BILLING_PRICING_VARS : list BillingVar := List.filter (fun v => negb (bv_isConditionOnly v)) BILLING_VARS.
Definition BILLING_CONDITION_VARS : list jstr :=
  map bv_key (List.filter (fun v => bv_isBase v || bv_isConditionOnly v) BILLING_VARS).
Definition BILLING_VAR_KEY_TO_FIELD : list (jstr * jstr) :=
  map (fun v => (bv_key v, default [] (bv_field v))) BILLING_PRICING_VARS.
Definition BILLING_EXTRA_VARS : list BillingVar :=
  List.filter (fun v => negb (bv_isBase v) && negb (bv_isConditionOnly v)) BILLING_VARS.
(** Pairs of the tier field and the expression variable. *)
Definition BILLING_CACHE_VAR_MAP : list (jstr * jstr) :=
  map (fun v => (default [] (bv_tierField v), bv_key v)) BILLING_EXTRA_VARS.

(** ** Regular expressions *)

(** A literal given as code units. *)
Definition rlitj (s : jstr) : regex := foldr (fun x r => RSeq (RChar (N.eqb x)) r) REps s.

(** [[\d.eE+-]] and [[\d.eE+]] *)
Definition signedChar (c : N) : bool := is_digit c || RAny ".eE+-" c.
Definition unsignedChar (c : N) : bool := is_digit c || RAny ".eE+" c.

Definition keyAlternatives : regex :=
  match map (fun v => rlitj (bv_key v)) BILLING_PRICING_VARS with
  | [] => REps
  | r :: rs => ralts r rs
  end.

(** A pricing variable at a word boundary, an asterisk, and a run of number characters. *)
Definition BILLING_VAR_REGEX : regex :=
  rseq [RWordB; RGroup 1 keyAlternatives; RSpaces; RLit "*"; RSpaces; RGroup 2 (RPlus (RChar signedChar))].

Definition condVar : regex := ralts (RLit "p") [RLit "c"; RLit "len"].
Definition condOp : regex := ralts (RLit "<") [RLit "<="; RLit ">"; RLit ">="].
Definition oneCond : regex := rseq [condVar; RSpaces; condOp; RSpaces; RPlus (RChar unsignedChar)].

Definition condGroup (i : nat) : regex :=
  RGroup i (RSeq oneCond (RStar (rseq [RSpaces; RLit "&&"; RSpaces; oneCond]))).

Definition notQuote (c : N) : bool := negb (c =? 34)%N.
Definition quoteChar : regex := RChar (N.eqb 34).

(** An optional condition and question mark before a call of [tier] with a quoted label. *)
Definition optCond (i : nat) : regex := ROpt (rseq [condGroup i; RSpaces; RLit "?"; RSpaces]).
Definition tierOpen (i : nat) : regex :=
  rseq [RLit "tier("; quoteChar; RGroup i (RStar (RChar notQuote)); quoteChar; RLit ","; RSpaces].

Definition tierRe : regex :=
  rseq [optCond 1; tierOpen 2; RGroup 3 (RPlus (RChar (RNot ")"))); RLit ")"].

(** ** Tier parser *)

Inductive TierOp := OpLt | OpLe | OpGt | OpGe.
Inductive TierVar := VarP | VarC | VarLen.

Record TierCondition := mkCond { tc_var : TierVar; tc_op : TierOp; tc_value : number }.

(** The prices of a tier by display field. *)
Record ParsedTier := mkTier { pt_label : jstr; pt_conditions : list TierCondition; pt_prices : list (jstr * number) }.

Definition getCapture (i : nat) (c : caps) : jstr := default [] (cap i c).

Definition versioned : regex := rseq [RLit "v"; RGroup 1 (RPlus (RChar is_digit)); RLit ":"; RGroup 2 (RStar RDotAll); REol].

Definition stripExprVersion (exprStr : jstr) : number * jstr :=
  if negb (truthy_str exprStr) then (num_of_Z 1, [])
  else match rmatch versioned exprStr with
       | Some c => (num_of_str (getCapture 1 c), getCapture 2 c)
       | None => (num_of_Z 1, exprStr)
       end.

(** The first coefficient of each variable wins. *)
Definition addCoeff (coeffs : list (jstr * number)) (c : caps) : list (jstr * number) :=
  match mget (getCapture 1 c) coeffs with
  | Some _ => coeffs
  | None => mset (getCapture 1 c) (num_of_str (getCapture 2 c)) coeffs
  end.

Definition bodyCoeffs (bodyStr : jstr) : list (jstr * number) :=
  foldl addCoeff [] (rexec_all BILLING_VAR_REGEX bodyStr).

Definition parseTierBody (bodyStr : jstr) : list (jstr * number) :=
  let coeffs := bodyCoeffs bodyStr in
  map (fun p => (p.2, num_or_zero (default num_nan (mget p.1 coeffs)))) BILLING_VAR_KEY_TO_FIELD.

Definition tierVarOf (s : jstr) : TierVar :=
  if s === js "p" then VarP else if s === js "c" then VarC else VarLen.
Definition tierOpOf (s : jstr) : TierOp :=
  if s === js "<" then OpLt else if s === js "<=" then OpLe else if s === js ">" then OpGt else OpGe.

Definition singleCond : regex :=
  rseq [RGroup 1 condVar; RSpaces; RGroup 2 condOp; RSpaces; RGroup 3 (RPlus (RChar unsignedChar)); REol].

(** The split at [&&]: whitespace next to a separator goes with it; the
    pieces are trimmed before use, so splitting at the bare separator gives the
    same conditions. *)
Fixpoint splitAnd (s cur : jstr) : list jstr :=
  match s with
  | 38%N :: 38%N :: s' => rev cur :: splitAnd s' []
  | c :: s' => splitAnd s' (c :: cur)
  | [] => [rev cur]
  end.

Definition parseCondition (cp : jstr) : option TierCondition :=
  match rmatch singleCond (trim cp) with
  | Some c => Some {| tc_var := tierVarOf (getCapture 1 c); tc_op := tierOpOf (getCapture 2 c);
                      tc_value := num_of_str (getCapture 3 c) |}
  | None => None
  end.

Definition parseConditionsText (condStr : jstr) : list TierCondition :=
  if truthy_str condStr then omap parseCondition (splitAnd condStr []) else [].

Definition tierOfMatch (c : caps) : ParsedTier :=
  {| pt_label := getCapture 2 c; pt_conditions := parseConditionsText (getCapture 1 c);
     pt_prices := parseTierBody (getCapture 3 c) |}.

Definition parseTiersFromExpr (exprStr : jstr) : list ParsedTier :=
  if negb (truthy_str exprStr) then []
  else map tierOfMatch (rexec_all tierRe (stripExprVersion exprStr).2).

(** ** The visual editor's configuration (tier-expr.ts) *)

Inductive CacheMode := Timed | Generic.

(** A condition as the form holds it: the value is a number or the text of an
    input field. *)
Record TierConditionInput := mkCondInput { ci_var : TierVar; ci_op : TierOp; ci_value : number + jstr }.

Record VisualTier := mkVisual {
  vt_label : jstr; vt_conditions : list TierConditionInput; vt_input : number; vt_output : number;
  vt_cache_mode : CacheMode; vt_extra : list (jstr * number) (* the optional unit costs by field *) }.

(** A tier before normalisation: every field may be missing. *)
Record PartialTier := mkPartial {
  pa_label : option jstr; pa_conditions : option (list TierConditionInput); pa_input : option number;
  pa_output : option number; pa_cache_mode : option CacheMode; pa_extra : list (jstr * number) }.

Definition extraOr0 (field : jstr) (extra : list (jstr * number)) : number :=
  num_or_zero (default num_nan (mget field extra)).

Definition getTierCacheMode (tier : PartialTier) : CacheMode :=
  match pa_cache_mode tier with
  | Some m => m
  | None => if num_ltb num_zero (default num_nan (mget (js "cache_create_1h_unit_cost") (pa_extra tier))) then Timed else Generic
  end.

(** The spread of the partial tier comes after the normalised label, prices,
    mode and conditions, so a field that is present keeps its raw value. *)
Definition normalizeVisualTier (tier : PartialTier) : VisualTier :=
  {| vt_label := default [] (pa_label tier); vt_conditions := default [] (pa_conditions tier);
     vt_input := default num_zero (pa_input tier); vt_output := default num_zero (pa_output tier);
     vt_cache_mode := getTierCacheMode tier;
     vt_extra := map (fun p => (p.1, extraOr0 p.1 (pa_extra tier))) BILLING_CACHE_VAR_MAP |}.

Definition toPartial (t : VisualTier) : PartialTier :=
  {| pa_label := Some (vt_label t); pa_conditions := Some (vt_conditions t); pa_input := Some (vt_input t);
     pa_output := Some (vt_output t); pa_cache_mode := Some (vt_cache_mode t); pa_extra := vt_extra t |}.

Definition createDefaultVisualConfig : list VisualTier :=
  [normalizeVisualTier {| pa_label := Some (js "base"); pa_conditions := Some []; pa_input := Some num_zero;
     pa_output := Some num_zero; pa_cache_mode := Some Generic; pa_extra := [] |}].

Definition normalizeVisualConfig (config : option (list VisualTier)) : list VisualTier :=
  match config with
  | None | Some [] => createDefaultVisualConfig
  | Some tiers => map (fun t => normalizeVisualTier (toPartial t)) tiers
  end.

Definition varText (v : TierVar) : jstr := match v with VarP => js "p" | VarC => js "c" | VarLen => js "len" end.
Definition opText (o : TierOp) : jstr :=
  match o with OpLt => js "<" | OpLe => js "<=" | OpGt => js ">" | OpGe => js ">=" end.
Definition valueText (v : number + jstr) : jstr := match v with inl n => num_to_str n | inr s => s end.

Definition conditionText (c : TierConditionInput) : jstr :=
  varText (ci_var c) ++ js " " ++ opText (ci_op c) ++ js " " ++ valueText (ci_value c).

Definition buildConditionStr (conditions : list TierConditionInput) : jstr :=
  js_join (js " && ")
    (map conditionText (List.filter (fun c => match ci_value c with inr [] => false | _ => true end) conditions)).

(** One [key * price] term. *)
Definition term (k : jstr) (v : number) : jstr := k ++ js " * " ++ num_to_str v.

Definition bodyTerms (tier : VisualTier) : list (jstr * number) :=
  (js "p", num_or_zero (vt_input tier)) :: (js "c", num_or_zero (vt_output tier)) ::
  omap (fun cv => let v := extraOr0 cv.1 (vt_extra tier) in if num_eqb v num_zero then None else Some (cv.2, v))
    BILLING_CACHE_VAR_MAP.

Definition buildTierBodyExpr (tier : VisualTier) : jstr :=
  js_join (js " + ") (map (fun p => term p.1 p.2) (bodyTerms tier)).

Definition tierCall (label : jstr) (tier : VisualTier) : jstr :=
  js "tier(" ++ 34%N :: label ++ 34%N :: js ", " ++ buildTierBodyExpr tier ++ js ")".

Definition ZERO_EXPR : jstr := js "p * 0 + c * 0".

Definition tierPart (n : nat) (p : nat * VisualTier) : jstr :=
  let body := tierCall (str_or (vt_label p.2) (js "tier_" ++ print_int (Z.of_nat p.1 + 1))) p.2 in
  let cond := buildConditionStr (vt_conditions p.2) in
  if (p.1 <? n - 1)%nat && truthy_str cond then cond ++ js " ? " ++ body else body.

Definition generateExprFromVisualConfig (config : option (list VisualTier)) : jstr :=
  match config with
  | None | Some [] => ZERO_EXPR
  | Some [tier] =>
      let body := tierCall (str_or (vt_label tier) (js "default")) tier in
      let cond := buildConditionStr (vt_conditions tier) in
      if truthy_str cond then cond ++ js " ? " ++ body ++ js " : " ++ ZERO_EXPR else body
  | Some tiers => js_join (js " : ") (map (tierPart (length tiers)) (zip (seq 0 (length tiers)) tiers))
  end.

(** *** Parsing a visual configuration back *)

Definition numGroup (i : nat) : regex := RGroup i (RPlus (RChar signedChar)).

(** The optional extra terms, capturing from group [i] on. *)
Fixpoint optTerms (i : nat) (keys : list jstr) : list regex :=
  match keys with
  | [] => []
  | k :: ks => ROpt (rseq [RSpaces; RLit "+"; RSpaces; rlitj k; RSpaces; RLit "*"; RSpaces; numGroup i]) :: optTerms (S i) ks
  end.

Definition bodyPat (i : nat) : list regex :=
  [RLit "p"; RSpaces; RLit "*"; RSpaces; numGroup i; RSpaces; RLit "+"; RSpaces;
   RLit "c"; RSpaces; RLit "*"; RSpaces; numGroup (S i)] ++ optTerms (S (S i)) (map snd BILLING_CACHE_VAR_MAP).

Definition singleRe : regex := rseq ([tierOpen 1] ++ bodyPat 2 ++ [RLit ")"; REol]).
Definition visualTierRe : regex := rseq ([optCond 1; tierOpen 2] ++ bodyPat 3 ++ [RLit ")"]).

(** The extra costs captured from group [i] on. *)
Definition capturedExtras (i : nat) (c : caps) : list (jstr * number) :=
  omap (fun p => (fun s => (p.2.1, num_of_str s)) <$> cap (i + p.1) c)
    (zip (seq 0 (length BILLING_CACHE_VAR_MAP)) BILLING_CACHE_VAR_MAP).

Definition toInput (c : TierCondition) : TierConditionInput :=
  {| ci_var := tc_var c; ci_op := tc_op c; ci_value := inl (tc_value c) |}.

Definition capturedTier (label : nat) (conditions : list TierConditionInput) (c : caps) : VisualTier :=
  normalizeVisualTier
    {| pa_label := Some (getCapture label c); pa_conditions := Some conditions;
       pa_input := Some (num_of_str (getCapture (label + 1) c)); pa_output := Some (num_of_str (getCapture (label + 2) c));
       pa_cache_mode := None; pa_extra := capturedExtras (label + 3) c |}.

Definition removeSpaces (s : jstr) : jstr := List.filter (fun c => negb (is_ws c)) s.

Definition versionedBody (exprStr : jstr) : jstr :=
  match rmatch (rseq [RLit "v"; RPlus (RChar is_digit); RLit ":"; RGroup 1 (RStar RDotAll); REol]) exprStr with
  | Some c => getCapture 1 c
  | None => exprStr
  end.

Definition tryParseVisualConfig (exprStr : option jstr) : option (list VisualTier) :=
  match exprStr with
  | None | Some [] => None
  | Some e =>
      let body := versionedBody e in
      match rmatch singleRe body with
      | Some c => Some (normalizeVisualConfig (Some [capturedTier 1 [] c]))
      | None =>
          let tiers := map (fun c => capturedTier 2 (map toInput (parseConditionsText (getCapture 1 c))) c)
                         (rexec_all visualTierRe body) in
          match tiers with
          | [] => None
          | _ =>
              let cfg := normalizeVisualConfig (Some tiers) in
              if removeSpaces (generateExprFromVisualConfig (Some cfg)) === removeSpaces body then Some cfg else None
          end
      end
  end.

(** ** Extra variables *)

Definition ESTIMATOR_VARS : list jstr := map js ["cr"; "cc"; "cc1h"; "img"; "img_o"; "ai"; "ao"]%string.

Definition exprUsesExtraVars (exprStr : jstr) : bool :=
  if negb (truthy_str exprStr) then false
  else match map rlitj ESTIMATOR_VARS with
       | [] => false
       | r :: rs => rsearch (rseq [RWordB; RGroup 1 (ralts r rs); RWordB]) exprStr
       end.

(** ** Samples *)

Definition showTier (t : ParsedTier) : jstr * list (TierVar * TierOp * jstr) * list (jstr * jstr) :=
  (pt_label t, map (fun c => (tc_var c, tc_op c, num_to_str (tc_value c))) (pt_conditions t),
   List.filter (fun p => negb (p.2 === js "0")) (map (fun p => (p.1, num_to_str p.2)) (pt_prices t))).

Definition q (s : string) : jstr := jsq s.

Example tiers_parse_sample :
  map showTier (parseTiersFromExpr (q "v1:len < 200000 && c <= 1e3 ? tier('std', p * 2.5 + c * 15 + cc1h * 6) : tier('long', p * 5 + c * 22.5)")) =
  [(js "std", [(VarLen, OpLt, js "200000"); (VarC, OpLe, js "1000")],
    [(js "inputPrice", js "2.5"); (js "outputPrice", js "15"); (js "cacheCreate1hPrice", js "6")]);
   (js "long", [], [(js "inputPrice", js "5"); (js "outputPrice", js "22.5")])].
Proof. vm_compute. reflexivity. Qed.

(** A plus sign glued to a coefficient is taken into its number, which is then
    not a number and becomes 0. *)
Example glued_plus_sample :
  map showTier (parseTiersFromExpr (q "tier('base', p*3+c*15)")) = [(js "base", [], [(js "outputPrice", js "15")])].
Proof. vm_compute. reflexivity. Qed.

Definition showVisual (t : VisualTier) : jstr := generateExprFromVisualConfig (Some [t]).

Example visual_sample :
  let e := q "len < 200000 ? tier('std', p * 2.5 + c * 15 + cc1h * 6) : tier('long', p * 5 + c * 22.5)" in
  (fun cfg => generateExprFromVisualConfig (Some cfg)) <$> tryParseVisualConfig (Some e) = Some e.
Proof. vm_compute. reflexivity. Qed.

(** A malformed price is accepted by the visual editor's parser and generated
    again as 0. *)
Example malformed_price_sample :
  (fun cfg => generateExprFromVisualConfig (Some cfg)) <$>
    tryParseVisualConfig (Some (q "tier('x', p * 1.2.3 + c * 2)")) = Some (q "tier('x', p * 0 + c * 2)").
Proof. vm_compute. reflexivity. Qed.

Example extra_vars_sample :
  map exprUsesExtraVars [js "p * 1 + cr * 2"; js "p * 1 + c * 2"; js "img_out * 2"; js "img_o*2"] = [true; false; false; true].
Proof. vm_compute. reflexivity. Qed.

(** A tier without conditions before the last one gives a text that is not a
    conditional expression: the question mark is missing before the colon. *)
Example unguarded_sample :
  let t l := {| vt_label := js l; vt_conditions := []; vt_input := num_of_Z 1; vt_output := num_of_Z 2; vt_cache_mode := Generic; vt_extra := [] |} in
  generateExprFromVisualConfig (Some [t "a"; t "b"]%string) = q "tier('a', p * 1 + c * 2) : tier('b', p * 1 + c * 2)".
Proof. vm_compute. reflexivity. Qed.
