(* ===== verification/TiersCorrect.v ===== *)
(** * Correctness of tier prices

    What the visual tier editor writes is what the price displays read: the
    tier parser of billing-expr.ts recovers labels, conditions and prices from
    the text that tier-expr.ts generates. *)
From stdpp Require Import prelude list strings.
From Stdlib Require Import NArith Ascii SpecFloat.
From S2P Require Import Prelude JsString JsNumber JsRegex JsMap Tiers.
Open Scope js_scope.

(** ** The text of a number *)

(** A price survives printing and reading: ECMAScript's [Number::toString]
    promises it for every finite number; here it can be computed for each. *)
Definition readable (v : number) : Prop := num_is_finite v = true /\ num_of_str (num_to_str v) = v.

Lemma digits_signed s : Forall (fun c => is_digit c = true) s -> Forall (fun c => signedChar c = true) s.
Proof. intros H. eapply Forall_impl; [done|]. intros c Hc. unfold signedChar. by rewrite Hc. Qed.

Lemma print_nat_dec_digits z : Forall (fun c => is_digit c = true) (print_nat_dec z).
Proof.
  destruct (decide (0 <= z)%Z); [by apply all_digits_Forall, print_nat_dec_all_digits|].
  unfold print_nat_dec. destruct z as [|z|z]; [lia..|].
  constructor; [apply digit_char_ok, Z.mod_pos_bound; lia|constructor].
Qed.

Lemma layout_signed ds n : Forall (fun c => is_digit c = true) ds -> Forall (fun c => signedChar c = true) (layout ds n).
Proof.
  intros Hd%digits_signed. assert (Hz : forall i, Forall (fun c => signedChar c = true) (repeat 48%N i)).
  { intros i. apply Forall_forall. by intros x ->%list_elem_of_In%repeat_spec. }
  assert (Hp := digits_signed _ (print_nat_dec_digits (Z.abs (n - 1)))).
  assert (He : Forall (fun c => signedChar c = true)
    (u "e" :: (if (n - 1 <? 0)%Z then u "-" else u "+") :: print_nat_dec (Z.abs (n - 1)))).
  { constructor; [done|]. constructor; [by case_if|done]. }
  unfold layout. case_if; [by apply Forall_app; split|]. case_if; [|case_if].
  - apply Forall_app. split; [by apply Forall_take|]. constructor; [done|by apply Forall_drop].
  - rewrite !Forall_app. split_and!; [repeat constructor|apply Hz|done].
  - cbv zeta. destruct Hd as [|d ds Hd Hds]; [done|]. destruct Hds as [|d' ds Hd' Hds]; [by constructor|].
    constructor; [done|]. constructor; [done|]. apply Forall_app. split; [by constructor|done].
Qed.

Lemma layout_nonempty ds n : ds <> [] -> layout ds n <> [].
Proof.
  intros Hd. unfold layout. destruct ds as [|d ds]; [done|]. repeat case_if; try done;
    first [by destruct ds | intros H%(f_equal length); rewrite length_app in H; simpl in H; lia].
Qed.

Lemma num_to_str_nonempty v : num_to_str v <> [].
Proof.
  destruct v as [s|s| |s m e]; cbn [num_to_str]; try done; [by destruct s|].
  destruct (shortest 16 m e _ 1) as [sig n]. intros [_ H]%app_nil. revert H. apply layout_nonempty.
  unfold print_nat_dec. simpl. case_if; [done|]. by apply print_dec_fuel_nonempty.
Qed.

Lemma num_to_str_signed v : num_is_finite v = true -> Forall (fun c => signedChar c = true) (num_to_str v).
Proof.
  destruct v as [s|s| |s m e]; cbn [num_to_str num_is_finite]; try done; [repeat constructor|]. intros _.
  destruct (shortest 16 m e _ 1) as [sig n]. apply Forall_app. split; [destruct s; repeat constructor|].
  apply layout_signed, print_nat_dec_digits.
Qed.

(** ** One [key * price] term under the coefficient expression *)

Definition pricingKeys : list jstr := map bv_key BILLING_PRICING_VARS.

Lemma rx_ralts_cons r r' rs st c k :
  rx (ralts r (r' :: rs)) st c k = match rx r st c k with Some x => Some x | None => rx (ralts r' rs) st c k end.
Proof. reflexivity. Qed.

(** A word that is a prefix of another word followed by a non-word unit. *)
Lemma word_prefix k' k x s :
  Forall (fun c => is_word c = true) k' -> is_word x = false ->
  starts_with k' (k ++ x :: s) = true -> exists l, k = k' ++ l.
Proof.
  intros Hk' Hx. revert k. induction Hk' as [|c k' Hc _ IH]; intros k; [by exists k|].
  destruct k as [|d k]; simpl.
  - intros [->%N.eqb_eq _]%andb_true_iff. congruence.
  - intros [->%N.eqb_eq H]%andb_true_iff. apply IH in H as [l ->]. by exists l.
Qed.

(** Alternatives that are words: when the continuation cannot go on inside a
    word, the whole word is what matches. *)
Lemma alternatives_word r rs ks k x s b c K :
  r :: rs = map rlitj ks -> k ∈ ks -> Forall (Forall (fun c => is_word c = true)) ks -> is_word x = false ->
  (forall b' y s' c', is_word y = true -> K {| before := b'; rest := y :: s' |} c' = None) ->
  rx (ralts r rs) {| before := b; rest := k ++ x :: s |} c K = K {| before := rev k ++ b; rest := x :: s |} c.
Proof.
  intros Hr Hk Hw Hx HK.
  assert (Hone : forall k', k' ∈ ks -> k' <> k -> rx (rlitj k') {| before := b; rest := k ++ x :: s |} c K = None).
  { intros k' Hk' Hne. unfold rlitj. rewrite rx_lit_spec. unfold skip_lit. cbn [rest].
    destruct (starts_with k' (k ++ x :: s)) eqn:E; [|done].
    rewrite Forall_forall in Hw. destruct (word_prefix _ _ _ _ (Hw _ Hk') Hx E) as [l ->].
    rewrite <- app_assoc, drop_app_length. destruct l as [|y l]; [by rewrite app_nil_r in Hne|].
    apply HK. apply Hw in Hk. apply Forall_app in Hk as [_ Hk]. by inv Hk. }
  assert (Hsame : rx (rlitj k) {| before := b; rest := k ++ x :: s |} c K = K {| before := rev k ++ b; rest := x :: s |} c)
    by (unfold rlitj; by rewrite rx_lit_spec, skip_lit_app).
  revert r rs Hr Hk Hone. clear Hw. induction ks as [|k0 ks IH]; intros r rs Hr Hk Hone; [done|].
  injection Hr as -> ->. destruct ks as [|k1 ks].
  - apply list_elem_of_singleton in Hk as ->. done.
  - cbn [map]. rewrite rx_ralts_cons. destruct (decide (k0 = k)) as [->|Hne].
    + rewrite Hsame. destruct (K _ c) eqn:EK; [done|]. clear IH Hk.
      assert (Hn : forall k', k' ∈ k1 :: ks -> rx (rlitj k') {| before := b; rest := k ++ x :: s |} c K = None).
      { intros k' Hk'. destruct (decide (k' = k)) as [->|]; [by rewrite Hsame|]. apply Hone; [by right|done]. }
      clear Hone. revert k1 Hn. induction ks as [|k2 ks IH]; intros k1 Hn; cbn [map].
      * apply Hn. left.
      * rewrite rx_ralts_cons, Hn by left. apply IH. intros k' Hk'. apply Hn. by right.
    + rewrite Hone by (done || left). apply elem_of_cons in Hk as [|Hk]; [done|].
      apply IH; [done..|]. intros. apply Hone; [by right|done].
Qed.

Lemma word_range x : is_word x = true -> (48 <= x <= 122)%N.
Proof.
  unfold is_word, is_digit. intros H. repeat (apply orb_true_iff in H as [H|H]); bool_hyps; lia.
Qed.

Lemma visible_not_ws x : (33 <= x <= 126)%N -> is_ws x = false.
Proof.
  intros H. unfold is_ws. repeat (apply orb_false_iff; split); try (apply andb_false_iff);
    rewrite ?N.eqb_neq, ?N.leb_gt; lia.
Qed.

Lemma word_not_space x : is_word x = true -> is_ws x = false /\ (x =? 42)%N = false.
Proof. intros H%word_range. split; [apply visible_not_ws|apply N.eqb_neq]; lia. Qed.

(** [\s*\*\s*] before a price. *)
Definition starTail (r : regex) : regex := RSeq RSpaces (RSeq (RLit "*") (RSeq RSpaces r)).

Lemma starTail_word r b y s c k : is_word y = true -> rx (starTail r) {| before := b; rest := y :: s |} c k = None.
Proof.
  intros [Hw Hs]%word_not_space. unfold starTail, RSpaces. change (y :: s) with ([] ++ y :: s).
  rewrite (rx_star_class is_ws _ b []); [|constructor|done|by apply (refuses_lit is_ws 42 [])].
  apply (rx_lit_mismatch (js "*")). cbn [rest]. change (js "*") with [42%N]. cbn [starts_with].
  rewrite N.eqb_sym, Hs. done.
Qed.

Lemma starTail_run r b t c k res :
  stops is_ws t -> rx r {| before := rev (js " * ") ++ b; rest := t |} c k = Some res ->
  rx (starTail r) {| before := b; rest := js " * " ++ t |} c k = Some res.
Proof.
  intros Ht Hr. unfold starTail, RSpaces. change (js " * " ++ t) with ([32%N] ++ [42%N] ++ [32%N] ++ t).
  rewrite (rx_star_class is_ws _ b [32%N]); [|by repeat constructor|done|by apply (refuses_lit is_ws 42 [])].
  unfold RLit. change (js "*") with [42%N]. rewrite rx_lit_app. rewrite rx_RSeq.
  by apply (star_class_greedy is_ws); [repeat constructor|..].
Qed.

Lemma pricingKeys_word : Forall (Forall (fun c => is_word c = true)) pricingKeys.
Proof. repeat constructor. Qed.

Lemma signed_not_ws c : signedChar c = true -> is_ws c = false.
Proof.
  unfold signedChar, RAny, is_digit. intros [H|H]%orb_true_iff; [bool_hyps; apply visible_not_ws; lia|].
  apply existsb_exists in H as (y & Hy & ->%N.eqb_eq). vm_compute in Hy. intuition (subst; done).
Qed.

Lemma keyAlternatives_words : exists r rs, keyAlternatives = ralts r rs /\ r :: rs = map rlitj pricingKeys.
Proof. by do 2 eexists. Qed.

(** The captures of one term. *)
Definition termCaps (p : jstr * number) : caps := [(2%nat, num_to_str p.2); (1%nat, p.1)].

Lemma match_term k v b s :
  k ∈ pricingKeys -> num_is_finite v = true -> word_at (head b) = false -> stops signedChar s ->
  match_at BILLING_VAR_REGEX {| before := b; rest := term k v ++ s |} =
    Some ({| before := rev (term k v) ++ b; rest := s |}, termCaps (k, v)).
Proof.
  intros Hk Hv Hb Hs. assert (Hc := num_to_str_signed v Hv). assert (Hne := num_to_str_nonempty v).
  assert (Hkw : exists y k', k = y :: k' /\ is_word y = true).
  { repeat (apply elem_of_cons in Hk as [->|Hk]); [by do 2 eexists..|]. by apply elem_of_nil in Hk. }
  destruct Hkw as (y & k' & Ey & Hy). unfold term. rewrite <- !app_assoc.
  change (match_at BILLING_VAR_REGEX ?st) with
    (rx RWordB st [] (fun st' c' => rx (RGroup 1 keyAlternatives) st' c'
       (fun st' c' => rx (starTail (RGroup 2 (RPlus (RChar signedChar)))) st' c' accept))).
  cbn [rx before rest]. rewrite Hb.
  replace (word_at (head (k ++ js " * " ++ num_to_str v ++ s))) with true by (rewrite Ey; by symmetry).
  cbn [xorb]. clear y k' Ey Hy.
  change (js " * " ++ num_to_str v ++ s) with (32%N :: (js "* " ++ num_to_str v ++ s)).
  destruct keyAlternatives_words as (r & rs & -> & Er).
  rewrite (alternatives_word _ _ pricingKeys k 32%N); [|done|done|apply pricingKeys_word|done|].
  - rewrite consumed_rev. apply (starTail_run _ _ (num_to_str v ++ s)).
    + destruct Hc as [|x l Hx _]; [done|]. by apply signed_not_ws.
    + cbn [rx]. apply (plus_class_greedy signedChar); [done..|].
      unfold accept, termCaps. rewrite consumed_rev. rewrite !rev_app_distr, <- !app_assoc. done.
  - intros. by apply starTail_word.
Qed.

Lemma alternatives_none r rs ks s b c K :
  r :: rs = map rlitj ks -> Forall (fun k => exists y k', k = y :: k' /\ is_word y = true) ks -> stops is_word s ->
  rx (ralts r rs) {| before := b; rest := s |} c K = None.
Proof.
  intros Hr Hks Hs. revert r rs Hr.
  assert (H1 : forall y k', is_word y = true -> rx (rlitj (y :: k')) {| before := b; rest := s |} c K = None).
  { intros y k' Hy. unfold rlitj. rewrite rx_lit_spec. unfold skip_lit. cbn [rest]. destruct s as [|x s]; [done|].
    cbn [starts_with]. destruct (N.eqb_spec y x) as [->|]; [|done]. simpl in Hs. congruence. }
  induction Hks as [|k ks (y & k' & -> & Hy) Hks IH]; intros r rs Hr; [done|]. injection Hr as -> ->.
  destruct ks as [|k2 ks]; cbn [map]; [by apply H1|]. rewrite rx_ralts_cons.
  change (RSeq (RChar (N.eqb y)) (rlitj k')) with (rlitj (y :: k')). rewrite H1 by done. by apply IH.
Qed.

Lemma no_term_here b s : stops is_word s -> match_at BILLING_VAR_REGEX {| before := b; rest := s |} = None.
Proof.
  intros Hs. change (match_at BILLING_VAR_REGEX ?st) with
    (rx RWordB st [] (fun st' c' => rx (RGroup 1 keyAlternatives) st' c'
       (fun st' c' => rx (starTail (RGroup 2 (RPlus (RChar signedChar)))) st' c' accept))).
  cbn [rx]. case_if; [|done]. destruct keyAlternatives_words as (r & rs & -> & Er).
  apply (alternatives_none _ _ pricingKeys); [done| |done].
  repeat constructor; by do 2 eexists.
Qed.

Definition laterTerms (ps : list (jstr * number)) : jstr := concat (map (fun p => js " + " ++ term p.1 p.2) ps).

Definition wfTerm (p : jstr * number) : Prop := p.1 ∈ pricingKeys /\ num_is_finite p.2 = true.

Lemma laterTerms_stops ps : stops signedChar (laterTerms ps).
Proof. by destruct ps. Qed.

Lemma exec_laterTerms ps : Forall wfTerm ps -> forall n b, (length ps < n)%nat ->
  exec_all n BILLING_VAR_REGEX {| before := b; rest := laterTerms ps |} = map termCaps ps.
Proof.
  induction 1 as [|[k v] ps [Hk Hv] Hps IH]; intros [|n] b Hn; simpl in Hn; try lia; cbn [exec_all rest].
  - change (laterTerms []) with (@nil N). cbn [length exec_from rest]. by rewrite no_term_here.
  - change (laterTerms ((k, v) :: ps)) with ((js " + " ++ term k v) ++ laterTerms ps). rewrite <- app_assoc.
    rewrite length_app, (exec_from_skip _ (js " + ")).
    + erewrite exec_from_hit by (apply match_term; [done..|apply laterTerms_stops]).
      cbn [map]. f_equal. apply IH. lia.
    + intros w1 x w2 Hw. apply no_term_here. change (js " + ") with [32%N; 43%N; 32%N] in Hw.
      destruct w1 as [|? [|? [|? w1]]]; simplify_eq/=; done || by destruct w1.
Qed.

Lemma join_terms p ps :
  js_join (js " + ") (map (fun p => term p.1 p.2) (p :: ps)) = term p.1 p.2 ++ laterTerms ps.
Proof.
  revert p. induction ps as [|p' ps IH]; intros p; [by rewrite app_nil_r|].
  change (js_join (js " + ") (map (fun p => term p.1 p.2) (p :: p' :: ps)))
    with (term p.1 p.2 ++ js " + " ++ js_join (js " + ") (map (fun p => term p.1 p.2) (p' :: ps))).
  rewrite IH. by rewrite (app_assoc (js " + ")).
Qed.

Lemma exec_terms p ps : Forall wfTerm (p :: ps) ->
  rexec_all BILLING_VAR_REGEX (js_join (js " + ") (map (fun p => term p.1 p.2) (p :: ps))) = map termCaps (p :: ps).
Proof.
  intros [[Hk Hv] Hps]%Forall_cons. destruct p as [k v]. rewrite join_terms. unfold rexec_all, at_start.
  cbn [exec_all rest fst snd]. erewrite exec_from_hit by (apply match_term; [done..|apply laterTerms_stops]).
  cbn [map]. f_equal. apply exec_laterTerms; [done|]. rewrite length_app.
  assert (H : (length ps <= length (laterTerms ps))%nat).
  { unfold laterTerms. clear. induction ps; cbn [length map concat]; [lia|].
    rewrite !length_app. change (length (js " + ")) with 3%nat. lia. }
  assert (term k v <> []) by (unfold term; by destruct k). destruct (term k v); [done|]. simpl. lia.
Qed.

(** ** Prices of a tier *)

(** The prices a tier has by display field. *)
Definition tierPrices (tier : VisualTier) : list (jstr * number) :=
  (js "inputPrice", num_or_zero (vt_input tier)) :: (js "outputPrice", num_or_zero (vt_output tier)) ::
  map (fun v => (default [] (bv_field v), extraOr0 (default [] (bv_tierField v)) (vt_extra tier))) BILLING_EXTRA_VARS.

Lemma coeffs_get k ps : Forall (fun p => readable p.2) ps -> forall acc,
  mget k (foldl addCoeff acc (map termCaps ps)) = match mget k acc with Some v => Some v | None => mget k ps end.
Proof.
  induction 1 as [|[k' v] ps [_ Hv] _ IH]; intros acc; [by cbn; destruct (mget k acc)|].
  cbn [map foldl]. rewrite IH, mget_cons. unfold addCoeff, termCaps, getCapture. cbn [cap Nat.eqb fst snd].
  change (default [] (Some k')) with k'. change (default [] (Some (num_to_str v))) with (num_to_str v).
  cbn [snd] in Hv. rewrite Hv. destruct (mget k' acc) eqn:E; [|rewrite mget_mset]; case_bool_decide; subst.
  - by rewrite E.
  - done.
  - by rewrite E.
  - done.
Qed.

Lemma num_or_zero_eq0 x : num_eqb (num_or_zero x) num_zero = true -> num_or_zero x = num_zero.
Proof. destruct x as [|[]| |[]]; cbn; done. Qed.

(** The price read for an extra variable, whether its term is written or not. *)
Lemma extra_get (ex : list (jstr * number)) f k l :
  NoDup (map snd l) -> (f, k) ∈ l ->
  num_or_zero (default num_nan (mget k (omap (fun cv : jstr * jstr =>
    let v := extraOr0 cv.1 ex in if num_eqb v num_zero then None else Some (cv.2, v)) l))) = extraOr0 f ex.
Proof.
  induction l as [|[f' k'] l IH]; intros Hnd Hin; [by apply elem_of_nil in Hin|].
  cbn [map snd] in Hnd. apply NoDup_cons in Hnd as [Hk' Hnd]. cbn [omap list_omap fst snd]. cbv zeta.
  apply elem_of_cons in Hin as [[= -> ->]|Hin].
  - destruct (num_eqb (extraOr0 f' ex) num_zero) eqn:E.
    + replace (mget _ _) with (@None number).
      * cbn. unfold extraOr0 in *. by rewrite num_or_zero_eq0.
      * symmetry. apply mget_None. intros Hm. apply list_elem_of_fmap in Hm as ([k2 v2] & -> & Hm).
        apply list_elem_of_omap in Hm as ([f3 k3] & Hin & Hs). cbv zeta in Hs. cbn [fst snd] in Hs. destruct (num_eqb (extraOr0 f3 ex) num_zero); [done|].
        simplify_eq. apply Hk', list_elem_of_fmap. eexists; by split; [|exact Hin].
    + rewrite mget_cons, bool_decide_eq_true_2 by done. apply num_or_zero_idem.
  - destruct (num_eqb _ _); [by apply IH|]. rewrite mget_cons, bool_decide_eq_false_2; [by apply IH|].
    intros ->. apply Hk', list_elem_of_fmap. by exists (f, k').
Qed.

Lemma bodyTerms_keys tier : Forall (fun p => p.1 ∈ pricingKeys) (bodyTerms tier).
Proof.
  unfold bodyTerms. apply Forall_cons. split; [by apply (bool_decide_unpack _); vm_compute|].
  apply Forall_cons. split; [by apply (bool_decide_unpack _); vm_compute|].
  apply Forall_forall. intros x Hx. apply list_elem_of_omap in Hx as ([f k] & Hin & Hs).
  cbv zeta in Hs. cbn [fst snd] in Hs. destruct (num_eqb (extraOr0 f _) _); [done|]. simplify_eq. cbn [fst].
  unfold pricingKeys. revert Hin. unfold BILLING_CACHE_VAR_MAP. cbn.
  intros Hin. repeat (apply elem_of_cons in Hin as [[= -> ->]|Hin]); try by apply elem_of_nil in Hin.
  all: by apply (bool_decide_unpack _); vm_compute.
Qed.

Lemma parse_body_terms tier :
  Forall (fun p => readable p.2) (bodyTerms tier) ->
  bodyCoeffs (buildTierBodyExpr tier) = foldl addCoeff [] (map termCaps (bodyTerms tier)).
Proof.
  intros H. unfold bodyCoeffs, buildTierBodyExpr. f_equal. assert (Hk := bodyTerms_keys tier).
  assert (Forall wfTerm (bodyTerms tier)).
  { apply Forall_forall. intros p Hp. rewrite Forall_forall in H, Hk. split; [by apply Hk|]. by apply H. }
  destruct (bodyTerms tier) as [|p ps] eqn:E; [done|]. by apply exec_terms.
Qed.

Lemma parse_build_body tier :
  Forall (fun p => readable p.2) (bodyTerms tier) -> parseTierBody (buildTierBodyExpr tier) = tierPrices tier.
Proof.
  intros H. unfold parseTierBody. rewrite parse_body_terms by done.
  assert (Hg : forall k, mget k (foldl addCoeff [] (map termCaps (bodyTerms tier))) = mget k (bodyTerms tier))
    by (intros k; by rewrite coeffs_get).
  assert (He : forall f k, (f, k) ∈ BILLING_CACHE_VAR_MAP -> k <> js "p" -> k <> js "c" ->
    num_or_zero (default num_nan (mget k (foldl addCoeff [] (map termCaps (bodyTerms tier))))) = extraOr0 f (vt_extra tier)).
  { intros f k Hin Hp Hc. rewrite Hg. unfold bodyTerms. rewrite !mget_cons, !bool_decide_eq_false_2 by done.
    apply extra_get; [|done]. apply (bool_decide_unpack _). by vm_compute. }
  change BILLING_VAR_KEY_TO_FIELD with ((js "p", js "inputPrice") :: (js "c", js "outputPrice") ::
    map (fun v => (bv_key v, default [] (bv_field v))) BILLING_EXTRA_VARS).
  unfold tierPrices. cbn [map fst snd]. rewrite map_map. do 2 (f_equal; [f_equal; rewrite Hg; by apply num_or_zero_idem|]).
  apply map_ext_in. intros v Hv. cbn [fst snd]. f_equal. apply He.
  - apply list_elem_of_In, in_map_iff. by exists v.
  - intros E. repeat destruct Hv as [<-|Hv]; done.
  - intros E. repeat destruct Hv as [<-|Hv]; done.
Qed.

(** ** Conditions *)

Lemma rx_alt_l a r st c k : rx r st c k = None -> rx (RAlt a r) st c k = rx a st c k.
Proof. intros H. simpl. rewrite H. by destruct (rx a st c k). Qed.

Lemma rx_alt_r a r st c k : rx a st c k = None -> rx (RAlt a r) st c k = rx r st c k.
Proof. intros H. simpl. by rewrite H. Qed.

Lemma rx_condVar v b s c k :
  rx condVar {| before := b; rest := varText v ++ 32%N :: s |} c k
  = k {| before := rev (varText v) ++ b; rest := 32%N :: s |} c.
Proof.
  destruct v; unfold condVar; cbn [ralts].
  - by rewrite rx_alt_l by reflexivity.
  - by rewrite rx_alt_r, rx_alt_l by reflexivity.
  - by rewrite !rx_alt_r by reflexivity.
Qed.

Lemma rx_condVar_none x s b c k :
  x <> u "p" -> x <> u "c" -> x <> u "l" -> rx condVar {| before := b; rest := x :: s |} c k = None.
Proof.
  intros Hp Hc Hl. unfold condVar. cbn [ralts]. rewrite !rx_alt_r; rewrite rx_RLit; unfold skip_lit.
  all: change (js "p") with [u "p"]; change (js "c") with [u "c"]; change (js "len") with (u "l" :: js "en").
  all: cbn [starts_with rest]; rewrite (proj2 (N.eqb_neq _ _)) by congruence; done.
Qed.

Lemma rx_condOp o b s c k :
  (forall b' s' c', k {| before := b'; rest := 61%N :: s' |} c' = None) ->
  rx condOp {| before := b; rest := opText o ++ 32%N :: s |} c k
  = k {| before := rev (opText o) ++ b; rest := 32%N :: s |} c.
Proof.
  intros Hk. destruct o; unfold condOp; cbn [ralts].
  - by rewrite rx_alt_l by reflexivity.
  - rewrite rx_alt_r by apply Hk. by rewrite rx_alt_l by reflexivity.
  - by rewrite rx_alt_r, rx_alt_r, rx_alt_l by reflexivity.
  - rewrite rx_alt_r, rx_alt_r by reflexivity. by rewrite rx_alt_r by apply Hk.
Qed.

Lemma rx_condOp_none x s b c k :
  x <> 60%N -> x <> 62%N -> rx condOp {| before := b; rest := x :: s |} c k = None.
Proof.
  intros H1 H2. unfold condOp. cbn [ralts]. rewrite !rx_alt_r; rewrite rx_RLit; unfold skip_lit.
  all: change (js "<") with [60%N]; change (js "<=") with [60%N; 61%N]; change (js ">") with [62%N]; change (js ">=") with [62%N; 61%N].
  all: cbn [starts_with rest]; rewrite (proj2 (N.eqb_neq _ _)) by congruence; done.
Qed.

Lemma unsigned_signed c : unsignedChar c = true -> signedChar c = true.
Proof.
  unfold unsignedChar, signedChar, RAny. rewrite !orb_true_iff, !existsb_exists.
  intros [H|(y & Hy & E)]; [by left|]. right. exists y. split; [|done].
  vm_compute in Hy |- *. intuition.
Qed.

(** A run of spaces that is one space. *)
Lemma rx_one_space b s c k :
  stops is_ws s -> (forall b' x s', is_ws x = true -> k {| before := b'; rest := x :: s' |} c = None) ->
  rx RSpaces {| before := b; rest := 32%N :: s |} c k = k {| before := 32%N :: b; rest := s |} c.
Proof. intros Hs Hk. by apply (star_class_run is_ws b [32%N]); [repeat constructor|..]. Qed.

Lemma rx_no_space b s c k :
  stops is_ws s -> rx RSpaces {| before := b; rest := s |} c k = k {| before := b; rest := s |} c.
Proof.
  intros Hs. unfold RSpaces. rewrite rx_RStar. cbn [star_loop]. by rewrite rx_char_stop.
Qed.

Lemma stops_unsigned_ws w s : w <> [] -> Forall (fun c => unsignedChar c = true) w -> stops is_ws (w ++ s).
Proof. intros Hne Hw. destruct Hw as [|x w Hx _]; [done|]. by apply signed_not_ws, unsigned_signed. Qed.

(** One comparison, with whatever each part captures. *)
Lemma comparison_run v o w b s c (g1 g2 g3 : cursor -> cursor -> caps -> caps) k :
  w <> [] -> Forall (fun c => unsignedChar c = true) w -> stops unsignedChar s ->
  (forall b' x s' c', unsignedChar x = true -> k {| before := b'; rest := x :: s' |} c' = None) ->
  let st0 := {| before := b; rest := varText v ++ 32%N :: opText o ++ 32%N :: w ++ s |} in
  let st1 := {| before := rev (varText v) ++ b; rest := 32%N :: opText o ++ 32%N :: w ++ s |} in
  let st2 := {| before := 32%N :: rev (varText v) ++ b; rest := opText o ++ 32%N :: w ++ s |} in
  let st3 := {| before := rev (opText o) ++ before st2; rest := 32%N :: w ++ s |} in
  let st4 := {| before := 32%N :: before st3; rest := w ++ s |} in
  let st5 := {| before := rev w ++ before st4; rest := s |} in
  rx condVar st0 c (fun st1 c1 => rx RSpaces st1 (g1 st0 st1 c1) (fun st2 c2 => rx condOp st2 c2 (fun st3 c3 =>
    rx RSpaces st3 (g2 st2 st3 c3) (fun st4 c4 => rx (RPlus (RChar unsignedChar)) st4 c4 (fun st5 c5 => k st5 (g3 st4 st5 c5))))))
  = k st5 (g3 st4 st5 (g2 st2 st3 (g1 st0 st1 c))).
Proof.
  intros Hne Hw Hs Hk st0 st1 st2 st3 st4 st5. unfold st0. rewrite rx_condVar. fold st0 st1. unfold st1 at 1.
  rewrite rx_one_space; [|by destruct o| by intros; apply rx_condOp_none; intros ->]. fold st1 st2. unfold st2 at 1.
  rewrite rx_condOp; [|intros; rewrite rx_no_space by done; done]. fold st2 st3. unfold st3 at 1.
  rewrite rx_one_space; [|by apply stops_unsigned_ws|].
  - fold st3 st4. unfold st4 at 1. rewrite (plus_class_run unsignedChar); [done..|]. intros. by apply Hk.
  - intros b' x s' Hx. unfold RPlus. rewrite rx_RSeq, rx_char_stop; [done|]. cbn.
    destruct (unsignedChar x) eqn:E; [|done]. apply unsigned_signed, signed_not_ws in E. congruence.
Qed.

(** A condition the editor can write for the parser: its value is made of the
    units [[\d.eE+]]; a condition with an empty value is not written. *)
Definition wfCondition (c : TierConditionInput) : Prop := Forall (fun x => unsignedChar x = true) (valueText (ci_value c)).
Definition written (c : TierConditionInput) : bool := match ci_value c with inr [] => false | _ => true end.

Lemma written_nonempty c : written c = true -> valueText (ci_value c) <> [].
Proof. unfold written. destruct (ci_value c) as [v|[|]]; [intros _; apply num_to_str_nonempty|done..]. Qed.

Lemma conditionText_app c s :
  conditionText c ++ s = varText (ci_var c) ++ 32%N :: opText (ci_op c) ++ 32%N :: valueText (ci_value c) ++ s.
Proof. unfold conditionText. rewrite <- !app_assoc. done. Qed.

Lemma conditionText_rev c b :
  rev (conditionText c) ++ b =
  rev (valueText (ci_value c)) ++ 32%N :: rev (opText (ci_op c)) ++ 32%N :: rev (varText (ci_var c)) ++ b.
Proof. unfold conditionText. rewrite !rev_app_distr, <- !app_assoc. done. Qed.

Lemma rx_oneCond cd b s c k :
  wfCondition cd -> written cd = true -> stops unsignedChar s ->
  (forall b' x s' c', unsignedChar x = true -> k {| before := b'; rest := x :: s' |} c' = None) ->
  rx oneCond {| before := b; rest := conditionText cd ++ s |} c k = k {| before := rev (conditionText cd) ++ b; rest := s |} c.
Proof.
  intros Hw Hn%written_nonempty Hs Hk. rewrite conditionText_app, conditionText_rev.
  exact (comparison_run (ci_var cd) (ci_op cd) (valueText (ci_value cd)) b s c
    (fun _ _ c => c) (fun _ _ c => c) (fun _ _ c => c) k Hn Hw Hs Hk).
Qed.

Definition showCondition (c : TierConditionInput) : TierCondition :=
  {| tc_var := ci_var c; tc_op := ci_op c; tc_value := num_of_str (valueText (ci_value c)) |}.

Lemma conditionText_head c : exists x t, conditionText c = x :: t /\ x ∈ [u "p"; u "c"; u "l"].
Proof. unfold conditionText. destruct (ci_var c); do 2 eexists; (split; [done|set_solver]). Qed.

Lemma conditionText_trimmed c : wfCondition c -> written c = true -> trimmed (conditionText c) = true.
Proof.
  intros Hw Hn%written_nonempty. unfold wfCondition in Hw.
  destruct (exists_last Hn) as (t & y & Ey). rewrite Ey in Hw. apply Forall_app in Hw as [_ Hy].
  destruct (conditionText_head c) as (x & t' & E & Hx). assert (E' := E). unfold conditionText in E.
  rewrite Ey, !app_assoc in E. destruct (exists_last (l := t')) as (t2 & z & ->).
  { intros ->. apply (f_equal length) in E. rewrite !length_app in E. destruct (ci_var c); simpl in E; lia. }
  rewrite app_comm_cons in E. apply app_inj_tail in E as [_ ->]. rewrite E'. apply trimmed_ends.
  - repeat (apply elem_of_cons in Hx as [->|Hx]); try done. by apply elem_of_nil in Hx.
  - apply Forall_inv in Hy. by apply signed_not_ws, unsigned_signed.
Qed.

Lemma parse_conditionText c : wfCondition c -> written c = true -> parseCondition (conditionText c) = Some (showCondition c).
Proof.
  intros Hw Hn. unfold parseCondition. rewrite trimmed_trim by by apply conditionText_trimmed.
  assert (E : rmatch singleCond (conditionText c) =
    Some [(3%nat, valueText (ci_value c)); (2%nat, opText (ci_op c)); (1%nat, varText (ci_var c))]).
  { rewrite <- (app_nil_r (conditionText c)), conditionText_app. unfold rmatch, match_at, at_start.
    pose proof (comparison_run (ci_var c) (ci_op c) (valueText (ci_value c)) [] [] []
      (fun a b c => (1%nat, consumed a b) :: c) (fun a b c => (2%nat, consumed a b) :: c)
      (fun a b c => (3%nat, consumed a b) :: c) (fun st c => rx REol st c accept)) as H.
    cbv zeta in H. cbn [before] in H. rewrite !consumed_rev in H.
    etransitivity; [|exact (f_equal (fmap (M := option) snd) (H (written_nonempty c Hn) Hw I (fun _ _ _ _ _ => eq_refl)))]. reflexivity. }
  rewrite E. unfold showCondition, getCapture. cbn [cap Nat.eqb]. do 2 f_equal; by destruct (ci_var c), (ci_op c).
Qed.

(** *** Conjunctions *)

Definition andCond : regex := rseq [RSpaces; RLit "&&"; RSpaces; oneCond].
Definition laterConds (cs : list TierConditionInput) : jstr := concat (map (fun c => js " && " ++ conditionText c) cs).
Definition keptCondition (c : TierConditionInput) : Prop := wfCondition c /\ written c = true.

Lemma andCond_no x w s b c k :
  Forall (fun c => is_ws c = true) w -> is_ws x = false -> x <> 38%N ->
  rx andCond {| before := b; rest := w ++ x :: s |} c k = None.
Proof.
  intros Hw Hx Hn. unfold andCond, RSpaces. cbn [rseq].
  rewrite (rx_star_class is_ws _ b w); [|done|done|by apply (refuses_lit is_ws 38 [38%N])].
  apply (rx_lit_mismatch (js "&&")). cbn [rest]. change (js "&&") with [38%N; 38%N]. cbn [starts_with].
  by rewrite (proj2 (N.eqb_neq _ _)) by congruence.
Qed.

Lemma unsigned_plain x : unsignedChar x = true ->
  is_ws x = false /\ x <> 38%N /\ x <> 63%N /\ x <> u "p" /\ x <> u "c" /\ x <> u "l" /\ x <> u "t".
Proof.
  intros H. split; [by apply signed_not_ws, unsigned_signed|].
  split_and!; intros ->; done.
Qed.

Lemma oneCond_no x s b c k : x <> u "p" -> x <> u "c" -> x <> u "l" -> rx oneCond {| before := b; rest := x :: s |} c k = None.
Proof. intros. unfold oneCond. cbn [rseq]. rewrite rx_RSeq. by apply rx_condVar_none. Qed.

Lemma rx_andCond cd b s c k :
  keptCondition cd -> stops unsignedChar s ->
  (forall b' x s' c', unsignedChar x = true -> k {| before := b'; rest := x :: s' |} c' = None) ->
  rx andCond {| before := b; rest := (js " && " ++ conditionText cd) ++ s |} c k
  = k {| before := rev (js " && " ++ conditionText cd) ++ b; rest := s |} c.
Proof.
  intros [Hw Hn] Hs Hk. unfold andCond, RSpaces. cbn [rseq]. rewrite rev_app_distr, <- !app_assoc.
  change (js " && " ++ conditionText cd ++ s) with ([32%N] ++ js "&&" ++ 32%N :: conditionText cd ++ s).
  rewrite (rx_star_class is_ws _ b [32%N]); [|by repeat constructor|done|by apply (refuses_lit is_ws 38 [38%N])].
  unfold RLit. rewrite rx_lit_app, rx_RSeq. fold RSpaces. rewrite rx_one_space.
  - by rewrite rx_oneCond.
  - destruct (conditionText_head cd) as (x & t & -> & Hx). repeat (apply elem_of_cons in Hx as [->|Hx]); try done.
    by apply elem_of_nil in Hx.
  - intros. apply oneCond_no; by intros ->.
Qed.

Definition refusesNumber (k : cont) : Prop :=
  forall b x s c, unsignedChar x = true -> k {| before := b; rest := x :: s |} c = None.

Lemma conds_loop_refuses k n : refusesNumber k -> refusesNumber (fun st c => star_loop (rx andCond) n st c k).
Proof.
  intros Hk b x s c Hx. destruct n as [|n]; cbn [star_loop]; [by apply Hk|].
  pose proof (unsigned_plain x Hx) as (H1 & H2 & _). rewrite (andCond_no x [] s); [by apply Hk|constructor|done..].
Qed.

Lemma conds_loop cs s c k res : Forall keptCondition cs -> refusesNumber k ->
  forall n b, (length cs < n)%nat ->
  k {| before := rev (laterConds cs) ++ b; rest := js " ? " ++ s |} c = Some res ->
  star_loop (rx andCond) n {| before := b; rest := laterConds cs ++ js " ? " ++ s |} c k = Some res.
Proof.
  intros Hcs Hk. pose proof (fun n => conds_loop_refuses k n Hk) as Hk'.
  induction Hcs as [|cd cs Hcd Hcs IH]; intros [|n] b Hn Hr; simpl in Hn; try lia; cbn [star_loop].
  - change (laterConds [] ++ js " ? " ++ s) with ([32%N] ++ 63%N :: 32%N :: s).
    rewrite andCond_no; [done|by repeat constructor|done..].
  - change (laterConds (cd :: cs)) with ((js " && " ++ conditionText cd) ++ laterConds cs) in *.
    rewrite <- app_assoc. rewrite rx_andCond; [|done|by destruct cs|].
    + cbn [rest]. rewrite (proj2 (Nat.ltb_lt _ _)) by (rewrite !length_app; change (length (js " && ")) with 4%nat; lia).
      rewrite IH; [done|lia|]. by rewrite rev_app_distr, <- app_assoc in Hr.
    + intros b' x s' c' Hx. case_if; [|done]. by apply (Hk' n).
Qed.

Lemma join_conds c cs : js_join (js " && ") (map conditionText (c :: cs)) = conditionText c ++ laterConds cs.
Proof.
  revert c. induction cs as [|c' cs IH]; intros c; [by rewrite app_nil_r|].
  change (js_join (js " && ") (map conditionText (c :: c' :: cs)))
    with (conditionText c ++ js " && " ++ js_join (js " && ") (map conditionText (c' :: cs))).
  rewrite IH. by rewrite (app_assoc (js " && ")).
Qed.

(** *** The optional condition of a tier *)

Definition questionMark : regex := RSeq RSpaces (RSeq (RLit "?") RSpaces).

Lemma questionMark_refuses k : refusesNumber (fun st c => rx questionMark st c k).
Proof.
  intros b x s c Hx. pose proof (unsigned_plain x Hx) as (H1 & _ & H3 & _). unfold questionMark. rewrite rx_RSeq, rx_no_space by done.
  apply (rx_lit_mismatch (js "?")). change (js "?") with [63%N]. cbn [starts_with rest].
  by rewrite (proj2 (N.eqb_neq _ _)) by congruence.
Qed.

Lemma questionMark_run b t c k res :
  stops is_ws t -> k {| before := rev (js " ? ") ++ b; rest := t |} c = Some res ->
  rx questionMark {| before := b; rest := js " ? " ++ t |} c k = Some res.
Proof.
  intros Ht Hr. unfold questionMark, RSpaces. change (js " ? " ++ t) with ([32%N] ++ js "?" ++ [32%N] ++ t).
  rewrite (rx_star_class is_ws _ b [32%N]); [|by repeat constructor|done|by apply (refuses_lit is_ws 63 [])].
  unfold RLit. rewrite rx_lit_app. by apply (star_class_greedy is_ws); [repeat constructor|..].
Qed.

Lemma rx_optCond i cd cs b t c k res :
  let text := js_join (js " && ") (map conditionText (cd :: cs)) in
  Forall keptCondition (cd :: cs) -> stops is_ws t ->
  k {| before := rev (text ++ js " ? ") ++ b; rest := t |} ((i, text) :: c) = Some res ->
  rx (optCond i) {| before := b; rest := text ++ js " ? " ++ t |} c k = Some res.
Proof.
  intros text [[Hw Hn] Hcs]%Forall_cons Ht Hr. unfold optCond, ROpt. cbn [rx rseq].
  set (K := fun st' c' => rx questionMark st' ((i, consumed {| before := b; rest := text ++ js " ? " ++ t |} st') :: c') k).
  enough (rx oneCond {| before := b; rest := text ++ js " ? " ++ t |} c
    (fun st1 c1 => star_loop (rx andCond) (S (length (rest st1))) st1 c1 K) = Some res) as E.
  { change (rx (condGroup i) _ c _) with (rx oneCond {| before := b; rest := text ++ js " ? " ++ t |} c
      (fun st1 c1 => star_loop (rx andCond) (S (length (rest st1))) st1 c1 K)). by rewrite E. }
  assert (HK : refusesNumber K) by (intros b' x s' c' Hx; by apply questionMark_refuses).
  assert (Et : text = conditionText cd ++ laterConds cs) by apply join_conds.
  rewrite Et, <- app_assoc. rewrite rx_oneCond; [|done|done|by destruct cs|].
  - cbn [rest]. apply conds_loop; [done..| |].
    + rewrite !length_app. assert (length cs <= length (laterConds cs))%nat; [|lia].
      clear. unfold laterConds. induction cs; cbn [length map concat]; [lia|].
      rewrite !length_app. change (length (js " && ")) with 4%nat. lia.
    + unfold K. rewrite app_assoc, <- rev_app_distr, <- Et, consumed_rev.
      apply questionMark_run; [done|]. by rewrite rev_app_distr, <- app_assoc in Hr.
  - intros b' x s' c' Hx. by apply conds_loop_refuses.
Qed.

Lemma trim_around w1 t w2 :
  Forall (fun c => is_ws c = true) w1 -> Forall (fun c => is_ws c = true) w2 -> t <> [] -> trimmed t = true ->
  trim (w1 ++ t ++ w2) = t.
Proof.
  intros H1 H2 Hne Ht. unfold trim, trim_end. rewrite trim_start_app_ws by done.
  destruct t as [|x t]; [done|]. rewrite (trim_start_nows ((x :: t) ++ w2)).
  - rewrite rev_app_distr, trim_start_app_ws by by apply Forall_rev.
    pose proof (trimmed_trim _ Ht) as E. unfold trim, trim_end in E. rewrite (trim_start_nows (x :: t)) in E; [done|].
    intros c s' [= <- <-]. unfold trimmed in Ht. by bool_hyps.
  - intros c s' [= <- <-]. unfold trimmed in Ht. by bool_hyps.
Qed.

Lemma splitAnd_here t s cur :
  Forall (fun c => c <> 38%N) t -> splitAnd (t ++ 38%N :: 38%N :: s) cur = (rev cur ++ t) :: splitAnd s [].
Proof.
  intros Ht. revert cur. induction Ht as [|x t Hx _ IH]; intros cur; [by rewrite app_nil_r|].
  cbn [app]. transitivity (splitAnd (t ++ 38%N :: 38%N :: s) (x :: cur)).
  - cbn [splitAnd]. destruct x as [|x]; [done|]. do 6 (destruct x as [x|x|]; try done).
  - rewrite IH. simpl. by rewrite <- app_assoc.
Qed.

Lemma splitAnd_last t cur : Forall (fun c => c <> 38%N) t -> splitAnd t cur = [rev cur ++ t].
Proof.
  intros Ht. revert cur. induction Ht as [|x t Hx _ IH]; intros cur; [by rewrite app_nil_r|].
  transitivity (splitAnd t (x :: cur)).
  - cbn [splitAnd]. destruct x as [|x]; [done|]. do 6 (destruct x as [x|x|]; try done).
  - rewrite IH. simpl. by rewrite <- app_assoc.
Qed.

Lemma conditionText_no_amp c : wfCondition c -> Forall (fun x => x <> 38%N) (conditionText c).
Proof.
  intros Hw. unfold conditionText. rewrite !Forall_app. split_and!.
  - destruct (ci_var c); by repeat constructor.
  - by repeat constructor.
  - destruct (ci_op c); by repeat constructor.
  - by repeat constructor.
  - eapply Forall_impl; [exact Hw|]. intros x Hx. by apply unsigned_plain in Hx as (_ & ? & _).
Qed.

Lemma parse_spaced_condition w1 c w2 :
  Forall (fun c => is_ws c = true) w1 -> Forall (fun c => is_ws c = true) w2 -> keptCondition c ->
  parseCondition (w1 ++ conditionText c ++ w2) = Some (showCondition c).
Proof.
  intros H1 H2 [Hw Hn]. rewrite <- (parse_conditionText c) by done. unfold parseCondition.
  rewrite trim_around; [|done|done|by destruct (conditionText_head c) as (? & ? & -> & _)|by apply conditionText_trimmed].
  by rewrite trimmed_trim by by apply conditionText_trimmed.
Qed.

Lemma parse_conjunction c cs : Forall keptCondition (c :: cs) -> forall pre, pre = [] \/ pre = [32%N] ->
  omap parseCondition (splitAnd (pre ++ conditionText c ++ laterConds cs) []) = map showCondition (c :: cs).
Proof.
  revert c. induction cs as [|c' cs IH]; intros c [Hc Hcs]%Forall_cons pre Hpre.
  all: assert (Hpw : Forall (fun c => is_ws c = true) pre) by (destruct Hpre as [-> | ->]; by repeat constructor).
  all: assert (Hpa : Forall (fun c => c <> 38%N) pre) by (destruct Hpre as [-> | ->]; by repeat constructor).
  - change (laterConds []) with (@nil N). rewrite splitAnd_last.
    + cbn [rev app omap list_omap]. by rewrite parse_spaced_condition.
    + rewrite !Forall_app. split_and!; [done|by apply conditionText_no_amp, Hc|constructor].
  - change (laterConds (c' :: cs)) with ((js " && " ++ conditionText c') ++ laterConds cs).
    replace (pre ++ conditionText c ++ (js " && " ++ conditionText c') ++ laterConds cs)
      with ((pre ++ conditionText c ++ [32%N]) ++ 38%N :: 38%N :: ([32%N] ++ conditionText c' ++ laterConds cs))
      by (rewrite <- !app_assoc; done).
    rewrite splitAnd_here.
    + cbn [rev app omap list_omap]. rewrite parse_spaced_condition; [|done|by repeat constructor|done].
      cbn [map]. f_equal. apply (IH c' Hcs [32%N]). by right.
    + rewrite !Forall_app. split_and!; [done|by apply conditionText_no_amp, Hc|by repeat constructor].
Qed.

Definition keptConditions (cs : list TierConditionInput) : list TierConditionInput := List.filter written cs.

Lemma keptConditions_kept cs : Forall wfCondition cs -> Forall keptCondition (keptConditions cs).
Proof.
  intros H. apply Forall_forall. intros c Hc. apply list_elem_of_In, filter_In in Hc as [Hc Hw].
  rewrite List.Forall_forall in H. split; [by apply H|done].
Qed.

(** What is written for a list of conditions is read back, empty or not. *)
Lemma parse_build_conditions cs :
  Forall wfCondition cs -> parseConditionsText (buildConditionStr cs) = map showCondition (keptConditions cs).
Proof.
  intros H%keptConditions_kept. unfold parseConditionsText, buildConditionStr. fold written. fold (keptConditions cs).
  destruct (keptConditions cs) as [|c l]; [done|]. rewrite join_conds.
  destruct (conditionText_head c) as (x & t & E & _). rewrite E at 1. cbn [app truthy_str].
  apply (parse_conjunction c l H []). by left.
Qed.

(** ** One tier under the tier expression *)

Lemma rx_tierOpen i label b t c k res :
  let text := js "tier(" ++ 34%N :: label ++ 34%N :: js ", " in
  Forall (fun x => notQuote x = true) label -> stops is_ws t ->
  k {| before := rev text ++ b; rest := t |} ((i, label) :: c) = Some res ->
  rx (tierOpen i) {| before := b; rest := text ++ t |} c k = Some res.
Proof.
  intros text Hl Ht Hr. unfold tierOpen, text. cbn [rseq]. rewrite <- app_assoc. unfold RLit. rewrite rx_lit_app.
  cbn [app]. rewrite rx_RSeq. unfold quoteChar. rewrite (rx_char_one (N.eqb 34)) by done.
  rewrite <- app_assoc. cbn [app]. rewrite rx_RSeq, rx_RGroup, (star_class_run notQuote); [|done|done|].
  - rewrite consumed_rev, rx_RSeq, (rx_char_one (N.eqb 34)), rx_RSeq by done. fold (RLit ",").
    change (js ", " ++ t) with (js "," ++ [32%N] ++ t).
    rewrite rx_RLit_app. apply (star_class_greedy is_ws); [by repeat constructor|done|].
    unfold text in Hr. rewrite !rev_app_distr in Hr. cbn [rev] in Hr. rewrite !rev_app_distr, <- !app_assoc in Hr. exact Hr.
  - intros b' x s' Hx. rewrite rx_RSeq, rx_char_stop; [done|]. change (N.eqb 34 x = false). unfold notQuote in Hx. apply negb_true_iff in Hx.
    by rewrite N.eqb_sym.
Qed.

Lemma signed_no_paren x : signedChar x = true -> RNot ")" x = true.
Proof. intros H. unfold RNot. apply negb_true_iff. destruct (RAny ")" x) eqn:E; [|done]. unfold RAny in E. vm_compute in E.
  destruct x as [|x]; [done|]. exfalso. revert H E. do 6 (destruct x as [x|x|]; try done). Qed.

Lemma tierBody_chars (P : N -> Prop) tier :
  (forall x, signedChar x = true -> P x) -> Forall P (js " *+") -> Forall (Forall P) pricingKeys ->
  Forall (fun p => readable p.2) (bodyTerms tier) -> Forall P (buildTierBodyExpr tier).
Proof.
  intros HP Hs Hk H. apply Forall_cons in Hs as [Hsp [Hm [Ha _]%Forall_cons]%Forall_cons].
  unfold buildTierBodyExpr. apply js_join_Forall; [by repeat constructor|].
  pose proof (bodyTerms_keys tier) as Hb. apply Forall_forall. intros t Ht.
  apply list_elem_of_fmap in Ht as ([k v] & -> & Hp). rewrite Forall_forall in H, Hb.
  destruct (H _ Hp) as [Hf _]. unfold term. cbn [fst snd] in *. rewrite !Forall_app. split_and!.
  - exact (proj1 (Forall_forall _ _) Hk k (Hb _ Hp)).
  - by repeat constructor.
  - eapply Forall_impl; [by apply num_to_str_signed|exact HP].
Qed.

Lemma tierBody_no_paren tier :
  Forall (fun p => readable p.2) (bodyTerms tier) -> Forall (fun x => RNot ")" x = true) (buildTierBodyExpr tier).
Proof. apply tierBody_chars; [apply signed_no_paren|by repeat constructor..]. Qed.

Lemma tierBody_head tier : exists t, buildTierBodyExpr tier = u "p" :: t.
Proof. by eexists. Qed.

(** What the tier parser should show of a tier under a label and conditions. *)
Definition shownTier (label : jstr) (cs : list TierConditionInput) (tier : VisualTier) : ParsedTier :=
  {| pt_label := label; pt_conditions := map showCondition (keptConditions cs); pt_prices := tierPrices tier |}.

Definition partText (cs : list TierConditionInput) (label : jstr) (tier : VisualTier) : jstr :=
  if truthy_str (buildConditionStr cs) then buildConditionStr cs ++ js " ? " ++ tierCall label tier else tierCall label tier.

Definition wfTier (tier : VisualTier) : Prop := Forall (fun p => readable p.2) (bodyTerms tier).
Definition wfLabel (label : jstr) : Prop := Forall (fun x => notQuote x = true) label.

Lemma paren_refuses : refuses (RNot ")") (RLit ")").
Proof.
  intros b x s c k Hx. rewrite rx_RLit. unfold skip_lit. change (js ")") with [41%N]. cbn [rest starts_with].
  destruct (N.eqb_spec 41 x) as [<-|]; done.
Qed.

Definition callRe : regex := RSeq (tierOpen 2) (RSeq (RGroup 3 (RPlus (RChar (RNot ")")))) (RLit ")")).

Lemma match_at_tierRe st : match_at tierRe st = rx (optCond 1) st [] (fun st' c' => rx callRe st' c' accept).
Proof. reflexivity. Qed.

Lemma tierCall_split label tier :
  tierCall label tier = (js "tier(" ++ 34%N :: label ++ 34%N :: js ", ") ++ buildTierBodyExpr tier ++ js ")".
Proof. unfold tierCall. rewrite <- app_assoc. cbn [app]. by rewrite <- app_assoc. Qed.

Lemma match_call label tier b s c :
  wfTier tier -> wfLabel label ->
  rx callRe {| before := b; rest := tierCall label tier ++ s |} c accept
  = Some ({| before := rev (tierCall label tier) ++ b; rest := s |}, (3%nat, buildTierBodyExpr tier) :: (2%nat, label) :: c).
Proof.
  intros Ht Hl. destruct (tierBody_head tier) as [t Et].
  unfold callRe. rewrite tierCall_split, <- !(app_assoc _ _ s), <- app_assoc, rx_RSeq.
  apply rx_tierOpen; [done|by rewrite Et|].
  rewrite rx_group_run; [|by rewrite Et|by apply tierBody_no_paren|done|apply paren_refuses].
  rewrite rx_RLit_app. unfold accept. by rewrite !rev_app_distr, <- !app_assoc.
Qed.

Lemma condition_text_cases cs :
  keptConditions cs = [] /\ buildConditionStr cs = [] \/
  exists cd l, keptConditions cs = cd :: l /\ buildConditionStr cs = js_join (js " && ") (map conditionText (cd :: l)) /\
    truthy_str (buildConditionStr cs) = true.
Proof.
  unfold buildConditionStr. change (List.filter _ cs) with (keptConditions cs).
  destruct (keptConditions cs) as [|cd l]; [by left|]. right. exists cd, l. split_and!; [done..|].
  cbn [map]. apply js_join_truthy. by destruct (conditionText_head cd) as (? & ? & -> & _).
Qed.

Lemma optCond_none i t b s c k : t <> u "p" -> t <> u "c" -> t <> u "l" ->
  rx (optCond i) {| before := b; rest := t :: s |} c k = k {| before := b; rest := t :: s |} c.
Proof. intros. unfold optCond, ROpt. rewrite rx_alt_r; [done|]. by apply oneCond_no. Qed.

Lemma match_part cs label tier b s :
  wfTier tier -> wfLabel label -> Forall wfCondition cs ->
  exists c, match_at tierRe {| before := b; rest := partText cs label tier ++ s |}
      = Some ({| before := rev (partText cs label tier) ++ b; rest := s |}, c) /\
    tierOfMatch c = shownTier label cs tier.
Proof.
  intros Ht Hl Hcs. assert (Hp := parse_build_conditions cs Hcs). assert (Hb := parse_build_body tier Ht).
  assert (Hc : exists y z, tierCall label tier = u "t" :: y :: z) by by do 2 eexists.
  destruct Hc as (y & z & Hc). unfold partText.
  destruct (condition_text_cases cs) as [[Ek Et]|(cd & l & Ek & Et & Htr)].
  - rewrite Et. cbn [truthy_str]. exists [(3%nat, buildTierBodyExpr tier); (2%nat, label)]. split.
    + rewrite match_at_tierRe, Hc. cbn [app]. rewrite optCond_none by done.
      rewrite !app_comm_cons, <- Hc. by apply match_call.
    + unfold tierOfMatch, shownTier, getCapture. cbn [cap Nat.eqb]. change (default [] (Some ?x)) with x.
      rewrite Hb, Ek. done.
  - rewrite Htr. exists [(3%nat, buildTierBodyExpr tier); (2%nat, label); (1%nat, buildConditionStr cs)]. split.
    + rewrite match_at_tierRe, <- !app_assoc, Et. apply rx_optCond.
      * rewrite <- Ek. by apply keptConditions_kept.
      * by rewrite Hc.
      * rewrite match_call by done. by rewrite !rev_app_distr, <- !app_assoc.
    + unfold tierOfMatch, shownTier, getCapture. cbn [cap Nat.eqb]. change (default [] (Some ?x)) with x. by rewrite Hb, Hp.
Qed.

(** No tier starts at a unit that starts neither a condition nor a call. *)
Lemma no_tier_here x s b : x <> u "p" -> x <> u "c" -> x <> u "l" -> x <> u "t" ->
  match_at tierRe {| before := b; rest := x :: s |} = None.
Proof.
  intros Hp Hc Hl Ht. rewrite match_at_tierRe, optCond_none by done. unfold callRe, tierOpen. cbn [rseq].
  rewrite rx_RSeq, rx_RSeq, rx_RLit.
  unfold skip_lit. change (js "tier(") with (u "t" :: js "ier("). cbn [rest starts_with].
  by rewrite (proj2 (N.eqb_neq _ _)) by congruence.
Qed.

(** ** The whole expression *)

Record part := mkPart { pa_conds : list TierConditionInput; pa_name : jstr; pa_tier : VisualTier }.

Definition wfPart (p : part) : Prop := wfTier (pa_tier p) /\ wfLabel (pa_name p) /\ Forall wfCondition (pa_conds p).
Definition writePart (p : part) : jstr := partText (pa_conds p) (pa_name p) (pa_tier p).
Definition showPart (p : part) : ParsedTier := shownTier (pa_name p) (pa_conds p) (pa_tier p).
Definition laterParts (ps : list part) : jstr := concat (map (fun p => js " : " ++ writePart p) ps).

Lemma join_parts p ps : js_join (js " : ") (map writePart (p :: ps)) = writePart p ++ laterParts ps.
Proof.
  revert p. induction ps as [|p' ps IH]; intros p; [by rewrite app_nil_r|].
  change (js_join (js " : ") (map writePart (p :: p' :: ps)))
    with (writePart p ++ js " : " ++ js_join (js " : ") (map writePart (p' :: ps))).
  rewrite IH. by rewrite (app_assoc (js " : ")).
Qed.

Lemma part_head p : exists x t, writePart p = x :: t /\ x ∈ [u "p"; u "c"; u "l"; u "t"].
Proof.
  unfold writePart, partText. destruct (condition_text_cases (pa_conds p)) as [[_ ->]|(cd & l & _ & Et & ->)].
  - do 2 eexists. split; [reflexivity|set_solver].
  - rewrite Et, join_conds. destruct (conditionText_head cd) as (x & t & -> & Hx). do 2 eexists. split; [reflexivity|set_solver].
Qed.

(** *** The global loop over the parts

    For an expression [R] that matches a part as a whole and starts neither at
    a separator nor in what follows the last part. *)
Section PartLoop.
Context {A : Type} (R : regex) (read : caps -> A) (shown : part -> A).

Definition noMatchIn (s : jstr) : Prop := forall b, exec_from (length s) R {| before := b; rest := s |} = None.

Hypothesis match_part_at : forall p b s, wfPart p ->
  exists c, match_at R {| before := b; rest := writePart p ++ s |} = Some ({| before := rev (writePart p) ++ b; rest := s |}, c) /\
    read c = shown p.
Hypothesis no_match_at : forall x s b, x <> u "p" -> x <> u "c" -> x <> u "l" -> x <> u "t" ->
  match_at R {| before := b; rest := x :: s |} = None.

Lemma exec_laterParts ps s : Forall wfPart ps -> noMatchIn s -> forall n b, (length ps < n)%nat ->
  map read (exec_all n R {| before := b; rest := laterParts ps ++ s |}) = map shown ps.
Proof.
  intros Hps Hs. induction Hps as [|p ps Hp Hps IH]; intros [|n] b Hn; simpl in Hn; try lia; cbn [exec_all rest].
  - change (laterParts [] ++ s) with s. by rewrite Hs.
  - change (laterParts (p :: ps)) with ((js " : " ++ writePart p) ++ laterParts ps). rewrite <- !app_assoc.
    rewrite length_app, (exec_from_skip _ (js " : ")).
    + destruct (match_part_at p (rev (js " : ") ++ b) (laterParts ps ++ s) Hp) as (c & Hm & Hsh).
      erewrite exec_from_hit by exact Hm. cbn [map]. f_equal; [done|]. apply IH. lia.
    + intros w1 x w2 Hw. change (js " : ") with [32%N; 58%N; 32%N] in Hw.
      destruct w1 as [|? [|? [|? w1]]]; simplify_eq/=; [by apply no_match_at..|]. by destruct w1.
Qed.

Lemma exec_parts p ps s : Forall wfPart (p :: ps) -> noMatchIn s ->
  map read (rexec_all R (js_join (js " : ") (map writePart (p :: ps)) ++ s)) = map shown (p :: ps).
Proof.
  intros [Hp Hps]%Forall_cons Hs. rewrite join_parts, <- app_assoc. unfold rexec_all, at_start. cbn [exec_all rest].
  destruct (match_part_at p [] (laterParts ps ++ s) Hp) as (c & Hm & Hsh).
  erewrite exec_from_hit by exact Hm. cbn [map]. f_equal; [done|]. apply exec_laterParts; [done..|].
  assert (length ps <= length (laterParts ps))%nat.
  { clear. unfold laterParts. induction ps; cbn [length map concat]; [lia|].
    rewrite !length_app. change (length (js " : ")) with 3%nat. lia. }
  destruct (part_head p) as (x & t & -> & _). rewrite !length_app. simpl. lia.
Qed.
End PartLoop.

Notation noTier := (noMatchIn tierRe).

Lemma noTier_nil : noTier [].
Proof. intros b. reflexivity. Qed.

Lemma noTier_zero : noTier (js " : " ++ ZERO_EXPR).
Proof. intros b. vm_compute. reflexivity. Qed.

Lemma strip_unversioned x t : x <> u "v" -> stripExprVersion (x :: t) = (num_of_Z 1, x :: t).
Proof.
  intros Hx. unfold stripExprVersion. cbn [truthy_str negb].
  replace (rmatch versioned (x :: t)) with (@None caps); [done|]. unfold rmatch, match_at, versioned, at_start.
  cbn [rseq]. rewrite rx_RSeq. cbn [rx before]. rewrite rx_RLit. unfold skip_lit. change (js "v") with [u "v"].
  cbn [rest starts_with]. by rewrite (proj2 (N.eqb_neq _ _)) by congruence.
Qed.

Lemma parse_parts p ps s : Forall wfPart (p :: ps) -> noTier s ->
  parseTiersFromExpr (js_join (js " : ") (map writePart (p :: ps)) ++ s) = map showPart (p :: ps).
Proof.
  intros Hps Hs. rewrite <- (exec_parts tierRe tierOfMatch showPart) with (s := s); [|..|done|done].
  2: { intros q b t (Ht & Hl & Hc). by apply match_part. }
  2: { intros. by apply no_tier_here. }
  rewrite join_parts.
  destruct (part_head p) as (x & t & -> & Hx). unfold parseTiersFromExpr. cbn [app truthy_str negb].
  rewrite strip_unversioned; [done|]. intros ->. repeat (apply elem_of_cons in Hx as [Hx|Hx]; [done|]).
  by apply elem_of_nil in Hx.
Qed.

(** The tiers of a configuration as the generator writes them: the last of
    several tiers is the fallback, whose conditions are not written. *)
Definition partOf (n : nat) (p : nat * VisualTier) : part :=
  {| pa_conds := if (p.1 <? n - 1)%nat then vt_conditions p.2 else [];
     pa_name := str_or (vt_label p.2) (js "tier_" ++ print_int (Z.of_nat p.1 + 1)); pa_tier := p.2 |}.

Definition partsOf (tiers : list VisualTier) : list part :=
  match tiers with
  | [tier] => [{| pa_conds := vt_conditions tier; pa_name := str_or (vt_label tier) (js "default"); pa_tier := tier |}]
  | _ => map (partOf (length tiers)) (zip (seq 0 (length tiers)) tiers)
  end.

(** A tier of the editor: a label without double quotes, prices that can be
    read back, condition values made of digits, points, exponents and plus signs. *)
Definition wfVisual (tier : VisualTier) : Prop :=
  wfTier tier /\ wfLabel (vt_label tier) /\ Forall wfCondition (vt_conditions tier).

Lemma wfLabel_or a b : wfLabel a -> wfLabel b -> wfLabel (str_or a b).
Proof. unfold str_or. by destruct (truthy_str a). Qed.

Lemma tier_name_wf i : wfLabel (js "tier_" ++ print_int (Z.of_nat i + 1)).
Proof.
  apply Forall_app. split; [by repeat constructor|]. unfold print_int. case_if; [bool_hyps; lia|].
  eapply Forall_impl; [apply print_nat_dec_digits|]. intros x Hx. unfold notQuote.
  apply negb_true_iff, N.eqb_neq. apply is_digit_spec in Hx. lia.
Qed.

Lemma writePart_tierPart n p : writePart (partOf n p) = tierPart n p.
Proof. unfold writePart, partText, tierPart. cbn [pa_conds pa_name pa_tier partOf]. by destruct (p.1 <? n - 1)%nat. Qed.

Lemma partsOf_wf tiers : Forall wfVisual tiers -> Forall wfPart (partsOf tiers).
Proof.
  intros H. assert (Hz : forall n l, Forall wfPart (map (partOf n) (zip l tiers))).
  { intros n l. apply List.Forall_forall. intros p ([i t] & <- & Hit)%in_map_iff. apply in_combine_r in Hit.
    rewrite List.Forall_forall in H. destruct (H t Hit) as (Ht & Hl & Hc). split_and!; cbn [partOf pa_conds pa_name pa_tier fst snd]; [done| |].
    - apply wfLabel_or; [done|apply tier_name_wf].
    - by case_if. }
  destruct H as [|t l (Ht & Hl & Hc) Hts]; [constructor|]. destruct Hts; [|apply Hz].
  apply List.Forall_cons; [|by constructor]. split_and!; [done| |done]. apply wfLabel_or; [done|by repeat constructor].
Qed.

(** The generated text: the parts, and after a single guarded tier the price
    zero of the requests it does not take. *)
Lemma generated_text (tiers : list VisualTier) :
  tiers <> [] ->
  exists p ps s, partsOf tiers = p :: ps /\
    generateExprFromVisualConfig (Some tiers) = js_join (js " : ") (map writePart (p :: ps)) ++ s /\
    (s = [] \/ s = js " : " ++ ZERO_EXPR).
Proof.
  intros Hne. destruct tiers as [|t [|t' ts]]; [done| |].
  - cbn [partsOf generateExprFromVisualConfig]. set (p := {| pa_conds := _ |}). exists p, [].
    change (js_join (js " : ") (map writePart [p])) with (writePart p). unfold writePart, partText, p.
    cbn [pa_conds pa_name pa_tier]. cbv zeta. destruct (truthy_str (buildConditionStr (vt_conditions t))).
    + exists (js " : " ++ ZERO_EXPR). split_and!; [done| |by right]. by rewrite <- !app_assoc.
    + exists []. split_and!; [done| |by left]. by rewrite app_nil_r.
  - cbn [partsOf generateExprFromVisualConfig]. set (l := zip _ _).
    rewrite (map_ext (tierPart _) (fun q => writePart (partOf (length (t :: t' :: ts)) q)))
      by (intros; symmetry; apply writePart_tierPart).
    rewrite <- (map_map (partOf _) writePart). destruct (map (partOf _) l) as [|p ps'] eqn:Eps; [done|].
    exists p, ps', []. split_and!; [done| |by left]. by rewrite app_nil_r.
Qed.

Lemma parse_generated (tiers : list VisualTier) :
  tiers <> [] -> Forall wfVisual tiers ->
  parseTiersFromExpr (generateExprFromVisualConfig (Some tiers)) = map showPart (partsOf tiers).
Proof.
  intros Hne Hwf. assert (Hp := partsOf_wf tiers Hwf).
  destruct (generated_text tiers Hne) as (p & ps & s & Eps & -> & Hs). rewrite Eps in *.
  apply parse_parts; [done|]. destruct Hs as [->| ->]; [apply noTier_nil|apply noTier_zero].
Qed.

(** ** Properties *)

(** [C14] The price displays read what the visual editor wrote: for every
    non-empty list of tiers whose labels have no double quote, whose prices
    survive printing and whose condition values are unsigned number text, the
    tier parser applied to the generated expression gives one tier per tier,
    with the label (or the generated default name), exactly the written
    conditions with their numeric values, and for every display field the price
    of the tier, zero when the tier has none. *)
Theorem tiers_round_trip (tiers : list VisualTier) :
  tiers <> [] -> Forall wfVisual tiers ->
  parseTiersFromExpr (generateExprFromVisualConfig (Some tiers)) = map showPart (partsOf tiers).
Proof. apply parse_generated. Qed.

Lemma tiers_round_trip_witness :
  let cond := {| ci_var := VarLen; ci_op := OpLe; ci_value := inr (js "2e5") |} in
  let blank := {| ci_var := VarC; ci_op := OpGt; ci_value := inr [] |} in
  let tier l cs i o e := {| vt_label := l; vt_conditions := cs; vt_input := num_of_str (js i); vt_output := num_of_str (js o);
    vt_cache_mode := Generic; vt_extra := e |} in
  let tiers := [tier (js "std") [cond; blank; cond] "2.5"%string "15"%string [(js "cache_create_1h_unit_cost", num_of_str (js "1e-7"))];
                tier [] [cond] "5"%string "NaN"%string []] in
  parseTiersFromExpr (generateExprFromVisualConfig (Some tiers)) = map showPart (partsOf tiers) /\
  map showTier (map showPart (partsOf tiers)) =
    [(js "std", [(VarLen, OpLe, js "200000"); (VarLen, OpLe, js "200000")],
      [(js "inputPrice", js "2.5"); (js "outputPrice", js "15"); (js "cacheCreate1hPrice", js "1e-7")]);
     (js "tier_2", [], [(js "inputPrice", js "5")])].
Proof.
  cbv zeta. split; [|vm_compute; reflexivity]. apply tiers_round_trip; [done|].
  repeat (apply List.Forall_cons || apply List.Forall_nil || split); vm_compute; reflexivity.
Defined.
