(* ===== verification/TiersReopen.v ===== *)
(** * The visual tier editor reopens what it saved

    [tryParseVisualConfig] applied to the text of [generateExprFromVisualConfig]
    (features/pricing/lib/tier-expr.ts): the body pattern with its optional
    terms is matched term by term, and the configuration that comes back is the
    normalised one, so that saving it again writes the same text. *)
From stdpp Require Import prelude list strings.
From Stdlib Require Import NArith Ascii SpecFloat.
From S2P Require Import Prelude JsString JsNumber JsRegex JsMap Tiers TiersCorrect.
Open Scope js_scope.

(** ** Sequences of expressions *)

Lemma rx_rseq_cons r rs st c k : rx (rseq (r :: rs)) st c k = rx r st c (fun st' c' => rx (rseq rs) st' c' k).
Proof. by destruct rs. Qed.

(** What each element does on the text written for it. *)
Lemma run_lit l rs b t c k :
  rx (rseq (RLit l :: rs)) {| before := b; rest := js l ++ t |} c k = rx (rseq rs) {| before := rev (js l) ++ b; rest := t |} c k.
Proof. by rewrite rx_rseq_cons, rx_RLit_app. Qed.

Lemma run_key w rs b t c k :
  rx (rseq (rlitj w :: rs)) {| before := b; rest := w ++ t |} c k = rx (rseq rs) {| before := rev w ++ b; rest := t |} c k.
Proof. rewrite rx_rseq_cons. unfold rlitj. by rewrite rx_lit_spec, skip_lit_app. Qed.

Lemma run_space rs b t c k res :
  stops is_ws t -> rx (rseq rs) {| before := 32%N :: b; rest := t |} c k = Some res ->
  rx (rseq (RSpaces :: rs)) {| before := b; rest := 32%N :: t |} c k = Some res.
Proof. intros Ht Hr. rewrite rx_rseq_cons. by apply (star_class_greedy is_ws b [32%N]); [repeat constructor|..]. Qed.

Lemma run_num i v rs b s c k res :
  num_is_finite v = true -> stops signedChar s ->
  rx (rseq rs) {| before := rev (num_to_str v) ++ b; rest := s |} ((i, num_to_str v) :: c) k = Some res ->
  rx (rseq (numGroup i :: rs)) {| before := b; rest := num_to_str v ++ s |} c k = Some res.
Proof.
  intros Hv Hs Hr. rewrite rx_rseq_cons. unfold numGroup. rewrite rx_RGroup.
  apply (plus_class_greedy signedChar); [apply num_to_str_nonempty|by apply num_to_str_signed|done|]. by rewrite consumed_rev.
Qed.

Lemma num_stops_ws v s : num_is_finite v = true -> stops is_ws (num_to_str v ++ s).
Proof.
  intros Hv. pose proof (num_to_str_signed v Hv) as H. pose proof (num_to_str_nonempty v) as Hne.
  destruct H as [|x l Hx _]; [done|]. by apply signed_not_ws.
Qed.

(** [key * price], captured. *)
Lemma run_term i k v rs b s c kk res :
  num_is_finite v = true -> stops signedChar s ->
  rx (rseq rs) {| before := rev (term k v) ++ b; rest := s |} ((i, num_to_str v) :: c) kk = Some res ->
  rx (rseq (rlitj k :: RSpaces :: RLit "*" :: RSpaces :: numGroup i :: rs)) {| before := b; rest := term k v ++ s |} c kk = Some res.
Proof.
  intros Hv Hs Hr. unfold term in *. rewrite <- !app_assoc, run_key.
  change (js " * " ++ num_to_str v ++ s) with (32%N :: js "*" ++ 32%N :: num_to_str v ++ s).
  apply run_space; [done|]. rewrite run_lit. apply run_space; [by apply num_stops_ws|]. apply run_num; [done..|].
  by rewrite !rev_app_distr, <- !app_assoc in Hr.
Qed.

(** ** Optional terms *)

Definition optTerm (i : nat) (k : jstr) : regex :=
  rseq [RSpaces; RLit "+"; RSpaces; rlitj k; RSpaces; RLit "*"; RSpaces; numGroup i].

Lemma optTerm_run i k v b s c kk res :
  k <> [] -> Forall (fun x => is_word x = true) k -> num_is_finite v = true -> stops signedChar s ->
  kk {| before := rev (js " + " ++ term k v) ++ b; rest := s |} ((i, num_to_str v) :: c) = Some res ->
  rx (optTerm i k) {| before := b; rest := (js " + " ++ term k v) ++ s |} c kk = Some res.
Proof.
  intros Hne Hk Hv Hs Hr. unfold optTerm. rewrite <- app_assoc.
  change (js " + " ++ term k v ++ s) with (32%N :: js "+" ++ 32%N :: term k v ++ s).
  apply run_space; [done|]. rewrite run_lit. apply run_space.
  - destruct Hk as [|x k Hx _]; [done|]. by apply word_not_space in Hx as [? _].
  - apply run_term; [done..|]. rewrite rev_app_distr, <- app_assoc in Hr. exact Hr.
Qed.

(** The term of another variable, or the closing parenthesis, is not taken. *)
Lemma optTerm_paren i k b s c kk : rx (optTerm i k) {| before := b; rest := 41%N :: s |} c kk = None.
Proof. unfold optTerm. rewrite rx_rseq_cons, rx_no_space by done. reflexivity. Qed.

Lemma optTerm_other i k k' b s c kk :
  k <> [] -> k <> k' -> Forall (fun x => is_word x = true) k -> k' <> [] -> Forall (fun x => is_word x = true) k' ->
  rx (optTerm i k) {| before := b; rest := js " + " ++ k' ++ 32%N :: s |} c kk = None.
Proof.
  intros Hne Hd Hk Hne' Hk'. unfold optTerm, RSpaces. cbn [rseq].
  change (js " + " ++ k' ++ 32%N :: s) with ([32%N] ++ js "+" ++ [32%N] ++ (k' ++ 32%N :: s)).
  rewrite (rx_star_class is_ws _ b [32%N]); [|by repeat constructor|done|by apply (refuses_lit is_ws 43 [])].
  unfold RLit at 1. rewrite rx_lit_app.
  rewrite (rx_star_class is_ws _ _ [32%N]); [|by repeat constructor| |].
  - rewrite rx_RSeq. unfold rlitj. rewrite rx_lit_spec. unfold skip_lit. cbn [rest].
    destruct (starts_with k (k' ++ 32%N :: s)) eqn:E; [|done].
    destruct (word_prefix _ _ _ _ Hk (eq_refl : is_word 32 = false) E) as [l ->].
    rewrite <- app_assoc, drop_app_length. destruct l as [|y l]; [by rewrite app_nil_r in Hd|].
    apply Forall_app in Hk' as [_ Hl]. apply Forall_inv in Hl. by apply (starTail_word (numGroup i)).
  - destruct Hk' as [|x k' Hx _]; [done|]. by apply word_not_space in Hx as [? _].
  - destruct Hk as [|x k Hx _]; [done|]. apply (refuses_lit is_ws x k). by apply word_not_space in Hx as [? _].
Qed.

Definition optText (kvs : list (jstr * option number)) : jstr :=
  concat (map (fun p => match p.2 with Some v => js " + " ++ term p.1 v | None => [] end) kvs).

Fixpoint optCaps (i : nat) (kvs : list (jstr * option number)) (c : caps) : caps :=
  match kvs with
  | [] => c
  | (_, o) :: kvs' => optCaps (S i) kvs' (match o with Some v => (i, num_to_str v) :: c | None => c end)
  end.

Definition wfKey (k : jstr) : Prop := k <> [] /\ Forall (fun x => is_word x = true) k.
Definition wfOpt (p : jstr * option number) : Prop :=
  wfKey p.1 /\ match p.2 with Some v => num_is_finite v = true | None => True end.

Lemma optText_shape kvs :
  optText kvs = [] \/ exists k s, k ∈ map fst kvs /\ optText kvs = js " + " ++ k ++ 32%N :: s.
Proof.
  induction kvs as [|[k [v|]] kvs IH]; [by left| |].
  - right. exists k, (js "* " ++ num_to_str v ++ optText kvs). split; [left|].
    unfold optText. cbn [map concat fst snd]. unfold term. rewrite <- !app_assoc. done.
  - change (optText ((k, None) :: kvs)) with (optText kvs). destruct IH as [->|(k' & s & Hk & E)]; [by left|]. right. exists k', s. split; [by right|]. exact E.
Qed.

Lemma opts_run rest s kk res kvs : NoDup (map fst kvs) -> Forall wfOpt kvs -> forall i b c,
  rx (rseq rest) {| before := rev (optText kvs) ++ b; rest := 41%N :: s |} (optCaps i kvs c) kk = Some res ->
  rx (rseq (optTerms i (map fst kvs) ++ rest)) {| before := b; rest := optText kvs ++ 41%N :: s |} c kk = Some res.
Proof.
  intros Hnd Hwf. induction Hwf as [|[k o] kvs [[Hne Hk] Ho] Hwf IH]; intros i b c Hr; [exact Hr|].
  cbn [map fst] in Hnd. apply NoDup_cons in Hnd as [Hnk Hnd].
  cbn [map fst optTerms app]. rewrite rx_rseq_cons. fold (optTerm i k). cbn [fst snd] in *. destruct o as [v|].
  - change (optText ((k, Some v) :: kvs)) with ((js " + " ++ term k v) ++ optText kvs) in *. unfold ROpt. cbn [rx].
    rewrite <- app_assoc. erewrite (optTerm_run i k v); [reflexivity|done..| |].
    + destruct (optText_shape kvs) as [->|(k' & s' & _ & ->)]; done.
    + apply IH; [done|]. by rewrite rev_app_distr, <- app_assoc in Hr.
  - change (optText ((k, None) :: kvs)) with (optText kvs) in *. unfold ROpt. rewrite rx_alt_r; [by apply IH|].
    destruct (optText_shape kvs) as [->|(k' & s' & Hk' & ->)]; [apply optTerm_paren|].
    assert (Hin : k' ∈ map fst kvs) by done. apply list_elem_of_fmap in Hk' as ([k2 o2] & -> & Hk2).
    rewrite Forall_forall in Hwf. destruct (Hwf _ Hk2) as [[Hne' Hw'] _].
    rewrite <- !app_assoc. cbn [app]. apply optTerm_other; [done| |done..]. intros ->. by apply Hnk.
Qed.

(** ** The body of a tier *)

(** Each optional variable with the price written for it. *)
Definition extraOf (tier : VisualTier) (fk : jstr * jstr) : option number :=
  let v := extraOr0 fk.1 (vt_extra tier) in if num_eqb v num_zero then None else Some v.
Definition writtenExtras (tier : VisualTier) : list (jstr * option number) :=
  map (fun fk => (fk.2, extraOf tier fk)) BILLING_CACHE_VAR_MAP.

Lemma body_text tier :
  buildTierBodyExpr tier =
  term (js "p") (num_or_zero (vt_input tier)) ++ js " + " ++ term (js "c") (num_or_zero (vt_output tier)) ++
  optText (writtenExtras tier).
Proof.
  unfold buildTierBodyExpr, bodyTerms. rewrite join_terms. cbn [fst snd]. f_equal.
  unfold laterTerms. cbn [map concat fst snd]. rewrite <- app_assoc. do 2 f_equal.
  unfold writtenExtras, optText. generalize BILLING_CACHE_VAR_MAP. intros m. induction m as [|[f k] m IH]; [done|].
  cbn [map concat omap list_omap fst snd]. unfold extraOf at 1. cbn [fst]. cbv zeta.
  destruct (num_eqb _ _); [exact IH|]. cbn [map concat fst snd]. by rewrite IH.
Qed.

Lemma extraOf_readable tier fk v :
  wfTier tier -> fk ∈ BILLING_CACHE_VAR_MAP -> extraOf tier fk = Some v -> readable v.
Proof.
  unfold wfTier, bodyTerms, extraOf. intros H Hin Hv. apply Forall_cons in H as [_ H]. apply Forall_cons in H as [_ H].
  rewrite Forall_forall in H. apply (H (fk.2, v)). apply list_elem_of_omap. exists fk. split; [done|].
  cbv zeta in *. destruct (num_eqb (extraOr0 fk.1 (vt_extra tier)) num_zero); [done|]. by injection Hv as ->.
Qed.

Lemma base_readable tier : wfTier tier -> readable (num_or_zero (vt_input tier)) /\ readable (num_or_zero (vt_output tier)).
Proof. unfold wfTier, bodyTerms. intros [H1 [H2 _]%Forall_cons]%Forall_cons. done. Qed.

Lemma writtenExtras_keys tier : map fst (writtenExtras tier) = map snd BILLING_CACHE_VAR_MAP.
Proof. unfold writtenExtras. by rewrite map_map. Qed.

Lemma writtenExtras_wf tier : wfTier tier -> Forall wfOpt (writtenExtras tier).
Proof.
  intros H. apply Forall_forall. intros p Hp. apply list_elem_of_fmap in Hp as (fk & -> & Hin). split; cbn [fst snd].
  - repeat (apply elem_of_cons in Hin as [->|Hin]); [by repeat constructor..|]. by apply elem_of_nil in Hin.
  - destruct (extraOf tier fk) as [v|] eqn:E; [|done]. by apply (extraOf_readable tier fk v).
Qed.

Definition bodyCaps (i : nat) (tier : VisualTier) (c : caps) : caps :=
  optCaps (S (S i)) (writtenExtras tier)
    ((S i, num_to_str (num_or_zero (vt_output tier))) :: (i, num_to_str (num_or_zero (vt_input tier))) :: c).

Lemma body_run i tier rest b s c kk res :
  wfTier tier ->
  rx (rseq rest) {| before := rev (buildTierBodyExpr tier) ++ b; rest := 41%N :: s |} (bodyCaps i tier c) kk = Some res ->
  rx (rseq (bodyPat i ++ rest)) {| before := b; rest := buildTierBodyExpr tier ++ 41%N :: s |} c kk = Some res.
Proof.
  intros Ht Hr. destruct (base_readable tier Ht) as [[Hi _] [Ho _]]. rewrite body_text in *. rewrite <- !app_assoc.
  unfold bodyPat. rewrite <- app_assoc. cbn [app].
  apply (run_term i (js "p")); [done|done|].
  change (js " + " ++ ?t) with (32%N :: js "+" ++ 32%N :: t).
  apply run_space; [done|]. rewrite run_lit. apply run_space; [done|].
  apply (run_term (S i) (js "c")); [done| |].
  - destruct (optText_shape (writtenExtras tier)) as [->|(k' & s' & _ & ->)]; done.
  - rewrite <- (writtenExtras_keys tier). apply opts_run.
    + rewrite writtenExtras_keys. apply (bool_decide_unpack _). by vm_compute.
    + by apply writtenExtras_wf.
    + rewrite !rev_app_distr, <- !app_assoc in Hr. exact Hr.
Qed.

(** ** What was captured *)

Lemma cap_optCaps_lt j i kvs c : (j < i)%nat -> cap j (optCaps i kvs c) = cap j c.
Proof.
  revert i c. induction kvs as [|[k o] kvs IH]; intros i c Hj; [done|]. cbn [optCaps]. rewrite IH by lia.
  destruct o; [|done]. cbn [cap]. by rewrite (proj2 (Nat.eqb_neq _ _)) by lia.
Qed.

Definition freshFrom (i : nat) (c : caps) : Prop := forall j, (i <= j)%nat -> cap j c = None.

Lemma freshFrom_cons i j s c : (j < i)%nat -> freshFrom i c -> freshFrom i ((j, s) :: c).
Proof. intros Hj Hc n Hn. cbn [cap]. rewrite (proj2 (Nat.eqb_neq _ _)) by lia. by apply Hc. Qed.

Lemma captured_options (val : jstr * jstr -> option number) i m : 
  (forall fk v, fk ∈ m -> val fk = Some v -> num_of_str (num_to_str v) = v) ->
  forall a c, freshFrom (i + a) c ->
  omap (fun p : nat * (jstr * jstr) => (fun s => (p.2.1, num_of_str s)) <$>
      cap (i + p.1) (optCaps (i + a) (map (fun fk => (fk.2, val fk)) m) c)) (zip (seq a (length m)) m)
  = omap (fun fk => (fun v => (fk.1, v)) <$> val fk) m.
Proof.
  induction m as [|[f k] m IH]; intros Hv a c Hc; [done|]. cbn [map length seq zip zip_with omap list_omap optCaps fst snd].
  rewrite cap_optCaps_lt by lia. replace (S (i + a)) with (i + S a)%nat by lia.
  destruct (val (f, k)) as [v|] eqn:E.
  - cbn [cap]. rewrite Nat.eqb_refl. cbn [fmap option_fmap option_map]. rewrite (Hv (f, k) v) by (left || done). f_equal.
    apply IH; [intros; eapply Hv; [by right|done]|]. apply freshFrom_cons; [lia|]. intros j Hj. apply Hc. lia.
  - rewrite Hc by lia. apply IH; [intros; eapply Hv; [by right|done]|]. intros j Hj. apply Hc. lia.
Qed.

Lemma options_mget (val : jstr * jstr -> option number) m f k :
  NoDup (map fst m) -> (f, k) ∈ m -> mget f (omap (fun fk => (fun v => (fk.1, v)) <$> val fk) m) = val (f, k).
Proof.
  induction m as [|[f' k'] m IH]; intros Hnd Hin; [by apply elem_of_nil in Hin|].
  cbn [map fst] in Hnd. apply NoDup_cons in Hnd as [Hf Hnd]. cbn [omap list_omap fst].
  apply elem_of_cons in Hin as [[= -> ->]|Hin].
  - destruct (val (f', k')) as [v|]; cbn [fmap option_fmap option_map].
    + by rewrite mget_cons, bool_decide_eq_true_2.
    + apply mget_None. intros Hm. apply list_elem_of_fmap in Hm as ([f2 v2] & -> & Hm). apply list_elem_of_omap in Hm as ([f3 k3] & Hin & Hs).
      apply fmap_Some in Hs as (v & _ & [= -> ->]). apply Hf, list_elem_of_fmap. by exists (f3, k3).
  - assert (f <> f') by (intros ->; apply Hf, list_elem_of_fmap; by exists (f', k)).
    destruct (val (f', k')); cbn [fmap option_fmap option_map]; [|by apply IH].
    rewrite mget_cons, bool_decide_eq_false_2 by done. by apply IH.
Qed.

Lemma extra_fields_NoDup : NoDup (map fst BILLING_CACHE_VAR_MAP).
Proof. apply (bool_decide_unpack _). by vm_compute. Qed.

Definition savedExtras (tier : VisualTier) : list (jstr * number) :=
  omap (fun fk => (fun v => (fk.1, v)) <$> extraOf tier fk) BILLING_CACHE_VAR_MAP.

Lemma extraOf_value tier fk : num_or_zero (default num_nan (extraOf tier fk)) = extraOr0 fk.1 (vt_extra tier).
Proof.
  unfold extraOf. cbv zeta. destruct (num_eqb (extraOr0 fk.1 (vt_extra tier)) num_zero) eqn:E.
  - unfold extraOr0 in *. by rewrite (num_or_zero_eq0 _ E).
  - cbn. apply num_or_zero_idem.
Qed.

Lemma savedExtras_value tier f k :
  (f, k) ∈ BILLING_CACHE_VAR_MAP -> extraOr0 f (savedExtras tier) = extraOr0 f (vt_extra tier).
Proof.
  intros H. unfold extraOr0 at 1, savedExtras. rewrite (options_mget _ _ f k) by (apply extra_fields_NoDup || done).
  apply (extraOf_value tier (f, k)).
Qed.

(** The tier that comes back: prices normalised, the cache mode recomputed. *)
Definition reopened (name : jstr) (conds : list TierConditionInput) (tier : VisualTier) : VisualTier :=
  {| vt_label := name; vt_conditions := conds; vt_input := num_or_zero (vt_input tier); vt_output := num_or_zero (vt_output tier);
     vt_cache_mode := if num_ltb num_zero (extraOr0 (js "cache_create_1h_unit_cost") (vt_extra tier)) then Timed else Generic;
     vt_extra := map (fun p => (p.1, extraOr0 p.1 (vt_extra tier))) BILLING_CACHE_VAR_MAP |}.

Lemma captured_reopened label name conds tier c :
  wfTier tier -> cap label c = Some name -> freshFrom (S label) c ->
  capturedTier label conds (bodyCaps (S label) tier c) = reopened name conds tier.
Proof.
  intros Ht Hl Hc. destruct (base_readable tier Ht) as [[_ Hi] [_ Ho]].
  assert (Ee : capturedExtras (label + 3) (bodyCaps (S label) tier c) = savedExtras tier).
  { unfold capturedExtras, bodyCaps, writtenExtras, savedExtras. replace (S (S (S label))) with (label + 3 + 0)%nat by lia.
    rewrite captured_options; [done|by intros fk v ? ?; apply (extraOf_readable tier fk v)|].
    do 2 (apply freshFrom_cons; [lia|]). intros j Hj. apply Hc. lia. }
  unfold capturedTier, normalizeVisualTier, reopened, getCapture. cbn [pa_label pa_conditions pa_input pa_output pa_extra].
  rewrite Ee. unfold bodyCaps. rewrite !cap_optCaps_lt by lia.
  replace (label + 1)%nat with (S label) by lia. replace (label + 2)%nat with (S (S label)) by lia.
  cbn [cap]. rewrite !Nat.eqb_refl, !(proj2 (Nat.eqb_neq _ _)) by lia. rewrite Hl.
  change (default [] (Some ?x)) with x. change (default num_zero (Some ?x)) with x. rewrite Hi, Ho. f_equal.
  - unfold getTierCacheMode. cbn [pa_cache_mode pa_extra]. set (f := js "cache_create_1h_unit_cost").
    assert (Hf : (f, js "cc1h") ∈ BILLING_CACHE_VAR_MAP) by (apply (bool_decide_unpack _); by vm_compute).
    unfold savedExtras. rewrite (options_mget _ _ f _ extra_fields_NoDup Hf).
    pose proof (extraOf_value tier (f, js "cc1h")) as Ev. cbn [fst] in Ev. rewrite <- Ev.
    destruct (extraOf tier (f, js "cc1h")) as [[]|]; done.
  - apply map_ext_in. intros [f k] Hin%list_elem_of_In. f_equal. by apply (savedExtras_value tier f k).
Qed.

(** Normalising once more changes nothing. *)
Lemma extra_of_map g m f k : NoDup (map fst m) -> (f, k) ∈ m ->
  mget f (map (fun p : jstr * jstr => (p.1, g p.1)) m) = Some (g f : number).
Proof.
  intros Hnd Hin. apply mget_NoDup.
  - unfold mkeys. by rewrite map_map.
  - apply list_elem_of_fmap. by exists (f, k).
Qed.

Lemma normalize_reopened name conds tier : normalizeVisualTier (toPartial (reopened name conds tier)) = reopened name conds tier.
Proof.
  unfold normalizeVisualTier, toPartial, reopened.
  cbn [pa_label pa_conditions pa_input pa_output pa_extra vt_label vt_conditions vt_input vt_output vt_cache_mode vt_extra].
  f_equal. apply map_ext_in. intros [f k] Hin%list_elem_of_In.
  cbn [fst]. f_equal. unfold extraOr0 at 1. rewrite (extra_of_map (fun f => extraOr0 f (vt_extra tier)) _ f k extra_fields_NoDup Hin).
  apply num_or_zero_idem.
Qed.

(** ** One tier under the visual expressions *)

Lemma call_run i label tier rest b s c kk res :
  wfTier tier -> wfLabel label ->
  rx (rseq rest) {| before := rev (tierCall label tier) ++ b; rest := s |} (bodyCaps (S i) tier ((i, label) :: c)) kk = Some res ->
  rx (rseq (tierOpen i :: bodyPat (S i) ++ RLit ")" :: rest)) {| before := b; rest := tierCall label tier ++ s |} c kk = Some res.
Proof.
  intros Ht Hl Hr. destruct (tierBody_head tier) as [t Et]. rewrite rx_rseq_cons, tierCall_split.
  rewrite <- !(app_assoc _ _ s), <- app_assoc. apply rx_tierOpen; [done|by rewrite Et|].
  apply (body_run (S i) tier (RLit ")" :: rest)); [done|].
  change (41%N :: s) with (js ")" ++ s). rewrite run_lit.
  rewrite tierCall_split in Hr. rewrite !rev_app_distr, <- !app_assoc in *. exact Hr.
Qed.

(** What the editor's loop builds from one match. *)
Definition readVisual (c : caps) : VisualTier := capturedTier 2 (map toInput (parseConditionsText (getCapture 1 c))) c.

Definition reopenedConditions (cs : list TierConditionInput) : list TierConditionInput :=
  map (fun c => toInput (showCondition c)) (keptConditions cs).

Definition reopenPart (p : part) : VisualTier := reopened (pa_name p) (reopenedConditions (pa_conds p)) (pa_tier p).

Definition visualCall : list regex := tierOpen 2 :: bodyPat 3 ++ [RLit ")"].

Lemma match_at_visual st :
  match_at visualTierRe st = rx (optCond 1) st [] (fun st' c' => rx (rseq visualCall) st' c' accept).
Proof. reflexivity. Qed.

Lemma match_visual_call label tier b s c :
  wfTier tier -> wfLabel label ->
  rx (rseq visualCall) {| before := b; rest := tierCall label tier ++ s |} c accept =
    Some ({| before := rev (tierCall label tier) ++ b; rest := s |}, bodyCaps 3 tier ((2%nat, label) :: c)).
Proof. intros Ht Hl. by apply (call_run 2 label tier []). Qed.

Lemma match_visual_part p b s : wfPart p ->
  exists c, match_at visualTierRe {| before := b; rest := writePart p ++ s |} =
      Some ({| before := rev (writePart p) ++ b; rest := s |}, c) /\ readVisual c = reopenPart p.
Proof.
  destruct p as [cs label tier]. intros (Ht & Hl & Hcs). cbn [pa_conds pa_name pa_tier] in *.
  assert (Hp := parse_build_conditions cs Hcs). unfold writePart, reopenPart, reopenedConditions, partText. cbn [pa_conds pa_name pa_tier].
  assert (Hc : exists y z, tierCall label tier = u "t" :: y :: z) by by do 2 eexists.
  destruct Hc as (y & z & Hc). destruct (condition_text_cases cs) as [[Ek Et]|(cd & l & Ek & Et & Htr)].
  - rewrite Et. cbn [truthy_str]. exists (bodyCaps 3 tier [(2%nat, label)]). split.
    + rewrite match_at_visual, Hc. cbn [app]. rewrite optCond_none by done.
      rewrite !app_comm_cons, <- Hc. by apply match_visual_call.
    + unfold readVisual, getCapture. rewrite (captured_reopened 2 label) by (done || intros j Hj; do 3 (destruct j; [lia|]); done).
      unfold bodyCaps. rewrite cap_optCaps_lt by lia. by rewrite Ek.
  - rewrite Htr. exists (bodyCaps 3 tier [(2%nat, label); (1%nat, buildConditionStr cs)]). split.
    + rewrite match_at_visual, <- !app_assoc, Et. apply rx_optCond.
      * rewrite <- Ek. by apply keptConditions_kept.
      * by rewrite Hc.
      * rewrite match_visual_call by done. by rewrite !rev_app_distr, <- !app_assoc.
    + unfold readVisual, getCapture. rewrite (captured_reopened 2 label) by (done || intros j Hj; do 3 (destruct j; [lia|]); done).
      unfold bodyCaps. rewrite cap_optCaps_lt by lia. cbn [cap Nat.eqb]. change (default [] (Some ?x)) with x.
      by rewrite Hp, map_map.
Qed.

Lemma no_visual_here x s b : x <> u "p" -> x <> u "c" -> x <> u "l" -> x <> u "t" ->
  match_at visualTierRe {| before := b; rest := x :: s |} = None.
Proof.
  intros Hp Hc Hl Ht. rewrite match_at_visual, optCond_none by done. unfold visualCall. rewrite rx_rseq_cons.
  unfold tierOpen. rewrite rx_rseq_cons, rx_RLit. unfold skip_lit. change (js "tier(") with (u "t" :: js "ier(").
  cbn [rest starts_with]. by rewrite (proj2 (N.eqb_neq _ _)) by congruence.
Qed.

Lemma noVisual_nil : noMatchIn visualTierRe [].
Proof. intros b. reflexivity. Qed.

Lemma noVisual_zero : noMatchIn visualTierRe (js " : " ++ ZERO_EXPR).
Proof. intros b. vm_compute. reflexivity. Qed.

Lemma read_parts p ps s : Forall wfPart (p :: ps) -> noMatchIn visualTierRe s ->
  map readVisual (rexec_all visualTierRe (js_join (js " : ") (map writePart (p :: ps)) ++ s)) = map reopenPart (p :: ps).
Proof.
  intros Hps Hs. apply (exec_parts visualTierRe readVisual reopenPart); [|apply no_visual_here|done|done].
  intros. by apply match_visual_part.
Qed.

(** ** Writing the reopened configuration again *)

(** The value text of a condition is the canonical text of a number. *)
Definition stableCondition (c : TierConditionInput) : Prop :=
  written c = true -> num_to_str (num_of_str (valueText (ci_value c))) = valueText (ci_value c).

Lemma reopenedConditions_text cs :
  Forall stableCondition cs -> buildConditionStr (reopenedConditions cs) = buildConditionStr cs.
Proof.
  intros H. unfold buildConditionStr. change (List.filter _ cs) with (keptConditions cs). unfold reopenedConditions. f_equal.
  assert (Hk : Forall (fun c => num_to_str (num_of_str (valueText (ci_value c))) = valueText (ci_value c)) (keptConditions cs)).
  { apply List.Forall_forall. intros c [Hc Hw]%filter_In. rewrite List.Forall_forall in H. by apply H. }
  induction Hk as [|c l Hc _ IH]; [done|]. cbn [map List.filter toInput showCondition ci_value]. cbn [map]. f_equal; [|exact IH].
  unfold conditionText, toInput, showCondition. cbn [ci_var ci_op ci_value tc_var tc_op tc_value valueText]. by rewrite Hc.
Qed.

Lemma reopened_body name conds tier : buildTierBodyExpr (reopened name conds tier) = buildTierBodyExpr tier.
Proof.
  unfold buildTierBodyExpr, bodyTerms, reopened. cbn [vt_input vt_output vt_extra]. rewrite !num_or_zero_idem. do 4 f_equal.
  assert (H : forall fk, fk ∈ BILLING_CACHE_VAR_MAP ->
    extraOr0 fk.1 (map (fun p => (p.1, extraOr0 p.1 (vt_extra tier))) BILLING_CACHE_VAR_MAP) = extraOr0 fk.1 (vt_extra tier)).
  { intros [f k] Hin. cbn [fst]. unfold extraOr0 at 1.
    rewrite (extra_of_map (fun f => extraOr0 f (vt_extra tier)) _ f k extra_fields_NoDup Hin). apply num_or_zero_idem. }
  revert H. generalize (map (fun p => (p.1, extraOr0 p.1 (vt_extra tier))) BILLING_CACHE_VAR_MAP). intros ex.
  induction BILLING_CACHE_VAR_MAP as [|fk m IH]; intros H; [done|]. cbn [omap list_omap]. cbv zeta.
  rewrite (H fk) by left. rewrite IH; [done|]. intros fk' Hin. apply H. by right.
Qed.

Lemma partOf_name_truthy n p : truthy_str (pa_name (partOf n p)) = true.
Proof. cbn [partOf pa_name]. unfold str_or. by destruct (truthy_str (vt_label p.2)) eqn:E. Qed.

Lemma partText_reopened cs name tier :
  Forall stableCondition cs ->
  partText (reopenedConditions cs) name (reopened name (reopenedConditions cs) tier) = partText cs name tier.
Proof. intros H. unfold partText, tierCall. by rewrite reopenedConditions_text, reopened_body by done. Qed.

Lemma tierPart_reopened n p :
  Forall stableCondition (vt_conditions p.2) -> tierPart n (p.1, reopenPart (partOf n p)) = tierPart n p.
Proof.
  intros H. rewrite <- !writePart_tierPart. unfold writePart.
  set (q := partOf n p). assert (Hq : Forall stableCondition (pa_conds q)) by (unfold q; cbn [partOf pa_conds]; by case_if).
  rewrite <- (partText_reopened (pa_conds q) (pa_name q) (pa_tier q) Hq).
  assert (E1 : pa_conds (partOf n (p.1, reopenPart q)) = reopenedConditions (pa_conds q)).
  { unfold q. cbn [partOf pa_conds fst snd reopenPart reopened vt_conditions]. by destruct (p.1 <? n - 1)%nat. }
  assert (E2 : pa_name (partOf n (p.1, reopenPart q)) = pa_name q).
  { pose proof (partOf_name_truthy n p) as Ht. fold q in Ht.
    cbn [partOf pa_name fst snd reopenPart reopened vt_label]. unfold str_or. by rewrite Ht. }
  rewrite E1, E2. done.
Qed.

Lemma zip_again {A B C} (f : A * B -> C) (l : list A) (xs : list B) :
  zip l (map f (zip l xs)) = map (fun p => (p.1, f p)) (zip l xs).
Proof. revert xs. induction l as [|a l IH]; intros [|x xs]; [done..|]. cbn [zip zip_with map]. by rewrite IH. Qed.

Lemma partsOf_several t t' ts :
  partsOf (t :: t' :: ts) = map (partOf (length (t :: t' :: ts))) (zip (seq 0 (length (t :: t' :: ts))) (t :: t' :: ts)).
Proof. reflexivity. Qed.

Lemma generate_several t t' ts :
  generateExprFromVisualConfig (Some (t :: t' :: ts)) =
  js_join (js " : ") (map (tierPart (length (t :: t' :: ts))) (zip (seq 0 (length (t :: t' :: ts))) (t :: t' :: ts))).
Proof. reflexivity. Qed.

Lemma generate_reopened_several tiers :
  (2 <= length tiers)%nat -> Forall (fun t => Forall stableCondition (vt_conditions t)) tiers ->
  generateExprFromVisualConfig (Some (map reopenPart (partsOf tiers))) = generateExprFromVisualConfig (Some tiers).
Proof.
  intros Hn H. destruct tiers as [|t [|t' ts]]; simpl in Hn; try lia. rewrite generate_several, partsOf_several, map_map.
  set (l := t :: t' :: ts) in *. set (n := length l) in *.
  assert (Hl : length (map (fun x => reopenPart (partOf n x)) (zip (seq 0 n) l)) = n).
  { rewrite length_map, length_zip_with, length_seq. unfold n. lia. }
  assert (Hg : forall xs, length xs = n -> generateExprFromVisualConfig (Some xs) =
    js_join (js " : ") (map (tierPart n) (zip (seq 0 n) xs))).
  { intros xs Hx. destruct xs as [|x [|x' xs]]; [done..|]. rewrite generate_several. by rewrite Hx. }
  rewrite Hg by done. rewrite zip_again, map_map. f_equal. apply map_ext_in. intros [i x] Hin%in_combine_r.
  apply (tierPart_reopened n (i, x)). rewrite List.Forall_forall in H. by apply H.
Qed.

Definition singlePart (tier : VisualTier) : part :=
  {| pa_conds := vt_conditions tier; pa_name := str_or (vt_label tier) (js "default"); pa_tier := tier |}.

Lemma generate_one tier :
  generateExprFromVisualConfig (Some [tier]) =
  writePart (singlePart tier) ++ if truthy_str (buildConditionStr (vt_conditions tier)) then js " : " ++ ZERO_EXPR else [].
Proof.
  cbn [generateExprFromVisualConfig]. cbv zeta. unfold writePart, partText, singlePart. cbn [pa_conds pa_name pa_tier].
  case_if; [by rewrite <- !app_assoc|by rewrite app_nil_r].
Qed.

Lemma generate_reopened_one tier :
  Forall stableCondition (vt_conditions tier) ->
  generateExprFromVisualConfig (Some [reopenPart (singlePart tier)]) = generateExprFromVisualConfig (Some [tier]).
Proof.
  intros H. rewrite !generate_one. f_equal.
  - unfold writePart, singlePart, reopenPart. cbn [pa_conds pa_name pa_tier reopened vt_conditions vt_label].
    replace (str_or (str_or (vt_label tier) (js "default")) (js "default")) with (str_or (vt_label tier) (js "default")).
    + by apply partText_reopened.
    + unfold str_or. destruct (truthy_str (vt_label tier)) eqn:E; by rewrite ?E.
  - unfold singlePart, reopenPart. cbn [pa_conds pa_name pa_tier reopened vt_conditions]. by rewrite reopenedConditions_text.
Qed.

(** ** The parser's branches *)

Lemma versionedBody_plain x t : x <> u "v" -> versionedBody (x :: t) = x :: t.
Proof.
  intros Hx. unfold versionedBody, rmatch, match_at, at_start. rewrite rx_RSeq. cbn [rx before].
  rewrite rx_rseq_cons, rx_RLit. unfold skip_lit. change (js "v") with [u "v"].
  cbn [rest starts_with]. by rewrite (proj2 (N.eqb_neq _ _)) by congruence.
Qed.

Lemma singleRe_none x t : x <> u "t" -> rmatch singleRe (x :: t) = None.
Proof.
  intros Hx. unfold rmatch, match_at, at_start, singleRe. rewrite rx_RSeq. cbn [rx before app].
  rewrite rx_rseq_cons. unfold tierOpen. rewrite rx_rseq_cons, rx_RLit. unfold skip_lit.
  change (js "tier(") with (u "t" :: js "ier("). cbn [rest starts_with]. by rewrite (proj2 (N.eqb_neq _ _)) by congruence.
Qed.

Lemma singleRe_call label tier :
  wfTier tier -> wfLabel label -> rmatch singleRe (tierCall label tier) = Some (bodyCaps 2 tier [(1%nat, label)]).
Proof.
  intros Ht Hl. unfold rmatch, match_at, at_start. rewrite rx_RSeq. cbn [rx before].
  change singleRe with (rseq (tierOpen 1 :: bodyPat 2 ++ RLit ")" :: [REol])).
  rewrite <- (app_nil_r (tierCall label tier)).
  by rewrite (call_run 1 label tier [REol] [] [] [] accept
    ({| before := rev (tierCall label tier) ++ []; rest := [] |}, bodyCaps 2 tier [(1%nat, label)])).
Qed.

(** A configuration the generator can turn into a valid conditional: every
    tier but the last has a written condition. *)
Definition guarded (tiers : list VisualTier) : Prop :=
  Forall (fun t => keptConditions (vt_conditions t) <> []) (removelast tiers).

Lemma written_head p : keptConditions (pa_conds p) <> [] ->
  exists x t, writePart p = x :: t /\ x ∈ [u "p"; u "c"; u "l"].
Proof.
  intros Hk. unfold writePart, partText. destruct (condition_text_cases (pa_conds p)) as [[E _]|(cd & l & _ & Et & ->)]; [done|].
  rewrite Et, join_conds. destruct (conditionText_head cd) as (x & t & -> & Hx). do 2 eexists. by split.
Qed.

(** The loop over the matches, when it is reached and the text is stable. *)
Lemma tryParse_loop text x t p ps s :
  text = x :: t -> x ∈ [u "p"; u "c"; u "l"] ->
  text = js_join (js " : ") (map writePart (p :: ps)) ++ s ->
  Forall wfPart (p :: ps) -> noMatchIn visualTierRe s ->
  generateExprFromVisualConfig (Some (map reopenPart (p :: ps))) = text ->
  tryParseVisualConfig (Some text) = Some (map reopenPart (p :: ps)).
Proof.
  intros Ex Hx Et Hwf Hs Hg. assert (Hr := read_parts p ps s Hwf Hs). rewrite <- Et in Hr.
  assert (Hxt : x <> u "t" /\ x <> u "v").
  { repeat (apply elem_of_cons in Hx as [->|Hx]); [done..|]. by apply elem_of_nil in Hx. }
  destruct Hxt as [Hxt Hxv]. unfold tryParseVisualConfig. rewrite Ex at 1. cbv zeta.
  assert (Ev : versionedBody text = text) by (rewrite Ex; by apply versionedBody_plain).
  rewrite Ev. rewrite Ex at 1. rewrite singleRe_none by done.
  change (fun c => capturedTier 2 (map toInput (parseConditionsText (getCapture 1 c))) c) with readVisual.
  rewrite Hr. cbn [map].
  assert (En : normalizeVisualConfig (Some (reopenPart p :: map reopenPart ps)) = reopenPart p :: map reopenPart ps).
  { cbn [normalizeVisualConfig map]. unfold reopenPart at 1. rewrite normalize_reopened. f_equal.
    rewrite map_map. apply map_ext. intros q. apply normalize_reopened. }
  rewrite En. cbn [map] in Hg. rewrite Hg. by rewrite bool_decide_eq_true_2.
Qed.

Lemma tryParse_call name t :
  wfTier t -> wfLabel name -> tryParseVisualConfig (Some (tierCall name t)) = Some [reopened name [] t].
Proof.
  intros Ht Hl. assert (Ex : exists z, tierCall name t = u "t" :: z) by by eexists. destruct Ex as [z Ez].
  unfold tryParseVisualConfig. rewrite Ez at 1. cbv zeta.
  assert (Ev : versionedBody (tierCall name t) = tierCall name t) by (rewrite Ez; by apply versionedBody_plain).
  rewrite Ev, singleRe_call by done.
  rewrite (captured_reopened 1 name) by (done || intros j Hj; do 2 (destruct j; [lia|]); done).
  cbn [normalizeVisualConfig map]. by rewrite normalize_reopened.
Qed.

(** ** Property *)

Lemma parts_reopen (tiers : list VisualTier) :
  tiers <> [] -> Forall wfVisual tiers -> guarded tiers ->
  Forall (fun t => Forall stableCondition (vt_conditions t)) tiers ->
  tryParseVisualConfig (Some (generateExprFromVisualConfig (Some tiers))) = Some (map reopenPart (partsOf tiers)).
Proof.
  intros Hne Hwf Hg Hst. assert (Hp := partsOf_wf tiers Hwf). destruct tiers as [|t [|t' ts]]; [done| |].
  - change (partsOf [t]) with [singlePart t] in *. apply Forall_inv in Hst. pose proof (generate_reopened_one t Hst) as Hr.
    rewrite generate_one. destruct (condition_text_cases (vt_conditions t)) as [[Ek Et]|(cd & l & Ek & Et & Htr)].
    + rewrite Et. cbn [truthy_str]. rewrite app_nil_r. apply Forall_inv in Hp as (Ht & Hl & _).
      unfold writePart, partText. cbn [pa_conds singlePart]. rewrite Et. cbn [truthy_str].
      rewrite tryParse_call by done. unfold reopenPart, reopenedConditions. cbn [pa_conds pa_name pa_tier singlePart map].
      by rewrite Ek.
    + destruct (written_head (singlePart t)) as (x & u0 & Ex & Hx); [by cbn [pa_conds singlePart]; rewrite Ek|].
      eapply (tryParse_loop _ x _ (singlePart t) []); [by rewrite Ex|done|reflexivity|done| |].
      * rewrite Htr. apply noVisual_zero.
      * etransitivity; [exact Hr|apply generate_one].
  - assert (Hr := generate_reopened_several (t :: t' :: ts)). rewrite generate_several in *. rewrite partsOf_several in *.
    set (n := length (t :: t' :: ts)) in *. set (q := partOf n (0%nat, t)). set (ps := map (partOf n) (zip (seq 1 (length ts + 1)) (t' :: ts))).
    assert (El : map (partOf n) (zip (seq 0 n) (t :: t' :: ts)) = q :: ps).
    { unfold n, ps. cbn [length seq zip zip_with map]. replace (length ts + 1)%nat with (S (length ts)) by lia. done. }
    rewrite El in *. rewrite (map_ext (tierPart n) (fun p => writePart (partOf n p))) in * by (intros; symmetry; apply writePart_tierPart).
    rewrite <- (map_map (partOf n) writePart), El in *.
    destruct (written_head q) as (x & z & Ex & Hx).
    { apply Forall_inv in Hg. exact Hg. }
    eapply (tryParse_loop _ x (z ++ laterParts ps) q ps []); [by rewrite join_parts, Ex|done|by rewrite app_nil_r|done|apply noVisual_nil|].
    apply Hr; [unfold n; simpl; lia|done].
Qed.

(** What reopens is written with the same text again. *)
Lemma generate_reopened tiers :
  tiers <> [] -> Forall (fun t => Forall stableCondition (vt_conditions t)) tiers ->
  generateExprFromVisualConfig (Some (map reopenPart (partsOf tiers))) = generateExprFromVisualConfig (Some tiers).
Proof.
  destruct tiers as [|t [|t' ts]]; intros Hne H; [done| |].
  - change (partsOf [t]) with [singlePart t]. apply generate_reopened_one. by apply Forall_inv in H.
  - apply generate_reopened_several; [simpl; lia|done].
Qed.

(** [C17] The visual editor reopens what it saved: for every guarded list of
    well-formed tiers whose condition values are canonical number texts, the
    parser applied to the generated expression gives the configuration back,
    tier by tier: the label (or the generated default name), the written
    conditions with numeric values, and every price normalised; the cache mode
    is recomputed from the one-hour price. *)
Theorem visual_config_reopens (tiers : list VisualTier) :
  tiers <> [] -> Forall wfVisual tiers -> guarded tiers ->
  Forall (fun t => Forall stableCondition (vt_conditions t)) tiers ->
  tryParseVisualConfig (Some (generateExprFromVisualConfig (Some tiers))) = Some (map reopenPart (partsOf tiers)).
Proof. apply parts_reopen. Qed.

Lemma visual_config_reopens_witness :
  let cond v := {| ci_var := VarLen; ci_op := OpLe; ci_value := v |} in
  let tier l cs i o e := {| vt_label := l; vt_conditions := cs; vt_input := num_of_str (js i); vt_output := num_of_str (js o);
    vt_cache_mode := Timed; vt_extra := e |} in
  let tiers := [tier (js "std") [cond (inr (js "200000")); cond (inr []); cond (inr (js "1.5"))] "2.5"%string "15"%string
                  [(js "cache_create_1h_unit_cost", num_of_str (js "1e-7"))];
                tier [] [] "5"%string "NaN"%string []] in
  tryParseVisualConfig (Some (generateExprFromVisualConfig (Some tiers))) = Some (map reopenPart (partsOf tiers)) /\
  map (fun t => (vt_label t, length (vt_conditions t), vt_cache_mode t)) (map reopenPart (partsOf tiers)) =
    [(js "std", 2%nat, Timed); (js "tier_2", 0%nat, Generic)].
Proof.
  cbv zeta. split; [|vm_compute; reflexivity]. apply visual_config_reopens; [done| | |].
  - repeat (apply List.Forall_cons || apply List.Forall_nil || split); vm_compute; reflexivity.
  - repeat constructor. vm_compute. discriminate.
  - apply List.Forall_cons; [|by repeat constructor].
    repeat (apply List.Forall_cons; [intros H; first [discriminate H | vm_compute; reflexivity]|]). apply List.Forall_nil.
Defined.
