(* ===== verification/Checkout.v ===== *)
(** * The desktop Alipay checkout (features/wallet/lib/alipay-desktop-payment.ts,
      features/wallet/hooks/use-alipay-desktop-payment.ts)

    The hook keeps a checkout state shown to the user, refs that survive
    renders, and asynchronous functions that are suspended at an [await].  The
    model is a machine: its state holds the React state, the refs, the polling
    effect that is mounted, the armed timers and the suspended functions
    ([tasks]); one event is a call of a handler, a timer that fires, a promise
    that settles, a change of the page's visibility or the passage of time.
    Suspended functions may settle in any order.  After every event React
    renders and runs the effects whose dependencies changed ([commit]).

    Two fields only record the past: [sent], the orders that were queried, and
    [answers], the statuses the server reported.  Times are integers
    (milliseconds for the clock, seconds for an expiry). *)
From stdpp Require Import prelude list strings.
From S2P Require Import Prelude JsString JsNumber.
Open Scope js_scope.

(** ** Data and pure rules (alipay-desktop-payment.ts) *)

Inductive AlipayDesktopFlowStatus := Idle | Creating | AwaitingPayment | Success | Closed | Expired | Failed.
#[export] Instance status_eq_dec : EqDecision AlipayDesktopFlowStatus. Proof. solve_decision. Defined.

Record AlipayDesktopPayment := mkPayment { outTradeNo : jstr; payUrl : jstr; expiresAt : Z; displayAmount : number }.
#[export] Instance payment_eq_dec : EqDecision AlipayDesktopPayment. Proof. solve_decision. Defined.

Record AlipayDesktopCheckoutState := mkCheckout {
  c_open : bool; c_status : AlipayDesktopFlowStatus; c_payment : option AlipayDesktopPayment; c_errorMessage : option jstr }.

(** The gate that lets one query through at a time and remembers a newer flow
    that was turned away. *)
Record DesktopAlipayQueryGate := mkGate { activeFlow : option nat; queuedFlow : option nat }.

Definition createDesktopAlipayQueryGate : DesktopAlipayQueryGate := {| activeFlow := None; queuedFlow := None |}.

Definition tryAcquire (g : DesktopAlipayQueryGate) (flow : nat) : DesktopAlipayQueryGate * bool :=
  match activeFlow g with
  | None =>
      ({| activeFlow := Some flow; queuedFlow := if queuedFlow g === Some flow then None else queuedFlow g |}, true)
  | Some a => ({| activeFlow := Some a; queuedFlow := if (a =? flow)%nat then queuedFlow g else Some flow |}, false)
  end.

Inductive ReleaseAction := ReleaseIdle | ReleaseRetry.

Definition release (g : DesktopAlipayQueryGate) (flow currentFlow : nat) : DesktopAlipayQueryGate * ReleaseAction :=
  if negb (activeFlow g === Some flow) then (g, ReleaseIdle)
  else ({| activeFlow := None; queuedFlow := None |},
        if queuedFlow g === Some currentFlow then ReleaseRetry else ReleaseIdle).

Definition getDesktopAlipayPollDelay (attempt : nat) : Z :=
  if (attempt <? 4)%nat then 3000 else if (attempt <? 10)%nat then 5000 else 8000.

Definition isDesktopAlipayTerminal (status : AlipayDesktopFlowStatus) : bool :=
  match status with Success | Closed | Expired => true | _ => false end.

Definition isDesktopAlipayExpired (expires now : Z) : bool := (expires * 1000 <=? now)%Z.

Definition shouldPollDesktopAlipay (status : AlipayDesktopFlowStatus) (isOpen isHidden : bool) : bool :=
  isOpen && (status === AwaitingPayment) && negb isHidden.

Definition resolveDesktopAlipayStatus (tradeStatus : jstr) : AlipayDesktopFlowStatus :=
  if (tradeStatus === js "TRADE_SUCCESS") || (tradeStatus === js "TRADE_FINISHED") then Success
  else if tradeStatus === js "TRADE_CLOSED" then Closed
  else AwaitingPayment.

(** ** The hook's state *)

(** An asynchronous function suspended at an [await]. *)
Inductive Task :=
| TStart (flow : nat) (displayAmount : number)
    (* startPayment, waiting for the new order *)
| TQuery (flow : nat) (manual : bool) (payment : AlipayDesktopPayment) (caller : option nat)
    (* checkOrder, waiting for the status of the order; a polling effect may wait for it *)
| TRefresh (flow : nat) (manual : bool) (payment : AlipayDesktopPayment) (caller : option nat)
    (* checkOrder, waiting for the balance refresh of a paid order *)
| TResume (effectId : nat)
    (* runAndSchedule of a polling effect, about to go on after checkOrder *).

(** The mounted polling effect: its closure's payment and its [timer] variable. *)
Record PollEffect := mkEffect { e_id : nat; e_payment : AlipayDesktopPayment; e_timer : option nat }.

Record PollTimer := mkTimer { t_id : nat; t_effect : nat; t_delay : Z }.

Inductive Toast := ToastError (message : jstr) | ToastSuccess (message : jstr).

Record Hook := mkHook {
  ui : AlipayDesktopCheckoutState;      (* useState *)
  checking : bool;                      (* useState *)
  attempt : nat; flow : nat; paymentRef : option AlipayDesktopPayment; gate : DesktopAlipayQueryGate;   (* refs *)
  tasks : list Task; effect : option PollEffect; timers : list PollTimer; nextId : nat;
  mounted : bool; hidden : bool; now : Z; toasts : list Toast;
  sent : list jstr; answers : list (jstr * jstr) }.

Definition idleState : AlipayDesktopCheckoutState :=
  {| c_open := false; c_status := Idle; c_payment := None; c_errorMessage := None |}.

Definition initialHook (clock : Z) (isHidden : bool) : Hook :=
  {| ui := idleState; checking := false; attempt := 0; flow := 0; paymentRef := None; gate := createDesktopAlipayQueryGate;
     tasks := []; effect := None; timers := []; nextId := 0; mounted := true; hidden := isHidden; now := clock;
     toasts := []; sent := []; answers := [] |}.

(** Field updates. *)
Definition set_ui (v : AlipayDesktopCheckoutState) (h : Hook) : Hook :=
  mkHook v (checking h) (attempt h) (flow h) (paymentRef h) (gate h) (tasks h) (effect h) (timers h) (nextId h) (mounted h) (hidden h) (now h) (toasts h) (sent h) (answers h).
Definition set_checking (v : bool) (h : Hook) : Hook :=
  mkHook (ui h) v (attempt h) (flow h) (paymentRef h) (gate h) (tasks h) (effect h) (timers h) (nextId h) (mounted h) (hidden h) (now h) (toasts h) (sent h) (answers h).
Definition set_attempt (v : nat) (h : Hook) : Hook :=
  mkHook (ui h) (checking h) v (flow h) (paymentRef h) (gate h) (tasks h) (effect h) (timers h) (nextId h) (mounted h) (hidden h) (now h) (toasts h) (sent h) (answers h).
Definition set_flow (v : nat) (h : Hook) : Hook :=
  mkHook (ui h) (checking h) (attempt h) v (paymentRef h) (gate h) (tasks h) (effect h) (timers h) (nextId h) (mounted h) (hidden h) (now h) (toasts h) (sent h) (answers h).
Definition set_paymentRef (v : option AlipayDesktopPayment) (h : Hook) : Hook :=
  mkHook (ui h) (checking h) (attempt h) (flow h) v (gate h) (tasks h) (effect h) (timers h) (nextId h) (mounted h) (hidden h) (now h) (toasts h) (sent h) (answers h).
Definition set_gate (v : DesktopAlipayQueryGate) (h : Hook) : Hook :=
  mkHook (ui h) (checking h) (attempt h) (flow h) (paymentRef h) v (tasks h) (effect h) (timers h) (nextId h) (mounted h) (hidden h) (now h) (toasts h) (sent h) (answers h).
Definition set_tasks (v : list Task) (h : Hook) : Hook :=
  mkHook (ui h) (checking h) (attempt h) (flow h) (paymentRef h) (gate h) v (effect h) (timers h) (nextId h) (mounted h) (hidden h) (now h) (toasts h) (sent h) (answers h).
Definition set_effect (v : option PollEffect) (h : Hook) : Hook :=
  mkHook (ui h) (checking h) (attempt h) (flow h) (paymentRef h) (gate h) (tasks h) v (timers h) (nextId h) (mounted h) (hidden h) (now h) (toasts h) (sent h) (answers h).
Definition set_timers (v : list PollTimer) (h : Hook) : Hook :=
  mkHook (ui h) (checking h) (attempt h) (flow h) (paymentRef h) (gate h) (tasks h) (effect h) v (nextId h) (mounted h) (hidden h) (now h) (toasts h) (sent h) (answers h).
Definition set_nextId (v : nat) (h : Hook) : Hook :=
  mkHook (ui h) (checking h) (attempt h) (flow h) (paymentRef h) (gate h) (tasks h) (effect h) (timers h) v (mounted h) (hidden h) (now h) (toasts h) (sent h) (answers h).
Definition set_mounted (v : bool) (h : Hook) : Hook :=
  mkHook (ui h) (checking h) (attempt h) (flow h) (paymentRef h) (gate h) (tasks h) (effect h) (timers h) (nextId h) v (hidden h) (now h) (toasts h) (sent h) (answers h).
Definition set_hidden (v : bool) (h : Hook) : Hook :=
  mkHook (ui h) (checking h) (attempt h) (flow h) (paymentRef h) (gate h) (tasks h) (effect h) (timers h) (nextId h) (mounted h) v (now h) (toasts h) (sent h) (answers h).
Definition set_now (v : Z) (h : Hook) : Hook :=
  mkHook (ui h) (checking h) (attempt h) (flow h) (paymentRef h) (gate h) (tasks h) (effect h) (timers h) (nextId h) (mounted h) (hidden h) v (toasts h) (sent h) (answers h).
Definition set_toasts (v : list Toast) (h : Hook) : Hook :=
  mkHook (ui h) (checking h) (attempt h) (flow h) (paymentRef h) (gate h) (tasks h) (effect h) (timers h) (nextId h) (mounted h) (hidden h) (now h) v (sent h) (answers h).
Definition set_sent (v : list jstr) (h : Hook) : Hook :=
  mkHook (ui h) (checking h) (attempt h) (flow h) (paymentRef h) (gate h) (tasks h) (effect h) (timers h) (nextId h) (mounted h) (hidden h) (now h) (toasts h) v (answers h).
Definition set_answers (v : list (jstr * jstr)) (h : Hook) : Hook :=
  mkHook (ui h) (checking h) (attempt h) (flow h) (paymentRef h) (gate h) (tasks h) (effect h) (timers h) (nextId h) (mounted h) (hidden h) (now h) (toasts h) (sent h) v.

(** [setState] with a whole state, and with a function of the previous one. *)
Definition setState (s : AlipayDesktopCheckoutState) (h : Hook) : Hook := set_ui s h.

Definition uiStatus (st : AlipayDesktopFlowStatus) (s : AlipayDesktopCheckoutState) : AlipayDesktopCheckoutState :=
  {| c_open := c_open s; c_status := st; c_payment := c_payment s; c_errorMessage := None |}.
Definition withError (msg : jstr) (s : AlipayDesktopCheckoutState) : AlipayDesktopCheckoutState :=
  {| c_open := c_open s; c_status := c_status s; c_payment := c_payment s; c_errorMessage := Some msg |}.
Definition withOpen (isOpen : bool) (s : AlipayDesktopCheckoutState) : AlipayDesktopCheckoutState :=
  {| c_open := isOpen; c_status := c_status s; c_payment := c_payment s; c_errorMessage := c_errorMessage s |}.

Definition setStatus (st : AlipayDesktopFlowStatus) (h : Hook) : Hook := set_ui (uiStatus st (ui h)) h.
Definition addTask (t : Task) (h : Hook) : Hook := set_tasks (tasks h ++ [t]) h.
Definition toast (t : Toast) (h : Hook) : Hook := set_toasts (toasts h ++ [t]) h.

(** ** checkOrder *)

(** A finished [checkOrder] wakes the polling effect that awaits it. *)
Definition finishCheck (caller : option nat) (h : Hook) : Hook :=
  match caller with Some e => addTask (TResume e) h | None => h end.

(** Up to the first [await]. *)
Definition checkOrder (manual : bool) (caller : option nat) (h : Hook) : Hook :=
  match paymentRef h with
  | None => finishCheck caller h
  | Some payment =>
      if isDesktopAlipayExpired (expiresAt payment) (now h) then finishCheck caller (setStatus Expired h)
      else
        let '(g, acquired) := tryAcquire (gate h) (flow h) in
        let h := set_gate g h in
        if negb acquired then finishCheck caller h
        else
          let h := set_attempt (S (attempt h)) h in
          let h := if manual then set_checking true h else h in
          let h := set_sent (sent h ++ [outTradeNo payment]) h in
          addTask (TQuery (flow h) manual payment caller) h
  end.

(** The [finally] block, and the return to the caller. *)
Definition checkFinally (f : nat) (manual : bool) (caller : option nat) (h : Hook) : Hook :=
  let h := if manual && (flow h =? f)%nat then set_checking false h else h in
  let '(g, action) := release (gate h) f (flow h) in
  let h := set_gate g h in
  let h := match action with ReleaseRetry => checkOrder false None h | ReleaseIdle => h end in
  finishCheck caller h.

(** How a query settles: with a trade status, or without data or with an error. *)
Inductive QueryResult := QStatus (tradeStatus : jstr) | QFails.

Definition UNABLE_TO_CHECK : jstr := js "Unable to check payment status".
Definition UNABLE_TO_REFRESH : jstr := js "Unable to refresh balance".
Definition PAYMENT_SUCCESSFUL : jstr := js "Payment successful".
Definition REQUEST_FAILED : jstr := js "Payment request failed".

Definition applyStatus (next : AlipayDesktopFlowStatus) (s : AlipayDesktopCheckoutState) : AlipayDesktopCheckoutState :=
  if (c_status s === next) && (c_errorMessage s === None) then s else uiStatus next s.

Definition queryDone (f : nat) (manual : bool) (payment : AlipayDesktopPayment) (caller : option nat)
    (r : QueryResult) (h : Hook) : Hook :=
  if negb (flow h =? f)%nat then checkFinally f manual caller h
  else match r with
  | QFails => checkFinally f manual caller (if manual then set_ui (withError UNABLE_TO_CHECK (ui h)) h else h)
  | QStatus s =>
      match resolveDesktopAlipayStatus s with
      | Success => addTask (TRefresh f manual payment caller) h
      | next => checkFinally f manual caller (set_ui (applyStatus next (ui h)) h)
      end
  end.

Definition refreshDone (f : nat) (manual : bool) (caller : option nat) (refreshed : bool) (h : Hook) : Hook :=
  if negb (flow h =? f)%nat then checkFinally f manual caller h
  else
    let h := if refreshed then h else toast (ToastError UNABLE_TO_REFRESH) h in
    let h := toast (ToastSuccess PAYMENT_SUCCESSFUL) h in
    checkFinally f manual caller (set_ui (applyStatus Success (ui h)) h).

(** ** startPayment *)

Definition startPayment (amount : number) (h : Hook) : Hook :=
  let h := set_flow (S (flow h)) h in
  let h := set_checking false h in
  let h := setState {| c_open := true; c_status := Creating; c_payment := None; c_errorMessage := None |} h in
  let h := set_attempt 0 (set_paymentRef None h) in
  addTask (TStart (flow h) amount) h.

(** How the order request settles: with a response, or with an error. *)
Inductive StartResult := SResponse (data : option (jstr * jstr * Z)) (message : jstr) | SRejects.

Definition startFails (message : jstr) (h : Hook) : Hook :=
  setState {| c_open := true; c_status := Failed; c_payment := None; c_errorMessage := Some message |}
    (toast (ToastError message) h).

Definition startDone (f : nat) (amount : number) (r : StartResult) (h : Hook) : Hook :=
  if negb (flow h =? f)%nat then h
  else match r with
  | SRejects => startFails REQUEST_FAILED h
  | SResponse data message =>
      match data with
      | Some (no, url, expires) =>
          if truthy_str no && truthy_str url then
            let payment := {| outTradeNo := no; payUrl := url; expiresAt := expires; displayAmount := amount |} in
            setState {| c_open := true; c_status := AwaitingPayment; c_payment := Some payment; c_errorMessage := None |}
              (set_paymentRef (Some payment) h)
          else startFails (str_or message REQUEST_FAILED) h
      | None => startFails (str_or message REQUEST_FAILED) h
      end
  end.

Definition closeDialog (h : Hook) : Hook :=
  set_ui (withOpen false (ui h)) (set_checking false (set_flow (S (flow h)) h)).

Definition retryPayment (h : Hook) : Hook :=
  setState idleState (set_paymentRef None (set_attempt 0 (set_checking false (set_flow (S (flow h)) h)))).

(** ** The polling effect *)

(** [expireLocally]: whether it expired, and the state after. *)
Definition expireLocally (payment : AlipayDesktopPayment) (h : Hook) : bool * Hook :=
  if isDesktopAlipayExpired (expiresAt payment) (now h) then (true, setStatus Expired h) else (false, h).

Definition clearTimer (t : option nat) (h : Hook) : Hook :=
  match t with
  | Some i => set_timers (List.filter (fun x => negb (t_id x =? i)%nat) (timers h)) h
  | None => h
  end.

Definition scheduleCheck (e : PollEffect) (h : Hook) : Hook :=
  let i := nextId h in
  let h := set_timers (timers h ++ [{| t_id := i; t_effect := e_id e; t_delay := getDesktopAlipayPollDelay (attempt h) |}]) h in
  set_effect (Some {| e_id := e_id e; e_payment := e_payment e; e_timer := Some i |}) (set_nextId (S i) h).

(** The first half of [runAndSchedule]; the second follows in [resume]. *)
Definition runAndSchedule (effectId : nat) (h : Hook) : Hook := checkOrder false (Some effectId) h.

Definition isMounted (effectId : nat) (h : Hook) : option PollEffect :=
  match effect h with Some e => if (e_id e =? effectId)%nat then Some e else None | None => None end.

Definition resume (effectId : nat) (h : Hook) : Hook :=
  match isMounted effectId h with
  | None => h   (* disposed *)
  | Some e =>
      if hidden h then h
      else let '(expired, h') := expireLocally (e_payment e) h in
           if expired then h' else scheduleCheck e h'
  end.

Definition handleVisibilityChange (isHidden : bool) (h : Hook) : Hook :=
  let h := set_hidden isHidden h in
  match effect h with
  | None => h
  | Some e =>
      let h := clearTimer (e_timer e) h in
      let h := set_effect (Some {| e_id := e_id e; e_payment := e_payment e; e_timer := None |}) h in
      if isHidden then h
      else let '(expired, h') := expireLocally (e_payment e) h in
           if expired then h' else runAndSchedule (e_id e) h'
  end.

(** The effect's cleanup function. *)
Definition cleanupEffect (h : Hook) : Hook :=
  match effect h with
  | None => h
  | Some e => set_effect None (clearTimer (e_timer e) h)
  end.

(** The effect's body, run with the state of the render. *)
Definition runEffect (h : Hook) : Hook :=
  match c_payment (ui h) with
  | Some payment =>
      if c_open (ui h) && (c_status (ui h) === AwaitingPayment) then
        let e := {| e_id := nextId h; e_payment := payment; e_timer := None |} in
        let h := set_effect (Some e) (set_nextId (S (nextId h)) h) in
        let '(expired, h') := expireLocally payment h in
        if negb expired && shouldPollDesktopAlipay (c_status (ui h)) (c_open (ui h)) (hidden h)
        then scheduleCheck e h' else h'
      else h
  | None => h
  end.

(** The dependencies of the effect. *)
Definition deps (h : Hook) : bool * option AlipayDesktopPayment * AlipayDesktopFlowStatus :=
  (c_open (ui h), c_payment (ui h), c_status (ui h)).

(** A render of the state [h] when the effect last ran with the dependencies
    [d]; the effect may change the state once more (local expiry). *)
Definition render (d : bool * option AlipayDesktopPayment * AlipayDesktopFlowStatus) (h : Hook) : Hook :=
  if mounted h && negb (deps h === d) then runEffect (cleanupEffect h) else h.

Definition commit (before after : Hook) : Hook :=
  let h := render (deps before) after in render (deps after) h.

(** ** Events *)

Inductive CheckoutEvent :=
| EStart (amount : number)
| EOrder (task : nat) (r : StartResult)
| EQuery (task : nat) (r : QueryResult)
| ERefresh (task : nat) (refreshed : bool)
| EResume (task : nat)
| EPoll (timer : nat)
| EVisibility (isHidden : bool)
| ECheckNow
| EClose
| ERetry
| EAutoClose
| EUnmount
| ETick (delay : Z).

Definition takeTask (i : nat) (h : Hook) : option (Task * Hook) :=
  t ← tasks h !! i; Some (t, set_tasks (delete i (tasks h)) h).

Definition handle (e : CheckoutEvent) (h : Hook) : option Hook :=
  match e with
  | EStart amount => if mounted h then Some (startPayment amount h) else None
  | EOrder i r =>
      match takeTask i h with Some (TStart f amount, h) => Some (startDone f amount r h) | _ => None end
  | EQuery i r =>
      match takeTask i h with
      | Some (TQuery f manual p caller, h) =>
          let h := match r with QStatus s => set_answers (answers h ++ [(outTradeNo p, s)]) h | QFails => h end in
          Some (queryDone f manual p caller r h)
      | _ => None
      end
  | ERefresh i ok =>
      match takeTask i h with Some (TRefresh f manual _ caller, h) => Some (refreshDone f manual caller ok h) | _ => None end
  | EResume i => match takeTask i h with Some (TResume e, h) => Some (resume e h) | _ => None end
  | EPoll i =>
      match List.find (fun t => (t_id t =? i)%nat) (timers h) with
      | Some t => Some (runAndSchedule (t_effect t) (clearTimer (Some i) h))
      | None => None
      end
  | EVisibility b => Some (handleVisibilityChange b h)
  | ECheckNow => if mounted h then Some (checkOrder true None h) else None
  | EClose => if mounted h then Some (closeDialog h) else None
  | ERetry => if mounted h then Some (retryPayment h) else None
  | EAutoClose =>
      if mounted h && c_open (ui h) && (c_status (ui h) === Success) then Some (set_ui (withOpen false (ui h)) h) else None
  | EUnmount => if mounted h then Some (set_mounted false (cleanupEffect (set_flow (S (flow h)) h))) else None
  | ETick d => if (0 <=? d)%Z then Some (set_now (now h + d)%Z h) else None
  end.

Definition checkoutStep (e : CheckoutEvent) (h : Hook) : option Hook := commit h <$> handle e h.

Fixpoint run (es : list CheckoutEvent) (h : Hook) : option Hook :=
  match es with [] => Some h | e :: es' => h' ← checkoutStep e h; run es' h' end.

Inductive reachable : Hook -> Prop :=
| reach_init clock isHidden : reachable (initialHook clock isHidden)
| reach_step h e h' : reachable h -> checkoutStep e h = Some h' -> reachable h'.
