(* ===== verification/CheckoutCorrect.v ===== *)
(** * Correctness of the desktop checkout

    The hook refines a small specification of a checkout, whatever the order in
    which promises settle, timers fire and the user acts; at most one status
    query is in flight; and while an order is awaited on a visible page, the
    polling never stalls. *)
From stdpp Require Import prelude list strings relations.
From S2P Require Import Prelude JsString JsNumber Checkout.
Open Scope js_scope.

(** ** The specification *)

(** What a checkout promises: its phase, its order, the clock and what the
    server has said. *)
Record Spec := mkSpec {
  s_open : bool; s_status : AlipayDesktopFlowStatus; s_order : option AlipayDesktopPayment;
  s_now : Z; s_answers : list (jstr * jstr) }.

(** The server has reported this outcome for the order. *)
Definition reported (log : list (jstr * jstr)) (p : AlipayDesktopPayment) (st : AlipayDesktopFlowStatus) : Prop :=
  exists s, (outTradeNo p, s) ∈ log /\ resolveDesktopAlipayStatus s = st.

(** The actions of the specification, and which of them an event of the hook
    may perform: the expiry of the order may show at any event, everything else
    has its own cause. *)
Inductive Action := AStart | ACreated | ARefused | AReport | AExpire | AHide | AReset | AAnswer | ATick.

Definition permits (e : CheckoutEvent) (a : Action) : bool :=
  match e, a with
  | _, AExpire | EStart _, AStart | EOrder _ _, ACreated | EOrder _ _, ARefused
  | EQuery _ _, AAnswer | EQuery _ _, AReport | ERefresh _ _, AReport
  | EClose, AHide | EAutoClose, AHide | ERetry, AReset | ETick _, ATick => true
  | _, _ => false
  end.

Inductive sstep : Action -> Spec -> Spec -> Prop :=
| s_start o st p t l : sstep AStart (mkSpec o st p t l) (mkSpec true Creating None t l)
| s_created p t l : sstep ACreated (mkSpec true Creating None t l) (mkSpec true AwaitingPayment (Some p) t l)
| s_refused t l : sstep ARefused (mkSpec true Creating None t l) (mkSpec true Failed None t l)
| s_report o st p t l st' :
    reported l p st' -> sstep AReport (mkSpec o st (Some p) t l) (mkSpec o st' (Some p) t l)
| s_expire o st p t l :
    isDesktopAlipayExpired (expiresAt p) t = true -> sstep AExpire (mkSpec o st (Some p) t l) (mkSpec o Expired (Some p) t l)
| s_hide o st p t l : sstep AHide (mkSpec o st p t l) (mkSpec false st p t l)
| s_reset o st p t l : sstep AReset (mkSpec o st p t l) (mkSpec false Idle None t l)
| s_answer o st p t l a : sstep AAnswer (mkSpec o st p t l) (mkSpec o st p t (l ++ [a]))
| s_tick o st p t l d : (0 <= d)%Z -> sstep ATick (mkSpec o st p t l) (mkSpec o st p (t + d) l).

(** A step of the specification, and one that the event [e] may cause. *)
Definition anyStep (s s' : Spec) : Prop := exists a, sstep a s s'.
Definition stepBy (e : CheckoutEvent) (s s' : Spec) : Prop := exists a, permits e a = true /\ sstep a s s'.

Definition abs (h : Hook) : Spec := mkSpec (c_open (ui h)) (c_status (ui h)) (c_payment (ui h)) (now h) (answers h).

(** What the specification guarantees by itself: success is shown only for an
    order the server reported as paid. *)
Definition confirmed (s : Spec) : Prop :=
  s_status s = Success -> exists p, s_order s = Some p /\ reported (s_answers s) p Success.

Lemma reported_mono l a p st : reported l p st -> reported (l ++ [a]) p st.
Proof. intros (s & Hs & E). exists s. split; [|done]. apply elem_of_app. by left. Qed.

Lemma sstep_confirmed s s' : anyStep s s' -> confirmed s -> confirmed s'.
Proof.
  intros [a H] Hc. destruct H; unfold confirmed in *; cbn in *; intros E; try done.
  - subst. eauto.
  - by apply Hc.
  - destruct (Hc E) as (q & -> & Hq). eauto using reported_mono.
  - by apply Hc.
Qed.

Lemma rtc_confirmed s s' : rtc anyStep s s' -> confirmed s -> confirmed s'.
Proof. induction 1; eauto using sstep_confirmed. Qed.

(** Reduce the field updates and nothing else. *)
Ltac hcbn := cbn [set_ui set_checking set_attempt set_flow set_paymentRef set_gate set_tasks set_effect set_timers set_nextId set_mounted set_hidden set_now set_toasts set_sent set_answers
  ui checking attempt flow paymentRef gate tasks effect timers nextId mounted hidden now toasts sent answers
  setState setStatus addTask toast uiStatus withError withOpen c_open c_status c_payment c_errorMessage activeFlow queuedFlow] in *.

(** ** The invariant *)

Definition holder (t : Task) : list nat :=
  match t with TQuery f _ _ _ | TRefresh f _ _ _ => [f] | _ => [] end.
Definition holders (ts : list Task) : list nat := concat (map holder ts).
Definition starts (ts : list Task) : list nat :=
  concat (map (fun t => match t with TStart f _ => [f] | _ => [] end) ts).

Definition taskFlow (t : Task) : option nat :=
  match t with TStart f _ | TQuery f _ _ _ | TRefresh f _ _ _ => Some f | TResume _ => None end.

(** What a suspended function of the current flow may rely on. *)
Definition taskOk (h : Hook) (t : Task) : Prop :=
  match t with
  | TStart f _ => f = flow h -> paymentRef h = None /\ c_status (ui h) = Creating /\ c_open (ui h) = true
  | TQuery f _ p _ => f = flow h -> paymentRef h = Some p
  | TRefresh f _ p _ => f = flow h -> paymentRef h = Some p /\ reported (answers h) p Success
  | TResume _ => True
  end.

(** [extra] is the flow of a query that is being finished: it is no longer
    suspended but still holds the gate. *)
Record Inv (extra : list nat) (h : Hook) : Prop := {
  inv_payment : paymentRef h = c_payment (ui h);
  inv_gate : holders (tasks h) ++ extra = option_list (activeFlow (gate h));
  inv_flow : Forall (fun t => from_option (fun f => f <= flow h)%nat True (taskFlow t)) (tasks h);
  inv_starts : NoDup (starts (tasks h));
  inv_tasks : Forall (taskOk h) (tasks h) }.

Lemma holders_app a b : holders (a ++ b) = holders a ++ holders b.
Proof. unfold holders. by rewrite map_app, concat_app. Qed.
Lemma starts_app a b : starts (a ++ b) = starts a ++ starts b.
Proof. unfold starts. by rewrite map_app, concat_app. Qed.

(** The invariant reads these fields only. *)
Lemma Inv_same extra h h' :
  Inv extra h -> paymentRef h' = paymentRef h -> ui h' = ui h -> tasks h' = tasks h -> flow h' = flow h ->
  activeFlow (gate h') = activeFlow (gate h) -> answers h' = answers h -> Inv extra h'.
Proof.
  intros [H1 H2 H3 H4 H5] Ep Eu Et Ef Eg Ea. constructor; rewrite ?Ep, ?Eu, ?Et, ?Eg; try done.
  - by rewrite Ef.
  - eapply Forall_impl; [exact H5|]. intros [] Ht; cbn in *; rewrite ?Ef, ?Ep, ?Eu, ?Ea; done.
Qed.

(** A change of the shown state that keeps the order. *)
Lemma Inv_ui extra h s :
  Inv extra h -> c_payment s = c_payment (ui h) -> 
  c_status s = c_status (ui h) /\ c_open s = c_open (ui h) \/ c_status (ui h) <> Creating \/ paymentRef h <> None ->
  Inv extra (set_ui s h).
Proof.
  intros [H1 H2 H3 H4 H5] Ep Es. constructor; cbn; try done; [by rewrite Ep|].
  eapply Forall_impl; [exact H5|]. intros [] Ht; cbn in *; try done.
  intros Hf. destruct (Ht Hf) as (Hp & Hs & Ho). destruct Es as [[-> ->]|[Hn|Hn]]; [done|done|]. by rewrite Hp in Hn.
Qed.

(** A new flow owes nothing to the suspended functions. *)
Lemma Inv_bump extra h h' :
  Inv extra h -> flow h' = S (flow h) -> tasks h' = tasks h -> activeFlow (gate h') = activeFlow (gate h) ->
  paymentRef h' = c_payment (ui h') -> Inv extra h'.
Proof.
  intros [H1 H2 H3 H4 H5] Ef Et Eg Ep. constructor; rewrite ?Et, ?Eg; try done.
  - eapply Forall_impl; [exact H3|]. intros [] Ht; cbn in *; rewrite ?Ef; try done; lia.
  - eapply Forall_impl; [exact H3|]. intros [] Ht; cbn in *; rewrite ?Ef; try done; intros ->; lia.
Qed.

(** One more suspended function. *)
Lemma Inv_add extra extra' h t :
  Inv extra h -> holders [t] ++ extra' = extra -> from_option (fun f => f <= flow h)%nat True (taskFlow t) ->
  starts [t] = [] -> taskOk h t -> Inv extra' (addTask t h).
Proof.
  intros [H1 H2 H3 H4 H5] Eh Hf Hs Ht. constructor; cbn [addTask set_tasks ui paymentRef tasks gate flow]; try done.
  - rewrite holders_app, <- H2, <- Eh. by rewrite app_assoc.
  - apply Forall_app. by split; [|repeat constructor].
  - by rewrite starts_app, Hs, app_nil_r.
  - apply Forall_app. split; [|by repeat constructor]. exact H5.
Qed.

Lemma Inv_finish extra caller h : Inv extra h -> Inv extra (finishCheck caller h).
Proof. intros H. destruct caller; [|done]. by apply (Inv_add extra). Qed.

(** ** Refinement of the parts *)

Section Refinement.
Context {ev : CheckoutEvent}.

Definition refines (h h' : Hook) : Prop := rtc (stepBy ev) (abs h) (abs h').

Lemma refines_step a h h' : permits ev a = true -> sstep a (abs h) (abs h') -> refines h h'.
Proof. intros Hp Hs. apply rtc_once. by exists a. Qed.

Lemma permits_expire : permits ev AExpire = true.
Proof. by destruct ev. Qed.

Lemma refines_same h h' : abs h' = abs h -> refines h h'.
Proof. unfold refines. by intros ->. Qed.

Lemma refines_trans h1 h2 h3 : refines h1 h2 -> refines h2 h3 -> refines h1 h3.
Proof. unfold refines. intros H1 H2. by etrans. Qed.

Lemma abs_finish caller h : abs (finishCheck caller h) = abs h.
Proof. by destruct caller. Qed.

Lemma refines_expire extra h p :
  Inv extra h -> paymentRef h = Some p -> isDesktopAlipayExpired (expiresAt p) (now h) = true ->
  Inv extra (setStatus Expired h) /\ refines h (setStatus Expired h).
Proof.
  intros HI Hp He. split.
  - apply Inv_ui; [done|done|]. right. right. by rewrite Hp.
  - apply (refines_step AExpire); [apply permits_expire|]. unfold abs. cbn. rewrite <- (inv_payment _ _ HI), Hp. by apply s_expire.
Qed.

Lemma checkOrder_ok manual caller h :
  Inv [] h -> Inv [] (checkOrder manual caller h) /\ refines h (checkOrder manual caller h).
Proof.
  intros HI. unfold checkOrder. destruct (paymentRef h) as [p|] eqn:Ep.
  2: { split; [by apply Inv_finish|]. apply refines_same, abs_finish. }
  destruct (isDesktopAlipayExpired _ _) eqn:Ee.
  { destruct (refines_expire [] h p HI Ep Ee) as [H1 H2]. split; [by apply Inv_finish|].
    unfold refines. by rewrite abs_finish. }
  unfold tryAcquire. destruct (activeFlow (gate h)) as [a|] eqn:Eg; cbn [negb].
  { split; [|by apply refines_same; rewrite abs_finish]. apply Inv_finish. by eapply Inv_same; [exact HI|..]. }
  split.
  - cbv zeta. set (h1 := set_sent _ _) in *. assert (E1 : Inv [flow h] h1).
    { destruct HI as [H1 H2 H3 H4 H5]. rewrite Eg in H2. cbn in H2. rewrite app_nil_r in H2.
      destruct manual; (constructor; unfold h1; hcbn; [done|by rewrite H2|done|done|exact H5]). }
    assert (Hf : flow h1 = flow h /\ paymentRef h1 = Some p) by (by destruct manual). destruct Hf as [Hf Hp1]. 
    change (flow (set_sent _ _)) with (flow h1). rewrite Hf. clearbody h1.
    apply (Inv_add [flow h]); [done|done|cbn; lia|done|]. intros _. done.
  - apply refines_same. by destruct manual.
Qed.

Lemma checkFinally_ok f manual caller h :
  Inv [f] h -> Inv [] (checkFinally f manual caller h) /\ refines h (checkFinally f manual caller h).
Proof.
  intros HI. unfold checkFinally. set (h1 := if manual && _ then _ else h).
  assert (E1 : Inv [f] h1) by (unfold h1; case_if; [by eapply Inv_same; [exact HI|..]|done]).
  assert (Ea : abs h1 = abs h) by (unfold h1; by case_if).
  assert (Hg : activeFlow (gate h1) = Some f /\ holders (tasks h1) = []).
  { pose proof (inv_gate _ _ E1) as G. destruct (activeFlow (gate h1)) as [a|]; cbn in G.
    - destruct (holders (tasks h1)) as [|x l]; cbn in G; [by injection G as ->|]. injection G as _ G. by destruct l.
    - by destruct (holders (tasks h1)). }
  destruct Hg as [Hg Hh]. unfold release. rewrite Hg, bool_decide_eq_true_2 by done. cbn [negb].
  set (h2 := set_gate _ h1). assert (E2 : Inv [] h2).
  { destruct E1 as [H1 H2 H3 H4 H5]. constructor; unfold h2; hcbn; try done. by rewrite Hh. }
  assert (Ea2 : abs h2 = abs h) by done.
  destruct (queuedFlow (gate h1) === Some (flow h1)).
  - destruct (checkOrder_ok false None h2 E2) as [H1 H2]. split; [by apply Inv_finish|].
    unfold refines in *. by rewrite abs_finish, <- Ea2.
  - split; [by apply Inv_finish|]. apply refines_same. by rewrite abs_finish.
Qed.

(** ** Settling a suspended function *)

Lemma concat_map_delete {A} (g : Task -> list A) (ts : list Task) i t :
  ts !! i = Some t -> concat (map g ts) ≡ₚ g t ++ concat (map g (delete i ts)).
Proof.
  intros H. rewrite (delete_Permutation ts i t H) at 1. done.
Qed.

Lemma one_holder (l l' : list nat) (o : option nat) f : l ≡ₚ f :: l' -> l ++ [] = option_list o -> l' ++ [f] = option_list o.
Proof.
  intros Hp E. rewrite app_nil_r in E. destruct o as [a|]; cbn in *; subst l.
  - apply Permutation_singleton_l in Hp. by simplify_eq/=.
  - by apply Permutation_nil_cons in Hp.
Qed.

Lemma take_ok h i t h' :
  Inv [] h -> takeTask i h = Some (t, h') ->
  h' = set_tasks (tasks h') h /\ taskOk h t /\ Inv (holder t) h' /\
  from_option (fun f => f <= flow h)%nat True (taskFlow t) /\ Forall (fun f => f ∉ starts (tasks h')) (starts [t]).
Proof.
  intros [H1 H2 H3 H4 H5] Ht. unfold takeTask in Ht. destruct (tasks h !! i) as [t'|] eqn:E; [|done].
  cbn in Ht. injection Ht as -> <-. hcbn. pose proof (list_elem_of_lookup_2 _ _ _ E) as Hin.
  split_and!; [done|by rewrite Forall_forall in H5; apply H5| |by rewrite Forall_forall in H3; apply H3|].
  - constructor; hcbn; try done.
    + pose proof (concat_map_delete holder (tasks h) i t E) as Hp. unfold holders in *. revert Hp.
      generalize (concat (map holder (delete i (tasks h)))). intros l Hp. destruct t; cbn in *;
        try (by apply (one_holder _ _ _ _ Hp)).
      all: rewrite app_nil_r in H2 |- *; rewrite H2 in Hp; destruct (activeFlow (gate h)) as [a|]; cbn in *;
        [by apply Permutation_singleton_l in Hp | by apply Permutation_nil_l in Hp].
    + by apply Forall_delete.
    + eapply sublist_NoDup; [exact H4|]. unfold starts. clear. generalize (tasks h). intros ts. revert i.
      induction ts as [|x ts IH]; intros [|i]; [constructor..| |]; cbn; [by apply sublist_inserts_l|].
      apply sublist_app; [done|apply IH].
    + by apply Forall_delete.
  - destruct t as [f am| | |]; cbn; try by constructor. repeat constructor.
    pose proof (concat_map_delete (fun t => match t with TStart f _ => [f] | _ => [] end) (tasks h) i (TStart f am) E) as Hp.
    fold (starts (tasks h)) in Hp. rewrite Hp in H4. cbn in H4. by apply NoDup_cons in H4 as [? _].
Qed.

Lemma Inv_answer extra h a : Inv extra h -> Inv extra (set_answers (answers h ++ [a]) h).
Proof.
  intros [H1 H2 H3 H4 H5]. constructor; hcbn; try done. eapply Forall_impl; [exact H5|].
  intros [] Ht; cbn in *; try done. intros Hf. destruct (Ht Hf). eauto using reported_mono.
Qed.

Lemma applyStatus_abs next s : c_open (applyStatus next s) = c_open s /\ c_payment (applyStatus next s) = c_payment s /\
  c_status (applyStatus next s) = next.
Proof.
  unfold applyStatus. destruct (c_status s === next) eqn:E; cbn [andb]; [|done].
  bool_hyps. destruct (c_errorMessage s === None); done.
Qed.

(** A status the server reported for the order of the current flow. *)
Lemma report_ok extra h p next :
  permits ev AReport = true -> Inv extra h -> paymentRef h = Some p -> reported (answers h) p next ->
  Inv extra (set_ui (applyStatus next (ui h)) h) /\ refines h (set_ui (applyStatus next (ui h)) h).
Proof.
  intros HA HI Hp Hr. destruct (applyStatus_abs next (ui h)) as (Eo & Ep & Es). split.
  - apply Inv_ui; [done|done|]. right. right. by rewrite Hp.
  - apply (refines_step AReport); [done|]. unfold abs. cbn [set_ui ui now answers]. rewrite Eo, Ep, Es, <- (inv_payment _ _ HI), Hp. by apply s_report.
Qed.

Lemma queryDone_ok f manual p caller r h :
  permits ev AReport = true ->
  Inv [f] h -> (f = flow h -> paymentRef h = Some p) -> (f <= flow h)%nat ->
  (forall s, r = QStatus s -> reported (answers h) p (resolveDesktopAlipayStatus s)) ->
  Inv [] (queryDone f manual p caller r h) /\ refines h (queryDone f manual p caller r h).
Proof.
  intros HA HI Hp Hle Hr. unfold queryDone. destruct (Nat.eqb_spec (flow h) f) as [Ef|_]; cbn [negb]; [|by apply checkFinally_ok].
  symmetry in Ef. specialize (Hp Ef). destruct r as [s|].
  - specialize (Hr s eq_refl). destruct (resolveDesktopAlipayStatus s) eqn:E.
    4: { split; [|by apply refines_same]. apply (Inv_add [f]); [done|done|done|done|]. cbn. intros _. done. }
    all: destruct (report_ok [f] h p _ HA HI Hp Hr) as [H1 H2];
      destruct (checkFinally_ok f manual caller _ H1) as [H3 H4]; split; [done|by eapply refines_trans].
  - set (h1 := if manual then _ else h). assert (H1 : Inv [f] h1 /\ abs h1 = abs h).
    { unfold h1. destruct manual; [|done]. split; [|done]. apply Inv_ui; [done|done|by left]. }
    destruct H1 as [H1 Ha]. destruct (checkFinally_ok f manual caller h1 H1) as [H3 H4]. split; [done|].
    unfold refines in *. by rewrite <- Ha.
Qed.

Lemma refreshDone_ok f manual p caller ok h :
  permits ev AReport = true ->
  Inv [f] h -> (f = flow h -> paymentRef h = Some p /\ reported (answers h) p Success) ->
  Inv [] (refreshDone f manual caller ok h) /\ refines h (refreshDone f manual caller ok h).
Proof.
  intros HA HI Hp. unfold refreshDone. destruct (Nat.eqb_spec (flow h) f) as [Ef|_]; cbn [negb]; [|by apply checkFinally_ok].
  symmetry in Ef. destruct (Hp Ef) as [Hpay Hrep]. set (h1 := if ok then h else _). cbv zeta.
  set (h2 := toast _ h1). assert (H2 : Inv [f] h2 /\ abs h2 = abs h /\ paymentRef h2 = paymentRef h /\ answers h2 = answers h).
  { unfold h2, h1. destruct ok; (split_and!; [by eapply Inv_same; [exact HI|..]|done..]). }
  destruct H2 as (H2 & Ha & E1 & E2). destruct (report_ok [f] h2 p Success HA H2) as [H3 H4]; [by rewrite E1|by rewrite E2|].
  destruct (checkFinally_ok f manual caller _ H3) as [H5 H6]. split; [done|].
  eapply refines_trans; [|exact H6]. unfold refines in *. by rewrite <- Ha.
Qed.

Lemma startFails_ok h message :
  permits ev ARefused = true ->
  Inv [] h -> paymentRef h = None -> c_status (ui h) = Creating -> c_open (ui h) = true -> ~ In (flow h) (starts (tasks h)) ->
  Inv [] (startFails message h) /\ refines h (startFails message h).
Proof.
  intros HA [H1 H2 H3 H4 H5] Hp Hs Ho Hn. split.
  - constructor; unfold startFails; hcbn; try done. apply Forall_forall. intros t Ht. rewrite Forall_forall in H5.
    specialize (H5 t Ht). destruct t; cbn in *; try done. intros Hf. exfalso. apply Hn. rewrite <- Hf.
    apply in_concat. eexists. split; [apply in_map_iff; eexists; split; [|by apply list_elem_of_In]; reflexivity|]. by left.
  - apply (refines_step ARefused); [done|]. unfold abs, startFails. hcbn. rewrite Hs, Ho, <- H1, Hp. apply s_refused.
Qed.

Lemma startDone_ok f amount r h :
  permits ev ACreated = true -> permits ev ARefused = true ->
  Inv [] h -> (f = flow h -> paymentRef h = None /\ c_status (ui h) = Creating /\ c_open (ui h) = true) -> f ∉ starts (tasks h) ->
  Inv [] (startDone f amount r h) /\ refines h (startDone f amount r h).
Proof.
  intros HA HR HI Hp Hn. unfold startDone. destruct (Nat.eqb_spec (flow h) f) as [Ef|_]; cbn [negb]; [|by split; [|apply refines_same]].
  symmetry in Ef. destruct (Hp Ef) as (Hpay & Hst & Ho). assert (Hn' : ~ In (flow h) (starts (tasks h))) by (rewrite <- Ef; by rewrite <- list_elem_of_In).
  destruct r as [[[[no url] expires]|] message|]; try by apply startFails_ok.
  case_if; [|by apply startFails_ok]. set (p := mkPayment _ _ _ _). split.
  - destruct HI as [H1 H2 H3 H4 H5]. constructor; hcbn; try done. apply Forall_forall. intros t Ht.
    rewrite Forall_forall in H5. specialize (H5 t Ht). destruct t; cbn in *; try done; intros Hf.
    + exfalso. apply Hn'. rewrite <- Hf. apply in_concat. eexists.
      split; [apply in_map_iff; eexists; split; [|by apply list_elem_of_In]; reflexivity|]. by left.
    + exfalso. specialize (H5 Hf). congruence.
    + exfalso. destruct (H5 Hf). congruence.
  - apply (refines_step ACreated); [done|]. unfold abs. hcbn. rewrite Hst, Ho, <- (inv_payment _ _ HI), Hpay. apply s_created.
Qed.

(** ** Effects *)

Definition effectPays (h : Hook) : Prop := forall e, effect h = Some e -> paymentRef h = Some (e_payment e).

Lemma expireLocally_ok extra p h :
  Inv extra h -> paymentRef h = Some p ->
  Inv extra (expireLocally p h).2 /\ refines h (expireLocally p h).2.
Proof.
  intros HI Hp. unfold expireLocally. destruct (isDesktopAlipayExpired _ _) eqn:E; cbn [snd];
    [by apply (refines_expire extra h p)|]. split; [done|by apply refines_same].
Qed.

(** Updates that neither the invariant nor the specification sees. *)
Lemma invisible_ok h h' :
  Inv [] h -> paymentRef h' = paymentRef h -> ui h' = ui h -> tasks h' = tasks h -> flow h' = flow h ->
  gate h' = gate h -> answers h' = answers h -> now h' = now h -> Inv [] h' /\ refines h h'.
Proof.
  intros HI E1 E2 E3 E4 E5 E6 E7. split; [by eapply Inv_same; [exact HI|..]; rewrite ?E5|].
  apply refines_same. unfold abs. by rewrite E2, E6, E7.
Qed.

Lemma clearTimer_fields t h :
  let h' := clearTimer t h in
  paymentRef h' = paymentRef h /\ ui h' = ui h /\ tasks h' = tasks h /\ flow h' = flow h /\ gate h' = gate h /\
  answers h' = answers h /\ now h' = now h /\ effect h' = effect h /\ mounted h' = mounted h /\ hidden h' = hidden h /\ nextId h' = nextId h.
Proof. by destruct t. Qed.

Lemma resume_ok i h : Inv [] h -> effectPays h -> Inv [] (resume i h) /\ refines h (resume i h).
Proof.
  intros HI He. unfold resume, isMounted. destruct (effect h) as [e|] eqn:Ee; [|by split; [|apply refines_same]].
  case_if; [|by split; [|apply refines_same]]. destruct (hidden h); [by split; [|apply refines_same]|].
  destruct (expireLocally_ok [] (e_payment e) h HI (He e Ee)) as [H1 H2].
  destruct (expireLocally (e_payment e) h) as [x h'] eqn:E. cbn [snd] in *. destruct x; [done|].
  destruct (invisible_ok h' (scheduleCheck e h') H1) as [H3 H4]; [done..|]. split; [done|by eapply refines_trans].
Qed.

Lemma visibility_ok b h : Inv [] h -> effectPays h -> Inv [] (handleVisibilityChange b h) /\ refines h (handleVisibilityChange b h).
Proof.
  intros HI He. unfold handleVisibilityChange. hcbn. destruct (effect h) as [e|] eqn:Ee; [|by apply invisible_ok].
  set (h1 := set_effect _ _). destruct (clearTimer_fields (e_timer e) (set_hidden b h)) as (F1 & F2 & F3 & F4 & F5 & F6 & F7 & _).
  assert (H1 : Inv [] h1 /\ refines h h1) by (by apply invisible_ok). destruct H1 as [H1 R1]. destruct b; [done|].
  assert (Hp : paymentRef h1 = Some (e_payment e)) by (unfold h1; hcbn; rewrite F1; by apply He).
  destruct (expireLocally_ok [] (e_payment e) h1 H1 Hp) as [H2 R2].
  destruct (expireLocally (e_payment e) h1) as [x h2] eqn:E. cbn [snd] in *. destruct x; [split; [done|by eapply refines_trans]|].
  destruct (checkOrder_ok false (Some (e_id e)) h2 H2) as [H3 R3]. split; [done|]. eapply refines_trans; [exact R1|by eapply refines_trans].
Qed.

Lemma bump_ok a h h' :
  permits ev a = true -> Inv [] h -> flow h' = S (flow h) -> tasks h' = tasks h -> gate h' = gate h -> paymentRef h' = c_payment (ui h') ->
  sstep a (abs h) (abs h') -> Inv [] h' /\ refines h h'.
Proof. intros HA HI E1 E2 E3 E4 Hs. split; [by eapply Inv_bump; [exact HI|..]; rewrite ?E3|by eapply refines_step]. Qed.

Lemma startPayment_ok amount h : permits ev AStart = true -> Inv [] h -> Inv [] (startPayment amount h) /\ refines h (startPayment amount h).
Proof.
  intros HA HI. assert (Hb := Inv_bump [] h (set_paymentRef None (setState
    {| c_open := true; c_status := Creating; c_payment := None; c_errorMessage := None |} (set_flow (S (flow h)) h))) HI
    eq_refl eq_refl eq_refl eq_refl). destruct Hb as [H1 H2 H3 H4 H5]. hcbn. split.
  - destruct HI as [_ _ G3 _ _]. constructor; unfold startPayment; hcbn; try done.
    + rewrite holders_app, app_nil_r. cbn. by rewrite !app_nil_r in *.
    + apply Forall_app. split; [done|]. repeat constructor.
    + rewrite starts_app. cbn. apply NoDup_app. split_and!; [done| |apply NoDup_singleton].
      intros f Hf ->%list_elem_of_singleton. unfold starts in Hf. apply list_elem_of_In, in_concat in Hf as (l & Hl & Hf).
      apply in_map_iff in Hl as (t & <- & Ht%list_elem_of_In). rewrite Forall_forall in G3. specialize (G3 t Ht).
      destruct t; cbn in *; try done. destruct Hf as [->|[]]. lia.
    + apply Forall_app. split; [|by repeat constructor]. eapply Forall_impl; [exact H5|]. by intros [].
  - apply (refines_step AStart); [done|]. unfold abs, startPayment. hcbn. apply s_start.
Qed.

End Refinement.
Arguments refines : clear implicits.

Lemma take_abs i t h h1 : takeTask i h = Some (t, h1) -> abs h1 = abs h /\ flow h1 = flow h /\ paymentRef h1 = paymentRef h /\
  answers h1 = answers h /\ ui h1 = ui h /\ effect h1 = effect h.
Proof. unfold takeTask. destruct (tasks h !! i); [|done]. cbn. by intros [= -> <-]. Qed.

Lemma handle_ok e h h' : Inv [] h -> effectPays h -> handle e h = Some h' -> Inv [] h' /\ refines e h h'.
Proof.
  intros HI He Hh. set (ev := e). destruct e as [amount|i r|i r|i ok|i|i|b| | | | | |d]; cbn [handle] in Hh.
  - case_match; simplify_eq. by apply startPayment_ok.
  - destruct (takeTask i h) as [[[f a| | |] h1]|] eqn:Et; simplify_eq.
    destruct (take_ok _ _ _ _ HI Et) as (_ & Hok & H1 & _ & Hs). destruct (take_abs _ _ _ _ Et) as (Ea & E1 & E2 & E3 & E4 & _).
    destruct (startDone_ok (ev:=ev) f a r h1 eq_refl eq_refl H1) as [H2 R2]; [by rewrite E1, E2, E4|by apply Forall_inv in Hs|].
    split; [done|]. unfold refines in *. by rewrite <- Ea.
  - destruct (takeTask i h) as [[[|f m p cl| |] h1]|] eqn:Et; simplify_eq.
    destruct (take_ok _ _ _ _ HI Et) as (_ & Hok & H1 & Hle & _). destruct (take_abs _ _ _ _ Et) as (Ea & E1 & E2 & E3 & E4 & _).
    cbn in Hok, Hle. set (h2 := match r with QStatus s => _ | QFails => h1 end).
    assert (H2 : Inv [f] h2 /\ refines ev h h2 /\ flow h2 = flow h /\ paymentRef h2 = paymentRef h /\
      (forall s, r = QStatus s -> reported (answers h2) p (resolveDesktopAlipayStatus s))).
    { unfold h2. destruct r as [s|]; [|split_and!; [done|by apply refines_same|done..]].
      split_and!; [by apply Inv_answer| |done|done|].
      - apply (refines_step AAnswer); [done|]. rewrite <- Ea. apply s_answer.
      - intros s' [= <-]. exists s. split; [|done]. hcbn. apply elem_of_app. right. by apply list_elem_of_singleton. }
    destruct H2 as (H2 & R2 & F1 & F2 & Hr). destruct (queryDone_ok (ev:=ev) f m p cl r h2 eq_refl H2) as [H3 R3]; [rewrite F1, F2; exact Hok|by rewrite F1|done|].
    split; [done|by eapply refines_trans].
  - destruct (takeTask i h) as [[[| |f m p cl|] h1]|] eqn:Et; simplify_eq.
    destruct (take_ok _ _ _ _ HI Et) as (_ & Hok & H1 & Hle & _). destruct (take_abs _ _ _ _ Et) as (Ea & E1 & E2 & E3 & E4 & _).
    destruct (refreshDone_ok (ev:=ev) f m p cl ok h1 eq_refl H1) as [H2 R2]; [by rewrite E1, E2, E3|].
    split; [done|]. unfold refines in *. by rewrite <- Ea.
  - destruct (takeTask i h) as [[[| | |x] h1]|] eqn:Et; simplify_eq.
    destruct (take_ok _ _ _ _ HI Et) as (_ & Hok & H1 & _). destruct (take_abs _ _ _ _ Et) as (Ea & E1 & E2 & E3 & E4 & E5).
    destruct (resume_ok (ev:=ev) x h1 H1) as [H2 R2]; [intros e; rewrite E5, E2; apply He|].
    split; [done|]. unfold refines in *. by rewrite <- Ea.
  - case_match eqn:Ef; simplify_eq. destruct (clearTimer_fields (Some i) h) as (F1 & F2 & F3 & F4 & F5 & F6 & F7 & _).
    destruct (invisible_ok (ev:=ev) h (clearTimer (Some i) h) HI) as [H1 R1]; [done..|].
    destruct (checkOrder_ok (ev:=ev) false (Some (t_effect p)) _ H1) as [H2 R2]. split; [done|exact (refines_trans _ _ _ R1 R2)].
  - simplify_eq. by apply visibility_ok.
  - case_match; simplify_eq. by apply checkOrder_ok.
  - case_match; simplify_eq. apply (bump_ok AHide); [done..|apply (inv_payment _ _ HI)|]. apply s_hide.
  - case_match; simplify_eq. apply (bump_ok AReset); [done..|]. apply s_reset.
  - case_match eqn:Ec; simplify_eq. bool_hyps. split; [apply Inv_ui; [done|done|right; left; congruence]|]. apply (refines_step AHide); [done|]. apply s_hide.
  - case_match; simplify_eq. unfold cleanupEffect. hcbn. destruct (effect h) as [e|].
    + destruct (clearTimer_fields (e_timer e) (set_flow (S (flow h)) h)) as (F1 & F2 & F3 & F4 & F5 & F6 & F7 & _). split.
      * eapply Inv_bump; [exact HI|hcbn; by rewrite ?F4, ?F3, ?F5..|]. hcbn. rewrite F1, F2. apply (inv_payment _ _ HI).
      * apply refines_same. unfold abs. hcbn. by rewrite F2, F6, F7.
    + split; [|by apply refines_same]. eapply Inv_bump; [exact HI|done..|]. apply (inv_payment _ _ HI).
  - case_match eqn:Ed; simplify_eq. bool_hyps. split; [by eapply Inv_same; [exact HI|..]|]. apply (refines_step ATick); [done|]. by apply s_tick.
Qed.

(** ** What the handlers leave to the polling effect *)

(** The suspended functions that will continue a polling effect. *)
Definition wakes (i : nat) (t : Task) : Prop :=
  match t with TQuery _ _ _ c | TRefresh _ _ _ c => c = Some i | TResume j => j = i | TStart _ _ => False end.

(** Effect, timers and page are untouched, suspended functions are only added,
    and a caller will be woken. *)
Record frame (caller : option nat) (h h' : Hook) : Prop := {
  fr_effect : effect h' = effect h; fr_timers : timers h' = timers h; fr_next : nextId h' = nextId h;
  fr_mounted : mounted h' = mounted h; fr_hidden : hidden h' = hidden h; fr_now : now h' = now h;
  fr_tasks : exists ts, tasks h' = tasks h ++ ts /\ forall i, caller = Some i -> Exists (wakes i) ts }.

Lemma frame_finish caller h h' :
  frame None h h' -> frame caller h (finishCheck caller h').
Proof.
  intros [F1 F2 F3 F4 F5 F6 (ts & F7 & _)]. destruct caller as [i|]; [|constructor; try done; by exists ts].
  constructor; cbn [finishCheck addTask]; hcbn; try done. exists (ts ++ [TResume i]). rewrite F7, app_assoc. split; [done|].
  intros j [= <-]. apply Exists_app. right. by constructor.
Qed.

Lemma frame_same caller h h' :
  effect h' = effect h -> timers h' = timers h -> nextId h' = nextId h -> mounted h' = mounted h -> hidden h' = hidden h ->
  now h' = now h -> tasks h' = tasks h -> caller = None -> frame caller h h'.
Proof. intros. constructor; try done. exists []. rewrite app_nil_r. split; [done|]. by intros i ->. Qed.

Lemma frame_trans caller h1 h2 h3 : frame None h1 h2 -> frame caller h2 h3 -> frame caller h1 h3.
Proof.
  intros [A1 A2 A3 A4 A5 A6 (ts & A7 & _)] [B1 B2 B3 B4 B5 B6 (ts' & B7 & B8)]. constructor; try congruence.
  exists (ts ++ ts'). rewrite B7, A7, app_assoc. split; [done|]. intros i Hi. apply Exists_app. right. by apply B8.
Qed.

Lemma checkOrder_frame manual caller h : frame caller h (checkOrder manual caller h).
Proof.
  unfold checkOrder. destruct (paymentRef h) as [p|]; [|apply frame_finish; by apply frame_same].
  destruct (isDesktopAlipayExpired _ _); [apply frame_finish; by apply frame_same|].
  destruct (tryAcquire (gate h) (flow h)) as [g [|]]; cbn [negb]; [|apply frame_finish; by apply frame_same].
  destruct manual; (constructor; hcbn; try done; eexists; split; [done|]; intros i ->; by constructor).
Qed.

Lemma checkFinally_frame f manual caller h : frame caller h (checkFinally f manual caller h).
Proof.
  unfold checkFinally. set (h1 := if manual && _ then _ else h).
  assert (E1 : frame None h h1) by (unfold h1; case_if; by apply frame_same).
  destruct (release (gate h1) f (flow h1)) as [g act]. apply frame_finish. eapply frame_trans; [exact E1|].
  destruct act; [by apply frame_same|]. eapply frame_trans; [|apply checkOrder_frame]. by apply frame_same.
Qed.

Lemma queryDone_frame f manual p caller r h : frame caller h (queryDone f manual p caller r h).
Proof.
  unfold queryDone. case_if; [apply checkFinally_frame|]. destruct r as [s|].
  - destruct (resolveDesktopAlipayStatus s).
    4: { constructor; hcbn; try done. eexists. split; [done|]. intros i ->. by constructor. }
    all: eapply frame_trans; [|apply checkFinally_frame]; by apply frame_same.
  - eapply frame_trans; [|apply checkFinally_frame]. destruct manual; by apply frame_same.
Qed.

Lemma refreshDone_frame f manual caller ok h : frame caller h (refreshDone f manual caller ok h).
Proof.
  unfold refreshDone. case_if; [apply checkFinally_frame|]. eapply frame_trans; [|apply checkFinally_frame].
  destruct ok; by apply frame_same.
Qed.

(** *** The polling invariant *)

Definition alive (i : nat) (h : Hook) : Prop :=
  Exists (fun t => t_effect t = i) (timers h) \/ Exists (wakes i) (tasks h).

Record Polling (h : Hook) : Prop := {
  po_ids : NoDup (map t_id (timers h));
  po_bound : Forall (fun t => (t_id t < nextId h)%nat) (timers h);
  po_alive : forall e, effect h = Some e -> hidden h = false -> c_status (ui h) = AwaitingPayment -> alive (e_id e) h }.

Lemma frame_alive caller h h' i : frame caller h h' -> alive i h \/ caller = Some i -> alive i h'.
Proof.
  intros [F1 F2 F3 F4 F5 F6 (ts & F7 & F8)] [[H|H]|H].
  - left. by rewrite F2.
  - right. rewrite F7. apply Exists_app. by left.
  - right. rewrite F7. apply Exists_app. right. by apply F8.
Qed.

Lemma alive_take i k t h h1 : takeTask k h = Some (t, h1) -> alive i h -> alive i h1 \/ wakes i t.
Proof.
  unfold takeTask. destruct (tasks h !! k) as [t'|] eqn:E; [|done]. cbn. intros [= -> <-] [H|H]; [by left; left|].
  apply Exists_exists in H as (x & Hx & Hw). rewrite (delete_Permutation _ _ _ E) in Hx.
  apply elem_of_cons in Hx as [->|Hx]; [by right|]. left. right. hcbn. apply Exists_exists. eauto.
Qed.

Lemma alive_clear i k h : alive i h -> (forall t, t ∈ timers h -> t_effect t = i -> t_id t <> k) -> alive i (clearTimer (Some k) h).
Proof.
  intros [H|H] Hk; [|by right]. left. cbn. apply Exists_exists in H as (t & Ht & E). apply Exists_exists.
  exists t. split; [|done]. apply list_elem_of_In, filter_In. split; [by apply list_elem_of_In|].
  apply negb_true_iff, Nat.eqb_neq. by apply Hk.
Qed.

Lemma timers_clear_ok k h : NoDup (map t_id (timers h)) -> Forall (fun t => (t_id t < nextId h)%nat) (timers h) ->
  NoDup (map t_id (timers (clearTimer k h))) /\ Forall (fun t => (t_id t < nextId (clearTimer k h))%nat) (timers (clearTimer k h)).
Proof.
  intros Hn Hb. destruct k as [i|]; [|done]. cbn. split.
  - induction (timers h) as [|x l IH]; [constructor|]. cbn [map] in Hn. apply NoDup_cons in Hn as [Hx Hn]. apply Forall_inv_tail in Hb.
    cbn [List.filter]. case_if; [|by apply IH]. cbn [map]. constructor; [|by apply IH]. intros Hin. apply Hx.
    apply list_elem_of_fmap in Hin as (y & -> & Hy). apply list_elem_of_In, filter_In in Hy as [Hy _].
    apply list_elem_of_fmap. exists y. split; [done|by apply list_elem_of_In].
  - apply List.Forall_forall. intros x [Hx _]%filter_In. rewrite List.Forall_forall in Hb. by apply Hb.
Qed.

Lemma schedule_ok e h : NoDup (map t_id (timers h)) -> Forall (fun t => (t_id t < nextId h)%nat) (timers h) ->
  let h' := scheduleCheck e h in
  NoDup (map t_id (timers h')) /\ Forall (fun t => (t_id t < nextId h')%nat) (timers h') /\ alive (e_id e) h'.
Proof.
  intros Hn Hb. unfold scheduleCheck. hcbn. split_and!.
  - rewrite map_app. cbn. apply NoDup_app. split_and!; [done| |apply NoDup_singleton].
    intros i Hi ->%list_elem_of_singleton. apply list_elem_of_fmap in Hi as (t & E & Ht). rewrite Forall_forall in Hb.
    specialize (Hb t Ht). lia.
  - apply Forall_app. split; [eapply Forall_impl; [exact Hb|]; cbn; lia|]. repeat constructor.
  - left. hcbn. apply Exists_app. right. by constructor.
Qed.

(** The mounted effect is the one of the rendered state. *)
Definition synced (h : Hook) : Prop :=
  match effect h with
  | Some e => mounted h = true /\ deps h = (true, Some (e_payment e), AwaitingPayment)
  | None => mounted h = true -> forall p, deps h <> (true, Some p, AwaitingPayment)
  end.

Lemma synced_pays h : Inv [] h -> synced h -> effectPays h.
Proof.
  intros HI Hs e He. unfold synced in Hs. rewrite He in Hs. destruct Hs as [_ Hd]. unfold deps in Hd. injection Hd as _ Hp _.
  by rewrite (inv_payment _ _ HI).
Qed.

Definition effectShape (h : Hook) : option (nat * AlipayDesktopPayment) := (fun e => (e_id e, e_payment e)) <$> effect h.

(** The effect after a handler: the same one, perhaps with another timer, or
    none after unmounting. *)
Definition keepsEffect (h h' : Hook) : Prop :=
  effectShape h' = effectShape h /\ mounted h' = mounted h \/ mounted h' = false /\ effect h' = None.

Lemma awaiting_of_synced h e : synced h -> effect h = Some e -> c_status (ui h) = AwaitingPayment.
Proof. unfold synced. intros Hs He. rewrite He in Hs. destruct Hs as [_ Hd]. by injection Hd. Qed.

Lemma still_polling h h' :
  synced h -> Polling h -> effect h' = effect h -> timers h' = timers h -> nextId h' = nextId h -> mounted h' = mounted h ->
  hidden h' = hidden h -> (forall e, effect h = Some e -> alive (e_id e) h -> alive (e_id e) h') ->
  Polling h' /\ keepsEffect h h'.
Proof.
  intros Hs [P1 P2 P3] F1 F2 F3 F4 F5 Fa. split.
  - constructor; rewrite ?F2, ?F3; try done. intros e He Hh _. rewrite F1 in He. apply Fa; [done|]. apply P3; [done|congruence|].
    by eapply awaiting_of_synced.
  - left. unfold effectShape. by rewrite F1.
Qed.

Lemma frame_poll caller h h' : frame caller h h' -> synced h -> Polling h -> Polling h' /\ keepsEffect h h'.
Proof.
  intros F Hs HP. pose proof (fun i => frame_alive _ _ _ i F) as Fa. destruct F. apply still_polling; try done. auto.
Qed.

(** A suspended function that settles hands its caller over. *)
Lemma settle_poll k t caller h h1 h2 h' :
  takeTask k h = Some (t, h1) -> (forall i, wakes i t -> caller = Some i) ->
  (h2 = h1 \/ exists l, h2 = set_answers l h1) -> frame caller h2 h' ->
  synced h -> Polling h -> Polling h' /\ keepsEffect h h'.
Proof.
  intros Ht Hw Ha F Hs HP. pose proof (fun i => frame_alive _ _ _ i F) as Fa.
  assert (E : effect h2 = effect h /\ timers h2 = timers h /\ nextId h2 = nextId h /\ mounted h2 = mounted h /\ hidden h2 = hidden h /\
    forall i, alive i h1 -> alive i h2).
  { unfold takeTask in Ht. destruct (tasks h !! k); [|done]. cbn in Ht. injection Ht as _ <-. by destruct Ha as [->|[l ->]]. }
  destruct E as (E1 & E2 & E3 & E4 & E5 & E6). destruct F. apply still_polling; try congruence.
  intros e _ Hi. apply Fa. destruct (alive_take _ _ _ _ _ Ht Hi) as [H|H]; [left; by apply E6|right; by apply Hw].
Qed.

Lemma start_poll f amount r h : let h' := startDone f amount r h in
  effect h' = effect h /\ timers h' = timers h /\ nextId h' = nextId h /\ mounted h' = mounted h /\ hidden h' = hidden h /\ tasks h' = tasks h /\ now h' = now h.
Proof.
  unfold startDone. destruct (negb _); [done|]. destruct r as [[[[no url] x]|] m|]; try done. by destruct (truthy_str no && truthy_str url).
Qed.


Lemma isMounted_Some i h e : isMounted i h = Some e -> effect h = Some e /\ e_id e = i.
Proof. unfold isMounted. destruct (effect h) as [x|]; [|done]. case_if; [|done]. intros [= ->]. by apply Nat.eqb_eq in Heqb. Qed.

Lemma resume_poll x k h h1 :
  takeTask k h = Some (TResume x, h1) -> synced h -> Polling h -> Polling (resume x h1) /\ keepsEffect h (resume x h1).
Proof.
  intros Ht Hs HP. assert (E : h1 = set_tasks (tasks h1) h).
  { unfold takeTask in Ht. destruct (tasks h !! k); [|done]. cbn in Ht. by injection Ht as _ <-. }
  assert (E1 : effect h1 = effect h /\ timers h1 = timers h /\ nextId h1 = nextId h /\ mounted h1 = mounted h /\ hidden h1 = hidden h)
    by (rewrite E; done). destruct E1 as (E1 & E2 & E3 & E4 & E5).
  assert (K : effectShape h1 = effectShape h) by (unfold effectShape; by rewrite E1).
  unfold resume. destruct (isMounted x h1) as [e|] eqn:Em.
  2: { apply still_polling; try done. intros e He Ha. destruct (alive_take _ _ _ _ _ Ht Ha) as [|Hw]; [done|].
       cbn in Hw. unfold isMounted in Em. rewrite E1, He in Em. by rewrite (proj2 (Nat.eqb_eq _ _)) in Em. }
  apply isMounted_Some in Em as [Em Ex]. destruct HP as [P1 P2 P3]. destruct (hidden h1) eqn:Eh.
  { split; [|by left]. constructor; rewrite ?E2, ?E3; try done. intros. congruence. }
  unfold expireLocally. destruct (isDesktopAlipayExpired _ _).
  { split; [|left; split; [exact K|exact E4]]. constructor; hcbn; rewrite ?E2, ?E3; try done. }
  destruct (schedule_ok e h1) as (S1 & S2 & S3); [by rewrite E2|by rewrite E2, E3|]. split.
  - constructor; try done. intros e' He'. cbn in He'. injection He' as <-. done.
  - left. split; [|exact E4]. change (effectShape (scheduleCheck e h1)) with (Some (e_id e, e_payment e)). rewrite <- K. unfold effectShape. by rewrite Em.
Qed.

Lemma poll_poll i t h :
  List.find (fun t => (t_id t =? i)%nat) (timers h) = Some t -> synced h -> Polling h ->
  Polling (runAndSchedule (t_effect t) (clearTimer (Some i) h)) /\ keepsEffect h (runAndSchedule (t_effect t) (clearTimer (Some i) h)).
Proof.
  intros Hf Hs [P1 P2 P3]. apply find_some in Hf as [Hin Hi]. apply Nat.eqb_eq in Hi.
  destruct (clearTimer_fields (Some i) h) as (_ & _ & _ & _ & _ & _ & _ & F1 & F2 & F3 & F4).
  destruct (timers_clear_ok (Some i) h P1 P2) as [T1 T2]. set (h1 := clearTimer (Some i) h) in *.
  pose proof (checkOrder_frame false (Some (t_effect t)) h1) as F. pose proof (fun j => frame_alive _ _ _ j F) as Fa.
  unfold runAndSchedule. destruct F as [G1 G2 G3 G4 G5 G6 G7]. split.
  - constructor; rewrite ?G2, ?G3; try done. intros e He Hh _. rewrite G1, F1 in He. apply Fa.
    destruct (decide (t_effect t = e_id e)) as [->|Hne]; [by right|]. left. apply alive_clear.
    + apply P3; [done|congruence|]. by eapply awaiting_of_synced.
    + intros t' Ht' Et' E. apply Hne. rewrite <- Et'. f_equal.
      apply list_elem_of_In in Hin. apply list_elem_of_lookup_1 in Hin as [a Ha], Ht' as [b Hb].
      assert (a = b) as <-; [|congruence]. eapply NoDup_lookup; [exact P1|by rewrite list_lookup_fmap, Ha|].
      rewrite list_lookup_fmap, Hb. cbn. by f_equal; rewrite E.
  - left. unfold effectShape. rewrite G1, F1, G4. done.
Qed.

Lemma visibility_poll b h : synced h -> Polling h ->
  Polling (handleVisibilityChange b h) /\ keepsEffect h (handleVisibilityChange b h).
Proof.
  intros Hs [P1 P2 P3]. unfold handleVisibilityChange. hcbn. destruct (effect h) as [e|] eqn:Ee.
  2: { split; [constructor; hcbn; try done; intros; congruence|by left]. }
  destruct (timers_clear_ok (e_timer e) (set_hidden b h) P1 P2) as [T1 T2].
  destruct (clearTimer_fields (e_timer e) (set_hidden b h)) as (_ & _ & _ & _ & _ & _ & _ & F1 & F2 & F3 & F4).
  set (h1 := set_effect _ _). assert (K : effectShape h1 = effectShape h) by (unfold effectShape, h1; cbn; by rewrite Ee).
  assert (M : mounted h1 = mounted h) by (unfold h1; hcbn; by rewrite F2).
  destruct b; [split; [|by left]; constructor; [done|done|]; intros ? ? Hh; unfold h1 in Hh; hcbn; rewrite F3 in Hh; done|].
  unfold expireLocally. destruct (isDesktopAlipayExpired _ _); [split; [|by left]; by constructor|].
  pose proof (checkOrder_frame false (Some (e_id e)) h1) as F. pose proof (fun j => frame_alive _ _ _ j F) as Fa.
  unfold runAndSchedule. destruct F as [G1 G2 G3 G4 G5 G6 G7]. split.
  - constructor; rewrite ?G2, ?G3; [exact T1|exact T2|]. intros e' He' _ _. rewrite G1 in He'. cbn in He'. injection He' as <-.
    apply Fa. by right.
  - left. unfold effectShape in *. rewrite G1, G4. done.
Qed.

Lemma handle_poll e h h' :
  handle e h = Some h' -> synced h -> Polling h -> Polling h' /\ keepsEffect h h'.
Proof.
  intros Hh Hs HP. destruct e as [amount|i r|i r|i ok|i|i|b| | | | | |d]; cbn [handle] in Hh.
  - case_match; simplify_eq. apply still_polling; try done. intros e _ [Ha|Ha]; [by left|right].
    unfold startPayment. hcbn. apply Exists_app. by left.
  - destruct (takeTask i h) as [[[f a| | |] h1]|] eqn:Et; simplify_eq. destruct (start_poll f a r h1) as (S1 & S2 & S3 & S4 & S5 & S6 & S7).
    eapply (settle_poll _ _ None); [exact Et|done|by left|by apply frame_same|done..].
  - destruct (takeTask i h) as [[[|f m p cl| |] h1]|] eqn:Et; simplify_eq.
    eapply (settle_poll _ _ cl); [exact Et|done| |apply queryDone_frame|done..]. destruct r; [right|left]; eauto.
  - destruct (takeTask i h) as [[[| |f m p cl|] h1]|] eqn:Et; simplify_eq.
    eapply (settle_poll _ _ cl); [exact Et|done|by left|apply refreshDone_frame|done..].
  - destruct (takeTask i h) as [[[| | |x] h1]|] eqn:Et; simplify_eq. by eapply resume_poll.
  - case_match eqn:Ef; simplify_eq. by apply poll_poll.
  - simplify_eq. by apply visibility_poll.
  - case_match; simplify_eq. eapply frame_poll; [apply checkOrder_frame|done..].
  - case_match; simplify_eq. by apply still_polling.
  - case_match; simplify_eq. by apply still_polling.
  - case_match; simplify_eq. by apply still_polling.
  - case_match; simplify_eq. destruct HP as [P1 P2 P3]. unfold cleanupEffect. hcbn. destruct (effect h) as [e|] eqn:Ee.
    + destruct (timers_clear_ok (e_timer e) (set_flow (S (flow h)) h) P1 P2) as [T1 T2]. split; [by constructor|by right].
    + split; [|by right]. constructor; try done. intros e He. hcbn. congruence.
  - case_match; simplify_eq. by apply still_polling.
Qed.

(** ** Rendering *)

Lemma cleanup_fields h : let h' := cleanupEffect h in
  paymentRef h' = paymentRef h /\ ui h' = ui h /\ tasks h' = tasks h /\ flow h' = flow h /\ gate h' = gate h /\
  answers h' = answers h /\ now h' = now h /\ effect h' = None /\ mounted h' = mounted h /\ hidden h' = hidden h /\ nextId h' = nextId h.
Proof.
  unfold cleanupEffect. destruct (effect h) as [e|] eqn:Ee; [|by rewrite Ee].
  destruct (clearTimer_fields (e_timer e) h) as (F1 & F2 & F3 & F4 & F5 & F6 & F7 & F8 & F9 & F10 & F11). hcbn. by split_and!.
Qed.

Lemma cleanup_timers h : NoDup (map t_id (timers h)) -> Forall (fun t => (t_id t < nextId h)%nat) (timers h) ->
  NoDup (map t_id (timers (cleanupEffect h))) /\
  Forall (fun t => (t_id t < nextId (cleanupEffect h))%nat) (timers (cleanupEffect h)).
Proof. unfold cleanupEffect. destruct (effect h); [|done]. apply timers_clear_ok. Qed.

Section Rendering.
Context {ev : CheckoutEvent}.

(** The effect's body on a state without effect. *)
Lemma runEffect_ok h :
  Inv [] h -> effect h = None -> Inv [] (runEffect h) /\ refines ev h (runEffect h) /\ mounted (runEffect h) = mounted h.
Proof.
  intros HI He. unfold runEffect. destruct (c_payment (ui h)) as [p|] eqn:Ep; [|split_and!; [done|by apply refines_same|done]].
  case_if; [|split_and!; [done|by apply refines_same|done]]. set (e := mkEffect _ _ _). set (h1 := set_effect _ _).
  destruct (invisible_ok (ev:=ev) h h1 HI) as [H1 R1]; [done..|].
  destruct (expireLocally_ok (ev:=ev) [] p h1 H1) as [H2 R2]; [unfold h1; hcbn; by rewrite (inv_payment _ _ HI)|].
  assert (M : mounted (expireLocally p h1).2 = mounted h) by (unfold expireLocally; by destruct (isDesktopAlipayExpired _ _)).
  destruct (expireLocally p h1) as [x h2] eqn:E. cbn [snd] in *. case_if.
  - destruct (invisible_ok (ev:=ev) h2 (scheduleCheck e h2) H2) as [H3 R3]; [done..|].
    split_and!; [done|exact (refines_trans _ _ _ R1 (refines_trans _ _ _ R2 R3))|done].
  - split_and!; [done|exact (refines_trans _ _ _ R1 R2)|done].
Qed.

Lemma runEffect_mounted h : mounted (runEffect h) = mounted h.
Proof.
  unfold runEffect, expireLocally. destruct (c_payment (ui h)); [|done]. case_if; [|done].
  destruct (isDesktopAlipayExpired _ _); [done|]. cbn [negb]. by case_if.
Qed.

(** It leaves a synchronised, polling state, or an expired one. *)
Lemma runEffect_poll h :
  NoDup (map t_id (timers h)) -> Forall (fun t => (t_id t < nextId h)%nat) (timers h) -> effect h = None -> mounted h = true ->
  Polling (runEffect h) /\ (synced (runEffect h) /\ deps (runEffect h) = deps h \/
    c_status (ui h) = AwaitingPayment /\ c_status (ui (runEffect h)) = Expired).
Proof.
  intros P1 P2 He Hm. assert (Q : (forall p, deps h <> (true, Some p, AwaitingPayment)) -> 
    Polling h /\ (synced h /\ deps h = deps h \/ c_status (ui h) = AwaitingPayment /\ c_status (ui h) = Expired)).
  { intros Hd. split; [constructor; try done; intros; congruence|]. left. split; [|done]. unfold synced. by rewrite He. }
  unfold runEffect. destruct (c_payment (ui h)) as [p|] eqn:Ep; [|apply Q; unfold deps; rewrite Ep; done].
  destruct (c_open (ui h) && (c_status (ui h) === AwaitingPayment)) eqn:Ec; [|apply Q; unfold deps; intros q [= Eo Eq Es]].
  2: { by rewrite Eo, Es in Ec. }
  apply andb_true_iff in Ec as [Eo Es]. bool_hyps. set (e := mkEffect _ _ _). set (h1 := set_effect _ _).
  assert (T : Forall (fun t => (t_id t < nextId h1)%nat) (timers h1)) by (eapply Forall_impl; [exact P2|]; cbn; lia).
  unfold expireLocally. destruct (isDesktopAlipayExpired _ _); cbn [negb andb].
  { split; [|by right]. constructor; [done|done|]. by intros. }
  unfold shouldPollDesktopAlipay. change (ui h1) with (ui h). change (hidden h1) with (hidden h). rewrite Eo, Es. cbn [andb].
  rewrite bool_decide_eq_true_2 by done. cbn [andb]. assert (Sy : deps h = (true, Some p, AwaitingPayment)) by (unfold deps; congruence).
  destruct (hidden h) eqn:Eh; cbn [negb].
  - split; [constructor; [done|done|]; intros e' _ Hh; unfold h1 in Hh; hcbn; congruence|]. left. split; [|done]. done.
  - destruct (schedule_ok e h1 P1 T) as (S1 & S2 & S3). split.
    + constructor; try done. intros e' He'. cbn in He'. by injection He' as <-.
    + left. split; [|done]. done.
Qed.

Lemma render_ok d h : Inv [] h -> Inv [] (render d h) /\ refines ev h (render d h) /\ mounted (render d h) = mounted h.
Proof.
  intros HI. unfold render. case_if; [|split_and!; [done|by apply refines_same|done]].
  destruct (cleanup_fields h) as (F1 & F2 & F3 & F4 & F5 & F6 & F7 & F8 & F9 & _).
  destruct (invisible_ok (ev:=ev) h (cleanupEffect h) HI) as [H1 R1]; [done..|].
  destruct (runEffect_ok (cleanupEffect h) H1 F8) as (H2 & R2 & M). split_and!; [done|by eapply refines_trans|congruence].
Qed.

Lemma commit_ok before after : Inv [] after -> Inv [] (commit before after) /\ refines ev after (commit before after).
Proof.
  intros HI. unfold commit. destruct (render_ok (deps before) after HI) as (H1 & R1 & _).
  destruct (render_ok (deps after) _ H1) as (H2 & R2 & _). split; [done|by eapply refines_trans].
Qed.

End Rendering.

(** A render of a mounted hook whose dependencies changed. *)
Lemma render_poll d h : Polling h -> mounted h = true -> deps h <> d ->
  Polling (render d h) /\ mounted (render d h) = true /\
  (synced (render d h) /\ deps (render d h) = deps h \/ c_status (ui h) = AwaitingPayment /\ c_status (ui (render d h)) = Expired).
Proof.
  intros [P1 P2 P3] Hm Hd. unfold render. rewrite Hm, bool_decide_eq_false_2 by done. cbn [negb andb].
  destruct (cleanup_fields h) as (F1 & F2 & F3 & F4 & F5 & F6 & F7 & F8 & F9 & F10 & F11).
  destruct (cleanup_timers h P1 P2) as [T1 T2].
  destruct (runEffect_poll (cleanupEffect h) T1 T2 F8) as [R1 R2]; [congruence|].
  assert (Ed : deps (cleanupEffect h) = deps h) by (unfold deps; by rewrite F2). rewrite Ed, F2 in R2.
  split_and!; [done|by rewrite runEffect_mounted, F9|done].
Qed.

Lemma render_same d h : deps h = d -> render d h = h.
Proof. intros <-. unfold render. rewrite bool_decide_eq_true_2 by done. by rewrite andb_false_r. Qed.

Lemma render_unmounted d h : mounted h = false -> render d h = h.
Proof. intros E. unfold render. by rewrite E. Qed.

Lemma commit_poll before after :
  synced before -> keepsEffect before after -> Polling after -> Polling (commit before after) /\ synced (commit before after).
Proof.
  intros Hs Hk HP. unfold commit. cbv zeta. destruct (mounted after) eqn:Em.
  2: { rewrite !(render_unmounted _ after) by done. split; [done|]. unfold synced. destruct (effect after) as [e|] eqn:Ee; [|congruence].
       exfalso. destruct Hk as [[Hk Hm]|[_ ?]]; [|congruence]. unfold effectShape in Hk. rewrite Ee in Hk. unfold synced in Hs.
       destruct (effect before); [|done]. destruct Hs. congruence. }
  destruct Hk as [[Hk Hm]|[? _]]; [|congruence]. destruct (decide (deps after = deps before)) as [Ed|Hd].
  { rewrite (render_same _ after) by done. rewrite render_same by done. split; [done|]. unfold synced in *. unfold effectShape in Hk. rewrite Ed, Em.
    rewrite <- Hm, Em in Hs. destruct (effect before) as [e|], (effect after) as [e'|]; cbn in Hk; try done.
    injection Hk as _ ->. by destruct Hs. }
  destruct (render_poll (deps before) after HP Em Hd) as (P1 & M1 & [[S1 D1]|[A1 X1]]).
  { by rewrite (render_same (deps after)). }
  set (h1 := render (deps before) after) in *.
  assert (Hd1 : deps h1 <> deps after) by (unfold deps; rewrite X1, A1; congruence).
  destruct (render_poll (deps after) h1 P1 M1 Hd1) as (P2 & _ & [[S2 _]|[A2 _]]); [done|]. congruence.
Qed.

(** ** Reachable states *)

Lemma reachable_inv h : reachable h -> Inv [] h /\ synced h /\ Polling h.
Proof.
  induction 1 as [clock isHidden|h e h' _ (HI & Hs & HP) Hst].
  - split_and!; [constructor; try done; constructor|done|]. constructor; [constructor|constructor|done].
  - unfold checkoutStep in Hst. destruct (handle e h) as [h1|] eqn:Eh; [|done]. cbn in Hst. injection Hst as <-.
    destruct (handle_ok e h h1 HI (synced_pays h HI Hs) Eh) as [H1 _]. destruct (handle_poll e h h1 Eh Hs HP) as [P1 K1].
    destruct (commit_ok (ev:=e) h h1 H1) as [H2 _]. destruct (commit_poll h h1 Hs K1 P1) as [P2 S2]. done.
Qed.

Lemma step_refines h e h' : reachable h -> checkoutStep e h = Some h' -> refines e h h'.
Proof.
  intros Hr Hst. destruct (reachable_inv h Hr) as (HI & Hs & HP). unfold checkoutStep in Hst.
  destruct (handle e h) as [h1|] eqn:Eh; [|done]. cbn in Hst. injection Hst as <-.
  destruct (handle_ok e h h1 HI (synced_pays h HI Hs) Eh) as [H1 R1]. destruct (commit_ok (ev:=e) h h1 H1) as [_ R2].
  by eapply refines_trans.
Qed.

Lemma reachable_spec h : reachable h -> exists clock, rtc anyStep (mkSpec false Idle None clock []) (abs h).
Proof.
  induction 1 as [clock isHidden|h e h' Hr [clock IH] Hst]; [exists clock; constructor|].
  exists clock. etrans; [exact IH|]. apply (rtc_subrel (stepBy e)); [|by apply step_refines]. intros s s' (a & _ & Hs). by exists a.
Qed.

(** *** Ending the wait *)

Lemma render_ui d h : c_status (ui h) <> AwaitingPayment -> ui (render d h) = ui h.
Proof.
  intros Hn. unfold render. case_if; [|done]. destruct (cleanup_fields h) as (_ & F2 & _). unfold runEffect. rewrite F2.
  destruct (c_payment (ui h)); [|by rewrite F2]. rewrite (bool_decide_eq_false_2 (c_status (ui h) = AwaitingPayment)) by done.
  by rewrite andb_false_r, F2.
Qed.

Lemma commit_ui before after : c_status (ui after) <> AwaitingPayment -> ui (commit before after) = ui after.
Proof. intros Hn. unfold commit. rewrite render_ui; rewrite render_ui; done. Qed.

Lemma commit_same before after : deps after = deps before -> commit before after = after.
Proof. intros E. unfold commit. rewrite (render_same _ after) by done. by apply render_same. Qed.

(** The wait for the order [p] goes on although its expiry has passed. *)
Record overdue (p : AlipayDesktopPayment) (h : Hook) : Prop := {
  ov_reach : reachable h; ov_mounted : mounted h = true; ov_hidden : hidden h = false;
  ov_deps : deps h = (true, Some p, AwaitingPayment); ov_expired : isDesktopAlipayExpired (expiresAt p) (now h) = true }.

(** The events of the environment: a timer that fires, an answer that arrives, a
    suspended function that goes on. *)
Definition isEnvironment (e : CheckoutEvent) : bool :=
  match e with EQuery _ _ | ERefresh _ _ | EResume _ | EPoll _ => true | _ => false end.

(** What the suspended functions have still to do, counted in events. *)
Definition taskWork (t : Task) : nat :=
  match t with TStart _ _ => 0 | TQuery _ _ _ _ => 3 | TRefresh _ _ _ _ => 2 | TResume _ => 1 end.
Definition pendingWork (h : Hook) : nat := sum_list_with taskWork (tasks h).

(** [waits n h h']: from [h] to [h'] no state shows the end of the checkout, [n]
    events of the environment happen, any ones, and any time passes. *)
Inductive waits : nat -> Hook -> Hook -> Prop :=
| waits_here h : isDesktopAlipayTerminal (c_status (ui h)) = false -> waits 0 h h
| waits_event n e h h1 h' : isDesktopAlipayTerminal (c_status (ui h)) = false -> isEnvironment e = true ->
    checkoutStep e h = Some h1 -> waits n h1 h' -> waits (S n) h h'
| waits_time n d h h1 h' : isDesktopAlipayTerminal (c_status (ui h)) = false ->
    checkoutStep (ETick d) h = Some h1 -> waits n h1 h' -> waits n h h'.

(** What a wait keeps. *)
Definition quiet (h h1 : Hook) : Prop :=
  deps h1 = deps h /\ paymentRef h1 = paymentRef h /\ hidden h1 = hidden h /\ mounted h1 = mounted h /\ now h1 = now h /\ effect h1 = effect h.

Lemma quiet_trans h h1 h2 : quiet h h1 -> quiet h1 h2 -> quiet h h2.
Proof. intros (? & ? & ? & ? & ? & ?) (? & ? & ? & ? & ? & ?). unfold quiet. split_and!; congruence. Qed.

Definition endsOr (p : AlipayDesktopPayment) (work : nat) (h h1 : Hook) : Prop :=
  isDesktopAlipayTerminal (c_status (ui h1)) = true \/ quiet h h1 /\ (pendingWork h1 <= work)%nat.

Lemma take_work k t h h1 : takeTask k h = Some (t, h1) -> quiet h h1 /\ pendingWork h = (taskWork t + pendingWork h1)%nat.
Proof.
  unfold takeTask. destruct (tasks h !! k) as [x|] eqn:E; [|done]. cbn. intros [= -> <-]. split; [done|].
  unfold pendingWork. hcbn. rewrite <- (take_drop_middle _ _ _ E) at 1. rewrite delete_take_drop, !sum_list_with_app. cbn. lia.
Qed.

Lemma addTask_work t h : pendingWork (addTask t h) = (pendingWork h + taskWork t)%nat.
Proof. unfold pendingWork. hcbn. rewrite sum_list_with_app. cbn. lia. Qed.

Section Overdue.
Context (p : AlipayDesktopPayment) (h : Hook) (Hpay : paymentRef h = Some p) (Hexp : isDesktopAlipayExpired (expiresAt p) (now h) = true).

Lemma checkOrder_overdue manual caller : c_status (ui (checkOrder manual caller h)) = Expired.
Proof. unfold checkOrder. rewrite Hpay, Hexp. by destruct caller. Qed.

Lemma resume_overdue i : hidden h = false -> (forall e, effect h = Some e -> e_payment e = p) -> endsOr p (pendingWork h) h (resume i h).
Proof.
  intros Hh He. unfold resume, isMounted. destruct (effect h) as [e|] eqn:Ee; [|by right].
  case_if; [|by right]. rewrite Hh. unfold expireLocally. rewrite (He e eq_refl), Hexp. by left.
Qed.
End Overdue.

(** The end of a query either expires the order at once or wakes its caller. *)
Lemma finally_overdue p f manual caller h : paymentRef h = Some p -> isDesktopAlipayExpired (expiresAt p) (now h) = true ->
  endsOr p (S (pendingWork h)) h (checkFinally f manual caller h).
Proof.
  intros Hp Hx. unfold checkFinally. set (h1 := if manual && _ then _ else h).
  assert (E : quiet h h1 /\ tasks h1 = tasks h) by (unfold h1; by case_if). destruct E as [E1 E2].
  destruct (release (gate h1) f (flow h1)) as [g act]. destruct act.
  - right. destruct caller as [i|]; cbn [finishCheck]; (split; [exact E1|]).
    + rewrite addTask_work. unfold pendingWork. hcbn. rewrite E2. cbn. lia.
    + unfold pendingWork. hcbn. rewrite E2. lia.
  - left. assert (H : c_status (ui (checkOrder false None (set_gate g h1))) = Expired).
    { destruct E1 as (_ & Ep & _ & _ & En & _). apply (checkOrder_overdue p); hcbn; congruence. }
    destruct caller; cbn [finishCheck]; hcbn; by rewrite H.
Qed.

Lemma endsOr_quiet p work h h0 h1 : quiet h h0 -> endsOr p work h0 h1 -> endsOr p work h h1.
Proof. intros Hq [Ht|[Hq1 Hw]]; [by left|right]. split; [by eapply quiet_trans|done]. Qed.

(** An answer that is not final ends the query. *)
Lemma finally_after p f manual caller h h0 : quiet h h0 -> tasks h0 = tasks h -> paymentRef h = Some p ->
  isDesktopAlipayExpired (expiresAt p) (now h) = true -> endsOr p (S (pendingWork h)) h (checkFinally f manual caller h0).
Proof.
  intros Hq Ht Hp Hx. apply (endsOr_quiet _ _ _ h0 _ Hq). destruct Hq as (_ & Ep & _ & _ & En & _).
  replace (pendingWork h) with (pendingWork h0) by (unfold pendingWork; by rewrite Ht). apply finally_overdue; congruence.
Qed.

Lemma applyStatus_quiet h next : c_status (ui h) = next -> quiet h (set_ui (applyStatus next (ui h)) h).
Proof.
  intros E. unfold quiet. hcbn. split; [|done]. unfold deps. hcbn. unfold applyStatus. case_if; [done|]. cbn. by rewrite E.
Qed.

Lemma finally_ended f manual caller h : isDesktopAlipayTerminal (c_status (ui h)) = true ->
  isDesktopAlipayTerminal (c_status (ui (checkFinally f manual caller h))) = true.
Proof.
  intros Ht. unfold checkFinally. set (h1 := if manual && _ then _ else h). assert (E : ui h1 = ui h) by (unfold h1; by case_if).
  destruct (release (gate h1) f (flow h1)) as [g act]. set (h2 := match act with ReleaseIdle => _ | ReleaseRetry => _ end).
  assert (H2 : isDesktopAlipayTerminal (c_status (ui h2)) = true).
  { unfold h2. destruct act; hcbn; [by rewrite E|]. unfold checkOrder. hcbn. destruct (paymentRef h1); [|cbn [finishCheck]; hcbn; by rewrite E].
    case_if; [done|]. destruct (tryAcquire _ _) as [g' []]; cbn [finishCheck negb]; hcbn; by rewrite E. }
  by destruct caller.
Qed.

Lemma applyStatus_shows next s : c_status (applyStatus next s) = next.
Proof. unfold applyStatus. destruct (_ && _) eqn:H; [|done]. by apply andb_true_iff in H as [H%bool_decide_eq_true _]. Qed.

Lemma queryDone_overdue p f manual q caller r h : paymentRef h = Some p -> isDesktopAlipayExpired (expiresAt p) (now h) = true ->
  c_status (ui h) = AwaitingPayment -> endsOr p (2 + pendingWork h) h (queryDone f manual q caller r h).
Proof.
  intros Hp Hx Ha. assert (Hmono : forall h1, endsOr p (S (pendingWork h)) h h1 -> endsOr p (2 + pendingWork h) h h1)
    by (intros h1 [Ht|[Hq Hw]]; [by left|right; split; [done|lia]]).
  unfold queryDone. destruct (negb _); [by apply Hmono, finally_overdue|]. destruct r as [st|].
  - assert (Hres : resolveDesktopAlipayStatus st ∈ [Success; Closed; AwaitingPayment]).
    { unfold resolveDesktopAlipayStatus. repeat case_if; set_solver. }
    rewrite !elem_of_cons, elem_of_nil in Hres. destruct Hres as [->|[->|[->|[]]]].
    + right. split; [done|]. rewrite addTask_work. cbn. lia.
    + left. apply finally_ended. hcbn. by rewrite applyStatus_shows.
    + apply Hmono, finally_after; try done. by apply applyStatus_quiet.
  - apply Hmono, finally_after; [by destruct manual|by destruct manual|done..].
Qed.

Lemma refreshDone_overdue p f manual caller ok h : paymentRef h = Some p -> isDesktopAlipayExpired (expiresAt p) (now h) = true ->
  endsOr p (S (pendingWork h)) h (refreshDone f manual caller ok h).
Proof.
  intros Hp Hx. unfold refreshDone. destruct (negb _); [by apply finally_overdue|].
  left. apply finally_ended. hcbn. by rewrite applyStatus_shows.
Qed.

Lemma awaiting_alive p h : reachable h -> mounted h = true -> hidden h = false -> deps h = (true, Some p, AwaitingPayment) ->
  paymentRef h = Some p /\ c_status (ui h) = AwaitingPayment /\ exists e, effect h = Some e /\ e_payment e = p /\ alive (e_id e) h.
Proof.
  intros Hr Hm Hh Hd. destruct (reachable_inv h Hr) as (HI & Hs & HP). unfold synced in Hs.
  destruct (effect h) as [e|] eqn:Ee; [|by destruct (Hs Hm p)]. destruct Hs as [_ Hs]. rewrite Hs in Hd. injection Hd as Ep.
  unfold deps in Hs. injection Hs as _ Epay Est. pose proof (inv_payment _ _ HI). split_and!; [congruence|done|].
  exists e. split_and!; [done|done|]. by apply (po_alive _ HP e).
Qed.

(** Every event of the environment ends an overdue wait or leaves less to do. *)
Lemma overdue_step p e h h1 : overdue p h -> isEnvironment e = true -> checkoutStep e h = Some h1 ->
  isDesktopAlipayTerminal (c_status (ui h1)) = true \/ overdue p h1 /\ (pendingWork h1 < pendingWork h)%nat.
Proof.
  intros Ho He Hst. pose proof Ho as [Hr Hm Hh Hd Hx]. destruct (awaiting_alive p h Hr Hm Hh Hd) as (Hp & Ha & ef & Eef & Ecl & _).
  assert (Hr1 : reachable h1) by (by eapply reach_step). unfold checkoutStep in Hst.
  destruct (handle e h) as [h2|] eqn:Eh; [|done]. cbn in Hst. injection Hst as <-.
  assert (H : isDesktopAlipayTerminal (c_status (ui h2)) = true \/ quiet h h2 /\ (pendingWork h2 < pendingWork h)%nat).
  { assert (Htask : forall k t h0 w h3, takeTask k h = Some (t, h0) -> (w < taskWork t + pendingWork h0)%nat -> endsOr p w h0 h3 ->
      isDesktopAlipayTerminal (c_status (ui h3)) = true \/ quiet h h3 /\ (pendingWork h3 < pendingWork h)%nat).
    { intros k t h0 w h3 Ht Hlt [Hend|[Hq Hw]]; [by left|right]. destruct (take_work k t h h0 Ht) as [Hq0 ->].
      split; [by eapply quiet_trans|lia]. }
    destruct e as [| |k r|k ok|k|i| | | | | | |]; try done; cbn [handle] in Eh.
    - destruct (takeTask k h) as [[[|f m q cl| |] h0]|] eqn:Et; try done. injection Eh as <-.
      destruct (take_work _ _ _ _ Et) as [(Q1 & Q2 & Q3 & Q4 & Q5 & Q6) _].
      set (h3 := match r with QStatus s => _ | QFails => h0 end). assert (Hq3 : quiet h0 h3 /\ tasks h3 = tasks h0) by (unfold h3; by destruct r).
      eapply (Htask k _ h0 (2 + pendingWork h0)%nat); [exact Et|cbn; lia|]. apply (endsOr_quiet _ _ _ h3 _ (proj1 Hq3)).
      replace (pendingWork h0) with (pendingWork h3) by (unfold pendingWork; by rewrite (proj2 Hq3)).
      destruct Hq3 as [(R1 & R2 & _ & _ & R5 & _) _]. apply queryDone_overdue; [congruence|congruence|]. unfold deps in *. congruence.
    - destruct (takeTask k h) as [[[| |f m q cl|] h0]|] eqn:Et; try done. injection Eh as <-.
      destruct (take_work _ _ _ _ Et) as [(Q1 & Q2 & Q3 & Q4 & Q5 & Q6) _].
      eapply (Htask k _ h0 (S (pendingWork h0))); [exact Et|cbn; lia|]. apply refreshDone_overdue; congruence.
    - destruct (takeTask k h) as [[[| | |x] h0]|] eqn:Et; try done. injection Eh as <-.
      destruct (take_work _ _ _ _ Et) as [(Q1 & Q2 & Q3 & Q4 & Q5 & Q6) _].
      eapply (Htask k _ h0 (pendingWork h0)); [exact Et|cbn; lia|]. apply resume_overdue; congruence.
    - destruct (List.find _ _) as [t|]; [|done]. injection Eh as <-. left. unfold runAndSchedule.
      by rewrite (checkOrder_overdue p). }
  destruct H as [Ht|[(Q1 & Q2 & Q3 & Q4 & Q5 & Q6) Hw]].
  - left. rewrite commit_ui; [done|]. by intros E; rewrite E in Ht.
  - right. rewrite commit_same in * by done. split; [|done]. constructor; [done|congruence..].
Qed.

Lemma overdue_time p d h h1 : overdue p h -> checkoutStep (ETick d) h = Some h1 -> overdue p h1 /\ pendingWork h1 = pendingWork h.
Proof.
  intros [Hr Hm Hh Hd Hx] Hst. assert (Hr1 : reachable h1) by (by eapply reach_step). unfold checkoutStep in Hst. cbn [handle] in Hst.
  destruct (Z.leb_spec 0 d); [|done]. cbn in Hst. injection Hst as <-. rewrite commit_same in * by done. split; [|done].
  constructor; try done. hcbn. unfold isDesktopAlipayExpired in *. apply Z.leb_le in Hx. apply Z.leb_le. lia.
Qed.

Lemma overdue_waits p n h h' : waits n h h' -> overdue p h -> overdue p h' /\ (n + pendingWork h' <= pendingWork h)%nat.
Proof.
  induction 1 as [h _|n e h h1 h' _ He Hst Hw IH|n d h h1 h' _ Hst Hw IH]; intros Ho; [split; [done|lia]| |].
  - destruct (overdue_step p e h h1 Ho He Hst) as [Ht|[Ho1 Hlt]]; [|destruct (IH Ho1); split; [done|lia]].
    exfalso. by destruct Hw; congruence.
  - destruct (overdue_time p d h h1 Ho Hst) as [Ho1 E]. destruct (IH Ho1). split; [done|lia].
Qed.

(** Polling that is alive can go on. *)
Lemma alive_goes_on i h : alive i h -> exists e h', isEnvironment e = true /\ checkoutStep e h = Some h'.
Proof.
  assert (Hst : forall e h1, isEnvironment e = true -> handle e h = Some h1 -> exists e h', isEnvironment e = true /\ checkoutStep e h = Some h').
  { intros e h1 He Hh. exists e, (commit h h1). split; [done|]. unfold checkoutStep. by rewrite Hh. }
  intros [Ht|Ht]; apply Exists_exists in Ht as (t & Hin & Hw).
  - destruct (List.find (fun x => (t_id x =? t_id t)%nat) (timers h)) as [t'|] eqn:Ef.
    + eapply (Hst (EPoll (t_id t))); [done|cbn [handle]; by rewrite Ef].
    + apply list_elem_of_In in Hin. eapply find_none in Ef; [|exact Hin]. cbn in Ef. by rewrite Nat.eqb_refl in Ef.
  - apply list_elem_of_lookup_1 in Hin as [k Hk].
    assert (Htk : takeTask k h = Some (t, set_tasks (delete k (tasks h)) h)) by (unfold takeTask; by rewrite Hk).
    destruct t as [|f m q cl|f m q cl|x]; cbn in Hw; [done| | |].
    + eapply (Hst (EQuery k QFails)); [done|cbn [handle]; by rewrite Htk].
    + eapply (Hst (ERefresh k true)); [done|cbn [handle]; by rewrite Htk].
    + eapply (Hst (EResume k)); [done|cbn [handle]; by rewrite Htk].
Qed.

Lemma run_reachable es : forall h h', reachable h -> run es h = Some h' -> reachable h'.
Proof.
  induction es as [|e es IH]; cbn; intros h h' Hr H; [by simplify_eq|].
  destruct (checkoutStep e h) as [h1|] eqn:E; [|done]. cbn in H. eapply IH; [|exact H]. by eapply reach_step.
Qed.

(** ** Properties *)

(** [C3] The hook refines the specification of a checkout: every reachable
    state shows a state that the specification reaches from an idle checkout,
    and every event, whatever is suspended and however promises interleave,
    performs only the actions the specification permits for it: a new order is
    accepted only by the answer to the request of an open dialog, a status
    changes only to what the server reported or by the expiry of the order, and
    only the user starts, hides or resets a checkout. *)
Theorem checkout_refines_spec h : reachable h ->
  (exists clock, rtc anyStep (mkSpec false Idle None clock []) (abs h)) /\
  forall e h', checkoutStep e h = Some h' -> rtc (stepBy e) (abs h) (abs h').
Proof. intros Hr. split; [by apply reachable_spec|]. intros e h'. by apply step_refines. Qed.

Definition started : list CheckoutEvent := [EStart (num_of_Z 10); EOrder 0 (SResponse (Some (js "T1", js "https://pay", 100%Z)) [])].
Definition runFrom (es : list CheckoutEvent) : Hook := default (initialHook 0 false) (run es (initialHook 0 false)).

Lemma runFrom_reachable es : reachable (runFrom es).
Proof.
  unfold runFrom. destruct (run es (initialHook 0 false)) as [h|] eqn:E; [|constructor]. eapply run_reachable; [constructor|exact E].
Qed.

Lemma checkout_refines_spec_witness :
  let h := runFrom (started ++ [EPoll 1; EQuery 0 (QStatus (js "TRADE_SUCCESS"))]) in
  ((exists clock, rtc anyStep (mkSpec false Idle None clock []) (abs h)) /\
   forall e h', checkoutStep e h = Some h' -> rtc (stepBy e) (abs h) (abs h')) /\
  (c_status (ui h), (fun h' => c_status (ui h')) <$> checkoutStep (ERefresh 0 true) h) = (AwaitingPayment, Some Success).
Proof. cbv zeta. split; [apply checkout_refines_spec, runFrom_reachable|vm_compute; reflexivity]. Defined.

(** [C25] A payment is shown as successful only when the server reported the
    order on display as paid: no answer for another order, no answer that
    arrives late and no interleaving of queries can show success. *)
Theorem success_is_reported h : reachable h -> c_status (ui h) = Success ->
  exists p s, c_payment (ui h) = Some p /\ (outTradeNo p, s) ∈ answers h /\ resolveDesktopAlipayStatus s = Success.
Proof.
  intros Hr Hs. destruct (reachable_spec h Hr) as [clock Hc].
  destruct (rtc_confirmed _ _ Hc) as (p & Hp & s & Hin & E); [done|done|]. by exists p, s.
Qed.

Lemma success_is_reported_witness :
  let h := runFrom (started ++ [EPoll 1; EQuery 0 (QStatus (js "TRADE_FINISHED")); ERefresh 0 false]) in
  exists p s, c_payment (ui h) = Some p /\ (outTradeNo p, s) ∈ answers h /\ resolveDesktopAlipayStatus s = Success.
Proof. cbv zeta. apply success_is_reported; [apply runFrom_reachable|vm_compute; reflexivity]. Defined.

(** At most one status query is in flight, and the gate knows whose it is:
    in every reachable state the suspended queries and refreshes are exactly
    the one flow that holds the gate. *)
Theorem one_query_in_flight h : reachable h ->
  holders (tasks h) = option_list (activeFlow (gate h)) /\ (length (holders (tasks h)) <= 1)%nat.
Proof.
  intros Hr. destruct (reachable_inv h Hr) as (HI & _). pose proof (inv_gate _ _ HI) as E. rewrite app_nil_r in E.
  split; [done|]. rewrite E. destruct (activeFlow (gate h)); cbn; lia.
Qed.

Lemma one_query_in_flight_witness :
  let h := runFrom (started ++ [EPoll 1; ECheckNow; EClose; EStart (num_of_Z 5); EOrder 1 (SResponse (Some (js "T2", js "u", 100%Z)) []); ECheckNow]) in
  (holders (tasks h) = option_list (activeFlow (gate h)) /\ (length (holders (tasks h)) <= 1)%nat) /\
  (sent h, holders (tasks h), queuedFlow (gate h)) = ([js "T1"], [1%nat], Some 3%nat).
Proof. cbv zeta. split; [apply one_query_in_flight, runFrom_reachable|vm_compute; reflexivity]. Defined.

(** [C27] Polling never stalls: in every reachable state in which the component is
    mounted and an order is awaited in an open dialog on a visible page, a timer of the mounted effect is armed or a suspended function
    will arm one, whatever happened before, so that some event of the environment
    (a timer that fires, an answer to a query or a refresh, the continuation of
    the effect) can happen. Once the order's expiry has passed the wait cannot
    last: however these events interleave, whatever the server answers and
    whatever time passes between them, at most as many of them happen before the
    dialog shows a terminal status as the suspended functions still have to do
    (three for a query, two for a refresh, one for a continuation; a timer that
    fires ends the wait at once), and one can always happen until then. The
    user's events (closing, starting anew, hiding the page) are not among these. *)
Theorem polling_never_stalls h p : reachable h -> mounted h = true -> hidden h = false ->
  deps h = (true, Some p, AwaitingPayment) ->
  (exists e, effect h = Some e /\ e_payment e = p /\ alive (e_id e) h) /\
  (exists e h', isEnvironment e = true /\ checkoutStep e h = Some h') /\
  (isDesktopAlipayExpired (expiresAt p) (now h) = true ->
   forall n h', waits n h h' ->
     (n <= pendingWork h)%nat /\ exists e h1, isEnvironment e = true /\ checkoutStep e h' = Some h1).
Proof.
  intros Hr Hm Hh Hd. destruct (awaiting_alive p h Hr Hm Hh Hd) as (_ & _ & e & Ee & Ep & Ha).
  split; [by exists e|]. split; [by eapply alive_goes_on|]. intros Hx n h' Hw.
  destruct (overdue_waits p n h h' Hw) as [Ho Hn]; [done|]. split; [lia|].
  destruct (awaiting_alive p h') as (_ & _ & e' & _ & _ & Ha'); [apply Ho..|]. by eapply alive_goes_on.
Qed.

Lemma polling_never_stalls_witness :
  let h := runFrom (started ++ [EPoll 1; EVisibility true; EVisibility false; ETick 100000]) in
  (pendingWork h, (fun h1 => c_status (ui h1)) <$> (checkoutStep (EQuery 0 (QStatus (js "WAIT_BUYER_PAY"))) h ≫= checkoutStep (EResume 1)))
  = (4%nat, Some Expired) /\
  forall n h', waits n h h' -> (n <= 4)%nat /\ exists e h1, isEnvironment e = true /\ checkoutStep e h' = Some h1.
Proof.
  cbv zeta. split; [vm_compute; reflexivity|]. set (h := runFrom _).
  destruct (polling_never_stalls h (mkPayment (js "T1") (js "https://pay") 100 (num_of_Z 10))) as (_ & _ & H);
    [apply runFrom_reachable|vm_compute; reflexivity..|].
  apply H. vm_compute. reflexivity.
Defined.

(** ** A polling timer that outlives its effect

    When the page is hidden and shown again while a query is in flight, two
    continuations arm a timer and the effect remembers the second only: closing
    the dialog leaves the first armed, and it queries the order again. *)
Example poll_timer_leaks :
  let h := runFrom (started ++ [EPoll 1; EVisibility true; EVisibility false; EResume 1; EQuery 0 QFails; EResume 0]) in
  let h' := runFrom (started ++ [EPoll 1; EVisibility true; EVisibility false; EResume 1; EQuery 0 QFails; EResume 0; EClose]) in
  (length (timers h), length (timers h'), c_open (ui h'), map t_id (timers h'), sent h',
   (fun h => (c_open (ui h), sent h)) <$> checkoutStep (EPoll 2) h')
  = (2%nat, 1%nat, false, [2%nat], [js "T1"], Some (false, [js "T1"; js "T1"])).
Proof. vm_compute. reflexivity. Qed.
