(* ===== verification/AdvancedCustom.v ===== *)
(** * Custom channel routes (features/channels/lib/advanced-custom.ts)

    A custom channel forwards requests by a table of routes that an
    administrator edits as a form or as JSON text.  The text is parsed without
    a schema, so the functions run on whatever JSON it holds: a configuration
    is a dynamic value, a call of [trim] on a value that is not a string
    throws.  [new URL] belongs to the platform and is the parameter [newURL]:
    the host and the protocol of an absolute URL, or no result when the
    constructor throws. *)
From stdpp Require Import prelude list strings.
From S2P Require Import Prelude JsString JsNumber JsValue JsonText.
Open Scope js_scope.

(** ** Converters, authentication modes and their options *)

Inductive AdvancedCustomConverter :=
| ConvNone | AnthropicToOpenAIChat | OpenAIChatToAnthropic | OpenAIChatToResponses | GeminiToOpenAIChat | OpenAIChatToGemini.
#[export] Instance converter_eq_dec : EqDecision AdvancedCustomConverter. Proof. solve_decision. Defined.

Definition converterValue (c : AdvancedCustomConverter) : jstr :=
  match c with
  | ConvNone => js "none"
  | AnthropicToOpenAIChat => js "anthropic_messages_to_openai_chat_completions"
  | OpenAIChatToAnthropic => js "openai_chat_completions_to_anthropic_messages"
  | OpenAIChatToResponses => js "openai_chat_completions_to_openai_responses"
  | GeminiToOpenAIChat => js "gemini_generate_content_to_openai_chat_completions"
  | OpenAIChatToGemini => js "openai_chat_completions_to_gemini_generate_content"
  end.

Definition ADVANCED_CUSTOM_CONVERTER_OPTIONS : list (AdvancedCustomConverter * jstr) :=
  [(ConvNone, js "Native forwarding");
   (AnthropicToOpenAIChat, js "Anthropic Messages to OpenAI Chat");
   (OpenAIChatToAnthropic, js "OpenAI Chat to Anthropic Messages");
   (OpenAIChatToResponses, js "OpenAI Chat to OpenAI Responses");
   (GeminiToOpenAIChat, js "Gemini Generate Content to OpenAI Chat");
   (OpenAIChatToGemini, js "OpenAI Chat to Gemini Generate Content")].

Inductive AdvancedCustomAuthMode := AuthDefault | AuthNone | AuthHeader | AuthQuery.

Definition ADVANCED_CUSTOM_AUTH_MODE_OPTIONS : list (AdvancedCustomAuthMode * jstr) :=
  [(AuthDefault, js "Default Bearer"); (AuthNone, js "No Auth"); (AuthHeader, js "Header"); (AuthQuery, js "Query")].

Record AdvancedCustomIncomingPathOption := mkPathOption { po_value : jstr; po_label : jstr }.

Definition ADVANCED_CUSTOM_INCOMING_PATH_OPTIONS : list AdvancedCustomIncomingPathOption :=
  [mkPathOption (js "/v1/chat/completions") (js "OpenAI Chat Completions");
   mkPathOption (js "/v1/completions") (js "OpenAI Completions");
   mkPathOption (js "/v1/responses") (js "OpenAI Responses");
   mkPathOption (js "/v1/responses/compact") (js "OpenAI Responses Compact");
   mkPathOption (js "/v1/embeddings") (js "OpenAI Embeddings");
   mkPathOption (js "/v1/images/generations") (js "OpenAI Image Generations");
   mkPathOption (js "/v1/images/edits") (js "OpenAI Image Edits");
   mkPathOption (js "/v1/audio/speech") (js "OpenAI Audio Speech");
   mkPathOption (js "/v1/audio/transcriptions") (js "OpenAI Audio Transcriptions");
   mkPathOption (js "/v1/audio/translations") (js "OpenAI Audio Translations");
   mkPathOption (js "/v1/rerank") (js "OpenAI Rerank");
   mkPathOption (js "/v1/realtime") (js "OpenAI Realtime");
   mkPathOption (js "/v1/messages") (js "Claude Messages");
   mkPathOption (js "/v1beta/models/{model}:generateContent") (js "Gemini Generate Content");
   mkPathOption (js "/v1beta/models/{model}:embedContent") (js "Gemini Embed Content");
   mkPathOption (js "/v1beta/models/{model}:batchEmbedContents") (js "Gemini Batch Embed Contents")].

Record AdvancedCustomValidationError := mkError { ve_message : jstr; ve_routeIndex : option nat }.

(** ** Templates *)

Definition authObject (type name value : jstr) : jsval :=
  VObj [(js "type", VStr type); (js "name", VStr name); (js "value", VStr value)].
Definition bearerHeaderAuth : jsval := authObject (js "header") (js "Authorization") (js "Bearer {api_key}").
Definition apiKeyHeaderAuth : jsval := authObject (js "header") (js "x-api-key") (js "{api_key}").
Definition geminiQueryAuth : jsval := authObject (js "query") (js "key") (js "{api_key}").

Definition routeObject (incoming upstream : jstr) (c : AdvancedCustomConverter) (rest : list (jstr * jsval)) : jsval :=
  VObj ([(js "incoming_path", VStr incoming); (js "upstream_path", VStr upstream); (js "converter", VStr (converterValue c))] ++ rest).
Definition configObject (routes : list jsval) : jsval := VObj [(js "advanced_routes", VArr routes)].

Record AdvancedCustomTemplateOption := mkTemplate { to_value : jstr; to_label : jstr; to_config : jsval }.

(** A route that forwards a path to the same path. *)
Definition sameRoute (path : jstr) (auth : jsval) : jsval := routeObject path path ConvNone [(js "auth", auth)].

Definition ADVANCED_CUSTOM_TEMPLATE_OPTIONS : list AdvancedCustomTemplateOption :=
  [mkTemplate (js "official_openai_chat") (js "Official OpenAI Chat")
     (configObject [sameRoute (js "/v1/chat/completions") bearerHeaderAuth]);
   mkTemplate (js "official_openai_responses") (js "Official OpenAI Responses")
     (configObject [sameRoute (js "/v1/responses") bearerHeaderAuth]);
   mkTemplate (js "official_openai_embeddings") (js "Official OpenAI Embeddings")
     (configObject [sameRoute (js "/v1/embeddings") bearerHeaderAuth]);
   mkTemplate (js "official_openai_images") (js "Official OpenAI Images")
     (configObject [sameRoute (js "/v1/images/generations") bearerHeaderAuth; sameRoute (js "/v1/images/edits") bearerHeaderAuth]);
   mkTemplate (js "official_claude_messages") (js "Official Claude Messages")
     (configObject [sameRoute (js "/v1/messages") apiKeyHeaderAuth]);
   mkTemplate (js "official_gemini_native") (js "Official Gemini Native")
     (configObject [sameRoute (js "/v1beta/models/{model}:generateContent") geminiQueryAuth;
                    sameRoute (js "/v1beta/models/{model}:embedContent") geminiQueryAuth;
                    sameRoute (js "/v1beta/models/{model}:batchEmbedContents") geminiQueryAuth]);
   mkTemplate (js "official_gemini_from_openai_chat") (js "Official Gemini from OpenAI Chat")
     (configObject [routeObject (js "/v1/chat/completions") (js "/v1beta/models/{model}:generateContent") OpenAIChatToGemini
                      [(js "auth", geminiQueryAuth)]])].

(** [JSON.parse(JSON.stringify(config))] *)
Definition cloneAdvancedCustomConfig (config : jsval) : outcome jsval :=
  match json_stringify config with
  | Some text => match json_parse text with Some v => Ret v | None => Throw end
  | None => Throw
  end.

Definition getAdvancedCustomTemplateConfig (templateKey : jstr) : outcome jsval :=
  let template := match List.find (fun o => to_value o === templateKey) ADVANCED_CUSTOM_TEMPLATE_OPTIONS with
                  | Some o => Some o
                  | None => ADVANCED_CUSTOM_TEMPLATE_OPTIONS !! 0%nat
                  end in
  match template with Some o => cloneAdvancedCustomConfig (to_config o) | None => Throw end.

Definition createAdvancedCustomRoute : jsval := routeObject (js "/v1/chat/completions") (js "/v1/chat/completions") ConvNone [].
Definition createAdvancedCustomConfig : jsval := configObject [createAdvancedCustomRoute].

(** ** Paths of a converter *)

Definition getAdvancedCustomUpstreamPathPlaceholder (converter : AdvancedCustomConverter) : jstr :=
  match converter with
  | OpenAIChatToGemini => js "/v1beta/models/{model}:generateContent"
  | OpenAIChatToAnthropic => js "/v1/messages"
  | _ => js "/v1/chat/completions"
  end.

Definition isConverterPathAllowed (incomingPath : jstr) (converter : AdvancedCustomConverter) : bool :=
  match converter with
  | ConvNone => true
  | AnthropicToOpenAIChat => incomingPath === js "/v1/messages"
  | OpenAIChatToAnthropic | OpenAIChatToResponses | OpenAIChatToGemini => incomingPath === js "/v1/chat/completions"
  | GeminiToOpenAIChat => includes (js ":generateContent") incomingPath || includes (js ":streamGenerateContent") incomingPath
  end.

Definition getAdvancedCustomIncomingPathOptions (converter : AdvancedCustomConverter) : list AdvancedCustomIncomingPathOption :=
  List.filter (fun option => isConverterPathAllowed (po_value option) converter) ADVANCED_CUSTOM_INCOMING_PATH_OPTIONS.

Definition getDefaultAdvancedCustomIncomingPath (converter : AdvancedCustomConverter) : jstr :=
  str_or (default [] (po_value <$> getAdvancedCustomIncomingPathOptions converter !! 0%nat)) (js "/v1/chat/completions").

Definition isAdvancedCustomIncomingPathAllowed (incomingPath : jstr) (converter : AdvancedCustomConverter) : bool :=
  existsb (fun option => po_value option === incomingPath) (getAdvancedCustomIncomingPathOptions converter).

Definition getAdvancedCustomIncomingPathLabel (value : jstr) : jstr :=
  str_or (default [] (po_label <$> List.find (fun option => po_value option === value) ADVANCED_CUSTOM_INCOMING_PATH_OPTIONS)) value.

(** ** Reading dynamic values *)

(** [v || d] *)
Definition vor (v d : jsval) : jsval := if truthy v then v else d.

(** [v.trim()]: only a string has the method. *)
Definition callTrim (v : jsval) : outcome jstr := match v with VStr s => Ret (trim s) | _ => Throw end.

(** [v?.trim() || ''] *)
Definition optTrim (v : jsval) : outcome jstr :=
  match v with VUndef | VNull => Ret [] | _ => callTrim v end.

(** [v === s] for a string [s]. *)
Definition isString (v : jsval) (s : jstr) : bool := match v with VStr t => t === s | _ => false end.

Fixpoint someOutcome {A} (f : A -> outcome bool) (xs : list A) : outcome bool :=
  match xs with
  | [] => Ret false
  | x :: xs' => b <-- f x ;; if b then Ret true else someOutcome f xs'
  end.

(** ** Normalisation *)

Definition getAdvancedCustomRouteUpstreamPath (route : jsval) : outcome jstr :=
  p <-- prop route (js "upstream_path") ;; callTrim (vor p (VStr [])).

Definition normalizeAdvancedCustomRoute (route : jsval) : outcome jsval :=
  incoming <-- prop route (js "incoming_path") ;;
  upstream <-- getAdvancedCustomRouteUpstreamPath route ;;
  converter <-- prop route (js "converter") ;;
  let nextRoute := [(js "incoming_path", vor incoming (VStr [])); (js "upstream_path", VStr upstream);
                    (js "converter", vor converter (VStr (converterValue ConvNone)))] in
  auth <-- prop route (js "auth") ;;
  if truthy auth then
    type <-- prop auth (js "type") ;;
    name <-- prop auth (js "name") ;;
    value <-- prop auth (js "value") ;;
    Ret (VObj (set_prop (js "auth")
      (VObj [(js "type", type); (js "name", vor name (VStr [])); (js "value", vor value (VStr []))]) nextRoute))
  else Ret (VObj nextRoute).

Definition normalizeAdvancedCustomConfig (config : jsval) : outcome jsval :=
  advanced <-- prop config (js "advanced_routes") ;;
  routes <-- match advanced with VArr xs => mapOutcome normalizeAdvancedCustomRoute xs | _ => Ret [] end ;;
  Ret (configObject routes).

(** [normalized.advanced_routes || []] *)
Definition advancedRoutes (config : jsval) : outcome (list jsval) :=
  r <-- prop config (js "advanced_routes") ;; Ret (match r with VArr xs => xs | _ => [] end).

Definition parseAdvancedCustomConfig (value : option jstr) : option jsval :=
  match value with
  | None => None
  | Some text =>
      if negb (truthy_str (trim text)) then None
      else match json_parse text with
           | Some (VObj fs) => match normalizeAdvancedCustomConfig (VObj fs) with Ret c => Some c | Throw => None end
           | _ => None
           end
  end.

Definition stringifyAdvancedCustomConfig (config : jsval) : outcome jstr :=
  normalized <-- normalizeAdvancedCustomConfig config ;; Ret (default [] (json_stringify2 normalized)).

(** ** Validation *)

Definition CONFIG_REQUIRED : jstr := js "Advanced custom configuration is required".
Definition ROUTE_REQUIRED : jstr := js "Advanced custom configuration requires at least one route".
Definition INCOMING_REQUIRED : jstr := js "Incoming path is required".
Definition INCOMING_SLASH : jstr := js "Incoming path must start with /".
Definition INCOMING_QUERY : jstr := js "Incoming path must not include query".
Definition INCOMING_UNIQUE : jstr := js "Incoming path must be unique".
Definition UPSTREAM_REQUIRED : jstr := js "Upstream path is required".
Definition UPSTREAM_INVALID : jstr := js "Upstream path must be a full URL or a path starting with /".
Definition CONVERTER_UNKNOWN : jstr := js "Converter is not registered".
Definition CONVERTER_MISMATCH : jstr := js "Converter does not match incoming path".
Definition AUTH_INVALID : jstr := js "Auth type is invalid".
Definition AUTH_NAME : jstr := js "Auth name is required".
Definition AUTH_VALUE : jstr := js "Auth value is required".

(** The type guard: the registered converter that the value names. *)
Definition isAdvancedCustomConverter (value : jsval) : option AdvancedCustomConverter :=
  fst <$> List.find (fun option => isString value (converterValue option.1)) ADVANCED_CUSTOM_CONVERTER_OPTIONS.

Definition validateRouteAuth (auth : jsval) : outcome (option jstr) :=
  if negb (truthy auth) then Ret None
  else
    type <-- prop auth (js "type") ;;
    if isString type (js "none") then Ret None
    else if negb (isString type (js "header")) && negb (isString type (js "query")) then Ret (Some AUTH_INVALID)
    else
      name <-- prop auth (js "name") ;;
      trimmedName <-- optTrim name ;;
      if negb (truthy_str trimmedName) then Ret (Some AUTH_NAME)
      else
        value <-- prop auth (js "value") ;;
        trimmedValue <-- optTrim value ;;
        if negb (truthy_str trimmedValue) then Ret (Some AUTH_VALUE) else Ret None.

Section URL.
Variable newURL : jstr -> option (jstr * jstr).

Definition isFullHttpURLOrAbsolutePath (value : jstr) : bool :=
  if starts_with (js "/") value then negb (starts_with (js "//") value)
  else match newURL value with
       | Some (host, protocol) => truthy_str host && ((protocol === js "http:") || (protocol === js "https:"))
       | None => false
       end.

(** The body of the loop: the incoming path, and the first rule the route breaks. *)
Definition validateRoute (seenPaths : list jstr) (route : jsval) : outcome (jstr * option jstr) :=
  incoming <-- prop route (js "incoming_path") ;;
  incomingPath <-- optTrim incoming ;;
  upstreamPath <-- getAdvancedCustomRouteUpstreamPath route ;;
  converter <-- prop route (js "converter") ;;
  let converter := vor converter (VStr (converterValue ConvNone)) in
  if negb (truthy_str incomingPath) then Ret (incomingPath, Some INCOMING_REQUIRED)
  else if negb (starts_with (js "/") incomingPath) then Ret (incomingPath, Some INCOMING_SLASH)
  else if includes (js "?") incomingPath then Ret (incomingPath, Some INCOMING_QUERY)
  else if bool_decide (incomingPath ∈ seenPaths) then Ret (incomingPath, Some INCOMING_UNIQUE)
  else if negb (truthy_str upstreamPath) then Ret (incomingPath, Some UPSTREAM_REQUIRED)
  else if negb (isFullHttpURLOrAbsolutePath upstreamPath) then Ret (incomingPath, Some UPSTREAM_INVALID)
  else match isAdvancedCustomConverter converter with
       | None => Ret (incomingPath, Some CONVERTER_UNKNOWN)
       | Some c =>
           if negb (isConverterPathAllowed incomingPath c) then Ret (incomingPath, Some CONVERTER_MISMATCH)
           else
             auth <-- prop route (js "auth") ;;
             authError <-- validateRouteAuth auth ;;
             Ret (incomingPath, authError)
       end.

Fixpoint validateRoutes (index : nat) (seenPaths : list jstr) (routes : list jsval) : outcome (option AdvancedCustomValidationError) :=
  match routes with
  | [] => Ret None
  | route :: routes' =>
      result <-- validateRoute seenPaths route ;;
      match result.2 with
      | Some message => Ret (Some (mkError message (Some index)))
      | None => validateRoutes (S index) (result.1 :: seenPaths) routes'
      end
  end.

Definition validateAdvancedCustomConfig (config : jsval) : outcome (option AdvancedCustomValidationError) :=
  if negb (truthy config) then Ret (Some (mkError CONFIG_REQUIRED None))
  else
    normalized <-- normalizeAdvancedCustomConfig config ;;
    routes <-- advancedRoutes normalized ;;
    match routes with
    | [] => Ret (Some (mkError ROUTE_REQUIRED None))
    | _ => validateRoutes 0 [] routes
    end.

Definition advancedCustomConfigUsesRelativeUpstreamPath (config : jsval) : outcome bool :=
  if negb (truthy config) then Ret false
  else
    normalized <-- normalizeAdvancedCustomConfig config ;;
    routes <-- advancedRoutes normalized ;;
    someOutcome (fun route => p <-- getAdvancedCustomRouteUpstreamPath route ;; Ret (starts_with (js "/") p)) routes.

(** [{ routeCount, valid }] *)
Definition getAdvancedCustomStats (value : option jstr) : outcome (nat * bool) :=
  match parseAdvancedCustomConfig value with
  | None => Ret (0%nat, false)
  | Some config =>
      normalized <-- normalizeAdvancedCustomConfig config ;;
      routes <-- advancedRoutes normalized ;;
      error <-- validateAdvancedCustomConfig normalized ;;
      Ret (length routes, match error with None => true | Some _ => false end)
  end.

End URL.

(** ** Authentication of a route *)

(** [route.auth?.type || 'default'] *)
Definition getAdvancedCustomAuthMode (route : jsval) : outcome jsval :=
  auth <-- prop route (js "auth") ;; type <-- optProp auth (js "type") ;; Ret (vor type (VStr (js "default"))).

Definition buildAdvancedCustomAuth (mode : AdvancedCustomAuthMode) (previousAuth : jsval) : outcome jsval :=
  let build type defaultName defaultValue :=
    name <-- optProp previousAuth (js "name") ;;
    value <-- optProp previousAuth (js "value") ;;
    Ret (VObj [(js "type", VStr type); (js "name", vor name (VStr defaultName)); (js "value", vor value (VStr defaultValue))]) in
  match mode with
  | AuthDefault => Ret VUndef
  | AuthNone => Ret (VObj [(js "type", VStr (js "none"))])
  | AuthHeader => build (js "header") (js "Authorization") (js "Bearer {api_key}")
  | AuthQuery => build (js "query") (js "api_key") (js "{api_key}")
  end.

(** Samples: a table with two routes, and one with a repeated path. *)
Example validate_sample :
  let noURL := fun _ : jstr => None in
  let r p u := routeObject (js p) (js u) ConvNone [] in
  (validateAdvancedCustomConfig noURL (configObject [r "/a"%string " /x "%string; r "/b"%string "/y"%string]),
   validateAdvancedCustomConfig noURL (configObject [r "/a"%string "/x"%string; r " /a"%string "/y"%string]),
   validateAdvancedCustomConfig noURL (configObject [VObj [(js "incoming_path", VNum (num_of_Z 5))]]),
   parseAdvancedCustomConfig (Some (jsq "{'advanced_routes':[{'auth':{'type':'none'}}]}")))
  = (Ret None, Ret (Some (mkError INCOMING_UNIQUE (Some 1%nat))), Throw,
     Some (configObject [VObj [(js "incoming_path", VStr []); (js "upstream_path", VStr []); (js "converter", VStr (js "none"));
       (js "auth", authObject (js "none") [] [])]])).
Proof. vm_compute. reflexivity. Qed.
