(* ===== verification/AdvancedCustomCorrect.v ===== *)
(** * Correctness of the custom channel routes

    The validator accepts exactly the tables that satisfy a declarative
    specification, reports the first broken rule of the first bad route, and
    never throws on configurations of the declared type; such configurations
    survive their text.  The JSON text is not checked against the type, and a
    path that is not a string makes the validator throw. *)
From stdpp Require Import prelude list strings.
From S2P Require Import Prelude JsString JsNumber JsValue JsonText AdvancedCustom.
Open Scope js_scope.

(** ** Configurations of the declared type *)

Definition fld (v : jsval) (k : jstr) : jsval := match v with VObj fs => get_prop k fs | _ => VUndef end.
Definition textOf (v : jsval) : jstr := match v with VStr s => s | _ => [] end.
Definition textField (v : jsval) : bool := match v with VUndef | VNull | VStr _ => true | _ => false end.

Definition typedAuth (v : jsval) : bool :=
  match v with
  | VUndef | VNull => true
  | VObj _ => textField (fld v (js "type")) && textField (fld v (js "name")) && textField (fld v (js "value"))
  | _ => false
  end.

Definition typedRoute (v : jsval) : bool :=
  match v with
  | VObj _ => textField (fld v (js "incoming_path")) && textField (fld v (js "upstream_path")) &&
              textField (fld v (js "converter")) && typedAuth (fld v (js "auth"))
  | _ => false
  end.

Definition routesOf (config : jsval) : list jsval := match fld config (js "advanced_routes") with VArr xs => xs | _ => [] end.

Definition typedConfig (config : jsval) : bool :=
  match config with VObj _ => forallb typedRoute (routesOf config) | _ => false end.

(** ** The specification of a table *)

Definition routePath (r : jsval) : jstr := trim (textOf (fld r (js "incoming_path"))).
Definition routeUpstream (r : jsval) : jstr := trim (textOf (fld r (js "upstream_path"))).
Definition routeConverter (r : jsval) : option AdvancedCustomConverter :=
  isAdvancedCustomConverter (VStr (str_or (textOf (fld r (js "converter"))) (js "none"))).
Definition authText (r : jsval) (k : jstr) : jstr := textOf (fld (fld r (js "auth")) k).

Definition hasAuth (r : jsval) : bool := truthy (fld r (js "auth")).

Section Spec.
Variable newURL : jstr -> option (jstr * jstr).

(** What the upstream may be: a path of the channel's server, or an http(s) URL. *)
Definition upstreamOk (s : jstr) : Prop :=
  (exists p, s = js "/" ++ p /\ starts_with (js "/") p = false) \/
  s <> [] /\ starts_with (js "/") s = false /\
  exists host protocol, newURL s = Some (host, protocol) /\ host <> [] /\ (protocol = js "http:" \/ protocol = js "https:").

Record acceptable (r : jsval) : Prop := {
  ok_path : exists p, routePath r = js "/" ++ p;
  ok_query : ~ In 63%N (routePath r);
  ok_upstream : upstreamOk (routeUpstream r);
  ok_converter : exists c, routeConverter r = Some c /\ isConverterPathAllowed (routePath r) c = true;
  ok_auth : hasAuth r = true -> authText r (js "type") <> js "none" ->
    (authText r (js "type") = js "header" \/ authText r (js "type") = js "query") /\
    trim (authText r (js "name")) <> [] /\ trim (authText r (js "value")) <> [] }.

(** The rules in the order they are checked, each with its message. *)
Definition rules (earlier : list jstr) (r : jsval) : list (bool * jstr) :=
  let free := negb (hasAuth r) || (authText r (js "type") === js "none") in
  [(truthy_str (routePath r), INCOMING_REQUIRED);
   (starts_with (js "/") (routePath r), INCOMING_SLASH);
   (negb (includes (js "?") (routePath r)), INCOMING_QUERY);
   (negb (bool_decide (routePath r ∈ earlier)), INCOMING_UNIQUE);
   (truthy_str (routeUpstream r), UPSTREAM_REQUIRED);
   (isFullHttpURLOrAbsolutePath newURL (routeUpstream r), UPSTREAM_INVALID);
   (match routeConverter r with Some _ => true | None => false end, CONVERTER_UNKNOWN);
   (match routeConverter r with Some c => isConverterPathAllowed (routePath r) c | None => false end, CONVERTER_MISMATCH);
   (free || (authText r (js "type") === js "header") || (authText r (js "type") === js "query"), AUTH_INVALID);
   (free || truthy_str (trim (authText r (js "name"))), AUTH_NAME);
   (free || truthy_str (trim (authText r (js "value"))), AUTH_VALUE)].

Definition firstBroken (earlier : list jstr) (r : jsval) : option jstr :=
  snd <$> List.find (fun rule => negb rule.1) (rules earlier r).

(** ** Normalised routes *)

Definition normAuth (a : jsval) : jsval :=
  VObj [(js "type", fld a (js "type")); (js "name", VStr (textOf (fld a (js "name")))); (js "value", VStr (textOf (fld a (js "value"))))].

Definition normRoute (r : jsval) : jsval :=
  VObj ([(js "incoming_path", VStr (textOf (fld r (js "incoming_path")))); (js "upstream_path", VStr (routeUpstream r));
         (js "converter", VStr (str_or (textOf (fld r (js "converter"))) (js "none")))] ++
        (if hasAuth r then [(js "auth", normAuth (fld r (js "auth")))] else [])).

Lemma vor_text v d : textField v = true -> vor v (VStr d) = VStr (str_or (textOf v) d).
Proof. destruct v as [| | | |s| |]; try done. intros _. unfold vor, str_or. cbn. by destruct (truthy_str s). Qed.

Lemma str_or_nil s : str_or s [] = s.
Proof. by destruct s. Qed.

Lemma typed_route_fields r : typedRoute r = true ->
  (forall k, prop r k = Ret (fld r k)) /\ textField (fld r (js "incoming_path")) = true /\ textField (fld r (js "upstream_path")) = true /\
  textField (fld r (js "converter")) = true /\ typedAuth (fld r (js "auth")) = true.
Proof. destruct r as [| | | | | |fs]; try done. cbn [typedRoute]. rewrite !andb_true_iff. by intros [[[? ?] ?] ?]. Qed.

Lemma typed_auth_fields a : typedAuth a = true -> truthy a = true ->
  (forall k, prop a k = Ret (fld a k)) /\ textField (fld a (js "type")) = true /\ textField (fld a (js "name")) = true /\
  textField (fld a (js "value")) = true.
Proof. destruct a as [| | | | | |fs]; try done. cbn [typedAuth]. rewrite !andb_true_iff. by intros [[? ?] ?]. Qed.

Lemma normalize_route r : typedRoute r = true -> normalizeAdvancedCustomRoute r = Ret (normRoute r).
Proof.
  intros H. destruct (typed_route_fields r H) as (Hp & H1 & H2 & H3 & H4).
  unfold normalizeAdvancedCustomRoute, getAdvancedCustomRouteUpstreamPath, normRoute. rewrite !Hp. cbn [obind].
  rewrite (vor_text _ [] H2). cbn [callTrim obind]. rewrite !str_or_nil, (vor_text _ _ H3), (vor_text _ [] H1), str_or_nil.
  unfold hasAuth. destruct (truthy (fld r (js "auth"))) eqn:Ea; [|done].
  destruct (typed_auth_fields _ H4 Ea) as (Hq & A1 & A2 & A3). rewrite !Hq. cbn [obind].
  by rewrite (vor_text _ [] A2), (vor_text _ [] A3), !str_or_nil.
Qed.

Lemma isString_text v s : textField v = true -> s <> [] -> isString v s = (textOf v === s).
Proof. intros H Hs. destruct v; try done; cbn; by rewrite bool_decide_eq_false_2. Qed.

(** Reading a normalised route. *)
Lemma normRoute_fields r : let f k := fld (normRoute r) (js k) in
  (forall k, prop (normRoute r) k = Ret (fld (normRoute r) k)) /\
  f "incoming_path"%string = VStr (textOf (fld r (js "incoming_path"))) /\ f "upstream_path"%string = VStr (routeUpstream r) /\
  f "converter"%string = VStr (str_or (textOf (fld r (js "converter"))) (js "none")) /\
  f "auth"%string = if hasAuth r then normAuth (fld r (js "auth")) else VUndef.
Proof. cbv zeta. unfold normRoute. destruct (hasAuth r); by split_and!. Qed.

Lemma vor_str s d : vor (VStr s) (VStr d) = VStr (str_or s d).
Proof. by apply vor_text. Qed.

Lemma str_or_idem s d : str_or (str_or s d) d = str_or s d.
Proof. unfold str_or. destruct (truthy_str s) eqn:E; [by rewrite E|]. by destruct (truthy_str d). Qed.

Lemma validate_auth r : typedRoute r = true ->
  validateRouteAuth (if hasAuth r then normAuth (fld r (js "auth")) else VUndef) =
  Ret (snd <$> List.find (fun rule : bool * jstr => negb rule.1) (drop 8 (rules [] r))).
Proof.
  intros H. destruct (typed_route_fields r H) as (_ & _ & _ & _ & H4). unfold rules. cbn [drop].
  unfold hasAuth. destruct (truthy (fld r (js "auth"))) eqn:Ea; [|done]. cbn [negb orb].
  destruct (typed_auth_fields _ H4 Ea) as (_ & A1 & _ & _). unfold authText in *. set (a := fld r (js "auth")) in *.
  unfold validateRouteAuth. change (truthy (normAuth a)) with true. cbn [negb].
  change (prop (normAuth a) (js "type")) with (Ret (fld a (js "type"))). cbn [obind]. rewrite !isString_text by done.
  change (prop (normAuth a) (js "name")) with (Ret (VStr (textOf (fld a (js "name"))))).
  change (prop (normAuth a) (js "value")) with (Ret (VStr (textOf (fld a (js "value"))))). cbn [obind optTrim callTrim].
  destruct (textOf (fld a (js "type")) === js "none"); [done|]. cbn [orb].
  destruct (textOf (fld a (js "type")) === js "header"), (textOf (fld a (js "type")) === js "query"); cbn [negb andb orb find fst];
    try done; destruct (truthy_str (trim (textOf (fld a (js "name"))))), (truthy_str (trim (textOf (fld a (js "value"))))); done.
Qed.

Lemma validate_route seen r : typedRoute r = true -> validateRoute newURL seen (normRoute r) = Ret (routePath r, firstBroken seen r).
Proof.
  intros H. destruct (normRoute_fields r) as (Hp & F1 & F2 & F3 & F4). pose proof (validate_auth r H) as Ha.
  unfold validateRoute, getAdvancedCustomRouteUpstreamPath. rewrite !Hp. cbn [obind]. rewrite F1, F2, F3, F4.
  change (converterValue ConvNone) with (js "none"). rewrite !vor_str, str_or_nil, str_or_idem. cbn [optTrim callTrim obind]. fold (routePath r).
  replace (trim (routeUpstream r)) with (routeUpstream r) by (unfold routeUpstream; by rewrite trim_idem).
  fold (routeConverter r). rewrite Ha. unfold firstBroken, rules. cbn [drop].
  destruct (truthy_str (routePath r)); [|done]. destruct (starts_with (js "/") (routePath r)); [|done].
  destruct (includes (js "?") (routePath r)); [done|]. destruct (bool_decide (routePath r ∈ seen)); [done|].
  destruct (truthy_str (routeUpstream r)); [|done]. destruct (isFullHttpURLOrAbsolutePath newURL (routeUpstream r)); [|done].
  destruct (routeConverter r) as [c|]; [|done]. destruct (isConverterPathAllowed (routePath r) c); [|done]. cbn [negb obind find fst].
  done.
Qed.

(** ** Rules and acceptance *)

Lemma find_broken (l : list (bool * jstr)) : List.find (fun rule => negb rule.1) l = None <-> Forall (fun rule => rule.1 = true) l.
Proof.
  induction l as [|[b m] l IH]; cbn; [split; [constructor|done]|]. rewrite Forall_cons. destruct b; cbn; [by rewrite IH; naive_solver|].
  split; [done|]. by intros [? _].
Qed.

Lemma upstream_rule s : truthy_str s = true /\ isFullHttpURLOrAbsolutePath newURL s = true <-> upstreamOk s.
Proof.
  unfold upstreamOk, isFullHttpURLOrAbsolutePath. rewrite truthy_str_spec. destruct (starts_with (js "/") s) eqn:E.
  - apply starts_with_spec in E as [p ->]. change (starts_with (js "//") (js "/" ++ p)) with (starts_with (js "/") p).
    rewrite negb_true_iff. split; [intros [_ H]; left; eauto|]. intros [(q & [= <-] & H)|(_ & H & _)]; [|done]. done.
  - split.
    + intros [Hn H]. right. destruct (newURL s) as [[host protocol]|]; [|done]. rewrite andb_true_iff, orb_true_iff, truthy_str_spec, !bool_decide_eq_true in H.
      split_and!; [done|done|]. exists host, protocol. naive_solver.
    + intros [(p & -> & _)|(Hn & _ & host & protocol & -> & Hh & Hp)]; [done|]. split; [done|].
      rewrite andb_true_iff, orb_true_iff, truthy_str_spec, !bool_decide_eq_true. done.
Qed.

Lemma path_rule s : truthy_str s = true /\ starts_with (js "/") s = true <-> exists p, s = js "/" ++ p.
Proof. rewrite starts_with_spec, truthy_str_spec. split; [by intros [_ H]|]. intros [p ->]. eauto. Qed.

Lemma firstBroken_None earlier r : firstBroken earlier r = None <-> acceptable r /\ routePath r ∉ earlier.
Proof.
  unfold firstBroken. rewrite fmap_None, find_broken. unfold rules. rewrite !Forall_cons. cbn [fst].
  set (free := negb (hasAuth r) || _). assert (Hfree : free = true <-> hasAuth r = false \/ authText r (js "type") = js "none").
  { unfold free. by rewrite orb_true_iff, negb_true_iff, bool_decide_eq_true. }
  rewrite !orb_true_iff, !bool_decide_eq_true, !truthy_str_spec, Hfree, !negb_true_iff, bool_decide_eq_false.
  rewrite <- !truthy_str_spec.
  split.
  - intros (H1 & H2 & H3 & H4 & H5 & H6 & H7 & H8 & H9 & H10 & H11 & _). split; [|done]. constructor.
    + by apply path_rule.
    + rewrite <- includes_char. change [63%N] with (js "?"). by rewrite H3.
    + by apply upstream_rule.
    + destruct (routeConverter r) as [c|]; [|done]. by exists c.
    + rewrite <- !truthy_str_spec. intros Ha Ht. rewrite Ha in *. naive_solver.
  - intros [[K1 K2 K3 K4 K5] Hn]. apply path_rule in K1 as [? ?]. apply upstream_rule in K3 as [? ?]. destruct K4 as (c & -> & Hc).
    rewrite <- includes_char in K2. change [63%N] with (js "?") in K2. apply not_true_is_false in K2.
    rewrite <- !truthy_str_spec in K5.
    destruct (decide (hasAuth r = false \/ authText r (js "type") = js "none")) as [Hf|Hf].
    + split_and!; try done; naive_solver.
    + assert (Ha : hasAuth r = true) by (destruct (hasAuth r); naive_solver). destruct K5 as ([K5|K5] & K6 & K7); naive_solver.
Qed.

Lemma firstBroken_ext a b r : (forall p, p ∈ a <-> p ∈ b) -> firstBroken a r = firstBroken b r.
Proof. intros H. unfold firstBroken, rules. by rewrite (bool_decide_ext _ _ (H (routePath r))). Qed.

(** The error of a list of routes after the paths [seen]. *)
Fixpoint firstError (index : nat) (seen : list jstr) (rs : list jsval) : option AdvancedCustomValidationError :=
  match rs with
  | [] => None
  | r :: rs' => match firstBroken seen r with
                | Some m => Some (mkError m (Some index))
                | None => firstError (S index) (routePath r :: seen) rs'
                end
  end.

Lemma validate_routes rs : Forall (fun r => typedRoute r = true) rs -> forall index seen,
  validateRoutes newURL index seen (map normRoute rs) = Ret (firstError index seen rs).
Proof.
  induction 1 as [|r rs Hr _ IH]; intros index seen; [done|]. cbn [map validateRoutes firstError].
  rewrite validate_route by done. cbn [obind fst snd]. destruct (firstBroken seen r); [done|apply IH].
Qed.

Lemma mapOutcome_pure {A B} (f : A -> outcome B) g xs : Forall (fun x => f x = Ret (g x)) xs -> mapOutcome f xs = Ret (map g xs).
Proof. induction 1 as [|x xs Hx _ IH]; [done|]. cbn. by rewrite Hx, IH. Qed.

Definition normConfig (c : jsval) : jsval := configObject (map normRoute (routesOf c)).

Lemma typed_routes c : typedConfig c = true -> Forall (fun r => typedRoute r = true) (routesOf c).
Proof. destruct c; try done. cbn [typedConfig]. intros H. by apply Forall_forall; intros r Hr; rewrite forallb_forall in H; apply H, list_elem_of_In. Qed.

Lemma normalize_config c : typedConfig c = true -> normalizeAdvancedCustomConfig c = Ret (normConfig c).
Proof.
  intros H. pose proof (typed_routes c H) as Hr. destruct c as [| | | | | |fs]; try done.
  unfold normalizeAdvancedCustomConfig, normConfig, routesOf in *. change (prop (VObj fs) ?k) with (Ret (fld (VObj fs) k)). cbn [obind].
  destruct (fld (VObj fs) (js "advanced_routes")); try done.
  rewrite (mapOutcome_pure _ normRoute); [done|]. eapply Forall_impl; [exact Hr|]. intros r. apply normalize_route.
Qed.

Lemma validate_config c : typedConfig c = true -> validateAdvancedCustomConfig newURL c =
  Ret (match routesOf c with [] => Some (mkError ROUTE_REQUIRED None) | rs => firstError 0 [] rs end).
Proof.
  intros H. unfold validateAdvancedCustomConfig. assert (Ht : truthy c = true) by (by destruct c). rewrite Ht. cbn [negb].
  rewrite normalize_config by done. cbn [obind]. change (advancedRoutes (normConfig c)) with (Ret (map normRoute (routesOf c))). cbn [obind].
  pose proof (typed_routes c H) as Hr. destruct (routesOf c) as [|r rs]; [done|]. cbn [map]. apply (validate_routes (r :: rs) Hr 0 []).
Qed.

(** ** The first error *)

Definition tableOk (rs : list jsval) : Prop := Forall acceptable rs /\ NoDup (map routePath rs).

Lemma firstError_None rs : forall index seen, firstError index seen rs = None <->
  tableOk rs /\ Forall (fun r => routePath r ∉ seen) rs.
Proof.
  induction rs as [|r rs IH]; intros index seen; cbn [firstError].
  - split; [|done]. intros _. by repeat constructor.
  - unfold tableOk in *. cbn [map]. rewrite !Forall_cons, NoDup_cons. destruct (firstBroken seen r) as [m|] eqn:E.
    + split; [done|]. intros ([[Ha _] _] & Hn & _). assert (firstBroken seen r = None) by (by apply firstBroken_None). congruence.
    + apply firstBroken_None in E. rewrite IH. assert (Hs : Forall (fun x => routePath x ∉ routePath r :: seen) rs <->
        routePath r ∉ map routePath rs /\ Forall (fun x => routePath x ∉ seen) rs).
      { rewrite !Forall_forall. setoid_rewrite not_elem_of_cons. rewrite list_elem_of_fmap. naive_solver. }
      rewrite Hs. naive_solver.
Qed.

Lemma firstError_Some rs m j : forall index seen, firstError index seen rs = Some (mkError m j) <->
  exists i r, j = Some (index + i)%nat /\ rs !! i = Some r /\ tableOk (take i rs) /\
    Forall (fun x => routePath x ∉ seen) (take i rs) /\ firstBroken (map routePath (take i rs) ++ seen) r = Some m.
Proof.
  induction rs as [|r rs IH]; intros index seen; cbn [firstError].
  { split; [done|]. by intros (i & r & _ & ? & _). }
  destruct (firstBroken seen r) as [m'|] eqn:E.
  - split.
    + intros [= -> <-]. exists 0%nat, r. rewrite Nat.add_0_r. split_and!; try done; repeat constructor.
    + intros ([|i] & r' & -> & Hl & [Hok _] & Hs & Hm).
      * injection Hl as <-. change (firstBroken seen r = Some m) in Hm. rewrite E in Hm. injection Hm as ->. by rewrite Nat.add_0_r.
      * exfalso. cbn in Hok, Hs. apply Forall_cons in Hok as [Ha _]. apply Forall_cons in Hs as [Hn _].
        assert (firstBroken seen r = None) by (by apply firstBroken_None). congruence.
  - rewrite IH. apply firstBroken_None in E as [Ha Hn]. split.
    + intros (i & r' & -> & Hl & [Hok Hd] & Hs & Hm). exists (S i), r'. cbn [take lookup list_lookup map app].
      rewrite Forall_forall in Hs. split_and!; [f_equal; lia|done| | |].
      * split; [by constructor|]. cbn. constructor; [|done]. intros Hin. apply list_elem_of_fmap in Hin as (x & Ex & Hx).
        apply (Hs x Hx). rewrite <- Ex. by left.
      * constructor; [done|]. apply Forall_forall. intros x Hx Hin. apply (Hs x Hx). by right.
      * rewrite <- Hm. apply firstBroken_ext. intros p. rewrite elem_of_cons, !elem_of_app, elem_of_cons. naive_solver.
    + intros ([|i] & r' & -> & Hl & [Hok Hd] & Hs & Hm).
      * injection Hl as <-. change (firstBroken seen r = Some m) in Hm. assert (firstBroken seen r = None) by (by apply firstBroken_None). congruence.
      * change (firstBroken (routePath r :: map routePath (take i rs) ++ seen) r' = Some m) in Hm. cbn in Hl, Hok, Hd, Hs. apply Forall_cons in Hok as [_ Hok]. apply NoDup_cons in Hd as [Hnd Hd]. apply Forall_cons in Hs as [_ Hs].
        exists i, r'. split_and!; [f_equal; lia|done|done| |].
        { rewrite Forall_forall in *. intros x Hx. rewrite not_elem_of_cons. split; [|by apply Hs]. intros Ex. apply Hnd. rewrite <- Ex.
          apply list_elem_of_fmap. eauto. }
        { rewrite <- Hm. apply firstBroken_ext. intros p. rewrite elem_of_cons, !elem_of_app, elem_of_cons. naive_solver. }
Qed.

End Spec.

(** ** Normal forms *)

Lemma storable_text v : textField v = true -> storable v = true.
Proof. by destruct v. Qed.

Lemma storable_route r : typedRoute r = true -> storable (normRoute r) = true.
Proof.
  intros H. destruct (typed_route_fields r H) as (_ & _ & _ & _ & H4). unfold normRoute, hasAuth.
  destruct (truthy (fld r (js "auth"))) eqn:Ea; [|vm_compute; reflexivity].
  destruct (typed_auth_fields _ H4 Ea) as (_ & A1 & _ & _). apply storable_text in A1. revert A1. unfold normAuth.
  generalize (fld (fld r (js "auth")) (js "type")). intros t Ht. cbn [app storable map fst snd forallb]. rewrite Ht.
  vm_compute. reflexivity.
Qed.

(** A normalised route, before or after its text: the fields are the same. *)
Lemma norm_again_fields r r' : typedRoute r = true -> r' = normRoute r \/ r' = prune (normRoute r) ->
  fld r' (js "incoming_path") = VStr (textOf (fld r (js "incoming_path"))) /\ fld r' (js "upstream_path") = VStr (routeUpstream r) /\
  fld r' (js "converter") = VStr (str_or (textOf (fld r (js "converter"))) (js "none")) /\
  hasAuth r' = hasAuth r /\ typedRoute r' = true /\ (hasAuth r = true -> normAuth (fld r' (js "auth")) = normAuth (fld r (js "auth"))).
Proof.
  intros H Hr'. destruct (typed_route_fields r H) as (_ & _ & _ & _ & H4). unfold normRoute in Hr'. unfold hasAuth at 2 3.
  destruct (hasAuth r) eqn:Ea; unfold hasAuth in Ea; rewrite Ea.
  - destruct (typed_auth_fields _ H4 Ea) as (_ & A1 & _ & _). unfold normAuth in *.
    destruct (fld (fld r (js "auth")) (js "type")) as [| | | |t| |]; try done; destruct Hr' as [-> | ->]; split_and!; reflexivity.
  - destruct Hr' as [-> | ->]; split_and!; done.
Qed.

Lemma norm_again r r' : typedRoute r = true -> r' = normRoute r \/ r' = prune (normRoute r) ->
  typedRoute r' = true /\ normRoute r' = normRoute r.
Proof.
  intros H Hr'. destruct (norm_again_fields r r' H Hr') as (F1 & F2 & F3 & F4 & F5 & F6). split; [done|].
  assert (Eu : routeUpstream r' = routeUpstream r) by (unfold routeUpstream at 1; rewrite F2; apply trim_idem).
  unfold normRoute. rewrite F1, F3, F4, Eu. cbn [textOf]. rewrite str_or_idem. destruct (hasAuth r); [|done]. by rewrite F6.
Qed.

Lemma norm_config_again c rs : Forall (fun r => typedRoute r = true) (routesOf c) ->
  Forall2 (fun r r' => r' = normRoute r \/ r' = prune (normRoute r)) (routesOf c) rs ->
  normalizeAdvancedCustomConfig (configObject rs) = Ret (normConfig c).
Proof.
  intros Ht H. rewrite normalize_config.
  - f_equal. unfold normConfig. change (routesOf (configObject rs)) with rs. f_equal. induction H as [|r r' l l' Hr _ IH]; [done|].
    apply Forall_cons in Ht as [H1 H2]. cbn. rewrite IH by done. f_equal. by apply norm_again.
  - cbn [typedConfig configObject]. change (routesOf _) with rs. induction H as [|r r' l l' Hr _ IH]; [done|].
    apply Forall_cons in Ht as [H1 H2]. cbn [forallb]. rewrite IH, andb_true_r by done. by apply (norm_again r).
Qed.

Lemma norm_config_idem c : typedConfig c = true -> normalizeAdvancedCustomConfig (normConfig c) = Ret (normConfig c).
Proof.
  intros H. apply norm_config_again; [by apply typed_routes|]. apply Forall2_fmap_r, Forall_Forall2_diag, Forall_forall. by left.
Qed.

Lemma prune_config c : prune (normConfig c) = configObject (map (fun r => prune (normRoute r)) (routesOf c)).
Proof. unfold normConfig, configObject. cbn. by rewrite map_map. Qed.

Lemma storable_config c : typedConfig c = true -> storable (normConfig c) = true.
Proof.
  intros H%typed_routes. unfold normConfig, configObject. cbn [storable map fst snd forallb]. rewrite andb_true_r.
  apply andb_true_iff. split; [vm_compute; reflexivity|]. rewrite ?andb_true_r. apply forallb_forall. intros x Hx. apply in_map_iff in Hx as (r & <- & Hr).
  rewrite Forall_forall in H. by apply storable_route, H, list_elem_of_In.
Qed.

Lemma trim_head c t : is_ws c = false -> truthy_str (trim (c :: t)) = true.
Proof.
  intros Hc. apply truthy_str_spec. unfold trim, trim_end. cbn [trim_start]. rewrite Hc. cbn [rev]. intros E.
  destruct (trim_start_suffix (rev t ++ [c])) as (w & Ew & Hw). apply (f_equal (@rev N)) in E. rewrite rev_involutive in E. cbn in E.
  rewrite E, app_nil_r in Ew. rewrite <- Ew in Hw. apply Forall_app in Hw as [_ Hw]. apply Forall_inv in Hw. congruence.
Qed.

(** ** Values that are not of the declared type *)

(** The first route has an incoming path that is truthy and not a string. *)
Definition badHead (c : jsval) : Prop :=
  exists fs r rs, c = VObj fs /\ get_prop (js "advanced_routes") fs = VArr (r :: rs) /\
    truthy (fld r (js "incoming_path")) = true /\ forall s, fld r (js "incoming_path") <> VStr s.

Lemma normalize_route_path r n : normalizeAdvancedCustomRoute r = Ret n ->
  exists p, prop r (js "incoming_path") = Ret p /\ fld n (js "incoming_path") = vor p (VStr []).
Proof.
  unfold normalizeAdvancedCustomRoute. destruct (prop r (js "incoming_path")) as [p|]; [|done]. cbn [obind]. intros H. exists p. split; [done|].
  destruct (getAdvancedCustomRouteUpstreamPath r) as [up|]; [|done]. cbn [obind] in H.
  destruct (prop r (js "converter")) as [cv|]; [|done]. cbn [obind] in H.
  destruct (prop r (js "auth")) as [a|]; [|done]. cbn [obind] in H. destruct (truthy a); [|injection H as <-; done].
  destruct (prop a (js "type")) as [ty|]; [|done]. destruct (prop a (js "name")) as [nm|]; [|done].
  destruct (prop a (js "value")) as [va|]; [|done]. cbn [obind] in H. by injection H as <-.
Qed.

Lemma normalize_badHead c c' : badHead c -> normalizeAdvancedCustomConfig c = Ret c' -> badHead c'.
Proof.
  intros (fs & r & rs & -> & Hg & Ht & Hn) H. unfold normalizeAdvancedCustomConfig in H.
  change (prop (VObj fs) (js "advanced_routes")) with (Ret (get_prop (js "advanced_routes") fs)) in H. rewrite Hg in H. cbn [obind mapOutcome] in H.
  destruct (normalizeAdvancedCustomRoute r) as [n|] eqn:En; [|done]. cbn [obind] in H.
  destruct (mapOutcome normalizeAdvancedCustomRoute rs) as [ns|]; [|done]. cbn [obind] in H. injection H as <-.
  destruct (normalize_route_path r n En) as (p & Hp & Hf). assert (Ep : p = fld r (js "incoming_path")) by (destruct r; try done; by injection Hp).
  rewrite Ep in Hf. unfold vor in Hf. rewrite Ht in Hf. eexists _, n, ns. split_and!; [reflexivity|reflexivity|..]; by rewrite Hf.
Qed.

Lemma validate_badHead newURL c : badHead c -> validateAdvancedCustomConfig newURL c = Throw.
Proof.
  intros Hb. unfold validateAdvancedCustomConfig. assert (Ht : truthy c = true) by (destruct Hb as (fs & r & rs & -> & _); done).
  rewrite Ht. cbn [negb]. destruct (normalizeAdvancedCustomConfig c) as [c'|] eqn:En; [|done]. cbn [obind].
  destruct (normalize_badHead c c' Hb En) as (fs & r & rs & -> & Hg & Hp & Hn).
  unfold advancedRoutes. change (prop (VObj fs) (js "advanced_routes")) with (Ret (get_prop (js "advanced_routes") fs)).
  rewrite Hg. cbn [obind validateRoutes]. unfold validateRoute.
  destruct r as [| | | | | |gs]; try done. change (prop (VObj gs) (js "incoming_path")) with (Ret (fld (VObj gs) (js "incoming_path"))).
  cbn [obind]. destruct (fld (VObj gs) (js "incoming_path")); try done. by destruct (Hn s).
Qed.

(** ** Checks that evaluate *)

Definition yields {A} (m : outcome A) (check : A -> bool) : bool := match m with Ret a => check a | Throw => false end.
Definition isValid (newURL : jstr -> option (jstr * jstr)) (c : jsval) : bool :=
  yields (validateAdvancedCustomConfig newURL c) (fun e => match e with None => true | Some _ => false end).

Lemma yields_elim {A} (m : outcome A) check : yields m check = true -> exists a, m = Ret a /\ check a = true.
Proof. destruct m; [eauto|done]. Qed.

Lemma isValid_elim newURL c : isValid newURL c = true -> validateAdvancedCustomConfig newURL c = Ret None.
Proof. unfold isValid. intros (e & -> & He)%yields_elim. by destruct e. Qed.

(** A table with two routes, and a platform that knows one URL. *)
Definition sampleURL (s : jstr) : option (jstr * jstr) :=
  if s === js "https://up.example/v1" then Some (js "up.example", js "https:") else None.
Definition sampleConfig (second : jstr) : jsval :=
  configObject
    [VObj [(js "incoming_path", VStr (js " /v1/messages ")); (js "upstream_path", VStr (js "https://up.example/v1"));
           (js "converter", VStr (js "anthropic_messages_to_openai_chat_completions"));
           (js "auth", VObj [(js "name", VStr (js "key")); (js "value", VStr (js "{api_key}")); (js "type", VStr (js "query"))])];
     VObj [(js "incoming_path", VStr second); (js "upstream_path", VStr (js "/v1")); (js "auth", VObj [(js "type", VNull)])]].

(** ** Properties *)

(** [C32] The validator accepts exactly the route tables of its specification:
    on a configuration of the declared type it never throws, and it reports
    nothing if and only if there is a route, the trimmed incoming paths are
    pairwise distinct and every route is acceptable (a path with a slash and
    without a query, an upstream path or http(s) URL, a registered converter
    that fits the path, and complete authentication). *)
Theorem validation_accepts_exactly newURL c : typedConfig c = true ->
  exists e, validateAdvancedCustomConfig newURL c = Ret e /\
    (e = None <-> routesOf c <> [] /\ Forall (acceptable newURL) (routesOf c) /\ NoDup (map routePath (routesOf c))).
Proof.
  intros H. eexists. split; [by apply validate_config|]. destruct (routesOf c) as [|r rs]; [naive_solver|].
  rewrite firstError_None. unfold tableOk. split; [naive_solver|]. intros (_ & H1 & H2). split; [done|].
  apply Forall_forall. intros x _. apply not_elem_of_nil.
Qed.

Lemma validation_accepts_exactly_witness :
  let c := sampleConfig (js "/v1/messages") in
  (exists e, validateAdvancedCustomConfig sampleURL c = Ret e /\
    (e = None <-> routesOf c <> [] /\ Forall (acceptable sampleURL) (routesOf c) /\ NoDup (map routePath (routesOf c)))) /\
  validateAdvancedCustomConfig sampleURL c = Ret (Some (mkError INCOMING_UNIQUE (Some 1%nat))).
Proof. cbv zeta. split; [apply validation_accepts_exactly|]; vm_compute; reflexivity. Defined.

(** An error names the first bad route and the first rule it breaks: the
    validator reports the message [m] for the route [i] exactly when the routes
    before [i] are acceptable with distinct paths and [m] is the first broken
    rule of the route [i] against those paths. *)
Theorem validation_reports_first newURL c m i : typedConfig c = true ->
  validateAdvancedCustomConfig newURL c = Ret (Some (mkError m (Some i))) <->
  exists r, routesOf c !! i = Some r /\ Forall (acceptable newURL) (take i (routesOf c)) /\
    NoDup (map routePath (take i (routesOf c))) /\ firstBroken newURL (map routePath (take i (routesOf c))) r = Some m.
Proof.
  intros H. rewrite (validate_config newURL c H). destruct (routesOf c) as [|r rs].
  { split; [done|]. by intros (r & Hr & _). }
  transitivity (firstError newURL 0 [] (r :: rs) = Some (mkError m (Some i))); [split; [intros E; injection E; done|intros E; f_equal; exact E]|].
  rewrite firstError_Some. setoid_rewrite app_nil_r. unfold tableOk. split.
  - intros (k & r' & [= ->] & Hr & [H1 H2] & _ & Hm). by exists r'.
  - intros (r' & Hr & H1 & H2 & Hm). exists i, r'. split_and!; try done. apply Forall_forall. intros x _. apply not_elem_of_nil.
Qed.

Lemma validation_reports_first_witness :
  let c := sampleConfig (js "/b") in
  exists r, routesOf c !! 1%nat = Some r /\ Forall (acceptable sampleURL) (take 1 (routesOf c)) /\
    NoDup (map routePath (take 1 (routesOf c))) /\ firstBroken sampleURL (map routePath (take 1 (routesOf c))) r = Some AUTH_INVALID.
Proof. cbv zeta. apply validation_reports_first; vm_compute; reflexivity. Defined.

(** A configuration survives its text: for every configuration of the
    declared type the JSON text that the editor stores parses back to the
    normalised configuration, normalising again changes nothing, and the
    statistics of the text show the number of routes and the validator's
    verdict on the configuration. *)
Theorem config_text_round_trip newURL c : typedConfig c = true ->
  exists text e, stringifyAdvancedCustomConfig c = Ret text /\
    parseAdvancedCustomConfig (Some text) = Some (normConfig c) /\
    normalizeAdvancedCustomConfig (normConfig c) = normalizeAdvancedCustomConfig c /\
    validateAdvancedCustomConfig newURL c = Ret e /\
    getAdvancedCustomStats newURL (Some text) = Ret (length (routesOf c), match e with None => true | Some _ => false end).
Proof.
  intros H. pose proof (normalize_config c H) as En. pose proof (norm_config_idem c H) as Ei.
  destruct (json_read_back (js "  ") (normConfig c)) as (text & Et & Ep); [by repeat constructor|by apply storable_config|done|].
  assert (Hv : validateAdvancedCustomConfig newURL (normConfig c) = validateAdvancedCustomConfig newURL c).
  { unfold validateAdvancedCustomConfig. rewrite Ei, En. by destruct c. }
  assert (Hparse : parseAdvancedCustomConfig (Some text) = Some (normConfig c)).
  { unfold parseAdvancedCustomConfig. assert (Hh : exists t', text = 123%N :: t').
    { unfold normConfig, configObject in Et. cbn in Et. injection Et as <-. eexists. reflexivity. }
    destruct Hh as [t' Eh]. rewrite Ep, prune_config. rewrite Eh at 1. rewrite trim_head by done. cbn [negb].
    pose proof (norm_config_again c (map (fun r => prune (normRoute r)) (routesOf c)) (typed_routes c H)) as Ea. unfold configObject in *.
    rewrite Ea; [done|]. apply Forall2_fmap_r, Forall_Forall2_diag, Forall_forall. by right. }
  eexists text, _. split_and!; [|done|by rewrite En|by apply validate_config|].
  - unfold stringifyAdvancedCustomConfig. rewrite En. cbn [obind]. unfold json_stringify2. by rewrite Et.
  - unfold getAdvancedCustomStats. rewrite Hparse, Ei. cbn [obind].
    change (advancedRoutes (normConfig c)) with (Ret (map normRoute (routesOf c))). cbn [obind].
    rewrite Hv, (validate_config newURL c H). cbn [obind]. by rewrite length_map.
Qed.

Lemma config_text_round_trip_witness :
  let c := sampleConfig (js "/b") in
  exists text e, stringifyAdvancedCustomConfig c = Ret text /\
    parseAdvancedCustomConfig (Some text) = Some (normConfig c) /\
    normalizeAdvancedCustomConfig (normConfig c) = normalizeAdvancedCustomConfig c /\
    validateAdvancedCustomConfig sampleURL c = Ret e /\
    getAdvancedCustomStats sampleURL (Some text) = Ret (length (routesOf c), match e with None => true | Some _ => false end).
Proof. cbv zeta. apply config_text_round_trip. vm_compute. reflexivity. Defined.

(** What the editor offers is valid: every template key gives a valid
    configuration; for every converter the default incoming path is allowed and
    each path the editor offers, with the placeholder upstream path and the
    authentication of any mode, makes a valid route. *)
Theorem editor_offers_valid newURL :
  (forall key, exists c, getAdvancedCustomTemplateConfig key = Ret c /\ validateAdvancedCustomConfig newURL c = Ret None) /\
  (forall conv, isAdvancedCustomIncomingPathAllowed (getDefaultAdvancedCustomIncomingPath conv) conv = true) /\
  (forall conv path mode, isAdvancedCustomIncomingPathAllowed path conv = true -> exists auth,
     buildAdvancedCustomAuth mode VUndef = Ret auth /\
     validateAdvancedCustomConfig newURL
       (configObject [routeObject path (getAdvancedCustomUpstreamPathPlaceholder conv) conv [(js "auth", auth)]]) = Ret None).
Proof.
  split_and!.
  - intros key. assert (H : forallb (fun o => yields (cloneAdvancedCustomConfig (to_config o)) (isValid newURL)) ADVANCED_CUSTOM_TEMPLATE_OPTIONS = true)
      by (vm_compute; reflexivity). rewrite forallb_forall in H.
    assert (Ho : exists o, In o ADVANCED_CUSTOM_TEMPLATE_OPTIONS /\ getAdvancedCustomTemplateConfig key = cloneAdvancedCustomConfig (to_config o)).
    { unfold getAdvancedCustomTemplateConfig. destruct (List.find _ ADVANCED_CUSTOM_TEMPLATE_OPTIONS) as [o|] eqn:E.
      - exists o. split; [apply find_some in E as [Hin _]; exact Hin|done].
      - eexists. split; [by left|reflexivity]. }
    destruct Ho as (o & Hin & ->). destruct (yields_elim _ _ (H o Hin)) as (c & -> & Hc). eauto using isValid_elim.
  - intros []; vm_compute; reflexivity.
  - intros conv path mode Hp. apply existsb_exists in Hp as (o & Ho & Ep%bool_decide_eq_true). subst path.
    assert (H : forallb (fun o => yields (buildAdvancedCustomAuth mode VUndef) (fun auth => isValid newURL
        (configObject [routeObject (po_value o) (getAdvancedCustomUpstreamPathPlaceholder conv) conv [(js "auth", auth)]])))
      (getAdvancedCustomIncomingPathOptions conv) = true) by (destruct conv, mode; vm_compute; reflexivity).
    rewrite forallb_forall in H. destruct (yields_elim _ _ (H o Ho)) as (auth & -> & Hc). eauto using isValid_elim.
Qed.

Lemma editor_offers_valid_witness :
  (exists auth, buildAdvancedCustomAuth AuthHeader VUndef = Ret auth /\
     validateAdvancedCustomConfig sampleURL
       (configObject [routeObject (js "/v1/messages") (getAdvancedCustomUpstreamPathPlaceholder AnthropicToOpenAIChat) AnthropicToOpenAIChat
          [(js "auth", auth)]]) = Ret None).
Proof.
  destruct (editor_offers_valid sampleURL) as (_ & _ & H). apply (H AnthropicToOpenAIChat (js "/v1/messages") AuthHeader). vm_compute. reflexivity.
Defined.

(** The statistics of a stored text throw when the first route's incoming
    path is a truthy value that is not a string: the parser accepts such a text
    (it normalises without a type check), and the validator calls [trim] on the
    value outside any [try]. *)
Theorem stats_throw_on_nonstring_path newURL text fs r rs :
  json_parse text = Some (VObj fs) -> get_prop (js "advanced_routes") fs = VArr (r :: rs) ->
  truthy (fld r (js "incoming_path")) = true -> (forall s, fld r (js "incoming_path") <> VStr s) ->
  parseAdvancedCustomConfig (Some text) <> None ->
  getAdvancedCustomStats newURL (Some text) = Throw.
Proof.
  intros Hj Hg Ht Hn Hp. unfold getAdvancedCustomStats. destruct (parseAdvancedCustomConfig (Some text)) as [c|] eqn:Ec; [|done].
  unfold parseAdvancedCustomConfig in Ec. destruct (negb _); [done|]. rewrite Hj in Ec.
  destruct (normalizeAdvancedCustomConfig (VObj fs)) as [c'|] eqn:En; [|done]. injection Ec as ->.
  assert (Hb : badHead c) by (eapply normalize_badHead; [|exact En]; by exists fs, r, rs).
  destruct (normalizeAdvancedCustomConfig c) as [n|] eqn:En2; [|done]. cbn [obind].
  pose proof (normalize_badHead _ _ Hb En2) as Hb2. rewrite (validate_badHead newURL n Hb2). by destruct (advancedRoutes n).
Qed.

Lemma stats_throw_on_nonstring_path_witness :
  getAdvancedCustomStats sampleURL (Some (jsq "{'advanced_routes':[{'incoming_path':5,'upstream_path':'/v1'}]}")) = Throw.
Proof.
  eapply stats_throw_on_nonstring_path; [vm_compute; reflexivity|vm_compute; reflexivity|vm_compute; reflexivity|intros s; vm_compute; discriminate|].
  vm_compute. discriminate.
Defined.
