(* ===== verification/ChannelForm.v ===== *)
(** * The channel form (features/channels/lib/channel-form.ts)

    A channel is edited in a form whose values are sent to the server as a
    payload and read back from the stored channel.  Two columns of the stored
    channel are JSON texts: [setting] holds six general switches, [settings]
    holds what depends on the channel type.  Form, channel and payload are
    JavaScript objects (ordered property lists) because the JSON they carry is
    read without a schema.  The schema library calls the refinements modelled
    here; its own field checks are not part of the model. *)
From stdpp Require Import prelude list strings.
From S2P Require Import Prelude JsString JsNumber JsValue JsonText AdvancedCustom.
Open Scope js_scope.

(** [o.k] of an object, and the same for a literal key. *)
Definition at_ (o : fields) (k : string) : jsval := get_prop (js k) o.
Notation "o .[ k ]" := (at_ o k%string) (at level 2, format "o .[ k ]").

(** [v === z] for a number [z]. *)
Definition isNum (v : jsval) (z : Z) : bool := match v with VNum n => num_eqb n (num_of_Z z) | _ => false end.

(** A value of type [string | undefined]. *)
Definition strOf (v : jsval) : option jstr := match v with VStr s => Some s | _ => None end.

(** [!v?.trim()] for such a value. *)
Definition isBlank (v : option jstr) : bool := match v with Some s => negb (truthy_str (trim s)) | None => true end.

(** ** Refinements of single fields *)

Definition parseOptionalJson (value : option jstr) : outcome jsval :=
  if isBlank value then Ret VUndef
  else match json_parse (default [] value) with Some v => Ret v | None => Throw end.

Definition isJsonObjectValue (value : jsval) : bool := match value with VObj _ => true | _ => false end.

Definition isOptionalJsonObject (value : option jstr) : bool :=
  match parseOptionalJson value with
  | Ret VUndef => true
  | Ret parsed => isJsonObjectValue parsed
  | Throw => false
  end.

Definition isOptionalModelMapping (value : option jstr) : bool :=
  match parseOptionalJson value with
  | Ret VUndef => true
  | Ret (VObj fs) => forallb (fun item => match item with VStr _ => true | _ => false end) (obj_values fs)
  | _ => false
  end.

(** [Number.isInteger(n) && 100 <= n && n <= 599] *)
Definition isStatusCodeNumber (n : number) : bool :=
  match num_to_Z n with Some z => ((100 <=? z) && (z <=? 599))%Z | None => false end.

Definition isOptionalStatusCodeMapping (value : option jstr) : bool :=
  match parseOptionalJson value with
  | Ret VUndef => true
  | Ret (VObj fs) => forallb (fun e => isStatusCodeNumber (num_of_str e.1) && isStatusCodeNumber (js_Number e.2)) (entries fs)
  | _ => false
  end.

Definition nonBlankString (v : jsval) : bool := match v with VStr s => truthy_str (trim s) | _ => false end.

Definition isCodexCredential (value : option jstr) : bool :=
  match parseOptionalJson value with
  | Ret VUndef => true
  | Ret (VObj fs) => nonBlankString fs.["access_token"] && nonBlankString fs.["account_id"]
  | _ => false
  end.

Definition isVertexJsonKey (value : option jstr) : bool :=
  match parseOptionalJson value with
  | Ret VUndef => true
  | Ret (VArr xs) => forallb isJsonObjectValue xs
  | Ret parsed => isJsonObjectValue parsed
  | Throw => false
  end.

(** ** The refinement of the whole form *)

Record Issue := mkIssue { i_path : jstr; i_message : jstr }.

Definition CHANNEL_TYPE_ADVANCED_CUSTOM : Z := 58.
Definition MODEL_FETCHABLE_TYPES : list Z := [1; 4; 14; 17; 20; 23; 24; 25; 26; 27; 31; 34; 35; 40; 42; 43; 47; 48]%Z.

Definition typeIs (o : fields) (z : Z) : bool := isNum o.["type"] z.
Definition typeIn (o : fields) (zs : list Z) : bool := existsb (typeIs o) zs.

Definition BASE_URL_REQUIRED : jstr := js "Base URL is required for this channel type".
Definition BASE_URL_FOR_ROUTES : jstr := js "Base URL is required when an advanced route uses an upstream path".
Definition OTHER_REQUIRED : jstr := js "This channel type requires additional configuration".
Definition CODEX_NO_BATCH : jstr := js "Codex channels do not support batch creation".
Definition CODEX_CREDENTIAL : jstr := js "Codex credential must be a JSON object with access_token and account_id".
Definition VERTEX_KEY : jstr := js "Vertex AI service account key must be valid JSON".
Definition VERTEX_NO_BATCH : jstr := js "Vertex AI API Key mode does not support batch creation".

(** [ctx.addIssue] under a condition. *)
Definition issueIf (b : bool) (path : string) (message : jstr) : list Issue := if b then [mkIssue (js path) message] else [].

Definition batchMode (data : fields) : bool := truthy data.["multi_key_mode"] && negb (isString data.["multi_key_mode"] (js "single")).

(** The issues of an advanced custom channel. *)
Definition advancedIssues (newURL : jstr -> option (jstr * jstr)) (data : fields) : outcome (list Issue) :=
  let config := match parseAdvancedCustomConfig (strOf data.["advanced_custom"]) with Some c => c | None => VNull end in
  error <-- validateAdvancedCustomConfig newURL config ;;
  relative <-- advancedCustomConfigUsesRelativeUpstreamPath config ;;
  Ret (match error with Some e => [mkIssue (js "advanced_custom") (ve_message e)] | None => [] end ++
       issueIf (relative && isBlank (strOf data.["base_url"])) "base_url" BASE_URL_FOR_ROUTES).

Definition superRefine (newURL : jstr -> option (jstr * jstr)) (data : fields) : outcome (list Issue) :=
  let key := strOf data.["key"] in
  advanced <-- (if typeIs data CHANNEL_TYPE_ADVANCED_CUSTOM then advancedIssues newURL data else Ret []) ;;
  Ret (issueIf (typeIn data [3; 8; 36; 45]%Z && isBlank (strOf data.["base_url"])) "base_url" BASE_URL_REQUIRED ++
       advanced ++
       issueIf (typeIn data [3; 18; 21; 39; 41; 49]%Z && isBlank (strOf data.["other"])) "other" OTHER_REQUIRED ++
       (if typeIs data 57 then
          issueIf (batchMode data) "multi_key_mode" CODEX_NO_BATCH ++
          issueIf (negb (isBlank key) && negb (isCodexCredential key)) "key" CODEX_CREDENTIAL
        else []) ++
       issueIf (typeIs data 41 && isString data.["vertex_key_type"] (js "json") && negb (isBlank key) && negb (isVertexJsonKey key))
         "key" VERTEX_KEY ++
       issueIf (typeIs data 41 && isString data.["vertex_key_type"] (js "api_key") && batchMode data) "multi_key_mode" VERTEX_NO_BATCH).

(** ** Default values *)

Definition CHANNEL_STATUS_ENABLED : Z := 1.

Definition CHANNEL_FORM_DEFAULT_VALUES : fields :=
  let text k := (js k, VStr []) in
  let off k := (js k, VBool false) in
  [text "name"%string; (js "type", VNum (num_of_Z 1)); text "base_url"%string; text "key"%string; text "openai_organization"%string;
   text "models"%string; (js "group", VArr [VStr (js "default")]); text "model_mapping"%string; (js "priority", VNum num_zero);
   (js "weight", VNum num_zero); text "test_model"%string; (js "auto_ban", VNum (num_of_Z 1)); (js "status", VNum (num_of_Z CHANNEL_STATUS_ENABLED));
   text "status_code_mapping"%string; text "tag"%string; text "remark"%string; text "setting"%string; text "param_override"%string;
   text "header_override"%string; (js "settings", VStr (js "{}")); text "other"%string; (js "multi_key_mode", VStr (js "single"));
   (js "multi_key_type", VStr (js "random")); off "batch_add_set_key_prefix_2_name"%string; (js "key_mode", VStr (js "append"));
   off "force_format"%string; off "thinking_to_content"%string; text "proxy"%string; off "pass_through_body_enabled"%string;
   text "system_prompt"%string; off "system_prompt_override"%string; off "is_enterprise_account"%string;
   (js "vertex_key_type", VStr (js "json")); (js "aws_key_type", VStr (js "ak_sk")); text "azure_responses_version"%string;
   off "allow_service_tier"%string; off "disable_store"%string; off "allow_safety_identifier"%string; off "allow_include_obfuscation"%string;
   off "allow_inference_geo"%string; off "allow_speed"%string; off "claude_beta_query"%string; off "disable_task_polling_sleep"%string;
   off "upstream_model_update_check_enabled"%string; off "upstream_model_update_auto_sync_enabled"%string;
   text "upstream_model_update_ignored_models"%string; text "advanced_custom"%string].

(** ** Lists in texts *)

Definition parseModels (models : jstr) : list jstr :=
  if negb (truthy_str models) then [] else trim_nonempty (split_on 44%N models).

Definition parseGroups (groups : jstr) : list jstr :=
  if negb (truthy_str groups) then [] else trim_nonempty (split_on 44%N groups).

Definition formatModels (models : list jstr) : jstr := js_join (js ",") models.

(** [groups.join(',')] of a form value: only an array has the method. *)
Definition formatGroups (groups : jsval) : outcome jstr :=
  match groups with VArr _ => Ret (js_String groups) | _ => Throw end.

(** [groups.split(',')...] of a channel value: only a string has the method. *)
Definition groupsOf (group : jsval) : outcome jsval :=
  match group with VStr s => Ret (VArr (map VStr (parseGroups s))) | _ => Throw end.

Definition validateJSON (value : jstr) : bool :=
  if negb (truthy_str value) || (trim value === []) then true
  else match json_parse value with Some _ => true | None => false end.

Definition validateModelMapping (value : jstr) : bool :=
  if negb (truthy_str value) || (trim value === []) then true else validateJSON value.

(** ** From a channel to the form *)

Definition DEFAULT_EXTRA : fields :=
  [(js "force_format", VBool false); (js "thinking_to_content", VBool false); (js "proxy", VStr []);
   (js "pass_through_body_enabled", VBool false); (js "system_prompt", VStr []); (js "system_prompt_override", VBool false)].

(** The six general switches; reading them of [null] throws and is caught. *)
Definition extraSettings (setting : jsval) : fields :=
  if negb (truthy setting) then DEFAULT_EXTRA
  else match json_parse (js_String setting) with
       | None | Some VNull => DEFAULT_EXTRA
       | Some parsed =>
           let get k := match prop parsed (js k) with Ret v => v | Throw => VUndef end in
           [(js "force_format", vor (get "force_format"%string) (VBool false));
            (js "thinking_to_content", vor (get "thinking_to_content"%string) (VBool false));
            (js "proxy", vor (get "proxy"%string) (VStr []));
            (js "pass_through_body_enabled", vor (get "pass_through_body_enabled"%string) (VBool false));
            (js "system_prompt", vor (get "system_prompt"%string) (VStr []));
            (js "system_prompt_override", vor (get "system_prompt_override"%string) (VBool false))]
       end.

(** What the form reads from [settings]. *)
Record TypeSettings := mkTypeSettings {
  vertexKeyType : jsval; azureResponsesVersion : jsval; isEnterpriseAccount : bool; awsKeyType : jsval;
  allowServiceTier : bool; disableStore : bool; allowSafetyIdentifier : bool; allowIncludeObfuscation : bool;
  allowInferenceGeo : bool; allowSpeed : bool; claudeBetaQuery : bool; disableTaskPollingSleep : bool;
  upstreamModelUpdateCheckEnabled : bool; upstreamModelUpdateAutoSyncEnabled : bool;
  upstreamModelUpdateIgnoredModels : jstr; advancedCustom : jstr }.

Definition defaultTypeSettings : TypeSettings :=
  mkTypeSettings (VStr (js "json")) (VStr []) false (VStr (js "ak_sk")) false false false false false false false false false false [] [].

(** The assignments of the [try] block; the last one may throw, and then the
    earlier ones stay. *)
Definition readTypeSettings (parsed : fields) : TypeSettings :=
  let flag k := isTrue (get_prop (js k) parsed) in
  mkTypeSettings
    (vor parsed.["vertex_key_type"] (VStr (js "json"))) (vor parsed.["azure_responses_version"] (VStr []))
    (flag "openrouter_enterprise"%string) (vor parsed.["aws_key_type"] (VStr (js "ak_sk")))
    (flag "allow_service_tier"%string) (flag "disable_store"%string) (flag "allow_safety_identifier"%string)
    (flag "allow_include_obfuscation"%string) (flag "allow_inference_geo"%string) (flag "allow_speed"%string)
    (flag "claude_beta_query"%string) (flag "disable_task_polling_sleep"%string)
    (flag "upstream_model_update_check_enabled"%string) (flag "upstream_model_update_auto_sync_enabled"%string)
    (match parsed.["upstream_model_update_ignored_models"] with VArr xs => js_String (VArr xs) | _ => [] end)
    (if truthy parsed.["advanced_custom"]
     then match stringifyAdvancedCustomConfig parsed.["advanced_custom"] with Ret t => t | Throw => [] end else []).

Definition typeSettings (settings : jsval) : TypeSettings :=
  if negb (truthy settings) then defaultTypeSettings
  else match json_parse (js_String settings) with
       | None | Some VNull => defaultTypeSettings
       | Some (VObj fs) => readTypeSettings fs
       | Some _ => readTypeSettings []   (* a primitive or an array has none of the properties *)
       end.

Definition transformChannelToFormDefaults (channel : fields) : outcome fields :=
  let s := typeSettings channel.["settings"] in
  group <-- groupsOf (vor channel.["group"] (VStr (js "default"))) ;;
  keyMode <-- prop channel.["channel_info"] (js "multi_key_mode") ;;
  let text k := vor (get_prop (js k) channel) (VStr []) in
  Ret ([(js "name", text "name"%string); (js "type", channel.["type"]); (js "base_url", text "base_url"%string); (js "key", VStr []);
        (js "openai_organization", text "openai_organization"%string); (js "models", text "models"%string); (js "group", group);
        (js "model_mapping", text "model_mapping"%string); (js "priority", vor channel.["priority"] (VNum num_zero));
        (js "weight", vor channel.["weight"] (VNum num_zero)); (js "test_model", text "test_model"%string);
        (js "auto_ban", match channel.["auto_ban"] with VUndef | VNull => VNum (num_of_Z 1) | v => v end);
        (js "status", channel.["status"]); (js "status_code_mapping", text "status_code_mapping"%string);
        (js "tag", text "tag"%string); (js "remark", text "remark"%string); (js "setting", text "setting"%string);
        (js "param_override", text "param_override"%string); (js "header_override", text "header_override"%string);
        (js "settings", vor channel.["settings"] (VStr (js "{}"))); (js "other", text "other"%string);
        (js "multi_key_mode", VStr (js "single")); (js "multi_key_type", vor keyMode (VStr (js "random")));
        (js "batch_add_set_key_prefix_2_name", VBool false); (js "key_mode", VStr (js "append"))] ++
       extraSettings channel.["setting"] ++
       [(js "is_enterprise_account", VBool (isEnterpriseAccount s)); (js "vertex_key_type", vertexKeyType s);
        (js "azure_responses_version", azureResponsesVersion s); (js "aws_key_type", awsKeyType s);
        (js "allow_service_tier", VBool (allowServiceTier s)); (js "disable_store", VBool (disableStore s));
        (js "allow_include_obfuscation", VBool (allowIncludeObfuscation s)); (js "allow_inference_geo", VBool (allowInferenceGeo s));
        (js "allow_speed", VBool (allowSpeed s)); (js "claude_beta_query", VBool (claudeBetaQuery s));
        (js "disable_task_polling_sleep", VBool (disableTaskPollingSleep s));
        (js "allow_safety_identifier", VBool (allowSafetyIdentifier s));
        (js "upstream_model_update_check_enabled", VBool (upstreamModelUpdateCheckEnabled s));
        (js "upstream_model_update_auto_sync_enabled", VBool (upstreamModelUpdateAutoSyncEnabled s));
        (js "upstream_model_update_ignored_models", VStr (upstreamModelUpdateIgnoredModels s));
        (js "advanced_custom", VStr (advancedCustom s))]).

(** ** From the form to the payload *)

(** [JSON.stringify(o)] of an object or array, which is never [undefined]. *)
Definition jsonText (v : jsval) : jstr := default [] (json_stringify v).

Definition buildSettingJSON (formData : fields) : jstr :=
  jsonText (VObj
    [(js "force_format", vor formData.["force_format"] (VBool false));
     (js "thinking_to_content", vor formData.["thinking_to_content"] (VBool false));
     (js "proxy", vor formData.["proxy"] (VStr []));
     (js "pass_through_body_enabled", vor formData.["pass_through_body_enabled"] (VBool false));
     (js "system_prompt", vor formData.["system_prompt"] (VStr []));
     (js "system_prompt_override", vor formData.["system_prompt_override"] (VBool false))]).

(** [if (b) o.k = v else if ('k' in o) delete o.k] *)
Definition setOrDelete (b : bool) (k : string) (v : jsval) (o : fields) : fields :=
  if b then set_prop (js k) v o else delete_prop (js k) o.

(** [o.k = formData.k === true] *)
Definition setFlag (k : string) (formData o : fields) : fields := set_prop (js k) (VBool (isTrue (at_ formData k))) o.

Definition keyTypeSettings (formData o : fields) : fields :=
  let o := setOrDelete (typeIs formData 41) "vertex_key_type" (vor formData.["vertex_key_type"] (VStr (js "json"))) o in
  let o := setOrDelete (typeIs formData 3 && truthy formData.["azure_responses_version"]) "azure_responses_version"
             formData.["azure_responses_version"] o in
  let o := setOrDelete (typeIs formData 20) "openrouter_enterprise" (VBool (isTrue formData.["is_enterprise_account"])) o in
  setOrDelete (typeIs formData 33) "aws_key_type" (vor formData.["aws_key_type"] (VStr (js "ak_sk"))) o.

Definition passthroughSettings (formData o : fields) : fields :=
  let o := setOrDelete (typeIs formData 1 || typeIs formData 14) "allow_service_tier" (VBool (isTrue formData.["allow_service_tier"])) o in
  let o := if typeIs formData 1
           then setFlag "allow_inference_geo" formData (setFlag "allow_include_obfuscation" formData
                  (setFlag "allow_safety_identifier" formData (setFlag "disable_store" formData o)))
           else let o := delete_prop (js "allow_include_obfuscation") (delete_prop (js "allow_safety_identifier") (delete_prop (js "disable_store") o)) in
                if typeIs formData 14 then o else delete_prop (js "allow_inference_geo") o in
  let o := if typeIs formData 14
           then setFlag "claude_beta_query" formData (setFlag "allow_speed" formData (setFlag "allow_inference_geo" formData o))
           else delete_prop (js "claude_beta_query") (delete_prop (js "allow_speed") o) in
  setFlag "disable_task_polling_sleep" formData o.

(** [Array.from(new Set(String(v || '').split(',').map(trim).filter(Boolean)))] *)
Definition ignoredModels (v : jsval) : jsval :=
  VArr (map VStr (set_from (trim_nonempty (split_on 44%N (js_String (vor v (VStr []))))))).

Definition upstreamUpdateSettings (formData o : fields) : fields :=
  if negb (typeIn formData MODEL_FETCHABLE_TYPES) then o
  else
    let o := setFlag "upstream_model_update_check_enabled" formData o in
    let o := set_prop (js "upstream_model_update_auto_sync_enabled")
               (VBool (isTrue o.["upstream_model_update_check_enabled"] && isTrue formData.["upstream_model_update_auto_sync_enabled"])) o in
    let o := set_prop (js "upstream_model_update_ignored_models") (ignoredModels formData.["upstream_model_update_ignored_models"]) o in
    let o := if negb (match o.["upstream_model_update_last_detected_models"] with VArr _ => true | _ => false end) ||
                negb (isTrue o.["upstream_model_update_check_enabled"])
             then set_prop (js "upstream_model_update_last_detected_models") (VArr []) o else o in
    match o.["upstream_model_update_last_check_time"] with
    | VNum _ => o
    | _ => set_prop (js "upstream_model_update_last_check_time") (VNum num_zero) o
    end.

Definition advancedSettings (formData o : fields) : fields :=
  if typeIs formData CHANNEL_TYPE_ADVANCED_CUSTOM then
    match parseAdvancedCustomConfig (strOf formData.["advanced_custom"]) with
    | Some config => set_prop (js "advanced_custom") config o
    | None => o
    end
  else delete_prop (js "advanced_custom") o.

Definition buildSettings (formData o : fields) : fields :=
  advancedSettings formData (upstreamUpdateSettings formData (passthroughSettings formData (keyTypeSettings formData o))).

(** The object the settings start from. *)
Definition existingSettings (formData : fields) : jsval :=
  if truthy formData.["settings"] && negb (isString formData.["settings"] (js "{}"))
  then match json_parse (js_String formData.["settings"]) with Some v => v | None => VObj [] end
  else VObj [].

(** An array keeps no named property in its text; on a primitive the first
    assignment or [in] test throws. *)
Definition buildSettingsJSON (formData : fields) : outcome jstr :=
  match existingSettings formData with
  | VObj o => Ret (jsonText (VObj (buildSettings formData o)))
  | VArr xs => Ret (jsonText (VArr xs))
  | _ => Throw
  end.

(** [s.replace(/\/+$/, '')] *)
Fixpoint dropSlashes (s : jstr) : jstr := match s with c :: s' => if (c =? 47)%N then dropSlashes s' else s | [] => [] end.
Definition stripSlashes (s : jstr) : jstr := rev (dropSlashes (rev s)).

Definition normalizeBaseUrl (value : jsval) : jstr := stripSlashes (trim (js_String (vor value (VStr [])))).

Definition autoBan (formData : fields) : jsval := match formData.["auto_ban"] with VUndef | VNull => VNum (num_of_Z 1) | v => v end.

(** Empty strings become [null]. *)
Definition cleanEmpty (o : fields) : fields := map (fun p => if isString p.2 [] then (p.1, VNull) else p) o.

Record CreatePayload := mkCreate { cp_mode : jsval; cp_multi_key_mode : jsval; cp_batch_prefix : jsval; cp_channel : fields }.

(** [channel], before empty strings are cleaned. *)
Definition createChannel (formData : fields) (group settings : jstr) : fields :=
  let orNull k := vor (get_prop (js k) formData) VNull in
  [(js "name", formData.["name"]); (js "type", formData.["type"]);
   (js "base_url", vor (VStr (normalizeBaseUrl formData.["base_url"])) VNull); (js "key", formData.["key"]);
   (js "openai_organization", orNull "openai_organization"%string); (js "models", formData.["models"]); (js "group", VStr group);
   (js "model_mapping", orNull "model_mapping"%string); (js "priority", orNull "priority"%string); (js "weight", orNull "weight"%string);
   (js "test_model", orNull "test_model"%string); (js "auto_ban", autoBan formData); (js "status", formData.["status"]);
   (js "status_code_mapping", orNull "status_code_mapping"%string); (js "tag", orNull "tag"%string);
   (js "remark", vor formData.["remark"] (VStr [])); (js "setting", VStr (buildSettingJSON formData));
   (js "param_override", orNull "param_override"%string); (js "header_override", orNull "header_override"%string);
   (js "settings", VStr settings); (js "other", vor formData.["other"] (VStr []))].

Definition transformFormDataToCreatePayload (formData : fields) : outcome CreatePayload :=
  let mode := vor formData.["multi_key_mode"] (VStr (js "single")) in
  group <-- formatGroups formData.["group"] ;;
  settings <-- buildSettingsJSON formData ;;
  Ret (mkCreate mode
         (if isString mode (js "multi_to_single") then formData.["multi_key_type"] else VUndef)
         (if isString mode (js "batch") then formData.["batch_add_set_key_prefix_2_name"] else VUndef)
         (cleanEmpty (createChannel formData group settings))).

Definition orZero (v : jsval) : jsval := match v with VUndef | VNull => VNum num_zero | _ => v end.

(** [payload], before the key is added. *)
Definition updateChannel (formData : fields) (channelId : number) (group settings : jstr) : fields :=
  let orNull k := vor (get_prop (js k) formData) VNull in
  [(js "id", VNum channelId); (js "name", formData.["name"]); (js "type", formData.["type"]);
   (js "base_url", vor (VStr (normalizeBaseUrl formData.["base_url"])) VNull);
   (js "openai_organization", orNull "openai_organization"%string); (js "models", formData.["models"]); (js "group", VStr group);
   (js "model_mapping", orNull "model_mapping"%string); (js "priority", orZero formData.["priority"]); (js "weight", orZero formData.["weight"]);
   (js "test_model", orNull "test_model"%string); (js "auto_ban", autoBan formData); (js "status", formData.["status"]);
   (js "status_code_mapping", orNull "status_code_mapping"%string); (js "tag", orNull "tag"%string);
   (js "remark", vor formData.["remark"] (VStr [])); (js "setting", VStr (buildSettingJSON formData));
   (js "param_override", orNull "param_override"%string); (js "header_override", orNull "header_override"%string);
   (js "settings", VStr settings); (js "other", vor formData.["other"] (VStr []))].

(** The key, only when it was changed. *)
Definition addKey (formData payload : fields) : fields :=
  match strOf formData.["key"] with
  | Some k => if truthy_str k && truthy_str (trim k) then set_prop (js "key") (VStr k) payload else payload
  | None => payload
  end.

(** [payload.k = formData.k || ''] *)
Definition putText (formData : fields) (payload : fields) (k : string) : fields :=
  set_prop (js k) (vor (get_prop (js k) formData) (VStr [])) payload.

(** Explicit empty strings for the nullable fields. *)
Definition explicitEmpty (formData payload : fields) : fields :=
  foldl (putText formData)
    (set_prop (js "base_url") (VStr (normalizeBaseUrl formData.["base_url"])) payload)
    ["openai_organization"; "test_model"; "tag"; "remark"; "model_mapping"; "status_code_mapping"; "param_override"; "header_override"]%string.

Definition transformFormDataToUpdatePayload (formData : fields) (channelId : number) : outcome fields :=
  group <-- formatGroups formData.["group"] ;;
  settings <-- buildSettingsJSON formData ;;
  Ret (explicitEmpty formData (cleanEmpty (addKey formData (updateChannel formData channelId group settings)))).

(** Samples: an OpenAI channel is saved, with a stale key of another type and an
    unknown key in its settings. *)
Example build_settings_sample :
  let form := [(js "type", VNum (num_of_Z 1)); (js "allow_service_tier", VBool true);
               (js "settings", VStr (jsq "{'vertex_key_type':'json','mine':[1,'x']}"))] in
  buildSettingsJSON form = Ret (jsq
    "{'mine':[1,'x'],'allow_service_tier':true,'disable_store':false,'allow_safety_identifier':false,'allow_include_obfuscation':false,'allow_inference_geo':false,'disable_task_polling_sleep':false,'upstream_model_update_check_enabled':false,'upstream_model_update_auto_sync_enabled':false,'upstream_model_update_ignored_models':[],'upstream_model_update_last_detected_models':[],'upstream_model_update_last_check_time':0}").
Proof. vm_compute. reflexivity. Qed.

Example base_url_sample : map normalizeBaseUrl [VStr (js " https://a/b// "); VUndef; VStr (js "https://a /")] = [js "https://a/b"; []; js "https://a "].
Proof. vm_compute. reflexivity. Qed.
