(* ===== verification/ChannelSettings.v ===== *)
(** * The settings of a channel, key by key

    [buildSettings] sets and deletes keys of the stored settings depending on the
    channel type.  [settings_values] says what each key becomes, as a function of
    the form and of its own old value only; [settings_text] carries this through
    the JSON text, for forms of the declared type. *)
From stdpp Require Import prelude list strings.
From S2P Require Import Prelude JsString JsNumber JsValue JsonText AdvancedCustom AdvancedCustomCorrect ChannelForm.
Open Scope js_scope.

(** ** Properties of rebuilt objects *)

Lemma get_setOrDelete k b k' v o : get_prop k (setOrDelete b k' v o) = if k === js k' then (if b then v else VUndef) else get_prop k o.
Proof. unfold setOrDelete. destruct b; [apply get_set_prop|apply get_delete_prop]. Qed.

Lemma get_setFlag k k' f o : get_prop k (setFlag k' f o) = if k === js k' then VBool (isTrue (at_ f k')) else get_prop k o.
Proof. apply get_set_prop. Qed.

(** Evaluate comparisons of literal keys. *)
Ltac eval_keys := repeat match goal with
  |- context [bool_decide (js ?a = js ?b)] =>
    let v := eval vm_compute in (bool_decide (js a = js b)) in change (bool_decide (js a = js b)) with v; cbn iota end.

(** ** What each key of the settings becomes *)

Definition isArray (v : jsval) : bool := match v with VArr _ => true | _ => false end.

Definition settingValue (f : fields) (k : jstr) (old : jsval) : jsval :=
  let fetchable := typeIn f MODEL_FETCHABLE_TYPES in
  let flag (types : list Z) := if typeIn f types then VBool (isTrue (get_prop k f)) else VUndef in
  let check := isTrue f.["upstream_model_update_check_enabled"] in
  if k === js "vertex_key_type" then (if typeIs f 41 then vor f.["vertex_key_type"] (VStr (js "json")) else VUndef)
  else if k === js "azure_responses_version" then
    (if typeIs f 3 && truthy f.["azure_responses_version"] then f.["azure_responses_version"] else VUndef)
  else if k === js "openrouter_enterprise" then (if typeIs f 20 then VBool (isTrue f.["is_enterprise_account"]) else VUndef)
  else if k === js "aws_key_type" then (if typeIs f 33 then vor f.["aws_key_type"] (VStr (js "ak_sk")) else VUndef)
  else if (k === js "allow_service_tier") || (k === js "allow_inference_geo") then flag [1; 14]%Z
  else if (k === js "disable_store") || (k === js "allow_safety_identifier") || (k === js "allow_include_obfuscation") then flag [1]%Z
  else if (k === js "allow_speed") || (k === js "claude_beta_query") then flag [14]%Z
  else if k === js "disable_task_polling_sleep" then VBool (isTrue (get_prop k f))
  else if k === js "upstream_model_update_check_enabled" then (if fetchable then VBool check else old)
  else if k === js "upstream_model_update_auto_sync_enabled" then
    (if fetchable then VBool (check && isTrue (get_prop k f)) else old)
  else if k === js "upstream_model_update_ignored_models" then (if fetchable then ignoredModels (get_prop k f) else old)
  else if k === js "upstream_model_update_last_detected_models" then
    (if fetchable && negb (isArray old && check) then VArr [] else old)
  else if k === js "upstream_model_update_last_check_time" then
    (if fetchable then match old with VNum _ => old | _ => VNum num_zero end else old)
  else if k === js "advanced_custom" then
    (if typeIs f CHANNEL_TYPE_ADVANCED_CUSTOM
     then match parseAdvancedCustomConfig (strOf f.["advanced_custom"]) with Some c => c | None => old end else VUndef)
  else old.

Definition managedKeys : list string :=
  ["vertex_key_type"; "azure_responses_version"; "openrouter_enterprise"; "aws_key_type"; "allow_service_tier"; "allow_inference_geo";
   "disable_store"; "allow_safety_identifier"; "allow_include_obfuscation"; "allow_speed"; "claude_beta_query";
   "disable_task_polling_sleep"; "upstream_model_update_check_enabled"; "upstream_model_update_auto_sync_enabled";
   "upstream_model_update_ignored_models"; "upstream_model_update_last_detected_models"; "upstream_model_update_last_check_time";
   "advanced_custom"]%string.

Lemma get_if (b : bool) k (x y : fields) : get_prop k (if b then x else y) = if b then get_prop k x else get_prop k y.
Proof. by destruct b. Qed.

Lemma get_keyType k f o : get_prop k (keyTypeSettings f o) =
  if k === js "aws_key_type" then (if typeIs f 33 then vor f.["aws_key_type"] (VStr (js "ak_sk")) else VUndef)
  else if k === js "openrouter_enterprise" then (if typeIs f 20 then VBool (isTrue f.["is_enterprise_account"]) else VUndef)
  else if k === js "azure_responses_version" then
    (if typeIs f 3 && truthy f.["azure_responses_version"] then f.["azure_responses_version"] else VUndef)
  else if k === js "vertex_key_type" then (if typeIs f 41 then vor f.["vertex_key_type"] (VStr (js "json")) else VUndef)
  else get_prop k o.
Proof. unfold keyTypeSettings. by rewrite !get_setOrDelete. Qed.

(** A key is one of the listed ones or none of them. *)
Lemma key_cases (k : jstr) (l : list string) : (exists a, In a l /\ k = js a) \/ Forall (fun a => k <> js a) l.
Proof.
  induction l as [|a l IH]; [right; constructor|]. destruct (decide (k = js a)) as [->|Hn]; [left; exists a; split; [by left|done]|].
  destruct IH as [(b & Hb & ->)|IH]; [left; exists b; split; [by right|done]|right; by constructor].
Qed.

Lemma get_passthrough k f o : get_prop k (passthroughSettings f o) =
  let flag (types : list Z) := if typeIn f types then VBool (isTrue (get_prop k f)) else VUndef in
  if k === js "disable_task_polling_sleep" then VBool (isTrue (get_prop k f))
  else if (k === js "allow_speed") || (k === js "claude_beta_query") then flag [14]%Z
  else if (k === js "disable_store") || (k === js "allow_safety_identifier") || (k === js "allow_include_obfuscation") then flag [1]%Z
  else if (k === js "allow_service_tier") || (k === js "allow_inference_geo") then flag [1; 14]%Z
  else get_prop k o.
Proof.
  cbv zeta. unfold passthroughSettings, typeIn. cbn [existsb]. rewrite !orb_false_r.
  repeat rewrite ?get_setFlag, ?get_if, ?get_delete_prop, ?get_setOrDelete.
  destruct (key_cases k ["disable_task_polling_sleep"; "allow_speed"; "claude_beta_query"; "disable_store"; "allow_safety_identifier";
      "allow_include_obfuscation"; "allow_service_tier"; "allow_inference_geo"]%string) as [(a & Ha & ->)|H].
  - repeat (destruct Ha as [<-|Ha]; [eval_keys; cbn [orb]; unfold at_; by destruct (typeIs f 1), (typeIs f 14)|]). done.
  - rewrite !Forall_cons in H. destruct H as (H1 & H2 & H3 & H4 & H5 & H6 & H7 & H8 & _).
    rewrite !(bool_decide_eq_false_2 (k = _)) by done. cbn [orb]. by destruct (typeIs f 1), (typeIs f 14).
Qed.

Lemma get_upstream k f o : get_prop k (upstreamUpdateSettings f o) =
  if negb (typeIn f MODEL_FETCHABLE_TYPES) then get_prop k o
  else let check := isTrue f.["upstream_model_update_check_enabled"] in
  if k === js "upstream_model_update_check_enabled" then VBool check
  else if k === js "upstream_model_update_auto_sync_enabled" then VBool (check && isTrue (get_prop k f))
  else if k === js "upstream_model_update_ignored_models" then ignoredModels (get_prop k f)
  else if k === js "upstream_model_update_last_detected_models" then (if negb (isArray (get_prop k o) && check) then VArr [] else get_prop k o)
  else if k === js "upstream_model_update_last_check_time" then match get_prop k o with VNum _ => get_prop k o | _ => VNum num_zero end
  else get_prop k o.
Proof.
  unfold upstreamUpdateSettings. destruct (typeIn f MODEL_FETCHABLE_TYPES); [|done]. cbv zeta. cbn [negb].
  set (o3 := set_prop (js "upstream_model_update_ignored_models") _ _).
  assert (G3 : forall k, get_prop k o3 =
    if k === js "upstream_model_update_ignored_models" then ignoredModels f.["upstream_model_update_ignored_models"]
    else if k === js "upstream_model_update_auto_sync_enabled"
      then VBool (isTrue f.["upstream_model_update_check_enabled"] && isTrue f.["upstream_model_update_auto_sync_enabled"])
    else if k === js "upstream_model_update_check_enabled" then VBool (isTrue f.["upstream_model_update_check_enabled"])
    else get_prop k o).
  { intros k'. unfold o3, at_. rewrite !get_set_prop, !get_setFlag. unfold at_. eval_keys. cbn [isTrue].
    by destruct (isTrue (get_prop (js "upstream_model_update_check_enabled") f)). }
  clearbody o3. set (o4 := if _ || _ then _ else o3).
  assert (G4 : forall k, get_prop k o4 = if k === js "upstream_model_update_last_detected_models"
    then (if negb (isArray (get_prop k o) && isTrue f.["upstream_model_update_check_enabled"]) then VArr [] else get_prop k o)
    else get_prop k o3).
  { intros k'. unfold o4. rewrite get_if, get_set_prop. set (b := _ || _).
    destruct (decide (k' = js "upstream_model_update_last_detected_models")) as [->|Hn].
    - eval_keys. unfold b, at_. rewrite !G3. eval_keys. unfold at_.
      by destruct (get_prop (js "upstream_model_update_last_detected_models") o), (get_prop (js "upstream_model_update_check_enabled") f) as [| |[]| | | |].
    - rewrite (bool_decide_eq_false_2 _ Hn). by destruct b. }
  clearbody o4. unfold at_ at 1. rewrite G4, G3. eval_keys.
  set (t := get_prop (js "upstream_model_update_last_check_time") o) in *.
  assert (E : get_prop k match t with VNum _ => o4 | _ => set_prop (js "upstream_model_update_last_check_time") (VNum num_zero) o4 end =
    if k === js "upstream_model_update_last_check_time" then match t with VNum _ => t | _ => VNum num_zero end else get_prop k o4).
  { destruct (decide (k = js "upstream_model_update_last_check_time")) as [->|Hn].
    - rewrite bool_decide_eq_true_2 by done. destruct t eqn:Et; rewrite ?get_set_prop, ?bool_decide_eq_true_2 by done; try done.
      rewrite G4, G3. eval_keys. done.
    - rewrite (bool_decide_eq_false_2 _ Hn). destruct t; by rewrite ?get_set_prop, ?(bool_decide_eq_false_2 _ Hn). }
  rewrite E, G4, G3. clear E. unfold at_. destruct (key_cases k ["upstream_model_update_check_enabled"; "upstream_model_update_auto_sync_enabled";
    "upstream_model_update_ignored_models"; "upstream_model_update_last_detected_models"; "upstream_model_update_last_check_time"]%string)
    as [(a & Ha & ->)|H].
  - repeat (destruct Ha as [<-|Ha]; [eval_keys; done|]). done.
  - rewrite !Forall_cons in H. destruct H as (H1 & H2 & H3 & H4 & H5 & _). by rewrite !(bool_decide_eq_false_2 (k = _)).
Qed.

(** Every key of the rebuilt settings. *)
Lemma settings_values f o k : get_prop k (buildSettings f o) = settingValue f k (get_prop k o).
Proof.
  assert (E : get_prop k (buildSettings f o) = if k === js "advanced_custom"
    then (if typeIs f CHANNEL_TYPE_ADVANCED_CUSTOM
          then match parseAdvancedCustomConfig (strOf f.["advanced_custom"]) with
               | Some c => c | None => get_prop k (upstreamUpdateSettings f (passthroughSettings f (keyTypeSettings f o))) end else VUndef)
    else get_prop k (upstreamUpdateSettings f (passthroughSettings f (keyTypeSettings f o)))).
  { unfold buildSettings, advancedSettings. destruct (typeIs f _); [|apply get_delete_prop].
    destruct (parseAdvancedCustomConfig _); [apply get_set_prop|]. by destruct (k === js "advanced_custom"). }
  rewrite E. clear E. rewrite get_upstream, get_passthrough, get_keyType. unfold settingValue. cbv zeta.
  destruct (key_cases k managedKeys) as [(a & Ha & ->)|H].
  - unfold managedKeys in Ha. repeat (destruct Ha as [<-|Ha]; [eval_keys; cbn [orb negb]; by destruct (typeIn f MODEL_FETCHABLE_TYPES)|]). done.
  - unfold managedKeys in H. rewrite !Forall_cons in H. destruct_and! H. rewrite !(bool_decide_eq_false_2 (k = _)) by done. cbn [orb].
    by destruct (typeIn f MODEL_FETCHABLE_TYPES).
Qed.

(** ** The text of the settings *)

Lemma storable_setOrDelete b k v o : storable (VObj o) = true -> notIndex (js k) = true -> storable v = true ->
  storable (VObj (setOrDelete b k v o)) = true.
Proof. intros. unfold setOrDelete. destruct b; [by apply storable_set|by apply storable_delete]. Qed.

Lemma storable_setFlag k f o : storable (VObj o) = true -> notIndex (js k) = true -> storable (VObj (setFlag k f o)) = true.
Proof. intros. by apply storable_set. Qed.

Create HintDb formdb.
#[export] Hint Resolve storable_set storable_delete storable_setOrDelete storable_setFlag : formdb.

(** ** Forms of the declared type *)

Definition boolField (v : jsval) : bool := match v with VUndef | VBool _ => true | _ => false end.
Definition numField (v : jsval) : bool := match v with VUndef | VNum _ => true | _ => false end.

Definition textKeys : list string :=
  ["name"; "base_url"; "openai_organization"; "models"; "model_mapping"; "test_model"; "status_code_mapping"; "tag"; "remark"; "param_override";
   "header_override"; "settings"; "other"; "proxy"; "system_prompt"; "vertex_key_type"; "aws_key_type"; "azure_responses_version";
   "upstream_model_update_ignored_models"; "advanced_custom"]%string.

Definition typedForm (f : fields) : bool :=
  forallb (fun k => textField (at_ f k)) textKeys &&
  forallb (fun k => boolField (at_ f k)) ["force_format"; "thinking_to_content"; "pass_through_body_enabled"; "system_prompt_override"]%string &&
  forallb (fun k => numField (at_ f k)) ["priority"; "weight"; "auto_ban"]%string &&
  (match f.["type"], f.["status"] with VNum _, VNum _ => true | _, _ => false end) &&
  match f.["group"] with VArr xs => forallb (fun x => match x with VStr _ => true | _ => false end) xs | _ => false end.

Lemma typed_text f k : typedForm f = true -> In k textKeys -> textField (at_ f k) = true.
Proof. unfold typedForm. rewrite !andb_true_iff. intros ((((H & _) & _) & _) & _) Hk. rewrite forallb_forall in H. by apply H. Qed.

(** The route table of the form, when it has one, is of its declared type. *)
Definition typedRoutes (f : fields) : bool :=
  match json_parse (textOf f.["advanced_custom"]) with Some c => typedConfig c | None => true end.

Lemma parse_typed_routes f : typedForm f = true -> typedRoutes f = true -> forall c,
  parseAdvancedCustomConfig (strOf f.["advanced_custom"]) = Some c ->
  exists c0, typedConfig c0 = true /\ c = normConfig c0.
Proof.
  intros Hf Ht c. pose proof (typed_text f "advanced_custom"%string Hf) as Hx. unfold typedRoutes in Ht.
  destruct (at_ f "advanced_custom"%string) as [| | | |s| |]; try done. cbn [strOf textOf] in *. unfold parseAdvancedCustomConfig.
  destruct (negb _); [done|]. destruct (json_parse s) as [v|]; [|done]. destruct v as [| | | | | |fs]; try done.
  rewrite normalize_config by done. intros [= <-]. eauto.
Qed.

Lemma storable_text_vor v d : textField v = true -> storable (vor v (VStr d)) = true.
Proof. intros H. by rewrite vor_text. Qed.

Lemma storable_build f o : typedForm f = true -> typedRoutes f = true -> storable (VObj o) = true -> storable (VObj (buildSettings f o)) = true.
Proof.
  intros Hf Ht Ho. unfold buildSettings.
  assert (H1 : storable (VObj (keyTypeSettings f o)) = true).
  { unfold keyTypeSettings. repeat (apply storable_setOrDelete; [|done|]); try done.
    - apply storable_text_vor, typed_text; [done|cbn; tauto].
    - apply storable_text, typed_text; [done|cbn; tauto].
    - apply storable_text_vor, typed_text; [done|cbn; tauto]. }
  assert (H2 : storable (VObj (passthroughSettings f (keyTypeSettings f o))) = true).
  { unfold passthroughSettings. apply storable_setFlag; [|done]. generalize dependent (keyTypeSettings f o). intros o1 H1.
    destruct (typeIs f 1), (typeIs f 14); repeat (apply storable_setFlag || apply storable_delete || apply storable_setOrDelete); done. }
  set (o2 := passthroughSettings _ _) in *. clearbody o2. assert (H3 : storable (VObj (upstreamUpdateSettings f o2)) = true).
  { unfold upstreamUpdateSettings. destruct (negb _); [done|]. set (o3 := set_prop (js "upstream_model_update_ignored_models") _ _).
    assert (H3 : storable (VObj o3) = true).
    { unfold o3. repeat apply storable_set; try done. cbn [ignoredModels storable]. apply forallb_forall.
      intros x [y [<- _]]%in_map_iff. done. }
    clearbody o3. set (o4 := if _ || _ then _ else o3). assert (H4 : storable (VObj o4) = true) by (unfold o4; case_if; [by apply storable_set|done]).
    clearbody o4. destruct (at_ o4 _); try done; (apply storable_set; [done|done|vm_compute; reflexivity]). }
  unfold advancedSettings. destruct (typeIs f _); [|by apply storable_delete].
  destruct (parseAdvancedCustomConfig _) as [c|] eqn:Ec; [|done]. destruct (parse_typed_routes f Hf Ht c Ec) as (c0 & Hc & ->).
  apply storable_set; [done|done|by apply storable_config].
Qed.

Lemma settings_text f o : typedForm f = true -> typedRoutes f = true -> existingSettings f = VObj o -> storable (VObj o) = true ->
  exists text o', buildSettingsJSON f = Ret text /\ json_parse text = Some (VObj o') /\
    forall k, get_prop k o' = prune (settingValue f k (get_prop k o)).
Proof.
  intros Hf Ht Ho Hs. pose proof (storable_build f o Hf Ht Hs) as Hb. unfold buildSettingsJSON. rewrite Ho.
  destruct (json_read_back [] (VObj (buildSettings f o))) as (text & Et & Ep); [constructor|done|done|].
  exists text. eexists. split_and!; [unfold jsonText, json_stringify; by rewrite Et|exact Ep|]. intros k.
  apply storable_obj in Hb as (Hd & _). by rewrite get_prune_fields, settings_values.
Qed.
