(* ===== verification/ChannelFormCorrect.v ===== *)
(** * Correctness of the channel form

    A saved form reopens as it was: the payload sent for a form, read as a
    channel, gives the form back, normalised.  Saving keeps the settings of
    other parts of the program and drops those of other channel types; the
    stored key is never shown and is sent only when it was typed; and a form
    that passes validation as an advanced custom channel carries a valid route
    table into its payload. *)
From stdpp Require Import prelude list strings.
From S2P Require Import Prelude JsString JsNumber JsValue JsonText AdvancedCustom AdvancedCustomCorrect ChannelForm ChannelSettings.
Open Scope js_scope.

(** ** Reading a payload back *)

Definition cleanValue (v : jsval) : jsval := if isString v [] then VNull else v.

Lemma get_cleanEmpty k o : get_prop k (cleanEmpty o) = cleanValue (get_prop k o).
Proof.
  induction o as [|[a v] o IH]; [done|]. change (cleanEmpty ((a, v) :: o)) with ((if isString v [] then (a, VNull) else (a, v)) :: cleanEmpty o).
  cbn [get_prop]. destruct (k === a) eqn:Ek.
  - unfold cleanValue. destruct (isString v []); cbn [get_prop]; by rewrite Ek.
  - destruct (isString v []); cbn [get_prop]; by rewrite Ek.
Qed.

Definition hasKey (k : jstr) (ks : list jstr) : bool := existsb (fun a => k === a) ks.

Lemma get_app k a b : get_prop k (a ++ b) = if hasKey k (map fst a) then get_prop k a else get_prop k b.
Proof. induction a as [|[x v] a IH]; cbn; [done|]. destruct (k === x); [done|]. apply IH. Qed.

Lemma cleanEmpty_keys o : map fst (cleanEmpty o) = map fst o.
Proof. unfold cleanEmpty. rewrite map_map. apply map_ext. intros [k v]. cbn. by destruct (isString v []). Qed.

(** A text that was cleaned and read back with a default. *)
Lemma reopen_text v d : textField v = true -> vor (cleanValue (vor v VNull)) (VStr d) = VStr (str_or (textOf v) d).
Proof. destruct v as [| | | |s| |]; try done. intros _. by destruct s. Qed.

Lemma reopen_plain v : textField v = true -> vor (cleanValue v) (VStr []) = VStr (textOf v).
Proof. destruct v as [| | | |s| |]; try done. intros _. by destruct s. Qed.

Lemma reopen_str s d : vor (cleanValue (VStr s)) (VStr d) = VStr (str_or s d).
Proof. by destruct s. Qed.

Definition numOf (v : jsval) : number := match v with VNum n => num_or_zero n | _ => num_zero end.

Lemma reopen_num v : numField v = true -> vor (cleanValue (vor v VNull)) (VNum num_zero) = VNum (numOf v).
Proof.
  destruct v as [| | |n| | |]; try done. intros _. unfold vor at 2, numOf, num_or_zero. cbn [truthy]. destruct (num_truthy n) eqn:E; [|done].
  unfold vor, cleanValue. cbn. by rewrite E.
Qed.

(** ** The form that is reopened *)

(** The channel that the server stores for a payload. *)
Definition channelOf (p : CreatePayload) (keyMode : jsval) : fields :=
  cp_channel p ++ [(js "channel_info", VObj [(js "multi_key_mode", keyMode)])].

Definition groupTexts (f : fields) : list jstr := match f.["group"] with VArr xs => map textOf xs | _ => [] end.

Definition reopenedExtra (f : fields) : fields :=
  [(js "force_format", VBool (isTrue f.["force_format"])); (js "thinking_to_content", VBool (isTrue f.["thinking_to_content"]));
   (js "proxy", VStr (textOf f.["proxy"])); (js "pass_through_body_enabled", VBool (isTrue f.["pass_through_body_enabled"]));
   (js "system_prompt", VStr (textOf f.["system_prompt"])); (js "system_prompt_override", VBool (isTrue f.["system_prompt_override"]))].

(** The type-dependent values: those of the form for the types that have them,
    otherwise the defaults; the update settings of other types stay as stored. *)
Definition reopenedType (f o : fields) : TypeSettings :=
  let fetchable := typeIn f MODEL_FETCHABLE_TYPES in
  let flag (types : list Z) k := typeIn f types && isTrue (get_prop (js k) f) in
  let text (b : bool) k d := VStr (if b then str_or (textOf (get_prop (js k) f)) d else d) in
  let check := isTrue f.["upstream_model_update_check_enabled"] in
  mkTypeSettings
    (text (typeIs f 41) "vertex_key_type"%string (js "json")) (text (typeIs f 3) "azure_responses_version"%string [])
    (typeIs f 20 && isTrue f.["is_enterprise_account"]) (text (typeIs f 33) "aws_key_type"%string (js "ak_sk"))
    (flag [1; 14]%Z "allow_service_tier"%string) (flag [1]%Z "disable_store"%string) (flag [1]%Z "allow_safety_identifier"%string)
    (flag [1]%Z "allow_include_obfuscation"%string) (flag [1; 14]%Z "allow_inference_geo"%string) (flag [14]%Z "allow_speed"%string)
    (flag [14]%Z "claude_beta_query"%string) (isTrue f.["disable_task_polling_sleep"])
    (if fetchable then check else isTrue o.["upstream_model_update_check_enabled"])
    (if fetchable then check && isTrue f.["upstream_model_update_auto_sync_enabled"] else isTrue o.["upstream_model_update_auto_sync_enabled"])
    (if fetchable then js_join (js ",") (set_from (trim_nonempty (split_on 44%N (textOf f.["upstream_model_update_ignored_models"]))))
     else match prune o.["upstream_model_update_ignored_models"] with VArr xs => js_String (VArr xs) | _ => [] end)
    (if typeIs f CHANNEL_TYPE_ADVANCED_CUSTOM
     then match parseAdvancedCustomConfig (strOf f.["advanced_custom"]) with
          | Some c => default [] (json_stringify2 c)
          | None => let old := prune o.["advanced_custom"] in
                    if truthy old then match stringifyAdvancedCustomConfig old with Ret t => t | Throw => [] end else []
          end
     else []).

Lemma vor_flag b : vor (VBool b) (VBool false) = VBool b.
Proof. by destruct b. Qed.

Lemma vor_bool v : boolField v = true -> vor v (VBool false) = VBool (isTrue v).
Proof. destruct v as [| |[]| | | |]; done. Qed.

Lemma js_String_strings xs : js_String (VArr (map VStr xs)) = js_join (js ",") xs.
Proof. cbn. rewrite map_map. by rewrite map_id. Qed.

Lemma prune_strings xs : prune (VArr (map VStr xs)) = VArr (map VStr xs).
Proof. cbn. by rewrite map_map. Qed.

Lemma isTrue_prune v : isTrue (prune v) = isTrue v.
Proof. by destruct v. Qed.

Lemma isTrue_bool b : isTrue (VBool b) = b.
Proof. by destruct b. Qed.

Lemma prune_text v : textField v = true -> prune v = v.
Proof. by destruct v. Qed.

(** The values of the keys that the form reads. *)
Section Values.
Variables (f : fields) (old : jsval).
Notation value k := (settingValue f (js k%string) old).
Notation flag types k := (if typeIn f types%Z then VBool (isTrue (get_prop (js k%string) f)) else VUndef).

Lemma value_key_types :
  value "vertex_key_type" = (if typeIs f 41 then vor f.["vertex_key_type"] (VStr (js "json")) else VUndef) /\
  value "azure_responses_version" = (if typeIs f 3 && truthy f.["azure_responses_version"] then f.["azure_responses_version"] else VUndef) /\
  value "openrouter_enterprise" = (if typeIs f 20 then VBool (isTrue f.["is_enterprise_account"]) else VUndef) /\
  value "aws_key_type" = (if typeIs f 33 then vor f.["aws_key_type"] (VStr (js "ak_sk")) else VUndef).
Proof. split_and!; reflexivity. Qed.

Lemma value_flags :
  value "allow_service_tier" = flag [1; 14] "allow_service_tier" /\ value "allow_inference_geo" = flag [1; 14] "allow_inference_geo" /\
  value "disable_store" = flag [1] "disable_store" /\ value "allow_safety_identifier" = flag [1] "allow_safety_identifier" /\
  value "allow_include_obfuscation" = flag [1] "allow_include_obfuscation" /\ value "allow_speed" = flag [14] "allow_speed" /\
  value "claude_beta_query" = flag [14] "claude_beta_query" /\
  value "disable_task_polling_sleep" = VBool (isTrue f.["disable_task_polling_sleep"]).
Proof. split_and!; reflexivity. Qed.

Lemma value_updates :
  let fetchable := typeIn f MODEL_FETCHABLE_TYPES in
  let check := isTrue f.["upstream_model_update_check_enabled"] in
  value "upstream_model_update_check_enabled" = (if fetchable then VBool check else old) /\
  value "upstream_model_update_auto_sync_enabled" =
    (if fetchable then VBool (check && isTrue f.["upstream_model_update_auto_sync_enabled"]) else old) /\
  value "upstream_model_update_ignored_models" = (if fetchable then ignoredModels f.["upstream_model_update_ignored_models"] else old) /\
  value "advanced_custom" = (if typeIs f CHANNEL_TYPE_ADVANCED_CUSTOM
     then match parseAdvancedCustomConfig (strOf f.["advanced_custom"]) with Some c => c | None => old end else VUndef).
Proof. cbv zeta. split_and!; reflexivity. Qed.
End Values.

(** A text of the form that is stored for some channel types only. *)
Lemma stored_text (b : bool) v d : textField v = true ->
  vor (prune (if b then vor v (VStr d) else VUndef)) (VStr d) = VStr (if b then str_or (textOf v) d else d).
Proof. intros H. destruct b; [|done]. rewrite (vor_text _ _ H). cbn [prune]. by rewrite vor_str, str_or_idem. Qed.

Lemma stored_flag (b v : bool) : isTrue (prune (if b then VBool v else VUndef)) = b && v.
Proof. by destruct b, v. Qed.

Lemma stored_azure (b : bool) v : textField v = true ->
  vor (prune (if b && truthy v then v else VUndef)) (VStr []) = VStr (if b then str_or (textOf v) [] else []).
Proof. intros H. destruct v as [| | | |s| |]; try done; destruct b; try done. by destruct s. Qed.

Lemma stored_routes c0 : typedConfig c0 = true -> truthy (prune (normConfig c0)) = true /\
  stringifyAdvancedCustomConfig (prune (normConfig c0)) = Ret (default [] (json_stringify2 (normConfig c0))).
Proof.
  intros H. split; [done|]. unfold stringifyAdvancedCustomConfig. rewrite prune_config, (norm_config_again c0); [done|by apply typed_routes|].
  apply Forall2_fmap_r, Forall_Forall2_diag, Forall_forall. by right.
Qed.

Lemma reads_type_settings f o o' : typedForm f = true -> typedRoutes f = true ->
  (forall k, get_prop k o' = prune (settingValue f k (get_prop k o))) -> readTypeSettings o' = reopenedType f o.
Proof.
  intros Hf Ht Ho. assert (Htext : forall k, In k textKeys -> textField (at_ f k) = true) by (intros k; by apply typed_text).
  pose proof (fun k => value_key_types f (get_prop k o)) as K. pose proof (fun k => value_flags f (get_prop k o)) as F.
  pose proof (fun k => value_updates f (get_prop k o)) as U. cbv zeta in U. unfold readTypeSettings, reopenedType. cbv zeta. f_equal.
  - unfold at_ at 1. rewrite Ho. destruct (K (js "vertex_key_type")) as (-> & _). apply stored_text, Htext. cbn. tauto.
  - unfold at_ at 1. rewrite Ho. destruct (K (js "azure_responses_version")) as (_ & -> & _). apply stored_azure, Htext. cbn. tauto.
  - rewrite Ho. destruct (K (js "openrouter_enterprise")) as (_ & _ & -> & _). apply stored_flag.
  - unfold at_ at 1. rewrite Ho. destruct (K (js "aws_key_type")) as (_ & _ & _ & ->). apply stored_text, Htext. cbn. tauto.
  - rewrite Ho. destruct (F (js "allow_service_tier")) as (-> & _). apply stored_flag.
  - rewrite Ho. destruct (F (js "disable_store")) as (_ & _ & -> & _). apply stored_flag.
  - rewrite Ho. destruct (F (js "allow_safety_identifier")) as (_ & _ & _ & -> & _). apply stored_flag.
  - rewrite Ho. destruct (F (js "allow_include_obfuscation")) as (_ & _ & _ & _ & -> & _). apply stored_flag.
  - rewrite Ho. destruct (F (js "allow_inference_geo")) as (_ & -> & _). apply stored_flag.
  - rewrite Ho. destruct (F (js "allow_speed")) as (_ & _ & _ & _ & _ & -> & _). apply stored_flag.
  - rewrite Ho. destruct (F (js "claude_beta_query")) as (_ & _ & _ & _ & _ & _ & -> & _). apply stored_flag.
  - rewrite Ho. destruct (F (js "disable_task_polling_sleep")) as (_ & _ & _ & _ & _ & _ & _ & ->). rewrite isTrue_prune. apply isTrue_bool.
  - rewrite Ho. destruct (U (js "upstream_model_update_check_enabled")) as (-> & _). rewrite isTrue_prune. destruct (typeIn f MODEL_FETCHABLE_TYPES); [|done]. apply isTrue_bool.
  - rewrite Ho. destruct (U (js "upstream_model_update_auto_sync_enabled")) as (_ & -> & _). rewrite isTrue_prune. destruct (typeIn f MODEL_FETCHABLE_TYPES); [|done]. apply isTrue_bool.
  - unfold at_ at 1. rewrite Ho. destruct (U (js "upstream_model_update_ignored_models")) as (_ & _ & -> & _). destruct (typeIn f MODEL_FETCHABLE_TYPES); [|done].
    unfold ignoredModels. rewrite prune_strings, js_String_strings, (vor_text _ [] (Htext "upstream_model_update_ignored_models"%string ltac:(cbn; tauto))), str_or_nil. done.
  - unfold at_ at 1 2. rewrite !Ho. destruct (U (js "advanced_custom")) as (_ & _ & _ & ->). destruct (typeIs f CHANNEL_TYPE_ADVANCED_CUSTOM); [|done].
    destruct (parseAdvancedCustomConfig _) as [c|] eqn:Ec; [|done]. destruct (parse_typed_routes f Hf Ht c Ec) as (c0 & Hc & ->).
    by destruct (stored_routes c0 Hc) as [-> ->].
Qed.

(** ** The general switches *)

Lemma extra_text f : typedForm f = true ->
  truthy_str (buildSettingJSON f) = true /\ extraSettings (VStr (buildSettingJSON f)) = reopenedExtra f.
Proof.
  intros Hf. assert (Htext : forall k, In k textKeys -> textField (at_ f k) = true) by (intros k; by apply typed_text).
  assert (Hbool : forall k, In k ["force_format"; "thinking_to_content"; "pass_through_body_enabled"; "system_prompt_override"]%string -> boolField (at_ f k) = true).
  { unfold typedForm in Hf. rewrite !andb_true_iff in Hf. destruct Hf as [[[[_ Hf] _] _] _]. by rewrite forallb_forall in Hf. }
  assert (E : VObj (reopenedExtra f) = VObj
    [(js "force_format", vor f.["force_format"] (VBool false)); (js "thinking_to_content", vor f.["thinking_to_content"] (VBool false));
     (js "proxy", vor f.["proxy"] (VStr [])); (js "pass_through_body_enabled", vor f.["pass_through_body_enabled"] (VBool false));
     (js "system_prompt", vor f.["system_prompt"] (VStr [])); (js "system_prompt_override", vor f.["system_prompt_override"] (VBool false))]).
  { unfold reopenedExtra. rewrite !vor_bool by (apply Hbool; cbn; tauto). rewrite !vor_text by (apply Htext; cbn; tauto). by rewrite !str_or_nil. }
  unfold buildSettingJSON, jsonText, json_stringify. rewrite <- E.
  destruct (json_read_back [] (VObj (reopenedExtra f))) as (t & Et & Ep); [constructor|vm_compute; reflexivity|done|].
  rewrite Et. cbn [default from_option id]. unfold extraSettings.
  assert (Htr : truthy (VStr t) = true) by (by destruct t). split; [exact Htr|]. rewrite Htr. cbn [negb js_String]. rewrite Ep. unfold reopenedExtra. cbn [prune map fst snd].
  clear. generalize (isTrue f.["force_format"]), (isTrue f.["thinking_to_content"]), (isTrue f.["pass_through_body_enabled"]),
    (isTrue f.["system_prompt_override"]), (textOf f.["proxy"]), (textOf f.["system_prompt"]).
  intros [] [] [] [] [|] [|]; reflexivity.
Qed.

(** ** The whole form *)

Definition reopenedForm (f o : fields) (keyMode : jsval) (settings : jstr) : fields :=
  let s := reopenedType f o in
  let text k := VStr (textOf (get_prop (js k) f)) in
  [(js "name", text "name"%string); (js "type", f.["type"]); (js "base_url", VStr (normalizeBaseUrl f.["base_url"])); (js "key", VStr []);
   (js "openai_organization", text "openai_organization"%string); (js "models", text "models"%string);
   (js "group", VArr (map VStr (parseGroups (str_or (js_join (js ",") (groupTexts f)) (js "default")))));
   (js "model_mapping", text "model_mapping"%string); (js "priority", VNum (numOf f.["priority"]));
   (js "weight", VNum (numOf f.["weight"])); (js "test_model", text "test_model"%string); (js "auto_ban", autoBan f);
   (js "status", f.["status"]); (js "status_code_mapping", text "status_code_mapping"%string);
   (js "tag", text "tag"%string); (js "remark", text "remark"%string); (js "setting", VStr (buildSettingJSON f));
   (js "param_override", text "param_override"%string); (js "header_override", text "header_override"%string);
   (js "settings", VStr settings); (js "other", text "other"%string);
   (js "multi_key_mode", VStr (js "single")); (js "multi_key_type", vor keyMode (VStr (js "random")));
   (js "batch_add_set_key_prefix_2_name", VBool false); (js "key_mode", VStr (js "append"))] ++
  reopenedExtra f ++
  [(js "is_enterprise_account", VBool (isEnterpriseAccount s)); (js "vertex_key_type", vertexKeyType s);
   (js "azure_responses_version", azureResponsesVersion s); (js "aws_key_type", awsKeyType s);
   (js "allow_service_tier", VBool (allowServiceTier s)); (js "disable_store", VBool (disableStore s));
   (js "allow_include_obfuscation", VBool (allowIncludeObfuscation s)); (js "allow_inference_geo", VBool (allowInferenceGeo s));
   (js "allow_speed", VBool (allowSpeed s)); (js "claude_beta_query", VBool (claudeBetaQuery s));
   (js "disable_task_polling_sleep", VBool (disableTaskPollingSleep s));
   (js "allow_safety_identifier", VBool (allowSafetyIdentifier s));
   (js "upstream_model_update_check_enabled", VBool (upstreamModelUpdateCheckEnabled s));
   (js "upstream_model_update_auto_sync_enabled", VBool (upstreamModelUpdateAutoSyncEnabled s));
   (js "upstream_model_update_ignored_models", VStr (upstreamModelUpdateIgnoredModels s));
   (js "advanced_custom", VStr (advancedCustom s))].

Lemma group_texts f : typedForm f = true -> formatGroups f.["group"] = Ret (js_join (js ",") (groupTexts f)).
Proof.
  intros Hf. unfold typedForm in Hf. rewrite !andb_true_iff in Hf. destruct Hf as [_ Hf]. unfold groupTexts.
  destruct (at_ f "group"%string) as [| | | | |xs|]; try done. cbn [formatGroups]. do 2 f_equal.
  rewrite forallb_forall in Hf. cbn. f_equal. apply map_ext_in. intros x Hx. specialize (Hf x Hx). by destruct x.
Qed.

Lemma numField_typed f k : typedForm f = true -> In k ["priority"; "weight"; "auto_ban"]%string -> numField (at_ f k) = true.
Proof. intros Hf Hk. unfold typedForm in Hf. rewrite !andb_true_iff in Hf. destruct Hf as [[[_ Hf] _] _]. rewrite forallb_forall in Hf. by apply Hf. Qed.

Lemma clean_num v : (exists n, v = VNum n) -> cleanValue v = v.
Proof. by intros [n ->]. Qed.

Section Payload.
Variables (f : fields) (group settings : jstr) (keyMode : jsval).
Hypothesis Hf : typedForm f = true.

Let P : fields := createChannel f group settings.
Let C : fields := cleanEmpty P ++ [(js "channel_info", VObj [(js "multi_key_mode", keyMode)])].

Lemma channel_at k : hasKey (js k) (map fst P) = true -> at_ C k = cleanValue (get_prop (js k) P).
Proof. intros Hk. unfold at_, C. by rewrite get_app, cleanEmpty_keys, Hk, get_cleanEmpty. Qed.

Lemma channel_texts k :
  In k ["openai_organization"; "model_mapping"; "test_model"; "status_code_mapping"; "tag"; "param_override"; "header_override"; "remark"; "other";
        "name"; "models"]%string ->
  vor (at_ C k) (VStr []) = VStr (textOf (at_ f k)).
Proof.
  intros Hk. assert (Ek : hasKey (js k) (map fst P) = true /\ In k textKeys /\
    (get_prop (js k) P = vor (at_ f k) VNull \/ get_prop (js k) P = vor (at_ f k) (VStr []) \/ get_prop (js k) P = at_ f k)).
  { repeat (destruct Hk as [<-|Hk]; [split_and!; [reflexivity|cbn; tauto|]; (left; reflexivity) || (right; left; reflexivity) || (right; right; reflexivity)|]). done. }
  destruct Ek as (Hin & Hk' & Ek). pose proof (typed_text f k Hf Hk') as Ht. rewrite channel_at by done. destruct Ek as [->|[-> | ->]].
  - by rewrite reopen_text, str_or_nil.
  - by rewrite (vor_text (at_ f k) [] Ht), str_or_nil, reopen_str, str_or_nil.
  - by rewrite reopen_plain.
Qed.

Lemma channel_numbers k : In k ["priority"; "weight"]%string -> vor (at_ C k) (VNum num_zero) = VNum (numOf (at_ f k)).
Proof.
  intros Hk. assert (Ek : hasKey (js k) (map fst P) = true /\ In k ["priority"; "weight"; "auto_ban"]%string /\ get_prop (js k) P = vor (at_ f k) VNull).
  { repeat (destruct Hk as [<-|Hk]; [split_and!; [reflexivity|cbn; tauto|reflexivity]|]). done. }
  destruct Ek as (Hin & Hk' & Ek). rewrite channel_at, Ek by done. apply reopen_num. by apply numField_typed.
Qed.

Lemma channel_same : C.["type"] = f.["type"] /\ C.["status"] = f.["status"] /\
  match C.["auto_ban"] with VUndef | VNull => VNum (num_of_Z 1) | v => v end = autoBan f /\
  vor C.["base_url"] (VStr []) = VStr (normalizeBaseUrl f.["base_url"]) /\
  C.["channel_info"] = VObj [(js "multi_key_mode", keyMode)] /\
  vor C.["group"] (VStr (js "default")) = VStr (str_or group (js "default")) /\
  C.["setting"] = cleanValue (VStr (buildSettingJSON f)) /\ C.["settings"] = cleanValue (VStr settings).
Proof.
  assert (Hn : (exists n, f.["type"] = VNum n) /\ (exists n, f.["status"] = VNum n) /\ numField f.["auto_ban"] = true).
  { split_and!; [..|apply numField_typed; [done|cbn; tauto]]; unfold typedForm in Hf; rewrite !andb_true_iff in Hf; destruct Hf as [[_ H] _];
      destruct (at_ f "type"%string), (at_ f "status"%string); try done; eauto. }
  destruct Hn as ((n & En) & (m & Em) & Ha). rewrite (channel_at "type"), (channel_at "status"), (channel_at "auto_ban"), (channel_at "base_url"), (channel_at "group"),
    (channel_at "setting"), (channel_at "settings") by reflexivity.
  change (get_prop (js "type") P) with f.["type"]. change (get_prop (js "status") P) with f.["status"].
  change (get_prop (js "auto_ban") P) with (autoBan f). change (get_prop (js "base_url") P) with (vor (VStr (normalizeBaseUrl f.["base_url"])) VNull).
  rewrite En, Em. split_and!; try done.
  - unfold autoBan. by destruct (at_ f "auto_ban"%string).
  - rewrite reopen_text by done. by rewrite str_or_nil.
  - unfold at_, C. by rewrite get_app, cleanEmpty_keys.
  - change (get_prop (js "group") P) with (VStr group). apply reopen_str.
Qed.
End Payload.

(** A form of a channel type, with a settings text and a route table. *)
Definition sampleForm (type : Z) (settings routes : jstr) : fields :=
  [(js "name", VStr (js "mine")); (js "type", VNum (num_of_Z type)); (js "base_url", VStr (js " https://up.example/ ")); (js "key", VStr (js "sk-1"));
   (js "models", VStr (js "a,b")); (js "group", VArr [VStr (js "default"); VStr (js "vip")]); (js "priority", VNum (num_of_Z 3));
   (js "auto_ban", VNum num_zero); (js "status", VNum (num_of_Z 1)); (js "settings", VStr settings); (js "proxy", VStr (js "http://p"));
   (js "force_format", VBool true); (js "allow_service_tier", VBool true); (js "advanced_custom", VStr routes)].
Definition sampleSettings : jstr := jsq "{'claude_beta_query':true,'mine':['x'],'upstream_model_update_last_check_time':1700000000}".
Definition sampleObject : fields :=
  [(js "claude_beta_query", VBool true); (js "mine", VArr [VStr (js "x")]); (js "upstream_model_update_last_check_time", VNum (num_of_Z 1700000000))].
Definition sampleRoutes : jstr := jsq "{'advanced_routes':[{'incoming_path':'/v1/messages','upstream_path':'/v1'}]}".

(** The form of a new channel is of the declared type, and reopening it after
    saving gives it back, field by field, with its settings text. *)
Example default_form_reopens :
  let f := CHANNEL_FORM_DEFAULT_VALUES in
  typedForm f = true /\ typedRoutes f = true /\ existingSettings f = VObj [] /\
  forallb (fun p => (p.1 === js "setting") || (p.1 === js "settings") ||
    match get_prop p.1 (reopenedForm f [] VUndef []), p.2 with
    | VStr a, VStr b => a === b | VBool a, VBool b => Bool.eqb a b | VNum a, VNum b => num_eqb a b
    | VArr [VStr a], VArr [VStr b] => a === b | _, _ => false end) f = true.
Proof. cbv zeta. split_and!; vm_compute; reflexivity. Qed.

(** ** Properties *)



Lemma get_addKey f p : get_prop (js "key") (addKey f p) =
  match strOf f.["key"] with Some k => if truthy_str k && truthy_str (trim k) then VStr k else get_prop (js "key") p | None => get_prop (js "key") p end.
Proof. unfold addKey. destruct (strOf _) as [k|]; [|done]. destruct (_ && _); [|done]. by rewrite get_set_prop. Qed.

Lemma get_putTexts f k ks p : Forall (fun a => k <> js a) ks -> get_prop k (foldl (putText f) p ks) = get_prop k p.
Proof.
  revert p. induction ks as [|a ks IH]; intros p; [done|]. rewrite Forall_cons. intros [Ha Hks]. cbn. rewrite IH by done.
  unfold putText. by rewrite get_set_prop, bool_decide_eq_false_2.
Qed.

(** The key of an update. *)
Lemma update_key f id p : transformFormDataToUpdatePayload f id = Ret p ->
  get_prop (js "key") p = match strOf f.["key"] with Some k => if truthy_str (trim k) then VStr k else VUndef | None => VUndef end.
Proof.
  unfold transformFormDataToUpdatePayload. destruct (formatGroups _) as [g|]; [|done]. cbn [obind].
  destruct (buildSettingsJSON f) as [s|]; [|done]. cbn [obind]. intros [= <-]. unfold explicitEmpty.
  rewrite get_putTexts, get_set_prop by (repeat constructor; vm_compute; discriminate).
  change (js "key" === js "base_url") with false. cbn iota. rewrite get_cleanEmpty, get_addKey.
  change (get_prop (js "key") (updateChannel f id g s)) with VUndef. destruct (strOf _) as [[|c k]|]; [done| |done].
  cbn [truthy_str andb]. by destruct (truthy_str (trim (c :: k))).
Qed.

(** A stored key is never shown and never sent back by accident: a form
    opened from a channel has an empty key, an update carries a key exactly when
    the form's key is not blank, and then exactly that text. *)
Theorem key_sent_only_when_typed f id p : transformFormDataToUpdatePayload f id = Ret p ->
  get_prop (js "key") p = match strOf f.["key"] with Some k => if truthy_str (trim k) then VStr k else VUndef | None => VUndef end /\
  forall c f' p', transformChannelToFormDefaults c = Ret f' -> transformFormDataToUpdatePayload f' id = Ret p' ->
    f'.["key"] = VStr [] /\ get_prop (js "key") p' = VUndef.
Proof.
  intros H. split; [by eapply update_key|]. intros c f' p' Hc Hp. apply update_key in Hp. assert (Hk : f'.["key"] = VStr []).
  { unfold transformChannelToFormDefaults in Hc. destruct (groupsOf _) as [g|]; [|done]. cbn [obind] in Hc.
    destruct (prop _ _) as [m|]; [|done]. cbn [obind] in Hc. injection Hc as <-. reflexivity. }
  split; [done|]. by rewrite Hp, Hk.
Qed.

Lemma key_sent_only_when_typed_witness :
  let f := sampleForm 1 [] [] in
  exists p, transformFormDataToUpdatePayload f (num_of_Z 7) = Ret p /\
  (get_prop (js "key") p = match strOf f.["key"] with Some k => if truthy_str (trim k) then VStr k else VUndef | None => VUndef end /\
   forall c f' p', transformChannelToFormDefaults c = Ret f' -> transformFormDataToUpdatePayload f' (num_of_Z 7) = Ret p' ->
     f'.["key"] = VStr [] /\ get_prop (js "key") p' = VUndef).
Proof. cbv zeta. eexists. split; [vm_compute; reflexivity|]. apply key_sent_only_when_typed. vm_compute. reflexivity. Defined.

(** The keys that belong to channel types. *)
Definition typeKeys : list (string * list Z) :=
  [("vertex_key_type", [41]); ("azure_responses_version", [3]); ("openrouter_enterprise", [20]); ("aws_key_type", [33]);
   ("allow_service_tier", [1; 14]); ("allow_inference_geo", [1; 14]); ("disable_store", [1]); ("allow_safety_identifier", [1]);
   ("allow_include_obfuscation", [1]); ("allow_speed", [14]); ("claude_beta_query", [14]); ("advanced_custom", [58])]%Z%string.

Lemma stale_value f old k types : In (k, types) typeKeys -> typeIn f types = false -> settingValue f (js k) old = VUndef.
Proof.
  intros Hk Ht. destruct (value_key_types f old) as (K1 & K2 & K3 & K4). destruct (value_flags f old) as (F1 & F2 & F3 & F4 & F5 & F6 & F7 & _).
  destruct (value_updates f old) as (_ & _ & _ & U4). repeat (destruct Hk as [[= <- <-]|Hk]; [|]); [..|done].
  all: rewrite ?K1, ?K2, ?K3, ?K4, ?F1, ?F2, ?F3, ?F4, ?F5, ?F6, ?F7, ?U4; unfold CHANNEL_TYPE_ADVANCED_CUSTOM; rewrite ?Ht;
    cbn [typeIn existsb] in Ht; rewrite ?orb_false_r in Ht; rewrite ?Ht; done.
Qed.

(** Saving changes the settings of the form's own part only: the stored
    JSON keeps every key the form does not manage, drops every key that belongs
    to other channel types, and every switch of the channel's type is written
    as the form has it. *)
Theorem settings_saved_exactly f o :
  typedForm f = true -> typedRoutes f = true -> existingSettings f = VObj o -> storable (VObj o) = true ->
  exists text o', buildSettingsJSON f = Ret text /\ json_parse text = Some (VObj o') /\
    (forall k, Forall (fun a => k <> js a) managedKeys -> get_prop k o' = prune (get_prop k o)) /\
    (forall k types, In (k, types) typeKeys -> typeIn f types = false -> get_prop (js k) o' = VUndef) /\
    (forall k types, In (k, types) (take 7 (drop 4 typeKeys)) -> typeIn f types = true -> get_prop (js k) o' = VBool (isTrue (at_ f k))).
Proof.
  intros Hf Hr Ho Hs. destruct (settings_text f o Hf Hr Ho Hs) as (text & o' & Eb & Ep & Hget). exists text, o'. split_and!; [done|done|..].
  - intros k Hk. rewrite Hget. unfold settingValue. unfold managedKeys in Hk. rewrite !Forall_cons in Hk. destruct_and! Hk.
    by rewrite !(bool_decide_eq_false_2 (k = _)).
  - intros k types Hk Ht. by rewrite Hget, (stale_value f _ k types).
  - intros k types Hk Ht. rewrite Hget. destruct (value_flags f (get_prop (js k) o)) as (F1 & F2 & F3 & F4 & F5 & F6 & F7 & _).
    repeat (destruct Hk as [[= <- <-]|Hk]; [|]); [..|done]; rewrite ?F1, ?F2, ?F3, ?F4, ?F5, ?F6, ?F7, Ht; done.
Qed.

Lemma settings_saved_exactly_witness :
  let f := sampleForm 1 sampleSettings [] in
  exists text o', buildSettingsJSON f = Ret text /\ json_parse text = Some (VObj o') /\
    (forall k, Forall (fun a => k <> js a) managedKeys -> get_prop k o' = prune (get_prop k sampleObject)) /\
    (forall k types, In (k, types) typeKeys -> typeIn f types = false -> get_prop (js k) o' = VUndef) /\
    (forall k types, In (k, types) (take 7 (drop 4 typeKeys)) -> typeIn f types = true -> get_prop (js k) o' = VBool (isTrue (at_ f k))).
Proof. cbv zeta. apply settings_saved_exactly; vm_compute; reflexivity. Defined.

Lemma accepted_routes newURL f : typeIs f CHANNEL_TYPE_ADVANCED_CUSTOM = true -> superRefine newURL f = Ret [] ->
  exists c, parseAdvancedCustomConfig (strOf f.["advanced_custom"]) = Some c /\ validateAdvancedCustomConfig newURL c = Ret None /\
    (advancedCustomConfigUsesRelativeUpstreamPath c = Ret true -> isBlank (strOf f.["base_url"]) = false).
Proof.
  intros Hty Hv. unfold superRefine in Hv. rewrite Hty in Hv. unfold advancedIssues in Hv.
  destruct (parseAdvancedCustomConfig _) as [c|].
  - destruct (validateAdvancedCustomConfig newURL c) as [[e|]|] eqn:Ev; cbn [obind] in Hv; [..|done];
      (destruct (advancedCustomConfigUsesRelativeUpstreamPath c) as [b|] eqn:Er; cbn [obind] in Hv; [|done]);
      injection Hv as Hv; apply app_nil in Hv as [_ Hv]; [done|]. apply app_nil in Hv as [Hv _].
    exists c. split_and!; [done|done|]. rewrite Er. intros [= ->]. cbn in Hv. by destruct (isBlank _).
  - cbn [obind] in Hv. injection Hv as Hv. by apply app_nil in Hv as [_ Hv].
Qed.

(** The validator and the path test see a configuration through its normal form. *)
Lemma stored_config_same newURL c0 : typedConfig c0 = true ->
  validateAdvancedCustomConfig newURL (prune (normConfig c0)) = validateAdvancedCustomConfig newURL (normConfig c0) /\
  advancedCustomConfigUsesRelativeUpstreamPath (prune (normConfig c0)) = advancedCustomConfigUsesRelativeUpstreamPath (normConfig c0).
Proof.
  intros H. assert (En : normalizeAdvancedCustomConfig (prune (normConfig c0)) = normalizeAdvancedCustomConfig (normConfig c0)).
  { rewrite norm_config_idem by done. rewrite prune_config. apply norm_config_again; [by apply typed_routes|].
    apply Forall2_fmap_r, Forall_Forall2_diag, Forall_forall. by right. }
  unfold validateAdvancedCustomConfig, advancedCustomConfigUsesRelativeUpstreamPath. by rewrite En.
Qed.

(** An advanced custom channel that passes the form's validation carries a
    valid route table to the server: the stored settings hold a configuration
    that the validator accepts, and if one of its routes forwards to a path of
    the channel's server, the base URL is not blank. *)
Theorem validated_routes_are_stored newURL f o :
  typedForm f = true -> typedRoutes f = true -> existingSettings f = VObj o -> storable (VObj o) = true ->
  typeIs f CHANNEL_TYPE_ADVANCED_CUSTOM = true -> superRefine newURL f = Ret [] ->
  exists text o', buildSettingsJSON f = Ret text /\ json_parse text = Some (VObj o') /\
    validateAdvancedCustomConfig newURL o'.["advanced_custom"] = Ret None /\
    (advancedCustomConfigUsesRelativeUpstreamPath o'.["advanced_custom"] = Ret true -> isBlank (strOf f.["base_url"]) = false).
Proof.
  intros Hf Hr Ho Hs Hty Hv. destruct (settings_text f o Hf Hr Ho Hs) as (text & o' & Eb & Ep & Hget).
  destruct (accepted_routes newURL f Hty Hv) as (c & Ec & Hval & Hrel). destruct (parse_typed_routes f Hf Hr c Ec) as (c0 & Hc & ->).
  destruct (stored_config_same newURL c0 Hc) as [Sv Sr]. assert (Ea : o'.["advanced_custom"] = prune (normConfig c0)).
  { unfold at_. rewrite Hget. destruct (value_updates f (get_prop (js "advanced_custom") o)) as (_ & _ & _ & ->). by rewrite Hty, Ec. }
  exists text, o'. rewrite Ea, Sv, Sr. done.
Qed.

Lemma validated_routes_are_stored_witness :
  let f := sampleForm 58 sampleSettings sampleRoutes in
  exists text o', buildSettingsJSON f = Ret text /\ json_parse text = Some (VObj o') /\
    validateAdvancedCustomConfig sampleURL o'.["advanced_custom"] = Ret None /\
    (advancedCustomConfigUsesRelativeUpstreamPath o'.["advanced_custom"] = Ret true -> isBlank (strOf f.["base_url"]) = false).
Proof. cbv zeta. apply (validated_routes_are_stored sampleURL _ sampleObject); vm_compute; reflexivity. Defined.
