(* ===== verification/ChannelTags.v ===== *)
(** * The channel list: tag rows, keys and attention (features/channels/lib/channel-utils.ts)

    In tag mode the channel table shows one row per tag that summarises the
    channels of the tag.  The code builds these rows by mutation: a map from
    tags to rows and the list of results hold the same row objects, so the model
    has a store of rows and both hold references into it.  [summarises] says
    what a finished row shows of its channels.

    Priorities, weights and statuses, which are only compared, are the integers
    the server sends; quotas, balances and response times, which are added or
    averaged, are binary64 numbers. *)
From stdpp Require Import prelude list strings.
From S2P Require Import Prelude JsString JsNumber JsValue JsMap.
Open Scope Z_scope.
Open Scope js_scope.

(** ** Data (features/channels/types.ts) *)

(** A value of type [T | null | undefined]. *)
Inductive nullish (A : Type) := Undef | Null | Val (a : A).
Arguments Undef {A}. Arguments Null {A}. Arguments Val {A} a.

#[export] Instance nullish_eq_dec {A} `{EqDecision A} : EqDecision (nullish A).
Proof. solve_decision. Defined.

Record ChannelInfo := mkInfo {
  is_multi_key : bool; multi_key_size : Z; multi_key_status_list : option (list (jstr * Z));
  multi_key_disabled_reason : option (list (jstr * jstr)); multi_key_disabled_time : option (list (jstr * Z));
  multi_key_polling_index : Z; multi_key_mode : jstr }.

Record Channel := mkChannel {
  c_id : Z; c_type : Z; c_key : jstr; c_openai_organization : nullish jstr; c_test_model : nullish jstr;
  c_status : Z; c_name : jstr; c_weight : nullish Z; c_created_time : Z; c_test_time : Z;
  c_response_time : number; c_base_url : nullish jstr; c_other : jstr; c_balance : number;
  c_balance_updated_time : Z; c_models : jstr; c_group : jstr; c_used_quota : number;
  c_model_mapping : nullish jstr; c_status_code_mapping : nullish jstr; c_priority : nullish Z;
  c_auto_ban : nullish Z; c_other_info : jstr; c_tag : nullish jstr; c_setting : nullish jstr;
  c_param_override : nullish jstr; c_header_override : nullish jstr; c_remark : jstr;
  c_max_input_tokens : Z; c_channel_info : option ChannelInfo; c_settings : jstr }.

(** A tag row: the fields it overrides, and in [r_rest] the channel the other
    fields were spread from. *)
Record TagRow := mkTagRow {
  r_rest : Channel; r_key : jstr; r_id : jstr; r_tag : jstr; r_name : jstr; r_type : Z;
  r_status : option Z; r_group : jstr; r_used_quota : number; r_response_time : number;
  r_priority : nullish Z; r_weight : nullish Z; r_balance : Z; r_test_time : Z; r_created_time : Z;
  r_balance_updated_time : Z; r_models : jstr; r_children : list Channel }.

(** ** Aggregation by tag *)

(** [channel.tag || ''] *)
Definition tagOf (channel : Channel) : jstr := match c_tag channel with Val t => t | _ => [] end.

Definition newTagRow (tag : jstr) (channel : Channel) : TagRow := {|
  r_rest := channel; r_key := tag; r_id := tag; r_tag := tag; r_name := tag; r_type := 0;
  r_status := None; r_group := []; r_used_quota := num_zero; r_response_time := num_zero;
  r_priority := Val (-1); r_weight := Val (-1); r_balance := 0; r_test_time := 0; r_created_time := 0;
  r_balance_updated_time := 0; r_models := []; r_children := [] |}.

(** [(average * (count - 1) + value) / count] *)
Definition averageWith (average value : number) (childCount : nat) : number :=
  num_div (num_add (num_mul average (num_sub (num_of_Z (Z.of_nat childCount)) (num_of_Z 1))) value)
          (num_of_Z (Z.of_nat childCount)).

(** The same value, or null if they differ; [-1] stands for no value yet. *)
Definition sameOrNull (current value : nullish Z) : nullish Z :=
  if current === Val (-1) then value else if current === value then current else Null.

(** [group.split(',').filter(Boolean)] *)
Definition groupsIn (group : jstr) : list jstr := List.filter truthy_str (split_on (44%N) group).

(** [set.has(x)] *)
Definition hasElem (x : jstr) (s : list jstr) : bool := existsb (fun y => y === x) s.

Definition addGroups (group added : jstr) : jstr :=
  if group === [] then added
  else let existingGroups := set_from (groupsIn group) in
       foldl (fun acc g => if hasElem g existingGroups then acc else acc ++ 44%N :: g) group (groupsIn added).

Definition statusWith (current : option Z) (status : Z) : option Z :=
  if (status =? 1)%Z then Some 1
  else match current with None => Some status | Some _ => current end.

(** What one channel does to the row of its tag. *)
Definition addChild (channel : Channel) (row : TagRow) : TagRow :=
  let children := r_children row ++ [channel] in {|
  r_rest := r_rest row; r_key := r_key row; r_id := r_id row; r_tag := r_tag row; r_name := r_name row;
  r_type := r_type row;
  r_status := statusWith (r_status row) (c_status channel);
  r_group := addGroups (r_group row) (c_group channel);
  r_used_quota := num_add (r_used_quota row) (c_used_quota channel);
  r_response_time := averageWith (r_response_time row) (c_response_time channel) (length children);
  r_priority := sameOrNull (r_priority row) (c_priority channel);
  r_weight := sameOrNull (r_weight row) (c_weight channel);
  r_balance := r_balance row; r_test_time := r_test_time row; r_created_time := r_created_time row;
  r_balance_updated_time := r_balance_updated_time row; r_models := r_models row;
  r_children := children |}.

(** The row objects, and the references to them that the map and the result hold. *)
Record TagStore := mkStore { store_rows : list TagRow; tagMap : list (jstr * nat); result : list nat }.

Definition aggregateStep (s : TagStore) (channel : Channel) : TagStore :=
  let tag := tagOf channel in
  let s1 := match mget tag (tagMap s) with
            | Some _ => s
            | None => let ref := length (store_rows s) in
                {| store_rows := store_rows s ++ [newTagRow tag channel];
                   tagMap := mset tag ref (tagMap s); result := result s ++ [ref] |}
            end in
  match mget tag (tagMap s1) with
  | None => s1
  | Some ref => {| store_rows := alter (addChild channel) ref (store_rows s1);
                   tagMap := tagMap s1; result := result s1 |}
  end.

Definition aggregateChannelsByTag (channels : list Channel) : list TagRow :=
  let s := foldl aggregateStep (mkStore [] [] []) channels in
  omap (fun ref => store_rows s !! ref) (result s).

(** ** Keys *)

Record DedupeResult := mkDedupe {
  deduplicatedText : jstr; beforeCount : nat; afterCount : nat; removedCount : Z }.

(** The loop over the lines with its set and its list. *)
Definition dedupeLine (acc : list jstr * list jstr) (line : jstr) : list jstr * list jstr :=
  let trimmedLine := trim line in
  if truthy_str trimmedLine && negb (hasElem trimmedLine acc.1)
  then (acc.1 ++ [trimmedLine], acc.2 ++ [trimmedLine]) else acc.

Definition deduplicateKeys (keysText : jstr) : DedupeResult :=
  if negb (truthy_str keysText) || (trim keysText === []) then mkDedupe [] 0 0 0
  else let keyLines := split_on 10%N keysText in
       let keys := (foldl dedupeLine ([], []) keyLines).2 in
       mkDedupe (js_join [10%N] keys) (length keyLines) (length keys)
         (Z.of_nat (length keyLines) - Z.of_nat (length keys)).

Definition countKeys (key : jstr) : nat :=
  if truthy_str key then length (List.filter (fun k => truthy_str (trim k)) (split_on 10%N key)) else 0%nat.

(** [s.slice(-n)] *)
Definition sliceLast (n : nat) (s : jstr) : jstr := drop (length s - n) s.

Definition formatChannelKey (key : jstr) (isMultiKey : bool) : jstr :=
  if negb (truthy_str key) then []
  else if isMultiKey then print_int (Z.of_nat (countKeys key)) ++ js " keys"
  else if (length key <=? 16)%nat then slice 0 4 key ++ js "..." ++ sliceLast 4 key
  else slice 0 8 key ++ js "..." ++ sliceLast 8 key.

Definition formatKeyPreview (key : jstr) (maxLength : nat) : jstr :=
  if negb (truthy_str key) then []
  else if (length key <=? maxLength)%nat then key else slice 0 maxLength key ++ js "...".

(** ** Lists of models and groups *)

Definition parseModelsList (models : jstr) : list jstr :=
  if truthy_str models then trim_nonempty (split_on (44%N) models) else [].

Section Groups.
Context (localeCompare : jstr -> jstr -> Z).

Definition defaultFirst (a b : jstr) : Z :=
  if a === js "default" then -1 else if b === js "default" then 1 else localeCompare a b.

Definition parseGroupsList (groups : jstr) : list jstr :=
  if truthy_str groups then sort_by defaultFirst (trim_nonempty (split_on (44%N) groups)) else [].

Definition validateGroups (groups : jstr) : bool := (0 <? length (parseGroupsList groups))%nat.
End Groups.

Definition validateModels (models : jstr) : bool := (0 <? length (parseModelsList models))%nat.
Definition validateChannelName (name : jstr) : bool := (0 <? length (trim name))%nat.
Definition validateApiKey (key : jstr) : bool := (0 <? length (trim key))%nat.

(** ** Channels that need attention *)

Definition isChannelEnabled (channel : Channel) : bool := c_status channel =? 1.

Definition isMultiKeyChannel (channel : Channel) : bool :=
  match c_channel_info channel with Some i => is_multi_key i | None => false end.

Definition lowBalance (balance : number) : bool := num_ltb num_zero balance && num_ltb balance (num_of_Z 1).

Definition allKeysDisabled (info : option ChannelInfo) : bool :=
  match info with
  | Some i => is_multi_key i && match multi_key_status_list i with
                                | Some m => multi_key_size i <=? Z.of_nat (length m)
                                | None => false
                                end
  | None => false
  end.

Definition channelNeedsAttention (channel : Channel) : bool :=
  if c_status channel =? 3 then true
  else if lowBalance (c_balance channel) then true
  else if allKeysDisabled (c_channel_info channel) then true else false.

Definition getAttentionReason (channel : Channel) : option jstr :=
  if c_status channel =? 3 then Some (js "Auto-disabled")
  else if lowBalance (c_balance channel) then Some (js "Low balance")
  else if allKeysDisabled (c_channel_info channel) then Some (js "All keys disabled") else None.

(** ** Badges and ratings (features/channels/constants.ts) *)

Record Badge := mkBadge { b_variant : jstr; b_label : jstr }.

Definition getChannelStatusBadge (status : Z) : Badge :=
  match status with
  | 1 => mkBadge (js "success") (js "Enabled")
  | 2 => mkBadge (js "danger") (js "Disabled")
  | 3 => mkBadge (js "warning") (js "Auto Disabled")
  | _ => mkBadge (js "neutral") (js "Unknown")
  end.

Definition getBalanceVariant (balance : number) : jstr :=
  if num_eqb balance num_zero then js "neutral"
  else if num_ltb balance (num_of_Z 1) then js "danger"
  else if num_ltb balance (num_of_Z 10) then js "warning" else js "success".

Definition getResponseTimeConfig (timeMs : number) : Badge :=
  if num_eqb timeMs num_zero then mkBadge (js "neutral") (js "Not tested")
  else if num_leb timeMs (num_of_Z 500) then mkBadge (js "success") (js "Excellent")
  else if num_leb timeMs (num_of_Z 1000) then mkBadge (js "success") (js "Good")
  else if num_leb timeMs (num_of_Z 2000) then mkBadge (js "warning") (js "Fair")
  else if num_leb timeMs (num_of_Z 5000) then mkBadge (js "danger") (js "Poor")
  else mkBadge (js "danger") (js "Poor").

Definition getMultiKeyStatusBadge (status : Z) : Badge :=
  match status with
  | 2 => mkBadge (js "neutral") (js "Manual Disabled")
  | 3 => mkBadge (js "danger") (js "Auto Disabled")
  | _ => mkBadge (js "success") (js "Enabled")
  end.

Definition numberDisplay (n : nullish Z) : jstr := match n with Val z => print_int z | _ => js "0" end.
Definition getPriorityDisplay := numberDisplay.
Definition getWeightDisplay := numberDisplay.
