(* ===== verification/ChannelTagsCorrect.v ===== *)
(** * The tag rows summarise their channels

    The aggregation with shared row objects is first related to an accumulation
    in an insertion-ordered map, one entry per tag; the row of a tag is then the
    fold of that tag's channels, and [summarises] reads the fold. *)
From stdpp Require Import prelude list strings.
From S2P Require Import Prelude JsString JsNumber JsInteger JsValue JsMap ChannelTags.
Open Scope Z_scope.
Open Scope js_scope.

(** ** Insertion-ordered maps *)

Section Keys.
Context {K V E : Type} `{EqDecision K}.

Lemma dedup_ext (s s' l : list K) : (forall x, x ∈ s <-> x ∈ s') -> dedup s l = dedup s' l.
Proof.
  revert s s'. induction l as [|x l IH]; intros s s' H; simpl; [done|].
  rewrite (bool_decide_ext _ _ (H x)). destruct (bool_decide (x ∈ s')); [by apply IH|].
  f_equal. apply IH. intros y. rewrite !elem_of_cons. specialize (H y). tauto.
Qed.

(** The keys of an accumulation are in the order of their first events. *)
Lemma accumulate_key_order (key : E -> K) (init : E -> V) step m l :
  mkeys (accumulate key init step m l) = mkeys m ++ dedup (mkeys m) (map key l).
Proof.
  revert m. induction l as [|e l IH]; intros m; simpl; [by rewrite app_nil_r|].
  rewrite IH. unfold acc_add, upsert. rewrite mkeys_mset. case_bool_decide as Hk.
  - done.
  - rewrite <- app_assoc. simpl. do 2 f_equal.
    apply dedup_ext. intros y. rewrite elem_of_app, !elem_of_cons, elem_of_nil. tauto.
Qed.

Lemma mvalues_by_key (d : V) (m : list (K * V)) :
  NoDup (mkeys m) -> mvalues m = map (fun k => default d (mget k m)) (mkeys m).
Proof.
  intros Hm. unfold mvalues, mkeys. rewrite map_map. apply map_ext_in.
  intros [k v] H. simpl. rewrite (mget_NoDup k v m Hm); [done|by apply list_elem_of_In].
Qed.

(** The references of a map whose entries were stored one after the other. *)
Definition refs (o : nat) (m : list (K * V)) : list (K * nat) := zip (mkeys m) (seq o (length m)).

Lemma refs_snoc o m k v : refs o (m ++ [(k, v)]) = refs o m ++ [(k, (o + length m)%nat)].
Proof.
  unfold refs, mkeys. rewrite map_app, length_app, seq_app. simpl.
  rewrite zip_with_app; [done|]. by rewrite length_map, length_seq.
Qed.

Lemma refs_None o m k : mget k m = None -> mget k (refs o m) = None.
Proof.
  revert o. induction m as [|[k' v] m IH]; intros o; [done|]. unfold refs. simpl.
  rewrite !mget_cons. case_bool_decide; [done|]. apply IH.
Qed.

Lemma mset_cons k v k' v' (m : list (K * V)) :
  mset k v ((k', v') :: m) = if bool_decide (k = k') then (k, v) :: m else (k', v') :: mset k v m.
Proof. reflexivity. Qed.

Lemma refs_update o m k v (f : V -> V) :
  mget k m = Some v ->
  exists i, mget k (refs o m) = Some (o + i)%nat /\ alter f i (mvalues m) = mvalues (mset k (f v) m)
            /\ refs o (mset k (f v) m) = refs o m.
Proof.
  revert o. induction m as [|[k' v'] m IH]; intros o; [done|].
  rewrite mget_cons, mset_cons. unfold refs. simpl. rewrite mget_cons. case_bool_decide as E'.
  - intros [= ->]. subst k'. exists 0%nat. split; [f_equal; lia|done].
  - intros Hk. destruct (IH (S o) Hk) as (i & Hi & Hv & Hr). exists (S i).
    split; [etransitivity; [exact Hi|f_equal; lia]|]. split; [|simpl; f_equal; exact Hr].
    simpl. rewrite <- Hv. done.
Qed.

Lemma mset_new k v (m : list (K * V)) : mget k m = None -> mset k v m = m ++ [(k, v)].
Proof.
  induction m as [|[k' v'] m IH]; [done|]. rewrite mget_cons, mset_cons. case_bool_decide; [done|].
  intros Hk. by rewrite IH.
Qed.
End Keys.

(** ** The store holds the accumulation *)

Notation tagRows := (accumulate tagOf (fun c => newTagRow (tagOf c) c) addChild).

(** The store of an accumulated map. *)
Definition storeOf (m : list (jstr * TagRow)) : TagStore := mkStore (mvalues m) (refs 0 m) (seq 0 (length m)).

Lemma aggregateStep_storeOf m c : aggregateStep (storeOf m) c = storeOf (tagRows m [c]).
Proof.
  unfold aggregateStep, accumulate. simpl foldl. unfold acc_add, upsert.
  destruct (mget (tagOf c) m) as [row|] eqn:E'; simpl tagMap.
  - destruct (refs_update 0 m (tagOf c) row (addChild c) E') as (i & Hi & Hv & Hr).
    rewrite Hi. simpl tagMap. rewrite Hi. unfold storeOf. simpl. rewrite Hv, Hr. do 2 f_equal.
    apply (f_equal length) in Hv. unfold mvalues in Hv. rewrite length_alter, !length_map in Hv. done.
  - rewrite (refs_None 0 m _ E'). simpl. rewrite mget_mset, bool_decide_true by done.
    rewrite (mset_new _ _ m E'), (mset_new _ _ (refs 0 m)) by (by apply refs_None).
    unfold storeOf, mvalues. rewrite refs_snoc, map_app, length_app, seq_app, length_map. simpl.
    f_equal. rewrite <- (length_map snd m), <- (Nat.add_0_r (length (map snd m))).
    by rewrite alter_app_r.
Qed.

Lemma omap_refs {A} (pre l : list A) :
  omap (fun i => (pre ++ l) !! i) (seq (length pre) (length l)) = l.
Proof.
  revert pre. induction l as [|x l IH]; intros pre; [done|]. simpl.
  rewrite list_lookup_middle by done. f_equal.
  specialize (IH (pre ++ [x])). rewrite <- app_assoc, length_app, Nat.add_1_r in IH. exact IH.
Qed.

Lemma aggregate_accumulates cs : aggregateChannelsByTag cs = mvalues (tagRows [] cs).
Proof.
  unfold aggregateChannelsByTag. change (mkStore [] [] []) with (storeOf []).
  assert (H : forall m, foldl aggregateStep (storeOf m) cs = storeOf (tagRows m cs)).
  { induction cs as [|c cs IH]; intros m; [done|]. simpl. rewrite aggregateStep_storeOf. apply IH. }
  rewrite H. simpl. generalize (tagRows [] cs). intros m.
  rewrite <- (length_map snd m). apply (omap_refs []).
Qed.

(** ** The row of a tag folds the channels of the tag *)

Definition withTag (tag : jstr) (cs : list Channel) : list Channel := List.filter (fun c => tagOf c === tag) cs.

Definition foldRow (row : TagRow) (kids : list Channel) : TagRow := foldl (fun r c => addChild c r) row kids.

Lemma tagRows_tags cs : Forall (fun p => r_tag p.2 = p.1) (tagRows [] cs).
Proof. apply (accumulate_inv _ _ _ (fun t r => r_tag r = t)); [constructor|]. apply Forall_true. done. Qed.

Lemma tagRows_fold cs t row :
  mget t (tagRows [] cs) = Some row ->
  exists c kids, withTag t cs = c :: kids /\ row = foldRow (newTagRow t c) (c :: kids).
Proof.
  rewrite accumulate_get. unfold withTag. destruct (List.filter _ cs) as [|c kids] eqn:Ef; [done|].
  intros [= <-]. exists c, kids. split; [done|].
  assert (Hin : In c (List.filter (fun e => bool_decide (tagOf e = t)) cs)) by (rewrite Ef; by left).
  apply filter_In in Hin as [_ Hin]. apply bool_decide_eq_true in Hin. by rewrite <- Hin.
Qed.

Lemma aggregate_tags cs : map r_tag (aggregateChannelsByTag cs) = set_from (map tagOf cs).
Proof.
  rewrite aggregate_accumulates. etransitivity; [|exact (accumulate_key_order tagOf (fun c => newTagRow (tagOf c) c) addChild [] cs)].
  unfold mvalues, mkeys. rewrite map_map. apply map_ext_in. intros p Hp%list_elem_of_In.
  pose proof (tagRows_tags cs) as H. rewrite Forall_forall in H. by apply H.
Qed.

Lemma aggregate_rows cs row :
  row ∈ aggregateChannelsByTag cs ->
  exists c kids, withTag (r_tag row) cs = c :: kids /\ row = foldRow (newTagRow (r_tag row) c) (c :: kids).
Proof.
  rewrite aggregate_accumulates. unfold mvalues. intros ([t r] & -> & Hp)%list_elem_of_fmap. simpl.
  pose proof (tagRows_tags cs) as H. rewrite Forall_forall in H. pose proof (H _ Hp) as Ht. simpl in Ht.
  rewrite Ht. apply tagRows_fold, mget_NoDup; [apply accumulate_NoDup; constructor|done].
Qed.

(** ** What the fold computes *)

Lemma foldRow_fields row kids :
  r_tag (foldRow row kids) = r_tag row /\
  r_children (foldRow row kids) = r_children row ++ kids /\
  r_used_quota (foldRow row kids) = foldl num_add (r_used_quota row) (map c_used_quota kids) /\
  r_status (foldRow row kids) = foldl statusWith (r_status row) (map c_status kids) /\
  r_group (foldRow row kids) = foldl addGroups (r_group row) (map c_group kids) /\
  r_priority (foldRow row kids) = foldl sameOrNull (r_priority row) (map c_priority kids) /\
  r_weight (foldRow row kids) = foldl sameOrNull (r_weight row) (map c_weight kids).
Proof.
  revert row. induction kids as [|c kids IH]; intros row; simpl; [by rewrite app_nil_r|].
  destruct (IH (addChild c row)) as (-> & -> & -> & -> & -> & -> & ->). simpl.
  by rewrite <- app_assoc.
Qed.

(** The status of the first channel unless one is enabled. *)
Lemma status_fold s ss :
  foldl statusWith None (s :: ss) = Some (if existsb (fun s => s =? 1) (s :: ss) then 1 else s).
Proof.
  assert (H : forall ss x, foldl statusWith (Some x) ss = Some (if existsb (fun s => s =? 1) ss then 1 else x)).
  { clear. induction ss as [|y ss IH]; intros x; [done|]. simpl. unfold statusWith at 2.
    destruct (Z.eqb_spec y 1); simpl; rewrite IH; [by destruct (existsb _ ss)|done]. }
  simpl. unfold statusWith at 2.
  destruct (Z.eqb_spec s 1); simpl; rewrite H; [|done]. by destruct (existsb _ ss).
Qed.

(** The value that the channels share, or null; the channels before the first
    whose value is not -1 do not count, since the code takes -1 for "none yet". *)
Fixpoint sharedValue (vs : list (nullish Z)) : nullish Z :=
  match vs with
  | [] => Val (-1)
  | v :: vs => if v === Val (-1) then sharedValue vs else if forallb (fun w => w === v) vs then v else Null
  end.

Lemma same_fold_set v vs : v <> Val (-1) -> foldl sameOrNull v vs = if forallb (fun w => w === v) vs then v else Null.
Proof.
  revert v. induction vs as [|w vs IH]; intros v Hv; [done|]. simpl.
  unfold sameOrNull at 2. rewrite (bool_decide_false (v = Val (-1))) by done.
  destruct (decide (w = v)) as [->|Hne].
  - rewrite !bool_decide_true by done. by apply IH.
  - rewrite !bool_decide_false by done. simpl. rewrite IH by done. by destruct (forallb _ vs).
Qed.

Lemma same_fold vs : foldl sameOrNull (Val (-1)) vs = sharedValue vs.
Proof.
  induction vs as [|v vs IH]; [done|]. simpl. unfold sameOrNull at 2. rewrite (bool_decide_true (Val (-1) = Val (-1))) by done.
  case_bool_decide as Ev; [by subst|]. by apply same_fold_set.
Qed.

(** Merging groups appends the ones that are new. *)
Lemma split_on_sep c a b : split_on c (a ++ c :: b) = split_on c a ++ split_on c b.
Proof.
  induction a as [|x a IH]; simpl; [by rewrite N.eqb_refl|]. rewrite IH. destruct (x =? c)%N; [done|].
  pose proof (split_on_nonempty c a) as Ha. by destruct (split_on c a).
Qed.

Lemma groupsIn_snoc a g : ~ In 44%N g -> g <> [] -> groupsIn (a ++ 44%N :: g) = groupsIn a ++ [g].
Proof.
  intros Hg Hne. unfold groupsIn. rewrite split_on_sep, (split_on_no_sep _ g Hg), List.filter_app. simpl.
  by rewrite (proj2 (truthy_str_spec g) Hne).
Qed.

Lemma hasElem_spec x s : hasElem x s = true <-> x ∈ s.
Proof.
  unfold hasElem. rewrite existsb_exists, list_elem_of_In. split.
  - intros (y & Hy & ->%bool_decide_eq_true). done.
  - intros Hx. exists x. split; [done|]. by apply bool_decide_eq_true.
Qed.

Lemma groupsIn_addGroups a b :
  groupsIn (addGroups a b) = groupsIn a ++ List.filter (fun g => negb (hasElem g (set_from (groupsIn a)))) (groupsIn b).
Proof.
  unfold addGroups. case_bool_decide as Ha.
  { subst a. simpl. induction (groupsIn b) as [|g gs IH]; [done|]. simpl. by rewrite <- IH. }
  generalize (set_from (groupsIn a)). intros ex.
  assert (Hb : Forall (fun g => ~ In 44%N g /\ g <> []) (groupsIn b)).
  { apply Forall_forall. unfold groupsIn. intros g [Hg Ht]%list_elem_of_In%filter_In.
    split; [by eapply split_on_elem|by apply truthy_str_spec]. }
  clear Ha. revert a. induction Hb as [|g gs [Hg Hne] Hb IH]; intros a; simpl; [by rewrite app_nil_r|].
  rewrite IH. destruct (hasElem g ex); simpl; [done|]. by rewrite groupsIn_snoc, <- app_assoc.
Qed.

Lemma addGroups_elem a b g : g ∈ groupsIn (addGroups a b) <-> g ∈ groupsIn a \/ g ∈ groupsIn b.
Proof.
  rewrite groupsIn_addGroups, elem_of_app, (list_elem_of_In (List.filter _ _)), filter_In, negb_true_iff.
  rewrite <- not_true_iff_false, hasElem_spec, set_from_elem, <- list_elem_of_In.
  destruct (decide (g ∈ groupsIn a)); tauto.
Qed.

Lemma addGroups_NoDup a b : NoDup (groupsIn a) -> NoDup (groupsIn b) -> NoDup (groupsIn (addGroups a b)).
Proof.
  intros Ha Hb. rewrite groupsIn_addGroups. apply NoDup_app. split; [done|]. split.
  - intros g Hg [_ Hn]%list_elem_of_In%filter_In. apply negb_true_iff, not_true_iff_false in Hn.
    apply Hn, hasElem_spec. by apply set_from_elem.
  - apply NoDup_ListNoDup, List.NoDup_filter. by apply NoDup_ListNoDup.
Qed.

Lemma groups_fold a gs g :
  g ∈ groupsIn (foldl addGroups a gs) <-> g ∈ groupsIn a \/ exists b, b ∈ gs /\ g ∈ groupsIn b.
Proof.
  revert a. induction gs as [|b gs IH]; intros a; simpl.
  - split; [by left|]. intros [H|(b & Hb & _)]; [done|]. by apply elem_of_nil in Hb.
  - rewrite IH, addGroups_elem. setoid_rewrite elem_of_cons. naive_solver.
Qed.

Lemma groups_fold_NoDup a gs :
  NoDup (groupsIn a) -> Forall (fun b => NoDup (groupsIn b)) gs -> NoDup (groupsIn (foldl addGroups a gs)).
Proof. intros Ha Hgs. revert a Ha. induction Hgs; intros a Ha; simpl; auto using addGroups_NoDup. Qed.

(** ** The promise of a tag row *)

Record summarises (kids : list Channel) (row : TagRow) : Prop := {
  shows_children : r_children row = kids;
  shows_quota (quota : Channel -> Z) :
    Forall (fun c => c_used_quota c = num_of_Z (quota c) /\ 0 <= quota c) kids -> sum_by quota kids < 2 ^ 53 ->
    r_used_quota row = num_of_Z (sum_by quota kids);
  shows_status : r_status row = if existsb isChannelEnabled kids then Some 1 else c_status <$> head kids;
  shows_priority : r_priority row = sharedValue (map c_priority kids);
  shows_weight : r_weight row = sharedValue (map c_weight kids);
  shows_groups g : g ∈ groupsIn (r_group row) <-> exists c, c ∈ kids /\ g ∈ groupsIn (c_group c);
  shows_groups_once : Forall (fun c => NoDup (groupsIn (c_group c))) kids -> NoDup (groupsIn (r_group row)) }.

Lemma quota_fold (quota : Channel -> Z) kids :
  Forall (fun c => c_used_quota c = num_of_Z (quota c) /\ 0 <= quota c) kids -> sum_by quota kids < 2 ^ 53 ->
  foldl num_add num_zero (map c_used_quota kids) = num_of_Z (sum_by quota kids).
Proof.
  intros H Hb. assert (E : foldr Z.add 0 (map quota kids) = sum_by quota kids)
    by (clear; induction kids as [|k ks IH]; [done|]; simpl; by rewrite IH).
  rewrite <- E in *. etransitivity; [|apply (num_sum_exact 0 (map quota kids)); [done| |done]].
  - clear Hb E. change (num_of_Z 0) with num_zero. generalize num_zero.
    induction H as [|c kids [Hc _] _ IH]; intros acc; [done|]. simpl. rewrite Hc. apply IH.
  - apply Forall_fmap. eapply Forall_impl; [exact H|]. by intros c [_ Hc].
Qed.

(** Every channel is a child of one row. *)
Lemma children_upsert c m :
  Permutation (concat (map r_children (mvalues (acc_add tagOf (fun c => newTagRow (tagOf c) c) addChild m c))))
              (concat (map r_children (mvalues m)) ++ [c]).
Proof.
  unfold acc_add, upsert. set (init := newTagRow (tagOf c) c).
  assert (H : r_children init = []) by done. clearbody init.
  induction m as [|[k row] m IH]; [simpl; by rewrite H|]. rewrite mget_cons, mset_cons.
  case_bool_decide; simpl.
  - rewrite <- !app_assoc. apply Permutation_app_head, Permutation_app_comm.
  - rewrite <- app_assoc. by apply Permutation_app_head.
Qed.

Lemma children_accumulate cs m :
  Permutation (concat (map r_children (mvalues (tagRows m cs)))) (concat (map r_children (mvalues m)) ++ cs).
Proof.
  revert m. induction cs as [|c cs IH]; intros m; simpl; [by rewrite app_nil_r|].
  rewrite IH, children_upsert, <- app_assoc. done.
Qed.

Lemma existsb_statuses kids : existsb (fun s => s =? 1) (map c_status kids) = existsb isChannelEnabled kids.
Proof. induction kids as [|k ks IH]; [done|]. simpl. by rewrite IH. Qed.

Lemma foldRow_summarises t c kids : summarises (c :: kids) (foldRow (newTagRow t c) (c :: kids)).
Proof.
  destruct (foldRow_fields (newTagRow t c) (c :: kids)) as (_ & Hc & Hq & Hs & Hg & Hp & Hw).
  split.
  - exact Hc.
  - intros quota H Hb. rewrite Hq. by apply quota_fold.
  - rewrite Hs, <- existsb_statuses. etransitivity; [apply (status_fold (c_status c))|]. by destruct (existsb _ _).
  - rewrite Hp. apply same_fold.
  - rewrite Hw. apply same_fold.
  - intros g. rewrite Hg, groups_fold. simpl r_group. split.
    + intros [H|(b & (c' & -> & Hc')%list_elem_of_fmap & Hb)]; [by apply elem_of_nil in H|]. by exists c'.
    + intros (c' & Hc' & Hb). right. exists (c_group c'). split; [|done]. by apply list_elem_of_fmap_2.
  - intros H. rewrite Hg. apply groups_fold_NoDup; [constructor|]. by apply Forall_fmap.
Qed.

(** [C37] In tag mode the table has one row for each tag, in the order in which
    the tags first appear, and each row summarises exactly the channels of its
    tag: its children are these channels in order, its status is enabled if one
    of them is and otherwise that of the first, and its groups are the groups of
    the channels (each once, if no channel repeats one). If the used quotas are
    non-negative integers whose sum is below [2^53], the row's used quota is that
    sum. Its priority is computed as follows, and its weight likewise: the
    channels before the first whose value is not -1 are passed over, the row
    shows the value of that channel if all later ones have the same value and
    null otherwise, and -1 if every channel has -1. So for channels without -1 it
    is the common value or null, while -1 followed by 5 shows 5. Every channel is
    the child of one row. *)
Theorem tag_rows_summarise_channels cs :
  map r_tag (aggregateChannelsByTag cs) = set_from (map tagOf cs) /\
  Forall (fun row => summarises (withTag (r_tag row) cs) row) (aggregateChannelsByTag cs) /\
  Permutation (concat (map r_children (aggregateChannelsByTag cs))) cs.
Proof.
  split; [apply aggregate_tags|]. split.
  - apply Forall_forall. intros row Hrow. destruct (aggregate_rows cs row Hrow) as (c & kids & -> & E).
    rewrite E. apply foldRow_summarises.
  - rewrite aggregate_accumulates. apply (children_accumulate cs []).
Qed.

(** ** Keys *)

Lemma dedupeLine_fold lines seen :
  foldl dedupeLine (seen, seen) lines =
  (seen ++ dedup seen (trim_nonempty lines), seen ++ dedup seen (trim_nonempty lines)).
Proof.
  revert seen. induction lines as [|l ls IH]; intros seen; simpl; [by rewrite app_nil_r|].
  unfold dedupeLine at 2. simpl. unfold trim_nonempty. simpl. fold (trim_nonempty ls).
  destruct (truthy_str (trim l)); simpl; [|apply IH].
  destruct (hasElem (trim l) seen) eqn:Eh; simpl.
  - apply hasElem_spec in Eh. rewrite bool_decide_true by done. apply IH.
  - apply not_true_iff_false in Eh. rewrite hasElem_spec in Eh. rewrite bool_decide_false by done.
    rewrite IH, <- app_assoc. simpl.
    rewrite (dedup_ext (seen ++ [trim l]) (trim l :: seen)); [done|].
    intros y. rewrite elem_of_app, !elem_of_cons, elem_of_nil. tauto.
Qed.

(** The keys of a text: its trimmed lines that are not blank, each once. *)
Definition keysOf (text : jstr) : list jstr := set_from (trim_nonempty (split_on 10%N text)).

Lemma trim_nil_ws s : trim s = [] -> Forall (fun c => is_ws c = true) s.
Proof.
  assert (H : forall t, trim_start t = [] -> Forall (fun c => is_ws c = true) t).
  { intros t Ht. destruct (trim_start_suffix t) as (w & E & Hw). by rewrite E, Ht, app_nil_r. }
  intros Hs. unfold trim, trim_end in Hs. apply (f_equal (@rev N)) in Hs. rewrite rev_involutive in Hs.
  apply H in Hs. apply Forall_rev in Hs. rewrite rev_involutive in Hs.
  destruct (trim_start_suffix s) as (w & E & Hw). rewrite E. by apply Forall_app.
Qed.

Lemma split_on_incl c s x d : In x (split_on c s) -> In d x -> In d s.
Proof.
  revert x. induction s as [|a s IH]; intros x; simpl; [by intros [<-|[]] []|].
  destruct (a =? c)%N; [intros [<-|H] Hd; [done|right; by eapply IH]|].
  pose proof (split_on_nonempty c s) as Hne. destruct (split_on c s) as [|w ws]; [done|].
  intros [<-|H] Hd; [destruct Hd as [->|Hd]; [by left|]|]; right; (eapply IH; [|done]); [by left|by right].
Qed.

Lemma blank_text_no_keys text : trim text = [] -> trim_nonempty (split_on 10%N text) = [].
Proof.
  intros Hws%trim_nil_ws. rewrite Forall_forall in Hws.
  destruct (trim_nonempty _) as [|k ks] eqn:E; [done|]. exfalso.
  assert (Hk : In k (trim_nonempty (split_on 10%N text))) by (rewrite E; by left).
  apply filter_In in Hk as [(l & <- & Hl)%in_map_iff Ht]. apply truthy_str_spec in Ht. apply Ht.
  apply trim_all_ws, Forall_forall. intros d Hd%list_elem_of_In. apply Hws, list_elem_of_In.
  by eapply split_on_incl.
Qed.

Lemma deduplicateKeys_text text :
  deduplicatedText (deduplicateKeys text) = js_join [10%N] (keysOf text) /\
  afterCount (deduplicateKeys text) = length (keysOf text).
Proof.
  unfold deduplicateKeys. destruct (_ || _) eqn:E; simpl.
  - assert (H : trim text = []).
    { apply orb_true_iff in E as [E|E]; [|by apply bool_decide_eq_true in E].
      apply negb_true_iff, truthy_str_false in E. by subst. }
    unfold keysOf. by rewrite blank_text_no_keys.
  - rewrite dedupeLine_fold. done.
Qed.

Lemma keysOf_clean text : Forall (fun k => ~ In 10%N k /\ k <> [] /\ trimmed k = true) (keysOf text).
Proof.
  apply Forall_forall. intros k Hk. unfold keysOf in Hk. rewrite set_from_elem, list_elem_of_In in Hk.
  apply filter_In in Hk as [(l & <- & Hl)%in_map_iff Ht]. split; [|split].
  - intros Hin%trim_incl. by apply split_on_elem in Hl.
  - by apply truthy_str_spec.
  - apply trim_trimmed.
Qed.

(** Deduplicating keeps each key of the text once, in order, and a second pass
    changes nothing. *)
Theorem deduplicateKeys_idempotent text :
  keysOf (deduplicatedText (deduplicateKeys text)) = keysOf text /\
  deduplicatedText (deduplicateKeys (deduplicatedText (deduplicateKeys text))) = deduplicatedText (deduplicateKeys text).
Proof.
  assert (H : keysOf (deduplicatedText (deduplicateKeys text)) = keysOf text).
  { rewrite (proj1 (deduplicateKeys_text text)). pose proof (keysOf_clean text) as Hc.
    pose proof (set_from_NoDup (trim_nonempty (split_on 10%N text))) as Hnd. fold (keysOf text) in Hnd.
    destruct (keysOf text) as [|k ks]; [done|]. unfold keysOf at 1.
    rewrite split_on_join; [|done|by eapply Forall_impl; [exact Hc|naive_solver]].
    rewrite trim_nonempty_id; [by apply set_from_id|].
    by eapply Forall_impl; [exact Hc|naive_solver]. }
  split; [exact H|]. rewrite (proj1 (deduplicateKeys_text (deduplicatedText _))), H. symmetry. apply deduplicateKeys_text.
Qed.

(** ** Groups, attention and samples *)

(** The group called default comes first, and the list has every group of the text. *)
Theorem groups_list_default_first localeCompare groups :
  Permutation (parseGroupsList localeCompare groups) (trim_nonempty (split_on 44%N groups)) /\
  (js "default" ∈ parseGroupsList localeCompare groups ->
   head (parseGroupsList localeCompare groups) = Some (js "default")).
Proof.
  unfold parseGroupsList. destruct (truthy_str groups) eqn:E.
  2:{ apply truthy_str_false in E. subst. split; [done|]. intros H. by apply elem_of_nil in H. }
  generalize (trim_nonempty (split_on 44%N groups)). intros l. split; [apply sort_by_perm|].
  rewrite sort_by_elem. induction l as [|x l IH]; [by intros H%elem_of_nil|]. simpl.
  intros [Hx|Hl]%elem_of_cons.
  - subst x. destruct (sort_by _ l) as [|y s]; [done|]. done.
  - specialize (IH Hl). destruct (sort_by _ l) as [|y s]; [done|]. injection IH as ->. simpl.
    unfold defaultFirst. case_bool_decide as Hx; [by rewrite Hx|done].
Qed.

(** A reason is shown exactly for the channels that need attention. *)
Theorem attention_has_reason c : channelNeedsAttention c = true <-> getAttentionReason c <> None.
Proof. unfold channelNeedsAttention, getAttentionReason. repeat case_if; naive_solver. Qed.

Definition sampleChannel (id : Z) (tag group : string) (status quota : Z) (priority : nullish Z) (ms : Z) : Channel :=
  {| c_id := id; c_type := 1; c_key := []; c_openai_organization := Null; c_test_model := Null; c_status := status;
     c_name := js "n"; c_weight := Val 0; c_created_time := 0; c_test_time := 0; c_response_time := num_of_Z ms;
     c_base_url := Null; c_other := []; c_balance := num_zero; c_balance_updated_time := 0; c_models := [];
     c_group := js group; c_used_quota := num_of_Z quota; c_model_mapping := Null; c_status_code_mapping := Null;
     c_priority := priority; c_auto_ban := Val 1; c_other_info := []; c_tag := Val (js tag); c_setting := Null;
     c_param_override := Null; c_header_override := Null; c_remark := []; c_max_input_tokens := 0;
     c_channel_info := None; c_settings := js "{}" |}.

Definition sampleChannels : list Channel :=
  [sampleChannel 1 "eu" "default,vip" 2 30 (Val 4) 100; sampleChannel 2 "us" "default" 3 5 Null 50;
   sampleChannel 3 "eu" "vip,svip" 1 12 (Val 4) 300].

Definition shown (row : TagRow) := (r_tag row, r_status row, r_group row, num_to_Z (r_used_quota row), r_priority row,
  num_to_str (r_response_time row), map c_id (r_children row)).

Example tag_rows_sample :
  map shown (aggregateChannelsByTag sampleChannels) =
  [(js "eu", Some 1, js "default,vip,svip", Some 42, Val 4, js "200", [1; 3]);
   (js "us", Some 3, js "default", Some 5, Null, js "50", [2])].
Proof. vm_compute. reflexivity. Qed.

(** A priority of -1 is taken for no priority yet: channels of priorities -1 and
    5 show 5, and the other order shows null. *)
Example priority_minus_one :
  let a := sampleChannel 1 "eu" "default" 1 0 (Val (-1)) 0 in
  let b := sampleChannel 2 "eu" "default" 1 0 (Val 5) 0 in
  map r_priority (aggregateChannelsByTag [a; b]) = [Val 5] /\
  map r_priority (aggregateChannelsByTag [b; a]) = [Null].
Proof. vm_compute. split; reflexivity. Qed.

(** Groups that one channel repeats are not removed. *)
Example repeated_group_stays :
  map r_group (aggregateChannelsByTag [sampleChannel 1 "eu" "vip" 1 0 Null 0; sampleChannel 2 "eu" "a,a" 1 0 Null 0])
  = [js "vip,a,a"].
Proof. vm_compute. reflexivity. Qed.

(** A key of up to eight characters is shown completely. *)
Example short_key_shown : formatChannelKey (js "abcd1234") false = js "abcd...1234".
Proof. vm_compute. reflexivity. Qed.

Example dedupe_sample :
  deduplicateKeys ([97; 10; 10; 32; 98; 10; 97]%N) = mkDedupe [97; 10; 98]%N 4 2 2.
Proof. vm_compute. reflexivity. Qed.
