(* ===== verification/TableUrl.v ===== *)
(** * Table state in the URL (hooks/use-table-url-state.ts)

    The tables of the console keep page, page size and filters in the search
    parameters of the URL.  The hook reads them when it renders and its handlers
    answer a change with a navigation, which the router turns into the search
    the next render sees.  The column filters are also kept in React state that
    an effect resets whenever the search changes; the global filter is React
    state that is read from the URL only when the table is mounted.  The page
    size is remembered in the browser's storage.

    The router is not part of the sources: [commit] is the search it arrives at
    for the search a navigation asks for, and [Router] says that it keeps the
    values at the table's own keys. *)
From stdpp Require Import prelude list strings.
From S2P Require Import Prelude JsString JsNumber JsInteger JsValue.
Open Scope Z_scope.
Open Scope js_scope.

Notation SearchRecord := (list (jstr * jsval)).

(** ** Configuration *)

Inductive FilterType := TString | TArray.

Record FilterCfg := mkFilterCfg {
  columnId : jstr; searchKey : jstr; f_type : option FilterType;
  serialize : option (jsval -> jsval); deserialize : option (jsval -> jsval) }.

Record PaginationCfg := mkPaginationCfg {
  cfg_pageKey : option jstr; cfg_pageSizeKey : option jstr;
  cfg_defaultPage : option number; cfg_defaultPageSize : option number }.

Record GlobalFilterCfg := mkGlobalCfg { cfg_enabled : option bool; cfg_key : option jstr; cfg_trim : option bool }.

Record UseTableUrlStateParams := mkParams {
  paginationCfg : option PaginationCfg; globalFilterCfg : option GlobalFilterCfg;
  p_columnFilters : option (list FilterCfg) }.

(** The configuration with its defaults filled in. *)
Record TableCfg := mkCfg {
  pageKey : jstr; pageSizeKey : jstr; defaultPage : number; defaultPageSize : number;
  globalFilterKey : jstr; globalFilterEnabled : bool; trimGlobal : bool; columnFiltersCfg : list FilterCfg }.

Definition resolveCfg (p : UseTableUrlStateParams) : TableCfg := {|
  pageKey := default (js "page") (paginationCfg p ≫= cfg_pageKey);
  pageSizeKey := default (js "pageSize") (paginationCfg p ≫= cfg_pageSizeKey);
  defaultPage := default (num_of_Z 1) (paginationCfg p ≫= cfg_defaultPage);
  defaultPageSize := default (num_of_Z 20) (paginationCfg p ≫= cfg_defaultPageSize);
  globalFilterKey := default (js "filter") (globalFilterCfg p ≫= cfg_key);
  globalFilterEnabled := default true (globalFilterCfg p ≫= cfg_enabled);
  trimGlobal := default true (globalFilterCfg p ≫= cfg_trim);
  columnFiltersCfg := default [] (p_columnFilters p) |}.

(** ** State *)

Record ColumnFilter := mkFilter { fl_id : jstr; fl_value : jsval }.
Record PaginationState := mkPage { pageIndex : number; pageSize : number }.

(** The entry of the storage under ['page-size']; reading or writing may throw. *)
Record Storage := mkStorage { st_item : option jstr; st_readable : bool; st_writable : bool }.

Record TableState := mkTable {
  search : SearchRecord; storage : Storage; columnFilters : list ColumnFilter; globalFilter : option jstr }.

(** A change: a value or a function of the current value. *)
Inductive Updater (A : Type) := Value (a : A) | Update (f : A -> A).
Arguments Value {A} a. Arguments Update {A} f.

Definition runUpdater {A} (upd : Updater A) (current : A) : A :=
  match upd with Value a => a | Update f => f current end.

(** What [navigate] is asked for. *)
Record Navigation := mkNavigation { nav_search : SearchRecord; nav_replace : bool }.

(** ** The stored page size *)

(** [parseInt(s, 10)] *)
Definition parseInt10 (s : jstr) : number :=
  let '(neg, digits) := match trim_start s with
                        | 45%N :: r => (true, r)
                        | 43%N :: r => (false, r)
                        | r => (false, r)
                        end in
  let ds := (span is_digit digits).1 in
  if truthy_str ds then num_of_dec neg (parse_dec ds) 0 else num_nan.

Definition getStoredPageSize (st : Storage) : option number :=
  if st_readable st then
    let n := parseInt10 (default [] (st_item st)) in if num_ltb num_zero n then Some n else None
  else None.

Definition setStoredPageSize (size : number) (st : Storage) : Storage :=
  if st_writable st then {| st_item := Some (num_to_str size); st_readable := st_readable st; st_writable := true |}
  else st.

(** ** Reading the URL *)

(** [value ?? d] *)
Definition orNullish (v d : jsval) : jsval := match v with VUndef | VNull => d | _ => v end.

Definition apply_opt (f : option (jsval -> jsval)) (v : jsval) : jsval := match f with Some g => g v | None => v end.

Definition isStringType (cfg : FilterCfg) : bool := match f_type cfg with Some TString => true | _ => false end.

(** The values a column filter of this type keeps. *)
Definition accepts (cfg : FilterCfg) (v : jsval) : bool :=
  if isStringType cfg then match v with VStr s => negb (trim s === []) | _ => false end
  else match v with VArr xs => (0 <? length xs)%nat | _ => false end.

Definition readFilter (cfg : FilterCfg) (raw : jsval) : option jsval :=
  let value := orNullish (apply_opt (deserialize cfg) raw) (if isStringType cfg then VStr [] else VArr []) in
  if accepts cfg value then Some value else None.

Definition initialColumnFilters (cfgs : list FilterCfg) (s : SearchRecord) : list ColumnFilter :=
  omap (fun cfg => mkFilter (columnId cfg) <$> readFilter cfg (get_prop (searchKey cfg) s)) cfgs.

(** [Math.max(0, x)] *)
Definition max0 (x : number) : number :=
  match x with SpecFloat.S754_nan => num_nan | _ => if num_ltb num_zero x then x else num_zero end.

Definition pageNumOf (cfg : TableCfg) (s : SearchRecord) : number :=
  match get_prop (pageKey cfg) s with VNum n => n | _ => defaultPage cfg end.

Definition pagination (cfg : TableCfg) (s : SearchRecord) (st : Storage) : PaginationState :=
  {| pageIndex := max0 (num_sub (pageNumOf cfg s) (num_of_Z 1));
     pageSize := match get_prop (pageSizeKey cfg) s with
                 | VNum n => n
                 | _ => default (defaultPageSize cfg) (getStoredPageSize st)
                 end |}.

Definition initialGlobalFilter (cfg : TableCfg) (s : SearchRecord) : option jstr :=
  if globalFilterEnabled cfg
  then Some (match get_prop (globalFilterKey cfg) s with VStr t => t | _ => [] end) else None.

(** The first render of a table. *)
Definition mount (cfg : TableCfg) (s : SearchRecord) (st : Storage) : TableState :=
  {| search := s; storage := st; columnFilters := initialColumnFilters (columnFiltersCfg cfg) s;
     globalFilter := initialGlobalFilter cfg s |}.

(** A later render with another search: the effect resets the column filters. *)
Definition arrive (cfg : TableCfg) (s : SearchRecord) (t : TableState) : TableState :=
  {| search := s; storage := storage t; columnFilters := initialColumnFilters (columnFiltersCfg cfg) s;
     globalFilter := globalFilter t |}.

(** ** Handlers *)

Definition onPaginationChange (cfg : TableCfg) (upd : Updater PaginationState) (t : TableState) : TableState * Navigation :=
  let current := pagination cfg (search t) (storage t) in
  let next := runUpdater upd current in
  let nextPage := num_add (pageIndex next) (num_of_Z 1) in
  let st := if num_eqb (pageSize next) (pageSize current) then storage t
            else setStoredPageSize (pageSize next) (storage t) in
  ({| search := search t; storage := st; columnFilters := columnFilters t; globalFilter := globalFilter t |},
   {| nav_search := set_prop (pageSizeKey cfg) (VNum (pageSize next))
                      (set_prop (pageKey cfg) (if num_leb nextPage (defaultPage cfg) then VUndef else VNum nextPage)
                         (search t));
      nav_replace := false |}).

Definition onGlobalFilterChange (cfg : TableCfg) (upd : Updater jstr) (t : TableState)
  : option (TableState * Navigation) :=
  if globalFilterEnabled cfg then
    let next := runUpdater upd (default [] (globalFilter t)) in
    let value := if trimGlobal cfg then trim next else next in
    Some ({| search := search t; storage := storage t; columnFilters := columnFilters t; globalFilter := Some value |},
          {| nav_search := set_prop (globalFilterKey cfg) (if truthy_str value then VStr value else VUndef)
                             (set_prop (pageKey cfg) VUndef (search t));
             nav_replace := false |})
  else None.

(** The value the filters of a change give a configured column, if it is kept. *)
Definition keptValue (cfg : FilterCfg) (next : list ColumnFilter) : option jsval :=
  let found := List.find (fun f => fl_id f === columnId cfg) next in
  let value := if isStringType cfg
               then match fl_value <$> found with Some (VStr s) => VStr s | _ => VStr [] end
               else match fl_value <$> found with Some (VArr xs) => VArr xs | _ => VArr [] end in
  if accepts cfg value then Some value else None.

Definition filterPatch (cfgs : list FilterCfg) (next : list ColumnFilter) : SearchRecord :=
  foldl (fun patch cfg =>
           set_prop (searchKey cfg) (match keptValue cfg next with
                                     | Some value => apply_opt (serialize cfg) value
                                     | None => VUndef
                                     end) patch) [] cfgs.

Definition onColumnFiltersChange (cfg : TableCfg) (upd : Updater (list ColumnFilter)) (t : TableState)
  : TableState * Navigation :=
  let next := runUpdater upd (columnFilters t) in
  ({| search := search t; storage := storage t; columnFilters := next; globalFilter := globalFilter t |},
   {| nav_search := spread (set_prop (pageKey cfg) VUndef (search t)) (filterPatch (columnFiltersCfg cfg) next);
      nav_replace := false |}).

Inductive ResetTo := First | Last.

Definition ensurePageInRange (cfg : TableCfg) (pageCount : number) (resetTo : ResetTo) (t : TableState)
  : option Navigation :=
  let pageNum := pageNumOf cfg (search t) in
  if num_ltb num_zero pageCount && num_ltb pageCount pageNum
  then Some {| nav_search := set_prop (pageKey cfg) (match resetTo with Last => VNum pageCount | First => VUndef end)
                               (search t);
               nav_replace := true |}
  else None.
