(* ===== verification/TableUrlCorrect.v ===== *)
(** * What a table asks of the URL is what it shows

    After a handler has navigated and the router has arrived, the table shows
    the page and the filters that were asked for, and a page that is out of
    range is left by one navigation. *)
From stdpp Require Import prelude list strings.
From S2P Require Import Prelude JsString JsNumber JsInteger JsValue TableUrl.
Open Scope Z_scope.
Open Scope js_scope.

(** ** Interfaces *)

Definition searchKeys (cfg : TableCfg) : list jstr := map searchKey (columnFiltersCfg cfg).
Definition tableKeys (cfg : TableCfg) : list jstr :=
  pageKey cfg :: pageSizeKey cfg :: globalFilterKey cfg :: searchKeys cfg.

(** What the table relies on of the router: the search it arrives at has the
    values a navigation put at the table's keys.  The hook writes only page
    numbers, page sizes, filter texts and lists, and [undefined]; the validators of
    the routes let these through and may replace other values, which the hook
    never asks for. *)
Class Router (cfg : TableCfg) (commit : SearchRecord -> SearchRecord) : Prop :=
  commit_keeps : forall k s, k ∈ tableKeys cfg -> get_prop k (commit s) = get_prop k s.

(** What it relies on of the transformers of a column filter. *)
Class FilterCodec (cfg : FilterCfg) : Prop := {
  codec_round v : accepts cfg v = true -> apply_opt (deserialize cfg) (apply_opt (serialize cfg) v) = v;
  codec_absent : readFilter cfg VUndef = None }.

(** A filter without transformers. *)
#[export] Instance plain_codec id key ty : FilterCodec (mkFilterCfg id key ty None None).
Proof. split; [done|]. by destruct ty as [[]|]. Qed.

(** The keys of a table are different parameters, and its first page is page 1. *)
Record wf_cfg (cfg : TableCfg) : Prop := {
  wf_keys : NoDup (tableKeys cfg);
  wf_first : defaultPage cfg = num_of_Z 1;
  wf_codecs : Forall FilterCodec (columnFiltersCfg cfg) }.

Lemma initialColumnFilters_reads cfgs s (g : FilterCfg -> option jsval) :
  (forall c, c ∈ cfgs -> readFilter c (get_prop (searchKey c) s) = g c) ->
  initialColumnFilters cfgs s = omap (fun c => mkFilter (columnId c) <$> g c) cfgs.
Proof.
  intros H. unfold initialColumnFilters. apply list_omap_ext, Forall_Forall2_diag, Forall_forall.
  intros c Hc. by rewrite H.
Qed.

Section Table.
Context (cfg : TableCfg) (Hcfg : wf_cfg cfg) (commit : SearchRecord -> SearchRecord) `{!Router cfg commit}.

Lemma keys_distinct :
  pageSizeKey cfg <> pageKey cfg /\ globalFilterKey cfg <> pageKey cfg /\ globalFilterKey cfg <> pageSizeKey cfg /\
  pageKey cfg ∉ searchKeys cfg /\ pageSizeKey cfg ∉ searchKeys cfg /\ globalFilterKey cfg ∉ searchKeys cfg /\
  NoDup (searchKeys cfg).
Proof.
  pose proof (wf_keys cfg Hcfg) as H. unfold tableKeys in H. rewrite !NoDup_cons, !not_elem_of_cons in H.
  destruct H as ((H1 & H2 & H3) & (H4 & H5) & H6 & H7). repeat split; congruence || done.
Qed.

Lemma key_in k : k ∈ searchKeys cfg -> k ∈ tableKeys cfg.
Proof. intros H. unfold tableKeys. by do 3 right. Qed.

Lemma page_in : pageKey cfg ∈ tableKeys cfg. Proof. unfold tableKeys. left. Qed.
Lemma size_in : pageSizeKey cfg ∈ tableKeys cfg. Proof. unfold tableKeys. right. left. Qed.
Lemma global_in : globalFilterKey cfg ∈ tableKeys cfg. Proof. unfold tableKeys. right. right. left. Qed.

(** ** Pages *)

Lemma max0_of_Z z : 0 <= z < 2 ^ 53 -> max0 (num_of_Z z) = num_of_Z z.
Proof.
  intros Hz. unfold max0. destruct (Z.eq_dec z 0) as [->|Hne]; [done|].
  assert (E : num_ltb num_zero (num_of_Z z) = true).
  { change num_zero with (num_of_Z 0). rewrite num_ltb_exact by lia. by apply Z.ltb_lt; lia. }
  rewrite E. destruct (num_of_Z_finite z Hne ltac:(lia)) as (s & m & e & -> & _). done.
Qed.

(** The page asked for is read back. *)
Lemma page_read s i :
  0 <= i < 2 ^ 53 - 1 ->
  get_prop (pageKey cfg) s =
    (if num_leb (num_add (num_of_Z i) (num_of_Z 1)) (defaultPage cfg) then VUndef
     else VNum (num_add (num_of_Z i) (num_of_Z 1))) ->
  max0 (num_sub (pageNumOf cfg s) (num_of_Z 1)) = num_of_Z i.
Proof.
  intros Hi. rewrite (wf_first cfg Hcfg), num_add_exact, num_leb_exact by lia. unfold pageNumOf. intros ->.
  rewrite (wf_first cfg Hcfg). destruct (Z.leb_spec (i + 1) 1); rewrite num_sub_exact, max0_of_Z by lia; f_equal; lia.
Qed.

(** ** Column filters *)

Lemma readFilter_kept c next :
  FilterCodec c ->
  readFilter c (match keptValue c next with Some v => apply_opt (serialize c) v | None => VUndef end) =
  keptValue c next.
Proof.
  intros Hc. destruct (keptValue c next) as [v|] eqn:E; [|apply codec_absent].
  assert (Hv : accepts c v = true) by (unfold keptValue in E; case_match; naive_solver).
  unfold readFilter. rewrite codec_round by done.
  assert (Hn : orNullish v (if isStringType c then VStr [] else VArr []) = v)
    by (unfold accepts in Hv; destruct v; try done; by destruct (isStringType c)).
  by rewrite Hn, Hv.
Qed.

(** The patch has the value of each configured filter. *)
Lemma filterPatch_keys cfgs next : forall k, k ∈ map fst (filterPatch cfgs next) <-> k ∈ map searchKey cfgs.
Proof.
  unfold filterPatch. intros k.
  assert (H : forall acc, k ∈ map fst (foldl (fun patch c => set_prop (searchKey c) (match keptValue c next with
      | Some value => apply_opt (serialize c) value | None => VUndef end) patch) acc cfgs) <->
      k ∈ map fst acc \/ k ∈ map searchKey cfgs).
  { induction cfgs as [|c cfgs IH]; intros acc; simpl; [rewrite elem_of_nil; tauto|].
    rewrite IH, set_prop_elem, elem_of_cons. tauto. }
  rewrite H. simpl. rewrite elem_of_nil. tauto.
Qed.

Lemma filterPatch_get cfgs next c :
  NoDup (map searchKey cfgs) -> c ∈ cfgs ->
  get_prop (searchKey c) (filterPatch cfgs next) =
  match keptValue c next with Some v => apply_opt (serialize c) v | None => VUndef end.
Proof.
  unfold filterPatch. set (put := fun patch c => set_prop (searchKey c) _ patch).
  intros Hnd Hc. assert (Hk : forall l acc k, k ∉ map searchKey l -> get_prop k (foldl put acc l) = get_prop k acc).
  { induction l as [|d l IH]; intros acc k Hk; [done|]. simpl in *. apply not_elem_of_cons in Hk as [H1 H2].
    rewrite IH by done. unfold put. by rewrite get_set_prop, bool_decide_false. }
  revert Hnd Hc. generalize (@nil (jstr * jsval)).
  induction cfgs as [|d cfgs IH]; intros acc Hnd Hc; [by apply elem_of_nil in Hc|].
  apply NoDup_cons in Hnd as [Hd Hnd]. apply elem_of_cons in Hc as [->|Hc]; [|by apply IH].
  simpl. rewrite Hk by done. unfold put. by rewrite get_set_prop, bool_decide_true.
Qed.
End Table.

(** ** Handlers *)

(** After a change of page or page size has been navigated to, the table
    shows exactly that page and size; its column filters are those the URL had
    and its global filter is unchanged; a page size that is new is remembered. *)
Theorem pagination_round_trip cfg commit upd t i :
  wf_cfg cfg -> Router cfg commit ->
  let next := runUpdater upd (pagination cfg (search t) (storage t)) in
  let t1 := (onPaginationChange cfg upd t).1 in
  let t2 := arrive cfg (commit (nav_search (onPaginationChange cfg upd t).2)) t1 in
  pageIndex next = num_of_Z i -> 0 <= i < 2 ^ 53 - 1 ->
  pagination cfg (search t2) (storage t2) = next /\
  columnFilters t2 = initialColumnFilters (columnFiltersCfg cfg) (search t) /\
  globalFilter t2 = globalFilter t /\
  (st_writable (storage t) = true -> num_eqb (pageSize next) (pageSize (pagination cfg (search t) (storage t))) = false ->
   st_item (storage t2) = Some (num_to_str (pageSize next))).
Proof.
  intros Hcfg HR next t1 t2 Hn Hi. destruct (keys_distinct cfg Hcfg) as (K1 & K2 & K3 & K4 & K5 & K6 & K7).
  set (nav := nav_search (onPaginationChange cfg upd t).2) in t2.
  assert (Hget : forall k, k ∈ tableKeys cfg -> k <> pageKey cfg -> k <> pageSizeKey cfg ->
            get_prop k (commit nav) = get_prop k (search t)).
  { intros k Hk H1 H2. rewrite commit_keeps by done. unfold nav. simpl. by rewrite !get_set_prop, !bool_decide_false. }
  split; [|split; [|split]].
  - unfold pagination, t2. simpl search. destruct next as [ix sz] eqn:En. simpl in Hn. subst ix. f_equal.
    + apply page_read; [done|done|]. rewrite commit_keeps by apply page_in. unfold nav. simpl.
      fold next. rewrite En. simpl. by rewrite get_set_prop, bool_decide_false, get_set_prop, bool_decide_true.
    + rewrite commit_keeps by apply size_in. unfold nav. simpl. fold next. rewrite En.
      by rewrite get_set_prop, bool_decide_true.
  - unfold t2. simpl. apply initialColumnFilters_reads. intros c Hc.
    assert (Hs : searchKey c ∈ searchKeys cfg) by (by apply list_elem_of_fmap_2).
    rewrite Hget; [done|by apply key_in|congruence..].
  - done.
  - intros Hw Hs. unfold t2, t1, arrive, onPaginationChange. cbv zeta. cbn [fst storage]. fold next. rewrite Hs. unfold setStoredPageSize. by rewrite Hw.
Qed.

(** The filters of a change that the URL can keep: one for each configured
    column, in the configured order. *)
Definition keptFilters (cfgs : list FilterCfg) (next : list ColumnFilter) : list ColumnFilter :=
  omap (fun c => mkFilter (columnId c) <$> keptValue c next) cfgs.

(** After a change of column filters has been navigated to, the table shows
    the filters of the change that its configuration keeps, on the first page,
    with the page size and the global filter it had. *)
Theorem filters_round_trip cfg commit upd t :
  wf_cfg cfg -> Router cfg commit ->
  let t1 := (onColumnFiltersChange cfg upd t).1 in
  let t2 := arrive cfg (commit (nav_search (onColumnFiltersChange cfg upd t).2)) t1 in
  columnFilters t2 = keptFilters (columnFiltersCfg cfg) (runUpdater upd (columnFilters t)) /\
  pagination cfg (search t2) (storage t2) =
    {| pageIndex := num_zero; pageSize := pageSize (pagination cfg (search t) (storage t)) |} /\
  globalFilter t2 = globalFilter t /\
  get_prop (globalFilterKey cfg) (search t2) = get_prop (globalFilterKey cfg) (search t).
Proof.
  intros Hcfg HR t1 t2. destruct (keys_distinct cfg Hcfg) as (K1 & K2 & K3 & K4 & K5 & K6 & K7).
  set (next := runUpdater upd (columnFilters t)).
  set (nav := nav_search (onColumnFiltersChange cfg upd t).2) in t2.
  assert (Hother : forall k, k ∈ tableKeys cfg -> k ∉ searchKeys cfg -> k <> pageKey cfg ->
            get_prop k (commit nav) = get_prop k (search t)).
  { intros k Hk H1 H2. rewrite commit_keeps by done. unfold nav. simpl.
    rewrite get_prop_spread, bool_decide_false by (by rewrite filterPatch_keys).
    by rewrite get_set_prop, bool_decide_false. }
  split; [|split; [|split]].
  - unfold t2, keptFilters. simpl. apply initialColumnFilters_reads. intros c Hc.
    assert (Hs : searchKey c ∈ searchKeys cfg) by (by apply list_elem_of_fmap_2).
    rewrite commit_keeps by (by apply key_in). unfold nav. simpl. fold next.
    rewrite get_prop_spread, bool_decide_true by (by rewrite filterPatch_keys).
    rewrite filterPatch_get by done. apply readFilter_kept.
    pose proof (wf_codecs cfg Hcfg) as H. rewrite Forall_forall in H. by apply H.
  - unfold t2, pagination. simpl. f_equal.
    + unfold pageNumOf. rewrite commit_keeps by apply page_in. unfold nav. simpl.
      rewrite get_prop_spread, bool_decide_false by (by rewrite filterPatch_keys).
      rewrite get_set_prop, bool_decide_true, (wf_first cfg Hcfg) by done. done.
    + rewrite Hother; [done|apply size_in|done..].
  - done.
  - unfold t2. simpl. apply Hother; [apply global_in|done..].
Qed.

(** After a change of the global filter the table shows it on the first page, and
    a table mounted later from the same URL shows it again. *)
Theorem global_filter_round_trip cfg commit upd t t1 nav :
  wf_cfg cfg -> Router cfg commit ->
  onGlobalFilterChange cfg upd t = Some (t1, nav) ->
  let t2 := arrive cfg (commit (nav_search nav)) t1 in
  globalFilter t2 = initialGlobalFilter cfg (search t2) /\
  pageIndex (pagination cfg (search t2) (storage t2)) = num_zero.
Proof.
  intros Hcfg HR. destruct (keys_distinct cfg Hcfg) as (K1 & K2 & _).
  unfold onGlobalFilterChange. destruct (globalFilterEnabled cfg) eqn:En; [|done]. cbv zeta. intros [= <- <-].
  set (value := if trimGlobal cfg then _ else _). simpl. unfold initialGlobalFilter, pageNumOf.
  rewrite En, commit_keeps, get_set_prop, bool_decide_true by (done || apply global_in). split.
  - destruct (truthy_str value) eqn:Et; [done|]. apply truthy_str_false in Et. by rewrite Et.
  - rewrite commit_keeps, get_set_prop, bool_decide_false by (done || apply page_in || congruence).
    rewrite get_set_prop, bool_decide_true, (wf_first cfg Hcfg) by done. done.
Qed.


(** ** The channel table *)

(** The configuration of features/channels/components/channels-table.tsx. *)
Definition channelsTable : TableCfg := resolveCfg {|
  paginationCfg := Some (mkPaginationCfg None None (Some (num_of_Z 1)) (Some (num_of_Z 20)));
  globalFilterCfg := Some (mkGlobalCfg (Some true) (Some (js "filter")) None);
  p_columnFilters := Some [mkFilterCfg (js "status") (js "status") (Some TArray) None None;
                           mkFilterCfg (js "type") (js "type") (Some TArray) None None;
                           mkFilterCfg (js "group") (js "group") (Some TArray) None None;
                           mkFilterCfg (js "model") (js "model") (Some TString) None None] |}.

(** A router that keeps the parameters of the route and drops all others. *)
Definition routeOf (cfg : TableCfg) (s : SearchRecord) : SearchRecord :=
  map (fun k => (k, get_prop k s)) (tableKeys cfg).

#[export] Instance routeOf_router cfg : Router cfg (routeOf cfg).
Proof.
  intros k s. unfold routeOf. induction (tableKeys cfg) as [|k' ks IH]; [by intros H%elem_of_nil|].
  intros H. simpl. case_bool_decide; [by subst|]. apply elem_of_cons in H as [H|H]; [done|]. by apply IH.
Qed.

Lemma channelsTable_wf : wf_cfg channelsTable.
Proof.
  split.
  - apply (bool_decide_unpack _). vm_compute. exact I.
  - reflexivity.
  - repeat (apply Forall_cons; split; [apply plain_codec|]). constructor.
Defined.

Definition sampleTable : TableState :=
  mount channelsTable [(js "page", VNum (num_of_Z 7)); (js "status", VArr [VStr (js "1")])]
    (mkStorage (Some (js "50")) true true).

Example pagination_round_trip_witness :
  let upd := Value (mkPage (num_of_Z 3) (num_of_Z 10)) in
  let t1 := (onPaginationChange channelsTable upd sampleTable).1 in
  let nav := (onPaginationChange channelsTable upd sampleTable).2 in
  pagination channelsTable (routeOf channelsTable (nav_search nav)) (storage t1) = mkPage (num_of_Z 3) (num_of_Z 10).
Proof.
  apply (pagination_round_trip channelsTable (routeOf channelsTable)
           (Value (mkPage (num_of_Z 3) (num_of_Z 10))) sampleTable 3 channelsTable_wf (routeOf_router _)).
  - reflexivity.
  - split; reflexivity || discriminate.
Defined.

Example filters_round_trip_witness :
  let next := [mkFilter (js "model") (VStr (js "gpt")); mkFilter (js "name") (VStr (js "x"));
               mkFilter (js "status") (VArr [VStr (js "2")]); mkFilter (js "type") (VArr [])] in
  let nav := (onColumnFiltersChange channelsTable (Value next) sampleTable).2 in
  initialColumnFilters (columnFiltersCfg channelsTable) (routeOf channelsTable (nav_search nav)) =
  [mkFilter (js "status") (VArr [VStr (js "2")]); mkFilter (js "model") (VStr (js "gpt"))].
Proof.
  pose proof (filters_round_trip channelsTable (routeOf channelsTable)
    (Value [mkFilter (js "model") (VStr (js "gpt")); mkFilter (js "name") (VStr (js "x"));
            mkFilter (js "status") (VArr [VStr (js "2")]); mkFilter (js "type") (VArr [])])
    sampleTable channelsTable_wf (routeOf_router _)) as [H _].
  etransitivity; [exact H|]. vm_compute. reflexivity.
Defined.


(** ** What the code does outside these conditions *)

(** A filter without a type is declared as a string filter and handled as an
    array filter: its text never reaches the URL. *)
Example untyped_filter_dropped :
  keptValue (mkFilterCfg (js "name") (js "name") None None None) [mkFilter (js "name") (VStr (js "x"))] = None /\
  readFilter (mkFilterCfg (js "name") (js "name") None None None) (VStr (js "x")) = None.
Proof. split; reflexivity. Qed.

(** With a default page other than 1, the pages before it cannot be reached. *)
Example default_page_two :
  let cfg := resolveCfg {| paginationCfg := Some (mkPaginationCfg None None (Some (num_of_Z 2)) None);
                           globalFilterCfg := None; p_columnFilters := None |} in
  let t := mount cfg [] (mkStorage None true true) in
  let nav := (onPaginationChange cfg (Value (mkPage (num_of_Z 0) (num_of_Z 20))) t).2 in
  num_to_Z (pageIndex (pagination cfg (nav_search nav) (storage t))) = Some 1.
Proof. vm_compute. reflexivity. Qed.

(** The browser's back button changes the URL but not the global filter that the
    table shows. *)
Example back_keeps_global_filter :
  let t := mount channelsTable [(js "filter", VStr (js "new"))] (mkStorage None true true) in
  globalFilter (arrive channelsTable [(js "filter", VStr (js "old"))] t) = Some (js "new").
Proof. vm_compute. reflexivity. Qed.
