(* ===== verification/Wallet.v ===== *)
(** * Wallet top-ups (features/wallet/hooks/use-topup-info.ts, lib/payment.ts, lib/amount-selection.ts)

    The server describes the payment gateways as JSON that is read defensively;
    the wallet offers the methods whose gateway is enabled and the amounts the
    operator configured or multiples of the minimum.  The amount to pay is kept
    by a reducer: a preset, or a custom amount typed as text. *)
From stdpp Require Import prelude list strings.
From S2P Require Import Prelude JsString JsNumber JsInteger JsValue.
Open Scope Z_scope.
Open Scope js_scope.

(** ** Data (features/wallet/types.ts) *)

Record PaymentMethod := mkMethod {
  pm_name : jstr; pm_type : jstr; pm_color : option jstr; pm_icon : option jstr; pm_min_topup : option number }.
Record WaffoPayMethod := mkWaffo {
  wf_name : jstr; wf_icon : option jstr; wf_payMethodType : option jstr; wf_payMethodName : option jstr }.
Inductive CreemCurrency := USD | EUR.
Record CreemProduct := mkCreem {
  cr_name : jstr; cr_productId : jstr; cr_price : number; cr_quota : number; cr_currency : CreemCurrency }.
Record PresetAmount := mkPreset { pr_value : number; pr_discount : option number }.

(** The top-up information: five fields are JSON in the server's answer and
    lists once they are read. *)
Record TopupInfo (Methods Amounts Discounts Creems Waffos : Type) := mkTopup {
  enable_online_topup : bool; enable_stripe_topup : bool; pay_methods : Methods; min_topup : number;
  stripe_min_topup : number; amount_options : Amounts; discount : Discounts; topup_link : option jstr;
  enable_creem_topup : option bool; creem_products : Creems; enable_waffo_topup : option bool;
  waffo_pay_methods : Waffos; waffo_min_topup : option number; enable_waffo_pancake_topup : option bool;
  waffo_pancake_min_topup : option number; enable_redemption : option bool;
  payment_compliance_confirmed : option bool; payment_compliance_terms_version : option jstr }.
Arguments mkTopup {_ _ _ _ _}.
Arguments enable_online_topup {_ _ _ _ _}. Arguments enable_stripe_topup {_ _ _ _ _}.
Arguments pay_methods {_ _ _ _ _}. Arguments min_topup {_ _ _ _ _}. Arguments stripe_min_topup {_ _ _ _ _}.
Arguments amount_options {_ _ _ _ _}. Arguments discount {_ _ _ _ _}. Arguments topup_link {_ _ _ _ _}.
Arguments enable_creem_topup {_ _ _ _ _}. Arguments creem_products {_ _ _ _ _}.
Arguments enable_waffo_topup {_ _ _ _ _}. Arguments waffo_pay_methods {_ _ _ _ _}.
Arguments waffo_min_topup {_ _ _ _ _}. Arguments enable_waffo_pancake_topup {_ _ _ _ _}.
Arguments waffo_pancake_min_topup {_ _ _ _ _}. Arguments enable_redemption {_ _ _ _ _}.
Arguments payment_compliance_confirmed {_ _ _ _ _}. Arguments payment_compliance_terms_version {_ _ _ _ _}.

Notation TopupAnswer := (TopupInfo jsval jsval jsval jsval jsval).
Notation Topup := (TopupInfo (list PaymentMethod) (list number) (list (jstr * number)) (list CreemProduct)
                     (list WaffoPayMethod)).

(** ** Reading the server's answer (use-topup-info.ts) *)

Definition parseJsonArray (data : jsval) : list jsval :=
  match data with
  | VArr xs => xs
  | VStr s => match json_parse s with Some (VArr xs) => xs | _ => [] end
  | _ => []
  end.

(** The items that are objects; an array is one, without the named properties. *)
Definition objectItems (data : jsval) : list (list (jstr * jsval)) :=
  omap (fun item => match item with VObj fs => Some fs | VArr _ => Some [] | _ => None end) (parseJsonArray data).

Definition stringOr (d : jstr) (v : jsval) : jstr := match v with VStr s => s | _ => d end.
Definition optString (v : jsval) : option jstr := match v with VStr s => Some s | _ => None end.
Definition numberOrZero (v : jsval) : number := let n := js_Number v in if num_truthy n then n else num_zero.

Definition readMethod (stripeMinTopup : number) (item : list (jstr * jsval)) : PaymentMethod :=
  let rawMinTopup := js_Number (get_prop (js "min_topup") item) in
  let normalizedMinTopup := if num_is_finite rawMinTopup then rawMinTopup else num_zero in
  let type := stringOr [] (get_prop (js "type") item) in
  {| pm_name := stringOr [] (get_prop (js "name") item); pm_type := type;
     pm_color := optString (get_prop (js "color") item); pm_icon := optString (get_prop (js "icon") item);
     pm_min_topup := Some (if (type === js "stripe") && num_leb normalizedMinTopup num_zero
                           then stripeMinTopup else normalizedMinTopup) |}.

Definition parsePaymentMethods (data : jsval) (stripeMinTopup : number) : list PaymentMethod :=
  List.filter (fun m => truthy_str (pm_name m) && truthy_str (pm_type m) && negb (pm_type m === js "waffo"))
    (map (readMethod stripeMinTopup) (objectItems data)).

Definition parseWaffoPayMethods (data : jsval) : list WaffoPayMethod :=
  List.filter (fun m => truthy_str (wf_name m))
    (map (fun item => {| wf_name := stringOr [] (get_prop (js "name") item);
                         wf_icon := optString (get_prop (js "icon") item);
                         wf_payMethodType := optString (get_prop (js "payMethodType") item);
                         wf_payMethodName := optString (get_prop (js "payMethodName") item) |})
       (objectItems data)).

Definition parseCreemProducts (data : jsval) : list CreemProduct :=
  List.filter (fun p => truthy_str (cr_name p) && truthy_str (cr_productId p))
    (map (fun item => {| cr_name := stringOr [] (get_prop (js "name") item);
                         cr_productId := stringOr [] (get_prop (js "productId") item);
                         cr_price := numberOrZero (get_prop (js "price") item);
                         cr_quota := numberOrZero (get_prop (js "quota") item);
                         cr_currency := match get_prop (js "currency") item with
                                        | VStr s => if s === js "EUR" then EUR else USD
                                        | _ => USD
                                        end |})
       (objectItems data)).

Definition parseAmountOptions (data : jsval) : list number :=
  List.filter (fun n => num_is_finite n && num_ltb num_zero n) (map js_Number (parseJsonArray data)).

(** [result[k] = v] on a map from property keys to numbers. *)
Fixpoint setNumber (k : jstr) (v : number) (m : list (jstr * number)) : list (jstr * number) :=
  match m with
  | [] => [(k, v)]
  | (k', v') :: m' => if k === k' then (k', v) :: m' else (k', v') :: setNumber k v m'
  end.

Fixpoint getNumber (k : jstr) (m : list (jstr * number)) : option number :=
  match m with [] => None | (k', v) :: m' => if k === k' then Some v else getNumber k m' end.

Definition parseDiscountMap (data : jsval) : list (jstr * number) :=
  if negb (truthy data) then []
  else let parsedData := match data with VStr s => json_parse s | _ => Some data end in
       match parsedData with
       | Some (VObj fs) =>
           foldl (fun result e =>
                    let numericKey := num_of_str e.1 in
                    let numericValue := js_Number e.2 in
                    if num_is_finite numericKey && num_is_finite numericValue
                    then setNumber (num_to_str numericKey) numericValue result else result) [] (entries fs)
       | _ => []
       end.

Definition processTopupInfo (data : TopupAnswer) : Topup := {|
  enable_online_topup := enable_online_topup data; enable_stripe_topup := enable_stripe_topup data;
  pay_methods := parsePaymentMethods (pay_methods data) (stripe_min_topup data);
  min_topup := min_topup data; stripe_min_topup := stripe_min_topup data;
  amount_options := parseAmountOptions (amount_options data); discount := parseDiscountMap (discount data);
  topup_link := topup_link data; enable_creem_topup := enable_creem_topup data;
  creem_products := parseCreemProducts (creem_products data); enable_waffo_topup := enable_waffo_topup data;
  waffo_pay_methods := parseWaffoPayMethods (waffo_pay_methods data); waffo_min_topup := waffo_min_topup data;
  enable_waffo_pancake_topup := enable_waffo_pancake_topup data;
  waffo_pancake_min_topup := waffo_pancake_min_topup data; enable_redemption := enable_redemption data;
  payment_compliance_confirmed := payment_compliance_confirmed data;
  payment_compliance_terms_version := payment_compliance_terms_version data |}.

(** ** Methods and minimum (lib/payment.ts) *)

Definition ALIPAY : jstr := js "alipay".
Definition STRIPE : jstr := js "stripe".
Definition WAFFO : jstr := js "waffo".
Definition WAFFO_PANCAKE : jstr := js "waffo_pancake".
Definition DEFAULT_MIN_TOPUP : number := num_of_Z 1.
Definition DEFAULT_PRESET_MULTIPLIERS : list Z := [1; 5; 10; 30; 50; 100; 300; 500].

Definition isStripePayment (paymentType : jstr) : bool := paymentType === STRIPE.
Definition isWaffoPancakePayment (paymentType : jstr) : bool := paymentType === WAFFO_PANCAKE.

(** A flag that may be missing. *)
Definition isOn (b : option bool) : bool := default false b.

Definition nonCompliant (t : Topup) : bool := bool_decide (payment_compliance_confirmed t = Some false).

(** The switch over the method's type. *)
Definition gatewayEnabled (t : Topup) (type : jstr) : bool :=
  if type === ALIPAY then true
  else if type === STRIPE then enable_stripe_topup t
  else if type === WAFFO_PANCAKE then isOn (enable_waffo_pancake_topup t)
  else if type === WAFFO then false
  else enable_online_topup t.

Definition getAvailablePaymentMethods (topupInfo : option Topup) : list PaymentMethod :=
  match topupInfo with
  | None => []
  | Some t => if nonCompliant t then [] else List.filter (fun m => gatewayEnabled t (pm_type m)) (pay_methods t)
  end.

Definition getDefaultPaymentType (topupInfo : option Topup) : jstr :=
  match topupInfo with
  | None => []
  | Some t => match getAvailablePaymentMethods topupInfo with
              | m :: _ => pm_type m
              | [] => if isOn (enable_waffo_topup t) then WAFFO
                      else if isOn (enable_waffo_pancake_topup t) then WAFFO_PANCAKE else []
              end
  end.

(** [x || d] for a number that may be missing. *)
Definition numberOr (x : option number) (d : number) : number :=
  match x with Some n => if num_truthy n then n else d | None => d end.

Definition getMinTopupAmount (topupInfo : option Topup) : number :=
  match topupInfo with
  | None => DEFAULT_MIN_TOPUP
  | Some t =>
      if nonCompliant t then DEFAULT_MIN_TOPUP
      else let hasDirectAlipay := existsb (fun m => pm_type m === ALIPAY) (getAvailablePaymentMethods topupInfo) in
           if enable_online_topup t || hasDirectAlipay then min_topup t
           else if enable_stripe_topup t then stripe_min_topup t
           else if isOn (enable_waffo_topup t) then numberOr (waffo_min_topup t) DEFAULT_MIN_TOPUP
           else if isOn (enable_waffo_pancake_topup t) then numberOr (waffo_pancake_min_topup t) DEFAULT_MIN_TOPUP
           else DEFAULT_MIN_TOPUP
  end.

Definition generatePresetAmounts (minAmount : number) : list PresetAmount :=
  map (fun multiplier => mkPreset (num_mul minAmount (num_of_Z multiplier)) None) DEFAULT_PRESET_MULTIPLIERS.

Definition mergePresetAmounts (amountOptions : list number) (discounts : list (jstr * number)) : list PresetAmount :=
  map (fun amount => mkPreset amount (Some (numberOr (getNumber (num_to_str amount) discounts) (num_of_Z 1)))) amountOptions.

(** What a successful fetch stores: the information and the amounts to choose from. *)
Definition fetchTopupInfo (data : TopupAnswer) : Topup * list PresetAmount :=
  let processedData := processTopupInfo data in
  (processedData,
   if (0 <? length (amount_options processedData))%nat
   then mergePresetAmounts (amount_options processedData) (discount processedData)
   else generatePresetAmounts (getMinTopupAmount (Some processedData))).

(** The guard of a payment method's button (wallet/index.tsx). *)
Definition num_max (a b : number) : number := if num_ltb a b then b else a.

Definition paymentAllowed (topupInfo : option Topup) (method : PaymentMethod) (topupAmount : number) : bool :=
  let minTopup := num_max (getMinTopupAmount topupInfo) (numberOr (pm_min_topup method) num_zero) in
  negb (num_ltb topupAmount minTopup).

(** ** The amount (lib/amount-selection.ts) *)

Definition CUSTOM_AMOUNT_MIN : Z := 1.
Definition CUSTOM_AMOUNT_MAX : Z := 100000.

Inductive RechargeAmountSelection := NoSelection | Preset (amount : number) | Custom.

Record RechargeAmountState := mkAmount {
  selection : RechargeAmountSelection; topupAmount : number; customAmount : jstr }.

Inductive RechargeAmountAction :=
| Initialize (amount : number)
| SelectPreset (amount : number)
| SelectCustom
| EditCustom (value : jstr).

Definition INITIAL_RECHARGE_AMOUNT_STATE : RechargeAmountState := mkAmount NoSelection num_zero [].

(** [Number.isSafeInteger] *)
Definition isSafeInteger (n : number) : bool :=
  match num_to_Z n with Some z => Z.abs z <? 2 ^ 53 | None => false end.

Definition parseCustomAmount (value : jstr) : number :=
  if negb (all_digits value) then num_zero
  else let amount := num_of_str value in
       if isSafeInteger amount && num_leb (num_of_Z CUSTOM_AMOUNT_MIN) amount && num_leb amount (num_of_Z CUSTOM_AMOUNT_MAX)
       then amount else num_zero.

Definition rechargeAmountReducer (state : RechargeAmountState) (action : RechargeAmountAction) : RechargeAmountState :=
  match action with
  | Initialize amount =>
      match selection state with
      | NoSelection => mkAmount (Preset amount) amount (customAmount state)
      | _ => state
      end
  | SelectPreset amount => mkAmount (Preset amount) amount (customAmount state)
  | SelectCustom => mkAmount Custom (parseCustomAmount (customAmount state)) (customAmount state)
  | EditCustom value => mkAmount Custom (parseCustomAmount value) value
  end.
