(* ===== verification/WalletCorrect.v ===== *)
(** * The wallet offers and charges what it should

    The amount to pay always agrees with the selection, a custom amount is an
    integer from 1 to 100000, and only methods of enabled gateways are offered. *)
From Stdlib Require Import NArith Ascii.
From stdpp Require Import prelude list strings.
From S2P Require Import Prelude JsString JsNumber JsInteger JsValue Wallet.
Open Scope Z_scope.
Open Scope js_scope.

(** ** Reading digits as a number *)

Lemma span_all p s : forallb p s = true -> span p s = (s, []).
Proof.
  induction s as [|c s IH]; simpl; [done|]. intros [Hc Hs]%andb_true_iff. by rewrite Hc, IH.
Qed.

Lemma digit_facts c : is_digit c = true ->
  (c =? 45)%N = false /\ (c =? 43)%N = false /\ is_ws c = false /\ c <> 73%N /\
  ((c =? 120) || (c =? 88) = false)%N /\ ((c =? 111) || (c =? 79) = false)%N /\ ((c =? 98) || (c =? 66) = false)%N.
Proof.
  intros [H1 H2]%is_digit_spec.
  assert (H : (c = 48 \/ c = 49 \/ c = 50 \/ c = 51 \/ c = 52 \/ c = 53 \/ c = 54 \/ c = 55 \/ c = 56 \/ c = 57)%N) by lia.
  repeat destruct H as [->|H]; [..|subst c]; repeat split; discriminate.
Qed.

Lemma num_of_str_digits s : all_digits s = true -> num_of_str s = num_of_dec false (parse_dec s) 0.
Proof.
  intros Hs. assert (Ht : trim s = s).
  { apply trim_trimmed_iff, trimmed_digits. eapply Forall_impl; [by apply all_digits_Forall|].
    intros c Hc. by apply digit_facts in Hc as (_ & _ & H & _). }
  unfold num_of_str. rewrite Ht. destruct s as [|c r]; [done|].
  assert (Hd : forallb is_digit (c :: r) = true) by exact Hs.
  pose proof Hd as Hc. simpl in Hc. apply andb_true_iff in Hc as [Hc Hr].
  destruct (digit_facts c Hc) as (E1 & E2 & _ & E4 & _).
  change (u "-") with 45%N. change (u "+") with 43%N. rewrite E1, E2.
  rewrite bool_decide_false by (intros [= ->]; done).
  match goal with |- match ?x with _ => _ end = _ => assert (Hradix : x = None) end.
  { destruct r as [|x ds]; [done|]. simpl in Hr. apply andb_true_iff in Hr as [Hx _].
    destruct (digit_facts x Hx) as (_ & _ & _ & _ & X1 & X2 & X3).
    change (u "x") with 120%N. change (u "X") with 88%N. change (u "o") with 111%N. change (u "O") with 79%N.
    change (u "b") with 98%N. change (u "B") with 66%N. rewrite X1, X2, X3. by destruct (_ && _). }
  rewrite Hradix. unfold scan_udec. rewrite span_all by done. cbv beta iota. rewrite app_nil_r. done.
Qed.

Lemma parse_dec_nonneg s : all_digits s = true -> 0 <= parse_dec s.
Proof.
  intros Hs%all_digits_Forall. unfold parse_dec. assert (H : 0 <= 0) by lia. revert H. generalize 0 at 2 4.
  induction Hs as [|c s Hc Hs IH]; intros acc Hacc; simpl; [done|]. apply IH. unfold dec_step.
  apply is_digit_spec in Hc. lia.
Qed.

Lemma print_dec_fuel_length f z acc : (length (print_dec_fuel f z acc) <= f + length acc)%nat.
Proof.
  revert z acc. induction f as [|f IH]; intros z acc; simpl; [lia|]. destruct (z <? 10); simpl; [lia|].
  specialize (IH (z / 10) ((48 + Z.to_N (z mod 10))%N :: acc)). simpl in IH. lia.
Qed.

(** The number of a decimal integer is the nearest one, or infinity. *)
Lemma num_of_dec_integer m :
  0 <= m -> num_of_dec false m 0 = num_of_Z m \/ (num_of_dec false m 0 = num_inf /\ 2 ^ 53 <= m).
Proof.
  intros Hm. destruct m as [|p|p]; [by left| |lia]. unfold num_of_dec. cbv zeta.
  destruct (310 <? 0 + ndigits (Zpos p)) eqn:E1.
  - right. split; [done|]. apply Z.ltb_lt in E1. unfold ndigits, print_nat_dec in E1.
    pose proof (print_dec_fuel_length (S (Z.to_nat (Z.log2 (Zpos p)))) (Zpos p) []) as H. cbn [length] in H.
    pose proof (Z.log2_nonneg (Zpos p)). apply Z.log2_le_pow2; lia.
  - left. replace (0 + ndigits (Zpos p) <? -330) with false by (symmetry; apply Z.ltb_ge; unfold ndigits; lia).
    simpl (0 <=? 0). cbv iota. by rewrite Z.mul_1_r.
Qed.

(** ** Amounts *)

(** A custom amount is the typed number when it consists of digits and lies from
    1 to 100000, and 0 for every other text. *)
Theorem parseCustomAmount_exact value :
  parseCustomAmount value =
  num_of_Z (if all_digits value && (1 <=? parse_dec value) && (parse_dec value <=? 100000) then parse_dec value else 0).
Proof.
  unfold parseCustomAmount. destruct (all_digits value) eqn:Hd; [|done]. cbn [negb andb].
  rewrite num_of_str_digits by done. pose proof (parse_dec_nonneg value Hd) as Hn.
  destruct (num_of_dec_integer _ Hn) as [->|[-> Hl]].
  - destruct (Z.lt_ge_cases (parse_dec value) (2 ^ 53)) as [Hs|Hl].
    + unfold isSafeInteger. rewrite num_to_of_Z, !num_leb_exact by (unfold CUSTOM_AMOUNT_MIN, CUSTOM_AMOUNT_MAX; lia).
      rewrite (proj2 (Z.ltb_lt _ _)) by lia. cbn [andb]. by destruct (_ && _).
    + rewrite (num_leb_large (parse_dec value) CUSTOM_AMOUNT_MAX), andb_false_r by (unfold CUSTOM_AMOUNT_MAX; lia).
      replace (parse_dec value <=? 100000) with false by (symmetry; apply Z.leb_gt; lia). by rewrite andb_false_r.
  - replace (parse_dec value <=? 100000) with false by (symmetry; apply Z.leb_gt; lia).
    by rewrite !andb_false_r.
Qed.

(** The amount a custom text stands for: the integer written in it, if it
    consists of digits and lies from 1 to 100000, and 0 otherwise. *)
Definition customValue (value : jstr) : Z :=
  if all_digits value && (1 <=? parse_dec value) && (parse_dec value <=? 100000) then parse_dec value else 0.

(** What a sequence of actions asks for: the last text typed, and the last
    choice made, or else the first amount it was initialised with. *)
Definition typedBy (a : RechargeAmountAction) : option jstr := match a with EditCustom value => Some value | _ => None end.

Definition chosenBy (a : RechargeAmountAction) : option RechargeAmountSelection :=
  match a with SelectPreset amount => Some (Preset amount) | SelectCustom | EditCustom _ => Some Custom | Initialize _ => None end.

Definition initialBy (a : RechargeAmountAction) : option number := match a with Initialize amount => Some amount | _ => None end.

Definition lastTyped (acts : list RechargeAmountAction) : jstr := default [] (last (omap typedBy acts)).

Definition lastChosen (acts : list RechargeAmountAction) : RechargeAmountSelection :=
  match last (omap chosenBy acts), head (omap initialBy acts) with
  | Some choice, _ => choice
  | None, Some amount => Preset amount
  | None, None => NoSelection
  end.

Definition askedAmount (acts : list RechargeAmountAction) : number :=
  match lastChosen acts with
  | NoSelection => num_zero
  | Preset amount => amount
  | Custom => num_of_Z (customValue (lastTyped acts))
  end.

Definition actedState (acts : list RechargeAmountAction) : RechargeAmountState :=
  foldl rechargeAmountReducer INITIAL_RECHARGE_AMOUNT_STATE acts.

Lemma lastTyped_snoc acts a :
  lastTyped (acts ++ [a]) = match typedBy a with Some value => value | None => lastTyped acts end.
Proof.
  unfold lastTyped. rewrite omap_app. cbn [omap list_omap]. destruct (typedBy a); [by rewrite last_snoc|by rewrite app_nil_r].
Qed.

(** An initialisation counts only when nothing is selected yet. *)
Lemma lastChosen_snoc acts a :
  lastChosen (acts ++ [a]) =
  match chosenBy a, lastChosen acts, initialBy a with
  | Some choice, _, _ => choice
  | None, NoSelection, Some amount => Preset amount
  | None, choice, _ => choice
  end.
Proof.
  unfold lastChosen. rewrite !omap_app. cbn [omap list_omap].
  destruct a; cbn [chosenBy initialBy]; rewrite ?last_snoc, ?app_nil_r; [|done..].
  destruct (last (omap chosenBy acts)) as [[]|] eqn:E; [|done..|by destruct (omap initialBy acts)].
  apply last_Some in E as [l E]. assert (H : NoSelection ∈ omap chosenBy acts) by (rewrite E; set_solver).
  apply list_elem_of_omap in H as (x & _ & Hx). by destruct x.
Qed.

(** [C38] After any sequence of actions the recharge form is what they ask for:
    its custom text is the last one typed (other actions keep it), its selection
    is the last preset chosen or the custom amount if that was chosen or edited
    last, or, when no choice was made, the first amount the form was initialised
    with. The amount to pay is exactly that of the selection: the preset, or 0
    without a selection, and for the custom amount the integer written in the
    text that was typed last if it consists of digits and lies from 1 to 100000
    (both included), and 0 for every other text. So choosing the custom amount
    again after a preset restores the amount that had been typed. *)
Theorem recharge_amount_consistent acts :
  actedState acts = {| selection := lastChosen acts; topupAmount := askedAmount acts; customAmount := lastTyped acts |}.
Proof.
  unfold actedState. induction acts as [|a acts IH] using rev_ind; [done|].
  rewrite foldl_snoc, IH. unfold askedAmount. rewrite lastChosen_snoc, lastTyped_snoc.
  destruct a as [amount|amount| |value]; cbn [rechargeAmountReducer chosenBy initialBy typedBy selection topupAmount customAmount];
    rewrite ?parseCustomAmount_exact; [|done..].
  by destruct (lastChosen acts).
Qed.

Example recharge_amount_consistent_witness :
  topupAmount (actedState [Initialize (num_of_Z 10); EditCustom (js "57"); SelectPreset (num_of_Z 20); Initialize (num_of_Z 30); SelectCustom])
  = num_of_Z 57.
Proof. rewrite recharge_amount_consistent. vm_compute. reflexivity. Defined.

(** ** Methods *)

(** The wallet offers exactly the methods of the server's list that have a
    name and a type and whose gateway is enabled, never the legacy Waffo entry,
    and none before compliance is confirmed; without an offered method the
    default type is that of an enabled Waffo gateway or empty, and with one it is
    the first offered. *)
Theorem offered_methods_enabled data m :
  let t := processTopupInfo data in
  (m ∈ getAvailablePaymentMethods (Some t) <->
   payment_compliance_confirmed data <> Some false /\
   (exists item, item ∈ objectItems (pay_methods data) /\ m = readMethod (stripe_min_topup data) item) /\
   pm_name m <> [] /\ pm_type m <> [] /\ pm_type m <> WAFFO /\ gatewayEnabled t (pm_type m) = true) /\
  (match getAvailablePaymentMethods (Some t) with
   | first :: _ => getDefaultPaymentType (Some t) = pm_type first
   | [] => getDefaultPaymentType (Some t) = WAFFO /\ enable_waffo_topup data = Some true \/
           getDefaultPaymentType (Some t) = WAFFO_PANCAKE /\ enable_waffo_pancake_topup data = Some true \/
           getDefaultPaymentType (Some t) = []
   end).
Proof.
  intros t. split.
  - unfold getAvailablePaymentMethods, nonCompliant. simpl payment_compliance_confirmed. case_bool_decide as Hc.
    { split; [by intros H%elem_of_nil|naive_solver]. }
    simpl pay_methods. unfold parsePaymentMethods. rewrite list_elem_of_In, !filter_In, in_map_iff.
    rewrite !andb_true_iff, !truthy_str_spec, negb_true_iff, bool_decide_eq_false.
    setoid_rewrite list_elem_of_In. unfold WAFFO. naive_solver.
  - unfold getDefaultPaymentType. destruct (getAvailablePaymentMethods (Some t)) as [|f fs]; [|done].
    simpl. unfold isOn. destruct (enable_waffo_topup data) as [[]|]; simpl; [by left| |];
      (destruct (enable_waffo_pancake_topup data) as [[]|]; simpl; [by right; left|by right; right..]).
Qed.

(** ** The minimum *)

Lemma numberOr_integer b : Z.abs b < 2 ^ 53 -> numberOr (Some (num_of_Z b)) num_zero = num_of_Z b.
Proof.
  intros Hb. unfold numberOr. destruct (Z.eq_dec b 0) as [->|Hne]; [done|].
  destruct (num_of_Z_finite b Hne Hb) as (s & m & e & -> & _). done.
Qed.

(** A payment is confirmed exactly for amounts that reach the minimum of the
    top-up information and that of the method. *)
Theorem payment_respects_minimums t method a b amount :
  Z.abs a < 2 ^ 53 -> Z.abs b < 2 ^ 53 -> Z.abs amount < 2 ^ 53 ->
  getMinTopupAmount t = num_of_Z a -> pm_min_topup method = Some (num_of_Z b) ->
  paymentAllowed t method (num_of_Z amount) = true <-> a <= amount /\ b <= amount.
Proof.
  intros Ha Hb Hn Hmin Hm. unfold paymentAllowed. rewrite Hmin, Hm, numberOr_integer by done.
  unfold num_max. rewrite num_ltb_exact by done. destruct (Z.ltb_spec a b); rewrite num_ltb_exact by done.
  all: rewrite negb_true_iff, Z.ltb_ge; lia.
Qed.

(** ** Amounts to choose from *)

Theorem preset_options_positive data :
  amount_options (processTopupInfo data) <> [] ->
  Forall (fun p => num_is_finite (pr_value p) = true /\ num_ltb num_zero (pr_value p) = true /\ pr_discount p <> None)
    (fetchTopupInfo data).2.
Proof.
  intros H. unfold fetchTopupInfo. cbv zeta. cbn [snd].
  destruct (0 <? length (amount_options (processTopupInfo data)))%nat eqn:E.
  2:{ apply Nat.ltb_ge in E. destruct (amount_options (processTopupInfo data)); [done|simpl in E; lia]. }
  unfold mergePresetAmounts. apply Forall_fmap, Forall_forall. intros n Hn%list_elem_of_In.
  simpl in Hn. unfold parseAmountOptions in Hn. apply filter_In in Hn as [_ [H1 H2]%andb_true_iff]. done.
Qed.

(** ** Samples *)

Definition sampleAnswer : TopupAnswer := {|
  enable_online_topup := false; enable_stripe_topup := true;
  pay_methods := VStr (jsq "[{'name':'Stripe','type':'stripe'},{'name':'Epay','type':'wxpay'},{'name':'Waffo','type':'waffo'},7,[]]");
  min_topup := num_of_Z 5; stripe_min_topup := num_of_Z 2; amount_options := VArr [VNum (num_of_Z 100); VStr (js "x"); VNum (num_of_Z 20)];
  discount := VStr (jsq "{'100':0.9,'x':2}"); topup_link := None; enable_creem_topup := None; creem_products := VNull;
  enable_waffo_topup := Some true; waffo_pay_methods := VNull; waffo_min_topup := None;
  enable_waffo_pancake_topup := None; waffo_pancake_min_topup := None; enable_redemption := None;
  payment_compliance_confirmed := None; payment_compliance_terms_version := None |}.

Example wallet_sample :
  map pm_type (getAvailablePaymentMethods (Some (fetchTopupInfo sampleAnswer).1)) = [STRIPE] /\
  num_to_Z (getMinTopupAmount (Some (fetchTopupInfo sampleAnswer).1)) = Some 2 /\
  map (fun p => (num_to_str (pr_value p), num_to_str <$> pr_discount p)) (fetchTopupInfo sampleAnswer).2 =
    [(js "100", Some (js "0.9")); (js "20", Some (js "1"))].
Proof. vm_compute. repeat split; reflexivity. Qed.
