(* ===== verification/PriceDisplay.v ===== *)
(** * Price display (features/pricing/lib/price.ts, dynamic-price.ts and filters.ts)

    Prices of the model catalogue: a ratio or a fixed price scaledRatio by the
    cheapest group of the model or by a chosen group, and for expression-billed
    models the tiers of the expression.  The texts come from the currency
    formatter of lib/currency.ts over [Intl], which is the parameter
    [formatCurrency] here; everything that decides the amount is modelled. *)
From stdpp Require Import prelude list strings.
From S2P Require Import Prelude JsString JsNumber JsValue JsRegex RequestRules Tiers.
Open Scope js_scope.

(** ** Data (features/pricing/types.ts) *)

(** The fields of a model that prices and filters read; a ratio that may be
    null or missing is an [option]. *)
Record PricingModel := mkModel {
  model_name : jstr; description : option jstr; vendor_name : option jstr; quota_type : Z; model_ratio : number;
  completion_ratio : number; model_price : option number; cache_ratio : option number;
  create_cache_ratio : option number; image_ratio : option number; audio_ratio : option number;
  audio_completion_ratio : option number; enable_groups : option (list jstr); tags : option jstr;
  supported_endpoint_types : option (list jstr); group_ratio : option (list (jstr * number));
  billing_mode : option jstr; billing_expr : option jstr }.

Inductive PriceType := PInput | POutput | PCache | PCreateCache | PImage | PAudioInput | PAudioOutput.
Inductive TokenUnit := UnitM | UnitK.

Definition TOKEN : Z := 0.
Definition REQUEST : Z := 1.
Definition TOKEN_UNIT_DIVISORS (tokenUnit : TokenUnit) : number :=
  match tokenUnit with UnitM => num_of_Z 1 | UnitK => num_of_Z 1000 end.

(** [ratios[group]] *)
Fixpoint ratioOf (group : jstr) (ratios : list (jstr * number)) : option number :=
  match ratios with
  | [] => None
  | (g, r) :: rest => if group === g then Some r else ratioOf group rest
  end.

(** ** Ratio prices (price.ts) *)

(** The loop over the enabled groups. *)
Definition minStep (ratios : list (jstr * number)) (minRatio : number) (group : jstr) : number :=
  match ratioOf group ratios with
  | Some ratio => if num_ltb ratio minRatio then ratio else minRatio
  | None => minRatio
  end.

Definition getMinGroupRatio (enableGroups : list jstr) (groupRatio : list (jstr * number)) : number :=
  match enableGroups with
  | [] => num_of_Z 1
  | _ => let minRatio := foldl (minStep groupRatio) num_inf enableGroups in
         if num_eqb minRatio num_inf then num_of_Z 1 else minRatio
  end.

Definition hasRatio (value : option number) : bool := match value with Some n => num_is_finite n | None => false end.

(** [hasRatio(x) ? base * x : NaN] *)
Definition scaledRatio (base : number) (ratio : option number) : number :=
  match ratio with Some n => if num_is_finite n then num_mul base n else num_nan | None => num_nan end.

Definition calculateTokenPrice (model : PricingModel) (type : PriceType) (ratio : number) : number :=
  let base := num_mul (num_mul (model_ratio model) (num_of_Z 2)) ratio in
  match type with
  | PInput => base
  | POutput => num_mul base (completion_ratio model)
  | PCache => scaledRatio base (cache_ratio model)
  | PCreateCache => scaledRatio base (create_cache_ratio model)
  | PImage => scaledRatio base (image_ratio model)
  | PAudioInput => scaledRatio base (audio_ratio model)
  | PAudioOutput => match audio_ratio model, audio_completion_ratio model with
                    | Some a, Some b => if num_is_finite a && num_is_finite b then num_mul (num_mul base a) b else num_nan
                    | _, _ => num_nan
                    end
  end.

Definition applyRechargeRate (price : number) (showWithRecharge : bool) (priceRate usdExchangeRate : number) : number :=
  if showWithRecharge then num_div (num_mul price priceRate) usdExchangeRate else price.

(** The options of the formatter: digits of large and of small amounts. *)
Record CurrencyOptions := mkDigits { digitsLarge : Z; digitsSmall : Z; abbreviate : bool }.

Section Display.
Context (formatCurrency : number -> CurrencyOptions -> jstr).

Definition modelGroups (model : PricingModel) : list jstr := default [] (enable_groups model).
Definition modelRatios (model : PricingModel) : list (jstr * number) := default [] (group_ratio model).

(** [x || d] *)
Definition truthyOr (x : option number) (d : number) : number :=
  match x with Some n => if num_truthy n then n else d | None => d end.

(** The price text for a given ratio; [formatPrice] and [formatGroupPrice] share it. *)
Definition tokenPriceText (model : PricingModel) (type : PriceType) (ratio : number) (tokenUnit : TokenUnit)
    (showWithRecharge : bool) (priceRate usdExchangeRate : number) : jstr :=
  let priceInUSD := applyRechargeRate (calculateTokenPrice model type ratio) showWithRecharge priceRate usdExchangeRate in
  formatCurrency (num_div priceInUSD (TOKEN_UNIT_DIVISORS tokenUnit)) (mkDigits 4 6 false).

Definition formatPrice (model : PricingModel) (type : PriceType) (tokenUnit : TokenUnit) (showWithRecharge : bool)
    (priceRate usdExchangeRate : number) : jstr :=
  if (quota_type model =? REQUEST)%Z then js "-"
  else tokenPriceText model type (getMinGroupRatio (modelGroups model) (modelRatios model)) tokenUnit showWithRecharge
         priceRate usdExchangeRate.

Definition formatGroupPrice (model : PricingModel) (group : jstr) (type : PriceType) (tokenUnit : TokenUnit)
    (showWithRecharge : bool) (priceRate usdExchangeRate : number) (groupRatio : list (jstr * number)) : jstr :=
  if (quota_type model =? REQUEST)%Z then js "-"
  else tokenPriceText model type (truthyOr (ratioOf group groupRatio) (num_of_Z 1)) tokenUnit showWithRecharge
         priceRate usdExchangeRate.

Definition fixedPriceText (model : PricingModel) (ratio : number) (showWithRecharge : bool)
    (priceRate usdExchangeRate : number) : jstr :=
  formatCurrency (applyRechargeRate (num_mul (truthyOr (model_price model) num_zero) ratio) showWithRecharge
                    priceRate usdExchangeRate) (mkDigits 4 4 false).

Definition formatFixedPrice (model : PricingModel) (group : jstr) (showWithRecharge : bool)
    (priceRate usdExchangeRate : number) (groupRatio : list (jstr * number)) : jstr :=
  if (quota_type model =? REQUEST)%Z
  then fixedPriceText model (truthyOr (ratioOf group groupRatio) (num_of_Z 1)) showWithRecharge priceRate usdExchangeRate
  else js "-".

Definition formatRequestPrice (model : PricingModel) (showWithRecharge : bool) (priceRate usdExchangeRate : number) : jstr :=
  if (quota_type model =? REQUEST)%Z
  then fixedPriceText model (getMinGroupRatio (modelGroups model) (modelRatios model)) showWithRecharge priceRate usdExchangeRate
  else js "-".

(** ** Expression prices (dynamic-price.ts) *)

Record DynamicPriceOptions := mkDynamicOptions {
  tokenUnit : TokenUnit; showRechargePrice : option bool; priceRate : option number;
  usdExchangeRate : option number; groupRatioMultiplier : option number }.

Record DynamicPriceEntry := mkEntry {
  e_key : jstr; e_field : jstr; e_label : jstr; e_shortLabel : jstr; e_value : number; e_formatted : jstr;
  e_variable : BillingVar }.

Record DynamicPricingSummary := mkSummary {
  s_tiers : list ParsedTier; s_tier : option ParsedTier; s_tierCount : nat; s_hasRequestRules : bool;
  s_isSpecialExpression : bool; s_rawExpression : jstr; s_entries : list DynamicPriceEntry;
  s_primaryEntries : list DynamicPriceEntry; s_secondaryEntries : list DynamicPriceEntry }.

Definition isPrimary (field : jstr) : bool := (field === js "inputPrice") || (field === js "outputPrice").

Definition isDynamicPricingModel (model : PricingModel) : bool :=
  match billing_mode model with
  | Some mode => (mode === js "tiered_expr") && truthy_str (default [] (billing_expr model))
  | None => false
  end.

Definition getDynamicDisplayGroupRatio (model : PricingModel) : number :=
  let groups := modelGroups model in
  let ratios := modelRatios model in
  if (length groups =? 0)%nat then num_of_Z 1
  else let minRatio := foldl (fun minRatio group =>
                                match ratioOf group ratios with
                                | Some ratio => if num_ltb ratio minRatio then ratio else minRatio
                                | None => minRatio
                                end) num_inf groups in
       if num_eqb minRatio num_inf then num_of_Z 1 else minRatio.

Definition formatDynamicUnitPrice (valuePerMillionTokens : number) (options : DynamicPriceOptions) : jstr :=
  let groupRatio := default (num_of_Z 1) (groupRatioMultiplier options) in
  let priceUSD := num_div (num_mul valuePerMillionTokens groupRatio) (TOKEN_UNIT_DIVISORS (tokenUnit options)) in
  let displayPrice := applyRechargeRate priceUSD (default false (showRechargePrice options))
                        (default (num_of_Z 1) (priceRate options)) (default (num_of_Z 1) (usdExchangeRate options)) in
  formatCurrency displayPrice (mkDigits 4 6 false).

Definition getDynamicPricingTiers (model : PricingModel) : outcome (list ParsedTier) :=
  if negb (isDynamicPricingModel model) then Ret []
  else split <-- splitBillingExprAndRequestRules (default [] (billing_expr model)) ;;
       Ret (parseTiersFromExpr (billingExpr split)).

Definition hasDynamicRequestRules (model : PricingModel) : outcome bool :=
  if negb (isDynamicPricingModel model) then Ret false
  else split <-- splitBillingExprAndRequestRules (default [] (billing_expr model)) ;;
       rules <-- tryParseRequestRuleExpr (requestRuleExpr split) ;;
       Ret (match rules with Some (_ :: _) => true | _ => false end).

(** [Number(tier[field])]; a tier has a number or nothing at a field. *)
Definition tierPrice (tier : ParsedTier) (field : jstr) : number := default num_nan (ratioOf field (pt_prices tier)).

Definition entryOf (options : DynamicPriceOptions) (tier : ParsedTier) (variable : BillingVar) : list DynamicPriceEntry :=
  match bv_field variable with
  | None => []
  | Some field =>
      if negb (truthy_str field) then []
      else let value := tierPrice tier field in
           if negb (num_is_finite value) || num_leb value num_zero then []
           else [mkEntry (bv_key variable) field (bv_label variable) (bv_shortLabel variable) value
                   (formatDynamicUnitPrice value options) variable]
  end.

Definition primaryFirst (a b : DynamicPriceEntry) : Z :=
  let aPrimary := isPrimary (e_field a) in
  let bPrimary := isPrimary (e_field b) in
  if negb (Bool.eqb aPrimary bPrimary) then (if aPrimary then -1 else 1)%Z else 0%Z.

Definition getDynamicPriceEntries (tier : option ParsedTier) (options : DynamicPriceOptions) : list DynamicPriceEntry :=
  match tier with
  | None => []
  | Some tier => sort_by primaryFirst (concat (map (entryOf options tier) BILLING_PRICING_VARS))
  end.

Definition getDynamicPricingSummary (model : PricingModel) (options : DynamicPriceOptions)
  : outcome (option DynamicPricingSummary) :=
  if negb (isDynamicPricingModel model) then Ret None
  else tiers <-- getDynamicPricingTiers model ;;
       rules <-- hasDynamicRequestRules model ;;
       let tier := head tiers in
       let entries := getDynamicPriceEntries tier options in
       let rawExpression := default [] (billing_expr model) in
       Ret (Some {| s_tiers := tiers; s_tier := tier; s_tierCount := length tiers; s_hasRequestRules := rules;
                    s_isSpecialExpression := truthy_str (trim rawExpression) && (length tiers =? 0)%nat;
                    s_rawExpression := rawExpression; s_entries := entries;
                    s_primaryEntries := List.filter (fun e => isPrimary (e_field e)) entries;
                    s_secondaryEntries := List.filter (fun e => negb (isPrimary (e_field e))) entries |}).
End Display.

(** ** Filters of the catalogue (filters.ts)

    [String.prototype.toLowerCase] and [localeCompare] depend on Unicode tables
    and the locale; they are parameters. *)
Definition FILTER_ALL : jstr := js "all".
Definition SORT_NAME : jstr := js "name".
Definition SORT_PRICE_LOW : jstr := js "price-low".
Definition SORT_PRICE_HIGH : jstr := js "price-high".
Definition QUOTA_TOKEN : jstr := js "token".

(** [s.split(/[p]+/)]: a run of separators separates once. *)
Fixpoint splitRuns (p : N -> bool) (inRun : bool) (s : jstr) : list jstr :=
  match s with
  | [] => [[]]
  | c :: s' => if p c then (if inRun then splitRuns p true s' else [] :: splitRuns p true s')
               else match splitRuns p false s' with w :: ws => (c :: w) :: ws | [] => [[c]] end
  end.

(** [[,;|\s]] *)
Definition tagSeparator (c : N) : bool := (c =? 44)%N || (c =? 59)%N || (c =? 124)%N || is_ws c.

Definition parseTags (tagsString : option jstr) : list jstr :=
  match tagsString with
  | Some s => if truthy_str s then trim_nonempty (splitRuns tagSeparator false s) else []
  | None => []
  end.

Definition listIncludes (x : jstr) (l : list jstr) : bool := existsb (fun y => y === x) l.

Definition getModelPrice (model : PricingModel) : number :=
  if (quota_type model =? 0)%Z then model_ratio model else truthyOr (model_price model) num_zero.

(** The sign of a comparator's result; [NaN] counts as zero. *)
Definition numSign (n : number) : Z := if num_ltb n num_zero then -1 else if num_ltb num_zero n then 1 else 0.

Record CatalogueFilters := mkFilters {
  f_search : jstr; f_vendor : jstr; f_group : jstr; f_quotaType : jstr; f_endpointType : jstr; f_tag : jstr;
  f_sortBy : jstr }.

Section Filters.
Context (toLowerCase : jstr -> jstr) (localeCompare : jstr -> jstr -> Z).

(** [text?.toLowerCase().includes(q)] *)
Definition textHas (q : jstr) (text : option jstr) : bool :=
  match text with Some s => includes q (toLowerCase s) | None => false end.

Definition matchesSearch (query : jstr) (m : PricingModel) : bool :=
  let lowerQuery := toLowerCase query in
  textHas lowerQuery (Some (model_name m)) || textHas lowerQuery (description m) || textHas lowerQuery (tags m) ||
  textHas lowerQuery (vendor_name m).

Definition filterBySearch (models : list PricingModel) (query : jstr) : list PricingModel :=
  if truthy_str query then List.filter (matchesSearch query) models else models.

Definition filterByVendor (models : list PricingModel) (vendor : jstr) : list PricingModel :=
  if vendor === FILTER_ALL then models else List.filter (fun m => vendor_name m === Some vendor) models.

Definition filterByGroup (models : list PricingModel) (group : jstr) : list PricingModel :=
  if group === FILTER_ALL then models
  else List.filter (fun m => match enable_groups m with Some gs => listIncludes group gs | None => false end) models.

Definition filterByQuotaType (models : list PricingModel) (quotaType : jstr) : list PricingModel :=
  if quotaType === FILTER_ALL then models
  else let targetType := if quotaType === QUOTA_TOKEN then TOKEN else REQUEST in
       List.filter (fun m => (quota_type m =? targetType)%Z) models.

Definition filterByEndpointType (models : list PricingModel) (endpointType : jstr) : list PricingModel :=
  if endpointType === FILTER_ALL then models
  else List.filter (fun m => match supported_endpoint_types m with
                             | Some es => listIncludes endpointType es
                             | None => false
                             end) models.

Definition hasTag (tag : jstr) (m : PricingModel) : bool :=
  if truthy_str (default [] (tags m))
  then listIncludes (toLowerCase tag) (map toLowerCase (parseTags (tags m))) else false.

Definition filterByTag (models : list PricingModel) (tag : jstr) : list PricingModel :=
  if tag === FILTER_ALL then models else List.filter (hasTag tag) models.

Definition sortModels (models : list PricingModel) (sortBy : jstr) : list PricingModel :=
  if sortBy === SORT_NAME then sort_by (fun a b => localeCompare (model_name a) (model_name b)) models
  else if sortBy === SORT_PRICE_LOW
       then sort_by (fun a b => numSign (num_sub (getModelPrice a) (getModelPrice b))) models
  else if sortBy === SORT_PRICE_HIGH
       then sort_by (fun a b => numSign (num_sub (getModelPrice b) (getModelPrice a))) models
  else models.

Definition filterAndSortModels (models : list PricingModel) (f : CatalogueFilters) : list PricingModel :=
  let result := filterBySearch models (f_search f) in
  let result := filterByVendor result (f_vendor f) in
  let result := filterByGroup result (f_group f) in
  let result := filterByQuotaType result (f_quotaType f) in
  let result := filterByEndpointType result (f_endpointType f) in
  let result := filterByTag result (f_tag f) in
  sortModels result (f_sortBy f).

Definition extractAllTags (models : list PricingModel) : list jstr :=
  sort_by localeCompare
    (set_from (concat (map (fun m => if truthy_str (default [] (tags m))
                                     then map toLowerCase (parseTags (tags m)) else []) models))).
End Filters.
