(* ===== verification/PriceDisplayCorrect.v ===== *)
(** * Correctness of the price displays

    What the tier editor and the rule editor save together is what the price
    catalogue shows, a catalogue price uses the cheapest group of the model,
    and the catalogue's filters select and reorder without losing models. *)
From stdpp Require Import prelude list strings.
From Stdlib Require Import NArith Ascii Permutation.
From S2P Require Import Prelude JsString JsNumber JsInteger JsValue JsRegex.
From S2P Require Import JsMap RequestRules TopLevelSplit RequestRulesCorrect Tiers TiersCorrect PriceDisplay.
Open Scope js_scope.

(** ** Texts that the split at [*] reads whole *)

Definition whole (w : jstr) : Prop := forall s cur,
  splitLoop (js " * ") 0 (w ++ s) cur 0 = splitLoop (js " * ") 0 s (rev w ++ cur) 0.

Lemma whole_nil : whole [].
Proof. done. Qed.

Lemma whole_app a b : whole a -> whole b -> whole (a ++ b).
Proof. intros Ha Hb s cur. by rewrite <- app_assoc, Ha, Hb, rev_app_distr, <- app_assoc. Qed.

Lemma whole_parens inner : balanced inner -> whole (u "(" :: inner ++ [u ")"]).
Proof. intros H. exact (piece_whole _ _ (piece_factor _ inner goodSep_mul H)). Qed.

(** Units that neither nest nor multiply. *)
Definition quietUnit (c : N) : bool := noParen c && negb (c =? u "*")%N.
Notation quiet := (Forall (fun c => quietUnit c = true)).

Lemma quiet_balanced w : quiet w -> balanced w.
Proof. intros H. apply balanced_flat. eapply Forall_impl; [exact H|]. intros c Hc. unfold quietUnit in Hc. by bool_hyps. Qed.

Lemma whole_quiet w y : quiet (w ++ [y]) -> y <> u " " -> whole (w ++ [y]).
Proof.
  intros Hq Hy s cur. apply splitLoop_balanced; [by apply quiet_balanced|].
  intros w1 x w2 E. change (js " * ") with [u " "; u "*"; u " "]. cbn [starts_with].
  destruct (N.eqb_spec (u " ") x) as [<-|]; [|done]. cbn [andb]. destruct w2 as [|z w2].
  - apply app_inj_tail in E as [_ ->]. done.
  - cbn [app]. destruct (N.eqb_spec (u "*") z) as [<-|]; [|done]. rewrite E in Hq.
    apply Forall_app in Hq as [_ Hq]. apply Forall_cons in Hq as [_ Hq]. apply Forall_cons in Hq as [Hq _]. done.
Qed.

Lemma piece_of_whole w : w <> [] -> trimmed w = true -> whole w -> piece (js " * ") w.
Proof. by split. Qed.

(** ** Parts of a generated expression *)

Definition goodLabel (p : part) : Prop := balanced (pa_name p).

Lemma unsigned_quiet x : unsignedChar x = true -> quietUnit x = true.
Proof.
  intros H%unsigned_signed. unfold quietUnit, noParen.
  repeat (apply andb_true_iff; split); apply negb_true_iff, N.eqb_neq; intros ->; done.
Qed.

Lemma signed_quiet x : signedChar x = true -> noParen x = true.
Proof. intros H. unfold noParen. apply andb_true_iff; split; apply negb_true_iff, N.eqb_neq; intros ->; done. Qed.

Lemma conditionText_quiet c : wfCondition c -> quiet (conditionText c).
Proof.
  intros Hw. unfold conditionText. rewrite !Forall_app. split_and!.
  - destruct (ci_var c); by repeat constructor.
  - by repeat constructor.
  - destruct (ci_op c); by repeat constructor.
  - by repeat constructor.
  - eapply Forall_impl; [exact Hw|]. intros x. apply unsigned_quiet.
Qed.

Lemma conditions_quiet cs : Forall wfCondition cs -> quiet (buildConditionStr cs).
Proof.
  intros H. unfold buildConditionStr. apply js_join_Forall; [by repeat constructor|].
  apply Forall_forall. intros t Ht. apply list_elem_of_fmap in Ht as (c & -> & Hc).
  apply conditionText_quiet. apply list_elem_of_In, filter_In in Hc as [Hc _].
  rewrite List.Forall_forall in H. by apply H.
Qed.

(** A part is quiet text, then one call. *)
Lemma part_shape p : wfPart p -> goodLabel p ->
  exists pre inner, writePart p = pre ++ js "tier" ++ u "(" :: inner ++ [u ")"] /\ quiet pre /\ balanced inner.
Proof.
  intros (Ht & _ & Hc) Hl. unfold writePart, partText. set (cond := buildConditionStr (pa_conds p)).
  set (inner := 34%N :: pa_name p ++ 34%N :: js ", " ++ buildTierBodyExpr (pa_tier p)).
  assert (Hi : balanced inner).
  { unfold inner. change (34%N :: ?x) with ([34%N] ++ x). apply balanced_app; [done|].
    apply balanced_app; [exact Hl|]. change (34%N :: js ", " ++ ?x) with ((34%N :: js ", ") ++ x).
    apply balanced_app; [done|]. apply balanced_flat, tierBody_chars; [apply signed_quiet|by repeat constructor..|exact Ht]. }
  assert (Hcall : tierCall (pa_name p) (pa_tier p) = js "tier" ++ u "(" :: inner ++ [u ")"]).
  { unfold tierCall, inner. cbn [app]. by rewrite <- !app_assoc. }
  rewrite Hcall. destruct (truthy_str cond); [exists (cond ++ js " ? ")|exists []]; exists inner.
  - rewrite <- app_assoc. split_and!; [done| |done]. apply Forall_app. split; [by apply conditions_quiet|by repeat constructor].
  - by split_and!.
Qed.

Lemma part_whole pre p : wfPart p -> goodLabel p -> quiet pre -> whole (pre ++ writePart p).
Proof.
  intros Hp Hl Hq. destruct (part_shape p Hp Hl) as (pre' & inner & -> & Hq' & Hi).
  rewrite (app_assoc pre), (app_assoc (pre ++ pre')). apply whole_app; [|by apply whole_parens].
  change (js "tier") with (js "tie" ++ [u "r"]). rewrite app_assoc. apply whole_quiet; [|done].
  rewrite !Forall_app. split_and!; [done|done|by repeat constructor..].
Qed.

Lemma part_balanced p : wfPart p -> goodLabel p -> balanced (writePart p).
Proof.
  intros Hp Hl. destruct (part_shape p Hp Hl) as (pre' & inner & -> & Hq' & Hi).
  apply balanced_app; [by apply quiet_balanced|]. apply balanced_app; [done|by apply balanced_wrap].
Qed.

Lemma part_last p : wfPart p -> goodLabel p -> exists t, writePart p = t ++ [u ")"].
Proof.
  intros Hp Hl. destruct (part_shape p Hp Hl) as (pre & inner & -> & _ & _).
  exists (pre ++ js "tier" ++ u "(" :: inner). by rewrite <- !app_assoc.
Qed.

Notation joined ps := (js_join (js " : ") (map writePart ps)).

Lemma parts_whole p ps : Forall wfPart (p :: ps) -> Forall goodLabel (p :: ps) -> whole (joined (p :: ps)).
Proof.
  intros [Hp Hps]%Forall_cons [Hl Hls]%Forall_cons. rewrite join_parts. apply whole_app.
  - by apply (part_whole []).
  - clear Hp Hl. induction Hps as [|q ps Hq _ IH]; [apply whole_nil|]. apply Forall_cons in Hls as [Hl Hls].
    unfold laterParts. cbn [map concat]. apply whole_app; [|by apply IH]. apply part_whole; [done..|by repeat constructor].
Qed.

Lemma parts_last p ps : Forall wfPart (p :: ps) -> Forall goodLabel (p :: ps) -> exists t, joined (p :: ps) = t ++ [u ")"].
Proof.
  revert p. induction ps as [|q ps IH]; intros p [Hp Hps]%Forall_cons [Hl Hls]%Forall_cons; [by apply part_last|].
  destruct (IH q Hps Hls) as [t Et]. exists (writePart p ++ js " : " ++ t).
  change (joined (p :: q :: ps)) with (writePart p ++ js " : " ++ joined (q :: ps)). by rewrite Et, <- !app_assoc.
Qed.

Lemma parts_head p ps s : exists x t, joined (p :: ps) ++ s = x :: t /\ x ∈ [u "p"; u "c"; u "l"; u "t"].
Proof.
  rewrite join_parts. destruct (part_head p) as (x & t & -> & Hx). by do 2 eexists.
Qed.

(** ** What is not a rule *)

(** The text of a rule factor is [( ... : 1)]. *)
Lemma not_a_factor p : starts_with (js "(") p = false -> rmatch ruleFactor p = None.
Proof. intros H. rewrite rmatch_unfold. unfold ruleFactor, at_start. cbn [rseq]. by rewrite rx_lit_no. Qed.

Lemma factor_ends p c : rmatch ruleFactor p = Some c -> exists t, p = t ++ js " : 1)".
Proof.
  rewrite rmatch_unfold. unfold ruleFactor. cbn [rseq].
  destruct (rx _ (at_start p) [] accept) as [res|] eqn:E; [|done]. intros _.
  do 4 (rewrite rx_RSeq in E; apply (rx_consumes (fun _ => True)) in E as (? & ? & ? & ? & _ & E & _);
        [|unfold RLit, numRun, RPlus, RDotAll; cbn; by repeat split]).
  rewrite rx_RSeq, rx_RLit in E. unfold skip_lit in E. cbn [rest before at_start] in *.
  destruct (starts_with _ _) eqn:Es; [|done]. apply starts_with_spec in Es as [t Et]. subst.
  rewrite drop_app_length in E. cbn [rx rest] in E. destruct t; [|done]. eexists. rewrite app_nil_r, !app_assoc. reflexivity.
Qed.

Lemma not_rule p : piece (js " * ") p -> rmatch ruleFactor p = None -> tryParseRequestRuleExpr p = Ret None.
Proof.
  intros Hp Hn. unfold tryParseRequestRuleExpr. rewrite trimmed_trim by apply Hp.
  rewrite (proj2 (truthy_str_spec p)) by apply Hp. cbn [negb]. unfold splitTopLevelMultiply.
  rewrite (split_join_pieces _ [p]) by (done || apply goodSep_mul || by constructor).
  cbn [parseFactors]. unfold tryParseRuleGroupFactor. by rewrite Hn.
Qed.

(** ** The saved expression *)

Definition editable (tier : VisualTier) : Prop := wfVisual tier /\ balanced (vt_label tier).

Lemma editable_wf tiers : Forall editable tiers -> Forall wfVisual tiers.
Proof. intros H. eapply Forall_impl; [exact H|]. by intros t []. Qed.

Lemma partsOf_labels tiers : Forall editable tiers -> Forall goodLabel (partsOf tiers).
Proof.
  intros H. assert (Hor : forall a b, balanced a -> balanced b -> balanced (str_or a b)) by (intros a b; unfold str_or; by destruct (truthy_str a)).
  assert (Hn : forall i, balanced (js "tier_" ++ print_int (Z.of_nat i + 1))).
  { intros i. apply balanced_app; [done|]. apply balanced_flat. unfold print_int. case_if; [bool_hyps; lia|].
    eapply Forall_impl; [apply print_nat_dec_digits|]. intros x Hx.
    apply signed_quiet. unfold signedChar. by rewrite Hx. }
  assert (Hz : forall n l, Forall goodLabel (map (partOf n) (zip l tiers))).
  { intros n l. apply List.Forall_forall. intros p ([i t] & <- & Hit)%in_map_iff. apply in_combine_r in Hit.
    rewrite List.Forall_forall in H. destruct (H t Hit) as [_ Hl]. apply Hor; [done|apply Hn]. }
  destruct H as [|t l [_ Hl] Hts]; [constructor|]. destruct Hts; [|apply Hz].
  apply List.Forall_cons; [|by constructor]. by apply Hor.
Qed.

(** What the splitters need to know of a generated expression. *)
Record baseFacts (base : jstr) : Prop := {
  base_nonempty : base <> [];
  base_trimmed : trimmed base = true;
  base_balanced : balanced base;
  base_open : starts_with (js "(") base = false;
  base_close : exists t y, base = t ++ [y] /\ y <> u "1";
  base_alone : splitBillingExprAndRequestRules base = Ret {| billingExpr := base; requestRuleExpr := [] |} }.

Lemma trimmed_between x a t y : is_ws x = false -> is_ws y = false -> x :: a = t ++ [y] -> trimmed (x :: a) = true.
Proof.
  intros Hx Hy E. destruct t as [|x' t]; [injection E as -> ->|injection E as <- ->; by apply trimmed_ends].
  unfold trimmed. simpl. by rewrite Hy.
Qed.

Lemma split_one base : piece (js " * ") base ->
  splitBillingExprAndRequestRules base = Ret {| billingExpr := base; requestRuleExpr := [] |}.
Proof.
  intros Hp. unfold splitBillingExprAndRequestRules. rewrite trimmed_trim by apply Hp.
  rewrite (proj2 (truthy_str_spec base)) by apply Hp. cbn [negb]. unfold splitTopLevelMultiply.
  by rewrite (split_join_pieces _ [base]) by (done || apply goodSep_mul || by constructor).
Qed.

(** The price zero after a guarded tier is multiplied at top level: three
    pieces, none of them a rule. *)
Lemma split_zero a : a <> [] -> whole a -> starts_with (js "(") a = false -> trimmed (a ++ js " : p") = true ->
  splitBillingExprAndRequestRules (a ++ js " : " ++ ZERO_EXPR)
  = Ret {| billingExpr := a ++ js " : " ++ ZERO_EXPR; requestRuleExpr := [] |}.
Proof.
  intros Hne Hw Ho Ht.
  assert (E : a ++ js " : " ++ ZERO_EXPR = js_join (js " * ") [a ++ js " : p"; js "0 + c"; js "0"]) by (cbn [js_join]; by rewrite <- app_assoc).
  assert (Hps : Forall (piece (js " * ")) [a ++ js " : p"; js "0 + c"; js "0"]).
  { assert (Hq : forall w, w = js "0 + c" \/ w = js "0" -> piece (js " * ") w).
    { intros w Hc. apply (piece_units _ (u "*") (js " ")); [done|..]; destruct Hc as [->| ->]; try done; by apply not_in_lit. }
    repeat constructor; try (apply Hq; by auto). 1: by destruct a. 1: done.
    apply whole_app; [done|]. apply (whole_quiet (js " : ") (u "p")); [by repeat constructor|done]. }
  rewrite E. unfold splitBillingExprAndRequestRules. rewrite trimmed_trim by (by apply trimmed_join).
  rewrite (js_join_truthy _ (a ++ _)) by (by destruct a). cbn [negb].
  unfold splitTopLevelMultiply. rewrite split_join_pieces by (done || apply goodSep_mul).
  cbn [length Nat.leb classifyParts].
  apply Forall_cons in Hps as [H1 [H2 [H3 _]%Forall_cons]%Forall_cons].
  rewrite (not_rule (a ++ js " : p")), (not_rule (js "0 + c")), (not_rule (js "0")); [done|done| |done| |done|];
    apply not_a_factor; try done. by destruct a.
Qed.

Lemma generated_facts tiers : tiers <> [] -> Forall editable tiers -> baseFacts (generateExprFromVisualConfig (Some tiers)).
Proof.
  intros Hne Hed. assert (Hwf := partsOf_wf tiers (editable_wf _ Hed)). assert (Hl := partsOf_labels tiers Hed).
  destruct (generated_text tiers Hne) as (p & ps & s & Eps & E & Hs). rewrite Eps in *.
  destruct (parts_head p ps s) as (x & t & Ex & Hx). destruct (parts_last p ps Hwf Hl) as [t' Et].
  assert (Hxw : is_ws x = false /\ x <> u "(").
  { repeat (apply elem_of_cons in Hx as [->|Hx]); try done. by apply elem_of_nil in Hx. }
  assert (Hlast : exists t y, generateExprFromVisualConfig (Some tiers) = t ++ [y] /\ y <> u "1" /\ is_ws y = false).
  { rewrite E. destruct Hs as [->| ->].
    - rewrite app_nil_r, Et. by exists t', (u ")").
    - exists (joined (p :: ps) ++ js " : p * 0 + c * "), (u "0"). rewrite <- app_assoc. by split. }
  destruct Hlast as (t2 & y & Ey & Hy & Hyw). assert (Hw := parts_whole p ps Hwf Hl).
  assert (Ho : forall x t, x <> u "(" -> starts_with (js "(") (x :: t) = false).
  { intros x0 t0 H0. change (js "(") with [u "("]. cbn [starts_with]. by rewrite (proj2 (N.eqb_neq _ _)) by congruence. }
  assert (Htr : trimmed (generateExprFromVisualConfig (Some tiers)) = true).
  { rewrite E, Ex. eapply trimmed_between; [apply Hxw|exact Hyw|]. rewrite <- Ex, <- E. exact Ey. }
  split; [by rewrite E, Ex|done| |rewrite E, Ex; by apply Ho, Hxw|by exists t2, y|].
  - rewrite E. apply balanced_app; [|by destruct Hs as [->| ->]]. apply balanced_join; [done|].
    apply Forall_fmap, Forall_forall. intros q Hq. rewrite Forall_forall in Hwf, Hl. by apply part_balanced; [apply Hwf|apply Hl].
  - rewrite E in Htr |- *. destruct (parts_head p ps []) as (x3 & t3 & Ex3 & Hx3). rewrite app_nil_r in Ex3.
    assert (Hx3w : is_ws x3 = false /\ x3 <> u "(").
    { repeat (apply elem_of_cons in Hx3 as [->|Hx3]); try done. by apply elem_of_nil in Hx3. }
    destruct Hs as [->| ->].
    + rewrite app_nil_r in *. apply split_one, piece_of_whole; [by rewrite Ex3|done|done].
    + apply split_zero; [by rewrite Ex3|done|rewrite Ex3; by apply Ho, Hx3w|].
      change (js " : p") with (js " : " ++ [u "p"]). rewrite Ex3. cbn [app]. rewrite app_assoc. apply trimmed_ends; [apply Hx3w|done].
Qed.

Lemma unwrap_open base : trimmed base = true -> starts_with (js "(") base = false -> unwrapOuterParens base = base.
Proof.
  intros Ht Ho. unfold unwrapOuterParens. rewrite trimmed_trim by done. destruct (length base); [done|].
  cbn [unwrapLoop]. unfold hasFullOuterParens. by rewrite Ho.
Qed.

Lemma wrapped_not_rule base : baseFacts base -> tryParseRequestRuleExpr (u "(" :: base ++ [u ")"]) = Ret None.
Proof.
  intros Hb. apply not_rule; [apply piece_factor; [apply goodSep_mul|apply Hb]|].
  destruct (rmatch _ _) as [c|] eqn:E; [|done]. apply factor_ends in E as [t Et].
  destruct (base_close _ Hb) as (t' & y & -> & Hy). change (js " : 1)") with (js " : " ++ [u "1"] ++ [u ")"]) in Et.
  rewrite !app_assoc, app_comm_cons in Et. apply app_inj_tail in Et as [Et _].
  rewrite !app_comm_cons in Et. apply app_inj_tail in Et as [_ ->]. done.
Qed.

(** Saving both parts and splitting again gives both parts back. *)
Lemma split_saved base gs : baseFacts base -> Forall (fun g => wfGroup g = true) gs ->
  splitBillingExprAndRequestRules (combineBillingExpr base (buildRequestRuleExpr gs))
  = Ret {| billingExpr := base; requestRuleExpr := buildRequestRuleExpr gs |}.
Proof.
  intros Hb Hgs. destruct gs as [|g gs].
  - unfold combineBillingExpr. rewrite trimmed_trim by apply Hb. rewrite (proj2 (truthy_str_spec base)) by apply Hb.
    apply Hb.
  - rewrite split_combine; [|apply Hb..|by apply wrapped_not_rule|done|done]. by rewrite unwrap_open by apply Hb.
Qed.

(** ** The entries of a tier *)

Definition positivePrice (p : jstr * number) : bool := num_is_finite p.2 && negb (num_leb p.2 num_zero).

Section Entries.
Context (formatCurrency : number -> CurrencyOptions -> jstr) (options : DynamicPriceOptions).
Let entry := entryOf formatCurrency options.
Let shown (e : DynamicPriceEntry) : jstr * number := (e_field e, e_value e).

Definition varField (v : BillingVar) : jstr := default [] (bv_field v).

Lemma entryOf_cases tier v : truthy_str (varField v) = true ->
  map shown (entry tier v) = List.filter positivePrice [(varField v, tierPrice tier (varField v))].
Proof.
  unfold entry, entryOf, varField. destruct (bv_field v) as [f|]; [|done]. simpl. intros ->. simpl. unfold positivePrice. simpl.
  by destruct (num_is_finite _), (num_leb _ _).
Qed.

Lemma entries_shown tier vs : Forall (fun v => truthy_str (varField v) = true) vs ->
  map shown (concat (map (entry tier) vs))
  = List.filter positivePrice (map (fun v => (varField v, tierPrice tier (varField v))) vs).
Proof.
  induction 1 as [|v vs Hv _ IH]; [done|]. cbn [map concat]. rewrite map_app, entryOf_cases, IH by done.
  simpl. by destruct (positivePrice _).
Qed.

(** Variables listed with the primary ones first give entries in that order. *)
Definition primaryBefore (v w : BillingVar) : Prop := isPrimary (varField w) = true -> isPrimary (varField v) = true.

Lemma entries_from tier v e : e ∈ entry tier v -> e_field e = varField v.
Proof.
  unfold entry, entryOf, varField. destruct (bv_field v) as [f|]; [|by intros ?%elem_of_nil]. cbv zeta.
  destruct (truthy_str f); simpl; [|by intros ?%elem_of_nil].
  destruct (negb _ || _); [by intros ?%elem_of_nil|]. by intros ->%list_elem_of_singleton.
Qed.

Lemma entries_sorted tier vs : StronglySorted primaryBefore vs ->
  StronglySorted (cmp_le primaryFirst) (concat (map (entry tier) vs)).
Proof.
  induction 1 as [|v vs Hvs IH Hv]; [constructor|]. cbn [map concat].
  assert (Hc : forall e, e ∈ entry tier v -> Forall (cmp_le primaryFirst e) (concat (map (entry tier) vs))).
  { intros e He%entries_from. apply Forall_forall. intros e' (l & Hl & He')%list_elem_of_In%in_concat.
    apply in_map_iff in Hl as (w & <- & Hw). rewrite List.Forall_forall in Hv. specialize (Hv w Hw).
    apply list_elem_of_In, entries_from in He'. unfold cmp_le, primaryFirst, primaryBefore in *. rewrite He, He'.
    destruct (isPrimary (varField v)), (isPrimary (varField w)); simpl; lia || by specialize (Hv eq_refl). }
  assert (Hone : entry tier v = [] \/ exists e, entry tier v = [e]).
  { unfold entry, entryOf. destruct (bv_field v); [|by left]. cbv zeta. repeat (case_if; [by left|]). right. by eexists. }
  destruct Hone as [->|[e He]]; [done|]. rewrite He in *. cbn [app]. constructor; [done|]. apply Hc. left.
Qed.

(** The display shows exactly the positive prices of the first tier. *)
Lemma shown_entries label cs tier :
  map shown (getDynamicPriceEntries formatCurrency (Some (shownTier label cs tier)) options)
  = List.filter positivePrice (tierPrices tier).
Proof.
  unfold getDynamicPriceEntries. rewrite sort_by_id.
  - rewrite entries_shown by (by repeat constructor). f_equal.
  - apply entries_sorted. repeat (constructor; [|repeat constructor; by intros ?]). constructor.
Qed.
End Entries.

(** ** The cheapest group *)

(** The ratios of the groups of a model that have one. *)
Definition enabledRatios (groups : list jstr) (ratios : list (jstr * number)) : list number :=
  omap (fun g => ratioOf g ratios) groups.

Lemma min_fold ratios groups : forall m,
  let r := foldl (minStep ratios) m groups in
  (r = m \/ r ∈ enabledRatios groups ratios) /\
  (forall x, x ∈ enabledRatios groups ratios -> num_ltb x r = false) /\ (r = m \/ num_ltb r m = true).
Proof.
  induction groups as [|g groups IH]; intros m; cbv zeta.
  - split_and!; [by left|by intros x ?%elem_of_nil|by left].
  - cbn [foldl]. destruct (IH (minStep ratios m g)) as (H1 & H2 & H3). set (r := foldl _ _ groups) in *.
    assert (E : enabledRatios (g :: groups) ratios
      = match ratioOf g ratios with Some x => x :: enabledRatios groups ratios | None => enabledRatios groups ratios end) by done.
    rewrite E. clear E. clearbody r. unfold minStep in *.
    destruct (ratioOf g ratios) as [x|] eqn:Ex; [|by split_and!]. destruct (num_ltb x m) eqn:Elt.
    + split_and!; [destruct H1 as [->|?]; right; [left|by right]| |].
      * intros y [->|Hy]%elem_of_cons; [|by apply H2].
        destruct (num_ltb x r) eqn:E; [|done]. destruct H3 as [->|H3].
        -- by rewrite num_ltb_irrefl in E.
        -- assert (Hx := num_ltb_trans _ _ _ E H3). by rewrite num_ltb_irrefl in Hx.
      * right. destruct H3 as [->|H3]; [done|]. by eapply num_ltb_trans.
    + split_and!; [destruct H1; [by left|right; by right]| |done].
      intros y [->|Hy]%elem_of_cons; [|by apply H2]. destruct (num_ltb x r) eqn:E; [|done].
      rewrite <- Elt. destruct H3 as [->|H3]; [done|]. symmetry. by eapply num_ltb_trans.
Qed.

(** ** Filters *)

Section FilterFacts.
Context (toLowerCase : jstr -> jstr) (localeCompare : jstr -> jstr -> Z).

(** A filter that is off, or a test of one model. *)
Definition orAll (filter : jstr) (keeps : bool) : bool := (filter === FILTER_ALL) || keeps.

(** A model passes every filter. *)
Definition passes (f : CatalogueFilters) (m : PricingModel) : bool :=
  (negb (truthy_str (f_search f)) || matchesSearch toLowerCase (f_search f) m) &&
  orAll (f_vendor f) (vendor_name m === Some (f_vendor f)) &&
  orAll (f_group f) (listIncludes (f_group f) (default [] (enable_groups m))) &&
  orAll (f_quotaType f) (quota_type m =? (if f_quotaType f === QUOTA_TOKEN then TOKEN else REQUEST))%Z &&
  orAll (f_endpointType f) (listIncludes (f_endpointType f) (default [] (supported_endpoint_types m))) &&
  orAll (f_tag f) (hasTag toLowerCase (f_tag f) m).

Lemma filter_or {A} (b : bool) (p q : A -> bool) l :
  (forall x, p x = q x) -> (if b then l else List.filter p l) = List.filter (fun x => b || q x) l.
Proof.
  intros Hpq. destruct b; simpl; [|by apply filter_ext].
  induction l as [|x l IH]; simpl; [done|]. by rewrite <- IH.
Qed.

Lemma filter_filter {A} (p q : A -> bool) l : List.filter q (List.filter p l) = List.filter (fun x => p x && q x) l.
Proof.
  induction l as [|x l IH]; simpl; [done|]. destruct (p x); simpl; [|done]. destruct (q x); by rewrite IH.
Qed.

Lemma sortModels_perm models sortBy : Permutation (sortModels localeCompare models sortBy) models.
Proof. unfold sortModels. repeat case_bool_decide; try apply sort_by_perm. done. Qed.

Lemma filter_stages models f :
  filterByTag toLowerCase (filterByEndpointType (filterByQuotaType (filterByGroup (filterByVendor
    (filterBySearch toLowerCase models (f_search f)) (f_vendor f)) (f_group f)) (f_quotaType f)) (f_endpointType f)) (f_tag f)
  = List.filter (passes f) models.
Proof.
  assert (Hs : filterBySearch toLowerCase models (f_search f)
    = List.filter (fun m => negb (truthy_str (f_search f)) || matchesSearch toLowerCase (f_search f) m) models).
  { unfold filterBySearch. rewrite <- (filter_or _ (matchesSearch toLowerCase (f_search f))) by done. by destruct (truthy_str _). }
  rewrite Hs. unfold filterByTag, filterByEndpointType, filterByQuotaType, filterByGroup, filterByVendor. cbv zeta.
  rewrite (filter_or (f_vendor f === FILTER_ALL) _ (fun m => vendor_name m === Some (f_vendor f))) by done.
  rewrite (filter_or (f_group f === FILTER_ALL) _ (fun m => listIncludes (f_group f) (default [] (enable_groups m))))
    by (intros m; by destruct (enable_groups m)).
  rewrite (filter_or (f_quotaType f === FILTER_ALL) _
    (fun m => quota_type m =? (if f_quotaType f === QUOTA_TOKEN then TOKEN else REQUEST))%Z) by done.
  rewrite (filter_or (f_endpointType f === FILTER_ALL) _
    (fun m => listIncludes (f_endpointType f) (default [] (supported_endpoint_types m)))) by (intros m; by destruct (supported_endpoint_types m)).
  rewrite (filter_or (f_tag f === FILTER_ALL) _ (hasTag toLowerCase (f_tag f))) by done.
  rewrite !filter_filter. apply filter_ext. intros m. unfold passes, orAll. by rewrite <- !andb_assoc.
Qed.

Lemma listIncludes_spec x l : listIncludes x l = true <-> x ∈ l.
Proof.
  unfold listIncludes. rewrite existsb_exists, list_elem_of_In. split.
  - intros (y & Hy & ->%bool_decide_eq_true). done.
  - intros H. exists x. by rewrite bool_decide_eq_true.
Qed.

Lemma extracted_tag models tag :
  tag ∈ extractAllTags toLowerCase localeCompare models <->
  exists m, m ∈ models /\ truthy_str (default [] (tags m)) = true /\ tag ∈ map toLowerCase (parseTags (tags m)).
Proof.
  unfold extractAllTags. rewrite sort_by_elem, set_from_elem, list_elem_of_In, in_concat. split.
  - intros (l & (m & <- & Hm)%in_map_iff & Ht). exists m. destruct (truthy_str _); [|done].
    split_and!; [by apply list_elem_of_In|done|by apply list_elem_of_In].
  - intros (m & Hm & Htr & Ht). exists (map toLowerCase (parseTags (tags m))). rewrite in_map_iff. split; [|by apply list_elem_of_In].
    exists m. rewrite Htr. split; [done|by apply list_elem_of_In].
Qed.
End FilterFacts.

(** ** Properties *)

(** [C5] End to end: a model billed by what the tier editor and the rule editor
    save together is displayed with exactly the saved tiers, conditions and
    prices.  The tiers are at least one and editable: labels without double
    quotes and with balanced parentheses, finite prices that their printed text
    reads back to, condition values of digits, points, exponents and plus signs.
    The rules are any number of well-formed groups ([wfGroup], as for the split:
    numeric comparisons and containment on a request parameter excluded, since
    their text does not split).  The split recovers the two parts from the
    combined text although both are written with [*] and parentheses; the display
    shows as many tiers as were saved, says whether there are request rules,
    never calls the expression special, and its entries are the positive prices
    of the first tier in the order of the pricing variables. *)
Theorem saved_prices_are_shown formatCurrency options model t ts gs :
  Forall editable (t :: ts) -> Forall (fun g => wfGroup g = true) gs ->
  billing_mode model = Some (js "tiered_expr") ->
  billing_expr model = Some (combineBillingExpr (generateExprFromVisualConfig (Some (t :: ts))) (buildRequestRuleExpr gs)) ->
  exists s, getDynamicPricingSummary formatCurrency model options = Ret (Some s) /\
    s_tiers s = map showPart (partsOf (t :: ts)) /\
    s_tierCount s = length (t :: ts) /\
    s_hasRequestRules s = negb (length gs =? 0)%nat /\
    s_isSpecialExpression s = false /\
    map (fun e => (e_field e, e_value e)) (s_entries s) = List.filter positivePrice (tierPrices t).
Proof.
  intros Hed Hgs Hmode Hexpr. assert (Hb := generated_facts (t :: ts) ltac:(done) Hed).
  assert (Hsplit := split_saved _ gs Hb Hgs). set (base := generateExprFromVisualConfig _) in *.
  assert (Hdyn : isDynamicPricingModel model = true).
  { unfold isDynamicPricingModel. rewrite Hmode, Hexpr. rewrite bool_decide_true by done. simpl.
    destruct (combineBillingExpr _ _) eqn:E; [|done]. exfalso. revert Hsplit. unfold splitBillingExprAndRequestRules. simpl.
    intros [= Hbase]. by destruct (base_nonempty _ Hb). }
  assert (Htiers : getDynamicPricingTiers model = Ret (map showPart (partsOf (t :: ts)))).
  { unfold getDynamicPricingTiers. rewrite Hdyn, Hexpr. cbn [negb default from_option id]. rewrite Hsplit. cbn [obind billingExpr].
    unfold base. rewrite parse_generated; [done|done|by apply editable_wf]. }
  assert (Hrules : hasDynamicRequestRules model = Ret (negb (length gs =? 0)%nat)).
  { unfold hasDynamicRequestRules. rewrite Hdyn, Hexpr. cbn [negb default from_option id]. rewrite Hsplit. cbn [obind requestRuleExpr].
    rewrite parse_rules_aux by done. by destruct gs. }
  assert (Hlen : length (partsOf (t :: ts)) = length (t :: ts)).
  { destruct ts as [|t' ts']; [done|]. cbn [partsOf]. rewrite length_map, length_zip, length_seq. lia. }
  unfold getDynamicPricingSummary. rewrite Hdyn, Htiers, Hrules. cbn [negb obind]. eexists. split; [reflexivity|]. cbn [s_tiers s_tierCount
    s_hasRequestRules s_isSpecialExpression s_entries]. rewrite length_map, Hlen. split_and!; [done..|by rewrite andb_false_r|].
  assert (Hh : exists name cs, head (map showPart (partsOf (t :: ts))) = Some (shownTier name cs t)).
  { destruct ts; by do 2 eexists. }
  destruct Hh as (name & cs & ->). apply shown_entries.
Qed.

Lemma saved_prices_are_shown_witness :
  let cond := {| ci_var := VarLen; ci_op := OpLe; ci_value := inr (js "2e5") |} in
  let tier l cs i o := {| vt_label := l; vt_conditions := cs; vt_input := num_of_str (js i); vt_output := num_of_str (js o);
    vt_cache_mode := Generic; vt_extra := [] |} in
  let tiers := [tier (js "std (x)") [cond] "2.5"%string "15"%string; tier [] [] "5"%string "0"%string] in
  let expr := combineBillingExpr (generateExprFromVisualConfig (Some tiers)) (buildRequestRuleExpr sampleGroups) in
  let model := mkModel (js "m") None None 0 num_zero num_zero None None None None None None None None None None
    (Some (js "tiered_expr")) (Some expr) in
  exists s, getDynamicPricingSummary (fun n _ => num_to_str n) model (mkDynamicOptions UnitM None None None None) = Ret (Some s) /\
    s_tierCount s = 2%nat /\ s_hasRequestRules s = true.
Proof.
  intros cond tier tiers expr model.
  destruct (saved_prices_are_shown (fun n _ => num_to_str n) (mkDynamicOptions UnitM None None None None) model
    (tier (js "std (x)") [cond] "2.5"%string "15"%string) [tier [] [] "5"%string "0"%string] sampleGroups)
    as (s & H1 & _ & H2 & H3 & _).
  - repeat (apply List.Forall_cons || apply List.Forall_nil || split); vm_compute; reflexivity.
  - repeat constructor.
  - reflexivity.
  - reflexivity.
  - exists s. split; [exact H1|]. split; [exact H2|exact H3].
Defined.

(** The price of a model in the catalogue is that of its cheapest group:
    the group ratio is the ratio of an enabled group, no enabled group has a
    smaller one, and it is 1 exactly when no enabled group has a ratio below
    infinity.  The expression display uses the same ratio. *)
Theorem catalogue_ratio_is_cheapest groups ratios :
  let r := getMinGroupRatio groups ratios in
  ((exists x, x ∈ enabledRatios groups ratios /\ num_ltb x num_inf = true) ->
     r ∈ enabledRatios groups ratios /\ (forall x, x ∈ enabledRatios groups ratios -> num_ltb x r = false)) /\
  ((forall x, x ∈ enabledRatios groups ratios -> num_ltb x num_inf = false) -> r = num_of_Z 1) /\
  (forall model, modelGroups model = groups -> modelRatios model = ratios -> getDynamicDisplayGroupRatio model = r).
Proof.
  cbv zeta. destruct (min_fold ratios groups num_inf) as (H1 & H2 & H3). split_and!.
  - intros (x & Hx & Hlt). unfold getMinGroupRatio. destruct groups as [|g gs]; [by apply elem_of_nil in Hx|].
    set (r := foldl _ _ _) in *. destruct H3 as [->|H3]; [by rewrite H2 in Hlt|].
    assert (num_eqb r num_inf = false) as -> by (revert H3; by destruct r as [|[]| |[]]).
    destruct H1 as [->|H1]; [by rewrite num_ltb_irrefl in H3|done].
  - intros Hnone. unfold getMinGroupRatio. destruct groups as [|g gs]; [done|]. set (r := foldl _ _ _) in *.
    assert (r = num_inf) as -> by (destruct H3 as [->|H3]; [done|]; destruct H1 as [->|H1]; [done|]; by rewrite Hnone in H3).
    done.
  - intros model <- <-. unfold getDynamicDisplayGroupRatio, getMinGroupRatio. by destruct (modelGroups model).
Qed.

(** The catalogue view is the models that pass every filter, reordered:
    nothing is lost, duplicated or invented, whatever the sort. *)
Theorem filterAndSortModels_exact toLowerCase localeCompare models f :
  Permutation (filterAndSortModels toLowerCase localeCompare models f) (List.filter (passes toLowerCase f) models).
Proof. unfold filterAndSortModels. cbv zeta. rewrite sortModels_perm. by rewrite filter_stages. Qed.

(** Every tag the catalogue offers selects something: filtering by a tag of
    [extractAllTags] keeps at least one model, provided lower-casing twice is
    lower-casing once (as Unicode case mapping promises) and the tag is not the
    word [all], which switches the filter off. *)
Theorem offered_tag_selects toLowerCase localeCompare models tag :
  (forall s, toLowerCase (toLowerCase s) = toLowerCase s) ->
  tag ∈ extractAllTags toLowerCase localeCompare models -> filterByTag toLowerCase models tag <> [].
Proof.
  intros Hidem (m & Hm & Htr & Ht)%extracted_tag. unfold filterByTag. case_bool_decide; [by intros ->; apply elem_of_nil in Hm|].
  intros E. assert (Hin : In m (List.filter (hasTag toLowerCase tag) models)); [|by rewrite E in Hin].
  apply filter_In. split; [by apply list_elem_of_In|]. unfold hasTag. rewrite Htr. apply listIncludes_spec.
  apply list_elem_of_fmap in Ht as (s & -> & Hs). rewrite Hidem. by apply list_elem_of_fmap_2.
Qed.

Lemma offered_tag_selects_witness :
  let model := mkModel (js "m") None None 0 num_zero num_zero None None None None None None None (Some (js "fast; vision"))
    None None None None in
  filterByTag (fun s => s) [model] (js "vision") <> [].
Proof.
  intros model. apply (offered_tag_selects (fun s => s) (fun _ _ => 0%Z)); [reflexivity|].
  apply (bool_decide_unpack _). vm_compute. exact I.
Defined.

(** A group whose ratio is 0 is priced as if its ratio were 1 when the group is
    chosen, and as free when it is the cheapest group of the model. *)
Example free_group_shown_twice :
  let model := mkModel (js "m") None None 0 (num_of_Z 3) (num_of_Z 1) None None None None None None (Some [js "free"]) None None
    (Some [(js "free", num_zero)]) None None in
  formatGroupPrice (fun n _ => num_to_str n) model (js "free") PInput UnitM false (num_of_Z 1) (num_of_Z 1) [(js "free", num_zero)] = js "6" /\
  formatPrice (fun n _ => num_to_str n) model PInput UnitM false (num_of_Z 1) (num_of_Z 1) = js "0".
Proof. vm_compute. split; reflexivity. Qed.
