(* ===== verification/ParamOverride.v ===== *)
(** * Parameter override rules (param-override-editor-dialog.tsx)

    A channel may rewrite requests with a list of operations kept as JSON.
    The dialog edits them as records with text fields; this file models the
    records, the tables by mode, reading the stored JSON, the two structured
    values ([return_error] and [prune_objects]), validation and writing.  The
    dialog's state and handlers are in ParamOverrideEditor.

    Identifiers are [po_<time>_<counter>]: the counter is threaded through
    every operation that creates records, and the time of the [n]-th
    identifier is the parameter [clock]. *)
From stdpp Require Import prelude list strings.
From S2P Require Import Prelude JsString JsNumber JsValue JsonText.
Open Scope js_scope.

(** ** Creating records *)

(** A computation that draws identifiers and may throw. *)
Definition gen (A : Type) : Type := nat -> outcome (A * nat).
Definition gret {A} (a : A) : gen A := fun seed => Ret (a, seed).
Definition glift {A} (m : outcome A) : gen A := fun seed => a <-- m ;; Ret (a, seed).
Definition gbind {A B} (m : gen A) (k : A -> gen B) : gen B := fun seed => p <-- m seed ;; k p.1 p.2.
Notation "x <~ m ;; k" := (gbind m (fun x => k)) (at level 100, m at next level, right associativity).

(** [xs.map(f)] *)
Fixpoint gmap {A B} (f : A -> gen B) (xs : list A) : gen (list B) :=
  match xs with
  | [] => gret []
  | x :: xs' => y <~ f x ;; ys <~ gmap f xs' ;; gret (y :: ys)
  end.

(** ** Data *)

Record ParamOverrideCondition := mkPoCondition {
  c_id : jstr; c_path : jstr; c_mode : jstr; c_value_text : jstr; c_invert : bool; c_pass_missing_key : bool }.

Record ParamOverrideOperation := mkPoOperation {
  o_id : jstr; o_description : jstr; o_path : jstr; o_mode : jstr; o_from : jstr; o_to : jstr; o_value_text : jstr;
  o_keep_origin : bool; o_logic : jstr; o_conditions : list ParamOverrideCondition }.

(** ** Tables by mode *)

Definition OPERATION_MODE_OPTIONS : list (jstr * jstr) :=
  map (fun p => (js p.1, js p.2))
  [("set", "Set Field"); ("delete", "Delete Field"); ("append", "Append to End"); ("prepend", "Prepend to Start");
   ("copy", "Copy Field"); ("move", "Move Field"); ("replace", "String Replace"); ("regex_replace", "Regex Replace");
   ("trim_prefix", "Trim Prefix"); ("trim_suffix", "Trim Suffix"); ("ensure_prefix", "Ensure Prefix");
   ("ensure_suffix", "Ensure Suffix"); ("trim_space", "Trim Space"); ("to_lower", "To Lowercase");
   ("to_upper", "To Uppercase"); ("return_error", "Return Custom Error"); ("prune_objects", "Prune Object Items");
   ("pass_headers", "Pass Through Headers"); ("sync_fields", "Sync Fields"); ("set_header", "Set Request Header");
   ("delete_header", "Delete Request Header"); ("copy_header", "Copy Request Header");
   ("move_header", "Move Request Header")]%string.

Definition oneOf (l : list jstr) (s : jstr) : bool := existsb (fun x => s === x) l.

Definition OPERATION_MODE_VALUES : list jstr := map fst OPERATION_MODE_OPTIONS.

Fixpoint labelOf (mode : jstr) (l : list (jstr * jstr)) : option jstr :=
  match l with [] => None | (v, label) :: l' => if mode === v then Some label else labelOf mode l' end.

Definition OPERATION_MODE_LABEL_MAP (mode : jstr) : option jstr := labelOf mode OPERATION_MODE_OPTIONS.

Definition CONDITION_MODE_VALUES : list jstr :=
  map js ["full"; "prefix"; "suffix"; "contains"; "gt"; "gte"; "lt"; "lte"]%string.

(** Which fields a mode has. *)
Record ModeMeta := mkMeta {
  m_path : bool; m_pathOptional : bool; m_value : bool; m_from : bool; m_to : bool; m_keepOrigin : bool; m_pathAlias : bool }.

Definition metaPath : ModeMeta := mkMeta true false false false false false false.
Definition metaPathValue : ModeMeta := mkMeta true false true false false false false.
Definition metaSet : ModeMeta := mkMeta true false true false false true false.
Definition metaFromTo : ModeMeta := mkMeta false false false true true false false.
Definition metaReplace : ModeMeta := mkMeta true false false true false false false.
Definition metaHeaders : ModeMeta := mkMeta false false false true true true true.

Definition MODE_META_TABLE : list (jstr * ModeMeta) :=
  map (fun p => (js p.1, p.2))
  [("delete", metaPath); ("set", metaSet); ("append", metaSet); ("prepend", metaSet); ("copy", metaFromTo);
   ("move", metaFromTo); ("replace", metaReplace); ("regex_replace", metaReplace); ("trim_prefix", metaPathValue);
   ("trim_suffix", metaPathValue); ("ensure_prefix", metaPathValue); ("ensure_suffix", metaPathValue);
   ("trim_space", metaPath); ("to_lower", metaPath); ("to_upper", metaPath);
   ("return_error", mkMeta false false true false false false false);
   ("prune_objects", mkMeta false true true false false false false);
   ("pass_headers", mkMeta false false true false false true false); ("sync_fields", metaFromTo);
   ("set_header", metaSet); ("delete_header", metaPath); ("copy_header", metaHeaders); ("move_header", metaHeaders)]%string.

Fixpoint metaIn (mode : jstr) (l : list (jstr * ModeMeta)) : option ModeMeta :=
  match l with [] => None | (v, m) :: l' => if mode === v then Some m else metaIn mode l' end.

(** [MODE_META[mode] || MODE_META.set] *)
Definition MODE_META (mode : jstr) : ModeMeta := default metaSet (metaIn mode MODE_META_TABLE).

Definition VALUE_REQUIRED_MODES : list jstr :=
  map js ["trim_prefix"; "trim_suffix"; "ensure_prefix"; "ensure_suffix"; "set_header"; "return_error"; "prune_objects";
          "pass_headers"]%string.
Definition FROM_REQUIRED_MODES : list jstr :=
  map js ["copy"; "move"; "replace"; "regex_replace"; "copy_header"; "move_header"; "sync_fields"]%string.
Definition TO_REQUIRED_MODES : list jstr := map js ["copy"; "move"; "copy_header"; "move_header"; "sync_fields"]%string.

(** ** Values as text *)

Definition toValueText (value : jsval) : jstr :=
  match value with
  | VUndef => []
  | VStr s => s
  | _ => default [] (json_stringify value)
  end.

Definition parseLooseValue (valueText : jstr) : jsval :=
  let raw := trim valueText in
  match raw with
  | [] => VStr []
  | _ => match json_parse raw with Some v => v | None => VStr raw end
  end.

Definition verifyJSON (text : jstr) : bool := match json_parse text with Some _ => true | None => false end.

(** [typeof v === 'string' ? v : ''] *)
Definition strOrEmpty (v : jsval) : jstr := match v with VStr s => s | _ => [] end.

(** [allowed.has(v) ? v : d] *)
Definition modeOr (allowed : list jstr) (v : jsval) (d : jstr) : jstr :=
  match v with VStr s => if oneOf allowed s then s else d | _ => d end.

(** Case conversion on the ASCII letters.  The results are compared with [AND],
    [OR] and [header], to which no other character converts. *)
Definition upperAscii (c : N) : N := if ((97 <=? c) && (c <=? 122))%N then (c - 32)%N else c.
Definition lowerAsciiUnit (c : N) : N := if ((65 <=? c) && (c <=? 90))%N then (c + 32)%N else c.

(** [String(v || d)] *)
Definition stringOr (v : jsval) (d : jstr) : jstr := if truthy v then js_String v else d.

(** ** Reading stored records *)

(** [o.k] *)
Notation "o .{ k }" := (get_prop (js k%string) o) (at level 2, format "o .{ k }").

Section Ids.
Context (clock : nat -> Z).

Definition localId (seed : nat) : jstr := js "po_" ++ print_int (clock seed) ++ js "_" ++ print_int (Z.of_nat seed).
Definition nextLocalId : gen jstr := fun seed => Ret (localId seed, S seed).

(** The record read from a stored condition, under an identifier. *)
Definition readCondition (id : jstr) (condition : jsval) : outcome ParamOverrideCondition :=
  path <-- prop condition (js "path") ;;
  mode <-- prop condition (js "mode") ;;
  value <-- prop condition (js "value") ;;
  invert <-- prop condition (js "invert") ;;
  pass_missing_key <-- prop condition (js "pass_missing_key") ;;
  Ret {| c_id := id; c_path := strOrEmpty path; c_mode := modeOr CONDITION_MODE_VALUES mode (js "full");
         c_value_text := toValueText value; c_invert := isTrue invert; c_pass_missing_key := isTrue pass_missing_key |}.

Definition normalizeCondition (condition : jsval) : gen ParamOverrideCondition :=
  id <~ nextLocalId ;; glift (readCondition id condition).

Definition createDefaultCondition : gen ParamOverrideCondition := normalizeCondition (VObj []).

Definition readOperation (id : jstr) (operation : jsval) (conditions : list ParamOverrideCondition)
  : outcome ParamOverrideOperation :=
  description <-- prop operation (js "description") ;;
  path <-- prop operation (js "path") ;;
  mode <-- prop operation (js "mode") ;;
  value <-- prop operation (js "value") ;;
  keep_origin <-- prop operation (js "keep_origin") ;;
  from <-- prop operation (js "from") ;;
  to <-- prop operation (js "to") ;;
  logic <-- prop operation (js "logic") ;;
  Ret {| o_id := id; o_description := strOrEmpty description; o_path := strOrEmpty path;
         o_mode := modeOr OPERATION_MODE_VALUES mode (js "set"); o_from := strOrEmpty from; o_to := strOrEmpty to;
         o_value_text := toValueText value; o_keep_origin := isTrue keep_origin;
         o_logic := if map upperAscii (stringOr logic (js "OR")) === js "AND" then js "AND" else js "OR";
         o_conditions := conditions |}.

Definition normalizeOperation (operation : jsval) : gen ParamOverrideOperation :=
  id <~ nextLocalId ;;
  conditions <~ glift (prop operation (js "conditions")) ;;
  conds <~ (match conditions with VArr items => gmap normalizeCondition items | _ => gret [] end) ;;
  glift (readOperation id operation conds).

Definition createDefaultOperation : gen ParamOverrideOperation := normalizeOperation (VObj [(js "mode", VStr (js "set"))]).

(** ** Order and blank rules *)

Inductive DropPosition := Before | After.

Fixpoint findIndex {A} (p : A -> bool) (l : list A) : option nat :=
  match l with [] => None | x :: l' => if p x then Some 0%nat else S <$> findIndex p l' end.

Definition hasId (id : jstr) (o : ParamOverrideOperation) : bool := o_id o === id.

(** [splice(i, 1)] then [splice(j, 0, moved)]. *)
Definition reorderOperations (ops : list ParamOverrideOperation) (sourceId targetId : jstr) (position : DropPosition)
  : list ParamOverrideOperation :=
  if negb (truthy_str sourceId) || negb (truthy_str targetId) || (sourceId === targetId) then ops
  else match findIndex (hasId sourceId) ops with
       | None => ops
       | Some srcIdx =>
           match ops !! srcIdx with
           | None => ops
           | Some moved =>
               let next := take srcIdx ops ++ drop (S srcIdx) ops in
               match findIndex (hasId targetId) next with
               | None => ops
               | Some i => let insertIdx := match position with After => (i + 1)%nat | Before => i end in
                           take insertIdx next ++ moved :: drop insertIdx next
               end
           end
       end.

Definition conditionUsed (c : ParamOverrideCondition) : bool :=
  truthy_str (trim (c_path c)) || truthy_str (trim (c_value_text c)) || negb (c_mode c === js "full") || c_invert c ||
  c_pass_missing_key c.

Definition isOperationBlank (operation : ParamOverrideOperation) : bool :=
  (o_mode operation === js "set") && negb (truthy_str (trim (o_path operation))) &&
  negb (truthy_str (trim (o_from operation))) && negb (truthy_str (trim (o_to operation))) &&
  (trim (o_value_text operation) === []) && negb (o_keep_origin operation) &&
  negb (existsb conditionUsed (o_conditions operation)).

(** [operation.mode || 'set'] *)
Definition modeOf (operation : ParamOverrideOperation) : jstr := str_or (o_mode operation) (js "set").

Definition getOperationSummary (operation : ParamOverrideOperation) (index : Z) : jstr :=
  let mode := modeOf operation in
  let modeLabel := match OPERATION_MODE_LABEL_MAP mode with Some l => str_or l mode | None => mode end in
  let from := trim (o_from operation) in
  let to := trim (o_to operation) in
  let number := print_int (index + 1) ++ js ". " ++ modeLabel ++ js " " ++ 183%N :: js " " in
  if mode === js "sync_fields" then number ++ str_or from (str_or to (js "-"))
  else number ++ str_or (trim (o_path operation)) (str_or from (str_or to (js "-"))).

(** ** Targets of [sync_fields] *)

Inductive SyncType := SyncJson | SyncHeader.
Record SyncTarget := mkSync { sy_type : SyncType; sy_key : jstr }.

Definition parseSyncTargetSpec (spec : jstr) : SyncTarget :=
  let raw := trim spec in
  if negb (truthy_str raw) then mkSync SyncJson []
  else match index_of (js ":") raw with
       | None => mkSync SyncJson raw
       | Some idx =>
           let prefix := map lowerAsciiUnit (trim (take idx raw)) in
           let key := trim (drop (idx + 1) raw) in
           if prefix === js "header" then mkSync SyncHeader key else mkSync SyncJson key
       end.

Definition buildSyncTargetSpec (type : SyncType) (key : jstr) : jstr :=
  let normalizedType := match type with SyncHeader => js "header" | SyncJson => js "json" end in
  let normalizedKey := trim key in
  if negb (truthy_str normalizedKey) then [] else normalizedType ++ js ":" ++ normalizedKey.

(** ** The value of [return_error] *)

Record ReturnErrorDraft := mkErrorDraft {
  re_message : jstr; re_statusCode : number; re_code : jstr; re_type : jstr; re_skipRetry : bool; re_simpleMode : bool }.

Definition returnErrorDefaults : ReturnErrorDraft := mkErrorDraft [] (num_of_Z 400) [] [] true true.

(** [Number.isInteger(n) && n >= 100 && n <= 599 ? n : 400] *)
Definition statusOr400 (n : number) : number :=
  match num_to_Z n with
  | Some z => if ((100 <=? z) && (z <=? 599))%Z then n else num_of_Z 400
  | None => num_of_Z 400
  end.

Definition parseReturnErrorDraft (valueText : jstr) : ReturnErrorDraft :=
  let raw := trim valueText in
  if negb (truthy_str raw) then returnErrorDefaults
  else match json_parse raw with
       | Some (VObj parsed) =>
           let statusRaw := match parsed.{"status_code"} with VUndef => parsed.{"status"} | v => v end in
           {| re_message := trim (if truthy parsed.{"message"} then js_String parsed.{"message"} else stringOr parsed.{"msg"} []);
              re_statusCode := statusOr400 (js_Number statusRaw);
              re_code := trim (stringOr parsed.{"code"} []); re_type := trim (stringOr parsed.{"type"} []);
              re_skipRetry := negb (isFalse parsed.{"skip_retry"}); re_simpleMode := false |}
       | _ => {| re_message := raw; re_statusCode := num_of_Z 400; re_code := []; re_type := []; re_skipRetry := true;
                 re_simpleMode := true |}
       end.

(** [if (b) payload.k = v] *)
Definition putIf (b : bool) (k : string) (v : jsval) (payload : list (jstr * jsval)) : list (jstr * jsval) :=
  if b then set_prop (js k) v payload else payload.

Definition jsonText (v : jsval) : jstr := default (js "undefined") (json_stringify v).

Definition buildReturnErrorValueText (draft : ReturnErrorDraft) : jstr :=
  let message := trim (re_message draft) in
  if re_simpleMode draft then message
  else let code := trim (re_code draft) in
       let type := trim (re_type draft) in
       let payload := [(js "message", VStr message); (js "status_code", VNum (statusOr400 (re_statusCode draft)))] in
       let payload := putIf (truthy_str code) "code" (VStr code) payload in
       let payload := putIf (truthy_str type) "type" (VStr type) payload in
       jsonText (VObj (putIf (negb (re_skipRetry draft)) "skip_retry" (VBool false) payload)).

(** ** The value of [prune_objects] *)

(** A prune rule has the fields of a condition and is read like one. *)
Definition PruneRule := ParamOverrideCondition.
Definition normalizePruneRule : jsval -> gen PruneRule := normalizeCondition.

Record PruneObjectsDraft := mkPruneDraft {
  pr_simpleMode : bool; pr_typeText : jstr; pr_logic : jstr; pr_recursive : bool; pr_rules : list PruneRule }.

Definition pruneDefaults : PruneObjectsDraft := mkPruneDraft true [] (js "AND") true [].
Definition simplePrune (typeText : jstr) : PruneObjectsDraft := mkPruneDraft true typeText (js "AND") true [].

(** The rules of a [path: value] object. *)
Definition entryRules (fs : list (jstr * jsval)) : gen (list PruneRule) :=
  gmap (fun e => normalizePruneRule (VObj [(js "path", VStr e.1); (js "mode", VStr (js "full")); (js "value", e.2)])) (entries fs).

Definition isObjectLike (v : jsval) : bool := match v with VObj _ | VArr _ => true | _ => false end.

Definition isUndef (v : jsval) : bool := match v with VUndef => true | _ => false end.

Definition parsePruneObjectsDraft (valueText : jstr) : gen PruneObjectsDraft :=
  let raw := trim valueText in
  if negb (truthy_str raw) then gret pruneDefaults
  else match json_parse raw with
       | None => gret (simplePrune raw)
       | Some (VStr s) => gret (simplePrune (trim s))
       | Some (VObj parsed) =>
           whereRules <~ (match parsed.{"where"} with VObj fs => entryRules fs | _ => gret [] end) ;;
           conditionRules <~ (match parsed.{"conditions"} with
                              | VArr items => gmap normalizePruneRule (List.filter isObjectLike items)
                              | VObj fs => entryRules fs
                              | _ => gret []
                              end) ;;
           gret {| pr_simpleMode := isUndef parsed.{"logic"} && isUndef parsed.{"recursive"} && isUndef parsed.{"where"} &&
                                    isUndef parsed.{"conditions"};
                   pr_typeText := match parsed.{"type"} with VUndef => [] | v => trim (js_String v) end;
                   pr_logic := if map upperAscii (stringOr parsed.{"logic"} (js "AND")) === js "OR" then js "OR" else js "AND";
                   pr_recursive := negb (isFalse parsed.{"recursive"}); pr_rules := whereRules ++ conditionRules |}
       | Some v => gret (simplePrune (match v with VUndef | VNull => [] | _ => trim (js_String v) end))
       end.

Definition pruneRulePayload (rule : PruneRule) : jsval :=
  let valueRaw := trim (c_value_text rule) in
  let payload := [(js "path", VStr (trim (c_path rule)));
                  (js "mode", VStr (if oneOf CONDITION_MODE_VALUES (c_mode rule) then c_mode rule else js "full"))] in
  let payload := putIf (truthy_str valueRaw) "value" (parseLooseValue valueRaw) payload in
  let payload := putIf (c_invert rule) "invert" (VBool true) payload in
  VObj (putIf (c_pass_missing_key rule) "pass_missing_key" (VBool true) payload).

Definition buildPruneObjectsValueText (draft : PruneObjectsDraft) : jstr :=
  let typeText := trim (pr_typeText draft) in
  if pr_simpleMode draft then typeText
  else
    let payload := putIf (truthy_str typeText) "type" (VStr typeText) [] in
    let payload := putIf (map upperAscii (str_or (pr_logic draft) (js "AND")) === js "OR") "logic" (VStr (js "OR")) payload in
    let payload := putIf (negb (pr_recursive draft)) "recursive" (VBool false) payload in
    let conditions := map pruneRulePayload (List.filter (fun rule => truthy_str (trim (c_path rule))) (pr_rules draft)) in
    let payload := putIf (negb (length conditions =? 0)%nat) "conditions" (VArr conditions) payload in
    if negb (truthy payload.{"type"}) && negb (truthy payload.{"conditions"})
    then jsonText (VObj [(js "logic", VStr (js "AND"))])
    else jsonText (VObj payload).

(** ** Header names of [pass_headers] *)

(** [String(i ?? '').trim()] of each, without the empty ones. *)
Definition headerNames (items : list jsval) : list jstr :=
  List.filter truthy_str (map (fun i => match i with VUndef | VNull => [] | _ => trim (js_String i) end) items).

Definition parsePassHeaderNames (rawValue : jsval) : list jstr :=
  match rawValue with
  | VArr items => headerNames items
  | VObj obj =>
      match obj.{"headers"} with
      | VArr items => headerNames items
      | _ => match obj.{"header"} with
             | VUndef => []
             | v => headerNames [v]
             end
      end
  | VStr s => trim_nonempty (split_on 44%N s)
  | _ => []
  end.

(** ** Writing and validation *)

Definition buildConditionPayload (condition : ParamOverrideCondition) : option jsval :=
  let path := trim (c_path condition) in
  if negb (truthy_str path) then None
  else let payload := [(js "path", VStr path); (js "mode", VStr (str_or (c_mode condition) (js "full")));
                       (js "value", parseLooseValue (c_value_text condition))] in
       let payload := putIf (c_invert condition) "invert" (VBool true) payload in
       Some (VObj (putIf (c_pass_missing_key condition) "pass_missing_key" (VBool true) payload)).

(** What a message says of a rule; [t] translates it with the rule's number. *)
Inductive RuleProblem :=
| MissingPath | MissingSource | MissingTarget | MissingValue | MissingMessage | MissingPrune | MissingHeaders | BadHeaders.

Definition ruleProblem (op : ParamOverrideOperation) : option RuleProblem :=
  let mode := modeOf op in
  let meta := MODE_META mode in
  let pathValue := trim (o_path op) in
  let aliased := m_pathAlias meta && truthy_str pathValue in
  let raw := trim (o_value_text op) in
  if m_path meta && negb (truthy_str pathValue) then Some MissingPath
  else if oneOf FROM_REQUIRED_MODES mode && negb (truthy_str (trim (o_from op))) && negb aliased then Some MissingSource
  else if oneOf TO_REQUIRED_MODES mode && negb (truthy_str (trim (o_to op))) && negb aliased then Some MissingTarget
  else if oneOf VALUE_REQUIRED_MODES mode && (raw === []) then Some MissingValue
  else if mode === js "return_error" then
    if negb (truthy_str raw) then Some MissingValue
    else match json_parse raw with
         | Some (VObj parsed) => if truthy_str (trim (stringOr parsed.{"message"} [])) then None else Some MissingMessage
         | _ => None
         end
  else if mode === js "prune_objects" then (if negb (truthy_str raw) then Some MissingPrune else None)
  else if mode === js "pass_headers" then
    if negb (truthy_str raw) then Some MissingHeaders
    else match parsePassHeaderNames (parseLooseValue raw) with [] => Some BadHeaders | _ => None end
  else None.

(** The first problem with the number of its rule; [None] is the empty message. *)
Fixpoint validateFrom (line : nat) (operations : list ParamOverrideOperation) : option (nat * RuleProblem) :=
  match operations with
  | [] => None
  | op :: rest => match ruleProblem op with Some p => Some (line, p) | None => validateFrom (S line) rest end
  end.

Definition validateOperations (operations : list ParamOverrideOperation) : option (nat * RuleProblem) := validateFrom 1 operations.

(** The payload of a rule, field after field. *)
Definition operationPayload (operation : ParamOverrideOperation) : list (jstr * jsval) :=
  let mode := modeOf operation in
  let meta := MODE_META mode in
  let descriptionValue := trim (o_description operation) in
  let pathValue := trim (o_path operation) in
  let fromValue := trim (o_from operation) in
  let toValue := trim (o_to operation) in
  let payload := [(js "mode", VStr mode)] in
  let payload := putIf (truthy_str descriptionValue) "description" (VStr descriptionValue) payload in
  let payload := putIf (m_path meta) "path" (VStr pathValue) payload in
  let payload := putIf (m_pathOptional meta && truthy_str pathValue) "path" (VStr pathValue) payload in
  let payload := putIf (m_value meta) "value" (parseLooseValue (o_value_text operation)) payload in
  let payload := putIf (m_keepOrigin meta && o_keep_origin operation) "keep_origin" (VBool true) payload in
  let payload := putIf (m_from meta) "from" (VStr fromValue) payload in
  let payload := putIf (negb (m_to meta) && truthy_str toValue) "to" (VStr toValue) payload in
  let payload := putIf (m_to meta) "to" (VStr toValue) payload in
  let payload := putIf (m_pathAlias meta && negb (truthy payload.{"from"}) && truthy_str pathValue) "from" (VStr pathValue) payload in
  let payload := putIf (m_pathAlias meta && negb (truthy payload.{"to"}) && truthy_str pathValue) "to" (VStr pathValue) payload in
  let conditions := omap buildConditionPayload (o_conditions operation) in
  let some := negb (length conditions =? 0)%nat in
  putIf some "logic" (VStr (if o_logic operation === js "AND" then js "AND" else js "OR"))
    (putIf some "conditions" (VArr conditions) payload).

Definition jsonText2 (v : jsval) : jstr := default (js "undefined") (json_stringify2 v).

(** The text, or the error that is thrown. *)
Definition buildOperationsJson (sourceOperations : list ParamOverrideOperation) (validate : bool) : (nat * RuleProblem) + jstr :=
  let filteredOps := List.filter (fun o => negb (isOperationBlank o)) sourceOperations in
  match filteredOps with
  | [] => inr []
  | _ => match (if validate then validateOperations filteredOps else None) with
         | Some message => inl message
         | None => inr (jsonText2 (VObj [(js "operations", VArr (map (fun o => VObj (operationPayload o)) filteredOps))]))
         end
  end.

(** ** The state a stored text opens *)

Inductive EditMode := ModeVisual | ModeJson.
Inductive VisualMode := ModeOperations | ModeLegacy.

Record EditorState := mkEditorState {
  es_editMode : EditMode; es_visualMode : VisualMode; es_legacyValue : jstr; es_operations : list ParamOverrideOperation;
  es_jsonText : jstr; es_jsonError : jstr }.

(** The rules of a stored list, one blank rule for an empty one. *)
Definition storedOperations (items : list jsval) : gen (list ParamOverrideOperation) :=
  match items with
  | [] => o <~ createDefaultOperation ;; gret [o]
  | _ => gmap normalizeOperation items
  end.

Definition parseInitialState (rawValue : jstr) : gen EditorState :=
  let trimmed := trim rawValue in
  if negb (truthy_str trimmed) then
    o <~ createDefaultOperation ;; gret (mkEditorState ModeVisual ModeOperations [] [o] [] [])
  else match json_parse trimmed with
       | None => o <~ createDefaultOperation ;;
                 gret (mkEditorState ModeJson ModeOperations [] [o] rawValue (js "Invalid JSON format"))
       | Some parsed =>
           let pretty := jsonText2 parsed in
           match parsed with
           | VObj fs =>
               match fs.{"operations"} with
               | VArr items => ops <~ storedOperations items ;; gret (mkEditorState ModeVisual ModeOperations [] ops pretty [])
               | _ => o <~ createDefaultOperation ;; gret (mkEditorState ModeVisual ModeLegacy pretty [o] pretty [])
               end
           | _ => o <~ createDefaultOperation ;; gret (mkEditorState ModeJson ModeOperations [] [o] pretty [])
           end
       end.
End Ids.
