(* ===== verification/ParamOverrideCorrect.v ===== *)
(** * Correctness of parameter override rules

    Reading back what was written, the meaning of validation, reordering, and
    the two structured values. *)
From stdpp Require Import prelude list strings.
From Stdlib Require Import NArith Ascii Permutation.
From S2P Require Import Prelude JsString JsNumber JsValue JsonText JsRegex Tiers TiersCorrect ParamOverride.
Open Scope js_scope.

(** ** Payloads *)

Lemma set_set k v v' fs : set_prop k v (set_prop k v' fs) = set_prop k v fs.
Proof.
  induction fs as [|[k0 v0] fs IH]; cbn [set_prop]; [by rewrite bool_decide_true|].
  destruct (decide (k = k0)) as [->|]; cbn [set_prop]; [by rewrite !bool_decide_true by done; cbn [set_prop]; rewrite bool_decide_true by done|].
  rewrite !bool_decide_false by done. cbn [set_prop]. by rewrite bool_decide_false, IH by done.
Qed.

Lemma set_before k k' v v' v0 fs : k <> k' ->
  set_prop k v (set_prop k' v' (set_prop k v0 fs)) = set_prop k' v' (set_prop k v fs).
Proof.
  intros Hne. induction fs as [|[k1 v1] fs IH]; cbn [set_prop].
  - rewrite (bool_decide_false (k' = k)) by done. cbn [set_prop]. by rewrite bool_decide_true.
  - destruct (decide (k = k1)) as [->|Hk].
    + rewrite bool_decide_true by done. cbn [set_prop]. rewrite (bool_decide_false (k' = k1)) by done. cbn [set_prop].
      by rewrite bool_decide_true.
    + rewrite (bool_decide_false (k = k1)) by done. cbn [set_prop]. destruct (decide (k' = k1)) as [->|Hk'].
      * rewrite bool_decide_true by done. cbn [set_prop]. rewrite bool_decide_false by done. by rewrite set_set.
      * rewrite (bool_decide_false (k' = k1)) by done. cbn [set_prop]. by rewrite bool_decide_false, IH by done.
Qed.

Lemma get_put_same b k v p : get_prop (js k) (putIf b k v p) = if b then v else get_prop (js k) p.
Proof. unfold putIf. destruct b; [|done]. rewrite get_set_prop. by rewrite bool_decide_true. Qed.

Lemma get_put_other b k k' v p : js k <> js k' -> get_prop (js k) (putIf b k' v p) = get_prop (js k) p.
Proof. intros H. unfold putIf. destruct b; [|done]. rewrite get_set_prop. by rewrite bool_decide_false. Qed.

(** Read a key of a payload built by [putIf]. *)
Ltac read_payload := repeat first [rewrite get_put_same | rewrite get_put_other by done].

Lemma textual_put b k v p : textual (VObj p) = true -> (b = true -> textual v = true) -> notIndex (js k) = true ->
  textual (VObj (putIf b k v p)) = true.
Proof. intros Hp Hv Hk. unfold putIf. destruct b; [|done]. apply textual_set; auto. Qed.

Lemma jsonText2_read v : textual v = true -> json_parse (jsonText2 v) = Some v.
Proof.
  intros H. destruct (read_back_textual (js "  ") v) as (t & E & Hp); [by repeat constructor|done|].
  unfold jsonText2, json_stringify2. by rewrite E.
Qed.

Lemma jsonText_read v : textual v = true -> json_parse (jsonText v) = Some v.
Proof.
  intros H. destruct (read_back_textual [] v) as (t & E & Hp); [by constructor|done|].
  unfold jsonText, json_stringify. by rewrite E.
Qed.

(** ** The stored form of a rule *)

(** A value as it looks after it was stored and opened again. *)
Definition storedText (valueText : jstr) : jstr := toValueText (parseLooseValue valueText).

Definition storedCondition (c : ParamOverrideCondition) : ParamOverrideCondition :=
  {| c_id := c_id c; c_path := trim (c_path c); c_mode := str_or (c_mode c) (js "full"); c_value_text := storedText (c_value_text c);
     c_invert := c_invert c; c_pass_missing_key := c_pass_missing_key c |}.

Definition keptConditions (o : ParamOverrideOperation) : list ParamOverrideCondition :=
  List.filter (fun c => truthy_str (trim (c_path c))) (o_conditions o).

(** A header mode may give one name for both ends. *)
Definition endOr (o : ParamOverrideOperation) (s : jstr) : jstr :=
  if m_pathAlias (MODE_META (modeOf o)) then str_or (trim s) (trim (o_path o)) else trim s.

Definition storedOperation (o : ParamOverrideOperation) : ParamOverrideOperation :=
  let meta := MODE_META (modeOf o) in
  {| o_id := o_id o; o_description := trim (o_description o);
     o_path := if m_path meta || m_pathOptional meta then trim (o_path o) else [];
     o_mode := modeOf o; o_from := if m_from meta then endOr o (o_from o) else [];
     o_to := endOr o (o_to o);
     o_value_text := if m_value meta then storedText (o_value_text o) else [];
     o_keep_origin := m_keepOrigin meta && o_keep_origin o;
     o_logic := match keptConditions o with [] => js "OR" | _ => if o_logic o === js "AND" then js "AND" else js "OR" end;
     o_conditions := map storedCondition (keptConditions o) |}.

(** Rules up to identifiers. *)
Definition eraseCondition (c : ParamOverrideCondition) : ParamOverrideCondition :=
  {| c_id := []; c_path := c_path c; c_mode := c_mode c; c_value_text := c_value_text c; c_invert := c_invert c;
     c_pass_missing_key := c_pass_missing_key c |}.
Definition eraseIds (o : ParamOverrideOperation) : ParamOverrideOperation :=
  {| o_id := []; o_description := o_description o; o_path := o_path o; o_mode := o_mode o; o_from := o_from o; o_to := o_to o;
     o_value_text := o_value_text o; o_keep_origin := o_keep_origin o; o_logic := o_logic o;
     o_conditions := map eraseCondition (o_conditions o) |}.

(** Known modes and values whose JSON reads back. *)
Definition goodCondition (c : ParamOverrideCondition) : Prop :=
  oneOf CONDITION_MODE_VALUES (c_mode c) = true /\ textual (parseLooseValue (c_value_text c)) = true.
Definition goodOperation (o : ParamOverrideOperation) : Prop :=
  oneOf OPERATION_MODE_VALUES (o_mode o) = true /\
  (m_value (MODE_META (modeOf o)) = true -> textual (parseLooseValue (o_value_text o)) = true) /\
  Forall goodCondition (o_conditions o).

Lemma oneOf_elem l s : oneOf l s = true <-> s ∈ l.
Proof.
  unfold oneOf. rewrite existsb_exists, list_elem_of_In. split; [by intros (x & Hx & ->%bool_decide_eq_true)|].
  intros H. exists s. by rewrite bool_decide_eq_true.
Qed.

(** Decide the comparisons of literal keys; split on a text being empty. *)
Ltac eval_keys :=
  repeat match goal with |- context [js ?a === js ?b] => let v := eval vm_compute in (js a === js b) in change (js a === js b) with v end.
Ltac str_cases s := destruct s; cbn [truthy_str negb andb orb truthy strOrEmpty str_or]; try done.

Lemma modeOf_good o : oneOf OPERATION_MODE_VALUES (o_mode o) = true -> modeOf o = o_mode o.
Proof. intros H. unfold modeOf. destruct (o_mode o); [done|]. done. Qed.

Lemma condition_mode_good c : oneOf CONDITION_MODE_VALUES (c_mode c) = true -> str_or (c_mode c) (js "full") = c_mode c.
Proof. intros H. destruct (c_mode c); [done|]. done. Qed.

(** ** Reading back *)

Section ReadBack.
Context (clock : nat -> Z).

Lemma gmap_spec {A B C} (f : A -> gen B) (e : B -> C) (g : A -> C) xs :
  (forall x, x ∈ xs -> forall seed, exists y seed', f x seed = Ret (y, seed') /\ e y = g x) ->
  forall seed, exists ys seed', gmap f xs seed = Ret (ys, seed') /\ map e ys = map g xs.
Proof.
  induction xs as [|x xs IH]; intros H seed; cbn [gmap].
  - exists [], seed. done.
  - destruct (H x ltac:(left) seed) as (y & s1 & E1 & Ey).
    destruct (IH (fun x Hx => H x ltac:(by right)) s1) as (ys & s2 & E2 & Eys).
    exists (y :: ys), s2. unfold gbind, gret. rewrite E1. cbn [obind fst snd]. rewrite E2. cbn [obind fst snd map].
    by rewrite Ey, Eys.
Qed.

Lemma read_condition c v seed : goodCondition c -> buildConditionPayload c = Some v ->
  exists c' seed', normalizeCondition clock v seed = Ret (c', seed') /\ eraseCondition c' = eraseCondition (storedCondition c).
Proof.
  intros [Hm _] Hb. unfold buildConditionPayload in Hb. destruct (negb _); [done|]. injection Hb as <-.
  unfold normalizeCondition, gbind, nextLocalId, glift. cbn [obind fst snd]. unfold readCondition, prop. cbn [obind].
  read_payload. cbn [get_prop]. do 2 eexists. split; [reflexivity|]. unfold eraseCondition, storedCondition.
  cbn [c_id c_path c_mode c_value_text c_invert c_pass_missing_key].
  rewrite (bool_decide_true (js "path" = js "path")) by done.
  rewrite (bool_decide_false (js "mode" = js "path")), (bool_decide_true (js "mode" = js "mode")) by done.
  rewrite (bool_decide_false (js "value" = js "path")), (bool_decide_false (js "value" = js "mode")),
    (bool_decide_true (js "value" = js "value")) by done.
  rewrite condition_mode_good by done. cbn [modeOr strOrEmpty]. rewrite Hm. f_equal.
  - destruct (c_invert c); [done|]. reflexivity.
  - destruct (c_pass_missing_key c); [done|]. reflexivity.
Qed.

Definition conditionPayload (c : ParamOverrideCondition) : jsval := default VUndef (buildConditionPayload c).

Lemma condition_written c :
  buildConditionPayload c = if truthy_str (trim (c_path c)) then Some (conditionPayload c) else None.
Proof. unfold conditionPayload, buildConditionPayload. by destruct (truthy_str _). Qed.

Lemma payloads_kept cs :
  omap buildConditionPayload cs = map conditionPayload (List.filter (fun c => truthy_str (trim (c_path c))) cs).
Proof.
  induction cs as [|c cs IH]; [done|]. cbn [List.filter].
  change (omap buildConditionPayload (c :: cs))
    with (match buildConditionPayload c with Some y => y :: omap buildConditionPayload cs | None => omap buildConditionPayload cs end).
  rewrite condition_written, IH. by destruct (truthy_str _).
Qed.

Lemma read_conditions cs seed : Forall goodCondition cs ->
  exists cs' seed', gmap (normalizeCondition clock) (omap buildConditionPayload cs) seed = Ret (cs', seed') /\
    map eraseCondition cs' = map eraseCondition (map storedCondition (List.filter (fun c => truthy_str (trim (c_path c))) cs)).
Proof.
  intros H. rewrite payloads_kept. set (ks := List.filter _ cs).
  assert (Hk : forall c, c ∈ ks -> goodCondition c /\ buildConditionPayload c = Some (conditionPayload c)).
  { intros c Hc%list_elem_of_In. apply filter_In in Hc as [Hc Hp]. rewrite List.Forall_forall in H. split; [by apply H|].
    by rewrite condition_written, Hp. }
  clearbody ks. rewrite map_map. revert seed. induction ks as [|c ks IH]; intros seed; cbn [map gmap].
  - by exists [], seed.
  - destruct (Hk c ltac:(left)) as [Hg Hb]. destruct (read_condition c _ seed Hg Hb) as (c' & s1 & E1 & Ec).
    destruct (IH (fun c Hc => Hk c ltac:(by right)) s1) as (cs' & s2 & E2 & Ecs).
    exists (c' :: cs'), s2. unfold gbind, gret. rewrite E1. cbn [obind fst snd]. rewrite E2. cbn [obind fst snd map].
    by rewrite Ec, Ecs.
Qed.

Lemma alias_meta mode : m_pathAlias (MODE_META mode) = true ->
  m_from (MODE_META mode) = true /\ m_to (MODE_META mode) = true /\ m_path (MODE_META mode) = false /\ m_pathOptional (MODE_META mode) = false.
Proof. unfold MODE_META, MODE_META_TABLE. cbn [map metaIn fst snd]. repeat (case_bool_decide; [done|]). done. Qed.

Lemma read_operation o seed : goodOperation o ->
  exists o' seed', normalizeOperation clock (VObj (operationPayload o)) seed = Ret (o', seed') /\
    eraseIds o' = eraseIds (storedOperation o).
Proof.
  intros (Hm & _ & Hc). destruct (read_conditions (o_conditions o) (S seed) Hc) as (cs & s' & Ecs & Hcs).
  assert (Hlen : length (omap buildConditionPayload (o_conditions o)) = length (keptConditions o))
    by (rewrite payloads_kept, length_map; done).
  assert (Hcond : (operationPayload o).{"conditions"}
    = match keptConditions o with [] => VUndef | _ => VArr (omap buildConditionPayload (o_conditions o)) end).
  { unfold operationPayload. cbv zeta. read_payload. rewrite Hlen. destruct (keptConditions o); [|done].
    cbn [length Nat.eqb negb]. reflexivity. }
  unfold normalizeOperation, gbind, nextLocalId, glift. cbn [obind fst snd prop]. rewrite Hcond.
  assert (Hgo : (match match keptConditions o with [] => VUndef | _ => VArr (omap buildConditionPayload (o_conditions o)) end with
      VArr items => gmap (normalizeCondition clock) items | _ => gret [] end) (S seed)
    = Ret (match keptConditions o with [] => [] | _ => cs end, match keptConditions o with [] => S seed | _ => s' end)).
  { destruct (keptConditions o) eqn:E; [done|exact Ecs]. }
  rewrite Hgo. cbn [obind fst snd]. unfold readOperation. cbn [obind prop].
  do 2 eexists. split; [reflexivity|]. unfold eraseIds, storedOperation. cbv zeta.
  cbn [o_id o_description o_path o_mode o_from o_to o_value_text o_keep_origin o_logic o_conditions].
  assert (Hcs' : map eraseCondition match keptConditions o with [] => [] | _ :: _ => cs end
    = map eraseCondition (map storedCondition (keptConditions o))).
  { fold (keptConditions o) in Hcs. destruct (keptConditions o) eqn:E; [done|]. by rewrite Hcs. }
  rewrite Hcs'. clear Hcs Hcs' Hgo Ecs Hcond. rewrite (modeOf_good o Hm).
  unfold operationPayload, endOr. cbv zeta. read_payload. rewrite Hlen, (modeOf_good o Hm). cbn [get_prop].
  eval_keys. pose proof (alias_meta (o_mode o)) as Ha. destruct (MODE_META (o_mode o)) as [mp mpo mv mf mt mk ma].
  cbn [m_path m_pathOptional m_value m_from m_to m_keepOrigin m_pathAlias] in *. f_equal.
  - str_cases (trim (o_description o)).
  - destruct mp, mpo; str_cases (trim (o_path o)).
  - cbn [modeOr]. by rewrite Hm.
  - destruct ma; [rewrite (proj1 (Ha eq_refl))|destruct mf; done]. str_cases (trim (o_from o)). str_cases (trim (o_path o)).
  - destruct ma; [rewrite (proj1 (proj2 (Ha eq_refl)))|destruct mt; str_cases (trim (o_to o))]. str_cases (trim (o_to o)). str_cases (trim (o_path o)).
  - by destruct mv.
  - by destruct mk, (o_keep_origin o).
  - destruct (keptConditions o); [reflexivity|]. by destruct (o_logic o === js "AND").
Qed.

(** *** The whole text *)

Lemma json_parse_nil : json_parse [] = None.
Proof. vm_compute. reflexivity. Qed.

Lemma condition_textual c : goodCondition c -> textual (conditionPayload c) = true \/ buildConditionPayload c = None.
Proof.
  intros [_ Ht]. unfold conditionPayload, buildConditionPayload. destruct (truthy_str _); cbn [negb default from_option id]; [left|by right].
  repeat (apply textual_put; [|done|done]). apply textual_fields. cbn [map fst]. split_and!.
  - apply (bool_decide_unpack _). vm_compute. exact I.
  - by repeat constructor.
  - by repeat constructor.
Qed.

Lemma conditions_textual cs : Forall goodCondition cs -> textual (VArr (omap buildConditionPayload cs)) = true.
Proof.
  intros H. rewrite payloads_kept. cbn [textual]. apply forallb_forall. intros v Hv. apply in_map_iff in Hv as (c & <- & Hc).
  apply filter_In in Hc as [Hc Hp]. rewrite List.Forall_forall in H. destruct (condition_textual c (H c Hc)) as [|E]; [done|].
  by rewrite condition_written, Hp in E.
Qed.

Lemma operation_textual o : goodOperation o -> textual (VObj (operationPayload o)) = true.
Proof.
  intros (_ & Hv & Hc). unfold operationPayload. cbv zeta.
  repeat (apply textual_put; [|first [exact Hv | intros _; apply conditions_textual; exact Hc | intros _; exact (eq_refl true)]|exact (eq_refl true)]).
  exact (eq_refl true).
Qed.

Lemma document_textual ops : Forall goodOperation ops ->
  textual (VObj [(js "operations", VArr (map (fun o => VObj (operationPayload o)) ops))]) = true.
Proof.
  intros H. apply textual_fields. cbn [map fst]. split_and!; [apply NoDup_singleton|by repeat constructor|]. constructor; [|constructor].
  cbn [snd textual]. apply forallb_forall. intros v Hv. apply in_map_iff in Hv as (o & <- & Ho). rewrite List.Forall_forall in H.
  by apply operation_textual, H.
Qed.

Lemma document_trimmed fs : trimmed (jsonText2 (VObj fs)) = true.
Proof.
  unfold jsonText2, json_stringify2. destruct (ser_object_trimmed (js "  ") fs) as [w ->]. by apply trimmed_ends.
Qed.

Notation document ops := (VObj [(js "operations", VArr (map (fun o => VObj (operationPayload o)) ops))]).

Lemma read_rules ops seed : Forall goodOperation ops ->
  exists ops' seed',
    gmap (normalizeOperation clock) (map (fun o => VObj (operationPayload o)) ops) seed = Ret (ops', seed') /\
    map eraseIds ops' = map eraseIds (map storedOperation ops).
Proof.
  intros Hg. rewrite map_map. revert seed. induction Hg as [|x l Hx _ IH]; intros seed; cbn [map gmap]; [by exists [], seed|].
  destruct (read_operation x seed Hx) as (x' & s1 & E1 & Ex). destruct (IH s1) as (l' & s2 & E2 & El).
  exists (x' :: l'), s2. unfold gbind, gret. rewrite E1. cbn [obind fst snd]. rewrite E2. cbn [obind fst snd map].
  by rewrite Ex, El.
Qed.

(** The text of a list of rules: not blank, and read as the list. *)
Lemma document_facts ops : Forall goodOperation ops ->
  trim (jsonText2 (document ops)) = jsonText2 (document ops) /\ truthy_str (jsonText2 (document ops)) = true /\
  json_parse (jsonText2 (document ops)) = Some (document ops) /\
  get_prop (js "operations") [(js "operations", VArr (map (fun o => VObj (operationPayload o)) ops))]
  = VArr (map (fun o => VObj (operationPayload o)) ops).
Proof.
  intros Hg. assert (Hp := jsonText2_read _ (document_textual ops Hg)). split_and!; [apply trimmed_trim, document_trimmed| |done|].
  - destruct (jsonText2 _); [by rewrite json_parse_nil in Hp|done].
  - cbn [get_prop]. by rewrite bool_decide_true.
Qed.

(** What a stored list opens as. *)
Lemma read_document ops seed : ops <> [] -> Forall goodOperation ops ->
  exists ops' seed',
    parseInitialState clock (jsonText2 (document ops)) seed
      = Ret (mkEditorState ModeVisual ModeOperations [] ops' (jsonText2 (document ops)) [], seed') /\
    map eraseIds ops' = map eraseIds (map storedOperation ops).
Proof.
  intros Hne Hg. destruct (document_facts ops Hg) as (H1 & H2 & H3 & H4). destruct (read_rules ops seed Hg) as (ops' & s' & E & Eo).
  exists ops', s'. split; [|done]. unfold parseInitialState. rewrite H1, H2, H3. cbn [negb]. rewrite H4.
  destruct ops as [|o ops]; [done|]. cbn [map storedOperations] in *. unfold gbind. by rewrite E.
Qed.
End ReadBack.

(** ** Writing again *)

(** A value that is stored as itself once more. *)
Definition stableText (t : jstr) : Prop :=
  parseLooseValue (storedText t) = parseLooseValue t /\ (storedText t = [] -> trim t = []).
Definition stableOperation (o : ParamOverrideOperation) : Prop :=
  (m_value (MODE_META (modeOf o)) = true -> stableText (o_value_text o)) /\
  Forall (fun c => stableText (c_value_text c)) (o_conditions o).

(** A text that is not a quoted string, or a quoted string that its content
    stands for when it is typed without the quotes: not empty, without blanks
    around it and not JSON itself. *)
Definition plainlyWritten (t : jstr) : bool :=
  match json_parse (trim t) with
  | Some (VStr s) => truthy_str s && trimmed s && negb (verifyJSON s)
  | _ => true
  end.
Definition plainOperation (o : ParamOverrideOperation) : bool :=
  (negb (m_value (MODE_META (modeOf o))) || plainlyWritten (o_value_text o)) &&
  forallb (fun c => plainlyWritten (c_value_text c)) (o_conditions o).

Lemma number_trimmed n : num_is_finite n = true -> trimmed (num_to_str n) = true.
Proof.
  intros H. apply trimmed_digits. eapply Forall_impl; [by apply num_to_str_signed|]. intros c Hc.
  assert (Hr : (43 <= c <= 101)%N).
  { unfold signedChar, RAny in Hc. apply orb_true_iff in Hc as [Hd%is_digit_spec|(x & Hx & ->%N.eqb_eq)%existsb_exists]; [lia|].
    repeat destruct Hx as [<-|Hx]; try (vm_compute; split; discriminate). done. }
  unfold is_ws. repeat (apply orb_false_iff; split); try (apply N.eqb_neq; lia); apply andb_false_iff; rewrite !N.leb_gt; lia.
Qed.

(** The JSON text of a value that is not a string has no blanks around it. *)
Lemma json_text_trimmed v : textual v = true -> (forall s, v <> VStr s) ->
  trimmed (jsonText v) = true /\ jsonText v <> [] /\ toValueText v = jsonText v.
Proof.
  intros Ht Hs. assert (E : toValueText v = jsonText v).
  { destruct (read_back_textual [] v) as (t & E & _); [by constructor|done|]. unfold jsonText, json_stringify. rewrite E.
    destruct v; try done; try (by destruct (Hs s)); unfold toValueText, json_stringify; by rewrite E. }
  split; [|split; [|done]].
  - unfold jsonText, json_stringify. destruct v as [| |b|n|s|xs|fs]; try done.
    + by destruct b.
    + cbn in Ht. unfold plainNumber in Ht. apply andb_true_iff in Ht as [Hf _]. cbn [json_ser]. rewrite Hf. by apply number_trimmed.
    + by destruct (Hs s).
    + destruct (ser_array_trimmed [] xs) as [w ->]. by apply trimmed_ends.
    + destruct (ser_object_trimmed [] fs) as [w ->]. by apply trimmed_ends.
  - intros H. pose proof (jsonText_read v Ht) as Hr. rewrite H in Hr. by vm_compute in Hr.
Qed.

Lemma loose_string s : trimmed s = true -> json_parse s = None -> parseLooseValue s = VStr s.
Proof. intros Ht Hp. unfold parseLooseValue. rewrite trimmed_trim by done. destruct s; [done|]. by rewrite Hp. Qed.

Lemma loose_cases t : (trim t = [] /\ parseLooseValue t = VStr []) \/
  (trim t <> [] /\ json_parse (trim t) = Some (parseLooseValue t)) \/
  (trim t <> [] /\ json_parse (trim t) = None /\ parseLooseValue t = VStr (trim t)).
Proof. unfold parseLooseValue. destruct (trim t); [by left|right]. destruct (json_parse _); [by left|by right]. Qed.

Lemma plain_stable t : textual (parseLooseValue t) = true -> plainlyWritten t = true -> stableText t.
Proof.
  intros Ht Hp. unfold stableText, storedText, plainlyWritten in *.
  destruct (loose_cases t) as [[E ->]|[[E Ej]|(E & Ej & ->)]]; [done| |].
  - rewrite Ej in Hp. generalize dependent (parseLooseValue t). intros v Ht Ej Hp.
    assert (Hcase : (exists s, v = VStr s) \/ forall s, v <> VStr s) by (destruct v; naive_solver). destruct Hcase as [[s ->]|Hns].
    + bool_hyps. cbn [toValueText]. unfold verifyJSON in *. destruct (json_parse s) eqn:Es; [done|]. split; [by apply loose_string|by intros ->].
    + destruct (json_text_trimmed v Ht Hns) as (H1 & H2 & ->). split; [|done]. unfold parseLooseValue. rewrite trimmed_trim by done.
      rewrite jsonText_read by done. by destruct (jsonText v).
  - cbn [toValueText]. split; [|done]. apply loose_string; [apply trim_trimmed|done].
Qed.

Lemma plain_operation_stable o : goodOperation o -> plainOperation o = true -> stableOperation o.
Proof.
  intros (_ & Hv & Hc) [H1 H2]%andb_true_iff. split.
  - intros Hm. rewrite Hm in H1. by apply plain_stable; [apply Hv|].
  - rewrite forallb_forall in H2. rewrite Forall_forall in *. intros c Hin. apply plain_stable; [by apply Hc|]. by apply H2, list_elem_of_In.
Qed.

Lemma payload_erase o : operationPayload (eraseIds o) = operationPayload o.
Proof.
  unfold operationPayload, eraseIds, modeOf. cbn [o_id o_description o_path o_mode o_from o_to o_value_text o_keep_origin o_logic o_conditions].
  replace (omap buildConditionPayload (map eraseCondition (o_conditions o))) with (omap buildConditionPayload (o_conditions o)); [done|].
  induction (o_conditions o) as [|c cs IH]; [done|]. cbn [map].
  change (omap buildConditionPayload (?c :: ?cs)) with (match buildConditionPayload c with Some y => y :: omap buildConditionPayload cs | None => omap buildConditionPayload cs end).
  rewrite IH. done.
Qed.

Lemma conditions_again cs : Forall goodCondition cs -> Forall (fun c => stableText (c_value_text c)) cs ->
  omap buildConditionPayload (map storedCondition (List.filter (fun c => truthy_str (trim (c_path c))) cs)) = omap buildConditionPayload cs.
Proof.
  intros Hg Hs. induction Hs as [|c cs [Hc _] _ IH]; [done|]. apply Forall_cons in Hg as [[Hm _] Hg]. cbn [List.filter].
  change (omap buildConditionPayload (c :: cs)) with (match buildConditionPayload c with Some y => y :: omap buildConditionPayload cs | None => omap buildConditionPayload cs end).
  rewrite condition_written. destruct (truthy_str (trim (c_path c))) eqn:E; [|by apply IH]. cbn [map].
  change (omap buildConditionPayload (storedCondition c :: ?l)) with (match buildConditionPayload (storedCondition c) with Some y => y :: omap buildConditionPayload l | None => omap buildConditionPayload l end).
  rewrite condition_written. unfold storedCondition at 1. cbn [c_path]. rewrite trim_idem, E, IH by done. f_equal.
  unfold conditionPayload, buildConditionPayload, storedCondition. cbn [c_path c_mode c_value_text c_invert c_pass_missing_key].
  rewrite trim_idem, E, Hc, !condition_mode_good by (done || by rewrite condition_mode_good). done.
Qed.

Lemma payload_again o : goodOperation o -> stableOperation o -> operationPayload (storedOperation o) = operationPayload o.
Proof.
  intros (Hm & _ & Hg) [Hv Hs]. rewrite (modeOf_good o Hm) in Hv.
  assert (Hmode : modeOf (storedOperation o) = o_mode o).
  { unfold modeOf, storedOperation. cbn [o_mode]. rewrite (modeOf_good o Hm). by destruct (o_mode o). }
  assert (Hc := conditions_again _ Hg Hs). fold (keptConditions o) in Hc.
  unfold operationPayload. rewrite Hmode, (modeOf_good o Hm). unfold storedOperation, endOr. cbv zeta. rewrite (modeOf_good o Hm).
  cbn [o_id o_description o_path o_mode o_from o_to o_value_text o_keep_origin o_logic o_conditions]. rewrite Hc, payloads_kept, length_map.
  fold (keptConditions o). read_payload.
  pose proof (alias_meta (o_mode o)) as Ha. destruct (MODE_META (o_mode o)) as [mp mpo mv mf mt mk ma].
  cbn [m_path m_pathOptional m_value m_from m_to m_keepOrigin m_pathAlias] in *.
  assert (Hl : forall p, putIf (negb (length (keptConditions o) =? 0)%nat) "logic"
      (VStr (if match keptConditions o with [] => js "OR" | _ :: _ => if o_logic o === js "AND" then js "AND" else js "OR" end === js "AND"
             then js "AND" else js "OR")) p
    = putIf (negb (length (keptConditions o) =? 0)%nat) "logic" (VStr (if o_logic o === js "AND" then js "AND" else js "OR")) p).
  { intros p. destruct (keptConditions o); [done|]. by destruct (o_logic o === js "AND"). }
  rewrite Hl. clear Hl. f_equal. f_equal.
  assert (Hval : forall p, putIf mv "value" (parseLooseValue (if mv then storedText (o_value_text o) else [])) p
    = putIf mv "value" (parseLooseValue (o_value_text o)) p).
  { intros p. destruct mv; [|done]. by rewrite (proj1 (Hv eq_refl)). }
  rewrite Hval, trim_idem. clear Hval Hv. destruct ma.
  - destruct (Ha eq_refl) as (-> & -> & -> & ->). cbn [andb orb negb putIf].
    assert (Ht : forall s, trim (str_or (trim s) (trim (o_path o))) = str_or (trim s) (trim (o_path o))).
    { intros s0. unfold str_or. destruct (truthy_str (trim s0)); by rewrite trim_idem. }
    rewrite !Ht. change (trim []) with (@nil N). cbn [truthy_str]. rewrite !andb_false_r. cbn [putIf].
    generalize (putIf mv "value" (parseLooseValue (o_value_text o)) (putIf (truthy_str (trim (o_description o))) "description"
      (VStr (trim (o_description o))) [(js "mode", VStr (o_mode o))])).
    intros p0. unfold putIf. rewrite andb_assoc, andb_diag. generalize (if mk && o_keep_origin o then set_prop (js "keep_origin") (VBool true) p0 else p0).
    intros p1. unfold str_or. cbn [truthy].
    destruct (trim (o_to o)), (trim (o_from o)), (trim (o_path o)); cbn [truthy_str negb andb];
      rewrite ?(set_before (js "from") (js "to")), ?set_set by done; done.
  - assert (Hk : mk && (mk && o_keep_origin o) = mk && o_keep_origin o) by (by destruct mk).
    rewrite Hk. cbn [andb putIf]. destruct mp, mpo, mf, mt; cbn [orb]; rewrite ?trim_idem; done.
Qed.

Lemma blank_erase o : isOperationBlank (eraseIds o) = isOperationBlank o.
Proof.
  unfold isOperationBlank, eraseIds. cbn [o_mode o_path o_from o_to o_value_text o_keep_origin o_conditions].
  do 2 f_equal. induction (o_conditions o) as [|c cs IH]; [done|]. cbn [map existsb]. by rewrite IH.
Qed.

Lemma problem_erase o : ruleProblem (eraseIds o) = ruleProblem o.
Proof. done. Qed.

Lemma storedOperation_mode o : oneOf OPERATION_MODE_VALUES (o_mode o) = true ->
  o_mode (storedOperation o) = o_mode o /\ modeOf (storedOperation o) = o_mode o.
Proof.
  intros Hm. unfold modeOf at 1, storedOperation. cbn [o_mode]. rewrite (modeOf_good o Hm). split; [done|]. by destruct (o_mode o).
Qed.

Lemma stored_not_blank o : oneOf OPERATION_MODE_VALUES (o_mode o) = true -> ruleProblem o = None -> isOperationBlank (storedOperation o) = false.
Proof.
  intros Hm Hp. destruct (storedOperation_mode o Hm) as [E _]. unfold isOperationBlank. rewrite E.
  case_bool_decide as Es; [|done]. unfold ruleProblem in Hp. rewrite (modeOf_good o Hm), Es in Hp. cbv zeta in Hp.
  unfold storedOperation. rewrite (modeOf_good o Hm), Es. change (MODE_META (js "set")) with metaSet in *. cbn [m_path m_pathOptional metaSet orb andb o_path] in *.
  rewrite trim_idem. destruct (truthy_str (trim (o_path o))); done.
Qed.

(** A value that is stored stays present and stays what it was. *)
Lemma stored_value t : stableText t ->
  (trim (storedText t) = [] <-> trim t = []) /\ parseLooseValue (trim (storedText t)) = parseLooseValue t.
Proof.
  intros [Hs He]. assert (Hl : forall s, parseLooseValue (trim s) = parseLooseValue s) by (intros s; unfold parseLooseValue; by rewrite trim_idem).
  split; [|by rewrite Hl, Hs]. split.
  - intros E. apply He. unfold parseLooseValue at 1 in Hs. rewrite E in Hs. unfold storedText. by rewrite <- Hs.
  - intros E. unfold storedText, parseLooseValue. by rewrite E.
Qed.

Lemma loose_object t fs : json_parse (trim t) = Some (VObj fs) <-> parseLooseValue t = VObj fs.
Proof.
  unfold parseLooseValue. destruct (trim t) as [|x r]; [by rewrite json_parse_nil|]. destruct (json_parse (x :: r)); naive_solver.
Qed.

(** *** What validation asks of a rule *)

Record ruleOk (o : ParamOverrideOperation) : Prop := {
  ok_path : m_path (MODE_META (modeOf o)) = true -> trim (o_path o) <> [];
  ok_from : modeOf o ∈ FROM_REQUIRED_MODES ->
    trim (o_from o) <> [] \/ m_pathAlias (MODE_META (modeOf o)) = true /\ trim (o_path o) <> [];
  ok_to : modeOf o ∈ TO_REQUIRED_MODES ->
    trim (o_to o) <> [] \/ m_pathAlias (MODE_META (modeOf o)) = true /\ trim (o_path o) <> [];
  ok_value : modeOf o ∈ VALUE_REQUIRED_MODES -> trim (o_value_text o) <> [];
  ok_message : modeOf o = js "return_error" -> forall fs, parseLooseValue (o_value_text o) = VObj fs ->
    trim (stringOr fs.{"message"} []) <> [];
  ok_headers : modeOf o = js "pass_headers" -> parsePassHeaderNames (parseLooseValue (o_value_text o)) <> [] }.

Lemma loose_trim s : parseLooseValue (trim s) = parseLooseValue s.
Proof. unfold parseLooseValue. by rewrite trim_idem. Qed.

(** The presence checks of one end of a rule. *)
Lemma missing_end (req : list jstr) mode s alias path :
  oneOf req mode && negb (truthy_str s) && negb (alias && truthy_str path) = false <->
  (mode ∈ req -> s <> [] \/ alias = true /\ path <> []).
Proof.
  rewrite <- oneOf_elem. destruct (oneOf req mode), s, alias, path; cbn; naive_solver.
Qed.

Lemma ruleProblem_none o : ruleProblem o = None <-> ruleOk o.
Proof.
  unfold ruleProblem. cbv zeta. split.
  - intros H. destruct (m_path _ && _) eqn:E1; [done|].
    destruct (oneOf FROM_REQUIRED_MODES _ && _ && _) eqn:E2; [done|]. assert (F2 := proj1 (missing_end _ _ _ _ _) E2).
    destruct (oneOf TO_REQUIRED_MODES _ && _ && _) eqn:E3; [done|]. assert (F3 := proj1 (missing_end _ _ _ _ _) E3).
    destruct (oneOf VALUE_REQUIRED_MODES _ && _) eqn:E4; [done|].
    assert (Hv : modeOf o ∈ VALUE_REQUIRED_MODES -> trim (o_value_text o) <> []).
    { rewrite <- oneOf_elem. intros Hr Ez. by rewrite Hr, Ez in E4. }
    split; [intros Hp; rewrite Hp in E1; by destruct (trim (o_path o))|done|done|done|..].
    + intros Hm fs Hfs%loose_object. rewrite bool_decide_true in H by done. rewrite Hfs in H.
      destruct (truthy_str (trim (o_value_text o))); [|done]. cbn [negb] in H. by destruct (trim (stringOr fs.{"message"} [])).
    + intros Hm. rewrite (bool_decide_true (modeOf o = js "pass_headers")), !bool_decide_false in H by (rewrite ?Hm; done).
      destruct (truthy_str (trim (o_value_text o))); [|done]. cbn [negb] in H. rewrite loose_trim in H. by destruct (parsePassHeaderNames _).
  - intros [Hp Hf Ht Hv Hm Hh]. apply (proj2 (missing_end _ _ _ _ _)) in Hf. apply (proj2 (missing_end _ _ _ _ _)) in Ht.
    assert (E1 : m_path (MODE_META (modeOf o)) && negb (truthy_str (trim (o_path o))) = false).
    { destruct (m_path (MODE_META (modeOf o))); [|done]. specialize (Hp eq_refl). by destruct (trim (o_path o)). }
    assert (E4 : oneOf VALUE_REQUIRED_MODES (modeOf o) && (trim (o_value_text o) === []) = false).
    { destruct (oneOf VALUE_REQUIRED_MODES (modeOf o)) eqn:E; [|done]. apply oneOf_elem, Hv in E. by rewrite bool_decide_false. }
    rewrite E1, Hf, Ht, E4. clear E1 Hf Ht E4.
    assert (Hraw : modeOf o ∈ VALUE_REQUIRED_MODES -> negb (truthy_str (trim (o_value_text o))) = false).
    { intros E%Hv. by destruct (trim (o_value_text o)). }
    case_bool_decide as C1.
    { rewrite Hraw by (rewrite C1; apply oneOf_elem; reflexivity). destruct (json_parse _) as [[]|] eqn:Ej; try done.
      apply loose_object in Ej. specialize (Hm C1 _ Ej). by destruct (trim (stringOr fields.{"message"} [])). }
    case_bool_decide as C2; [by rewrite Hraw by (rewrite C2; apply oneOf_elem; reflexivity)|].
    case_bool_decide as C3; [|done]. rewrite Hraw by (rewrite C3; apply oneOf_elem; reflexivity).
    specialize (Hh C3). rewrite loose_trim. by destruct (parsePassHeaderNames _).
Qed.

Lemma stored_ok o : oneOf OPERATION_MODE_VALUES (o_mode o) = true -> stableOperation o -> ruleOk o -> ruleOk (storedOperation o).
Proof.
  intros Hm [Hv _] [Hp Hf Ht Hval Hmsg Hh]. destruct (storedOperation_mode o Hm) as [_ E].
  assert (Hmode := modeOf_good o Hm). rewrite Hmode in *.
  assert (Hneed : forall m, m ∈ VALUE_REQUIRED_MODES -> m_value (MODE_META m) = true).
  { intros m Hin%oneOf_elem. revert Hin. unfold oneOf, VALUE_REQUIRED_MODES. cbn [map existsb].
    repeat (case_bool_decide; [by subst|]). done. }
  assert (Hends : forall s, endOr o s = if m_pathAlias (MODE_META (o_mode o)) then str_or (trim s) (trim (o_path o)) else trim s)
    by (intros s; unfold endOr; by rewrite Hmode).
  assert (Hend : forall s, trim s <> [] \/ m_pathAlias (MODE_META (o_mode o)) = true /\ trim (o_path o) <> [] -> trim (endOr o s) <> []).
  { intros s H. rewrite Hends. unfold str_or. destruct (m_pathAlias _).
    - destruct (truthy_str (trim s)) eqn:Es; rewrite trim_idem.
      + intros Ez. by rewrite Ez in Es.
      + apply truthy_str_false in Es. naive_solver.
    - rewrite trim_idem. naive_solver. }
  assert (Hreq : forall m, m ∈ FROM_REQUIRED_MODES -> m_from (MODE_META m) = true).
  { intros m Hin%oneOf_elem. revert Hin. unfold oneOf, FROM_REQUIRED_MODES. cbn [map existsb].
    repeat (case_bool_decide; [by subst|]). done. }
  split; rewrite E; unfold storedOperation; cbn [o_path o_from o_to o_value_text]; rewrite ?Hmode.
  - intros Hmp. rewrite Hmp. cbn [orb]. rewrite trim_idem. by apply Hp.
  - intros Hr. left. rewrite (Hreq _ Hr). by apply Hend, Hf.
  - intros Hr. left. by apply Hend, Ht.
  - intros Hr. rewrite (Hneed _ Hr). rewrite (proj1 (stored_value _ (Hv (Hneed _ Hr)))). by apply Hval.
  - intros Hr fs. rewrite Hr in *. change (m_value (MODE_META (js "return_error"))) with true in *. cbn iota.
    rewrite <- loose_trim, (proj2 (stored_value _ (Hv eq_refl))). by apply Hmsg.
  - intros Hr. rewrite Hr in *. change (m_value (MODE_META (js "pass_headers"))) with true in *. cbn iota.
    rewrite <- loose_trim, (proj2 (stored_value _ (Hv eq_refl))). by apply Hh.
Qed.

(** *** The validated list *)

Definition keptRules (ops : list ParamOverrideOperation) : list ParamOverrideOperation :=
  List.filter (fun o => negb (isOperationBlank o)) ops.

Lemma validateFrom_none line ops : validateFrom line ops = None <-> Forall (fun o => ruleProblem o = None) ops.
Proof.
  revert line. induction ops as [|o ops IH]; intros line; cbn [validateFrom]; [split; [constructor|done]|].
  rewrite Forall_cons. destruct (ruleProblem o); [naive_solver|]. rewrite IH. naive_solver.
Qed.

Lemma validateFrom_some line ops n p : validateFrom line ops = Some (n, p) <->
  exists before o after, ops = before ++ o :: after /\ n = (line + length before)%nat /\ ruleProblem o = Some p /\
    Forall (fun x => ruleProblem x = None) before.
Proof.
  revert line. induction ops as [|o ops IH]; intros line; cbn [validateFrom].
  - split; [done|]. intros (b & x & a & E & _). by destruct b.
  - destruct (ruleProblem o) as [q|] eqn:Eo.
    + split.
      * intros [= <- <-]. exists [], o, ops. split_and!; [done|simpl; lia|done|constructor].
      * intros (b & x & a & E & -> & Hx & Hb). destruct b as [|y b]; cbn in E; injection E as <- _; [|apply Forall_cons in Hb as [? _]; congruence].
        rewrite Eo in Hx. injection Hx as <-. do 2 f_equal. simpl. lia.
    + rewrite IH. split.
      * intros (b & x & a & -> & -> & Hx & Hb). exists (o :: b), x, a. split_and!; [done|simpl; lia|done|by constructor].
      * intros (b & x & a & E & -> & Hx & Hb). destruct b as [|y b]; cbn in E; injection E as <- ->; [congruence|].
        apply Forall_cons in Hb as [_ Hb]. exists b, x, a. split_and!; [done|simpl; lia|done|done].
Qed.

Lemma build_inr ops text : buildOperationsJson ops true = inr text <->
  keptRules ops = [] /\ text = [] \/
  keptRules ops <> [] /\ Forall ruleOk (keptRules ops) /\
  text = jsonText2 (VObj [(js "operations", VArr (map (fun o => VObj (operationPayload o)) (keptRules ops)))]).
Proof.
  unfold buildOperationsJson. fold (keptRules ops). destruct (keptRules ops) as [|o l] eqn:E; [naive_solver|].
  assert (HF : validateOperations (o :: l) = None <-> Forall ruleOk (o :: l)).
  { unfold validateOperations. rewrite validateFrom_none. apply Forall_proper; [|done]. intros x. apply ruleProblem_none. }
  destruct (validateOperations (o :: l)) eqn:Ev.
  - split; [done|]. intros [[? _]|(_ & H & _)]; [done|]. apply HF in H. congruence.
  - split.
    + intros [= <-]. right. split_and!; [done|by apply HF|done].
    + by intros [[? _]|(_ & _ & ->)].
Qed.

Lemma keptRules_Forall (P : ParamOverrideOperation -> Prop) ops : Forall P ops -> Forall P (keptRules ops).
Proof.
  intros H. apply List.Forall_forall. intros o [Ho _]%filter_In. rewrite List.Forall_forall in H. by apply H.
Qed.

(** Reopened rules write the same text. *)
Lemma build_again ops ops' : keptRules ops <> [] ->
  Forall goodOperation (keptRules ops) -> Forall stableOperation (keptRules ops) -> Forall ruleOk (keptRules ops) ->
  map eraseIds ops' = map eraseIds (map storedOperation (keptRules ops)) ->
  buildOperationsJson ops' true
  = inr (jsonText2 (VObj [(js "operations", VArr (map (fun o => VObj (operationPayload o)) (keptRules ops)))])).
Proof.
  intros Hne Hg Hs Hok E. set (ks := keptRules ops) in *. clearbody ks.
  assert (Hall : Forall2 (fun o' o => eraseIds o' = eraseIds (storedOperation o)) ops' ks).
  { clear -E. revert ops' E. induction ks as [|k ks IH]; intros [|o' ops'] E; try done. cbn [map] in E.
    injection E as E1 E2. constructor; [|by apply IH]. unfold eraseIds, storedOperation. by f_equal. }
  assert (Hf : Forall2 (fun o' o => isOperationBlank o' = false /\ ruleOk o' /\ operationPayload o' = operationPayload o) ops' ks).
  { clear Hne E. induction Hall as [|o' o ops' ks Ho _ IH]; [constructor|].
    apply Forall_cons in Hg as [Hg1 Hg], Hs as [Hs1 Hs], Hok as [Hok1 Hok]. constructor; [|by apply IH].
    destruct Hg1 as (Hm & Hv & Hc). split_and!.
    - rewrite <- blank_erase, Ho, blank_erase. apply stored_not_blank; [done|by apply ruleProblem_none].
    - apply ruleProblem_none. rewrite <- problem_erase, Ho, problem_erase. by apply ruleProblem_none, stored_ok.
    - rewrite <- payload_erase, Ho, payload_erase. by apply payload_again. }
  clear Hall E. apply build_inr. right.
  assert (Hk : keptRules ops' = ops').
  { clear -Hf. induction Hf as [|o' o ops' ks (Hb & _) _ IH]; [done|]. unfold keptRules in *. cbn [List.filter]. rewrite Hb. cbn [negb]. by rewrite IH. }
  rewrite Hk. split_and!.
  - intros ->. by inv Hf.
  - clear -Hf. induction Hf as [|o' o ops' ks (_ & Ho & _) _ IH]; by constructor.
  - do 3 f_equal. clear -Hf. induction Hf as [|o' o ops' ks (_ & _ & Hp) _ IH]; [done|]. cbn [map]. do 3 f_equal; [by rewrite Hp|]. by injection IH.
Qed.

(** ** Reordering *)

Lemma findIndex_some {A} (p : A -> bool) l i : findIndex p l = Some i ->
  exists a x b, l = a ++ x :: b /\ length a = i /\ p x = true /\ Forall (fun y => p y = false) a.
Proof.
  revert i. induction l as [|x l IH]; intros i; cbn [findIndex]; [done|]. destruct (p x) eqn:E.
  - intros [= <-]. exists [], x, l. by split_and!.
  - destruct (findIndex p l) as [j|]; [|done]. intros [= <-]. destruct (IH j eq_refl) as (a & y & b & -> & <- & Hy & Ha).
    exists (x :: a), y, b. split_and!; [done|done|done|by constructor].
Qed.

Lemma findIndex_none {A} (p : A -> bool) l : findIndex p l = None <-> Forall (fun x => p x = false) l.
Proof.
  induction l as [|x l IH]; cbn [findIndex]; [split; [constructor|done]|]. rewrite Forall_cons, <- IH.
  destruct (p x); [naive_solver|]. destruct (findIndex p l); naive_solver.
Qed.

Lemma take_here {A} (a : list A) x b : take (length a) (a ++ x :: b) = a /\ drop (length a) (a ++ x :: b) = x :: b.
Proof. by rewrite take_app_length, drop_app_length. Qed.

Lemma drop_after {A} (a : list A) x b : drop (S (length a)) (a ++ x :: b) = b.
Proof. change (x :: b) with ([x] ++ b). rewrite app_assoc. replace (S (length a)) with (length (a ++ [x])) by (rewrite length_app; simpl; lia). apply drop_app_length. Qed.

Lemma take_after {A} (a : list A) x b : take (length a + 1) (a ++ x :: b) = a ++ [x].
Proof. change (x :: b) with ([x] ++ b). rewrite app_assoc. replace (length a + 1)%nat with (length (a ++ [x])) by (rewrite length_app; simpl; lia). apply take_app_length. Qed.

(** The three outcomes of a drop: nothing, or the source next to the target. *)
Lemma reorder_cases ops source target position :
  reorderOperations ops source target position = ops \/
  exists a moved b c tgt d, ops = a ++ moved :: b /\ a ++ b = c ++ tgt :: d /\ o_id moved = source /\ o_id tgt = target /\
    reorderOperations ops source target position
    = match position with Before => c ++ moved :: tgt :: d | After => c ++ tgt :: moved :: d end.
Proof.
  unfold reorderOperations. destruct (_ || _ || _); [by left|].
  destruct (findIndex (hasId source) ops) as [i|] eqn:Ei; [|by left].
  apply findIndex_some in Ei as (a & m & b & -> & <- & Hm & _). rewrite list_lookup_middle by done.
  rewrite take_app_length, drop_after. cbv zeta.
  destruct (findIndex (hasId target) (a ++ b)) as [j|] eqn:Ej; [|by left].
  apply findIndex_some in Ej as (c & x & d & E & <- & Hx & _). right. unfold hasId in *.
  apply bool_decide_eq_true in Hm, Hx. exists a, m, b, c, x, d. split_and!; try done. rewrite E. destruct position.
  - by rewrite take_app_length, drop_app_length.
  - rewrite take_after. replace (length c + 1)%nat with (S (length c)) by lia. by rewrite drop_after, <- app_assoc.
Qed.

Lemma reorder_perm ops source target position : Permutation (reorderOperations ops source target position) ops.
Proof.
  destruct (reorder_cases ops source target position) as [->|(a & m & b & c & x & d & -> & E & _ & _ & ->)]; [done|].
  rewrite <- (Permutation_middle a b m), E. destruct position.
  - by rewrite <- Permutation_middle.
  - rewrite <- (Permutation_middle c d x), <- (Permutation_middle c (m :: d) x). rewrite <- Permutation_middle. apply Permutation_swap.
Qed.

(** ** Structured values *)

Lemma trimmed_prefix x w s : is_ws x = false -> truthy_str (trim s) = true -> trimmed (x :: w ++ trim s) = true.
Proof.
  intros Hx Hs. assert (Ht := trim_trimmed s). destruct (exists_last (l := trim s)) as (r & y & E); [by intros E; rewrite E in Hs|].
  rewrite E in *. apply trimmed_last in Ht. rewrite app_assoc. by apply trimmed_ends.
Qed.

Lemma sync_read type key : truthy_str (trim key) = true ->
  parseSyncTargetSpec (buildSyncTargetSpec type key) = mkSync type (trim key).
Proof.
  intros Hk. unfold buildSyncTargetSpec. rewrite Hk. cbn [negb]. unfold parseSyncTargetSpec.
  assert (H : forall x w, is_ws x = false -> index_of (js ":") (x :: w ++ js ":" ++ trim key) = Some (S (length w)) ->
    trim (x :: w ++ js ":" ++ trim key) = x :: w ++ js ":" ++ trim key /\
    take (S (length w)) (x :: w ++ js ":" ++ trim key) = x :: w /\
    trim (drop (S (length w) + 1) (x :: w ++ js ":" ++ trim key)) = trim key).
  { intros x w Hx Hi. split_and!.
    - rewrite trimmed_trim; [done|]. rewrite (app_assoc w). by apply trimmed_prefix.
    - cbn [take]. by rewrite take_app_length.
    - cbn [drop Nat.add]. rewrite Nat.add_1_r. change (js ":" ++ trim key) with (58%N :: trim key). by rewrite drop_after, trim_idem. }
  destruct type.
  - change (js "json" ++ js ":" ++ trim key) with (106%N :: js "son" ++ js ":" ++ trim key).
    assert (Hi : index_of (js ":") (106%N :: js "son" ++ js ":" ++ trim key) = Some (S (length (js "son")))) by reflexivity.
    destruct (H 106%N _ eq_refl Hi) as (-> & E1 & E2). rewrite Hi. cbn [truthy_str negb]. cbv zeta. by rewrite E1, E2.
  - change (js "header" ++ js ":" ++ trim key) with (104%N :: js "eader" ++ js ":" ++ trim key).
    assert (Hi : index_of (js ":") (104%N :: js "eader" ++ js ":" ++ trim key) = Some (S (length (js "eader")))) by reflexivity.
    destruct (H 104%N _ eq_refl Hi) as (-> & E1 & E2). rewrite Hi. cbn [truthy_str negb]. cbv zeta. by rewrite E1, E2.
Qed.

Definition statusCodes : list Z := map (fun i => Z.of_nat i + 100)%Z (seq 0 500).

Lemma status_codes_plain : forallb (fun z => plainNumber (num_of_Z z) && bool_decide (statusOr400 (num_of_Z z) = num_of_Z z)) statusCodes = true.
Proof. vm_compute. reflexivity. Qed.

Lemma status_plain z : (100 <= z <= 599)%Z -> plainNumber (num_of_Z z) = true /\ statusOr400 (num_of_Z z) = num_of_Z z.
Proof.
  intros Hz. pose proof status_codes_plain as H. rewrite forallb_forall in H. specialize (H z).
  rewrite andb_true_iff, bool_decide_eq_true in H. apply H. unfold statusCodes. apply in_map_iff. exists (Z.to_nat (z - 100)).
  split; [lia|]. apply in_seq. lia.
Qed.

Lemma jsonText_object fs : trimmed (jsonText (VObj fs)) = true /\ truthy_str (jsonText (VObj fs)) = true.
Proof.
  unfold jsonText, json_stringify. destruct (ser_object_trimmed [] fs) as [w ->]. split; [by apply trimmed_ends|done].
Qed.

Lemma stringOr_str s : stringOr (VStr s) [] = s.
Proof. unfold stringOr. cbn [truthy js_String]. by destruct s. Qed.

(** The status an editor keeps. *)
Definition keptStatus (z : Z) : Z := if ((100 <=? z) && (z <=? 599))%Z then z else 400.

Lemma keptStatus_range z : (100 <= keptStatus z <= 599)%Z.
Proof. unfold keptStatus. destruct (_ && _) eqn:E; [|lia]. bool_hyps. lia. Qed.

Lemma return_error_read draft z :
  re_simpleMode draft = false -> statusOr400 (re_statusCode draft) = num_of_Z (keptStatus z) ->
  parseReturnErrorDraft (buildReturnErrorValueText draft)
  = mkErrorDraft (trim (re_message draft)) (num_of_Z (keptStatus z)) (trim (re_code draft)) (trim (re_type draft)) (re_skipRetry draft) false.
Proof.
  intros Hs Hz. destruct (status_plain _ (keptStatus_range z)) as [Hp Hk]. unfold buildReturnErrorValueText. rewrite Hs, Hz. cbv zeta.
  set (payload := putIf (negb (re_skipRetry draft)) _ _ _).
  assert (Ht : textual (VObj payload) = true).
  { unfold payload. repeat (apply textual_put; [|done|done]). apply textual_fields. cbn [map fst]. split_and!.
    - apply (bool_decide_unpack _). vm_compute. exact I.
    - by repeat constructor.
    - apply List.Forall_cons; [done|]. apply List.Forall_cons; [exact Hp|constructor]. }
  destruct (jsonText_object payload) as [Htr Htt]. unfold parseReturnErrorDraft. rewrite trimmed_trim, Htt by done. cbn [negb].
  rewrite jsonText_read by done. unfold payload. read_payload. cbn [get_prop]. eval_keys. cbn iota. cbn [truthy js_String js_Number].
  rewrite Hk. f_equal.
  - destruct (truthy_str (trim (re_message draft))) eqn:E; [apply trim_idem|]. apply truthy_str_false in E. by rewrite E.
  - destruct (truthy_str (trim (re_code draft))) eqn:E; [by rewrite stringOr_str, trim_idem|]. apply truthy_str_false in E. by rewrite E.
  - destruct (truthy_str (trim (re_type draft))) eqn:E; [by rewrite stringOr_str, trim_idem|]. apply truthy_str_false in E. by rewrite E.
  - by destruct (re_skipRetry draft).
Qed.

(** ** Properties *)


Definition sampleRules : list ParamOverrideOperation :=
  [mkPoOperation (js "a") (js " cap ") (js "temperature") (js "set") [] [] (js " 0.7 ") true (js "AND")
     [mkPoCondition (js "c") (js "model") (js "prefix") (js "openai/") true false];
   mkPoOperation (js "b") [] [] (js "set") [] [] [] false (js "OR") [];
   mkPoOperation (js "d") [] (js "X-A") (js "copy_header") [] (js "X-B") [] false (js "OR") []].


(** [C24] Validation is exact and reports the first broken rule: no message
    exactly when every rule has what its mode requires, otherwise the number of
    the first rule that lacks something, all rules before it being complete. *)
Theorem rule_validation_exact ops :
  (validateOperations ops = None <-> Forall ruleOk ops) /\
  (forall n p, validateOperations ops = Some (n, p) <->
     exists before o after, ops = before ++ o :: after /\ n = S (length before) /\ ruleProblem o = Some p /\ Forall ruleOk before).
Proof.
  assert (HF : forall l, Forall (fun o => ruleProblem o = None) l <-> Forall ruleOk l).
  { intros l. apply Forall_proper; [|done]. intros x. apply ruleProblem_none. }
  unfold validateOperations. split; [by rewrite validateFrom_none|]. intros n p. rewrite validateFrom_some.
  split; intros (b & o & a & E & Hn & Hp & Hb); exists b, o, a; (split_and!; [done|simpl in *; lia|done|by apply HF]).
Qed.

(** A drop never loses or duplicates a rule, keeps the order of the others
    and puts the dragged rule next to the target on the chosen side. *)
Theorem reorder_moves_one_rule ops source target position :
  Permutation (reorderOperations ops source target position) ops /\
  (reorderOperations ops source target position = ops \/
   exists a moved b c tgt d, ops = a ++ moved :: b /\ a ++ b = c ++ tgt :: d /\ o_id moved = source /\ o_id tgt = target /\
     reorderOperations ops source target position
     = match position with Before => c ++ moved :: tgt :: d | After => c ++ tgt :: moved :: d end).
Proof. split; [apply reorder_perm|apply reorder_cases]. Qed.

(** The structured form of a custom error reads back what it wrote: the
    texts trimmed, a status outside 100..599 replaced by 400. *)
Theorem return_error_draft_round_trip draft z :
  re_simpleMode draft = false -> statusOr400 (re_statusCode draft) = num_of_Z (keptStatus z) ->
  parseReturnErrorDraft (buildReturnErrorValueText draft)
  = mkErrorDraft (trim (re_message draft)) (num_of_Z (keptStatus z)) (trim (re_code draft)) (trim (re_type draft)) (re_skipRetry draft) false.
Proof. apply return_error_read. Qed.

Lemma return_error_draft_round_trip_witness :
  parseReturnErrorDraft (buildReturnErrorValueText (mkErrorDraft (js " no ") (num_of_Z 429) (js "c") [] false false))
  = mkErrorDraft (js "no") (num_of_Z 429) (js "c") [] false false.
Proof. apply (return_error_draft_round_trip (mkErrorDraft (js " no ") (num_of_Z 429) (js "c") [] false false) 429); vm_compute; reflexivity. Defined.

(** A synchronised field keeps its kind and its name through the stored
    form [kind:name]. *)
Theorem sync_target_round_trip type key :
  truthy_str (trim key) = true -> parseSyncTargetSpec (buildSyncTargetSpec type key) = mkSync type (trim key).
Proof. apply sync_read. Qed.

Lemma sync_target_round_trip_witness :
  parseSyncTargetSpec (buildSyncTargetSpec SyncHeader (js "a:b ")) = mkSync SyncHeader (js "a:b").
Proof. apply (sync_target_round_trip SyncHeader (js "a:b ")). vm_compute. reflexivity. Defined.

(** A quoted number is stored as a string, opens without its quotes, and is
    stored as a number when the rules are saved again. *)
Example quoted_value_changes :
  let rule v := mkPoOperation [] [] (js "user") (js "set") [] [] v false (js "OR") [] in
  (operationPayload (rule (jsq "'123'"))).{"value"} = VStr (js "123") /\
  (operationPayload (storedOperation (rule (jsq "'123'")))).{"value"} = VNum (num_of_Z 123).
Proof. vm_compute. split; reflexivity. Qed.

(** Choosing the header kind before typing a name is forgotten. *)
Example empty_sync_target_forgets_kind : parseSyncTargetSpec (buildSyncTargetSpec SyncHeader []) = mkSync SyncJson [].
Proof. vm_compute. reflexivity. Qed.
