(* ===== verification/ParamOverrideEditor.v ===== *)
(** * The parameter override dialog (param-override-editor-dialog.tsx)

    The dialog's state is the record [Editor]; every callback that changes it
    is a function on that state.  A callback may throw (reading a rule that is
    [null]), show notices, or save and close.  After each callback the effect
    that keeps the selection valid runs ([settle]).  [t] is the translation
    function; [clock] dates the identifiers. *)
From stdpp Require Import prelude list strings.
From S2P Require Import Prelude JsString JsNumber JsValue JsonText JsMap ParamOverride.
Open Scope js_scope.

(** ** Labels and placeholders by mode *)

Definition isMode (mode : jstr) (names : list string) : bool := existsb (fun n => mode === js n) names.

Definition getModePathLabel (mode : jstr) : jstr :=
  if isMode mode ["set_header"; "delete_header"]%string then js "Header Name"
  else if isMode mode ["prune_objects"]%string then js "Target Path (optional)" else js "Target Field Path".

Definition getModePathPlaceholder (mode : jstr) : jstr :=
  if isMode mode ["set_header"]%string then js "Authorization"
  else if isMode mode ["delete_header"]%string then js "X-Debug-Mode"
  else if isMode mode ["prune_objects"]%string then js "messages" else js "temperature".

Definition getModeFromLabel (mode : jstr) : jstr :=
  if isMode mode ["replace"]%string then js "Match Text"
  else if isMode mode ["regex_replace"]%string then js "Regex Pattern"
  else if isMode mode ["copy_header"; "move_header"]%string then js "Source Header" else js "Source Field".

Definition getModeFromPlaceholder (mode : jstr) : jstr :=
  if isMode mode ["replace"]%string then js "openai/"
  else if isMode mode ["regex_replace"]%string then js "^gpt-"
  else if isMode mode ["copy_header"; "move_header"]%string then js "Authorization" else js "model".

Definition getModeToLabel (mode : jstr) : jstr :=
  if isMode mode ["replace"; "regex_replace"]%string then js "Replace With"
  else if isMode mode ["copy_header"; "move_header"]%string then js "Target Header" else js "Target Field".

Definition getModeToPlaceholder (mode : jstr) : jstr :=
  if isMode mode ["replace"]%string then js "(leave empty to delete)"
  else if isMode mode ["regex_replace"]%string then js "openai/gpt-"
  else if isMode mode ["copy_header"; "move_header"]%string then js "X-Upstream-Auth" else js "original_model".

Definition affixModes : list string := ["trim_prefix"; "trim_suffix"; "ensure_prefix"; "ensure_suffix"]%string.

Definition getModeValueLabel (mode : jstr) : jstr :=
  if isMode mode ["set_header"]%string then js "Header Value (supports string or JSON mapping)"
  else if isMode mode ["pass_headers"]%string then js "Pass-through Headers (comma-separated or JSON array)"
  else if isMode mode affixModes then js "Prefix/Suffix Text"
  else if isMode mode ["prune_objects"]%string then js "Prune Rule (string or JSON object)"
  else js "Value (supports JSON or plain text)".

Definition getModeValuePlaceholder (mode : jstr) : jstr :=
  if isMode mode ["set_header"]%string then js "Bearer sk-xxx"
  else if isMode mode ["pass_headers"]%string then js "Authorization, X-Request-Id"
  else if isMode mode affixModes then js "openai/"
  else if isMode mode ["prune_objects"]%string then jsq "{'type':'redacted_thinking'}" else js "0.7".

(** ** Templates *)

Definition str (s : string) : jsval := VStr (js s).
Definition obj (fs : list (string * jsval)) : jsval := VObj (map (fun p => (js p.1, p.2)) fs).

Definition LEGACY_TEMPLATE : jsval := obj [("temperature", VNum num_zero); ("max_tokens", VNum (num_of_Z 1000))]%string.

Definition when (path mode value : string) : jsval := obj [("path", str path); ("mode", str mode); ("value", str value)]%string.

Definition OPERATION_TEMPLATE : jsval :=
  obj [("operations", VArr [obj
    [("description", str "Set default temperature for openai/* models."); ("path", str "temperature"); ("mode", str "set");
     ("value", VNum (num_of_str (js "0.7"))); ("conditions", VArr [when "model" "prefix" "openai/"]);
     ("logic", str "AND")]])]%string.

Definition HEADER_PASSTHROUGH_TEMPLATE : jsval :=
  obj [("operations", VArr [obj
    [("description", str "Pass through X-Request-Id header to upstream."); ("mode", str "pass_headers");
     ("value", VArr [str "X-Request-Id"]); ("keep_origin", VBool true)]])]%string.

Definition GEMINI_IMAGE_4K_TEMPLATE : jsval :=
  obj [("operations", VArr [obj
    [("description", str "Set imageSize to 4K when model contains gemini/image and ends with 4k."); ("mode", str "set");
     ("path", str "generationConfig.imageConfig.imageSize"); ("value", str "4K");
     ("conditions", VArr [when "original_model" "contains" "gemini"; when "original_model" "contains" "image";
                          when "original_model" "suffix" "4k"]);
     ("logic", str "AND")]])]%string.

Definition CODEX_CLI_HEADER_PASSTHROUGH_HEADERS : list string :=
  ["Originator"; "Session_id"; "User-Agent"; "X-Codex-Beta-Features"; "X-Codex-Turn-Metadata"]%string.

Definition CLAUDE_CLI_HEADER_PASSTHROUGH_HEADERS : list string :=
  ["X-Stainless-Arch"; "X-Stainless-Lang"; "X-Stainless-Os"; "X-Stainless-Package-Version"; "X-Stainless-Retry-Count";
   "X-Stainless-Runtime"; "X-Stainless-Runtime-Version"; "X-Stainless-Timeout"; "User-Agent"; "X-App"; "Anthropic-Beta";
   "Anthropic-Dangerous-Direct-Browser-Access"; "Anthropic-Version"]%string.

Definition buildPassHeadersTemplate (headers : list string) : jsval :=
  obj [("operations", VArr [obj [("mode", str "pass_headers"); ("value", VArr (map str headers)); ("keep_origin", VBool true)]])]%string.

(** The Bedrock token map: a replacement, or [null] to drop the token. *)
Definition bedrockTokens : list (string * jsval) :=
  [("advanced-tool-use-2025-11-20", str "tool-search-tool-2025-10-19"); ("bash_20241022", VNull); ("bash_20250124", VNull);
   ("code-execution-2025-08-25", VNull); ("compact-2026-01-12", str "compact-2026-01-12");
   ("computer-use-2025-01-24", str "computer-use-2025-01-24"); ("computer-use-2025-11-24", str "computer-use-2025-11-24");
   ("context-1m-2025-08-07", str "context-1m-2025-08-07");
   ("context-management-2025-06-27", str "context-management-2025-06-27"); ("effort-2025-11-24", VNull);
   ("fast-mode-2026-02-01", VNull); ("files-api-2025-04-14", VNull); ("fine-grained-tool-streaming-2025-05-14", VNull);
   ("interleaved-thinking-2025-05-14", str "interleaved-thinking-2025-05-14"); ("mcp-client-2025-11-20", VNull);
   ("mcp-client-2025-04-04", VNull); ("mcp-servers-2025-12-04", VNull); ("output-128k-2025-02-19", VNull);
   ("structured-output-2024-03-01", VNull); ("prompt-caching-scope-2026-01-05", VNull); ("skills-2025-10-02", VNull);
   ("structured-outputs-2025-11-13", VNull); ("text_editor_20241022", VNull); ("text_editor_20250124", VNull);
   ("token-efficient-tools-2025-02-19", VNull); ("tool-search-tool-2025-10-19", str "tool-search-tool-2025-10-19");
   ("web-fetch-2025-09-10", VNull); ("web-search-2025-03-05", VNull); ("oauth-2025-04-20", VNull)]%string.

Definition AWS_BEDROCK_ANTHROPIC_COMPAT_TEMPLATE : jsval :=
  obj [("operations", VArr
    [obj [("description", str "Normalize anthropic-beta header tokens for Bedrock compatibility."); ("mode", str "set_header");
          ("path", str "anthropic-beta"); ("value", obj bedrockTokens)];
     obj [("description", str "Remove all tools[*].custom.input_examples before upstream relay."); ("mode", str "delete");
          ("path", str "tools.*.custom.input_examples")]])]%string.

Inductive TemplateKind := KindOperations | KindLegacy.
Record TemplatePresetConfig := mkPreset { tp_label : jstr; tp_kind : TemplateKind; tp_payload : jsval }.

Definition preset (label : string) (kind : TemplateKind) (payload : jsval) : TemplatePresetConfig := mkPreset (js label) kind payload.

Definition TEMPLATE_PRESET_CONFIG : list (jstr * TemplatePresetConfig) :=
  map (fun p => (js p.1, p.2))
  [("operations_default", preset "New Format Template" KindOperations OPERATION_TEMPLATE);
   ("legacy_default", preset "Legacy Format Template" KindLegacy LEGACY_TEMPLATE);
   ("pass_headers_auth", preset "Header Passthrough (X-Request-Id)" KindOperations HEADER_PASSTHROUGH_TEMPLATE);
   ("gemini_image_4k", preset "Gemini Image 4K" KindOperations GEMINI_IMAGE_4K_TEMPLATE);
   ("claude_cli_headers_passthrough", preset "Claude CLI Header Passthrough" KindOperations
      (buildPassHeadersTemplate CLAUDE_CLI_HEADER_PASSTHROUGH_HEADERS));
   ("codex_cli_headers_passthrough", preset "Codex CLI Header Passthrough" KindOperations
      (buildPassHeadersTemplate CODEX_CLI_HEADER_PASSTHROUGH_HEADERS));
   ("aws_bedrock_anthropic_beta_override", preset "AWS Bedrock Claude Compat" KindOperations
      AWS_BEDROCK_ANTHROPIC_COMPAT_TEMPLATE)]%string.

Fixpoint presetIn (key : jstr) (l : list (jstr * TemplatePresetConfig)) : option TemplatePresetConfig :=
  match l with [] => None | (k, p) :: l' => if key === k then Some p else presetIn key l' end.

(** [TEMPLATE_PRESET_CONFIG[key] || TEMPLATE_PRESET_CONFIG.operations_default] *)
Definition presetOf (key : jstr) : TemplatePresetConfig :=
  default (preset "New Format Template" KindOperations OPERATION_TEMPLATE) (presetIn key TEMPLATE_PRESET_CONFIG).

(** ** State *)

Record Editor := mkEditor {
  ed_editMode : EditMode; ed_visualMode : VisualMode; ed_legacyValue : jstr; ed_operations : list ParamOverrideOperation;
  ed_jsonText : jstr; ed_jsonError : jstr; ed_operationSearch : jstr; ed_selectedOperationId : jstr;
  ed_expandedConditions : list (jstr * bool); ed_draggedOperationId : jstr; ed_dragOverOperationId : jstr;
  ed_dragOverPosition : DropPosition; ed_templatePresetKey : jstr; ed_seed : nat }.

(** Texts the dialog shows through [t]. *)
Inductive Notice :=
| MRule (line : nat) (problem : RuleProblem) | MInvalidJson | MLegacyNotObject | MConfigError | MNotObject | MCannotAppend
| MFormatError.

(** What a callback does besides changing the state. *)
Inductive Effect := Toast (text : jstr) | Save (text : jstr) | Close.

(** The setters used below. *)
Definition withOperations (ops : list ParamOverrideOperation) (e : Editor) : Editor :=
  mkEditor (ed_editMode e) (ed_visualMode e) (ed_legacyValue e) ops (ed_jsonText e) (ed_jsonError e) (ed_operationSearch e)
    (ed_selectedOperationId e) (ed_expandedConditions e) (ed_draggedOperationId e) (ed_dragOverOperationId e)
    (ed_dragOverPosition e) (ed_templatePresetKey e) (ed_seed e).
Definition withSelected (id : jstr) (e : Editor) : Editor :=
  mkEditor (ed_editMode e) (ed_visualMode e) (ed_legacyValue e) (ed_operations e) (ed_jsonText e) (ed_jsonError e)
    (ed_operationSearch e) id (ed_expandedConditions e) (ed_draggedOperationId e) (ed_dragOverOperationId e)
    (ed_dragOverPosition e) (ed_templatePresetKey e) (ed_seed e).
Definition withExpanded (m : list (jstr * bool)) (e : Editor) : Editor :=
  mkEditor (ed_editMode e) (ed_visualMode e) (ed_legacyValue e) (ed_operations e) (ed_jsonText e) (ed_jsonError e)
    (ed_operationSearch e) (ed_selectedOperationId e) m (ed_draggedOperationId e) (ed_dragOverOperationId e)
    (ed_dragOverPosition e) (ed_templatePresetKey e) (ed_seed e).
Definition withDrag (dragged over : jstr) (position : DropPosition) (e : Editor) : Editor :=
  mkEditor (ed_editMode e) (ed_visualMode e) (ed_legacyValue e) (ed_operations e) (ed_jsonText e) (ed_jsonError e)
    (ed_operationSearch e) (ed_selectedOperationId e) (ed_expandedConditions e) dragged over position (ed_templatePresetKey e)
    (ed_seed e).
Definition withJson (text error : jstr) (e : Editor) : Editor :=
  mkEditor (ed_editMode e) (ed_visualMode e) (ed_legacyValue e) (ed_operations e) text error (ed_operationSearch e)
    (ed_selectedOperationId e) (ed_expandedConditions e) (ed_draggedOperationId e) (ed_dragOverOperationId e)
    (ed_dragOverPosition e) (ed_templatePresetKey e) (ed_seed e).
Definition withView (edit : EditMode) (visual : VisualMode) (legacy : jstr) (e : Editor) : Editor :=
  mkEditor edit visual legacy (ed_operations e) (ed_jsonText e) (ed_jsonError e) (ed_operationSearch e)
    (ed_selectedOperationId e) (ed_expandedConditions e) (ed_draggedOperationId e) (ed_dragOverOperationId e)
    (ed_dragOverPosition e) (ed_templatePresetKey e) (ed_seed e).
Definition withPreset (key : jstr) (e : Editor) : Editor :=
  mkEditor (ed_editMode e) (ed_visualMode e) (ed_legacyValue e) (ed_operations e) (ed_jsonText e) (ed_jsonError e)
    (ed_operationSearch e) (ed_selectedOperationId e) (ed_expandedConditions e) (ed_draggedOperationId e)
    (ed_dragOverOperationId e) (ed_dragOverPosition e) key (ed_seed e).
Definition withSearch (text : jstr) (e : Editor) : Editor :=
  mkEditor (ed_editMode e) (ed_visualMode e) (ed_legacyValue e) (ed_operations e) (ed_jsonText e) (ed_jsonError e) text
    (ed_selectedOperationId e) (ed_expandedConditions e) (ed_draggedOperationId e) (ed_dragOverOperationId e)
    (ed_dragOverPosition e) (ed_templatePresetKey e) (ed_seed e).
Definition withSeed (seed : nat) (e : Editor) : Editor :=
  mkEditor (ed_editMode e) (ed_visualMode e) (ed_legacyValue e) (ed_operations e) (ed_jsonText e) (ed_jsonError e)
    (ed_operationSearch e) (ed_selectedOperationId e) (ed_expandedConditions e) (ed_draggedOperationId e)
    (ed_dragOverOperationId e) (ed_dragOverPosition e) (ed_templatePresetKey e) seed.

(** Run a computation that draws identifiers from the dialog's counter. *)
Definition draw {A} (m : gen A) (e : Editor) (k : A -> Editor -> Editor) : outcome Editor :=
  p <-- m (ed_seed e) ;; Ret (k p.1 (withSeed p.2 e)).

Definition firstId (ops : list ParamOverrideOperation) : jstr := match ops with o :: _ => o_id o | [] => [] end.

(** ** Derived values *)

Definition operationCount (e : Editor) : nat := length (List.filter (fun o => negb (isOperationBlank o)) (ed_operations e)).

Definition filteredOperations (toLowerCase : jstr -> jstr) (e : Editor) : list ParamOverrideOperation :=
  let keyword := toLowerCase (trim (ed_operationSearch e)) in
  if negb (truthy_str keyword) then ed_operations e
  else List.filter (fun op =>
         let searchableText := toLowerCase (js_join (js " ") (List.filter truthy_str
           [o_description op; o_mode op; o_path op; o_from op; o_to op; o_value_text op])) in
         includes keyword searchableText) (ed_operations e).

Definition selectedOperation (e : Editor) : option ParamOverrideOperation :=
  List.find (hasId (ed_selectedOperationId e)) (ed_operations e).

(** The four most frequent modes. *)
Definition countMode (counts : list (jstr * Z)) (op : ParamOverrideOperation) : list (jstr * Z) :=
  let mode := modeOf op in mset mode (default 0 (mget mode counts) + 1)%Z counts.
Definition topOperationModes (e : Editor) : list (jstr * Z) :=
  take 4 (sort_by (fun a b => b.2 - a.2)%Z (entries (foldl countMode [] (ed_operations e)))).

(** The effect on [operations] and [selectedOperationId]. *)
Definition settle (e : Editor) : Editor :=
  match ed_operations e with
  | [] => withSelected [] e
  | o :: _ => if existsb (hasId (ed_selectedOperationId e)) (ed_operations e) then e else withSelected (o_id o) e
  end.

Section Callbacks.
Context (clock : nat -> Z) (t : Notice -> jstr).

(** ** Opening *)

Definition openDialog (value : jstr) (e : Editor) : outcome Editor :=
  draw (parseInitialState clock value) e (fun state e =>
    mkEditor (es_editMode state) (es_visualMode state) (es_legacyValue state) (es_operations state) (es_jsonText state)
      (es_jsonError state) [] (firstId (es_operations state)) [] [] [] Before
      (match es_visualMode state with ModeLegacy => js "legacy_default" | ModeOperations => js "operations_default" end)
      (ed_seed e)).

(** ** Rules *)

(** The fields a patch replaces. *)
Record OperationPatch := mkOpPatch {
  p_description : option jstr; p_path : option jstr; p_mode : option jstr; p_from : option jstr; p_to : option jstr;
  p_value_text : option jstr; p_keep_origin : option bool; p_logic : option jstr }.

Definition patchOperation (patch : OperationPatch) (o : ParamOverrideOperation) : ParamOverrideOperation :=
  {| o_id := o_id o; o_description := default (o_description o) (p_description patch); o_path := default (o_path o) (p_path patch);
     o_mode := default (o_mode o) (p_mode patch); o_from := default (o_from o) (p_from patch); o_to := default (o_to o) (p_to patch);
     o_value_text := default (o_value_text o) (p_value_text patch);
     o_keep_origin := default (o_keep_origin o) (p_keep_origin patch); o_logic := default (o_logic o) (p_logic patch);
     o_conditions := o_conditions o |}.

Definition mapOperation (operationId : jstr) (f : ParamOverrideOperation -> ParamOverrideOperation)
    (ops : list ParamOverrideOperation) : list ParamOverrideOperation :=
  map (fun o => if hasId operationId o then f o else o) ops.

Definition updateOperation (operationId : jstr) (patch : OperationPatch) (e : Editor) : Editor :=
  withOperations (mapOperation operationId (patchOperation patch) (ed_operations e)) e.

Definition addOperation (e : Editor) : outcome Editor :=
  draw (createDefaultOperation clock) e (fun created e =>
    withSelected (o_id created) (withOperations (ed_operations e ++ [created]) e)).

(** The object a copy is read from. *)
Definition copyCondition (c : ParamOverrideCondition) : jsval :=
  VObj [(js "path", VStr (c_path c)); (js "mode", VStr (c_mode c)); (js "value", parseLooseValue (c_value_text c));
        (js "invert", VBool (c_invert c)); (js "pass_missing_key", VBool (c_pass_missing_key c))].
Definition copyOperation (source : ParamOverrideOperation) : jsval :=
  VObj [(js "description", VStr (o_description source)); (js "path", VStr (o_path source)); (js "mode", VStr (o_mode source));
        (js "value", parseLooseValue (o_value_text source)); (js "keep_origin", VBool (o_keep_origin source));
        (js "from", VStr (o_from source)); (js "to", VStr (o_to source)); (js "logic", VStr (o_logic source));
        (js "conditions", VArr (map copyCondition (o_conditions source)))].

(** The updater runs inside [setOperations]; [eager] says whether React ran it
    before the callback looks at the identifier it sets. *)
Definition duplicateOperation (operationId : jstr) (eager : bool) (e : Editor) : outcome Editor :=
  match findIndex (hasId operationId) (ed_operations e) with
  | None => Ret e
  | Some idx =>
      match ed_operations e !! idx with
      | None => Ret e
      | Some source =>
          draw (normalizeOperation clock (copyOperation source)) e (fun cloned e =>
            let e := withOperations (take (S idx) (ed_operations e) ++ cloned :: drop (S idx) (ed_operations e)) e in
            if eager then withSelected (o_id cloned) e else e)
      end
  end.

Definition removeOperation (operationId : jstr) (e : Editor) : outcome Editor :=
  if (length (ed_operations e) <=? 1)%nat then draw (createDefaultOperation clock) e (fun o => withOperations [o])
  else Ret (withOperations (List.filter (fun o => negb (hasId operationId o)) (ed_operations e)) e).

(** ** Conditions *)

Definition withConditions (cs : list ParamOverrideCondition) (o : ParamOverrideOperation) : ParamOverrideOperation :=
  mkPoOperation (o_id o) (o_description o) (o_path o) (o_mode o) (o_from o) (o_to o) (o_value_text o) (o_keep_origin o) (o_logic o) cs.

Record ConditionPatch := mkCondPatch {
  q_path : option jstr; q_mode : option jstr; q_value_text : option jstr; q_invert : option bool; q_pass_missing_key : option bool }.

Definition patchCondition (patch : ConditionPatch) (c : ParamOverrideCondition) : ParamOverrideCondition :=
  mkPoCondition (c_id c) (default (c_path c) (q_path patch)) (default (c_mode c) (q_mode patch))
    (default (c_value_text c) (q_value_text patch)) (default (c_invert c) (q_invert patch))
    (default (c_pass_missing_key c) (q_pass_missing_key patch)).

Definition addCondition (operationId : jstr) (e : Editor) : outcome Editor :=
  draw (createDefaultCondition clock) e (fun created e =>
    withExpanded (mset (c_id created) true (ed_expandedConditions e))
      (withOperations (mapOperation operationId (fun o => withConditions (o_conditions o ++ [created]) o) (ed_operations e)) e)).

Definition updateCondition (operationId conditionId : jstr) (patch : ConditionPatch) (e : Editor) : Editor :=
  withOperations (mapOperation operationId (fun o =>
    withConditions (map (fun c => if c_id c === conditionId then patchCondition patch c else c) (o_conditions o)) o)
    (ed_operations e)) e.

Definition removeCondition (operationId conditionId : jstr) (e : Editor) : Editor :=
  withOperations (mapOperation operationId (fun o =>
    withConditions (List.filter (fun c => negb (c_id c === conditionId)) (o_conditions o)) o) (ed_operations e)) e.

(** Expand or collapse the conditions of the selected rule. *)
Definition setAllConditions (expanded : bool) (e : Editor) : Editor :=
  match selectedOperation e with
  | None => e
  | Some o => withExpanded (foldl (fun m c => mset (c_id c) expanded m) (ed_expandedConditions e) (o_conditions o)) e
  end.
Definition expandAllConditions : Editor -> Editor := setAllConditions true.
Definition collapseAllConditions : Editor -> Editor := setAllConditions false.

(** ** Structured values *)

Definition withValueText (text : jstr) (o : ParamOverrideOperation) : ParamOverrideOperation :=
  mkPoOperation (o_id o) (o_description o) (o_path o) (o_mode o) (o_from o) (o_to o) text (o_keep_origin o) (o_logic o) (o_conditions o).

Definition updateReturnErrorDraft (operationId : jstr) (patch : ReturnErrorDraft -> ReturnErrorDraft) (e : Editor) : Editor :=
  withOperations (mapOperation operationId (fun o =>
    withValueText (buildReturnErrorValueText (patch (parseReturnErrorDraft (o_value_text o)))) o) (ed_operations e)) e.

(** The draft is parsed again, with new identifiers for its rules, and passed
    to the updater, which may draw more. *)
Definition updatePruneValue (updater : PruneObjectsDraft -> gen PruneObjectsDraft) (o : ParamOverrideOperation)
  : gen ParamOverrideOperation :=
  draft <~ parsePruneObjectsDraft clock (o_value_text o) ;;
  nextDraft <~ updater draft ;;
  gret (withValueText (buildPruneObjectsValueText nextDraft) o).

Definition updatePruneObjectsDraft (operationId : jstr) (updater : PruneObjectsDraft -> gen PruneObjectsDraft) (e : Editor)
  : outcome Editor :=
  draw (gmap (fun o => if hasId operationId o then updatePruneValue updater o else gret o) (ed_operations e)) e withOperations.

Definition addedRule (draft : PruneObjectsDraft) : gen PruneObjectsDraft :=
  rule <~ normalizePruneRule clock (VObj []) ;;
  gret (mkPruneDraft false (pr_typeText draft) (pr_logic draft) (pr_recursive draft) (pr_rules draft ++ [rule])).
Definition addPruneRule (operationId : jstr) : Editor -> outcome Editor := updatePruneObjectsDraft operationId addedRule.

Definition withRules (rules : list PruneRule) (draft : PruneObjectsDraft) : PruneObjectsDraft :=
  mkPruneDraft (pr_simpleMode draft) (pr_typeText draft) (pr_logic draft) (pr_recursive draft) rules.

Definition patchedRules (ruleId : jstr) (patch : ConditionPatch) (draft : PruneObjectsDraft) : PruneObjectsDraft :=
  withRules (map (fun r => if c_id r === ruleId then patchCondition patch r else r) (pr_rules draft)) draft.
Definition updatePruneRule (operationId ruleId : jstr) (patch : ConditionPatch) : Editor -> outcome Editor :=
  updatePruneObjectsDraft operationId (fun draft => gret (patchedRules ruleId patch draft)).

Definition withoutRule (ruleId : jstr) (draft : PruneObjectsDraft) : PruneObjectsDraft :=
  withRules (List.filter (fun r => negb (c_id r === ruleId)) (pr_rules draft)) draft.
Definition removePruneRule (operationId ruleId : jstr) : Editor -> outcome Editor :=
  updatePruneObjectsDraft operationId (fun draft => gret (withoutRule ruleId draft)).

(** ** Drag and drop *)

Definition resetDragState : Editor -> Editor := withDrag [] [] Before.

Definition handleDragStart (operationId : jstr) (e : Editor) : Editor :=
  withSelected operationId (withDrag operationId (ed_dragOverOperationId e) (ed_dragOverPosition e) e).

(** [lowerHalf]: the pointer is below the middle of the row. *)
Definition handleDragOver (operationId : jstr) (lowerHalf : bool) (e : Editor) : Editor :=
  if negb (truthy_str (ed_draggedOperationId e)) || (ed_draggedOperationId e === operationId) then e
  else withDrag (ed_draggedOperationId e) operationId (if lowerHalf then After else Before) e.

(** [data]: the text the drag event carries. *)
Definition handleDrop (operationId data : jstr) (e : Editor) : Editor :=
  let sourceId := str_or (ed_draggedOperationId e) data in
  let position := if ed_dragOverOperationId e === operationId then ed_dragOverPosition e else Before in
  let e' := if truthy_str sourceId && truthy_str operationId && negb (sourceId === operationId)
            then withSelected sourceId (withOperations (reorderOperations (ed_operations e) sourceId operationId position) e)
            else e in
  resetDragState e'.

(** ** Switching between the forms *)

Definition buildVisualJson (e : Editor) : Notice + jstr :=
  match ed_visualMode e with
  | ModeLegacy =>
      let trimmed := trim (ed_legacyValue e) in
      if negb (truthy_str trimmed) then inr []
      else match json_parse trimmed with
           | None => inl MInvalidJson
           | Some (VObj fs) => inr (jsonText2 (VObj fs))
           | Some _ => inl MLegacyNotObject
           end
  | ModeOperations =>
      match buildOperationsJson (ed_operations e) true with
      | inl (line, problem) => inl (MRule line problem)
      | inr text => inr text
      end
  end.

(** The text of the rules without validation. *)
Definition uncheckedJson (ops : list ParamOverrideOperation) : jstr :=
  match buildOperationsJson ops false with inr text => text | inl _ => [] end.

Definition switchToJsonMode (e : Editor) : Editor * list Effect :=
  match ed_editMode e with
  | ModeJson => (e, [])
  | ModeVisual =>
      match buildVisualJson e with
      | inr text => (withView ModeJson (ed_visualMode e) (ed_legacyValue e) (withJson text [] e), [])
      | inl m =>
          let text := match ed_visualMode e with ModeLegacy => ed_legacyValue e | ModeOperations => uncheckedJson (ed_operations e) end in
          (withView ModeJson (ed_visualMode e) (ed_legacyValue e) (withJson text (str_or (t m) (t MConfigError)) e), [Toast (t m)])
      end
  end.

Definition toVisual (visual : VisualMode) (legacy : jstr) (ops : list ParamOverrideOperation) (e : Editor) : Editor :=
  withView ModeVisual visual legacy (withJson (ed_jsonText e) [] (withSelected (firstId ops) (withOperations ops e))).

Definition switchToVisualMode (e : Editor) : outcome (Editor * list Effect) :=
  match ed_editMode e with
  | ModeVisual => Ret (e, [])
  | ModeJson =>
      let trimmed := trim (ed_jsonText e) in
      if negb (truthy_str trimmed) then
        e' <-- draw (createDefaultOperation clock) e (fun fallback => toVisual ModeOperations [] [fallback]) ;; Ret (e', [])
      else match json_parse trimmed with
           | None => Ret (e, [Toast (t MInvalidJson)])
           | Some (VObj fs) =>
               match fs.{"operations"} with
               | VArr items =>
                   e' <-- draw (storedOperations clock items) e (fun ops e =>
                            withPreset (js "operations_default") (toVisual ModeOperations [] ops e)) ;; Ret (e', [])
               | _ =>
                   e' <-- draw (createDefaultOperation clock) e (fun fallback e =>
                            withPreset (js "legacy_default") (toVisual ModeLegacy (jsonText2 (VObj fs)) [fallback] e)) ;; Ret (e', [])
               end
           | Some _ => Ret (e, [Toast (t MNotObject)])
           end
  end.

(** ** Templates *)

Inductive FillMode := Fill | Append.

(** The own properties a spread copies. *)
Definition spread (v : jsval) : list (jstr * jsval) :=
  match v with
  | VObj fs => entries fs
  | VArr xs => zip (map (fun i => print_nat_dec (Z.of_nat i)) (seq 0 (length xs))) xs
  | VStr s => zip (map (fun i => print_nat_dec (Z.of_nat i)) (seq 0 (length s))) (map (fun c => VStr [c]) s)
  | _ => []
  end.
Definition mergeSpread (base : jsval) (over : jsval) : jsval :=
  VObj (foldl (fun fs p => set_prop p.1 p.2 fs) [] (spread base ++ spread over)).

(** The legacy text takes the place of the rules. *)
Definition fillLegacy (text : jstr) (e : Editor) : outcome Editor :=
  draw (createDefaultOperation clock) e (fun o e => withView ModeVisual ModeLegacy text (withJson text [] (withOperations [o] e))).

Definition fillTemplate (mode : FillMode) (e : Editor) : outcome (Editor * list Effect) :=
  let p := presetOf (ed_templatePresetKey e) in
  let payload := tp_payload p in
  match tp_kind p with
  | KindLegacy =>
      match mode, ed_visualMode e with
      | Append, ModeLegacy =>
          let trimmed := trim (ed_legacyValue e) in
          match (if truthy_str trimmed then json_parse trimmed else Some (VObj [])) with
          | None => Ret (e, [Toast (t MCannotAppend)])
          | Some parsedCurrent =>
              e' <-- fillLegacy (jsonText2 (mergeSpread payload parsedCurrent)) e ;; Ret (e', [])
          end
      | _, _ => e' <-- fillLegacy (jsonText2 payload) e ;; Ret (e', [])
      end
  | KindOperations =>
      v <-- prop payload (js "operations") ;;
      let operationsPayload := match v with VArr items => items | _ => [] end in
      match mode with
      | Append =>
          e' <-- draw (gmap (normalizeOperation clock) operationsPayload) e (fun appended e =>
                   let existing := match ed_visualMode e with
                                   | ModeOperations => List.filter (fun o => negb (isOperationBlank o)) (ed_operations e)
                                   | ModeLegacy => []
                                   end in
                   let nextOps := existing ++ appended in
                   withView ModeVisual ModeOperations [] (withJson [] []
                     (withSelected (firstId nextOps) (withOperations nextOps e)))) ;;
          Ret (e', [])
      | Fill =>
          e' <-- draw (storedOperations clock operationsPayload) e (fun finalOps e =>
                   withView ModeVisual ModeOperations (ed_legacyValue e)
                     (withJson (jsonText2 (VObj [(js "operations", VArr operationsPayload)])) []
                        (withSelected (firstId finalOps) (withOperations finalOps e)))) ;;
          Ret (e', [])
      end
  end.

Definition resetEditorState (e : Editor) : outcome Editor :=
  draw (createDefaultOperation clock) e (fun fallback e =>
    withPreset (js "operations_default") (withView ModeVisual ModeOperations [] (withJson [] []
      (withSelected (o_id fallback) (withOperations [fallback] e))))).

(** ** JSON text and saving *)

Definition handleJsonChange (nextValue : jstr) (e : Editor) : Editor :=
  let trimmed := trim nextValue in
  withJson nextValue (if negb (truthy_str trimmed) then [] else if verifyJSON trimmed then [] else t MFormatError) e.

Definition formatJson (e : Editor) : Editor * list Effect :=
  let trimmed := trim (ed_jsonText e) in
  if negb (truthy_str trimmed) then (e, [])
  else match json_parse trimmed with
       | None => (e, [Toast (t MInvalidJson)])
       | Some v => (withJson (jsonText2 v) [] e, [])
       end.

Definition visualValidationError (e : Editor) : jstr :=
  match ed_editMode e with
  | ModeJson => []
  | ModeVisual => match buildVisualJson e with inr _ => [] | inl m => str_or (t m) (t MConfigError) end
  end.

(** The text to save, or the error. *)
Definition savedText (e : Editor) : Notice + jstr :=
  match ed_editMode e with
  | ModeJson =>
      let trimmed := trim (ed_jsonText e) in
      if negb (truthy_str trimmed) then inr []
      else match json_parse trimmed with Some v => inr (jsonText2 v) | None => inl MInvalidJson end
  | ModeVisual => buildVisualJson e
  end.

Definition handleSave (e : Editor) : list Effect :=
  match savedText e with inr text => [Save text; Close] | inl m => [Toast (t m)] end.

(** ** Events *)

Inductive Event :=
| EOpen (value : jstr) | ESearch (text : jstr) | ESelect (operationId : jstr)
| EUpdateOperation (operationId : jstr) (patch : OperationPatch) | EAddOperation
| EDuplicate (operationId : jstr) (eager : bool) | ERemove (operationId : jstr)
| EAddCondition (operationId : jstr) | EUpdateCondition (operationId conditionId : jstr) (patch : ConditionPatch)
| ERemoveCondition (operationId conditionId : jstr) | EExpand (conditionId : jstr) (expanded : bool) | EExpandAll | ECollapseAll
| EReturnError (operationId : jstr) (patch : ReturnErrorDraft -> ReturnErrorDraft)
| EPruneDraft (operationId : jstr) (patch : PruneObjectsDraft -> PruneObjectsDraft) | EAddPruneRule (operationId : jstr)
| EUpdatePruneRule (operationId ruleId : jstr) (patch : ConditionPatch) | ERemovePruneRule (operationId ruleId : jstr)
| EDragStart (operationId : jstr) | EDragOver (operationId : jstr) (lowerHalf : bool) | EDrop (operationId data : jstr) | EDragEnd
| EToJson | EToVisual | ELegacy (text : jstr) | EPreset (key : jstr) | EFill (mode : FillMode) | EReset
| EJsonChange (text : jstr) | EFormat | ESave.

Definition quiet (e : outcome Editor) : outcome (Editor * list Effect) := e' <-- e ;; Ret (e', []).

Definition handle (event : Event) (e : Editor) : outcome (Editor * list Effect) :=
  match event with
  | EOpen value => quiet (openDialog value e)
  | ESearch text => Ret (withSearch text e, [])
  | ESelect id => Ret (withSelected id e, [])
  | EUpdateOperation id patch => Ret (updateOperation id patch e, [])
  | EAddOperation => quiet (addOperation e)
  | EDuplicate id eager => quiet (duplicateOperation id eager e)
  | ERemove id => quiet (removeOperation id e)
  | EAddCondition id => quiet (addCondition id e)
  | EUpdateCondition id cid patch => Ret (updateCondition id cid patch e, [])
  | ERemoveCondition id cid => Ret (removeCondition id cid e, [])
  | EExpand cid expanded => Ret (withExpanded (mset cid expanded (ed_expandedConditions e)) e, [])
  | EExpandAll => Ret (expandAllConditions e, [])
  | ECollapseAll => Ret (collapseAllConditions e, [])
  | EReturnError id patch => Ret (updateReturnErrorDraft id patch e, [])
  | EPruneDraft id patch => quiet (updatePruneObjectsDraft id (fun d => gret (patch d)) e)
  | EAddPruneRule id => quiet (addPruneRule id e)
  | EUpdatePruneRule id rid patch => quiet (updatePruneRule id rid patch e)
  | ERemovePruneRule id rid => quiet (removePruneRule id rid e)
  | EDragStart id => Ret (handleDragStart id e, [])
  | EDragOver id lower => Ret (handleDragOver id lower e, [])
  | EDrop id data => Ret (handleDrop id data e, [])
  | EDragEnd => Ret (resetDragState e, [])
  | EToJson => Ret (switchToJsonMode e)
  | EToVisual => switchToVisualMode e
  | ELegacy text => Ret (withView (ed_editMode e) (ed_visualMode e) text e, [])
  | EPreset key => Ret (withPreset (str_or key (js "operations_default")) e, [])
  | EFill mode => fillTemplate mode e
  | EReset => quiet (resetEditorState e)
  | EJsonChange text => Ret (handleJsonChange text e, [])
  | EFormat => Ret (formatJson e)
  | ESave => Ret (e, handleSave e)
  end.

(** One event and the effect that follows. *)
Inductive step : Editor -> list Effect -> Editor -> Prop :=
| step_event event e e' effects : handle event e = Ret (e', effects) -> step e effects (settle e').

(** Before the dialog is opened: one blank rule. *)
Definition initialEditor : outcome Editor :=
  draw (createDefaultOperation clock)
    (mkEditor ModeVisual ModeOperations [] [] [] [] [] [] [] [] [] Before (js "operations_default") 0)
    (fun o => withOperations [o]).

Inductive reachable : Editor -> Prop :=
| reach_init e : initialEditor = Ret e -> reachable (settle e)
| reach_step e effects e' : reachable e -> step e effects e' -> reachable e'.
End Callbacks.
