(* ===== verification/ParamOverrideEditorCorrect.v ===== *)
(** * Correctness of the parameter override dialog

    Identifiers are never reused, so the rules of every reachable state have
    distinct identifiers, there is always a rule, and the selection points to
    one.  Edits of a prune rule address identifiers that no longer exist. *)
From stdpp Require Import prelude list strings.
From Stdlib Require Import NArith Ascii Permutation.
From S2P Require Import Prelude JsString JsNumber JsValue JsonText JsRegex JsMap ParamOverride ParamOverrideEditor ParamOverrideCorrect.
Open Scope js_scope.

Section Dialog.
Context (clock : nat -> Z) (t : Notice -> jstr).
Notation localId := (localId clock).

(** ** Identifiers *)

Lemma after_last (a a' d d' : jstr) : Forall (fun c => c <> u "_") d -> Forall (fun c => c <> u "_") d' ->
  a ++ u "_" :: d = a' ++ u "_" :: d' -> d = d'.
Proof.
  intros Hd Hd'. revert a'. induction a as [|x a IH]; intros [|x' a'] E; cbn [app] in E; simplify_eq; try done.
  - rewrite List.Forall_forall in Hd. destruct (Hd (u "_")); [|done]. apply in_app_iff. right. by left.
  - rewrite List.Forall_forall in Hd'. destruct (Hd' (u "_")); [|done]. apply in_app_iff. right. by left.
  - by eapply IH.
Qed.

Lemma seed_digits n : Forall (fun c => c <> u "_") (print_int (Z.of_nat n)).
Proof.
  unfold print_int. case_if; [bool_hyps; lia|]. eapply Forall_impl; [by apply all_digits_Forall, print_nat_dec_all_digits; lia|].
  intros c Hc ->. by vm_compute in Hc.
Qed.

Lemma localId_inj i j : localId i = localId j -> i = j.
Proof.
  unfold ParamOverride.localId. rewrite !(app_assoc (js "po_")). change (js "_" ++ ?x) with (u "_" :: x).
  intros E%after_last; [|apply seed_digits..]. revert E. unfold print_int. repeat (case_if; [bool_hyps; lia|]).
  intros E%print_nat_dec_inj; lia.
Qed.

Definition opIds (o : ParamOverrideOperation) : list jstr := o_id o :: map c_id (o_conditions o).
Definition allIds (ops : list ParamOverrideOperation) : list jstr := concat (map opIds ops).

Definition idBetween (lo hi : nat) (s : jstr) : Prop := exists i, (lo <= i < hi)%nat /\ s = localId i.
Definition freshIn (lo hi : nat) (ids : list jstr) : Prop := NoDup ids /\ Forall (idBetween lo hi) ids.

Lemma idBetween_weaken lo hi lo' hi' s : (lo' <= lo)%nat -> (hi <= hi')%nat -> idBetween lo hi s -> idBetween lo' hi' s.
Proof. intros H1 H2 (i & Hi & ->). exists i. split; [lia|done]. Qed.

Lemma fresh_nil lo hi : freshIn lo hi [].
Proof. split; constructor. Qed.

Lemma fresh_one n : freshIn n (S n) [localId n].
Proof. split; [apply NoDup_singleton|]. constructor; [|constructor]. exists n. split; [lia|done]. Qed.

Lemma fresh_app lo mid hi a b : (lo <= mid)%nat -> (mid <= hi)%nat -> freshIn lo mid a -> freshIn mid hi b -> freshIn lo hi (a ++ b).
Proof.
  intros H1 H2 [Na Fa] [Nb Fb]. rewrite Forall_forall in Fa, Fb. split.
  - apply NoDup_app. split_and!; [done| |done]. intros x Hx Hy. destruct (Fa x Hx) as (i & Hi & ->), (Fb _ Hy) as (j & Hj & E).
    apply localId_inj in E. lia.
  - apply Forall_app. split; apply Forall_forall; intros x Hx; [eapply idBetween_weaken; [| |by apply Fa]|eapply idBetween_weaken; [| |by apply Fb]]; lia.
Qed.

(** A computation whose result carries only the identifiers it drew. *)
Definition drawsFresh {A} (ids : A -> list jstr) (m : gen A) : Prop :=
  forall seed a seed', m seed = Ret (a, seed') -> (seed <= seed')%nat /\ freshIn seed seed' (ids a).

Lemma gbind_inv {A B} (m : gen A) (k : A -> gen B) seed b seed' :
  gbind m k seed = Ret (b, seed') -> exists a s1, m seed = Ret (a, s1) /\ k a s1 = Ret (b, seed').
Proof. unfold gbind. destruct (m seed) as [[a s1]|]; [|done]. cbn [obind fst snd]. intros H. by exists a, s1. Qed.

Lemma glift_inv {A} (m : outcome A) seed a seed' : glift m seed = Ret (a, seed') -> m = Ret a /\ seed' = seed.
Proof. unfold glift. destruct m; [|done]. cbn [obind]. by intros [= <- <-]. Qed.

Lemma gmap_fresh {A B} (ids : B -> list jstr) (f : A -> gen B) xs :
  (forall x, drawsFresh ids (f x)) -> drawsFresh (fun ys => concat (map ids ys)) (gmap f xs).
Proof.
  intros Hf. induction xs as [|x xs IH]; intros seed ys seed' E; cbn [gmap] in E.
  - injection E as <- <-. split; [done|apply fresh_nil].
  - apply gbind_inv in E as (y & s1 & E1 & E). apply gbind_inv in E as (l & s2 & E2 & E). injection E as <- <-.
    destruct (Hf x _ _ _ E1) as [L1 F1], (IH _ _ _ E2) as [L2 F2]. split; [lia|]. cbn [map concat]. by eapply fresh_app.
Qed.

Lemma normalizeCondition_fresh v : drawsFresh (fun c => [c_id c]) (normalizeCondition clock v).
Proof.
  intros seed c seed' E. unfold normalizeCondition in E. apply gbind_inv in E as (id & s1 & E1 & E). injection E1 as <- <-.
  apply glift_inv in E as [E ->]. split; [lia|]. unfold readCondition in E. destruct v; try done; cbn [prop obind] in E; injection E as <-; apply fresh_one.
Qed.

Lemma concat_singletons {A B} (f : A -> B) l : concat (map (fun x => [f x]) l) = map f l.
Proof. induction l as [|x l IH]; [done|]. cbn [map concat app]. by rewrite IH. Qed.

Lemma normalizeOperation_fresh v : drawsFresh opIds (normalizeOperation clock v).
Proof.
  intros seed o seed' E. unfold normalizeOperation in E. apply gbind_inv in E as (id & s1 & E1 & E). injection E1 as <- <-.
  apply gbind_inv in E as (cv & s1 & E1 & E). apply glift_inv in E1 as [_ ->]. apply gbind_inv in E as (cs & s2 & E2 & E).
  apply glift_inv in E as [E ->].
  assert (Hc : (S seed <= s2)%nat /\ freshIn (S seed) s2 (map c_id cs)).
  { rewrite <- concat_singletons. destruct cv; try (injection E2 as <- <-; split; [done|apply fresh_nil]).
    eapply (gmap_fresh (fun c => [c_id c])); [|exact E2]. intros. apply normalizeCondition_fresh. }
  destruct Hc as [L F]. split; [lia|].
  assert (Ho : opIds o = [localId seed] ++ map c_id cs).
  { unfold readOperation in E. destruct v; try done; cbn [prop obind] in E; injection E as <-; done. }
  rewrite Ho. eapply (fresh_app _ (S seed)); [lia|lia|apply fresh_one|done].
Qed.

Lemma one_fresh {m : gen ParamOverrideOperation} : drawsFresh opIds m -> drawsFresh allIds (o <~ m ;; gret [o]).
Proof.
  intros H seed ops seed' E. apply gbind_inv in E as (o & s1 & E1 & E). injection E as <- <-. unfold allIds. cbn [map concat].
  rewrite app_nil_r. by apply H.
Qed.

Lemma storedOperations_fresh items : drawsFresh allIds (storedOperations clock items).
Proof.
  destruct items; [apply one_fresh, normalizeOperation_fresh|].
  apply (gmap_fresh opIds). intros. apply normalizeOperation_fresh.
Qed.

Lemma gmap_length {A B} (f : A -> gen B) xs seed ys seed' : gmap f xs seed = Ret (ys, seed') -> length ys = length xs.
Proof.
  revert seed ys. induction xs as [|x xs IH]; intros seed ys E; cbn [gmap] in E; [by injection E as <- <-|].
  apply gbind_inv in E as (y & s1 & _ & E). apply gbind_inv in E as (l & s2 & E2 & E). injection E as <- <-. cbn [length].
  f_equal. by eapply IH.
Qed.

Lemma storedOperations_nonempty items seed ops seed' : storedOperations clock items seed = Ret (ops, seed') -> ops <> [].
Proof.
  destruct items as [|i items]; intros E.
  - apply gbind_inv in E as (o & s1 & _ & E). by injection E as <- <-.
  - apply gmap_length in E. by destruct ops.
Qed.

Lemma parseInitialState_fresh value : drawsFresh (fun st => allIds (es_operations st)) (parseInitialState clock value).
Proof.
  assert (Hone : forall (k : ParamOverrideOperation -> EditorState), (forall o, es_operations (k o) = [o]) ->
    drawsFresh (fun st => allIds (es_operations st)) (o <~ createDefaultOperation clock ;; gret (k o))).
  { intros k Hk seed st seed' E. apply gbind_inv in E as (o & s1 & E1 & E). injection E as <- <-. rewrite Hk. unfold allIds. cbn [map concat].
    rewrite app_nil_r. by eapply normalizeOperation_fresh. }
  unfold parseInitialState. destruct (negb _); [by apply Hone|]. destruct (json_parse _) as [v|]; [|by apply Hone].
  destruct v; try by apply Hone. destruct (get_prop _ _); try by apply Hone.
  intros seed st seed' E. apply gbind_inv in E as (ops & s1 & E1 & E). injection E as <- <-. by eapply storedOperations_fresh.
Qed.

Lemma parseInitialState_nonempty value seed st seed' : parseInitialState clock value seed = Ret (st, seed') -> es_operations st <> [].
Proof.
  assert (Hone : forall (k : ParamOverrideOperation -> EditorState), (forall o, es_operations (k o) = [o]) -> forall s,
    (o <~ createDefaultOperation clock ;; gret (k o)) s = Ret (st, seed') -> es_operations st <> []).
  { intros k Hk s E. apply gbind_inv in E as (o & s1 & E1 & E). injection E as <- <-. by rewrite Hk. }
  unfold parseInitialState. destruct (negb _); [by apply Hone|]. destruct (json_parse _) as [v|]; [|by apply Hone].
  destruct v; try by apply Hone. destruct (get_prop _ _); try by apply Hone.
  intros E. apply gbind_inv in E as (ops & s1 & E1 & E). injection E as <- <-. by eapply storedOperations_nonempty.
Qed.

(** ** The invariant *)

Record valid (e : Editor) : Prop := {
  valid_nonempty : ed_operations e <> [];
  valid_distinct : NoDup (allIds (ed_operations e));
  valid_drawn : Forall (idBetween 0 (ed_seed e)) (allIds (ed_operations e)) }.

Lemma valid_step e e' new :
  valid e -> (ed_seed e <= ed_seed e')%nat -> freshIn (ed_seed e) (ed_seed e') new ->
  allIds (ed_operations e') ⊆+ allIds (ed_operations e) ++ new -> ed_operations e' <> [] -> valid e'.
Proof.
  intros [_ Hd Hf] Hs Hn Hsub Hne.
  destruct (fresh_app 0 _ _ _ _ (Nat.le_0_l _) Hs (conj Hd Hf) Hn) as [Hd' Hf']. split; [done| |].
  - apply submseteq_Permutation in Hsub as [k Hk]. rewrite Hk in Hd'. by apply NoDup_app in Hd' as [? _].
  - apply Forall_forall. intros x Hx. rewrite Forall_forall in Hf'. apply Hf'. by eapply elem_of_submseteq.
Qed.

Lemma draw_inv {A} (m : gen A) e (k : A -> Editor -> Editor) e' :
  draw m e k = Ret e' -> exists a seed', m (ed_seed e) = Ret (a, seed') /\ e' = k a (withSeed seed' e).
Proof. unfold draw. destruct (m (ed_seed e)) as [[a s]|]; [|done]. cbn [obind fst snd]. intros [= <-]. by exists a, s. Qed.

(** Events that keep the rules, their order or their identifiers. *)
Lemma valid_keep e e' : valid e -> ed_seed e' = ed_seed e -> allIds (ed_operations e') = allIds (ed_operations e) -> ed_operations e' <> [] -> valid e'.
Proof.
  intros Hv Hs Ha Hne. eapply (valid_step e e' []); [done|lia|rewrite Hs; apply fresh_nil| |done]. by rewrite app_nil_r, Ha.
Qed.

Lemma mapOperation_ids id f ops : (forall o, opIds (f o) = opIds o) -> allIds (mapOperation id f ops) = allIds ops.
Proof.
  intros Hf. unfold allIds, mapOperation. rewrite map_map. f_equal. apply map_ext. intros o. by destruct (hasId id o).
Qed.

Lemma mapOperation_nonempty id f ops : ops <> [] -> mapOperation id f ops <> [].
Proof. by destruct ops. Qed.

Lemma allIds_app a b : allIds (a ++ b) = allIds a ++ allIds b.
Proof. unfold allIds. by rewrite map_app, concat_app. Qed.

Lemma allIds_perm a b : Permutation a b -> Permutation (allIds a) (allIds b).
Proof.
  induction 1; [done|..].
  - unfold allIds in *. cbn [map concat]. by f_equiv.
  - unfold allIds. cbn [map concat]. rewrite !app_assoc. f_equiv. apply Permutation_app_comm.
  - by etransitivity.
Qed.

Lemma allIds_filter p ops : allIds (List.filter p ops) ⊆+ allIds ops.
Proof.
  unfold allIds. induction ops as [|o ops IH]; [done|]. cbn [List.filter]. destruct (p o); cbn [map concat]; [by apply submseteq_app|].
  by apply submseteq_inserts_l.
Qed.

(** Conditions of one rule may be dropped. *)
Lemma mapOperation_sub id f ops : (forall o, opIds (f o) ⊆+ opIds o) -> allIds (mapOperation id f ops) ⊆+ allIds ops.
Proof.
  intros Hf. unfold allIds, mapOperation. induction ops as [|o ops IH]; [done|]. cbn [map concat].
  apply submseteq_app; [by destruct (hasId id o)|done].
Qed.

(** With distinct identifiers a condition is added to one rule at most. *)
Lemma mapOperation_add id c ops : NoDup (map o_id ops) ->
  allIds (mapOperation id (fun o => withConditions (o_conditions o ++ [c]) o) ops) ⊆+ allIds ops ++ [c_id c].
Proof.
  induction ops as [|o ops IH]; intros Hn; [apply submseteq_nil_l|]. cbn [map] in Hn. apply NoDup_cons in Hn as [Ho Hn]. unfold allIds, mapOperation in *. cbn [map concat].
  destruct (hasId id o) eqn:E.
  - assert (Hrest : map (fun o0 => if hasId id o0 then withConditions (o_conditions o0 ++ [c]) o0 else o0) ops = ops).
    { rewrite <- (map_id ops) at 2. apply map_ext_in. intros x Hx. destruct (hasId id x) eqn:Ex; [|done]. unfold hasId in *. bool_hyps.
      destruct Ho. rewrite E, <- Ex. apply list_elem_of_fmap_2. by apply list_elem_of_In. }
    rewrite Hrest. unfold opIds at 1, withConditions. cbn [o_id o_conditions]. rewrite map_app. cbn [map]. rewrite app_comm_cons, <- app_assoc.
    fold (opIds o). rewrite <- app_assoc. apply submseteq_app; [done|]. cbn [app]. by rewrite (Permutation_app_comm _ [c_id c]).
  - rewrite <- app_assoc. apply submseteq_app; [done|by apply IH].
Qed.

Lemma ids_of_rules ops : NoDup (allIds ops) -> NoDup (map o_id ops).
Proof.
  unfold allIds. induction ops as [|o ops IH]; intros H; [constructor|]. cbn [map concat] in *. unfold opIds in H at 1. rewrite <- app_comm_cons in H.
  apply NoDup_cons in H as [Hn H]. apply NoDup_app in H as (_ & _ & H). constructor; [|by apply IH].
  intros Hin. apply Hn, elem_of_app. right. apply list_elem_of_fmap in Hin as (x & Ex & Hx). apply list_elem_of_In, in_concat.
  exists (opIds x). split; [apply in_map; by apply list_elem_of_In|]. rewrite Ex. by left.
Qed.

Lemma remove_nonempty id ops : NoDup (map o_id ops) -> (1 < length ops)%nat -> List.filter (fun o => negb (hasId id o)) ops <> [].
Proof.
  intros Hn Hl. destruct ops as [|a [|b ops]]; cbn [length] in Hl; try lia. cbn [map] in Hn. apply NoDup_cons in Hn as [Hab _].
  cbn [List.filter]. destruct (hasId id a) eqn:Ea; [|done]. cbn [negb]. destruct (hasId id b) eqn:Eb; [|done]. unfold hasId in *. bool_hyps.
  destruct Hab. rewrite Ea, <- Eb. by left.
Qed.

(** All rules replaced by new ones. *)
Lemma valid_replace e e' (m : gen (list ParamOverrideOperation)) :
  valid e -> drawsFresh allIds m -> m (ed_seed e) = Ret (ed_operations e', ed_seed e') -> ed_operations e' <> [] -> valid e'.
Proof.
  intros Hv Hm E Hne. destruct (Hm _ _ _ E) as [L F]. eapply valid_step; [exact Hv|exact L|exact F| |done]. by apply submseteq_inserts_l.
Qed.

Lemma valid_default e e' o seed' :
  valid e -> createDefaultOperation clock (ed_seed e) = Ret (o, seed') -> ed_operations e' = [o] -> ed_seed e' = seed' -> valid e'.
Proof.
  intros Hv E Ho Hs. apply (valid_replace e e' (o <~ createDefaultOperation clock ;; gret [o])); [done|apply one_fresh, normalizeOperation_fresh| |by rewrite Ho].
  unfold gbind. by rewrite E, Ho, Hs.
Qed.

Lemma valid_append e e' o seed' :
  valid e -> normalizeOperation clock o (ed_seed e) = Ret (e'.1, seed') ->
  Permutation (ed_operations e'.2) (ed_operations e ++ [e'.1]) -> ed_seed e'.2 = seed' -> valid e'.2.
Proof.
  intros Hv E Hp Hs. destruct (normalizeOperation_fresh _ _ _ _ E) as [L F]. subst seed'. eapply valid_step; [exact Hv|exact L|exact F| |].
  - rewrite (allIds_perm _ _ Hp), allIds_app. unfold allIds at 2. cbn [map concat]. by rewrite app_nil_r.
  - intros En. apply Permutation_length in Hp. rewrite En, length_app in Hp. simpl in Hp. lia.
Qed.

(** A computation over the rules that keeps their identifiers. *)
Lemma valid_gmap e e' f :
  valid e -> (forall o seed o' seed', f o seed = Ret (o', seed') -> opIds o' = opIds o /\ (seed <= seed')%nat) ->
  gmap f (ed_operations e) (ed_seed e) = Ret (ed_operations e', ed_seed e') -> valid e'.
Proof.
  intros Hv Hf E.
  assert (H : forall ops seed ops' seed', gmap f ops seed = Ret (ops', seed') -> allIds ops' = allIds ops /\ (seed <= seed')%nat).
  { induction ops as [|o ops IH]; intros seed ops' seed' E'; cbn [gmap] in E'; [by injection E' as <- <-|].
    apply gbind_inv in E' as (o' & s1 & E1 & E'). apply gbind_inv in E' as (l & s2 & E2 & E'). injection E' as <- <-.
    destruct (Hf _ _ _ _ E1) as [H1 L1], (IH _ _ _ E2) as [H2 L2]. unfold allIds in *. cbn [map concat]. rewrite H1, H2. split; [done|lia]. }
  destruct (H _ _ _ _ E) as [Ha L]. eapply (valid_step e e' []); [done|done|apply fresh_nil| |].
  - by rewrite Ha, app_nil_r.
  - intros En. apply gmap_length in E. rewrite En in E. destruct (valid_nonempty _ Hv). by apply nil_length_inv.
Qed.

(** ** Drafts draw identifiers but do not change those of the rules *)

Lemma entryRules_mono fs seed rs seed' : entryRules clock fs seed = Ret (rs, seed') -> (seed <= seed')%nat.
Proof.
  intros E. eapply (gmap_fresh (fun c => [c_id c])) in E as [L _]; [done|]. intros. apply normalizeCondition_fresh.
Qed.

Lemma entryRules_fresh fs : drawsFresh (map c_id) (entryRules clock fs).
Proof.
  intros seed rs seed' E. rewrite <- concat_singletons. eapply (gmap_fresh (fun c => [c_id c])); [|exact E].
  intros. apply normalizeCondition_fresh.
Qed.

Lemma itemRules_fresh items : drawsFresh (map c_id) (gmap (normalizePruneRule clock) items).
Proof.
  intros seed rs seed' E. rewrite <- concat_singletons. eapply (gmap_fresh (fun c => [c_id c])); [|exact E].
  intros. apply normalizeCondition_fresh.
Qed.

Lemma nil_fresh {A} (ids : A -> list jstr) a : ids a = [] -> drawsFresh ids (gret a).
Proof. intros Ha seed x seed' E. injection E as <- <-. rewrite Ha. split; [done|apply fresh_nil]. Qed.

Lemma pruneDraft_fresh text : drawsFresh (fun d => map c_id (pr_rules d)) (parsePruneObjectsDraft clock text).
Proof.
  unfold parsePruneObjectsDraft. destruct (negb _); [by apply nil_fresh|]. destruct (json_parse _) as [v|]; [|by apply nil_fresh].
  destruct v as [| | | | |?|parsed]; try by apply nil_fresh.
  intros seed d seed' E. apply gbind_inv in E as (w & s1 & E1 & E). apply gbind_inv in E as (c & s2 & E2 & E). injection E as <- <-.
  cbn [pr_rules]. rewrite map_app.
  assert (F1 : (seed <= s1)%nat /\ freshIn seed s1 (map c_id w)).
  { destruct (get_prop (js "where") parsed); try (injection E1 as <- <-; split; [done|apply fresh_nil]). by eapply entryRules_fresh. }
  assert (F2 : (s1 <= s2)%nat /\ freshIn s1 s2 (map c_id c)).
  { destruct (get_prop (js "conditions") parsed); try (injection E2 as <- <-; split; [done|apply fresh_nil]);
      [by eapply itemRules_fresh|by eapply entryRules_fresh]. }
  destruct F1, F2. split; [lia|]. by eapply fresh_app.
Qed.

Lemma updatePrune_ids id updater o seed o' seed' :
  (forall d s d' s', updater d s = Ret (d', s') -> (s <= s')%nat) ->
  (if hasId id o then updatePruneValue clock updater o else gret o) seed = Ret (o', seed') -> opIds o' = opIds o /\ (seed <= seed')%nat.
Proof.
  intros Hu E. destruct (hasId id o); [|by injection E as <- <-]. unfold updatePruneValue in E.
  apply gbind_inv in E as (d & s1 & E1 & E). apply gbind_inv in E as (d' & s2 & E2 & E). injection E as <- <-.
  apply pruneDraft_fresh in E1 as [L _]. apply Hu in E2. split; [done|lia].
Qed.

Lemma valid_prune e e' id updater : valid e -> (forall d s d' s', updater d s = Ret (d', s') -> (s <= s')%nat) ->
  updatePruneObjectsDraft clock id updater e = Ret e' -> valid e'.
Proof.
  intros Hv Hu E. apply draw_inv in E as (ops & s & E & ->). eapply valid_gmap; [exact Hv| |exact E].
  intros o seed o' seed'. by apply updatePrune_ids.
Qed.

(** ** Every event *)

Lemma quiet_inv m e' fx : quiet m = Ret (e', fx) -> m = Ret e'.
Proof. unfold quiet. destruct m; [|done]. cbn [obind]. by intros [= <- <-]. Qed.

Lemma paired_inv (m : outcome Editor) e' (fx : list Effect) : (e <-- m ;; Ret (e, [])) = Ret (e', fx) -> m = Ret e'.
Proof. destruct m; [|done]. cbn [obind]. by intros [= <- <-]. Qed.

Lemma valid_duplicate e id eager e' : valid e -> duplicateOperation clock id eager e = Ret e' -> valid e'.
Proof.
  intros Hv. unfold duplicateOperation. destruct (findIndex _ _) as [i|]; [|by intros [= <-]].
  destruct (_ !! i) as [src|] eqn:Ei; [|by intros [= <-]]. intros E. apply draw_inv in E as (o & s & E & ->). cbv zeta.
  set (ops := ed_operations e) in *.
  assert (Hp : Permutation (take (S i) ops ++ o :: drop (S i) ops) (ops ++ [o])).
  { rewrite <- Permutation_middle. rewrite take_drop. apply Permutation_cons_append. }
  destruct eager; by eapply (valid_append e (o, _)).
Qed.

Lemma valid_remove e id e' : valid e -> removeOperation clock id e = Ret e' -> valid e'.
Proof.
  intros Hv. unfold removeOperation. destruct (_ <=? 1)%nat eqn:El.
  - intros E. apply draw_inv in E as (o & s & E & ->). by eapply valid_default.
  - intros [= <-]. apply Nat.leb_gt in El. eapply (valid_step e _ []); [done|done|apply fresh_nil| |].
    + rewrite app_nil_r. apply allIds_filter.
    + apply remove_nonempty; [|done]. apply ids_of_rules, Hv.
Qed.

Lemma valid_addCondition e id e' : valid e -> addCondition clock id e = Ret e' -> valid e'.
Proof.
  intros Hv E. apply draw_inv in E as (c & s & E & ->). destruct (normalizeCondition_fresh _ _ _ _ E) as [L F].
  eapply (valid_step e _ [c_id c]); [done|exact L|exact F| |].
  - apply mapOperation_add, ids_of_rules, Hv.
  - apply mapOperation_nonempty, Hv.
Qed.

Lemma valid_toVisual e e' fx : valid e -> switchToVisualMode clock t e = Ret (e', fx) -> valid e'.
Proof.
  intros Hv. unfold switchToVisualMode. destruct (ed_editMode e); [by intros [= <- <-]|]. cbv zeta.
  destruct (negb _).
  { intros E%paired_inv. apply draw_inv in E as (o & s1 & E & ->). by eapply valid_default. }
  destruct (json_parse _) as [v|]; [|by intros [= <- <-]]. destruct v as [| | | | | |fs]; try by intros [= <- <-].
  destruct (get_prop _ fs); intros E%paired_inv; apply draw_inv in E as (o & s1 & E & ->); try (by eapply valid_default).
  eapply valid_replace; [done|apply storedOperations_fresh|exact E|]. by eapply storedOperations_nonempty.
Qed.

(** The operations of every preset. *)
Lemma preset_operations key : tp_kind (presetOf key) = KindOperations ->
  exists i items, prop (tp_payload (presetOf key)) (js "operations") = Ret (VArr (i :: items)).
Proof.
  unfold presetOf, TEMPLATE_PRESET_CONFIG. cbn [map presetIn fst snd].
  repeat (case_bool_decide; [intros Hk; try (vm_compute in Hk; discriminate Hk); do 2 eexists; vm_compute; reflexivity|]).
  intros _. do 2 eexists. vm_compute. reflexivity.
Qed.

Lemma valid_fill e mode e' fx : valid e -> fillTemplate clock t mode e = Ret (e', fx) -> valid e'.
Proof.
  intros Hv. unfold fillTemplate. cbv zeta.
  assert (Hl : forall text, (e0 <-- fillLegacy clock text e ;; Ret (e0, @nil Effect)) = Ret (e', fx) -> valid e').
  { intros text E%paired_inv. apply draw_inv in E as (o & s & E & ->). by eapply valid_default. }
  destruct (tp_kind _) eqn:Ek; [|].
  - destruct (preset_operations _ Ek) as (i & items & ->). cbn [obind]. destruct mode; intros E%paired_inv.
    + apply draw_inv in E as (ops & s & E & ->). eapply valid_replace; [done|apply storedOperations_fresh|exact E|].
      by eapply storedOperations_nonempty.
    + apply draw_inv in E as (ops & s & E & ->). assert (Hlen := gmap_length _ _ _ _ _ E).
      eapply (gmap_fresh opIds) in E as [L F]; [|intros; apply normalizeOperation_fresh]. fold (allIds ops) in F.
      eapply (valid_step e _ (allIds ops)); [done|exact L|exact F| |].
      * cbn [ed_operations withView withJson withSelected withOperations]. rewrite allIds_app. apply submseteq_app; [|done].
        cbn [ed_visualMode withSeed]. destruct (ed_visualMode e); [apply allIds_filter|apply submseteq_nil_l].
      * cbn [ed_operations withView withJson withSelected withOperations]. destruct ops; [done|]. by intros [_ ?]%app_nil.
  - destruct mode; [apply Hl|]. destruct (ed_visualMode e); [apply Hl|]. destruct (if truthy_str _ then _ else _); [apply Hl|by intros [= <- <-]].
Qed.

Lemma valid_update e ops' : valid e -> allIds ops' ⊆+ allIds (ed_operations e) -> ops' <> [] -> valid (withOperations ops' e).
Proof.
  intros Hv Hs Hne. eapply (valid_step e _ []); [done|done|apply fresh_nil| |done]. by rewrite app_nil_r.
Qed.

Lemma valid_same e e' : valid e -> ed_operations e' = ed_operations e -> ed_seed e' = ed_seed e -> valid e'.
Proof. intros [H1 H2 H3] Ho Hs. split; by rewrite ?Ho, ?Hs. Qed.

Lemma handle_valid event e e' fx : valid e -> handle clock t event e = Ret (e', fx) -> valid e'.
Proof.
  intros Hv. assert (Hne := valid_nonempty _ Hv).
  assert (Hmap : forall id f, (forall o, opIds (f o) ⊆+ opIds o) -> valid (withOperations (mapOperation id f (ed_operations e)) e)).
  { intros id f Hf. apply valid_update; [done|by apply mapOperation_sub|by apply mapOperation_nonempty]. }
  destruct event; cbn [handle]; try (intros [= <- <-]; by apply (valid_same e)).
  - intros E%quiet_inv. apply draw_inv in E as (st & s & E & ->). assert (Hn := parseInitialState_nonempty _ _ _ _ E).
    apply parseInitialState_fresh in E as [L F]. eapply (valid_step e _ (allIds (es_operations st))); [done|exact L|exact F| |exact Hn].
    by apply submseteq_inserts_l.
  - intros [= <- <-]. by apply Hmap.
  - intros E%quiet_inv. apply draw_inv in E as (o & s & E & ->). by eapply (valid_append e (o, _)).
  - intros E%quiet_inv. by eapply valid_duplicate.
  - intros E%quiet_inv. by eapply valid_remove.
  - intros E%quiet_inv. by eapply valid_addCondition.
  - intros [= <- <-]. apply Hmap. intros o. unfold opIds, withConditions. cbn [o_id o_conditions]. rewrite map_map.
    apply submseteq_skip. replace (map _ (o_conditions o)) with (map c_id (o_conditions o)); [done|]. apply map_ext. intros c. by destruct (c_id c === _).
  - intros [= <- <-]. apply Hmap. intros o. unfold opIds, withConditions. cbn [o_id o_conditions]. apply submseteq_skip.
    apply sublist_submseteq. induction (o_conditions o) as [|c cs IH]; cbn [List.filter map]; [constructor|]. destruct (negb _); cbn [map]; by constructor.
  - intros [= <- <-]. unfold expandAllConditions, setAllConditions. destruct (selectedOperation e); [by apply (valid_same e)|done].
  - intros [= <- <-]. unfold collapseAllConditions, setAllConditions. destruct (selectedOperation e); [by apply (valid_same e)|done].
  - intros [= <- <-]. by apply Hmap.
  - intros E%quiet_inv. eapply valid_prune; [done| |exact E]. by intros d s d' s' [= <- <-].
  - intros E%quiet_inv. eapply valid_prune; [done| |exact E]. intros d s d' s' E'. apply gbind_inv in E' as (r & s1 & E1 & E').
    apply normalizeCondition_fresh in E1 as [L _]. by injection E' as <- <-.
  - intros E%quiet_inv. eapply valid_prune; [done| |exact E]. by intros d s d' s' [= <- <-].
  - intros E%quiet_inv. eapply valid_prune; [done| |exact E]. by intros d s d' s' [= <- <-].
  - intros [= <- <-]. unfold handleDragOver. case_if; [done|]. by apply (valid_same e).
  - intros [= <- <-]. unfold handleDrop. cbv zeta. case_if; [|by apply (valid_same e)].
    set (ops' := reorderOperations _ _ _ _). assert (Hp : Permutation ops' (ed_operations e)) by apply reorder_perm.
    apply (valid_same (withOperations ops' e)); [|done|done]. apply valid_update; [done|by rewrite (allIds_perm _ _ Hp)|].
    intros En. rewrite En in Hp. apply Permutation_length in Hp. by destruct (ed_operations e).
  - intros [= E]. unfold switchToJsonMode in E. destruct (ed_editMode e); [|by injection E as <- <-]. destruct (buildVisualJson e); injection E as <- <-; by apply (valid_same e).
  - by apply valid_toVisual.
  - by apply valid_fill.
  - intros E%quiet_inv. apply draw_inv in E as (o & s & E & ->). by eapply valid_default.
  - intros [= E]. unfold formatJson in E. cbv zeta in E. destruct (negb _); [by injection E as <- <-|]. destruct (json_parse _); injection E as <- <-; by apply (valid_same e).
Qed.

Lemma settle_valid e : valid e -> valid (settle e) /\ ed_selectedOperationId (settle e) ∈ map o_id (ed_operations (settle e)).
Proof.
  intros Hv. unfold settle. destruct (ed_operations e) as [|o ops] eqn:E; [by destruct (valid_nonempty _ Hv)|].
  destruct (existsb _ (o :: ops)) eqn:Ex.
  - split; [done|]. apply existsb_exists in Ex as (x & Hx & Hid). unfold hasId in Hid. apply bool_decide_eq_true in Hid.
    rewrite E, <- Hid. apply list_elem_of_fmap_2. by apply list_elem_of_In.
  - split; [by apply (valid_same e)|]. cbn [withSelected ed_selectedOperationId ed_operations]. rewrite E. by left.
Qed.
End Dialog.

(** ** Prune rules *)

(** An edit that addresses a rule by an identifier drawn before the draft was
    parsed again finds no rule. *)
Lemma stale_rules clock j text seed d seed' :
  (j < seed)%nat -> parsePruneObjectsDraft clock text seed = Ret (d, seed') ->
  Forall (fun r => c_id r <> localId clock j) (pr_rules d).
Proof.
  intros Hj E. apply pruneDraft_fresh in E as [_ [_ F]]. apply Forall_forall. intros r Hr E.
  rewrite Forall_forall in F. destruct (F (c_id r)) as (i & Hi & Ei); [by apply list_elem_of_fmap_2|].
  rewrite E in Ei. apply localId_inj in Ei. lia.
Qed.

Lemma patched_stale id patch d : Forall (fun r => c_id r <> id) (pr_rules d) -> patchedRules id patch d = d.
Proof.
  intros H. unfold patchedRules. assert (E : map (fun r => if c_id r === id then patchCondition patch r else r) (pr_rules d) = pr_rules d).
  { rewrite <- (map_id (pr_rules d)) at 2. apply map_ext_in. intros r Hr. rewrite List.Forall_forall in H.
    by rewrite bool_decide_false by (by apply H). }
  rewrite E. by destruct d.
Qed.

Lemma without_stale id d : Forall (fun r => c_id r <> id) (pr_rules d) -> withoutRule id d = d.
Proof.
  intros H. unfold withoutRule. assert (E : List.filter (fun r => negb (c_id r === id)) (pr_rules d) = pr_rules d).
  { induction H as [|r rs Hr _ IH]; [done|]. cbn [List.filter]. rewrite bool_decide_false by done. cbn [negb]. by rewrite IH. }
  rewrite E. by destruct d.
Qed.

(** Two updaters that agree on what the parser can give at these counters. *)
Lemma updatePrune_ext clock id u1 u2 e :
  (forall text seed d seed', (ed_seed e <= seed)%nat -> parsePruneObjectsDraft clock text seed = Ret (d, seed') -> u1 d = u2 d) ->
  (forall d s d' s', u2 d s = Ret (d', s') -> (s <= s')%nat) ->
  updatePruneObjectsDraft clock id u1 e = updatePruneObjectsDraft clock id u2 e.
Proof.
  intros Hu Hmono. unfold updatePruneObjectsDraft, draw.
  set (f := fun (u : PruneObjectsDraft -> gen PruneObjectsDraft) o => if hasId id o then updatePruneValue clock u o else gret o).
  assert (H : forall ops seed, (ed_seed e <= seed)%nat -> gmap (f u1) ops seed = gmap (f u2) ops seed).
  { induction ops as [|o ops IH]; intros seed Hs; [done|]. cbn [gmap].
    assert (E : f u1 o seed = f u2 o seed).
    { unfold f. destruct (hasId id o); [|done]. unfold updatePruneValue, gbind.
      destruct (parsePruneObjectsDraft clock (o_value_text o) seed) as [[d s1]|] eqn:Ed; [|done]. cbn [obind fst snd].
      by rewrite (Hu _ _ _ _ Hs Ed). }
    unfold gbind. rewrite E. destruct (f u2 o seed) as [[o' s1]|] eqn:Eo; [|done]. cbn [obind fst snd].
    unfold f in Eo. apply updatePrune_ids in Eo as [_ L]; [|exact Hmono]. by rewrite IH by lia. }
  unfold f in H. by rewrite H.
Qed.

(** ** Properties *)

(** [C20] In every state the dialog can reach by any sequence of events, there is
    at least one rule, the identifiers of the rules and of all their conditions
    are distinct, and the selection points to a rule. *)
Theorem dialog_invariant clock t e : reachable clock t e ->
  ed_operations e <> [] /\ NoDup (allIds (ed_operations e)) /\ ed_selectedOperationId e ∈ map o_id (ed_operations e).
Proof.
  assert (H : forall e, valid clock e -> valid clock (settle e) /\ (ed_operations (settle e) <> [] /\ NoDup (allIds (ed_operations (settle e))) /\
    ed_selectedOperationId (settle e) ∈ map o_id (ed_operations (settle e)))).
  { intros e0 Hv. destruct (settle_valid clock e0 Hv) as [Hv' Hs]. split; [done|]. split_and!; [apply Hv'|apply Hv'|done]. }
  intros Hr. enough (valid clock e /\ (ed_operations e <> [] /\ NoDup (allIds (ed_operations e)) /\ ed_selectedOperationId e ∈ map o_id (ed_operations e))) by tauto.
  induction Hr as [e Hi|e fx e' _ [Hv _] Hs].
  - apply H. unfold initialEditor in Hi. apply draw_inv in Hi as (o & s & E & ->). apply normalizeOperation_fresh in E as [L [Hd Hf]].
    split; cbn [withOperations ed_operations withSeed ed_seed]; [done|..]; unfold allIds; cbn [map concat]; by rewrite app_nil_r.
  - destruct Hs as [event e0 e1 fx E]. apply H. by eapply handle_valid.
Qed.

Lemma dialog_invariant_witness :
  let e0 := mkEditor ModeVisual ModeOperations [] [] [] [] [] [] [] [] [] Before (js "operations_default") 0 in
  exists e, reachable (fun _ => 7%Z) (fun _ => js "!") e /\ length (ed_operations e) = 2%nat /\
    ed_selectedOperationId e ∈ map o_id (ed_operations e).
Proof.
  intros e0.
  destruct (initialEditor (fun _ => 7%Z)) as [e1|] eqn:E1; [|vm_compute in E1; discriminate E1].
  destruct (addOperation (fun _ => 7%Z) (settle e1)) as [e2|] eqn:E2; [|vm_compute in E1; injection E1 as <-; vm_compute in E2; discriminate E2].
  assert (Hr : reachable (fun _ => 7%Z) (fun _ => js "!") (settle e2)).
  { eapply reach_step; [apply reach_init; exact E1|]. apply (step_event _ _ EAddOperation _ e2 []). cbn [handle]. rewrite E2. reflexivity. }
  exists (settle e2). split; [exact Hr|]. destruct (dialog_invariant _ _ _ Hr) as (_ & _ & H). split; [|exact H].
  vm_compute in E1. injection E1 as <-. vm_compute in E2. injection E2 as <-. vm_compute. reflexivity.
Defined.

(** Going to the JSON form and back keeps the rules: from valid rules the
    switch to JSON reports nothing and shows their text, and the switch back
    gives the same rules up to trimming, unused fields and new identifiers. *)
Theorem switching_forms_keeps_rules clock t e text :
  ed_editMode e = ModeVisual -> ed_visualMode e = ModeOperations ->
  buildOperationsJson (ed_operations e) true = inr text -> text <> [] -> Forall goodOperation (ed_operations e) ->
  (switchToJsonMode t e).2 = [] /\ ed_jsonText (switchToJsonMode t e).1 = text /\
  exists e', switchToVisualMode clock t (switchToJsonMode t e).1 = Ret (e', []) /\
    ed_editMode e' = ModeVisual /\ ed_visualMode e' = ModeOperations /\
    map eraseIds (ed_operations e') = map eraseIds (map storedOperation (keptRules (ed_operations e))).
Proof.
  intros He Hvis Hb Hne Hg. unfold switchToJsonMode, buildVisualJson. rewrite He, Hvis, Hb. cbn [fst snd]. split_and!; [done|done|].
  apply build_inr in Hb as [[_ ->]|(Hk & _ & ->)]; [done|]. assert (Hg' := keptRules_Forall _ _ Hg).
  set (ks := keptRules (ed_operations e)) in *. destruct (document_facts ks Hg') as (H1 & H2 & H3 & H4).
  destruct (read_rules clock ks (ed_seed e) Hg') as (ops' & s' & E & Eo).
  unfold switchToVisualMode. cbn [withView withJson ed_editMode ed_jsonText]. rewrite H1, H2, H3. cbn [negb]. rewrite H4.
  unfold draw. cbn [ed_seed withView withJson]. destruct ks as [|k ks']; [done|]. cbn [map storedOperations] in *. rewrite E. cbn [obind fst snd].
  eexists. split; [reflexivity|]. by split_and!.
Qed.

Lemma switching_forms_keeps_rules_witness :
  let e := mkEditor ModeVisual ModeOperations [] sampleRules [] [] [] [] [] [] [] Before [] 0 in
  exists e', switchToVisualMode (fun _ => 7%Z) (fun _ => js "!") (switchToJsonMode (fun _ => js "!") e).1 = Ret (e', []) /\
    length (ed_operations e') = 2%nat.
Proof.
  intros e. destruct (buildOperationsJson sampleRules true) as [|text] eqn:E; [vm_compute in E; discriminate E|].
  destruct (switching_forms_keeps_rules (fun _ => 7%Z) (fun _ => js "!") e text) as (_ & _ & e' & H1 & _ & _ & H2).
  - reflexivity.
  - reflexivity.
  - exact E.
  - intros ->. vm_compute in E. discriminate E.
  - repeat (apply List.Forall_cons || apply List.Forall_nil || split); try (intros _); vm_compute; reflexivity.
  - exists e'. split; [exact H1|]. apply (f_equal (@length _)) in H2. rewrite !length_map in H2. rewrite H2. vm_compute. reflexivity.
Defined.

(** Editing or removing a prune rule has no effect: the callback parses the
    value again, which gives every rule a new identifier, so the identifier the
    form shows (drawn earlier) matches none, and the value is rewritten as if
    no edit had been asked for. *)
Theorem prune_rule_edits_are_lost clock e operationId j patch :
  (j < ed_seed e)%nat ->
  updatePruneRule clock operationId (localId clock j) patch e = updatePruneObjectsDraft clock operationId gret e /\
  removePruneRule clock operationId (localId clock j) e = updatePruneObjectsDraft clock operationId gret e.
Proof.
  intros Hj. split; apply updatePrune_ext; try (by intros d s d' s' [= <- <-]); intros text seed d seed' Hs E.
  - assert (Hst := stale_rules clock j text seed d seed' ltac:(lia) E). by rewrite (patched_stale _ patch _ Hst).
  - assert (Hst := stale_rules clock j text seed d seed' ltac:(lia) E). by rewrite (without_stale _ _ Hst).
Qed.

Lemma prune_rule_edits_are_lost_witness :
  let value := jsq "{'conditions':[{'path':'a','mode':'full','value':1}]}" in
  let rule := mkPoOperation (js "x") [] [] (js "prune_objects") [] [] value false (js "OR") [] in
  let e := mkEditor ModeVisual ModeOperations [] [rule] [] [] [] [] [] [] [] Before [] 5 in
  removePruneRule (fun _ => 7%Z) (js "x") (localId (fun _ => 7%Z) 3) e = Ret (withSeed 6 e).
Proof.
  intros value rule e. rewrite (proj2 (prune_rule_edits_are_lost (fun _ => 7%Z) e (js "x") 3 (mkCondPatch None None None None None) ltac:(vm_compute; repeat constructor))).
  vm_compute. reflexivity.
Defined.

(** Without a stored option the advanced form of a prune value is not
    remembered: a value with a type and no rule reads as the simple form. *)
Lemma advanced_prune_forgotten clock text rules seed :
  truthy_str (trim text) = true -> Forall (fun r => trim (c_path r) = []) rules ->
  parsePruneObjectsDraft clock (buildPruneObjectsValueText (mkPruneDraft false text (js "AND") true rules)) seed
  = Ret (simplePrune (trim text), seed).
Proof.
  intros Ht Hr. unfold buildPruneObjectsValueText. cbn [pr_simpleMode pr_typeText pr_logic pr_recursive pr_rules].
  assert (Hf : List.filter (fun rule => truthy_str (trim (c_path rule))) rules = []).
  { induction Hr as [|r rs Hr _ IH]; [done|]. cbn [List.filter]. by rewrite Hr. }
  rewrite Hf. cbv zeta. cbn [length map Nat.eqb negb]. change (map upperAscii (str_or (js "AND") (js "AND")) === js "OR") with false.
  unfold putIf. rewrite Ht. cbn [set_prop]. cbn [get_prop]. rewrite bool_decide_true by done. cbn [truthy]. rewrite Ht. cbn [negb andb].
  set (p := [(js "type", VStr (trim text))]). destruct (jsonText_object p) as [Htr Htt].
  unfold parsePruneObjectsDraft. rewrite trimmed_trim, Htt by done. cbn [negb]. rewrite jsonText_read by done.
  unfold p. cbn [get_prop]. eval_keys. cbn iota. unfold gbind, gret. cbn [obind fst snd isUndef andb js_String app stringOr truthy].
  rewrite trim_idem. reflexivity.
Qed.

Lemma presetIn_elem key l p : presetIn key l = Some p -> exists k, (k, p) ∈ l.
Proof.
  induction l as [|[k q] l IH]; cbn [presetIn]; [done|]. case_bool_decide.
  - intros [= ->]. exists k. left.
  - intros [k' Hk]%IH. exists k'. by right.
Qed.

(** A preset's rules, filled in, can be saved. *)
Definition presetSaves (clock : nat -> Z) (seed : nat) (p : TemplatePresetConfig) : bool :=
  match tp_kind p, prop (tp_payload p) (js "operations") with
  | KindOperations, Ret (VArr items) =>
      match storedOperations clock items seed with
      | Ret (ops, _) => (length ops =? length items)%nat && match buildOperationsJson ops true with inr (_ :: _) => true | _ => false end
      | Throw => false
      end
  | KindOperations, _ => false
  | KindLegacy, _ => true
  end.

Lemma presets_save clock seed : forallb (fun p => presetSaves clock seed p.2) TEMPLATE_PRESET_CONFIG = true.
Proof. vm_compute. reflexivity. Qed.

Lemma presetOf_elem key : exists k, (k, presetOf key) ∈ TEMPLATE_PRESET_CONFIG.
Proof.
  unfold presetOf. destruct (presetIn key TEMPLATE_PRESET_CONFIG) as [p|] eqn:E; [by eapply presetIn_elem|]. exists (js "operations_default"). left.
Qed.

(** Every template the dialog offers can be saved as it is: filled in, it
    gives one rule per item, which pass validation. *)
Theorem templates_are_valid clock seed key :
  tp_kind (presetOf key) = KindOperations ->
  exists items ops seed' text,
    prop (tp_payload (presetOf key)) (js "operations") = Ret (VArr items) /\
    storedOperations clock items seed = Ret (ops, seed') /\ length ops = length items /\
    buildOperationsJson ops true = inr text /\ text <> [].
Proof.
  intros Hk. destruct (presetOf_elem key) as [k Hin]. pose proof (presets_save clock seed) as H. rewrite forallb_forall in H.
  specialize (H (k, presetOf key) (proj1 (list_elem_of_In _ _) Hin)). cbn [snd] in H. clear Hin. revert H Hk.
  generalize (presetOf key). intros p. unfold presetSaves. destruct (tp_kind p); [|done].
  destruct (prop (tp_payload p) (js "operations")) as [[]|]; try done. destruct (storedOperations clock xs seed) as [[ops s']|] eqn:Es; [|done].
  rewrite andb_true_iff. intros [Hl%Nat.eqb_eq Hb] _. destruct (buildOperationsJson ops true) as [|[|x text]] eqn:Eb; try done.
  exists xs, ops, s', (x :: text). by split_and!.
Qed.

Lemma templates_are_valid_witness :
  exists items ops seed' text, prop (tp_payload (presetOf (js "codex_cli_headers_passthrough"))) (js "operations") = Ret (VArr items) /\
    storedOperations (fun _ => 7%Z) items 0%nat = Ret (ops, seed') /\ length ops = length items /\ buildOperationsJson ops true = inr text.
Proof.
  destruct (templates_are_valid (fun _ => 7%Z) 0%nat (js "codex_cli_headers_passthrough")) as (items & ops & seed' & text & H1 & H2 & H3 & H4 & _);
    [vm_compute; reflexivity|]. exists items, ops, seed', text. split; [exact H1|]. split; [exact H2|]. split; [exact H3|exact H4].
Defined.

(** An added prune rule has no path yet and is dropped when the value is
    written; with a type set even the advanced form is left again. *)
Example added_prune_rule_vanishes :
  let rule := mkPoOperation (js "x") [] [] (js "prune_objects") [] [] (js "thinking") false (js "OR") [] in
  let e := mkEditor ModeVisual ModeOperations [] [rule] [] [] [] [] [] [] [] Before [] 5 in
  match addPruneRule (fun _ => 7%Z) (js "x") e with
  | Ret e' => map o_value_text (ed_operations e') = [jsq "{'type':'thinking'}"]
  | Throw => False
  end /\
  parsePruneObjectsDraft (fun _ => 7%Z) (jsq "{'type':'thinking'}") 6%nat = Ret (simplePrune (js "thinking"), 6%nat).
Proof. vm_compute. split; reflexivity. Qed.

(** A blank typed at the end of an error message is removed before the next
    unit can follow it. *)
Example typed_blank_is_lost :
  let type_ text o := withValueText (buildReturnErrorValueText
    (let d := parseReturnErrorDraft (o_value_text o) in
     mkErrorDraft (re_message d ++ js text) (re_statusCode d) (re_code d) (re_type d) (re_skipRetry d) (re_simpleMode d))) o in
  let rule := mkPoOperation (js "x") [] [] (js "return_error") [] [] (js "not") false (js "OR") [] in
  o_value_text (type_ "allowed"%string (type_ " "%string rule)) = js "notallowed".
Proof. vm_compute. reflexivity. Qed.
