(* ===== verification/ModelPricing.v ===== *)
(** * Model prices in the settings (system-settings/models)

    The prices of all models are ten settings, each the JSON text of an object
    from model names to a number or text.  This file models how the texts are
    read into table rows (model-pricing-snapshots.ts), how the editor stores and
    deletes the prices of a model (model-ratio-visual-editor.tsx), how prices
    are printed (pricing-format.ts), and the panel that edits one model with
    prices per million tokens where the settings keep ratios
    (model-pricing-core.ts, model-pricing-sheet.tsx).

    The callers declare the parsed texts to be objects; a text that is another
    JSON value is outside the model and gives [None].  Model names are taken not
    to be names that [Object.prototype] defines. *)
From stdpp Require Import prelude list strings.
From S2P Require Import Prelude JsString JsNumber JsValue JsonText JsRegex RequestRules.
Open Scope js_scope.

(** ** Printing prices (pricing-format.ts) *)

Definition DISPLAY_DECIMALS : Z := 12.
Definition SNAP_DECIMALS : nat := 8.
Definition SNAP_EPSILON : number := num_of_str (js "1e-12").
Definition NUMBER_EPSILON : number := num_of_str (js "2.220446049250313e-16").

Definition toNumberOrNull (value : jsval) : option number :=
  match value with
  | VStr [] | VNull | VUndef | VBool false => None
  | _ => let num := js_Number value in if num_is_finite num then Some num else None
  end.

Definition roundToDecimals (value : number) (decimals : nat) : number :=
  let factor := num_of_Z (10 ^ Z.of_nat decimals) in
  num_div (num_round (num_mul value factor)) factor.

Definition snapTolerance (value : number) : number :=
  num_max SNAP_EPSILON (num_mul (num_mul (num_abs value) NUMBER_EPSILON) (num_of_Z 8)).

(** The loop of [snapFloatDrift], [n] rounds from [decimals] on. *)
Fixpoint snapFrom (value : number) (decimals n : nat) : number :=
  match n with
  | O => value
  | S n' =>
      let rounded := roundToDecimals value decimals in
      if num_leb (num_abs (num_sub value rounded)) (snapTolerance value) then rounded
      else snapFrom value (S decimals) n'
  end.
Definition snapFloatDrift (value : number) : number := snapFrom value 0 (S SNAP_DECIMALS).

Definition formatPricingNumber (value : jsval) : jstr :=
  match toNumberOrNull value with
  | None => []
  | Some num => num_to_str (parse_float (num_to_fixed DISPLAY_DECIMALS (snapFloatDrift num)))
  end.

(** ** The settings *)

(** One value for each of the eight numeric settings. *)
Inductive PriceField := Price | Ratio | CacheRatio | CreateCacheRatio | CompletionRatio | ImageRatio | AudioRatio | AudioCompletionRatio.

Record PerField (A : Type) := mkFields {
  f_price : A; f_ratio : A; f_cacheRatio : A; f_createCacheRatio : A; f_completionRatio : A; f_imageRatio : A;
  f_audioRatio : A; f_audioCompletionRatio : A }.
Arguments mkFields {A}.
Arguments f_price {A}. Arguments f_ratio {A}. Arguments f_cacheRatio {A}. Arguments f_createCacheRatio {A}.
Arguments f_completionRatio {A}. Arguments f_imageRatio {A}. Arguments f_audioRatio {A}. Arguments f_audioCompletionRatio {A}.

Definition pick {A} (f : PriceField) (p : PerField A) : A :=
  match f with
  | Price => f_price p | Ratio => f_ratio p | CacheRatio => f_cacheRatio p | CreateCacheRatio => f_createCacheRatio p
  | CompletionRatio => f_completionRatio p | ImageRatio => f_imageRatio p | AudioRatio => f_audioRatio p
  | AudioCompletionRatio => f_audioCompletionRatio p
  end.
Definition fill {A} (g : PriceField -> A) : PerField A :=
  mkFields (g Price) (g Ratio) (g CacheRatio) (g CreateCacheRatio) (g CompletionRatio) (g ImageRatio) (g AudioRatio) (g AudioCompletionRatio).
#[export] Instance PriceField_dec : EqDecision PriceField.
Proof. solve_decision. Defined.
Definition put {A} (f : PriceField) (a : A) (p : PerField A) : PerField A := fill (fun g => if g === f then a else pick g p).

(** The ten settings: their texts, or the objects these denote. *)
Record Settings (A : Type) := mkSettings { x_fields : PerField A; x_billingMode : A; x_billingExpr : A }.
Arguments mkSettings {A}. Arguments x_fields {A}. Arguments x_billingMode {A}. Arguments x_billingExpr {A}.

(** [safeJsonParse(text, { fallback: {} })] at the type of an object. *)
Definition safeJsonParse (value : jstr) : option fields :=
  if negb (truthy_str value) || (trim value === []) then Some []
  else match json_parse (trim value) with
       | None => Some []
       | Some (VObj fs) => Some fs
       | Some _ => None
       end.

Definition parseFields (p : PerField jstr) : option (PerField fields) :=
  price ← safeJsonParse (f_price p); ratio ← safeJsonParse (f_ratio p);
  cache ← safeJsonParse (f_cacheRatio p); createCache ← safeJsonParse (f_createCacheRatio p);
  completion ← safeJsonParse (f_completionRatio p); image ← safeJsonParse (f_imageRatio p);
  audio ← safeJsonParse (f_audioRatio p); audioCompletion ← safeJsonParse (f_audioCompletionRatio p);
  Some (mkFields price ratio cache createCache completion image audio audioCompletion).

Definition parseSettings (s : Settings jstr) : option (Settings fields) :=
  maps ← parseFields (x_fields s); mode ← safeJsonParse (x_billingMode s); expr ← safeJsonParse (x_billingExpr s);
  Some (mkSettings maps mode expr).

(** [JSON.stringify(map, null, 2)] of an object. *)
Definition mapText (m : fields) : jstr := default [] (json_stringify2 (VObj m)).
Definition printSettings (s : Settings fields) : Settings jstr :=
  mkSettings (fill (fun f => mapText (pick f (x_fields s)))) (mapText (x_billingMode s)) (mapText (x_billingExpr s)).

(** ** Table rows (model-pricing-snapshots.ts) *)

Inductive PricingMode := PerToken | PerRequest | TieredExpr.
#[export] Instance PricingMode_dec : EqDecision PricingMode.
Proof. solve_decision. Defined.

Record ModelPricingSnapshot := mkSnapshot {
  sn_name : jstr; sn_fields : PerField jstr; sn_billingMode : PricingMode; sn_billingExpr : option jstr;
  sn_requestRuleExpr : option jstr; sn_hasConflict : bool }.

(** [map[name]?.toString() || ''] *)
Definition textOfValue (v : jsval) : jstr := match v with VUndef | VNull => [] | _ => js_String v end.

Definition fieldsOf (maps : Settings fields) (name : jstr) : PerField jstr :=
  fill (fun f => textOfValue (get_prop name (pick f (x_fields maps)))).

(** The text [splitBillingExprAndRequestRules] gets: [v || '']; it trims its
    argument, so another value throws. *)
Definition exprOf (v : jsval) : outcome jstr :=
  match v with VStr s => Ret s | _ => if truthy v then Throw else Ret [] end.

Definition hasConflict (p : PerField jstr) : bool :=
  negb (f_price p === []) &&
  (negb (f_ratio p === []) || negb (f_completionRatio p === []) || negb (f_cacheRatio p === []) ||
   negb (f_createCacheRatio p === []) || negb (f_imageRatio p === []) || negb (f_audioRatio p === []) ||
   negb (f_audioCompletionRatio p === [])).

Definition isTieredMode (v : jsval) : bool := match v with VStr s => s === js "tiered_expr" | _ => false end.

Definition snapshotRow (maps : Settings fields) (name : jstr) : outcome ModelPricingSnapshot :=
  let p := fieldsOf maps name in
  if isTieredMode (get_prop name (x_billingMode maps)) then
    fullExpr <-- exprOf (get_prop name (x_billingExpr maps)) ;;
    split <-- splitBillingExprAndRequestRules fullExpr ;;
    Ret (mkSnapshot name p TieredExpr (Some (billingExpr split)) (Some (requestRuleExpr split)) false)
  else Ret (mkSnapshot name p (if f_price p === [] then PerToken else PerRequest) None None (hasConflict p)).

(** [new Set([...Object.keys(priceMap), ...])] *)
Definition modelNames (maps : Settings fields) : list jstr :=
  let m := x_fields maps in
  set_from (concat (map obj_keys
    [f_price m; f_ratio m; f_cacheRatio m; f_createCacheRatio m; f_completionRatio m; f_imageRatio m; f_audioRatio m;
     f_audioCompletionRatio m; x_billingMode maps; x_billingExpr maps])).

Definition buildModelSnapshots (input : Settings jstr) : option (outcome (list ModelPricingSnapshot)) :=
  maps ← parseSettings input; Some (mapOutcome (snapshotRow maps) (modelNames maps)).

(** ** Texts of a row *)

Definition hasPricingValue (value : jstr) : bool := negb (value === []).

Definition rowNumber (value : jstr) : option number :=
  if hasPricingValue value then let num := num_of_str value in if num_is_finite num then Some num else None else None.

(** [ratioToPrice(ratio, denominator)]; without a denominator the base is 2. *)
Definition ratioToPrice (ratio denominator : jstr) : jstr :=
  let denominatorNumber := if truthy_str denominator then rowNumber denominator else Some (num_of_Z 2) in
  match rowNumber ratio, denominatorNumber with
  | Some r, Some d => formatPricingNumber (VNum (num_mul r d))
  | _, _ => []
  end.

Definition getModeLabel (mode : PricingMode) : jstr :=
  match mode with PerRequest => js "Per-request" | TieredExpr => js "Expression" | PerToken => js "Per-token" end.

(** [expr.match(/tier\(/g).length] *)
Fixpoint countTier (s : jstr) : nat :=
  match s with
  | [] => O
  | _ :: s' => ((if starts_with (js "tier(") s then 1 else 0) + countTier s')%nat
  end.

Section Texts.
Context (t : string -> jstr).

(** The middle dot with its blanks. *)
Definition dot : jstr := [32; 183; 32]%N.

Definition getExpressionSummary (row : ModelPricingSnapshot) : jstr :=
  let tierCount := countTier (default [] (sn_billingExpr row)) in
  if (0 <? tierCount)%nat then t "Tiered pricing" ++ dot ++ print_nat_dec (Z.of_nat tierCount) ++ js " " ++ t "tiers"
  else t "Expression pricing".

Definition getPriceSummary (row : ModelPricingSnapshot) : jstr :=
  let p := sn_fields row in
  match sn_billingMode row with
  | TieredExpr => getExpressionSummary row
  | PerRequest => if truthy_str (f_price p) then js "$" ++ f_price p ++ js " / " ++ t "request" else t "Unset price"
  | PerToken =>
      let inputPrice := ratioToPrice (f_ratio p) [] in
      if negb (truthy_str inputPrice) then t "Unset price"
      else
        let extraCount := length (List.filter hasPricingValue
          [f_completionRatio p; f_cacheRatio p; f_createCacheRatio p; f_imageRatio p; f_audioRatio p; f_audioCompletionRatio p]) in
        if (0 <? extraCount)%nat
        then t "Input" ++ js " $" ++ inputPrice ++ dot ++ print_nat_dec (Z.of_nat extraCount) ++ js " " ++ t "extras"
        else t "Input" ++ js " $" ++ inputPrice
  end.

(** [ratio && `${label} $${price}`], as the texts that survive [filter(Boolean)]. *)
Definition detailOf (ratio inputPrice : jstr) (label : string) : list jstr :=
  if truthy_str ratio then [t label ++ js " $" ++ ratioToPrice ratio inputPrice] else [].

Definition getPriceDetail (row : ModelPricingSnapshot) : jstr :=
  let p := sn_fields row in
  match sn_billingMode row with
  | TieredExpr => if truthy_str (default [] (sn_requestRuleExpr row)) then t "Includes request rules" else t "Expression based"
  | PerRequest => t "Fixed request price"
  | PerToken =>
      let inputPrice := ratioToPrice (f_ratio p) [] in
      if negb (truthy_str inputPrice) then t "No base input price"
      else
        let details := take 2 (detailOf (f_completionRatio p) inputPrice "Output" ++ detailOf (f_cacheRatio p) inputPrice "Cache" ++
                               detailOf (f_createCacheRatio p) inputPrice "Cache write") in
        match details with [] => t "Base input price only" | _ => js_join dot details end
  end.
End Texts.

(** ** Saved rows against the draft *)

Definition modeText (mode : PricingMode) : jstr :=
  match mode with PerToken => js "per-token" | PerRequest => js "per-request" | TieredExpr => js "tiered_expr" end.

Definition signatureObject (s : ModelPricingSnapshot) : jsval :=
  let p := sn_fields s in
  VObj [(js "price", VStr (f_price p)); (js "ratio", VStr (f_ratio p)); (js "cacheRatio", VStr (f_cacheRatio p));
        (js "createCacheRatio", VStr (f_createCacheRatio p)); (js "completionRatio", VStr (f_completionRatio p));
        (js "imageRatio", VStr (f_imageRatio p)); (js "audioRatio", VStr (f_audioRatio p));
        (js "audioCompletionRatio", VStr (f_audioCompletionRatio p)); (js "billingMode", VStr (modeText (sn_billingMode s)));
        (js "billingExpr", VStr (default [] (sn_billingExpr s))); (js "requestRuleExpr", VStr (default [] (sn_requestRuleExpr s)))].

Definition getSnapshotSignature (snapshot : option ModelPricingSnapshot) : jstr :=
  match snapshot with None => [] | Some s => default [] (json_stringify (signatureObject s)) end.

Record ModelRow := mkRow {
  r_shown : ModelPricingSnapshot; r_saved : option ModelPricingSnapshot; r_draft : option ModelPricingSnapshot;
  r_isDraftChanged : bool; r_isDraftDeleted : bool; r_isDraftNew : bool }.

(** [new Map(rows.map(row => [row.name, row])).get(name)]: the last row of the name. *)
Definition rowByName (rows : list ModelPricingSnapshot) (name : jstr) : option ModelPricingSnapshot :=
  last (List.filter (fun row => sn_name row === name) rows).

Definition isSome {A} (o : option A) : bool := match o with Some _ => true | None => false end.

(** A row for a name of either list ([displayed!] is defined for those). *)
Definition modelRow (savedRows draftRows : list ModelPricingSnapshot) (name : jstr) : list ModelRow :=
  let saved := rowByName savedRows name in
  let draft := rowByName draftRows name in
  match (match saved with Some s => Some s | None => draft end) with
  | None => []
  | Some displayed =>
      [mkRow displayed saved draft (negb (getSnapshotSignature saved === getSnapshotSignature draft))
         (isSome saved && negb (isSome draft)) (negb (isSome saved) && isSome draft)]
  end.

Section VisualEditor.
Context (localeCompare : jstr -> jstr -> Z).

Definition modelRows (savedRows draftRows : list ModelPricingSnapshot) : list ModelRow :=
  let names := set_from (map sn_name savedRows ++ map sn_name draftRows) in
  sort_by (fun a b => localeCompare (sn_name (r_shown a)) (sn_name (r_shown b)))
    (List.filter (fun row => negb (r_isDraftDeleted row)) (concat (map (modelRow savedRows draftRows) names))).
End VisualEditor.

Definition modeCount (mode : PricingMode) (models : list ModelRow) : nat :=
  length (List.filter (fun model => sn_billingMode (r_shown model) === mode) models).

(** ** The data of an open model (model-pricing-core.ts) *)

Record ModelRatioData := mkData {
  d_name : jstr; d_fields : PerField (option jstr); d_billingMode : option PricingMode; d_billingExpr : option jstr;
  d_requestRuleExpr : option jstr }.

Definition text (o : option jstr) : jstr := default [] o.

(** ** Storing and deleting (model-ratio-visual-editor.tsx) *)

Definition setIfPresent (target : fields) (name : jstr) (value : option jstr) : fields :=
  if negb (truthy_str (text value)) then target
  else let parsed := parse_float (text value) in
       if num_is_finite parsed then set_prop name (VNum parsed) target else target.

Definition deleteName (name : jstr) (m : Settings fields) : Settings fields :=
  mkSettings (fill (fun f => delete_prop name (pick f (x_fields m)))) (delete_prop name (x_billingMode m))
    (delete_prop name (x_billingExpr m)).

Definition setFields (data : ModelRatioData) (name : jstr) (fs : list PriceField) (m : Settings fields) : Settings fields :=
  mkSettings (fill (fun f => if existsb (fun g => f === g) fs then setIfPresent (pick f (x_fields m)) name (pick f (d_fields data))
                             else pick f (x_fields m)))
    (x_billingMode m) (x_billingExpr m).

Definition RATIO_FIELDS : list PriceField :=
  [Ratio; CacheRatio; CreateCacheRatio; CompletionRatio; ImageRatio; AudioRatio; AudioCompletionRatio].

(** The body of [targetNames.forEach] in [persistPricingData]. *)
Definition storeModel (data : ModelRatioData) (m : Settings fields) (name : jstr) : Settings fields :=
  let m := deleteName name m in
  if d_billingMode data === Some TieredExpr then
    let combined := combineBillingExpr (text (d_billingExpr data)) (text (d_requestRuleExpr data)) in
    let m := if truthy_str combined
             then mkSettings (x_fields m) (set_prop name (VStr (js "tiered_expr")) (x_billingMode m))
                    (set_prop name (VStr combined) (x_billingExpr m))
             else m in
    setFields data name (Price :: RATIO_FIELDS) m
  else if truthy_str (text (f_price (d_fields data))) then setFields data name [Price] m
  else setFields data name RATIO_FIELDS m.

Definition persistPricingData (data : ModelRatioData) (targetNames : list jstr) (texts : Settings jstr) : option (Settings jstr) :=
  maps ← parseSettings texts; Some (printSettings (foldl (storeModel data) maps targetNames)).

(** The texts after [handleDelete]. *)
Definition deletePricingData (name : jstr) (texts : Settings jstr) : option (Settings jstr) :=
  maps ← parseSettings texts; Some (printSettings (deleteName name maps)).

(** ** The panel of one model (model-pricing-sheet.tsx) *)

Inductive LaneKey := LCompletion | LCache | LCreateCache | LImage | LAudioInput | LAudioOutput.
#[export] Instance LaneKey_dec : EqDecision LaneKey.
Proof. solve_decision. Defined.

Record PerLane (A : Type) := mkLanes {
  l_completion : A; l_cache : A; l_createCache : A; l_image : A; l_audioInput : A; l_audioOutput : A }.
Arguments mkLanes {A}.
Arguments l_completion {A}. Arguments l_cache {A}. Arguments l_createCache {A}. Arguments l_image {A}.
Arguments l_audioInput {A}. Arguments l_audioOutput {A}.

Definition lane {A} (l : LaneKey) (p : PerLane A) : A :=
  match l with
  | LCompletion => l_completion p | LCache => l_cache p | LCreateCache => l_createCache p | LImage => l_image p
  | LAudioInput => l_audioInput p | LAudioOutput => l_audioOutput p
  end.
Definition lanes {A} (g : LaneKey -> A) : PerLane A :=
  mkLanes (g LCompletion) (g LCache) (g LCreateCache) (g LImage) (g LAudioInput) (g LAudioOutput).
(** [{ ...p, [l]: a }] *)
Definition setLane {A} (l : LaneKey) (a : A) (p : PerLane A) : PerLane A := lanes (fun k => if k === l then a else lane k p).

Definition EMPTY_LANE_PRICES : PerLane jstr := lanes (fun _ => []).
Definition EMPTY_LANE_ENABLED : PerLane bool := lanes (fun _ => false).

Definition ratioFieldByLane (l : LaneKey) : PriceField :=
  match l with
  | LCompletion => CompletionRatio | LCache => CacheRatio | LCreateCache => CreateCacheRatio | LImage => ImageRatio
  | LAudioInput => AudioRatio | LAudioOutput => AudioCompletionRatio
  end.
Definition laneConfigs : list LaneKey := [LCompletion; LCache; LCreateCache; LImage; LAudioInput; LAudioOutput].

(** The whole text is empty, digits with an optional point and more digits, or a
    point with optional digits (the regular expression of the source). *)
Definition numericDraftRegex : regex :=
  let digit := RChar is_digit in
  rseq [RBol;
        ROpt (RGroup 1 (RAlt (RSeq (RPlus digit) (ROpt (RGroup 2 (RSeq (RLit ".") (RStar digit))))) (RSeq (RLit ".") (RStar digit))));
        REol].
Definition isNumericDraft (value : jstr) : bool := rtest numericDraftRegex value.

Definition hasValue (value : jstr) : bool := negb (value === []).
Definition textNumber (value : jstr) : option number := toNumberOrNull (VStr value).

Definition ratioToBasePrice (ratio : jstr) : jstr :=
  match textNumber ratio with None => [] | Some num => formatPricingNumber (VNum (num_mul num (num_of_Z 2))) end.

Definition deriveLanePrice (ratio denominator : jstr) : jstr :=
  match textNumber ratio, textNumber denominator with
  | Some r, Some d => formatPricingNumber (VNum (num_mul r d))
  | _, _ => []
  end.

Record LaneState := mkLaneState { ls_promptPrice : jstr; ls_prices : PerLane jstr; ls_enabled : PerLane bool }.

Definition createInitialLaneState (data : option ModelRatioData) : LaneState :=
  match data with
  | None => mkLaneState [] EMPTY_LANE_PRICES EMPTY_LANE_ENABLED
  | Some data =>
      let ratio f := text (pick f (d_fields data)) in
      let promptPrice := ratioToBasePrice (ratio Ratio) in
      let audioInputPrice := deriveLanePrice (ratio AudioRatio) promptPrice in
      mkLaneState promptPrice
        (mkLanes (deriveLanePrice (ratio CompletionRatio) promptPrice) (deriveLanePrice (ratio CacheRatio) promptPrice)
           (deriveLanePrice (ratio CreateCacheRatio) promptPrice) (deriveLanePrice (ratio ImageRatio) promptPrice)
           audioInputPrice (deriveLanePrice (ratio AudioCompletionRatio) audioInputPrice))
        (lanes (fun l => hasValue (ratio (ratioFieldByLane l))))
  end.

Record Panel := mkPanel {
  p_mode : PricingMode; p_promptPrice : jstr; p_lanePrices : PerLane jstr; p_laneEnabled : PerLane bool;
  p_billingExpr : jstr; p_requestRuleExpr : jstr; p_name : jstr; p_values : PerField jstr }.

(** The effect that opens the panel on [editData]. *)
Definition openPanel (editData : option ModelRatioData) : Panel :=
  let next := createInitialLaneState editData in
  match editData with
  | Some data =>
      mkPanel (if d_billingMode data === Some TieredExpr then TieredExpr
               else if truthy_str (text (f_price (d_fields data))) then PerRequest else PerToken)
        (ls_promptPrice next) (ls_prices next) (ls_enabled next) (text (d_billingExpr data)) (text (d_requestRuleExpr data))
        (d_name data) (fill (fun f => text (pick f (d_fields data))))
  | None =>
      mkPanel PerToken (ls_promptPrice next) (ls_prices next) (ls_enabled next) [] [] [] (fill (fun _ => []))
  end.

Definition setFormValue (f : PriceField) (value : jstr) (p : Panel) : Panel :=
  mkPanel (p_mode p) (p_promptPrice p) (p_lanePrices p) (p_laneEnabled p) (p_billingExpr p) (p_requestRuleExpr p) (p_name p)
    (put f value (p_values p)).
Definition withLanes (prompt : jstr) (prices : PerLane jstr) (enabled : PerLane bool) (p : Panel) : Panel :=
  mkPanel (p_mode p) prompt prices enabled (p_billingExpr p) (p_requestRuleExpr p) (p_name p) (p_values p).

Definition isZero (n : number) : bool := num_eqb n num_zero.

(** [price / base], empty without a price or without a base other than zero. *)
Definition ratioOver (price base : option number) : jstr :=
  match price, base with
  | Some n, Some d => if isZero d then [] else formatPricingNumber (VNum (num_div n d))
  | _, _ => []
  end.

Definition deriveLaneRatio (l : LaneKey) (price nextPromptPrice : jstr) (nextLanePrices : PerLane jstr) : jstr :=
  match textNumber price with
  | None => []
  | Some priceNumber =>
      if l === LAudioOutput then ratioOver (Some priceNumber) (textNumber (l_audioInput nextLanePrices))
      else ratioOver (Some priceNumber) (textNumber nextPromptPrice)
  end.

Definition baseRatio (promptPrice : jstr) : jstr :=
  match textNumber promptPrice with Some n => formatPricingNumber (VNum (num_div n (num_of_Z 2))) | None => [] end.

Definition syncLaneRatios (nextPromptPrice : jstr) (nextLanePrices : PerLane jstr) (nextLaneEnabled : PerLane bool) (p : Panel) : Panel :=
  foldl (fun p key =>
      setFormValue (ratioFieldByLane key)
        (if negb (lane key nextLaneEnabled) then [] else deriveLaneRatio key (lane key nextLanePrices) nextPromptPrice nextLanePrices) p)
    (setFormValue Ratio (baseRatio nextPromptPrice) p) laneConfigs.

Definition handlePromptPriceChange (value : jstr) (p : Panel) : Panel :=
  if negb (isNumericDraft value) then p
  else syncLaneRatios value (p_lanePrices p) (p_laneEnabled p) (withLanes value (p_lanePrices p) (p_laneEnabled p) p).

Definition handleLanePriceChange (l : LaneKey) (value : jstr) (p : Panel) : Panel :=
  if negb (isNumericDraft value) then p
  else
    let nextLanePrices := setLane l value (p_lanePrices p) in
    let p1 := withLanes (p_promptPrice p) nextLanePrices (p_laneEnabled p) p in
    let p2 := if lane l (p_laneEnabled p)
              then setFormValue (ratioFieldByLane l) (deriveLaneRatio l value (p_promptPrice p) nextLanePrices) p1 else p1 in
    if (l === LAudioInput) && l_audioOutput (p_laneEnabled p)
    then setFormValue AudioCompletionRatio (deriveLaneRatio LAudioOutput (l_audioOutput nextLanePrices) (p_promptPrice p) nextLanePrices) p2
    else p2.

Definition handleLaneToggle (l : LaneKey) (checked : bool) (p : Panel) : Panel :=
  let nextEnabled := setLane l checked (p_laneEnabled p) in
  if checked then
    setFormValue (ratioFieldByLane l) (deriveLaneRatio l (lane l (p_lanePrices p)) (p_promptPrice p) (p_lanePrices p))
      (withLanes (p_promptPrice p) (p_lanePrices p) nextEnabled p)
  else
    let nextPrices := setLane l [] (p_lanePrices p) in
    let p1 := setFormValue (ratioFieldByLane l) [] p in
    if l === LAudioInput
    then withLanes (p_promptPrice p) (setLane LAudioOutput [] nextPrices) (setLane LAudioOutput false nextEnabled) (setFormValue AudioCompletionRatio [] p1)
    else withLanes (p_promptPrice p) nextPrices nextEnabled p1.

Definition DEFAULT_EXPR : jstr := jsq "tier('base', p * 0 + c * 0)".

Definition handleModeChange (nextMode : PricingMode) (p : Panel) : Panel :=
  mkPanel nextMode (p_promptPrice p) (p_lanePrices p) (p_laneEnabled p)
    (if (nextMode === TieredExpr) && negb (truthy_str (p_billingExpr p)) then DEFAULT_EXPR else p_billingExpr p)
    (p_requestRuleExpr p) (p_name p) (p_values p).

(** The change handlers of the fixed price, the name and the expression editor. *)
Definition handlePriceChange (value : jstr) (p : Panel) : Panel := if isNumericDraft value then setFormValue Price value p else p.
Definition handleNameChange (value : jstr) (p : Panel) : Panel :=
  mkPanel (p_mode p) (p_promptPrice p) (p_lanePrices p) (p_laneEnabled p) (p_billingExpr p) (p_requestRuleExpr p) value (p_values p).
Definition setExpressions (billing rules : jstr) (p : Panel) : Panel :=
  mkPanel (p_mode p) (p_promptPrice p) (p_lanePrices p) (p_laneEnabled p) billing rules (p_name p) (p_values p).

(** ** Warnings, validation and saving *)

Inductive PricingProblem := InputPriceRequired | AudioInputRequired.

Definition missingInput (p : Panel) : bool :=
  (p_mode p === PerToken) && negb (isSome (textNumber (p_promptPrice p))) &&
  existsb (fun key => lane key (p_laneEnabled p) && hasValue (lane key (p_lanePrices p))) laneConfigs.
Definition missingAudioInput (p : Panel) : bool :=
  (p_mode p === PerToken) && l_audioOutput (p_laneEnabled p) && negb (hasValue (l_audioInput (p_lanePrices p))).

Inductive Warning := WConflict | WProblem (q : PricingProblem).

Definition conflictData (data : ModelRatioData) : bool :=
  let value f := text (pick f (d_fields data)) in
  truthy_str (value Price) && existsb (fun f => hasValue (value f)) RATIO_FIELDS.

Definition warnings (editData : option ModelRatioData) (p : Panel) : list Warning :=
  (if match editData with Some data => conflictData data | None => false end then [WConflict] else []) ++
  (if missingInput p then [WProblem InputPriceRequired] else []) ++
  (if missingAudioInput p then [WProblem AudioInputRequired] else []).

Definition validatePricingValues (p : Panel) : option PricingProblem :=
  if missingInput p then Some InputPriceRequired
  else if missingAudioInput p then Some AudioInputRequired else None.

Definition buildSubmitData (p : Panel) : ModelRatioData :=
  mkData (trim (p_name p)) (fill (fun f => Some (pick f (p_values p)))) (Some (p_mode p))
    (if p_mode p === TieredExpr then Some (p_billingExpr p) else None)
    (if p_mode p === TieredExpr then Some (p_requestRuleExpr p) else None).

(** [commitDraft]: the form requires a name of at least one character. *)
Definition commitDraft (p : Panel) : option ModelRatioData :=
  if (p_name p === []) || isSome (validatePricingValues p) then None else Some (buildSubmitData p).

(** ** The preview of the panel *)

Inductive PreviewRow := mkPreview (key : string) (label value : jstr) (multiline : bool).

Section Preview.
Context (t : string -> jstr).

Definition lanePreview (p : Panel) (key : string) (label : string) (l : LaneKey) : PreviewRow :=
  let price := lane l (p_lanePrices p) in
  mkPreview key (t label) (if lane l (p_laneEnabled p) && truthy_str price then js "$" ++ price else t "Empty") false.

Definition buildPreviewRows (p : Panel) : list PreviewRow :=
  match p_mode p with
  | TieredExpr =>
      [mkPreview "mode" (js "BillingMode") (js "tiered_expr") false;
       mkPreview "expr" (t "Expression") (str_or (combineBillingExpr (p_billingExpr p) (p_requestRuleExpr p)) (t "Empty")) true]
  | PerRequest => [mkPreview "price" (js "ModelPrice") (str_or (f_price (p_values p)) (t "Empty")) false]
  | PerToken =>
      [mkPreview "inputPrice" (t "Input price") (if truthy_str (p_promptPrice p) then js "$" ++ p_promptPrice p else t "Empty") false;
       lanePreview p "completion" "Completion price" LCompletion; lanePreview p "cache" "Cache read price" LCache;
       lanePreview p "createCache" "Cache write price" LCreateCache; lanePreview p "image" "Image input price" LImage;
       lanePreview p "audio" "Audio input price" LAudioInput; lanePreview p "audioCompletion" "Audio output price" LAudioOutput]
  end.
End Preview.

(** ** What the user can do in the panel *)

Inductive PanelEvent :=
| EvPrompt (value : jstr)
| EvLanePrice (l : LaneKey) (value : jstr)
| EvLaneToggle (l : LaneKey) (checked : bool)
| EvMode (mode : PricingMode)
| EvPrice (value : jstr)
| EvName (value : jstr)
| EvExpressions (billing rules : jstr).

Definition onPanel (e : PanelEvent) (p : Panel) : Panel :=
  match e with
  | EvPrompt value => handlePromptPriceChange value p
  | EvLanePrice l value => handleLanePriceChange l value p
  | EvLaneToggle l checked => handleLaneToggle l checked p
  | EvMode mode => handleModeChange mode p
  | EvPrice value => handlePriceChange value p
  | EvName value => handleNameChange value p
  | EvExpressions billing rules => setExpressions billing rules p
  end.

(** The states of a session opened on [editData]; the flag says whether the
    ratios have been computed from prices since it was opened. *)
Inductive session (editData : option ModelRatioData) : bool -> Panel -> Prop :=
| session_open : session editData (negb (isSome editData)) (openPanel editData)
| session_event b p e : session editData b p ->
    session editData (match e with EvPrompt value => b || isNumericDraft value | _ => b end) (onPanel e p).

(** ** The visual editor (model-ratio-visual-editor.tsx) *)

Record VisualEditor := mkVisual {
  v_texts : Settings jstr; v_editData : option ModelRatioData; v_editorOpen : bool; v_sheetOpen : bool; v_globalFilter : jstr }.

Definition withTexts (texts : Settings jstr) (v : VisualEditor) : VisualEditor :=
  mkVisual texts (v_editData v) (v_editorOpen v) (v_sheetOpen v) (v_globalFilter v).
Definition closeEditor (v : VisualEditor) : VisualEditor := mkVisual (v_texts v) None false false (v_globalFilter v).
Definition openEditor (isMobile : bool) (data : option ModelRatioData) (v : VisualEditor) : VisualEditor :=
  mkVisual (v_texts v) data true (isMobile || v_sheetOpen v) (v_globalFilter v).

(** The data an open row gives the panel. *)
Definition editDataOf (model : ModelRow) : ModelRatioData :=
  let editable := match r_draft model with
                  | Some d => d
                  | None => match r_saved model with Some s => s | None => r_shown model end
                  end in
  mkData (sn_name editable) (fill (fun f => Some (pick f (sn_fields editable))))
    (Some (if sn_billingMode editable === TieredExpr then TieredExpr
           else if truthy_str (f_price (sn_fields editable)) then PerRequest else PerToken))
    (sn_billingExpr editable) (sn_requestRuleExpr editable).

Definition handleEdit (isMobile : bool) (model : ModelRow) (v : VisualEditor) : VisualEditor :=
  openEditor isMobile (Some (editDataOf model)) v.
Definition handleAdd (isMobile : bool) (v : VisualEditor) : VisualEditor := openEditor isMobile None v.

Definition handleGlobalFilterChange (next : jstr) (v : VisualEditor) : VisualEditor :=
  let v' := if next === v_globalFilter v then v else closeEditor v in
  mkVisual (v_texts v') (v_editData v') (v_editorOpen v') (v_sheetOpen v') next.

Definition handleDelete (name : jstr) (v : VisualEditor) : option VisualEditor :=
  texts ← deletePricingData name (v_texts v);
  let v' := withTexts texts v in
  Some (if match v_editData v with Some data => d_name data === name | None => false end then closeEditor v' else v').

Inductive CopyResult := NoSource | NoTargets | Copied (name : jstr) (count : nat).

Definition handleBatchCopy (targetNames : list jstr) (v : VisualEditor) : option (VisualEditor * CopyResult) :=
  match v_editData v with
  | None => Some (v, NoSource)
  | Some data =>
      if (length targetNames =? 0)%nat then Some (v, NoTargets)
      else texts ← persistPricingData data targetNames (v_texts v);
           Some (withTexts texts v, Copied (d_name data) (length targetNames))
  end.

(** [commitOpenEditor], with the state of the open panel if there is one. *)
Definition commitOpenEditor (panel : option Panel) (v : VisualEditor) : option (VisualEditor * bool) :=
  match panel with
  | None => Some (v, true)
  | Some p =>
      if negb (v_editorOpen v) then Some (v, true)
      else match commitDraft p with
           | None => Some (v, false)
           | Some data =>
               texts ← persistPricingData data [d_name data] (v_texts v);
               Some (mkVisual texts (Some data) (v_editorOpen v) (v_sheetOpen v) (v_globalFilter v), true)
           end
  end.
