(* ===== verification/ModelPricingCorrect.v ===== *)
(** * What the model price settings guarantee

    Storing the prices of a model in the ten settings and reading the table
    again (the lookups of each setting, the rows, the texts), and the invariant
    of the panel that edits ratios as prices. *)
From stdpp Require Import prelude list strings.
From Stdlib Require Import NArith Ascii.
From S2P Require Import Prelude JsString JsNumber JsValue JsonText JsRegex RequestRules TopLevelSplit RequestRulesCorrect.
From S2P Require Import Tiers TiersCorrect PriceDisplay PriceDisplayCorrect ModelPricing.
Open Scope js_scope.

(** ** Fields and lanes *)

Lemma pick_fill {A} (g : PriceField -> A) f : pick f (fill g) = g f.
Proof. by destruct f. Qed.
Lemma fill_pick {A} (p : PerField A) : fill (fun f => pick f p) = p.
Proof. by destruct p. Qed.
Lemma fill_ext {A} (g h : PriceField -> A) : (forall f, g f = h f) -> fill g = fill h.
Proof. intros H. unfold fill. by rewrite !H. Qed.
Lemma pick_put {A} f g (a : A) p : pick g (put f a p) = if g === f then a else pick g p.
Proof. unfold put. by rewrite pick_fill. Qed.
Lemma lane_lanes {A} (g : LaneKey -> A) l : lane l (lanes g) = g l.
Proof. by destruct l. Qed.
Lemma lane_set {A} l k (a : A) p : lane k (setLane l a p) = if k === l then a else lane k p.
Proof. unfold setLane. by rewrite lane_lanes. Qed.

(** ** The texts of the settings *)

(** Objects that survive being written as JSON and read back. *)
Record wellStored (m : Settings fields) : Prop := {
  stored_fields : forall f, textual (VObj (pick f (x_fields m))) = true;
  stored_mode : textual (VObj (x_billingMode m)) = true;
  stored_expr : textual (VObj (x_billingExpr m)) = true }.

Lemma map_read m : textual (VObj m) = true -> safeJsonParse (mapText m) = Some m.
Proof.
  intros H. unfold mapText, json_stringify2. destruct (read_back_textual (js "  ") _ ltac:(by repeat constructor) H) as (t & E & P).
  rewrite E. cbn [default from_option id]. destruct (ser_object_trimmed (js "  ") m) as [w Hw]. rewrite E in Hw. injection Hw as ->.
  assert (Ht : trim (123%N :: w ++ [125%N]) = 123%N :: w ++ [125%N]) by (by apply trimmed_trim, trimmed_ends).
  unfold safeJsonParse. rewrite Ht, P. done.
Qed.

Lemma print_parse m : wellStored m -> parseSettings (printSettings m) = Some m.
Proof.
  intros [Hf Hm He]. unfold parseSettings, printSettings, parseFields, fill. cbn [x_fields x_billingMode x_billingExpr].
  cbn [f_price f_ratio f_cacheRatio f_createCacheRatio f_completionRatio f_imageRatio f_audioRatio f_audioCompletionRatio].
  rewrite (map_read _ Hm), (map_read _ He), (map_read _ (Hf Price)), (map_read _ (Hf Ratio)), (map_read _ (Hf CacheRatio)),
    (map_read _ (Hf CreateCacheRatio)), (map_read _ (Hf CompletionRatio)), (map_read _ (Hf ImageRatio)),
    (map_read _ (Hf AudioRatio)), (map_read _ (Hf AudioCompletionRatio)). cbn [mbind option_bind]. destruct m as [p mode expr]. by destruct p.
Qed.

(** ** One model in the settings *)

(** The number [setIfPresent] stores. *)
Definition storedNumber (value : option jstr) : option number :=
  if truthy_str (text value) && num_is_finite (parse_float (text value)) then Some (parse_float (text value)) else None.

Lemma setIfPresent_spec m name value :
  setIfPresent m name value = match storedNumber value with Some n => set_prop name (VNum n) m | None => m end.
Proof. unfold setIfPresent, storedNumber. destruct (truthy_str _); [|done]. cbn [negb andb]. by destruct (num_is_finite _). Qed.

(** What storing [data] leaves in each setting. *)
Definition storedExpr (data : ModelRatioData) : option jstr :=
  if d_billingMode data === Some TieredExpr then
    let combined := combineBillingExpr (text (d_billingExpr data)) (text (d_requestRuleExpr data)) in
    if truthy_str combined then Some combined else None
  else None.

Definition storesField (data : ModelRatioData) (f : PriceField) : bool :=
  if d_billingMode data === Some TieredExpr then true
  else if truthy_str (text (f_price (d_fields data))) then f === Price else negb (f === Price).

Definition storedField (data : ModelRatioData) (f : PriceField) : option number :=
  if storesField data f then storedNumber (pick f (d_fields data)) else None.

(** [a] is [b] with the property [name] replaced by [v], or removed. *)
Definition rewritten (name : jstr) (v : option jsval) (b a : fields) : Prop :=
  a = match v with Some v => set_prop name v (delete_prop name b) | None => delete_prop name b end.

Lemma storeModel_fields data m name f :
  rewritten name (VNum <$> storedField data f) (pick f (x_fields m)) (pick f (x_fields (storeModel data m name))).
Proof.
  unfold rewritten, storedField, storesField, storeModel. cbv zeta.
  destruct (d_billingMode data === Some TieredExpr).
  - assert (E : forall q : Settings fields, pick f (x_fields (setFields data name (Price :: RATIO_FIELDS) q)) =
      setIfPresent (pick f (x_fields q)) name (pick f (d_fields data))) by (intros q; unfold setFields; cbn [x_fields]; rewrite pick_fill; by destruct f).
    rewrite E, setIfPresent_spec. assert (forall c, pick f (x_fields (if truthy_str c then mkSettings (x_fields (deleteName name m))
      (set_prop name (VStr (js "tiered_expr")) (x_billingMode (deleteName name m))) (set_prop name (VStr c) (x_billingExpr (deleteName name m)))
      else deleteName name m)) = delete_prop name (pick f (x_fields m))) as ->.
    { intros c. destruct (truthy_str c); cbn [x_fields deleteName]; by rewrite pick_fill. }
    by destruct (storedNumber _).
  - destruct (truthy_str _); unfold setFields, deleteName; cbn [x_fields]; rewrite !pick_fill;
      destruct f; cbn [RATIO_FIELDS existsb]; try reflexivity; rewrite ?setIfPresent_spec; by destruct (storedNumber _).
Qed.

Lemma storeModel_mode data m name :
  rewritten name (match storedExpr data with Some _ => Some (VStr (js "tiered_expr")) | None => None end) (x_billingMode m)
    (x_billingMode (storeModel data m name)) /\
  rewritten name (VStr <$> storedExpr data) (x_billingExpr m) (x_billingExpr (storeModel data m name)).
Proof.
  unfold rewritten, storedExpr, storeModel. cbv zeta. destruct (d_billingMode data === Some TieredExpr).
  - by destruct (truthy_str (combineBillingExpr _ _)).
  - by destruct (truthy_str _).
Qed.

Lemma rewritten_own name v b a k : rewritten name v b a -> own k a = if k === name then v else own k b.
Proof. intros ->. destruct v as [v|]; rewrite ?own_set_prop, ?own_delete_prop; by destruct (k === name). Qed.

Lemma rewritten_textual name v b a : rewritten name v b a -> textual (VObj b) = true -> notIndex name = true ->
  (forall w, v = Some w -> textual w = true) -> textual (VObj a) = true.
Proof.
  intros -> Hb Hn Hv. destruct v as [v|]; [apply textual_set; [|by apply Hv|done]|]; by apply textual_delete.
Qed.

(** Storing the same data under several names. *)
Section Persist.
Context (data : ModelRatioData).
Hypothesis numbers_plain : forall f n, storedField data f = Some n -> plainNumber n = true.

Lemma store_wellStored m name : notIndex name = true -> wellStored m -> wellStored (storeModel data m name).
Proof.
  intros Hn [Hf Hm He]. destruct (storeModel_mode data m name) as [H1 H2]. split.
  - intros f. eapply rewritten_textual; [apply storeModel_fields|apply Hf|done|].
    intros w Hw. destruct (storedField data f) as [n|] eqn:E; [|done]. injection Hw as <-. by apply numbers_plain in E.
  - eapply rewritten_textual; [exact H1|done|done|]. intros w Hw. by destruct (storedExpr data); [injection Hw as <-|].
  - eapply rewritten_textual; [exact H2|done|done|]. intros w Hw. by destruct (storedExpr data); [injection Hw as <-|].
Qed.

Lemma fold_wellStored names m : Forall (fun n => notIndex n = true) names -> wellStored m -> wellStored (foldl (storeModel data) m names).
Proof. intros H. revert m. induction H as [|n names Hn _ IH]; intros m Hm; [done|]. apply IH. by apply store_wellStored. Qed.

End Persist.

(** The settings hold [data] under [k]; nothing changed under [k]. *)
Definition carries (data : ModelRatioData) (k : jstr) (m : Settings fields) : Prop :=
  (forall f, own k (pick f (x_fields m)) = VNum <$> storedField data f) /\
  own k (x_billingMode m) = (fun _ => VStr (js "tiered_expr")) <$> storedExpr data /\
  own k (x_billingExpr m) = VStr <$> storedExpr data.
Definition unchanged (k : jstr) (m m' : Settings fields) : Prop :=
  (forall f, own k (pick f (x_fields m')) = own k (pick f (x_fields m))) /\
  own k (x_billingMode m') = own k (x_billingMode m) /\ own k (x_billingExpr m') = own k (x_billingExpr m).

Lemma unchanged_trans k m1 m2 m3 : unchanged k m1 m2 -> unchanged k m2 m3 -> unchanged k m1 m3.
Proof. intros (A1 & B1 & C1) (A2 & B2 & C2). split_and!; [intros f|..]; congruence. Qed.

Lemma carries_unchanged data k m m' : carries data k m -> unchanged k m m' -> carries data k m'.
Proof. intros (A1 & B1 & C1) (A2 & B2 & C2). split_and!; [intros f|..]; congruence. Qed.

Lemma store_one data m name k :
  (k = name -> carries data k (storeModel data m name)) /\ (k <> name -> unchanged k m (storeModel data m name)).
Proof.
  destruct (storeModel_mode data m name) as [H1 H2]. unfold carries, unchanged.
  rewrite (rewritten_own _ _ _ _ k H1), (rewritten_own _ _ _ _ k H2).
  split; intros Hk; (split; [intros f; rewrite (rewritten_own _ _ _ _ k (storeModel_fields data m name f))|]);
    rewrite ?bool_decide_true, ?bool_decide_false by done; done.
Qed.

Lemma store_all data names m k :
  (k ∈ names -> carries data k (foldl (storeModel data) m names)) /\
  (k ∉ names -> unchanged k m (foldl (storeModel data) m names)).
Proof.
  revert m. induction names as [|n names IH]; intros m; cbn [foldl].
  { split; [by intros ?%elem_of_nil|done]. }
  destruct (IH (storeModel data m n)) as [H1 H2], (store_one data m n k) as [S1 S2]. split.
  - intros Hk. destruct (decide (k ∈ names)) as [Hin|Hout]; [by apply H1|].
    apply elem_of_cons in Hk as [->|Hk]; [|done]. eapply carries_unchanged; [by apply S1|by apply H2].
  - intros [Hn Hout]%not_elem_of_cons. eapply unchanged_trans; [by apply S2|by apply H2].
Qed.

Lemma delete_one m name k :
  (k = name -> (forall f, own k (pick f (x_fields (deleteName name m))) = None) /\
               own k (x_billingMode (deleteName name m)) = None /\ own k (x_billingExpr (deleteName name m)) = None) /\
  (k <> name -> unchanged k m (deleteName name m)).
Proof.
  unfold unchanged, deleteName. cbn [x_fields x_billingMode x_billingExpr]. split; intros Hk;
    (split; [intros f; rewrite pick_fill|split]; rewrite own_delete_prop; by rewrite ?bool_decide_true, ?bool_decide_false by done).
Qed.

Lemma delete_wellStored m name : wellStored m -> wellStored (deleteName name m).
Proof.
  intros [Hf Hm He]. unfold deleteName. split; cbn [x_fields x_billingMode x_billingExpr]; [intros f; rewrite pick_fill|..]; by apply textual_delete.
Qed.

(** ** The rows of the table *)

Definition allFields : list PriceField := Price :: RATIO_FIELDS.

Lemma allFields_in f : f ∈ allFields.
Proof. destruct f; unfold allFields, RATIO_FIELDS; rewrite !elem_of_cons; tauto. Qed.

Lemma modelNames_elem m k : k ∈ modelNames m <->
  (exists f, is_Some (own k (pick f (x_fields m)))) \/ is_Some (own k (x_billingMode m)) \/ is_Some (own k (x_billingExpr m)).
Proof.
  unfold modelNames. rewrite set_from_elem. cbn [map concat]. rewrite !elem_of_app, !obj_keys_elem, !own_elem, elem_of_nil. split.
  - intros H. assert (Hf : forall f, is_Some (own k (pick f (x_fields m))) -> exists f, is_Some (own k (pick f (x_fields m)))) by eauto.
    destruct H as [H|[H|[H|[H|[H|[H|[H|[H|[H|[H|[]]]]]]]]]]]; [left..|tauto|tauto];
      [apply (Hf Price)|apply (Hf Ratio)|apply (Hf CacheRatio)|apply (Hf CreateCacheRatio)|apply (Hf CompletionRatio)|apply (Hf ImageRatio)
      |apply (Hf AudioRatio)|apply (Hf AudioCompletionRatio)]; exact H.
  - intros [[f H]|H]; [|tauto]. destruct f; cbn [pick] in H; tauto.
Qed.

Lemma row_name m k row : snapshotRow m k = Ret row -> sn_name row = k.
Proof.
  unfold snapshotRow. cbv zeta. destruct (isTieredMode _); [|by intros [= <-]].
  destruct (exprOf _) as [e|]; [|done]. cbn [obind]. destruct (splitBillingExprAndRequestRules e) as [s|]; [|done]. cbn [obind]. by intros [= <-].
Qed.

(** The table has one row for each model some setting mentions. *)
Lemma rows_exact m rows : mapOutcome (snapshotRow m) (modelNames m) = Ret rows ->
  map sn_name rows = modelNames m /\
  (forall row, row ∈ rows <-> sn_name row ∈ modelNames m /\ snapshotRow m (sn_name row) = Ret row).
Proof.
  intros Hm. assert (E : map sn_name rows = modelNames m).
  { apply mapOutcome_ret in Hm. induction Hm as [|k row ks rows Hr _ IH]; [done|]. cbn [map]. by rewrite IH, (row_name _ _ _ Hr). }
  split; [done|]. intros row. rewrite (mapOutcome_elem _ _ _ row Hm). split; [|by eauto].
  intros (k & Hk & Hr). by rewrite (row_name _ _ _ Hr).
Qed.

(** What the table shows of [data] under [name]. *)
Definition savedFields (data : ModelRatioData) : PerField jstr :=
  fill (fun f => match storedField data f with Some n => num_to_str n | None => [] end).

Definition savedRow (data : ModelRatioData) (name : jstr) : outcome ModelPricingSnapshot :=
  let p := savedFields data in
  match storedExpr data with
  | Some combined =>
      split <-- splitBillingExprAndRequestRules combined ;;
      Ret (mkSnapshot name p TieredExpr (Some (billingExpr split)) (Some (requestRuleExpr split)) false)
  | None => Ret (mkSnapshot name p (if f_price p === [] then PerToken else PerRequest) None None (hasConflict p))
  end.

(** Some setting keeps something of [data]. *)
Definition storesSomething (data : ModelRatioData) : Prop := (exists f, is_Some (storedField data f)) \/ is_Some (storedExpr data).

Lemma row_carries data m k : carries data k m ->
  snapshotRow m k = savedRow data k /\ (k ∈ modelNames m <-> storesSomething data).
Proof.
  intros (A & B & C). split.
  - unfold snapshotRow, savedRow, fieldsOf. cbv zeta. rewrite !get_own, B, C.
    assert (E : fill (fun f => textOfValue (get_prop k (pick f (x_fields m)))) = savedFields data).
    { apply fill_ext. intros f. rewrite get_own, A. by destruct (storedField data f). }
    rewrite E. destruct (storedExpr data) as [c|]; reflexivity.
  - rewrite modelNames_elem, B, C. unfold storesSomething. setoid_rewrite A. setoid_rewrite fmap_is_Some. tauto.
Qed.

Lemma row_unchanged m m' k : unchanged k m m' -> snapshotRow m' k = snapshotRow m k /\ (k ∈ modelNames m' <-> k ∈ modelNames m).
Proof.
  intros (A & B & C). split.
  - unfold snapshotRow, fieldsOf. cbv zeta. rewrite !get_own, B, C.
    assert (E : forall f, textOfValue (get_prop k (pick f (x_fields m'))) = textOfValue (get_prop k (pick f (x_fields m)))) by (intros f; by rewrite !get_own, A).
    by rewrite (fill_ext _ _ E).
  - rewrite !modelNames_elem, B, C. setoid_rewrite A. done.
Qed.

(** Settings whose texts can be read and written again. *)
Definition readable (texts : Settings jstr) : Prop := exists maps, parseSettings texts = Some maps /\ wellStored maps.

(** Data whose numbers print as JSON and whose expression can be split. *)
Record storableData (data : ModelRatioData) : Prop := {
  plain_numbers : forall f n, storedField data f = Some n -> plainNumber n = true;
  splits : forall c, storedExpr data = Some c -> exists s, splitBillingExprAndRequestRules c = Ret s }.

Lemma savedRow_total data name : storableData data -> exists row, savedRow data name = Ret row.
Proof.
  intros [_ Hs]. unfold savedRow. cbv zeta. destruct (storedExpr data) as [c|] eqn:E; [|by eexists].
  destruct (Hs c) as [s ->]; [done|]. by eexists.
Qed.

Lemma persist_rows data names texts rows :
  readable texts -> Forall (fun n => notIndex n = true) names -> storableData data -> buildModelSnapshots texts = Some (Ret rows) ->
  exists texts' rows', persistPricingData data names texts = Some texts' /\ readable texts' /\
    buildModelSnapshots texts' = Some (Ret rows') /\ NoDup (map sn_name rows') /\
    forall row, row ∈ rows' <->
      (sn_name row ∈ names /\ storesSomething data /\ savedRow data (sn_name row) = Ret row) \/ (sn_name row ∉ names /\ row ∈ rows).
Proof.
  intros (maps & Hp & Hw) Hn Hd Hb. unfold persistPricingData, buildModelSnapshots in *. rewrite Hp in *. cbn [mbind option_bind] in *.
  injection Hb as Hb. destruct (rows_exact _ _ Hb) as [Hnames Hrows]. set (maps' := foldl (storeModel data) maps names).
  assert (Hw' : wellStored maps') by (apply fold_wellStored; [apply Hd|done|done]).
  assert (Hrow : forall k, (k ∈ names -> snapshotRow maps' k = savedRow data k /\ (k ∈ modelNames maps' <-> storesSomething data)) /\
    (k ∉ names -> snapshotRow maps' k = snapshotRow maps k /\ (k ∈ modelNames maps' <-> k ∈ modelNames maps))).
  { intros k. destruct (store_all data names maps k) as [H1 H2]. split; intros Hk; [by apply row_carries, H1|by apply row_unchanged, H2]. }
  destruct (mapOutcome_total (snapshotRow maps') (modelNames maps')) as [rows' Hr'].
  { intros k Hk. destruct (Hrow k) as [H1 H2]. destruct (decide (k ∈ names)) as [Hin|Hout].
    - destruct (H1 Hin) as [-> _]. by apply savedRow_total.
    - destruct (H2 Hout) as [-> Hm]. apply Hm in Hk. rewrite <- Hnames in Hk. apply list_elem_of_fmap in Hk as (row & -> & Hin).
      exists row. by apply Hrows in Hin as [_ ->]. }
  exists (printSettings maps'), rows'. rewrite (print_parse _ Hw'). cbn [mbind option_bind]. rewrite Hr'.
  destruct (rows_exact _ _ Hr') as [Hnames' Hrows']. split_and!; [done|by exists maps'; rewrite print_parse|done|rewrite Hnames'; apply set_from_NoDup|].
  intros row. rewrite Hrows', Hrows. destruct (Hrow (sn_name row)) as [H1 H2]. destruct (decide (sn_name row ∈ names)) as [Hin|Hout].
  - destruct (H1 Hin) as [-> ->]. tauto.
  - destruct (H2 Hout) as [-> ->]. tauto.
Qed.

Lemma saved_no_conflict data name row : (d_billingMode data = Some TieredExpr -> is_Some (storedExpr data)) ->
  savedRow data name = Ret row -> sn_hasConflict row = false.
Proof.
  intros Ht. unfold savedRow. cbv zeta. destruct (storedExpr data) as [c|] eqn:E.
  { destruct (splitBillingExprAndRequestRules c); [|done]. cbn [obind]. by intros [= <-]. }
  intros [= <-]. cbn [sn_hasConflict]. assert (Hm : d_billingMode data <> Some TieredExpr) by (intros H; by apply Ht in H as [? ?]).
  unfold savedFields, storedField, storesField. rewrite (bool_decide_false _ Hm). unfold hasConflict, fill.
  cbn [f_price f_ratio f_cacheRatio f_createCacheRatio f_completionRatio f_imageRatio f_audioRatio f_audioCompletionRatio].
  destruct (truthy_str _); [by destruct (_ === _)|reflexivity].
Qed.

(** ** Comparing with the draft *)

(** Two rows that show the same prices. *)
Definition sameShown (a b : ModelPricingSnapshot) : Prop :=
  sn_fields a = sn_fields b /\ sn_billingMode a = sn_billingMode b /\ text (sn_billingExpr a) = text (sn_billingExpr b) /\
  text (sn_requestRuleExpr a) = text (sn_requestRuleExpr b).

Lemma signature_textual s : textual (signatureObject s) = true.
Proof. reflexivity. Qed.

Lemma signature_text s : exists w, getSnapshotSignature (Some s) = 123%N :: w /\ json_parse (123%N :: w) = Some (signatureObject s).
Proof.
  unfold getSnapshotSignature, json_stringify. destruct (read_back_textual [] _ ltac:(constructor) (signature_textual s)) as (t & E & P).
  destruct (ser_object_trimmed [] (match signatureObject s with VObj fs => fs | _ => [] end)) as [w Hw].
  rewrite E. cbn [default from_option id]. unfold signatureObject in Hw, E. cbv zeta in Hw, E. rewrite E in Hw. injection Hw as ->. eauto.
Qed.

Lemma modeText_inj a b : modeText a = modeText b -> a = b.
Proof. by destruct a, b. Qed.

Lemma signature_exact a b : getSnapshotSignature (Some a) = getSnapshotSignature (Some b) <-> sameShown a b.
Proof.
  split.
  - destruct (signature_text a) as (w & -> & Pa), (signature_text b) as (w' & -> & Pb). intros [= ->]. rewrite Pa in Pb.
    unfold signatureObject in Pb. cbv zeta in Pb. destruct a as [na [a1 a2 a3 a4 a5 a6 a7 a8] ma ea ra ca], b as [nb [b1 b2 b3 b4 b5 b6 b7 b8] mb eb rb cb].
    cbn [sn_fields sn_billingMode sn_billingExpr sn_requestRuleExpr f_price f_ratio f_cacheRatio f_createCacheRatio f_completionRatio
         f_imageRatio f_audioRatio f_audioCompletionRatio] in Pb. injection Pb. intros. subst. by repeat split; [apply modeText_inj|..].
  - intros (E1 & E2 & E3 & E4). unfold getSnapshotSignature, signatureObject. unfold text in *. by rewrite E1, E2, E3, E4.
Qed.

Lemma signature_nonempty a : getSnapshotSignature (Some a) <> getSnapshotSignature None.
Proof. by destruct (signature_text a) as (w & -> & _). Qed.

Lemma rowByName_unique rows name row : NoDup (map sn_name rows) -> rowByName rows name = Some row <-> row ∈ rows /\ sn_name row = name.
Proof.
  unfold rowByName. intros Hd. induction rows as [|r rows IH]; cbn [map List.filter] in *.
  { split; [done|by intros [?%elem_of_nil _]]. }
  apply NoDup_cons in Hd as [Hn Hd]. specialize (IH Hd). case_bool_decide as E.
  - assert (List.filter (fun row => sn_name row === name) rows = []) as ->.
    { destruct (List.filter _ rows) as [|x xs] eqn:F; [done|]. assert (Hx : In x (List.filter (fun row => sn_name row === name) rows)) by (rewrite F; by left).
      apply filter_In in Hx as [Hx Hxn%bool_decide_eq_true]. exfalso. apply Hn. rewrite E, <- Hxn. by apply list_elem_of_fmap_2, list_elem_of_In. }
    cbn [last]. rewrite elem_of_cons. split; [intros [= ->]; auto|]. intros [[->|Hin] Hr]; [done|].
    exfalso. apply Hn. rewrite E, <- Hr. by apply list_elem_of_fmap_2.
  - rewrite IH, elem_of_cons. split; [tauto|]. intros [[->|Hin] Hr]; [done|tauto].
Qed.

Lemma shown_names saved draft names : NoDup (map sn_name saved) -> NoDup (map sn_name draft) ->
  map (fun row => sn_name (r_shown row)) (List.filter (fun row => negb (r_isDraftDeleted row)) (concat (map (modelRow saved draft) names)))
  = List.filter (fun name => isSome (rowByName draft name)) names.
Proof.
  intros Hs Hd. induction names as [|name names IH]; [done|]. cbn [map concat]. rewrite List.filter_app, map_app, IH. cbn [List.filter].
  unfold modelRow. cbv zeta. destruct (rowByName saved name) as [s|] eqn:Es, (rowByName draft name) as [d|] eqn:Ed; try done;
    cbn [isSome negb andb List.filter map r_isDraftDeleted r_shown app]; f_equal.
  - by apply rowByName_unique in Es as [_ Es].
  - by apply rowByName_unique in Ed as [_ Ed].
Qed.

(** ** Properties of the settings *)


(** Deleting a model removes its row and leaves every other one alone. *)
Theorem deleted_model_is_gone name texts rows : readable texts -> buildModelSnapshots texts = Some (Ret rows) ->
  exists texts' rows', deletePricingData name texts = Some texts' /\ buildModelSnapshots texts' = Some (Ret rows') /\
    forall row, row ∈ rows' <-> row ∈ rows /\ sn_name row <> name.
Proof.
  intros (maps & Hp & Hw) Hb. unfold deletePricingData, buildModelSnapshots in *. rewrite Hp in *. cbn [mbind option_bind] in *.
  injection Hb as Hb. destruct (rows_exact _ _ Hb) as [Hnames Hrows]. pose proof (delete_wellStored maps name Hw) as Hw'.
  set (maps' := deleteName name maps) in *.
  assert (Hgone : name ∉ modelNames maps').
  { rewrite modelNames_elem. destruct (delete_one maps name name) as [H _]. destruct H as (A & B & C); [done|].
    unfold maps'. rewrite B, C. intros [[f H]|[H|H]]; [rewrite A in H|..]; by destruct H. }
  assert (Hsame : forall k, k <> name -> snapshotRow maps' k = snapshotRow maps k /\ (k ∈ modelNames maps' <-> k ∈ modelNames maps)).
  { intros k Hk. apply row_unchanged, delete_one, Hk. }
  destruct (mapOutcome_total (snapshotRow maps') (modelNames maps')) as [rows' Hr'].
  { intros k Hk. assert (Hne : k <> name) by (by intros ->). destruct (Hsame k Hne) as [-> Hm]. apply Hm in Hk. rewrite <- Hnames in Hk.
    apply list_elem_of_fmap in Hk as (row & -> & Hin). exists row. by apply Hrows in Hin as [_ ->]. }
  exists (printSettings maps'), rows'. rewrite (print_parse _ Hw'). cbn [mbind option_bind]. rewrite Hr'. split_and!; [done|done|].
  intros row. rewrite (proj2 (rows_exact _ _ Hr')), Hrows. destruct (decide (sn_name row = name)) as [->|Hne]; [tauto|].
  destruct (Hsame _ Hne) as [-> ->]. tauto.
Qed.

(** The table follows the draft and marks it against the saved settings: it
    has one row for each model of the draft, with the saved prices on display
    when there are any; a row is marked new when the model is not saved yet, and
    changed exactly when a price, the mode or a part of the expression differs. *)
Theorem table_marks_draft localeCompare saved draft :
  NoDup (map sn_name saved) -> NoDup (map sn_name draft) ->
  (forall row, row ∈ modelRows localeCompare saved draft -> exists d, r_draft row = Some d /\ d ∈ draft /\ sn_name (r_shown row) = sn_name d /\
     (r_isDraftNew row = true <-> sn_name d ∉ map sn_name saved) /\
     (r_isDraftChanged row = false <-> exists s, s ∈ saved /\ sn_name s = sn_name d /\ sameShown s d)) /\
  Permutation (map (fun row => sn_name (r_shown row)) (modelRows localeCompare saved draft)) (map sn_name draft).
Proof.
  intros Hs Hd. assert (Hrow : forall name row, row ∈ List.filter (fun row => negb (r_isDraftDeleted row)) (modelRow saved draft name) <->
    exists d, rowByName draft name = Some d /\ row = mkRow (default d (rowByName saved name)) (rowByName saved name) (Some d)
      (negb (getSnapshotSignature (rowByName saved name) === getSnapshotSignature (Some d))) false (negb (isSome (rowByName saved name)))).
  { intros name row. unfold modelRow. cbv zeta. destruct (rowByName saved name) as [s|], (rowByName draft name) as [d|];
      cbn [isSome negb andb List.filter r_isDraftDeleted default from_option id]; rewrite ?list_elem_of_singleton, ?elem_of_nil; (split; [|intros (d' & [= <-] & ->); done]); try done; intros ->; by exists d. }
  assert (Hall : forall row, row ∈ modelRows localeCompare saved draft <-> exists name, row ∈ List.filter (fun row => negb (r_isDraftDeleted row)) (modelRow saved draft name)).
  { intros row. unfold modelRows. rewrite sort_by_elem. rewrite list_elem_of_In, filter_In, in_concat. split.
    - intros [(l & (name & <- & _)%in_map_iff & Hin) Hneg]. exists name. by apply list_elem_of_In, filter_In.
    - intros (name & Hin). assert (Hin' := Hin). apply list_elem_of_In, filter_In in Hin as [Hin Hneg]. split; [|done].
      eexists. split; [|exact Hin]. apply in_map_iff. exists name. split; [done|]. apply list_elem_of_In, set_from_elem, elem_of_app. right.
      apply Hrow in Hin' as (d & Hb & _). apply rowByName_unique in Hb as [Hb <-]; [|done]. by apply list_elem_of_fmap_2. }
  split.
  - intros row (name & (d & Hb & ->)%Hrow)%Hall. exists d. assert (Hb' := Hb). apply rowByName_unique in Hb' as [Hin Hn]; [|done]. subst name.
    cbn [r_draft r_shown r_isDraftNew r_isDraftChanged]. assert (Hsv := fun s => rowByName_unique saved (sn_name d) s Hs).
    destruct (rowByName saved (sn_name d)) as [s|] eqn:Es; cbn [default from_option id isSome negb].
    + destruct (proj1 (Hsv s) eq_refl) as [Hi Hn]. split_and!; [done|done|done| |].
      * split; [done|]. intros H. exfalso. apply H. rewrite <- Hn. by apply list_elem_of_fmap_2.
      * rewrite negb_false_iff, bool_decide_eq_true, signature_exact. split; [by eauto|].
        intros (s' & Hi' & Hn' & Hss). assert (E : Some s = Some s') by (by apply Hsv). by injection E as ->.
    + split_and!; [done|done|done| |].
      * split; [|done]. intros _ (s & Hn & Hi)%list_elem_of_fmap. assert (E : None = Some s) by (by apply Hsv). done.
      * rewrite negb_false_iff, bool_decide_eq_true. split; [intros E; by apply eq_sym, signature_nonempty in E|].
        intros (s & Hi & Hn & _). assert (E : None = Some s) by (by apply Hsv). done.
  - unfold modelRows. rewrite sort_by_perm. rewrite (shown_names saved draft) by done.
    apply NoDup_Permutation; [apply NoDup_ListNoDup, filter_NoDup, set_from_NoDup|by apply NoDup_ListNoDup|].
    intros name. rewrite filter_In, <- !list_elem_of_In, set_from_elem, elem_of_app. split.
    + intros [_ H]. destruct (rowByName draft name) as [d|] eqn:E; [|done]. apply rowByName_unique in E as [E <-]; [|done]. by apply list_elem_of_fmap_2.
    + intros H. split; [by right|]. apply list_elem_of_fmap in H as (d & -> & Hin). by rewrite (proj2 (rowByName_unique draft (sn_name d) d Hd)).
Qed.

(** ** The panel *)

(** Read a field after updates of literal fields and lanes. *)
Ltac pick_fields := rewrite ?pick_put, ?lane_set; repeat match goal with
  | |- context [bool_decide (?a = ?b)] =>
      first [rewrite (bool_decide_true (a = b)) by reflexivity | rewrite (bool_decide_false (a = b)) by discriminate]
  end.

(** The ratio a lane's price stands for. *)
Definition derived (p : Panel) (l : LaneKey) : jstr :=
  if lane l (p_laneEnabled p) then deriveLaneRatio l (lane l (p_lanePrices p)) (p_promptPrice p) (p_lanePrices p) else [].

Definition consistent (p : Panel) : Prop :=
  f_ratio (p_values p) = baseRatio (p_promptPrice p) /\ forall l, pick (ratioFieldByLane l) (p_values p) = derived p l.

Definition disabledEmpty (p : Panel) : Prop :=
  forall l, lane l (p_laneEnabled p) = false -> pick (ratioFieldByLane l) (p_values p) = [].

Lemma consistent_disabled p : consistent p -> disabledEmpty p.
Proof. intros [_ H] l Hl. rewrite H. unfold derived. by rewrite Hl. Qed.

Lemma sync_values prompt prices enabled p l :
  pick (ratioFieldByLane l) (p_values (syncLaneRatios prompt prices enabled p)) =
    (if lane l enabled then deriveLaneRatio l (lane l prices) prompt prices else []) /\
  f_ratio (p_values (syncLaneRatios prompt prices enabled p)) = baseRatio prompt.
Proof.
  unfold syncLaneRatios, laneConfigs. cbn [foldl setFormValue p_values ratioFieldByLane].
  split; [|change (@f_ratio jstr) with (pick (A := jstr) Ratio); pick_fields; reflexivity].
  destruct l; cbn [ratioFieldByLane]; pick_fields; by destruct (lane _ enabled).
Qed.

Lemma prompt_consistent value p : isNumericDraft value = true -> consistent (handlePromptPriceChange value p).
Proof.
  intros H. unfold handlePromptPriceChange. rewrite H. cbn [negb]. set (q := withLanes _ _ _ p).
  split; [apply (sync_values _ _ _ q LCompletion)|]. intros l. rewrite (proj1 (sync_values _ _ _ q l)). done.
Qed.

Lemma lane_put k l v (q : PerField jstr) :
  pick (ratioFieldByLane k) (put (ratioFieldByLane l) v q) = if k === l then v else pick (ratioFieldByLane k) q.
Proof. destruct k, l; cbn [ratioFieldByLane]; by pick_fields. Qed.

Lemma ratio_put l v (q : PerField jstr) : f_ratio (put (ratioFieldByLane l) v q) = f_ratio q.
Proof. by destruct l. Qed.

(** The base of a lane's ratio: the audio input price for audio output, else
    the input price. *)
Definition basePrice (l : LaneKey) (prompt : jstr) (prices : PerLane jstr) : jstr :=
  if l === LAudioOutput then l_audioInput prices else prompt.

Lemma derive_base l price prompt prices :
  deriveLaneRatio l price prompt prices = ratioOver (textNumber price) (textNumber (basePrice l prompt prices)).
Proof. unfold deriveLaneRatio, basePrice. destruct (textNumber price); [|done]. by destruct (l === LAudioOutput). Qed.

Lemma lanePrice_consistent l value p : consistent p -> consistent (handleLanePriceChange l value p).
Proof.
  intros [Hr Hl]. unfold handleLanePriceChange. destruct (isNumericDraft value); [|done]. cbn [negb]. cbv zeta.
  change AudioCompletionRatio with (ratioFieldByLane LAudioOutput). split.
  - destruct (lane l (p_laneEnabled p)), ((l === LAudioInput) && _); cbn [setFormValue withLanes p_values p_promptPrice];
      by rewrite ?ratio_put.
  - intros k. specialize (Hl k). unfold derived in *. rewrite derive_base in Hl |- *. unfold basePrice in *.
    change (@l_audioInput jstr) with (@lane jstr LAudioInput) in *. change (@l_audioOutput bool) with (@lane bool LAudioOutput) in *.
    destruct (lane l (p_laneEnabled p)) eqn:El, (lane LAudioOutput (p_laneEnabled p)) eqn:Eo; destruct l, k;
      cbn [ratioFieldByLane] in *; pick_fields; cbn [andb setFormValue withLanes p_values p_promptPrice p_laneEnabled p_lanePrices];
      rewrite ?derive_base; unfold basePrice; change (@l_audioInput jstr) with (@lane jstr LAudioInput); pick_fields; rewrite ?El, ?Eo in *; done.
Qed.

Lemma laneToggle_consistent l checked p : consistent p -> consistent (handleLaneToggle l checked p).
Proof.
  intros [Hr Hl]. unfold handleLaneToggle. cbv zeta. change AudioCompletionRatio with (ratioFieldByLane LAudioOutput). split.
  - destruct checked, (l === LAudioInput); cbn [setFormValue withLanes p_values p_promptPrice]; by rewrite ?ratio_put.
  - intros k. specialize (Hl k). unfold derived in *. rewrite derive_base in Hl |- *. unfold basePrice in *.
    change (@l_audioInput jstr) with (@lane jstr LAudioInput) in *.
    destruct checked, l, k; cbn [ratioFieldByLane] in *; pick_fields;
      cbn [setFormValue withLanes p_values p_promptPrice p_laneEnabled p_lanePrices]; rewrite ?derive_base; unfold basePrice;
      change (@l_audioInput jstr) with (@lane jstr LAudioInput); pick_fields; done.
Qed.

Lemma lanePrice_disabled l value p : disabledEmpty p -> disabledEmpty (handleLanePriceChange l value p).
Proof.
  intros H. unfold handleLanePriceChange. destruct (isNumericDraft value); [|done]. cbn [negb]. cbv zeta. intros k. specialize (H k).
  change AudioCompletionRatio with (ratioFieldByLane LAudioOutput). change (@l_audioOutput bool) with (@lane bool LAudioOutput).
  destruct (lane l (p_laneEnabled p)) eqn:El, (l === LAudioInput), (lane LAudioOutput (p_laneEnabled p)) eqn:Eo;
    cbn [andb setFormValue withLanes p_values p_laneEnabled]; rewrite ?lane_put; intros Hk;
    repeat case_bool_decide; subst; try congruence; by apply H.
Qed.

Lemma laneToggle_disabled l checked p : disabledEmpty p -> disabledEmpty (handleLaneToggle l checked p).
Proof.
  intros H k. specialize (H k). unfold handleLaneToggle. cbv zeta. change AudioCompletionRatio with (ratioFieldByLane LAudioOutput).
  destruct checked, (l === LAudioInput); cbn [setFormValue withLanes p_values p_laneEnabled]; rewrite ?lane_put, ?lane_set;
    repeat case_bool_decide; subst; try done; by apply H.
Qed.

Lemma event_consistent e p : consistent p -> consistent (onPanel e p).
Proof.
  intros H. destruct e; cbn [onPanel]; [|by apply lanePrice_consistent|by apply laneToggle_consistent|exact H| |exact H|exact H].
  - destruct (isNumericDraft value) eqn:E; [by apply prompt_consistent|]. unfold handlePromptPriceChange. by rewrite E.
  - unfold handlePriceChange. destruct (isNumericDraft value); [|done]. destruct H as [Hr Hl]. split; [exact Hr|].
    intros l. etransitivity; [|exact (Hl l)]. by destruct l.
Qed.

Lemma event_disabled e p : disabledEmpty p -> disabledEmpty (onPanel e p).
Proof.
  intros H. destruct e; cbn [onPanel]; [|by apply lanePrice_disabled|by apply laneToggle_disabled|exact H| |exact H|exact H].
  - destruct (isNumericDraft value) eqn:E; [by apply consistent_disabled, prompt_consistent|]. unfold handlePromptPriceChange. by rewrite E.
  - unfold handlePriceChange. destruct (isNumericDraft value); [|done]. intros l Hl. etransitivity; [|exact (H l Hl)]. by destruct l.
Qed.

Lemma session_invariant editData b p : session editData b p -> disabledEmpty p /\ (b = true -> consistent p).
Proof.
  induction 1 as [|b p e _ [IH1 IH2]].
  - destruct editData as [data|]; cbn [isSome negb].
    + split; [|done]. intros l. unfold openPanel. cbn [p_laneEnabled p_values createInitialLaneState ls_enabled].
      rewrite lane_lanes, pick_fill. unfold hasValue. intros H%negb_false_iff%bool_decide_eq_true. exact H.
    + split; [intros l; by destruct l|]. intros _. split; [done|]. intros l. by destruct l.
  - split; [by apply event_disabled|]. destruct e; intros Hb; try (apply event_consistent; by apply IH2).
    cbn [onPanel]. destruct (isNumericDraft value) eqn:E; [by apply prompt_consistent|].
    unfold handlePromptPriceChange. rewrite E. apply IH2. by rewrite orb_false_r in Hb.
Qed.

Lemma committed p data : commitDraft p = Some data ->
  data = buildSubmitData p /\ p_name p <> [] /\ missingInput p = false /\ missingAudioInput p = false.
Proof.
  unfold commitDraft, validatePricingValues. case_bool_decide; [done|]. cbn [orb].
  destruct (missingInput p); [done|]. destruct (missingAudioInput p); [done|]. cbn [isSome]. intros [= <-]. done.
Qed.

(** Committing an open panel stores its data under its trimmed name. *)
Lemma commit_rows v p rows :
  readable (v_texts v) -> buildModelSnapshots (v_texts v) = Some (Ret rows) -> v_editorOpen v = true ->
  is_Some (commitDraft p) -> notIndex (trim (p_name p)) = true -> storableData (buildSubmitData p) -> storesSomething (buildSubmitData p) ->
  exists v' rows' row, commitOpenEditor (Some p) v = Some (v', true) /\ buildModelSnapshots (v_texts v') = Some (Ret rows') /\
    row ∈ rows' /\ savedRow (buildSubmitData p) (trim (p_name p)) = Ret row /\ sn_name row = trim (p_name p).
Proof.
  intros Ht Hb Ho [data Hc] Hn Hd Hs. assert (E := Hc). apply committed in E as [-> _]. unfold commitOpenEditor. rewrite Ho, Hc. cbn [negb].
  destruct (persist_rows (buildSubmitData p) [trim (p_name p)] (v_texts v) rows) as (texts' & rows' & H1 & _ & H2 & _ & H4); [done|by repeat constructor|done|done|].
  cbn [d_name buildSubmitData] in *. rewrite H1. cbn [mbind option_bind]. destruct (savedRow_total (buildSubmitData p) (trim (p_name p)) Hd) as [row Hr].
  assert (Hrn : sn_name row = trim (p_name p)).
  { revert Hr. unfold savedRow. cbv zeta. destruct (storedExpr _) as [c|]; [|by intros [= <-]].
    destruct (splitBillingExprAndRequestRules c); [|done]. cbn [obind]. by intros [= <-]. }
  do 2 eexists. exists row. split_and!; [reflexivity|exact H2| |done|done]. apply H4. left. rewrite Hrn. split_and!; [by left|done|done].
Qed.

Lemma plain_text n : plainNumber n = true -> num_to_str n <> [].
Proof. unfold plainNumber. intros [_ H%bool_decide_eq_true]%andb_true_iff E. by rewrite E in H. Qed.

(** ** Properties of the panel *)

(** [C21] In every state of the panel the lanes that are switched off have no ratio,
    so they are omitted on save; and once ratios have been computed from prices
    (a new model, or an edited input price) every ratio in the form is the one
    its price stands for, whatever is edited or toggled in whatever order:
    prices divided by the input price, audio output by the audio input price,
    the base ratio half of the input price. *)
Theorem lane_ratios_follow_prices editData b p : session editData b p ->
  disabledEmpty p /\
  (b = true -> f_ratio (p_values p) = baseRatio (p_promptPrice p) /\
     forall l, pick (ratioFieldByLane l) (p_values p) =
       if lane l (p_laneEnabled p)
       then ratioOver (textNumber (lane l (p_lanePrices p))) (textNumber (basePrice l (p_promptPrice p) (p_lanePrices p))) else []).
Proof.
  intros H. destruct (session_invariant _ _ _ H) as [H1 H2]. split; [done|]. intros Hb. destruct (H2 Hb) as [Hr Hl]. split; [done|].
  intros l. rewrite Hl. unfold derived. by rewrite derive_base.
Qed.

(** What a validated per-token panel saves for a lane with a price: the price
    over the input price, which validation guarantees to be a number; but
    nothing at all when that number is zero. *)
Theorem committed_lane_ratio editData p data l n :
  session editData true p -> commitDraft p = Some data -> p_mode p = PerToken -> l <> LAudioOutput ->
  lane l (p_laneEnabled p) = true -> textNumber (lane l (p_lanePrices p)) = Some n ->
  exists d, textNumber (p_promptPrice p) = Some d /\
    text (pick (ratioFieldByLane l) (d_fields data)) = if isZero d then [] else formatPricingNumber (VNum (num_div n d)).
Proof.
  intros Hs (-> & _ & Hi & _)%committed Hm Hl He Hn. destruct (session_invariant _ _ _ Hs) as [_ H2]. destruct (H2 eq_refl) as [_ Hv].
  unfold missingInput in Hi. rewrite (bool_decide_true _ Hm) in Hi. cbn [andb] in Hi.
  destruct (textNumber (p_promptPrice p)) as [d|] eqn:Ed; cycle 1.
  { cbn [isSome negb andb] in Hi. apply not_true_iff_false in Hi. exfalso. apply Hi. apply existsb_exists. exists l. split; [by destruct l; unfold laneConfigs; cbn; tauto|].
    rewrite He. cbn [andb]. unfold hasValue. apply negb_true_iff, bool_decide_eq_false. intros E. by rewrite E in Hn. }
  exists d. split; [done|]. unfold buildSubmitData. cbn [d_fields]. rewrite pick_fill. cbn [text default from_option id]. rewrite Hv. unfold derived.
  rewrite He, derive_base, Hn. unfold basePrice. rewrite bool_decide_false by done. by rewrite Ed.
Qed.

(** A fixed price outlives the change of mode: whatever the panel shows, a
    model saved in per-token mode while the form still has a fixed price (as it
    has for every model opened with one) is stored per request, with the fixed
    price only: the entered token prices are dropped. *)
Theorem fixed_price_outlives_mode v p rows n :
  readable (v_texts v) -> buildModelSnapshots (v_texts v) = Some (Ret rows) -> v_editorOpen v = true ->
  is_Some (commitDraft p) -> notIndex (trim (p_name p)) = true -> p_mode p = PerToken ->
  storedNumber (Some (f_price (p_values p))) = Some n -> plainNumber n = true ->
  exists v' rows' row, commitOpenEditor (Some p) v = Some (v', true) /\ buildModelSnapshots (v_texts v') = Some (Ret rows') /\
    row ∈ rows' /\ sn_name row = trim (p_name p) /\ sn_billingMode row = PerRequest /\
    forall f, pick f (sn_fields row) = if f === Price then num_to_str n else [].
Proof.
  intros Ht Hb Ho Hc Hn Hm Hp Hpl. set (data := buildSubmitData p).
  assert (Hx : storedExpr data = None) by (unfold storedExpr, data, buildSubmitData; cbn [d_billingMode]; by rewrite Hm).
  assert (Hprice : truthy_str (f_price (p_values p)) = true) by (unfold storedNumber in Hp; cbn [text default from_option id] in Hp; by destruct (truthy_str _)).
  assert (Hf : forall f, storedField data f = if f === Price then Some n else None).
  { intros f. unfold storedField, storesField, data, buildSubmitData. cbn [d_billingMode d_fields]. rewrite Hm, pick_fill.
    rewrite (bool_decide_false (Some PerToken = Some TieredExpr)) by done. unfold fill. cbn [f_price text default from_option id pick].
    rewrite Hprice. case_bool_decide as E; [|done]. by subst f. }
  destruct (commit_rows v p rows Ht Hb Ho Hc Hn) as (v' & rows' & row & H1 & H2 & H3 & H4 & H5).
  { split; [|intros c; fold data; by rewrite Hx]. intros f m. fold data. rewrite Hf. case_bool_decide; [by intros [= <-]|done]. }
  { left. exists Price. fold data. by rewrite Hf. }
  exists v', rows', row. split_and!; try done; unfold savedRow in H4; fold data in H4; rewrite Hx in H4; cbv zeta in H4; injection H4 as <-;
    cbn [sn_billingMode sn_fields].
  - rewrite Hf. rewrite (bool_decide_true (Price = Price)) by done. rewrite bool_decide_false; [done|]. by apply plain_text.
  - intros f. unfold savedFields. rewrite pick_fill, Hf. by destruct (f === Price).
Qed.

(** [C31] Expressions survive: the tiers and request rules that the expression
    editor wrote are saved as one text, and opening the model again gives both
    texts back in expression mode.  This holds for one or more editable tiers
    (labels without double quotes and with balanced parentheses, finite prices
    that read back, plain condition values) and well-formed rule groups
    ([wfGroup]: numeric comparisons and containment on a request parameter are
    excluded, their text does not come back), for a draft that can be committed
    in an open editor, a name that is not an array index, numbers that print as
    JSON and settings that read as objects that JSON text keeps. *)
Theorem expression_model_reopens v p rows t ts gs :
  readable (v_texts v) -> buildModelSnapshots (v_texts v) = Some (Ret rows) -> v_editorOpen v = true ->
  is_Some (commitDraft p) -> notIndex (trim (p_name p)) = true -> p_mode p = TieredExpr ->
  (forall f n, storedField (buildSubmitData p) f = Some n -> plainNumber n = true) ->
  Forall editable (t :: ts) -> Forall (fun g => wfGroup g = true) gs ->
  p_billingExpr p = generateExprFromVisualConfig (Some (t :: ts)) -> p_requestRuleExpr p = buildRequestRuleExpr gs ->
  exists v' rows' row, commitOpenEditor (Some p) v = Some (v', true) /\ buildModelSnapshots (v_texts v') = Some (Ret rows') /\
    row ∈ rows' /\ sn_name row = trim (p_name p) /\
    let q := openPanel (Some (editDataOf (mkRow row None (Some row) false false true))) in
    p_mode q = TieredExpr /\ p_billingExpr q = p_billingExpr p /\ p_requestRuleExpr q = p_requestRuleExpr p.
Proof.
  intros Ht Hb Ho Hc Hn Hm Hpl Hed Hgs He Hg. set (data := buildSubmitData p).
  assert (Hbase := generated_facts (t :: ts) ltac:(done) Hed). assert (Hsplit := split_saved _ gs Hbase Hgs).
  generalize dependent (generateExprFromVisualConfig (Some (t :: ts))). generalize dependent (buildRequestRuleExpr gs). intros rules Hg base He Hbase Hsplit.
  assert (Hx : storedExpr data = Some (combineBillingExpr (p_billingExpr p) (p_requestRuleExpr p))).
  { unfold storedExpr, data, buildSubmitData. cbn [d_billingMode d_billingExpr d_requestRuleExpr]. rewrite Hm.
    rewrite !(bool_decide_true (_ = _)) by done. cbn [text default from_option id]. destruct (truthy_str _) eqn:E; [done|].
    apply truthy_str_false in E. rewrite He, Hg in E. rewrite E in Hsplit. exfalso. revert Hsplit. unfold splitBillingExprAndRequestRules. cbn.
    intros [= H]. apply Hbase. by rewrite <- H. }
  destruct (commit_rows v p rows Ht Hb Ho Hc Hn) as (v' & rows' & row & H1 & H2 & H3 & H4 & H5).
  { split; [done|]. intros c. fold data. rewrite Hx, He, Hg. intros [= <-]. by eexists. }
  { right. fold data. by rewrite Hx. }
  exists v', rows', row. split_and!; try done; unfold savedRow in H4; fold data in H4; rewrite Hx, He, Hg, Hsplit in H4; cbn [obind] in H4; cbv zeta in H4;
    injection H4 as <-; cbn; by rewrite ?He, ?Hg.
Qed.

(** ** Concrete settings *)

(** One model with a fixed price and one with a ratio. *)
Definition sampleTexts : Settings jstr :=
  mkSettings (mkFields (jsq "{'a': 0.5}") (jsq "{'b': 1.5}") [] (js "oops") (jsq "{}") [] [] []) (jsq "{}") [].

Lemma sample_readable : readable sampleTexts.
Proof. eexists. split; [vm_compute; reflexivity|]. split; [intros []|..]; vm_compute; reflexivity. Qed.

Definition sampleRow (name price ratio : string) (mode : PricingMode) : ModelPricingSnapshot :=
  mkSnapshot (js name) (mkFields (js price) (js ratio) [] [] [] [] [] []) mode None None false.

Lemma sample_rows : buildModelSnapshots sampleTexts = Some (Ret [sampleRow "a" "0.5" "" PerRequest; sampleRow "b" "" "1.5" PerToken]).
Proof. vm_compute. reflexivity. Qed.

Definition sampleData : ModelRatioData := mkData (js "b") (put Ratio (Some (js "2.50")) (fill (fun _ => None))) (Some PerToken) None None.

Lemma sample_storable : storableData sampleData.
Proof.
  split; [|intros c H; vm_compute in H; discriminate H].
  intros [] n H; vm_compute in H; try discriminate H. injection H as <-. vm_compute. reflexivity.
Qed.


Lemma deleted_model_is_gone_witness : exists texts' rows', deletePricingData (js "a") sampleTexts = Some texts' /\
  buildModelSnapshots texts' = Some (Ret rows') /\ sampleRow "a" "0.5" "" PerRequest ∉ rows' /\ sampleRow "b" "" "1.5" PerToken ∈ rows'.
Proof.
  destruct (deleted_model_is_gone (js "a") sampleTexts _ sample_readable sample_rows) as (texts' & rows' & H1 & H2 & H3).
  exists texts', rows'. split; [exact H1|]. split; [exact H2|]. split.
  - intros [_ H]%H3. by apply H.
  - apply H3. split; [by right; left|]. intros H. discriminate H.
Defined.

Lemma table_marks_draft_witness :
  let saved := [sampleRow "a" "0.5" "" PerRequest; sampleRow "b" "" "1.5" PerToken] in
  let draft := [sampleRow "b" "" "2.5" PerToken; sampleRow "c" "" "1" PerToken] in
  Permutation (map (fun row => sn_name (r_shown row)) (modelRows (fun _ _ => 0%Z) saved draft)) [js "b"; js "c"].
Proof.
  intros saved draft. refine (proj2 (table_marks_draft (fun _ _ => 0%Z) saved draft _ _));
    (apply NoDup_cons; split; [intros H; apply list_elem_of_singleton in H; discriminate H|apply NoDup_singleton]).
Defined.

(** A new model with an input price of 3 and a completion price of 15. *)
Definition sampleEvents (prompt : string) : list PanelEvent :=
  [EvName (js "m"); EvPrompt (js prompt); EvLaneToggle LCompletion true; EvLanePrice LCompletion (js "15")].
Definition samplePanel (prompt : string) : Panel := foldl (fun p e => onPanel e p) (openPanel None) (sampleEvents prompt).

Lemma sample_session prompt : session None true (samplePanel prompt).
Proof.
  unfold samplePanel, sampleEvents. cbn [foldl].
  refine (session_event _ true _ (EvLanePrice _ _) _). refine (session_event _ true _ (EvLaneToggle _ _) _).
  refine (session_event _ true _ (EvPrompt _) _). refine (session_event _ true _ (EvName _) _). exact (session_open None).
Qed.

Lemma lane_ratios_follow_prices_witness :
  f_ratio (p_values (samplePanel "3")) = js "1.5" /\ pick (ratioFieldByLane LCompletion) (p_values (samplePanel "3")) = js "5".
Proof.
  destruct (lane_ratios_follow_prices None true (samplePanel "3") (sample_session "3")) as [_ H]. destruct (H eq_refl) as [H1 H2].
  rewrite H1, H2. split; vm_compute; reflexivity.
Defined.

Lemma committed_lane_ratio_witness : exists data, commitDraft (samplePanel "0") = Some data /\
  text (pick (ratioFieldByLane LCompletion) (d_fields data)) = [].
Proof.
  destruct (commitDraft (samplePanel "0")) as [data|] eqn:E; [|vm_compute in E; discriminate E]. exists data. split; [reflexivity|].
  destruct (committed_lane_ratio None (samplePanel "0") data LCompletion (num_of_Z 15) (sample_session "0") E) as (d & Hd & ->);
    [vm_compute; reflexivity|discriminate|vm_compute; reflexivity|vm_compute; reflexivity|]. vm_compute in Hd. injection Hd as <-. reflexivity.
Defined.

(** A model opened with a fixed price, switched to token prices. *)
Definition switchedPanel : Panel :=
  onPanel (EvPrompt (js "3")) (onPanel (EvMode PerToken) (openPanel (Some (editDataOf (mkRow (sampleRow "a" "0.5" "" PerRequest) None None false false false))))).

Lemma fixed_price_outlives_mode_witness : exists v' rows' row,
  commitOpenEditor (Some switchedPanel) (mkVisual sampleTexts None true false []) = Some (v', true) /\
  buildModelSnapshots (v_texts v') = Some (Ret rows') /\ row ∈ rows' /\ sn_name row = js "a" /\ sn_billingMode row = PerRequest /\
  f_ratio (p_values switchedPanel) = js "1.5" /\ f_ratio (sn_fields row) = [].
Proof.
  destruct (fixed_price_outlives_mode (mkVisual sampleTexts None true false []) switchedPanel _ (num_of_str (js "0.5")) sample_readable sample_rows)
    as (v' & rows' & row & H1 & H2 & H3 & H4 & H5 & H6);
    [vm_compute; reflexivity|eexists; vm_compute; reflexivity|vm_compute; reflexivity|vm_compute; reflexivity|vm_compute; reflexivity|vm_compute; reflexivity|].
  - exists v', rows', row. split; [exact H1|]. split; [exact H2|]. split; [exact H3|]. split; [rewrite H4; vm_compute; reflexivity|].
    split; [exact H5|]. split; [vm_compute; reflexivity|]. exact (H6 Ratio).
Defined.

(** A model billed by two tiers and the sample request rules. *)
Definition sampleTier (label : jstr) (cs : list TierConditionInput) (input : string) : VisualTier :=
  {| vt_label := label; vt_conditions := cs; vt_input := num_of_str (js input); vt_output := num_of_str (js "15");
     vt_cache_mode := Generic; vt_extra := [] |}.
Definition sampleTiers : list VisualTier :=
  [sampleTier (js "std") [{| ci_var := VarLen; ci_op := OpLe; ci_value := inr (js "2e5") |}] "2.5"; sampleTier [] [] "5"].
Definition expressionPanel : Panel :=
  setExpressions (generateExprFromVisualConfig (Some sampleTiers)) (buildRequestRuleExpr sampleGroups)
    (onPanel (EvMode TieredExpr) (onPanel (EvName (js " m ")) (openPanel None))).

Lemma expression_model_reopens_witness : exists v' rows' row,
  commitOpenEditor (Some expressionPanel) (mkVisual sampleTexts None true false []) = Some (v', true) /\
  buildModelSnapshots (v_texts v') = Some (Ret rows') /\ row ∈ rows' /\ sn_name row = js "m" /\
  p_billingExpr (openPanel (Some (editDataOf (mkRow row None (Some row) false false true)))) = generateExprFromVisualConfig (Some sampleTiers).
Proof.
  destruct (expression_model_reopens (mkVisual sampleTexts None true false []) expressionPanel _
    (sampleTier (js "std") [{| ci_var := VarLen; ci_op := OpLe; ci_value := inr (js "2e5") |}] "2.5") [sampleTier [] [] "5"] sampleGroups
    sample_readable sample_rows) as (v' & rows' & row & H1 & H2 & H3 & H4 & _ & H5 & _).
  - reflexivity.
  - eexists. vm_compute. reflexivity.
  - vm_compute. reflexivity.
  - reflexivity.
  - intros [] n H; vm_compute in H; discriminate H.
  - repeat (apply List.Forall_cons || apply List.Forall_nil || split); vm_compute; reflexivity.
  - repeat constructor.
  - reflexivity.
  - reflexivity.
  - exists v', rows', row. split; [exact H1|]. split; [exact H2|]. split; [exact H3|]. split; [rewrite H4; vm_compute; reflexivity|]. exact H5.
Defined.

(** ** What the panel lets through *)

(** A name of blanks passes the form and is stored under the empty name. *)
Example blank_name_is_stored :
  option_map d_name (commitDraft (onPanel (EvName (js "  ")) (openPanel None))) = Some [].
Proof. vm_compute. reflexivity. Qed.

(** In expression mode with the expression erased, fixed price and ratio are
    both stored, and the row is in conflict. *)
Example erased_expression_conflicts :
  let data := mkData (js "m") (put Price (Some (js "1")) (put Ratio (Some (js "2")) (fill (fun _ => None)))) (Some TieredExpr) (Some []) None in
  option_map sn_hasConflict (match savedRow data (js "m") with Ret row => Some row | Throw => None end) = Some true.
Proof. vm_compute. reflexivity. Qed.
