(* ===== verification/UpstreamSync.v ===== *)
(** * Price synchronisation with upstream channels

    The dialog of upstream-ratio-sync.tsx compares the local price settings
    with those of upstream channels: the server returns the differences by
    model, setting and channel; the user selects values (one by one or a whole
    channel at once), and applying writes the selected values into the ten
    settings of ModelPricing, after a confirmation when a model would change
    between a fixed price and ratios.  Models and settings are keys of objects;
    an object is the list of its properties, [entries] enumerates it. *)
From stdpp Require Import prelude list strings.
From S2P Require Import Prelude JsString JsNumber JsValue JsonText JsMap ModelPricing.
Open Scope js_scope.

(** ** Data (types.ts, constants.ts, upstream-ratio-sync-helpers.ts) *)

Inductive RatioType :=
| model_ratio | completion_ratio | cache_ratio | create_cache_ratio | image_ratio | audio_ratio | audio_completion_ratio
| model_price | billing_mode | billing_expr.
#[export] Instance RatioType_dec : EqDecision RatioType.
Proof. solve_decision. Defined.

Definition rtText (r : RatioType) : jstr :=
  match r with
  | model_ratio => js "model_ratio" | completion_ratio => js "completion_ratio" | cache_ratio => js "cache_ratio"
  | create_cache_ratio => js "create_cache_ratio" | image_ratio => js "image_ratio" | audio_ratio => js "audio_ratio"
  | audio_completion_ratio => js "audio_completion_ratio" | model_price => js "model_price" | billing_mode => js "billing_mode"
  | billing_expr => js "billing_expr"
  end.

Record RatioDifference := mkDifference { rd_current : jsval; rd_upstreams : fields; rd_confidence : fields }.
Notation ModelDiffs := (list (RatioType * RatioDifference)).
Notation DifferencesMap := (list (jstr * ModelDiffs)).
(** The values selected for a model, and for all models. *)
Notation ModelResolutions := (list (RatioType * jsval)).
Notation ResolutionsMap := (list (jstr * ModelResolutions)).

Definition RATIO_SYNC_FIELDS : list RatioType :=
  [model_ratio; completion_ratio; cache_ratio; create_cache_ratio; image_ratio; audio_ratio; audio_completion_ratio].
Definition SYNC_FIELD_ORDER : list RatioType := RATIO_SYNC_FIELDS ++ [model_price; billing_mode; billing_expr].
Definition isIn (r : RatioType) (l : list RatioType) : bool := existsb (fun x => r === x) l.
Definition NUMERIC_SYNC_FIELDS (r : RatioType) : bool := isIn r (RATIO_SYNC_FIELDS ++ [model_price]).

Definition RATIO_TYPE_OPTIONS : list (string * RatioType) :=
  [("Model ratio", model_ratio); ("Completion ratio", completion_ratio); ("Cache ratio", cache_ratio);
   ("Create cache ratio", create_cache_ratio); ("Image ratio", image_ratio); ("Audio ratio", audio_ratio);
   ("Audio completion ratio", audio_completion_ratio); ("Fixed price", model_price); ("Expression billing", billing_expr)]%string.

Definition getSyncFieldLabel (t : string -> jstr) (r : RatioType) : jstr :=
  match List.find (fun o => o.2 === r) RATIO_TYPE_OPTIONS with Some o => t o.1 | None => rtText r end.

(** The sync fields of a model in display order; a filter keeps one of them. *)
Definition getOrderedRatioTypes (ratioTypes : ModelDiffs) (filter : jstr) : list RatioType :=
  let keys := mkeys ratioTypes in
  let ordered := List.filter (fun f => isIn f keys) SYNC_FIELD_ORDER ++ List.filter (fun f => negb (isIn f SYNC_FIELD_ORDER)) keys in
  if negb (truthy_str filter) || (filter === js "__all__") then ordered
  else List.filter (fun f => rtText f === filter) ordered.

(** [ratioTypes[r]?.upstreams?.[sourceName]] *)
Definition upstreamValue (ratioTypes : ModelDiffs) (r : RatioType) (sourceName : jstr) : jsval :=
  match mget r ratioTypes with Some d => get_prop sourceName (rd_upstreams d) | None => VUndef end.

Definition isSelectableUpstreamValue (value : jsval) : bool :=
  match value with VNull | VUndef => false | VStr s => negb (s === js "same") | _ => true end.

(** A source that offers an expression is taken by its expression. *)
Definition getPreferredSyncField (ratioTypes : ModelDiffs) (ratioType : RatioType) (sourceName : jstr) : RatioType :=
  if negb (ratioType === billing_expr) && isSelectableUpstreamValue (upstreamValue ratioTypes billing_expr sourceName)
  then billing_expr else ratioType.

Inductive BillingCategory := CatPrice | CatRatio | CatTiered.
#[export] Instance BillingCategory_dec : EqDecision BillingCategory.
Proof. solve_decision. Defined.

Definition getBillingCategory (r : RatioType) : BillingCategory :=
  match r with model_price => CatPrice | billing_mode | billing_expr => CatTiered | _ => CatRatio end.

(** ** Channels *)

Record UpstreamChannel := mkChannel { ch_id : Z; ch_name : jstr; ch_base_url : jstr; ch_type : option Z }.

Definition DEFAULT_ENDPOINT : jstr := js "/api/pricing".
Definition getDefaultEndpointForChannel (channel : UpstreamChannel) : jstr :=
  if (ch_id channel =? -101)%Z then js "https://models.dev/api.json"
  else if (ch_id channel =? -100)%Z then js "/llm-metadata/api/newapi/ratio_config-v1-base.json"
  else if ch_type channel === Some 20%Z then js "openrouter" else DEFAULT_ENDPOINT.

(** The effect that gives new channels their endpoint. *)
Definition fillEndpoints (channels : list UpstreamChannel) (prev : list (Z * jstr)) : list (Z * jstr) :=
  foldl (fun next channel =>
    if truthy_str (default [] (mget (ch_id channel) next)) then next
    else mset (ch_id channel) (getDefaultEndpointForChannel channel) next) prev channels.

Record UpstreamConfig := mkUpstream { uc_id : Z; uc_name : jstr; uc_base_url : jstr; uc_endpoint : jstr }.

(** The request of [handleConfirmChannelSelection]; [None] is the warning that
    nothing is selected. *)
Definition confirmSelection (channels : list UpstreamChannel) (endpoints : list (Z * jstr)) (selectedIds : list Z) : option (list UpstreamConfig) :=
  match List.filter (fun ch => existsb (Z.eqb (ch_id ch)) selectedIds) channels with
  | [] => None
  | selected => Some (map (fun ch => mkUpstream (ch_id ch) (ch_name ch) (ch_base_url ch)
                            (str_or (default [] (mget (ch_id ch) endpoints)) DEFAULT_ENDPOINT)) selected)
  end.

(** ** Selecting values *)

(** Selecting a fixed price drops the ratios of the model, and the reverse. *)
Definition clearConflicting (category : BillingCategory) (res : ModelResolutions) : ModelResolutions :=
  List.filter (fun e => negb (negb (category === CatTiered) && negb (getBillingCategory e.1 === CatTiered) &&
                              negb (getBillingCategory e.1 === category))) res.

(** The fields that belong to an expression come from the same source. *)
Definition pairTiered (modelDiffs : ModelDiffs) (sourceName : jstr) (finalType : RatioType) (res : ModelResolutions) : ModelResolutions :=
  let modeVal := upstreamValue modelDiffs billing_mode sourceName in
  let exprVal := upstreamValue modelDiffs billing_expr sourceName in
  let res := if isSelectableUpstreamValue modeVal then mset billing_mode modeVal res
             else if finalType === billing_expr then mset billing_mode (VStr (js "tiered_expr")) res else res in
  if isSelectableUpstreamValue exprVal then mset billing_expr exprVal res else res.

Definition nullish (v : jsval) : bool := match v with VUndef | VNull => true | _ => false end.

Definition handleSelectValue (differences : DifferencesMap) (model : jstr) (ratioType : RatioType) (value : jsval) (sourceName : jstr)
    (prev : ResolutionsMap) : ResolutionsMap :=
  let modelDiffs := mget model differences in
  let diffs := default [] modelDiffs in
  let finalType := if truthy_str sourceName then getPreferredSyncField diffs ratioType sourceName else ratioType in
  let finalValue := if finalType === ratioType then value
                    else let v := upstreamValue diffs finalType sourceName in if nullish v then value else v in
  let category := getBillingCategory finalType in
  let newModelRes := mset finalType finalValue (clearConflicting category (default [] (mget model prev))) in
  let newModelRes := match modelDiffs with
                     | Some d => if (category === CatTiered) && truthy_str sourceName then pairTiered d sourceName finalType newModelRes else newModelRes
                     | None => newModelRes
                     end in
  mset model newModelRes prev.

Definition deleteResolutionField (res : ResolutionsMap) (model : jstr) (ratioType : RatioType) : ResolutionsMap :=
  match mget model res with
  | None => res
  | Some old =>
      let next := mdel ratioType old in
      let next := if ratioType === billing_expr then mdel billing_mode next else next in
      let next := if ratioType === billing_mode then mdel billing_expr next else next in
      match next with [] => mdel model res | _ => mset model next res end
  end.

(** ** The table (upstream-ratio-sync-table.tsx) *)

Record SyncRow := mkSyncRow { sr_model : jstr; sr_ratioTypes : ModelDiffs; sr_billingConflict : bool }.

Definition dataSource (differences : DifferencesMap) : list SyncRow :=
  map (fun e => mkSyncRow e.1 e.2 (isIn model_price (mkeys e.2) && existsb (fun rt => isIn rt (mkeys e.2)) RATIO_SYNC_FIELDS))
    (entries differences).

Definition filteredData (toLowerCase : jstr -> jstr) (search ratioTypeFilter : jstr) (rows : list SyncRow) : list SyncRow :=
  let data := if truthy_str (trim search) then List.filter (fun row => includes (toLowerCase (sr_model row)) (toLowerCase search)) rows else rows in
  if truthy_str ratioTypeFilter && negb (ratioTypeFilter === js "__all__")
  then List.filter (fun row => existsb (fun r => rtText r === ratioTypeFilter) (mkeys (sr_ratioTypes row))) data else data.

Definition upstreamNames (ratioTypeFilter : jstr) (rows : list SyncRow) : list jstr :=
  set_from (concat (map (fun row => concat (map (fun r => match mget r (sr_ratioTypes row) with
                                                         | Some d => obj_keys (rd_upstreams d) | None => [] end)
                                             (getOrderedRatioTypes (sr_ratioTypes row) ratioTypeFilter))) rows)).

(** The values of a channel that a click on its header selects. *)
Definition offered (ratioTypeFilter upstream : jstr) (row : SyncRow) : list (RatioType * jsval) :=
  concat (map (fun r =>
      let v := upstreamValue (sr_ratioTypes row) r upstream in
      if (getPreferredSyncField (sr_ratioTypes row) r upstream === r) && isSelectableUpstreamValue v then [(r, v)] else [])
    (getOrderedRatioTypes (sr_ratioTypes row) ratioTypeFilter)).

Definition handleBulkSelect (differences : DifferencesMap) (ratioTypeFilter upstream : jstr) (rows : list SyncRow) (prev : ResolutionsMap) : ResolutionsMap :=
  foldl (fun res row =>
    foldl (fun res e => handleSelectValue differences (sr_model row) e.1 e.2 upstream res) res (offered ratioTypeFilter upstream row)) prev rows.

Definition handleBulkUnselect (ratioTypeFilter upstream : jstr) (rows : list SyncRow) (prev : ResolutionsMap) : ResolutionsMap :=
  foldl (fun res row =>
    foldl (fun res r => match upstreamValue (sr_ratioTypes row) r upstream with
                        | VUndef => res
                        | _ => deleteResolutionField res (sr_model row) r
                        end) res (getOrderedRatioTypes (sr_ratioTypes row) ratioTypeFilter)) prev rows.

(** ** Applying *)

(** [JSON.parse(raw || '{}')], an empty object for text that is not JSON. *)
Definition parseJsonRecord (raw : jstr) : option fields :=
  if truthy_str raw then match json_parse raw with None => Some [] | Some (VObj fs) => Some fs | Some _ => None end else Some [].

(** The setting of a sync field: [ModelRatio] for [model_ratio] and so on. *)
Definition capitalize (word : jstr) : jstr :=
  match word with [] => [] | c :: w => (if ((97 <=? c) && (c <=? 122))%N then (c - 32)%N else c) :: w end.
Definition optionKeyBySyncField (r : RatioType) : jstr :=
  match r with
  | billing_mode => js "billing_setting.billing_mode"
  | billing_expr => js "billing_setting.billing_expr"
  | _ => concat (map capitalize (split_on 95%N (rtText r)))
  end.

(** The properties of [parsedRatios], as the object literal lists them. *)
Definition OPTION_KEYS : list (jstr * RatioType) :=
  [(js "ModelRatio", model_ratio); (js "CompletionRatio", completion_ratio); (js "CacheRatio", cache_ratio);
   (js "CreateCacheRatio", create_cache_ratio); (js "ImageRatio", image_ratio); (js "AudioRatio", audio_ratio);
   (js "AudioCompletionRatio", audio_completion_ratio); (js "ModelPrice", model_price);
   (js "billing_setting.billing_mode", billing_mode); (js "billing_setting.billing_expr", billing_expr)].

Definition settingOf {A} (r : RatioType) (s : Settings A) : A :=
  let f := x_fields s in
  match r with
  | model_ratio => f_ratio f | completion_ratio => f_completionRatio f | cache_ratio => f_cacheRatio f
  | create_cache_ratio => f_createCacheRatio f | image_ratio => f_imageRatio f | audio_ratio => f_audioRatio f
  | audio_completion_ratio => f_audioCompletionRatio f | model_price => f_price f
  | billing_mode => x_billingMode s | billing_expr => x_billingExpr s
  end.

Notation ParsedRatios := (list (jstr * fields)).

Fixpoint mapOption {A B} (f : A -> option B) (xs : list A) : option (list B) :=
  match xs with [] => Some [] | x :: xs' => y ← f x; ys ← mapOption f xs'; Some (y :: ys) end.

Definition parsedRatios (modelRatios : Settings jstr) : option ParsedRatios :=
  mapOption (fun e => m ← parseJsonRecord (settingOf e.2 modelRatios); Some (e.1, m)) OPTION_KEYS.

(** [ratios.X[model] !== undefined] *)
Definition hasEntry (ratios : ParsedRatios) (r : RatioType) (model : jstr) : bool :=
  match get_prop model (default [] (mget (optionKeyBySyncField r) ratios)) with VUndef => false | _ => true end.

Definition getLocalBillingCategory (model : jstr) (currentRatios : ParsedRatios) : option BillingCategory :=
  if hasEntry currentRatios model_price model then Some CatPrice
  else if existsb (fun r => hasEntry currentRatios r model) RATIO_SYNC_FIELDS then Some CatRatio else None.

(** [delete finalRatios.X[model]] for several settings. *)
Definition deleteIn (rs : list RatioType) (model : jstr) (finalRatios : ParsedRatios) : ParsedRatios :=
  map (fun e => if existsb (fun r => e.1 === optionKeyBySyncField r) rs then (e.1, delete_prop model e.2) else e) finalRatios.

Definition syncValue (r : RatioType) (value : jsval) : jsval := if NUMERIC_SYNC_FIELDS r then VNum (js_Number value) else value.

(** [finalRatios[optionKey][model] = ...]; an unknown setting throws. *)
Definition setIn (model : jstr) (finalRatios : ParsedRatios) (e : RatioType * jsval) : outcome ParsedRatios :=
  let key := optionKeyBySyncField e.1 in
  match mget key finalRatios with
  | None => Throw
  | Some m => Ret (mset key (set_prop model (syncValue e.1 e.2) m) finalRatios)
  end.

Fixpoint foldOutcome {A B} (f : A -> B -> outcome A) (a : A) (xs : list B) : outcome A :=
  match xs with [] => Ret a | x :: xs' => a' <-- f a x ;; foldOutcome f a' xs' end.

Definition selects (ratios : ModelResolutions) (rs : list RatioType) : bool := existsb (fun e => isIn e.1 rs) ratios.

Definition applyModel (finalRatios : ParsedRatios) (entry : jstr * ModelResolutions) : outcome ParsedRatios :=
  let (model, ratios) := entry in
  let final := if selects ratios [model_price] then deleteIn RATIO_SYNC_FIELDS model finalRatios else finalRatios in
  let final := if selects ratios RATIO_SYNC_FIELDS then deleteIn [model_price] model final else final in
  foldOutcome (setIn model) final ratios.

Definition finalRatios (currentRatios : ParsedRatios) (resolutions : ResolutionsMap) : outcome ParsedRatios :=
  foldOutcome applyModel currentRatios (entries resolutions).

(** The requests of [performSync]. *)
Definition syncUpdates (currentRatios : ParsedRatios) (resolutions : ResolutionsMap) : outcome (list (jstr * jstr)) :=
  final <-- finalRatios currentRatios resolutions ;; Ret (map (fun e => (e.1, mapText e.2)) final).

(** The new category of a model with selected values. *)
Definition newCategory (ratios : ModelResolutions) : BillingCategory :=
  if isIn model_price (mkeys ratios) then CatPrice
  else if existsb (fun rt => isIn rt (mkeys ratios)) RATIO_SYNC_FIELDS then CatRatio else CatTiered.

(** The first channel, in enumeration order, that offers the value. *)
Definition sameScalar (a b : jsval) : bool :=
  match a, b with
  | VNum x, VNum y => num_eqb x y
  | VStr x, VStr y => x === y
  | VBool x, VBool y => Bool.eqb x y
  | VNull, VNull | VUndef, VUndef => true
  | _, _ => false
  end.
Definition findSourceChannel (differences : DifferencesMap) (model : jstr) (r : RatioType) (value : jsval) : jstr :=
  match mget model differences ≫= mget r with
  | None => js "Unknown"
  | Some d => match List.find (fun e => sameScalar e.2 value) (entries (rd_upstreams d)) with Some e => e.1 | None => js "Unknown" end
  end.

Record ConflictItem := mkConflict { ci_channel : jstr; ci_model : jstr; ci_current : jstr; ci_newVal : jstr }.

Section Apply.
Context (t : string -> jstr).

Definition nullishText (v : jsval) : jstr := if nullish v then js "-" else js_String v.
Definition priceDesc (v : jsval) : jstr := t "Fixed price" ++ js ": " ++ js_String v.
Definition ratioDesc (ratio completion : jsval) : jstr :=
  t "Model ratio" ++ js ": " ++ nullishText ratio ++ [10%N] ++ t "Completion ratio" ++ js ": " ++ nullishText completion.

(** The conflict a model makes, if it would change between price and ratios. *)
Definition conflictOf (differences : DifferencesMap) (currentRatios : ParsedRatios) (entry : jstr * ModelResolutions) : list ConflictItem :=
  let (model, ratios) := entry in
  let local r := get_prop model (default [] (mget (optionKeyBySyncField r) currentRatios)) in
  let chosen r := default VUndef (mget r ratios) in
  let newCat := newCategory ratios in
  match getLocalBillingCategory model currentRatios with
  | None => []
  | Some localCat =>
      if negb (newCat === CatTiered) && negb (localCat === newCat) then
        [mkConflict (js_join (js ", ") (set_from (map (fun e => findSourceChannel differences model e.1 e.2) ratios))) model
           (if localCat === CatPrice then priceDesc (local model_price) else ratioDesc (local model_ratio) (local completion_ratio))
           (if newCat === CatPrice then priceDesc (chosen model_price) else ratioDesc (chosen model_ratio) (chosen completion_ratio))]
      else []
  end.

Definition conflicts (differences : DifferencesMap) (currentRatios : ParsedRatios) (resolutions : ResolutionsMap) : list ConflictItem :=
  concat (map (conflictOf differences currentRatios) (entries resolutions)).
End Apply.

(** After a sync the selected differences disappear. *)
Definition dropDifference (model : jstr) (diffs : DifferencesMap) (r : RatioType) : DifferencesMap :=
  match mget model diffs with
  | None => diffs
  | Some d => match mget r d with
              | None => diffs
              | Some _ => match mdel r d with [] => mdel model diffs | d' => mset model d' diffs end
              end
  end.
Definition dropResolved (resolutions : ResolutionsMap) (diffs : DifferencesMap) : DifferencesMap :=
  foldl (fun diffs e => foldl (dropDifference e.1) diffs (mkeys e.2)) diffs (entries resolutions).

(** ** The dialog *)

(** How the server answers a request to store an option. *)
Inductive Answer := Accepted | Refused | Rejected.

(** The loop of [syncMutate]: an answer is not looked at, a request that fails
    ends it.  The result is what the server has stored and whether the loop
    ended normally. *)
Fixpoint sendUpdates {A} (updates : list A) (answers : list Answer) : list A * bool :=
  match updates, answers with
  | [], _ => ([], true)
  | u :: us, Accepted :: ans => let r := sendUpdates us ans in (u :: r.1, r.2)
  | _ :: us, Refused :: ans => sendUpdates us ans
  | _, _ => ([], false)
  end.

Lemma send_accepted {A} (updates : list A) answers : Forall (fun a => a = Accepted) answers -> length answers = length updates ->
  sendUpdates updates answers = (updates, true).
Proof.
  revert answers. induction updates as [|u us IH]; intros [|a ans] Ha Hl; try done. apply List.Forall_cons_iff in Ha as [-> Ha]. cbn [sendUpdates].
  rewrite IH by (done || (cbn in Hl; lia)). done.
Qed.

Lemma send_refused {A} (updates : list A) answers : Forall (fun a => a = Refused) answers -> length answers = length updates ->
  sendUpdates updates answers = ([], true).
Proof.
  revert answers. induction updates as [|u us IH]; intros [|a ans] Ha Hl; try done. apply List.Forall_cons_iff in Ha as [-> Ha]. cbn [sendUpdates].
  apply IH; [done|cbn in Hl; lia].
Qed.

(** The settings after the server stored an option. *)
Definition storeOption (s : Settings jstr) (update : jstr * jstr) : Settings jstr :=
  let sel r old := if optionKeyBySyncField r === update.1 then update.2 else old in
  let f := x_fields s in
  mkSettings
    (mkFields (sel model_price (f_price f)) (sel model_ratio (f_ratio f)) (sel cache_ratio (f_cacheRatio f))
       (sel create_cache_ratio (f_createCacheRatio f)) (sel completion_ratio (f_completionRatio f)) (sel image_ratio (f_imageRatio f))
       (sel audio_ratio (f_audioRatio f)) (sel audio_completion_ratio (f_audioCompletionRatio f)))
    (sel billing_mode (x_billingMode s)) (sel billing_expr (x_billingExpr s)).

(** The settings the page was given, and those the server has: the page reads
    them again after a successful sync. *)
Record SyncDialog := mkSync {
  sy_differences : DifferencesMap; sy_resolutions : ResolutionsMap; sy_settings : Settings jstr; sy_server : Settings jstr;
  sy_confirming : list ConflictItem }.

Inductive SyncEvent :=
| SyFetched (diffs : DifferencesMap)
| SySelect (model : jstr) (r : RatioType) (value : jsval) (source : jstr)
| SyUnselect (model : jstr) (r : RatioType)
| SyBulkSelect (filter upstream : jstr) (rows : list SyncRow)
| SyBulkUnselect (filter upstream : jstr) (rows : list SyncRow)
| SyApply (answers : list Answer)
| SyConfirm (answers : list Answer).

Definition withResolutions (r : ResolutionsMap) (s : SyncDialog) : SyncDialog :=
  mkSync (sy_differences s) r (sy_settings s) (sy_server s) (sy_confirming s).

(** [performSync], and what follows in [onSuccess].  [None]: the settings are
    not objects; [Throw]: an unknown setting. *)
Definition performSync (s : SyncDialog) (answers : list Answer) : option (outcome SyncDialog) :=
  current ← parsedRatios (sy_settings s);
  Some (updates <-- syncUpdates current (sy_resolutions s) ;;
        let sent := sendUpdates updates answers in
        let server := foldl storeOption (sy_server s) sent.1 in
        Ret (if sent.2 : bool then mkSync (dropResolved (sy_resolutions s) (sy_differences s)) [] server server []
             else mkSync (sy_differences s) (sy_resolutions s) (sy_settings s) server (sy_confirming s))).

Definition handleApplySync (t : string -> jstr) (s : SyncDialog) (answers : list Answer) : option (outcome SyncDialog) :=
  current ← parsedRatios (sy_settings s);
  match conflicts t (sy_differences s) current (sy_resolutions s) with
  | [] => performSync s answers
  | items => Some (Ret (mkSync (sy_differences s) (sy_resolutions s) (sy_settings s) (sy_server s) items))
  end.

Definition onSync (t : string -> jstr) (e : SyncEvent) (s : SyncDialog) : option (outcome SyncDialog) :=
  match e with
  | SyFetched diffs => Some (Ret (mkSync diffs [] (sy_settings s) (sy_server s) (sy_confirming s)))
  | SySelect model r value source => Some (Ret (withResolutions (handleSelectValue (sy_differences s) model r value source (sy_resolutions s)) s))
  | SyUnselect model r => Some (Ret (withResolutions (deleteResolutionField (sy_resolutions s) model r) s))
  | SyBulkSelect filter upstream rows =>
      Some (Ret (withResolutions (handleBulkSelect (sy_differences s) filter upstream rows (sy_resolutions s)) s))
  | SyBulkUnselect filter upstream rows => Some (Ret (withResolutions (handleBulkUnselect filter upstream rows (sy_resolutions s)) s))
  | SyApply answers => handleApplySync t s answers
  | SyConfirm answers => performSync s answers
  end.

Inductive syncReachable (t : string -> jstr) (settings : Settings jstr) : SyncDialog -> Prop :=
| sync_open : syncReachable t settings (mkSync [] [] settings settings [])
| sync_event s e s' : syncReachable t settings s -> onSync t e s = Some (Ret s') -> syncReachable t settings s'.
