(* ===== verification/UpstreamSyncCorrect.v ===== *)
(** * What price synchronisation guarantees

    The selection never holds both a fixed price and ratios of a model; applying
    it writes exactly the selected values, and without a confirmation it removes
    nothing. *)
From stdpp Require Import prelude list strings.
From Stdlib Require Import NArith Ascii.
From S2P Require Import Prelude JsString JsNumber JsValue JsonText JsMap RequestRules ModelPricing ModelPricingCorrect UpstreamSync.
Open Scope js_scope.

(** ** The selection *)

Lemma isIn_spec r l : isIn r l = true <-> r ∈ l.
Proof.
  unfold isIn. rewrite existsb_exists. split.
  - intros (x & Hx & ->%bool_decide_eq_true). by apply list_elem_of_In.
  - intros H. exists r. split; [by apply list_elem_of_In|by apply bool_decide_eq_true].
Qed.

(** Not a fixed price together with a ratio. *)
Definition exclusive (ks : list RatioType) : Prop :=
  forall a b, a ∈ ks -> b ∈ ks -> getBillingCategory a = CatPrice -> getBillingCategory b = CatRatio -> False.

Record modelOk (r : ModelResolutions) : Prop := {
  ok_nonempty : r <> [];
  ok_nodup : NoDup (mkeys r);
  ok_exclusive : exclusive (mkeys r) }.

Definition resolutionsOk (res : ResolutionsMap) : Prop :=
  NoDup (mkeys res) /\ forall model r, mget model res = Some r -> modelOk r.

Lemma exclusive_sub (a b : list RatioType) : (forall k, k ∈ a -> k ∈ b) -> exclusive b -> exclusive a.
Proof. intros H He x y Hx Hy. exact (He x y (H x Hx) (H y Hy)). Qed.

Lemma exclusive_tiered k v (r : ModelResolutions) : getBillingCategory k = CatTiered -> exclusive (mkeys r) -> exclusive (mkeys (mset k v r)).
Proof.
  intros Hk He a b. rewrite !mset_elem. intros [->|Ha] [->|Hb] Ca Cb; try congruence. exact (He a b Ha Hb Ca Cb).
Qed.

Lemma mset_nonempty {K V} `{EqDecision K} (k : K) (v : V) m : mset k v m <> [].
Proof. destruct m as [|[a b] m]; [done|]. change (mset k v ((a, b) :: m)) with (if bool_decide (k = a) then (k, v) :: m else (a, b) :: mset k v m). by case_bool_decide. Qed.

Lemma mfilter_elem {K V} (P : K * V -> bool) (m : list (K * V)) k : k ∈ mkeys (List.filter P m) -> k ∈ mkeys m /\ exists v, (k, v) ∈ m /\ P (k, v) = true.
Proof.
  unfold mkeys. intros ([k' v] & -> & Hin)%list_elem_of_fmap. apply list_elem_of_In, filter_In in Hin as [Hin HP]. apply list_elem_of_In in Hin.
  split; [by apply (list_elem_of_fmap_2 fst) in Hin|eauto].
Qed.

Lemma clear_keys cat res k : cat <> CatTiered -> k ∈ mkeys (clearConflicting cat res) -> getBillingCategory k = CatTiered \/ getBillingCategory k = cat.
Proof.
  intros Hc (_ & v & _ & H)%mfilter_elem. cbn [fst] in H. rewrite (bool_decide_false _ Hc) in H. cbn [negb andb] in H.
  repeat case_bool_decide; auto; cbn in H; discriminate H.
Qed.

Lemma select_model_ok cat r v res : getBillingCategory r = cat -> NoDup (mkeys res) -> exclusive (mkeys res) ->
  modelOk (mset r v (clearConflicting cat res)).
Proof.
  intros Hr Hd He. split; [apply mset_nonempty|by apply mset_NoDup, mfilter_NoDup|].
  assert (Hs : exclusive (mkeys (clearConflicting cat res))) by (eapply exclusive_sub; [|exact He]; by intros k [? _]%mfilter_elem).
  destruct (decide (cat = CatTiered)) as [Hc|Hc]; [apply exclusive_tiered; [congruence|exact Hs]|].
  intros a b. rewrite !mset_elem. intros Ha Hb Ca Cb.
  assert (H : forall k, k = r \/ k ∈ mkeys (clearConflicting cat res) -> getBillingCategory k = CatTiered \/ getBillingCategory k = cat).
  { intros k [->|Hk]; [by right|by eapply clear_keys]. }
  destruct (H a Ha), (H b Hb); congruence.
Qed.

Lemma pair_ok diffs source final res : modelOk res -> modelOk (pairTiered diffs source final res).
Proof.
  assert (H : forall k v r, getBillingCategory k = CatTiered -> modelOk r -> modelOk (mset k v r)).
  { intros k v r Hk [H1 H2 H3]. split; [apply mset_nonempty|by apply mset_NoDup|by apply exclusive_tiered]. }
  intros Hr. unfold pairTiered. cbv zeta. repeat (case_if || apply H); done.
Qed.

Lemma resolutions_set model r res : resolutionsOk res -> modelOk r -> resolutionsOk (mset model r res).
Proof. intros [Hd Ho] Hr. split; [by apply mset_NoDup|]. intros m x. rewrite mget_mset. case_bool_decide; [by intros [= <-]|apply Ho]. Qed.

Lemma select_ok diffs model r v source res : resolutionsOk res -> resolutionsOk (handleSelectValue diffs model r v source res).
Proof.
  intros H. assert (Hold : NoDup (mkeys (default [] (mget model res))) /\ exclusive (mkeys (default [] (mget model res)))).
  { destruct (mget model res) as [x|] eqn:E; cbn [default from_option id]; [|split; [constructor|by intros a b ?%elem_of_nil]].
    apply (proj2 H) in E as [? ? ?]. done. }
  unfold handleSelectValue. cbv zeta. apply resolutions_set; [done|]. destruct Hold as [Hd He].
  destruct (mget model diffs); [case_if; [apply pair_ok|]|]; by apply select_model_ok.
Qed.

Lemma delete_ok model r res : resolutionsOk res -> resolutionsOk (deleteResolutionField res model r).
Proof.
  intros H. unfold deleteResolutionField. destruct (mget model res) as [old|] eqn:E; [|done]. apply (proj2 H) in E as [Hn Hd He]. cbv zeta.
  set (next := if r === billing_mode then _ else _).
  assert (Hnext : NoDup (mkeys next) /\ exclusive (mkeys next)).
  { assert (Hdel : forall k (m : ModelResolutions), NoDup (mkeys m) /\ exclusive (mkeys m) -> NoDup (mkeys (mdel k m)) /\ exclusive (mkeys (mdel k m))).
    { intros k m [H1 H2]. split; [by apply mfilter_NoDup|]. eapply exclusive_sub; [|exact H2]. by intros x [? _]%mfilter_elem. }
    unfold next. repeat case_if; repeat apply Hdel; done. }
  clearbody next. destruct next as [|e next]; [|apply resolutions_set; [done|by split; [|apply Hnext..]]].
  destruct H as [Hnd Ho]. split; [by apply mfilter_NoDup|]. intros m x. rewrite mget_mdel. case_bool_decide; [done|apply Ho].
Qed.

Lemma foldl_ok {B} (f : ResolutionsMap -> B -> ResolutionsMap) xs res :
  (forall res x, resolutionsOk res -> resolutionsOk (f res x)) -> resolutionsOk res -> resolutionsOk (foldl f res xs).
Proof. intros Hf. revert res. induction xs as [|x xs IH]; intros res H; [done|]. cbn [foldl]. by apply IH, Hf. Qed.

Lemma none_ok : resolutionsOk [].
Proof. split; [constructor|done]. Qed.

Lemma performSync_resolutions s answers s' : performSync s answers = Some (Ret s') -> sy_resolutions s' = [] \/ sy_resolutions s' = sy_resolutions s.
Proof.
  unfold performSync. destruct (parsedRatios _) as [cur|]; [|done]. cbn [mbind option_bind]. intros [= H].
  destruct (syncUpdates _ _) as [ups|]; [|done]. cbn [obind] in H. cbv zeta in H. injection H as <-. destruct (snd _); auto.
Qed.

Lemma event_ok t e s s' : resolutionsOk (sy_resolutions s) -> onSync t e s = Some (Ret s') -> resolutionsOk (sy_resolutions s').
Proof.
  intros H. assert (Hp : forall ans, performSync s ans = Some (Ret s') -> resolutionsOk (sy_resolutions s')).
  { intros ans E. apply performSync_resolutions in E as [-> | ->]; [apply none_ok|done]. }
  destruct e; cbn [onSync]; try (intros [= <-]; cbn [withResolutions sy_resolutions]).
  - apply none_ok.
  - by apply select_ok.
  - by apply delete_ok.
  - apply foldl_ok; [|done]. intros res row Hr. apply foldl_ok; [|done]. intros res' x. apply select_ok.
  - apply foldl_ok; [|done]. intros res row Hr. apply foldl_ok; [|done]. intros res' x Hx. destruct (upstreamValue _ _ _); try done; by apply delete_ok.
  - unfold handleApplySync. destruct (parsedRatios _); [|done]. cbn [mbind option_bind].
    destruct (conflicts _ _ _ _); [apply Hp|]. by intros [= <-].
  - apply Hp.
Qed.

(** ** The settings by sync field *)

Definition wfRatios (ratios : ParsedRatios) : Prop := mkeys ratios = map fst OPTION_KEYS.
Definition look (ratios : ParsedRatios) (r : RatioType) : fields := default [] (mget (optionKeyBySyncField r) ratios).

Lemma optionKey_inj a b : optionKeyBySyncField a = optionKeyBySyncField b -> a = b.
Proof. intros H. destruct a, b; try reflexivity; vm_compute in H; discriminate H. Qed.

Lemma optionKey_dec a b : (optionKeyBySyncField a === optionKeyBySyncField b) = (a === b).
Proof. apply bool_decide_ext. split; [apply optionKey_inj|by intros ->]. Qed.

Lemma optionKey_in r : optionKeyBySyncField r ∈ map fst OPTION_KEYS.
Proof. apply list_elem_of_In. destruct r; vm_compute; tauto. Qed.

Lemma wf_get ratios r : wfRatios ratios -> mget (optionKeyBySyncField r) ratios = Some (look ratios r).
Proof.
  intros Hw. unfold look. destruct (mget _ ratios) eqn:E; [done|]. apply mget_None in E. rewrite Hw in E. by destruct (E (optionKey_in r)).
Qed.

Lemma deleteIn_look rs model ratios r :
  look (deleteIn rs model ratios) r = if isIn r rs then delete_prop model (look ratios r) else look ratios r.
Proof.
  unfold look, deleteIn. assert (E : mget (optionKeyBySyncField r)
      (map (fun e => if existsb (fun r => e.1 === optionKeyBySyncField r) rs then (e.1, delete_prop model e.2) else e) ratios)
    = (fun m => if isIn r rs then delete_prop model m else m) <$> mget (optionKeyBySyncField r) ratios).
  { induction ratios as [|[k m] ratios IH]; [done|]. cbn [map fst snd].
    assert (Hc : forall x : bool, mget (optionKeyBySyncField r) ((if x then (k, delete_prop model m) else (k, m)) :: map (fun e => if existsb (fun r => e.1 === optionKeyBySyncField r) rs then (e.1, delete_prop model e.2) else e) ratios)
      = if optionKeyBySyncField r === k then Some (if x then delete_prop model m else m) else (fun m => if isIn r rs then delete_prop model m else m) <$> mget (optionKeyBySyncField r) ratios).
    { intros x. destruct x; rewrite mget_cons; by rewrite IH. }
    rewrite Hc, mget_cons. case_bool_decide as Ek; [|done]. subst k. cbn [fmap option_fmap option_map]. do 2 f_equal.
    assert (Hx : existsb (fun r0 => optionKeyBySyncField r === optionKeyBySyncField r0) rs = isIn r rs).
    { unfold isIn. clear. induction rs as [|x rs IH]; [done|]. cbn [existsb]. by rewrite IH, optionKey_dec. }
    by rewrite Hx. }
  rewrite E. by destruct (mget _ ratios), (isIn r rs).
Qed.

Lemma deleteIn_wf rs model ratios : wfRatios ratios -> wfRatios (deleteIn rs model ratios).
Proof.
  unfold wfRatios, deleteIn, mkeys. intros <-. rewrite map_map. apply map_ext. intros e. by destruct (existsb _ rs).
Qed.

Lemma setIn_spec model ratios e : wfRatios ratios -> exists out, setIn model ratios e = Ret out /\ wfRatios out /\
  forall r, look out r = if r === e.1 then set_prop model (syncValue e.1 e.2) (look ratios r) else look ratios r.
Proof.
  intros Hw. unfold setIn. cbv zeta. rewrite (wf_get _ e.1 Hw). eexists. split; [reflexivity|]. split.
  - unfold wfRatios. rewrite mkeys_mset. rewrite Hw. by rewrite bool_decide_true by apply optionKey_in.
  - intros r. unfold look at 1. rewrite mget_mset, optionKey_dec. case_bool_decide as E; [by subst r|done].
Qed.

Lemma setAll_spec model es : NoDup (mkeys es) -> forall ratios, wfRatios ratios ->
  exists out, foldOutcome (setIn model) ratios es = Ret out /\ wfRatios out /\
    forall r, look out r = match mget r es with Some v => set_prop model (syncValue r v) (look ratios r) | None => look ratios r end.
Proof.
  induction es as [|[k v] es IH]; intros Hd ratios Hw; [by exists ratios|]. apply NoDup_cons in Hd as [Hn Hd].
  destruct (setIn_spec model ratios (k, v) Hw) as (mid & E & Hm & Hl). destruct (IH Hd mid Hm) as (out & Eo & Ho & Hlo).
  exists out. cbn [foldOutcome]. rewrite E. cbn [obind]. split_and!; [done|done|]. intros r. rewrite Hlo, Hl, mget_cons. cbn [fst snd].
  case_bool_decide as Ek; [|done]. subst r. by rewrite (proj2 (mget_None k es) Hn).
Qed.

(** What a setting of a model becomes under its selection. *)
Definition clears (ratios : ModelResolutions) (r : RatioType) : bool :=
  (isIn r RATIO_SYNC_FIELDS && selects ratios [model_price]) || ((r === model_price) && selects ratios RATIO_SYNC_FIELDS).
Definition synced (ratios : ModelResolutions) (r : RatioType) (old : option jsval) : option jsval :=
  match mget r ratios with
  | Some v => Some (syncValue r v)
  | None => if clears ratios r then None else old
  end.

Lemma isIn_one r x : isIn r [x] = (r === x).
Proof. unfold isIn. cbn [existsb]. by rewrite orb_false_r. Qed.

Lemma applyModel_spec model ratios cur : NoDup (mkeys ratios) -> wfRatios cur ->
  exists out, applyModel cur (model, ratios) = Ret out /\ wfRatios out /\
    (forall r k, own k (look out r) = if k === model then synced ratios r (own model (look cur r)) else own k (look cur r)) /\
    ((forall r, textual (VObj (look cur r)) = true) -> notIndex model = true -> (forall r v, mget r ratios = Some v -> textual (syncValue r v) = true) ->
     forall r, textual (VObj (look out r)) = true).
Proof.
  intros Hd Hw. unfold applyModel. set (c1 := if selects ratios [model_price] then _ else _). set (c2 := if selects ratios RATIO_SYNC_FIELDS then _ else c1).
  assert (H2 : wfRatios c2) by (unfold c2, c1; repeat case_if; repeat apply deleteIn_wf; done).
  assert (Hl : forall r, look c2 r = if clears ratios r then delete_prop model (look cur r) else look cur r).
  { intros r. unfold c2, c1, clears. destruct (selects ratios RATIO_SYNC_FIELDS), (selects ratios [model_price]);
      rewrite ?deleteIn_look, ?isIn_one, ?andb_true_r, ?andb_false_r, ?orb_false_r; [|by destruct (r === model_price)|done|done].
    destruct (decide (r = model_price)) as [->|Hr]; [done|]. rewrite (bool_decide_false _ Hr). by rewrite orb_false_r. }
  destruct (setAll_spec model ratios Hd c2 H2) as (out & E & Ho & Hlo). exists out. split_and!; [done|done| |].
  - intros r k. rewrite Hlo, Hl. unfold synced. destruct (mget r ratios) as [v|]; destruct (clears ratios r);
      rewrite ?own_set_prop, ?own_delete_prop; by case_bool_decide; subst.
  - intros Ht Hn Hv r. rewrite Hlo, Hl. specialize (Ht r). assert (Hx : textual (VObj (if clears ratios r then delete_prop model (look cur r) else look cur r)) = true)
      by (case_if; [by apply textual_delete|done]).
    destruct (mget r ratios) as [v|] eqn:Ev; [|done]. apply textual_set; [done|by apply Hv|done].
Qed.

Lemma mget_entries {V} (m : list (jstr * V)) k : NoDup (mkeys m) -> mget k (entries m) = mget k m.
Proof.
  intros Hd. assert (Hp : Permutation (entries m) m) by apply entries_perm. assert (Hd' : NoDup (mkeys (entries m))) by (unfold mkeys; by rewrite Hp).
  destruct (mget k m) as [v|] eqn:E.
  - apply mget_elem in E. apply mget_NoDup; [done|]. by rewrite Hp.
  - apply mget_None in E. apply mget_None. unfold mkeys in *. by rewrite Hp.
Qed.

(** A selection that can be stored: names that keep their order, values that print. *)
Definition storableSelection (res : ResolutionsMap) : Prop :=
  forall model ratios, mget model res = Some ratios -> notIndex model = true /\ forall r v, mget r ratios = Some v -> textual (syncValue r v) = true.

Lemma final_spec res cur : resolutionsOk res -> wfRatios cur ->
  exists out, finalRatios cur res = Ret out /\ wfRatios out /\
    (forall r k, own k (look out r) = match mget k res with Some ratios => synced ratios r (own k (look cur r)) | None => own k (look cur r) end) /\
    ((forall r, textual (VObj (look cur r)) = true) -> storableSelection res -> forall r, textual (VObj (look out r)) = true).
Proof.
  intros [Hd Hok] Hw. unfold finalRatios.
  assert (Hget : forall k, mget k (entries res) = mget k res) by (intros k; by apply mget_entries).
  assert (Hd' : NoDup (mkeys (entries res))) by (unfold mkeys; by rewrite entries_perm). clear Hd.
  assert (Hgen : forall es, NoDup (mkeys es) -> (forall k ratios, mget k es = Some ratios -> modelOk ratios) -> forall cur, wfRatios cur ->
    exists out, foldOutcome applyModel cur es = Ret out /\ wfRatios out /\
      (forall r k, own k (look out r) = match mget k es with Some ratios => synced ratios r (own k (look cur r)) | None => own k (look cur r) end) /\
      ((forall r, textual (VObj (look cur r)) = true) -> storableSelection es -> forall r, textual (VObj (look out r)) = true)).
  { clear. induction es as [|[model ratios] es IH]; intros Hd Hok cur Hw; [by exists cur|]. apply NoDup_cons in Hd as [Hn Hd].
    assert (Hnone := proj2 (mget_None model es) Hn).
    destruct (applyModel_spec model ratios cur) as (mid & E & Hm & Hom & Htm); [|done|].
    { apply (Hok model). rewrite mget_cons. by rewrite bool_decide_true. }
    assert (Hother : forall k x, mget k es = Some x -> k <> model) by (intros k x Hk ->; congruence).
    destruct (IH Hd) with (cur := mid) as (out & Eo & Ho & Hoo & Hto); [|done|].
    { intros k x Hk. apply (Hok k). rewrite mget_cons. rewrite bool_decide_false by (by eapply Hother). done. }
    exists out. cbn [foldOutcome]. rewrite E. cbn [obind]. split_and!; [done|done| |].
    - intros r k. rewrite Hoo, Hom, mget_cons. case_bool_decide as Ek; [subst k; by rewrite Hnone|done].
    - intros Ht Hs. apply Hto.
      + destruct (Hs model ratios) as [H1 H2]; [rewrite mget_cons; by rewrite bool_decide_true|]. by apply Htm.
      + intros k x Hk. apply Hs. rewrite mget_cons. rewrite bool_decide_false by (by eapply Hother). done. }
  destruct (Hgen (entries res) Hd') with (cur := cur) as (out & E & Ho & Hoo & Hto); [|done|].
  { intros k x. rewrite Hget. apply Hok. }
  exists out. split_and!; [done|done| |].
  - intros r k. by rewrite Hoo, Hget.
  - intros Ht Hs. apply Hto; [done|]. intros k x. rewrite Hget. apply Hs.
Qed.

(** ** The texts of the settings *)

Lemma record_read m : textual (VObj m) = true -> parseJsonRecord (mapText m) = Some m.
Proof.
  intros H. unfold mapText, json_stringify2. destruct (read_back_textual (js "  ") _ ltac:(by repeat constructor) H) as (t & E & P).
  rewrite E. cbn [default from_option id]. unfold parseJsonRecord. rewrite P. by destruct t.
Qed.

Lemma option_pairs e : e ∈ OPTION_KEYS -> e.1 = optionKeyBySyncField e.2.
Proof. unfold OPTION_KEYS. rewrite !elem_of_cons, elem_of_nil. intros H. repeat (destruct H as [->|H]; [vm_compute; reflexivity|]). done. Qed.

Lemma option_pair_in r : (optionKeyBySyncField r, r) ∈ OPTION_KEYS.
Proof. apply list_elem_of_In. destruct r; vm_compute; tauto. Qed.

Lemma options_NoDup : NoDup (map fst OPTION_KEYS).
Proof. refine (bool_decide_eq_true_1 _ _). vm_compute. reflexivity. Qed.

Lemma mapOption_some {A B} (f : A -> option B) xs ys : mapOption f xs = Some ys <-> Forall2 (fun x y => f x = Some y) xs ys.
Proof.
  revert ys. induction xs as [|x xs IH]; intros ys; cbn [mapOption].
  - split; [intros [= <-]; constructor|by intros H; inversion H].
  - split.
    + destruct (f x) as [y|] eqn:E; [|done]. cbn [mbind option_bind]. destruct (mapOption f xs) as [zs|] eqn:Ez; [|done].
      cbn [mbind option_bind]. intros [= <-]. constructor; [done|by apply IH].
    + intros H. inversion H as [|? y ? zs Hy Hz]; subst. rewrite Hy. cbn [mbind option_bind]. apply IH in Hz. by rewrite Hz.
Qed.

Lemma parsed_look texts cur : parsedRatios texts = Some cur -> wfRatios cur /\ forall r, parseJsonRecord (settingOf r texts) = Some (look cur r).
Proof.
  intros H%mapOption_some. assert (Hw : wfRatios cur).
  { unfold wfRatios, mkeys. induction H as [|e y es ys Hy _ IH]; [done|]. cbn [map]. rewrite IH. f_equal.
    destruct (parseJsonRecord _); [|done]. by injection Hy as <-. }
  split; [done|]. intros r. assert (Hin : exists m, (optionKeyBySyncField r, m) ∈ cur /\ parseJsonRecord (settingOf r texts) = Some m).
  { clear Hw. pose proof (option_pair_in r) as Hr. induction H as [|e y es ys Hy _ IH]; [by apply elem_of_nil in Hr|].
    apply elem_of_cons in Hr as [<-|Hr].
    - cbn [snd fst] in Hy. destruct (parseJsonRecord _) as [m|]; [|done]. injection Hy as <-. exists m. split; [by left|done].
    - destruct (IH Hr) as (m & Hm & E). exists m. split; [by right|done]. }
  destruct Hin as (m & Hm & E). rewrite E. unfold look. rewrite (mget_NoDup _ m); [done| |done]. rewrite Hw. apply options_NoDup.
Qed.

Lemma parsed_intro texts (g : RatioType -> fields) : (forall r, parseJsonRecord (settingOf r texts) = Some (g r)) ->
  exists cur, parsedRatios texts = Some cur /\ forall r, look cur r = g r.
Proof.
  intros H. assert (E : parsedRatios texts = Some (map (fun e => (e.1, g e.2)) OPTION_KEYS)).
  { apply mapOption_some. generalize OPTION_KEYS. intros es. induction es as [|e es IH]; cbn [map]; constructor; [|done]. by rewrite H. }
  exists (map (fun e => (e.1, g e.2)) OPTION_KEYS). split; [done|]. intros r. apply parsed_look in E as [_ E]. specialize (E r). rewrite H in E. congruence.
Qed.

Lemma storeOption_get r s update : settingOf r (storeOption s update) = if optionKeyBySyncField r === update.1 then update.2 else settingOf r s.
Proof. by destruct r. Qed.

Lemma storeAll_get r updates s : NoDup (mkeys updates) ->
  settingOf r (foldl storeOption s updates) = default (settingOf r s) (mget (optionKeyBySyncField r) updates).
Proof.
  revert s. induction updates as [|[k v] us IH]; intros s Hd; [done|]. apply NoDup_cons in Hd as [Hn Hd]. cbn [foldl].
  rewrite IH by done. rewrite mget_cons, storeOption_get. cbn [fst snd]. case_bool_decide as E; [|done]. subst k. by rewrite (proj2 (mget_None _ us) Hn).
Qed.

Lemma mget_map_values {V W} (g : V -> W) (m : list (jstr * V)) k : mget k (map (fun e => (e.1, g e.2)) m) = g <$> mget k m.
Proof. induction m as [|[a v] m IH]; [done|]. cbn [map fst snd]. rewrite !mget_cons, IH. by case_bool_decide. Qed.

(** The server accepts everything: the settings read as the computed objects. *)
Lemma performSync_spec s cur answers : resolutionsOk (sy_resolutions s) -> parsedRatios (sy_settings s) = Some cur ->
  (forall r, textual (VObj (look cur r)) = true) -> storableSelection (sy_resolutions s) ->
  Forall (fun a => a = Accepted) answers -> length answers = 10%nat ->
  exists s' new, performSync s answers = Some (Ret s') /\ parsedRatios (sy_settings s') = Some new /\ sy_server s' = sy_settings s' /\
    sy_resolutions s' = [] /\ sy_differences s' = dropResolved (sy_resolutions s) (sy_differences s) /\
    forall r k, own k (look new r) = match mget k (sy_resolutions s) with Some ratios => synced ratios r (own k (look cur r)) | None => own k (look cur r) end.
Proof.
  intros Hok Hp Ht Hs Ha Hl. destruct (parsed_look _ _ Hp) as [Hw _].
  destruct (final_spec _ _ Hok Hw) as (out & E & Ho & Hoo & Hto). specialize (Hto Ht Hs).
  set (updates := map (fun e => (e.1, mapText e.2)) out). assert (Hk : mkeys updates = map fst OPTION_KEYS).
  { unfold updates, mkeys. rewrite map_map. exact Ho. }
  assert (Hsend : sendUpdates updates answers = (updates, true)).
  { apply send_accepted; [done|]. rewrite Hl. apply (f_equal length) in Hk. unfold mkeys in Hk. rewrite !length_map in Hk. by rewrite Hk. }
  unfold performSync, syncUpdates. rewrite Hp. cbn [mbind option_bind]. rewrite E. cbn [obind]. fold updates. rewrite Hsend. cbn [fst snd].
  destruct (parsed_intro (foldl storeOption (sy_server s) updates) (look out)) as (new & En & Hnew).
  { intros r. rewrite storeAll_get by (rewrite Hk; apply options_NoDup). unfold updates. rewrite mget_map_values, (wf_get _ r Ho).
    cbn [fmap option_fmap option_map default from_option id]. by apply record_read. }
  eexists _, new. split; [reflexivity|]. cbn [sy_settings sy_server sy_resolutions sy_differences]. split_and!; try done. intros r k. by rewrite Hnew, Hoo.
Qed.

(** ** Categories *)

Lemma selects_spec ratios rs : selects ratios rs = true <-> exists r, r ∈ rs /\ r ∈ mkeys ratios.
Proof.
  unfold selects. rewrite existsb_exists. split.
  - intros ([r v] & Hin & Hr%isIn_spec). exists r. split; [done|]. apply list_elem_of_In in Hin. by apply (list_elem_of_fmap_2 fst) in Hin.
  - intros (r & Hr & ([r' v] & -> & Hin)%list_elem_of_fmap). exists (r', v). split; [by apply list_elem_of_In|by apply isIn_spec].
Qed.

Lemma ratio_field_category r : r ∈ RATIO_SYNC_FIELDS <-> getBillingCategory r = CatRatio.
Proof. unfold RATIO_SYNC_FIELDS. rewrite !elem_of_cons, elem_of_nil. destruct r; cbn [getBillingCategory]; split; intros H; try done; try tauto; repeat destruct H as [H|H]; try discriminate H; done. Qed.

(** A model holds a fixed price and a ratio. *)
Definition mixed (ratios : ParsedRatios) (model : jstr) : Prop :=
  is_Some (own model (look ratios model_price)) /\ exists r, r ∈ RATIO_SYNC_FIELDS /\ is_Some (own model (look ratios r)).

Lemma hasEntry_own ratios r model : textual (VObj (look ratios r)) = true -> hasEntry ratios r model = true <-> is_Some (own model (look ratios r)).
Proof.
  intros Ht. unfold hasEntry. fold (look ratios r). rewrite get_own. destruct (own model (look ratios r)) as [v|] eqn:E; cbn [default from_option id].
  - assert (v <> VUndef); [|unfold is_Some; destruct v; naive_solver]. intros ->. apply textual_fields in Ht as (_ & _ & Ht).
    rewrite Forall_forall in Ht. clear -E Ht. induction (look ratios r) as [|[a w] m IH]; [done|]. cbn [own] in E. case_bool_decide.
    + injection E as ->. by specialize (Ht (a, VUndef) (list_elem_of_here _ _)).
    + apply IH; try done. intros x Hx. apply Ht. by right.
  - split; [done|by intros [? ?]].
Qed.

Lemma unmixed_after ratios cur new model : modelOk ratios -> selects ratios (model_price :: RATIO_SYNC_FIELDS) = true ->
  (forall r, own model (look new r) = synced ratios r (own model (look cur r))) -> ~ mixed new model.
Proof.
  intros [_ _ He] (x & Hx & Hk)%selects_spec Hnew [[p Hp] (r & Hr & [v Hv])]. rewrite Hnew in Hp, Hv. unfold synced, clears in Hp, Hv.
  assert (Hcat := proj1 (ratio_field_category r) Hr). rewrite (proj2 (isIn_spec r _) Hr) in Hv. cbn [isIn existsb andb] in Hp.
  assert (Hrp : r <> model_price) by (by intros ->). rewrite (bool_decide_false _ Hrp) in Hv. rewrite (bool_decide_true (model_price = model_price)) in Hp by done.
  apply elem_of_cons in Hx as [->|Hx].
  - assert (Hs : selects ratios [model_price] = true) by (apply selects_spec; exists model_price; split; [by left|done]). rewrite Hs in Hv. cbn [andb orb] in Hv.
    destruct (mget r ratios) as [w|] eqn:E; [|done]. apply mget_elem, (list_elem_of_fmap_2 fst) in E. by apply (He model_price r).
  - assert (Hs : selects ratios RATIO_SYNC_FIELDS = true) by (apply selects_spec; eauto). rewrite Hs in Hp. cbn [andb orb] in Hp. rewrite ?orb_true_r in Hp.
    destruct (mget model_price ratios) as [w|] eqn:E; [|done]. apply mget_elem, (list_elem_of_fmap_2 fst) in E. apply (He model_price x); [done|done|done|].
    by apply ratio_field_category.
Qed.

Lemma no_conflict t diffs cur res model ratios : NoDup (mkeys res) -> conflicts t diffs cur res = [] -> mget model res = Some ratios ->
  conflictOf t diffs cur (model, ratios) = [].
Proof.
  intros Hd Hc Hm. apply mget_elem in Hm. rewrite <- (entries_perm res) in Hm. unfold conflicts in Hc.
  destruct (conflictOf t diffs cur (model, ratios)) as [|c cs] eqn:E; [done|]. exfalso.
  assert (Hin : In c (concat (map (conflictOf t diffs cur) (entries res)))); [|by rewrite Hc in Hin].
  apply in_concat. exists (c :: cs). split; [|by left]. apply in_map_iff. exists (model, ratios). split; [done|by apply list_elem_of_In].
Qed.

(** ** Properties *)

(** [C22] Whatever is fetched, selected, unselected, selected by column or applied,
    in any order: every model with a selection has some value selected, each
    setting at most once, and never both a fixed price and a ratio. *)
Theorem selection_never_mixes t settings s : syncReachable t settings s -> resolutionsOk (sy_resolutions s).
Proof. induction 1 as [|s e s' _ IH E]; [apply none_ok|by eapply event_ok]. Qed.

(** A selection without a price or a ratio leaves the prices and ratios alone. *)
Lemma synced_other ratios r old : selects ratios (model_price :: RATIO_SYNC_FIELDS) = false -> r ∈ model_price :: RATIO_SYNC_FIELDS ->
  synced ratios r old = old.
Proof.
  intros Hsel Hr. assert (Hno : forall x, x ∈ model_price :: RATIO_SYNC_FIELDS -> ~ x ∈ mkeys ratios).
  { intros x Hx Hk. assert (selects ratios (model_price :: RATIO_SYNC_FIELDS) = true) by (apply selects_spec; eauto). congruence. }
  assert (E1 : selects ratios [model_price] = false).
  { apply not_true_iff_false. intros (x & ->%list_elem_of_singleton & Hk)%selects_spec. by apply (Hno model_price); [left|]. }
  assert (E2 : selects ratios RATIO_SYNC_FIELDS = false).
  { apply not_true_iff_false. intros (x & Hx & Hk)%selects_spec. by apply (Hno x); [right|]. }
  unfold synced, clears. rewrite E1, E2, !andb_false_r. cbn [orb].
  destruct (mget r ratios) as [v|] eqn:E; [|done]. exfalso. apply (Hno r Hr). apply mget_elem in E. by apply (list_elem_of_fmap_2 fst) in E.
Qed.

Lemma mixed_only_before res cur new : resolutionsOk res ->
  (forall r k, own k (look new r) = match mget k res with Some ratios => synced ratios r (own k (look cur r)) | None => own k (look cur r) end) ->
  forall model, mixed new model ->
    mixed cur model /\ forall ratios, mget model res = Some ratios -> selects ratios (model_price :: RATIO_SYNC_FIELDS) = false.
Proof.
  intros Hok Hnew model Hmix. destruct (mget model res) as [ratios|] eqn:Em.
  - assert (Hall : forall r, own model (look new r) = synced ratios r (own model (look cur r))) by (intros r; by rewrite Hnew, Em).
    assert (Hsel : selects ratios (model_price :: RATIO_SYNC_FIELDS) = false).
    { apply not_true_iff_false. intros Hsel. by eapply unmixed_after; [apply (proj2 Hok model)|..]. }
    split; [|by intros x [= <-]]. destruct Hmix as [Hp (r & Hr & Hv)]. rewrite Hall, synced_other in Hp, Hv by (try done; (by left) || (by right)).
    split; [done|]. by exists r.
  - split; [|done]. destruct Hmix as [Hp (r & Hr & Hv)]. rewrite Hnew, Em in Hp, Hv. split; [done|]. by exists r.
Qed.

(** [C12] Applying writes exactly the selection: in any state the dialog reaches,
    if the ten settings read as objects whose values can be written as JSON text
    again, the selected models are not named like array indices and the selected
    values can be written as JSON text, then, when the server accepts the ten
    settings, they read back with every selected value in place, the ratios of a
    model removed if a fixed price is selected for it and its fixed price
    removed if a ratio is selected for it, and everything else as it was; and
    the selection is empty again. A model holds a fixed price and a ratio
    afterwards only if it held both before and neither a price nor a ratio was
    selected for it (an expression may be). *)
Theorem sync_writes_selection t settings s cur answers :
  syncReachable t settings s -> parsedRatios (sy_settings s) = Some cur -> (forall r, textual (VObj (look cur r)) = true) ->
  storableSelection (sy_resolutions s) -> Forall (fun a => a = Accepted) answers -> length answers = 10%nat ->
  exists s' new, performSync s answers = Some (Ret s') /\ parsedRatios (sy_settings s') = Some new /\ sy_resolutions s' = [] /\
    (forall r k, own k (look new r) =
       match mget k (sy_resolutions s) with Some ratios => synced ratios r (own k (look cur r)) | None => own k (look cur r) end) /\
    (forall model, mixed new model ->
       mixed cur model /\
       forall ratios, mget model (sy_resolutions s) = Some ratios -> selects ratios (model_price :: RATIO_SYNC_FIELDS) = false).
Proof.
  intros Hr Hp Ht Hs Ha Hl. assert (Hok : resolutionsOk (sy_resolutions s)) by (clear -Hr; induction Hr; [apply none_ok|by eapply event_ok]).
  destruct (performSync_spec s cur answers Hok Hp Ht Hs Ha Hl) as (s' & new & H1 & H2 & _ & H3 & _ & H4). exists s', new. split_and!; try done.
  by apply (mixed_only_before (sy_resolutions s)).
Qed.

(** Without a mixed model and without a conflict, a selection clears no entry. *)
Lemma unreported_clears_nothing t diffs cur res model ratios r : resolutionsOk res -> (forall r, textual (VObj (look cur r)) = true) ->
  ~ mixed cur model -> conflicts t diffs cur res = [] -> mget model res = Some ratios -> mget r ratios = None -> clears ratios r = true ->
  own model (look cur r) = None.
Proof.
  intros Hok Ht Hmix Hc Em Er Ec. apply eq_None_not_Some. intros Hold. assert (Hconf := no_conflict t _ _ _ _ _ (proj1 Hok) Hc Em).
  assert (Hent : forall x, hasEntry cur x model = true <-> is_Some (own model (look cur x))) by (intros x; by apply hasEntry_own).
  unfold conflictOf, getLocalBillingCategory, newCategory in Hconf. unfold clears in Ec. apply orb_true_iff in Ec as [[Hin%isIn_spec Hsel]%andb_true_iff|[->%bool_decide_eq_true Hsel]%andb_true_iff].
  - assert (Hn : hasEntry cur model_price model = false) by (apply not_true_iff_false; rewrite Hent; intros H; apply Hmix; split; [|eauto]; done).
    assert (Hx : existsb (fun r => hasEntry cur r model) RATIO_SYNC_FIELDS = true) by (apply existsb_exists; exists r; split; [by apply list_elem_of_In|by apply Hent]).
    apply selects_spec in Hsel as (x & ->%list_elem_of_singleton & Hk). by rewrite Hn, Hx, (proj2 (isIn_spec model_price _) Hk) in Hconf.
  - rewrite (proj2 (Hent model_price) Hold) in Hconf. apply mget_None in Er. apply selects_spec in Hsel as (x & Hx & Hk).
    assert (E : isIn model_price (mkeys ratios) = false) by (apply not_true_iff_false; by rewrite isIn_spec). rewrite E in Hconf.
    assert (E2 : existsb (fun rt => isIn rt (mkeys ratios)) RATIO_SYNC_FIELDS = true) by (apply existsb_exists; exists x; split; [by apply list_elem_of_In|by apply isIn_spec]).
    by rewrite E2 in Hconf.
Qed.

(** [C29] Nothing is removed without asking: in any state the dialog reaches, with
    settings and a selection that can be written as in the property on applying,
    if no model holds both a fixed price and a ratio and applying reports no
    conflict (so that no confirmation is asked), then, when the server accepts
    the ten settings, every setting of every model afterwards has exactly the
    selected value if one is selected for it, and otherwise exactly the value it
    had. *)
Theorem unconfirmed_sync_removes_nothing t settings s cur answers :
  syncReachable t settings s -> parsedRatios (sy_settings s) = Some cur -> (forall r, textual (VObj (look cur r)) = true) ->
  storableSelection (sy_resolutions s) -> Forall (fun a => a = Accepted) answers -> length answers = 10%nat ->
  (forall model, ~ mixed cur model) -> conflicts t (sy_differences s) cur (sy_resolutions s) = [] ->
  exists s' new, handleApplySync t s answers = Some (Ret s') /\ parsedRatios (sy_settings s') = Some new /\
    forall r model, own model (look new r) =
      match mget model (sy_resolutions s) ≫= mget r with Some v => Some (syncValue r v) | None => own model (look cur r) end.
Proof.
  intros Hr Hp Ht Hs Ha Hl Hmix Hc. assert (Hok : resolutionsOk (sy_resolutions s)) by (clear -Hr; induction Hr; [apply none_ok|by eapply event_ok]).
  destruct (performSync_spec s cur answers Hok Hp Ht Hs Ha Hl) as (s' & new & H1 & H2 & _ & _ & _ & H4). exists s', new.
  split; [unfold handleApplySync; rewrite Hp; cbn [mbind option_bind]; by rewrite Hc|]. split; [done|]. intros r model. rewrite H4.
  destruct (mget model (sy_resolutions s)) as [ratios|] eqn:Em; cbn [mbind option_bind]; [|done]. unfold synced.
  destruct (mget r ratios) as [v|] eqn:Er; [done|]. destruct (clears ratios r) eqn:Ec; [|done]. symmetry. by eapply unreported_clears_nothing.
Qed.

(** A refusal goes unnoticed: when the server refuses every setting, the sync
    still ends as a success; the selection and its differences are gone and the
    server has what it had. *)
Theorem refused_sync_ends_as_success s cur answers : resolutionsOk (sy_resolutions s) -> parsedRatios (sy_settings s) = Some cur ->
  Forall (fun a => a = Refused) answers -> length answers = 10%nat ->
  exists s', performSync s answers = Some (Ret s') /\ sy_resolutions s' = [] /\
    sy_differences s' = dropResolved (sy_resolutions s) (sy_differences s) /\ sy_server s' = sy_server s.
Proof.
  intros Hok Hp Ha Hl. destruct (parsed_look _ _ Hp) as [Hw _]. destruct (final_spec _ _ Hok Hw) as (out & E & Ho & _ & _).
  unfold performSync, syncUpdates. rewrite Hp. cbn [mbind option_bind]. rewrite E. cbn [obind]. rewrite send_refused; [|done|].
  - eexists. split; [reflexivity|]. done.
  - rewrite length_map, Hl. apply (f_equal length) in Ho. unfold mkeys in Ho. by rewrite length_map in Ho.
Qed.

(** The display order lists every difference of a model once. *)
Lemma ordered_types_all diffs : NoDup (mkeys diffs) -> Permutation (getOrderedRatioTypes diffs []) (mkeys diffs).
Proof.
  intros Hd. unfold getOrderedRatioTypes. cbn [truthy_str negb orb].
  assert (Hall : forall f, f ∈ SYNC_FIELD_ORDER) by (intros f; apply isIn_spec; by destruct f).
  assert (E : List.filter (fun f => negb (isIn f SYNC_FIELD_ORDER)) (mkeys diffs) = []).
  { induction (mkeys diffs) as [|k ks IH]; [done|]. cbn [List.filter]. rewrite (proj2 (isIn_spec k _) (Hall k)). cbn [negb].
    apply NoDup_cons in Hd as [_ Hd]. by apply IH. }
  rewrite E, app_nil_r. apply NoDup_Permutation.
  - apply NoDup_ListNoDup, filter_NoDup. refine (bool_decide_eq_true_1 _ _). vm_compute. reflexivity.
  - by apply NoDup_ListNoDup.
  - intros f. rewrite filter_In, <- !list_elem_of_In, isIn_spec. naive_solver.
Qed.

(** ** Concrete syncs *)

(** The settings of two models, and a selection for the second. *)
Definition sampleSync : SyncDialog :=
  mkSync [] [(js "b", [(model_ratio, VNum (num_of_Z 2))])] sampleTexts sampleTexts [].
Definition sampleCurrent : ParsedRatios := default [] (parsedRatios sampleTexts).

Lemma sample_reachable t : syncReachable t sampleTexts sampleSync.
Proof. exact (sync_event t sampleTexts _ (SySelect (js "b") model_ratio (VNum (num_of_Z 2)) (js "up")) _ (sync_open t sampleTexts) eq_refl). Qed.

Lemma sample_current : parsedRatios sampleTexts = Some sampleCurrent.
Proof. vm_compute. reflexivity. Qed.

Lemma sample_textual r : textual (VObj (look sampleCurrent r)) = true.
Proof. destruct r; vm_compute; reflexivity. Qed.

Lemma sample_selection : storableSelection (sy_resolutions sampleSync).
Proof.
  intros model ratios H. unfold sampleSync in H. cbn [sy_resolutions] in H. rewrite mget_cons in H. case_bool_decide as E; [|done]. injection H as <-.
  subst model. split; [reflexivity|]. intros r v Hv. rewrite mget_cons in Hv. case_bool_decide as E; [|done]. injection Hv as <-. subst r. vm_compute. reflexivity.
Qed.

Lemma selection_never_mixes_witness : resolutionsOk (sy_resolutions sampleSync).
Proof. exact (selection_never_mixes (fun _ => []) sampleTexts sampleSync (sample_reachable _)). Defined.

Lemma sync_writes_selection_witness : exists s' new, performSync sampleSync (repeat Accepted 10) = Some (Ret s') /\
  parsedRatios (sy_settings s') = Some new /\ own (js "b") (look new model_ratio) = Some (VNum (num_of_Z 2)) /\
  own (js "a") (look new model_price) = Some (VNum (num_of_str (js "0.5"))).
Proof.
  destruct (sync_writes_selection (fun _ => []) sampleTexts sampleSync sampleCurrent (repeat Accepted 10) (sample_reachable _) sample_current
    sample_textual sample_selection ltac:(repeat constructor) eq_refl) as (s' & new & H1 & H2 & _ & H4 & _).
  exists s', new. split; [exact H1|]. split; [exact H2|]. rewrite !H4. split; vm_compute; reflexivity.
Defined.

Lemma unconfirmed_sync_removes_nothing_witness : exists s' new, handleApplySync (fun _ => []) sampleSync (repeat Accepted 10) = Some (Ret s') /\
  parsedRatios (sy_settings s') = Some new /\ own (js "a") (look new model_price) = Some (VNum (num_of_str (js "0.5"))) /\
  own (js "b") (look new model_ratio) = Some (VNum (num_of_Z 2)).
Proof.
  destruct (unconfirmed_sync_removes_nothing (fun _ => []) sampleTexts sampleSync sampleCurrent (repeat Accepted 10) (sample_reachable _) sample_current
    sample_textual sample_selection ltac:(repeat constructor) eq_refl) as (s' & new & H1 & H2 & H3).
  - intros model [[p Hp] (r & Hr & [v Hv])]. assert (Ha : model = js "a").
    { vm_compute in Hp. revert Hp. destruct (decide (model = [97%N])) as [->|]; [reflexivity|]. intros Hp. exfalso.
      change (own model [(js "a", VNum (num_of_str (js "0.5")))] = Some p) in Hp. cbn [own] in Hp. case_bool_decide; done. }
    subst model. unfold RATIO_SYNC_FIELDS in Hr. rewrite !elem_of_cons, elem_of_nil in Hr.
    repeat (destruct Hr as [->|Hr]; [vm_compute in Hv; discriminate Hv|]). done.
  - vm_compute. reflexivity.
  - exists s', new. split; [exact H1|]. split; [exact H2|]. rewrite !H3. split; vm_compute; reflexivity.
Defined.

Lemma refused_sync_ends_as_success_witness : exists s', performSync sampleSync (repeat Refused 10) = Some (Ret s') /\
  sy_resolutions s' = [] /\ sy_server s' = sampleTexts.
Proof.
  destruct (refused_sync_ends_as_success sampleSync sampleCurrent (repeat Refused 10)) as (s' & H1 & H2 & _ & H3).
  - unfold sampleSync. cbn [sy_resolutions]. split; [apply NoDup_singleton|]. intros model ratios H. rewrite mget_cons in H. case_bool_decide; [|done]. injection H as <-.
    split; [done|apply NoDup_singleton|]. intros a b Ha%list_elem_of_singleton Hb%list_elem_of_singleton Ca Cb. subst. discriminate Ca.
  - exact sample_current.
  - repeat constructor.
  - reflexivity.
  - exists s'. split; [exact H1|]. split; [exact H2|exact H3].
Defined.

(** A channel that offers a ratio and a fixed price: selecting the whole
    channel selects the fixed price only. *)
Example bulk_select_keeps_price :
  let diff v := mkDifference VNull [(js "up", VNum (num_of_Z v))] [] in
  let diffs := [(js "m", [(model_ratio, diff 2%Z); (model_price, diff 1%Z)])] in
  handleBulkSelect diffs [] (js "up") (dataSource diffs) [] = [(js "m", [(model_price, VNum (num_of_Z 1))])].
Proof. vm_compute. reflexivity. Qed.

(** A model that already holds both kinds loses its ratio without a conflict
    when a fixed price is selected. *)
Example mixed_model_loses_ratio :
  let texts := mkSettings (mkFields (jsq "{'m': 1}") (jsq "{'m': 2}") [] [] [] [] [] []) [] [] in
  let s := mkSync [] [(js "m", [(model_price, VNum (num_of_Z 3))])] texts texts [] in
  match handleApplySync (fun _ => []) s (repeat Accepted 10) with
  | Some (Ret s') => f_ratio (x_fields (sy_settings s')) = js "{}"
  | _ => False
  end.
Proof. vm_compute. reflexivity. Qed.
