(* ===== verification/GroupSettings.v ===== *)
(** * Group ratios in the settings (group-ratio-visual-editor.tsx)

    Billing groups are five settings, each a JSON text: the ratio of each group,
    the groups a user may select, the top-up ratios, the ratios of one group's
    users on another group, and the order of automatic assignment.  This file
    models the visual editor of these texts: the table that edits ratios and
    selectable groups together, with its row identifiers and the effect that
    keeps or rebuilds the rows, the top-up list and its dialog, the overrides
    between groups, and the assignment order.

    The callers declare what the parsed texts hold; a text that is another JSON
    value is outside the model and gives [None].  Group names are taken not to
    be names that [Object.prototype] defines.  A change of a text comes back as
    a property of the next render, after which the effects run. *)
From stdpp Require Import prelude list strings.
From S2P Require Import Prelude JsString JsNumber JsValue JsMap JsonText ModelPricing.
Open Scope js_scope.

(** [safeJsonParse(text, { fallback })] *)
Definition safeParse (fallback : jsval) (value : jstr) : jsval :=
  if negb (truthy_str value) || (trim value === []) then fallback else default fallback (json_parse (trim value)).

(** ** The rows of the pricing table *)

Record GroupPricingRow := mkRow { r_id : jstr; r_name : jstr; r_ratio : number; r_selectable : bool; r_description : jstr }.

(** The identifier, and the counter after it. *)
Definition createGroupPricingId (counter : Z) : jstr * Z := (js "gpr_" ++ print_nat_dec (counter + 1), counter + 1)%Z.

Definition normalizeRatio (value : jsval) : number :=
  let parsed := js_Number value in if num_is_finite parsed then parsed else num_of_Z 1.

Definition hasOwn (o : fields) (k : jstr) : bool := match own k o with Some _ => true | None => false end.

(** The row of one name: [String(usableMap[name] ?? '')] is its description. *)
Definition buildRow (ratioMap usableMap : fields) (id name : jstr) : GroupPricingRow :=
  mkRow id name (normalizeRatio (get_prop name ratioMap)) (hasOwn usableMap name) (textOfValue (get_prop name usableMap)).

Fixpoint buildRows (ratioMap usableMap : fields) (names : list jstr) (counter : Z) : list GroupPricingRow * Z :=
  match names with
  | [] => ([], counter)
  | name :: names' =>
      let '(id, counter1) := createGroupPricingId counter in
      let '(rows, counter2) := buildRows ratioMap usableMap names' counter1 in
      (buildRow ratioMap usableMap id name :: rows, counter2)
  end.

Definition buildGroupPricingRows (groupRatio userUsableGroups : jstr) (counter : Z) : option (list GroupPricingRow * Z) :=
  ratioMap ← safeJsonParse groupRatio; usableMap ← safeJsonParse userUsableGroups;
  Some (buildRows ratioMap usableMap (set_from (obj_keys ratioMap ++ obj_keys usableMap)) counter).

(** One row of the loop of [serializeGroupPricingRows], on the two objects. *)
Definition serializeRow (acc : fields * fields) (row : GroupPricingRow) : fields * fields :=
  let '(groupRatio, userUsableGroups) := acc in
  let name := trim (r_name row) in
  if negb (truthy_str name) then acc
  else (set_prop name (VNum (normalizeRatio (VNum (r_ratio row)))) groupRatio,
        if r_selectable row then set_prop name (VStr (r_description row)) userUsableGroups else userUsableGroups).
Definition rowObjects (rows : list GroupPricingRow) : fields * fields := foldl serializeRow ([], []) rows.
Definition serializeGroupPricingRows (rows : list GroupPricingRow) : jstr * jstr :=
  (mapText (rowObjects rows).1, mapText (rowObjects rows).2).

Definition sourceGroupPricingSignature (groupRatio userUsableGroups : jstr) : option jstr :=
  json_stringify (VObj [(js "groupRatio", safeParse (VObj []) groupRatio); (js "userUsableGroups", safeParse (VObj []) userUsableGroups)]).
Definition groupPricingSignature (rows : list GroupPricingRow) : option jstr :=
  let serialized := serializeGroupPricingRows rows in
  json_stringify (VObj [(js "groupRatio", safeParse (VObj []) serialized.1); (js "userUsableGroups", safeParse (VObj []) serialized.2)]).

(** ** The pricing table *)

Record Table := mkTable { t_rows : list GroupPricingRow; t_counter : Z; t_groupRatio : jstr; t_userUsableGroups : jstr }.

(** The effect on [groupRatio] and [userUsableGroups]. *)
Definition tableEffect (s : Table) : option Table :=
  if groupPricingSignature (t_rows s) === sourceGroupPricingSignature (t_groupRatio s) (t_userUsableGroups s) then Some s
  else '(rows, counter) ← buildGroupPricingRows (t_groupRatio s) (t_userUsableGroups s) (t_counter s);
       Some (mkTable rows counter (t_groupRatio s) (t_userUsableGroups s)).

(** The first render and the effects after it. *)
Definition mountTable (groupRatio userUsableGroups : jstr) (counter : Z) : option Table :=
  '(rows, counter1) ← buildGroupPricingRows groupRatio userUsableGroups counter;
  tableEffect (mkTable rows counter1 groupRatio userUsableGroups).

Definition emitRows (nextRows : list GroupPricingRow) (s : Table) : Table :=
  let serialized := serializeGroupPricingRows nextRows in mkTable nextRows (t_counter s) serialized.1 serialized.2.

(** What the inputs of a row give to [updateRow]. *)
Inductive RowChange := SetName (v : jstr) | SetRatio (v : jstr) | SetSelectable (v : bool) | SetDescription (v : jstr).
Definition changeRow (c : RowChange) (row : GroupPricingRow) : GroupPricingRow :=
  let '(mkRow id name ratio selectable description) := row in
  match c with
  | SetName v => mkRow id v ratio selectable description
  | SetRatio v => mkRow id name (normalizeRatio (VStr v)) selectable description
  | SetSelectable v => mkRow id name ratio v description
  | SetDescription v => mkRow id name ratio selectable v
  end.
Definition updateRow (id : jstr) (c : RowChange) (s : Table) : Table :=
  emitRows (map (fun row => if r_id row === id then changeRow c row else row) (t_rows s)) s.

Definition groupName (index : Z) : jstr := js "group_" ++ print_nat_dec index.

(** The [while] loop of [addRow], with a counter of its rounds. *)
Fixpoint freshIndex (rounds : nat) (existingNames : list jstr) (index : Z) : option Z :=
  match rounds with
  | O => None
  | S n => if existsb (fun x => x === groupName index) existingNames then freshIndex n existingNames (index + 1) else Some index
  end.

Definition addRow (s : Table) : option Table :=
  index ← freshIndex (S (length (t_rows s))) (map r_name (t_rows s)) 1;
  let '(id, counter) := createGroupPricingId (t_counter s) in
  Some (emitRows (t_rows s ++ [mkRow id (groupName index) (num_of_Z 1) true []])
         (mkTable (t_rows s) counter (t_groupRatio s) (t_userUsableGroups s))).

Definition removeRow (id : jstr) (s : Table) : Table := emitRows (List.filter (fun row => negb (r_id row === id)) (t_rows s)) s.

Definition nameCounts (rows : list GroupPricingRow) : list (jstr * nat) :=
  foldl (fun counts row =>
    let name := trim (r_name row) in if negb (truthy_str name) then counts else mset name (S (default 0%nat (mget name counts))) counts) [] rows.
Definition duplicateNames (rows : list GroupPricingRow) : list jstr :=
  map fst (List.filter (fun e => (1 <? e.2)%nat) (nameCounts rows)).

(** The handlers of the table, and new texts from the form. *)
Inductive TableEvent :=
| EditRow (id : jstr) (c : RowChange)
| AddRow
| RemoveRow (id : jstr)
| NewTexts (groupRatio userUsableGroups : jstr).

Definition tableHandle (e : TableEvent) (s : Table) : option Table :=
  match e with
  | EditRow id c => Some (updateRow id c s)
  | AddRow => addRow s
  | RemoveRow id => Some (removeRow id s)
  | NewTexts groupRatio userUsableGroups => Some (mkTable (t_rows s) (t_counter s) groupRatio userUsableGroups)
  end.
Definition tableStep (e : TableEvent) (s : Table) : option Table := s' ← tableHandle e s; tableEffect s'.

Inductive tableReach : Table -> Prop :=
| reach_mount groupRatio userUsableGroups counter s : (0 <= counter)%Z -> mountTable groupRatio userUsableGroups counter = Some s -> tableReach s
| reach_step e s s' : tableReach s -> tableStep e s = Some s' -> tableReach s'.

(** ** The other settings and their dialogs *)

Record GroupTexts := mkTexts { g_groupRatio : jstr; g_topupGroupRatio : jstr; g_userUsableGroups : jstr; g_groupGroupRatio : jstr; g_autoGroups : jstr }.

Inductive RatioField := GroupRatioField | TopupField.
Definition ratioText (f : RatioField) (t : GroupTexts) : jstr := match f with GroupRatioField => g_groupRatio t | TopupField => g_topupGroupRatio t end.
Definition setRatioText (f : RatioField) (v : jstr) (t : GroupTexts) : GroupTexts :=
  match f with
  | GroupRatioField => mkTexts v (g_topupGroupRatio t) (g_userUsableGroups t) (g_groupGroupRatio t) (g_autoGroups t)
  | TopupField => mkTexts (g_groupRatio t) v (g_userUsableGroups t) (g_groupGroupRatio t) (g_autoGroups t)
  end.
Definition setGroupGroup (v : jstr) (t : GroupTexts) : GroupTexts := mkTexts (g_groupRatio t) (g_topupGroupRatio t) (g_userUsableGroups t) v (g_autoGroups t).
Definition setAuto (v : jstr) (t : GroupTexts) : GroupTexts := mkTexts (g_groupRatio t) (g_topupGroupRatio t) (g_userUsableGroups t) (g_groupGroupRatio t) v.

Record SimpleGroup := mkSimple { sg_name : jstr; sg_value : jstr }.
Record GroupOverride := mkOverride { o_targetGroup : jstr; o_ratio : jsval }.

(** The dialogs: whether each is open and what it edits. *)
Record Editor := mkEditor {
  e_texts : GroupTexts;
  e_simple : bool * option RatioField * option SimpleGroup;
  e_auto : bool * jstr;
  e_override : bool * option jstr * option GroupOverride;
  e_user : bool * jstr }.
Definition withTexts (t : GroupTexts) (e : Editor) : Editor := mkEditor t (e_simple e) (e_auto e) (e_override e) (e_user e).
Definition withSimple (d : bool * option RatioField * option SimpleGroup) (e : Editor) : Editor := mkEditor (e_texts e) d (e_auto e) (e_override e) (e_user e).
Definition withAuto (d : bool * jstr) (e : Editor) : Editor := mkEditor (e_texts e) (e_simple e) d (e_override e) (e_user e).
Definition withOverride (d : bool * option jstr * option GroupOverride) (e : Editor) : Editor := mkEditor (e_texts e) (e_simple e) (e_auto e) d (e_user e).
Definition withUser (d : bool * jstr) (e : Editor) : Editor := mkEditor (e_texts e) (e_simple e) (e_auto e) (e_override e) d.

(** *** Top-up ratios *)

Definition topupRatioList (topupGroupRatio : jstr) : option (list SimpleGroup) :=
  m ← safeJsonParse topupGroupRatio; Some (map (fun e => mkSimple e.1 (js_String e.2)) (entries m)).

Definition handleSimpleAdd (type : RatioField) (e : Editor) : Editor := withSimple (true, Some type, None) e.
Definition handleSimpleEdit (type : RatioField) (group : SimpleGroup) (e : Editor) : Editor := withSimple (true, Some type, Some group) e.

(** The object that [handleSimpleSave] writes. *)
Definition simpleSaved (edited : option SimpleGroup) (name value : jstr) (m : fields) : fields :=
  let m1 := match edited with Some g => if negb (sg_name g === name) then delete_prop (sg_name g) m else m | None => m end in
  set_prop name (VNum (parse_float value)) m1.
Definition handleSimpleSave (name value : jstr) (e : Editor) : option Editor :=
  match e_simple e with
  | (_, None, _) => Some e
  | (_, Some type, edited) =>
      m ← safeJsonParse (ratioText type (e_texts e));
      Some (withSimple (false, Some type, edited) (withTexts (setRatioText type (mapText (simpleSaved edited name value m)) (e_texts e)) e))
  end.
Definition handleSimpleDelete (type : RatioField) (name : jstr) (e : Editor) : option Editor :=
  m ← safeJsonParse (ratioText type (e_texts e));
  Some (withTexts (setRatioText type (mapText (delete_prop name m)) (e_texts e)) e).

(** [SimpleGroupDialog]: its two inputs, the effect on [editData] and [open]. *)
Record SimpleDialog := mkSimpleDialog { sd_name : jstr; sd_value : jstr }.
Definition simpleDialogEffect (opened : bool) (editData : option SimpleGroup) : SimpleDialog :=
  if negb opened then mkSimpleDialog [] []
  else mkSimpleDialog (from_option sg_name [] editData) (from_option sg_value [] editData).
(** [!isNaN(x)] *)
Definition notNaN (x : number) : bool := match x with SpecFloat.S754_nan => false | _ => true end.
Definition simpleValueInput (val : jstr) (d : SimpleDialog) : SimpleDialog :=
  if (val === []) || notNaN (parse_float val) then mkSimpleDialog (sd_name d) val else d.
(** What [handleSave] passes to [onSave], if it does. *)
Definition simpleDialogSave (d : SimpleDialog) : option (jstr * jstr) :=
  if negb (truthy_str (trim (sd_name d))) || negb (truthy_str (trim (sd_value d))) then None
  else Some (trim (sd_name d), trim (sd_value d)).

(** *** Automatic assignment *)

(** [safeJsonParse<string[]>(autoGroups, { fallback: [] })] *)
Definition autoGroupsList (autoGroups : jstr) : option (list jsval) :=
  match safeParse (VArr []) autoGroups with VArr xs => Some xs | _ => None end.
Definition listText (l : list jsval) : jstr := default [] (json_stringify2 (VArr l)).
Definition setAutoList (l : list jsval) (e : Editor) : Editor := withTexts (setAuto (listText l) (e_texts e)) e.

(** [list[i]] and [list[i] = v]; a write beyond the end leaves holes before it. *)
Definition arr_get (l : list jsval) (i : nat) : jsval := default VUndef (l !! i).
Definition arr_set (i : nat) (v : jsval) (l : list jsval) : list jsval :=
  if (i <? length l)%nat then <[i := v]> l else l ++ replicate (i - length l) VUndef ++ [v].

Inductive Direction := Up | Down.
(** [[list[index], list[newIndex]] = [list[newIndex], list[index]]] *)
Definition swap (index newIndex : nat) (l : list jsval) : list jsval :=
  arr_set newIndex (arr_get l index) (arr_set index (arr_get l newIndex) l).

Definition handleAutoGroupAdd (e : Editor) : Editor := withAuto (true, []) e.
Definition handleAutoGroupSave (e : Editor) : option Editor :=
  let '(_, autoGroupInput) := e_auto e in
  if negb (truthy_str (trim autoGroupInput)) then Some e
  else l ← autoGroupsList (g_autoGroups (e_texts e));
       Some (withAuto (false, autoGroupInput) (setAutoList (l ++ [VStr (trim autoGroupInput)]) e)).
Definition handleAutoGroupDelete (index : nat) (e : Editor) : option Editor :=
  l ← autoGroupsList (g_autoGroups (e_texts e));
  Some (setAutoList (map snd (List.filter (fun p => negb (p.1 =? index)%nat) (zip (seq 0 (length l)) l))) e).
Definition handleAutoGroupMove (index : nat) (direction : Direction) (e : Editor) : option Editor :=
  l ← autoGroupsList (g_autoGroups (e_texts e));
  let newIndex := match direction with Up => Z.of_nat index - 1 | Down => Z.of_nat index + 1 end%Z in
  if ((newIndex <? 0) || (Z.of_nat (length l) <=? newIndex))%Z then Some e
  else Some (setAutoList (swap index (Z.to_nat newIndex) l) e).

(** *** Ratios between groups *)

(** The object stored for a user group: [None] when it is another value. *)
Definition innerObject (v : jsval) : option fields := if negb (truthy v) then Some [] else is_plain_object v.

Fixpoint overrideLists (m : fields) : option (list (jstr * list GroupOverride)) :=
  match m with
  | [] => Some []
  | (userGroup, overrides) :: m' =>
      os ← is_plain_object overrides; rest ← overrideLists m';
      Some ((userGroup, map (fun e => mkOverride e.1 e.2) (entries os)) :: rest)
  end.
Definition groupGroupRatioList (groupGroupRatio : jstr) : option (list (jstr * list GroupOverride)) :=
  m ← safeJsonParse groupGroupRatio; overrideLists (entries m).

Definition setGroupGroupMap (m : fields) (e : Editor) : Editor := withTexts (setGroupGroup (mapText m) (e_texts e)) e.

Definition handleUserGroupAdd (e : Editor) : Editor := withUser (true, []) e.
Definition handleUserGroupSave (e : Editor) : option Editor :=
  let '(_, userGroupInput) := e_user e in
  if negb (truthy_str (trim userGroupInput)) then Some e
  else m ← safeJsonParse (g_groupGroupRatio (e_texts e));
       let m1 := if negb (truthy (get_prop (trim userGroupInput) m)) then set_prop (trim userGroupInput) (VObj []) m else m in
       Some (withUser (false, userGroupInput) (setGroupGroupMap m1 e)).
Definition handleUserGroupDelete (userGroup : jstr) (e : Editor) : option Editor :=
  m ← safeJsonParse (g_groupGroupRatio (e_texts e)); Some (setGroupGroupMap (delete_prop userGroup m) e).

Definition handleOverrideAdd (userGroup : jstr) (e : Editor) : Editor := withOverride (true, Some userGroup, None) e.
Definition handleOverrideEdit (userGroup : jstr) (override : GroupOverride) (e : Editor) : Editor :=
  withOverride (true, Some userGroup, Some override) e.

(** The object that [handleOverrideSave] writes. *)
Definition overrideSaved (userGroup targetGroup : jstr) (ratio : number) (oldTargetGroup : option jstr) (m : fields) : option fields :=
  inner ← innerObject (get_prop userGroup m);
  let inner1 := match oldTargetGroup with
                | Some old => if truthy_str old && negb (old === targetGroup) then delete_prop old inner else inner
                | None => inner
                end in
  Some (set_prop userGroup (VObj (set_prop targetGroup (VNum ratio) inner1)) m).
Definition handleOverrideSave (targetGroup : jstr) (ratio : number) (oldTargetGroup : option jstr) (e : Editor) : option Editor :=
  match e_override e with
  | (_, Some userGroup, edit) =>
      if negb (truthy_str userGroup) then Some e
      else m ← safeJsonParse (g_groupGroupRatio (e_texts e));
           m1 ← overrideSaved userGroup targetGroup ratio oldTargetGroup m;
           Some (withOverride (false, Some userGroup, edit) (setGroupGroupMap m1 e))
  | _ => Some e
  end.

Definition overrideDeleted (userGroup targetGroup : jstr) (m : fields) : option fields :=
  if negb (truthy (get_prop userGroup m)) then Some m
  else inner ← is_plain_object (get_prop userGroup m);
       let inner1 := delete_prop targetGroup inner in
       Some (if (length (obj_keys inner1) =? 0)%nat then delete_prop userGroup (set_prop userGroup (VObj inner1) m)
             else set_prop userGroup (VObj inner1) m).
Definition handleOverrideDelete (userGroup targetGroup : jstr) (e : Editor) : option Editor :=
  m ← safeJsonParse (g_groupGroupRatio (e_texts e)); m1 ← overrideDeleted userGroup targetGroup m; Some (setGroupGroupMap m1 e).

(** [GroupOverrideDialog] *)
Record OverrideDialog := mkOverrideDialog { od_targetGroup : jstr; od_ratio : jstr }.
Definition overrideDialogEffect (opened : bool) (editData : option GroupOverride) : OverrideDialog :=
  if negb opened then mkOverrideDialog [] []
  else mkOverrideDialog (from_option o_targetGroup [] editData) (from_option (fun o => js_String (o_ratio o)) [] editData).
Definition overrideDialogSave (editData : option GroupOverride) (d : OverrideDialog) : option (jstr * number * option jstr) :=
  if negb (truthy_str (trim (od_targetGroup d))) || negb (truthy_str (trim (od_ratio d))) then None
  else let parsedRatio := parse_float (od_ratio d) in
       if negb (notNaN parsedRatio) then None else Some (trim (od_targetGroup d), parsedRatio, o_targetGroup <$> editData).
