(* ===== verification/GroupSettingsCorrect.v ===== *)
(** * What the editor of group ratios guarantees

    Rows of the pricing table are addressed by identifiers that never repeat,
    an edit is not thrown away by the effect that follows it, the table reopens
    with the rows it saved, and the dialogs change one entry of their setting. *)
From stdpp Require Import prelude list strings.
From S2P Require Import Prelude JsString JsNumber JsValue JsMap JsonText ModelPricing ModelPricingCorrect GroupSettings.
Open Scope js_scope.

(** ** The row identifiers *)

Definition gprId (k : Z) : jstr := (createGroupPricingId (k - 1)).1.

Lemma createGroupPricingId_gprId c : createGroupPricingId c = (gprId (c + 1), c + 1)%Z.
Proof. unfold gprId, createGroupPricingId. cbn [fst]. by replace (c + 1 - 1 + 1)%Z with (c + 1)%Z by lia. Qed.

Lemma gprId_inj a b : (0 < a)%Z -> (0 < b)%Z -> gprId a = gprId b -> a = b.
Proof.
  unfold gprId, createGroupPricingId. cbn [fst]. rewrite !Z.sub_add. intros Ha Hb E%app_inv_head.
  by apply print_nat_dec_inj in E; lia.
Qed.

Lemma groupName_inj a b : (1 <= a)%Z -> (1 <= b)%Z -> groupName a = groupName b -> a = b.
Proof. unfold groupName. intros Ha Hb E%app_inv_head. apply print_nat_dec_inj in E; lia. Qed.

Lemma normalizeRatio_finite v : num_is_finite (normalizeRatio v) = true.
Proof. unfold normalizeRatio. by destruct (num_is_finite (js_Number v)) eqn:E. Qed.

(** Rows whose identifiers were given out before [counter], with finite ratios. *)
Record numbered (counter : Z) (rows : list GroupPricingRow) : Prop := {
  ids_issued : issued r_id gprId counter rows;
  ratios_finite : Forall (fun row => num_is_finite (r_ratio row) = true) rows }.

Lemma buildRows_ids rm um names c rows c' : buildRows rm um names c = (rows, c') ->
  c' = (c + Z.of_nat (length rows))%Z /\ map r_id rows = map (fun n => gprId (c + 1 + Z.of_nat n)) (seq 0 (length rows)) /\
  Forall (fun row => num_is_finite (r_ratio row) = true) rows.
Proof.
  revert c rows c'. induction names as [|name names IH]; intros c rows c'; cbn [buildRows].
  - intros [= <- <-]. split; [cbn; lia|done].
  - rewrite createGroupPricingId_gprId. destruct (buildRows rm um names (c + 1)) as [rs c2] eqn:E.
    intros [= <- <-]. apply IH in E as (-> & Hid & Hfin). split; [cbn [length]; lia|].
    split; [by apply numbered_cons|constructor; [apply normalizeRatio_finite|done]].
Qed.

Lemma build_numbered a b c rows c' : (0 <= c)%Z -> buildGroupPricingRows a b c = Some (rows, c') -> (c <= c')%Z /\ numbered c' rows.
Proof.
  intros Hc. unfold buildGroupPricingRows. destruct (safeJsonParse a) as [rm|]; [|done]. destruct (safeJsonParse b) as [um|]; [|done].
  cbn [mbind option_bind]. intros [= E]. apply buildRows_ids in E as (-> & Hid & Hfin). split; [lia|].
  split; [|done]. by apply (issued_numbered _ _ gprId_inj).
Qed.

(** A table as the handlers keep it. *)
Definition sound (s : Table) : Prop := (0 <= t_counter s)%Z /\ numbered (t_counter s) (t_rows s).

Lemma effect_sound s s' : sound s -> tableEffect s = Some s' -> sound s'.
Proof.
  unfold tableEffect. intros [Hc Hn]. destruct (_ === _); [by intros [= <-]|].
  destruct (buildGroupPricingRows _ _ _) as [[rows c']|] eqn:E; [|done]. cbn [mbind option_bind]. intros [= <-].
  apply build_numbered in E as [Hle Hn']; [|done]. split; [cbn; lia|done].
Qed.

Lemma changeRow_id c row : r_id (changeRow c row) = r_id row.
Proof. by destruct row, c. Qed.
Lemma changeRow_finite c row : num_is_finite (r_ratio row) = true -> num_is_finite (r_ratio (changeRow c row)) = true.
Proof. destruct row as [i n x b d], c; cbn [changeRow r_ratio]; try done. intros _. apply normalizeRatio_finite. Qed.

Lemma numbered_change c rows id ch :
  numbered c rows -> numbered c (map (fun row => if r_id row === id then changeRow ch row else row) rows).
Proof.
  intros [Hid Hfin]. split.
  - apply issued_change; [|done]. intros row. destruct (_ === _); [apply changeRow_id|done].
  - rewrite Forall_forall in *. intros row (r0 & -> & Hr)%list_elem_of_fmap. destruct (_ === _); [apply changeRow_finite|]; by apply Hfin.
Qed.

Lemma numbered_filter c rows p : numbered c rows -> numbered c (List.filter p rows).
Proof.
  intros [Hid Hfin]. split; [by apply issued_filter|]. rewrite Forall_forall in *. intros row Hr.
  apply list_elem_of_In, List.filter_In in Hr as [Hr%list_elem_of_In _]. by apply Hfin.
Qed.

Lemma numbered_add c rows name : (0 <= c)%Z -> numbered c rows -> numbered (c + 1) (rows ++ [mkRow (gprId (c + 1)) name (num_of_Z 1) true []]).
Proof.
  intros Hc [Hid Hfin]. split; [by apply (issued_snoc _ _ gprId_inj)|]. apply Forall_app. split; [done|by repeat constructor].
Qed.

Lemma handle_sound e s s' : sound s -> tableHandle e s = Some s' -> sound s'.
Proof.
  intros [Hc Hn]. destruct e; cbn [tableHandle].
  - intros [= <-]. split; [done|by apply numbered_change].
  - unfold addRow. destruct (freshIndex _ _ _) as [index|]; [|done]. cbn [mbind option_bind].
    rewrite createGroupPricingId_gprId. intros [= <-]. split; [cbn; lia|by apply numbered_add].
  - intros [= <-]. split; [done|by apply numbered_filter].
  - by intros [= <-].
Qed.

Lemma reach_sound s : tableReach s -> sound s.
Proof.
  induction 1 as [a b c s Hc Hm|e s s' _ IH Hs].
  - unfold mountTable in Hm. destruct (buildGroupPricingRows a b c) as [[rows c1]|] eqn:E; [|done].
    cbn [mbind option_bind] in Hm. apply build_numbered in E as [Hle Hn]; [|done].
    eapply effect_sound; [|exact Hm]. split; [cbn; lia|done].
  - unfold tableStep in Hs. destruct (tableHandle e s) as [s1|] eqn:E; [|done]. cbn [mbind option_bind] in Hs.
    eapply effect_sound; [by eapply handle_sound|done].
Qed.

(** ** Edits *)

Lemma freshIndex_spec n existing i : (forall j, (i <= j < i + Z.of_nat n)%Z -> groupName j ∈ existing) \/
  exists j, freshIndex n existing i = Some j /\ groupName j ∉ existing /\ (i <= j)%Z /\
            forall k, (i <= k < j)%Z -> groupName k ∈ existing.
Proof.
  revert i. induction n as [|n IH]; intros i; cbn [freshIndex]; [left; lia|].
  destruct (existsb (fun x => x === groupName i) existing) eqn:Ex.
  - apply existsb_exists in Ex as (x & Hx%list_elem_of_In & E). apply bool_decide_eq_true in E as ->.
    assert (Hi : forall j, (i <= j)%Z -> (i + 1 <= j)%Z \/ j = i) by lia.
    destruct (IH (i + 1)%Z) as [Hall|(j & Hj & Hf & Hle & Hall)]; [left|right; exists j; split_and!; [done|done|lia|]];
      intros k Hk; destruct (Hi k) as [Hk'| ->]; try lia; try done; apply Hall; lia.
  - right. exists i. split_and!; [done| |lia|lia]. intros Hin. rewrite <- not_true_iff_false in Ex. apply Ex.
    apply existsb_exists. exists (groupName i). split; [by apply list_elem_of_In|by apply bool_decide_eq_true].
Qed.

(** The loop of [addRow] ends, on the first name that no row has. *)
Lemma freshIndex_total (rows : list GroupPricingRow) : exists j,
  freshIndex (S (length rows)) (map r_name rows) 1 = Some j /\ groupName j ∉ map r_name rows /\ (1 <= j)%Z /\
  forall k, (1 <= k < j)%Z -> groupName k ∈ map r_name rows.
Proof.
  destruct (freshIndex_spec (S (length rows)) (map r_name rows) 1) as [Hall|H]; [exfalso|done].
  destruct (fresh_among groupName (map r_name rows) 1) as (j & Hj & Hf).
  - intros a b Ha Hb. by apply groupName_inj.
  - apply Hf, Hall. rewrite length_map in Hj. lia.
Qed.

Lemma effect_after_emit rows s : tableEffect (emitRows rows s) = Some (emitRows rows s).
Proof. unfold tableEffect, emitRows. cbn [t_rows t_groupRatio t_userUsableGroups]. unfold groupPricingSignature, sourceGroupPricingSignature. cbv zeta. by rewrite bool_decide_true. Qed.

(** [C23] In every state of the table that can be reached from opening it, the
    identifiers of the rows are distinct and were given out by the counter up to
    its present value, and rows are addressed one at a time: an input changes the
    row it belongs to and no other, deleting removes that row and no other, and a
    new row gets the first unused name and an identifier no row has. The effect
    that runs after each edit leaves the edited rows in place, and the settings
    are the texts of these rows. *)
Theorem table_edits_address_one_row s (Hreach : tableReach s) :
  NoDup (map r_id (t_rows s)) /\
  (forall row, row ∈ t_rows s -> exists k, (0 < k <= t_counter s)%Z /\ r_id row = gprId k) /\
  (forall i row c, t_rows s !! i = Some row ->
     tableStep (EditRow (r_id row) c) s = Some (emitRows (<[i := changeRow c row]> (t_rows s)) s)) /\
  (forall i row, t_rows s !! i = Some row -> tableStep (RemoveRow (r_id row)) s = Some (emitRows (delete i (t_rows s)) s)) /\
  (exists j s', tableStep AddRow s = Some s' /\
     t_rows s' = t_rows s ++ [mkRow (gprId (t_counter s + 1)) (groupName j) (num_of_Z 1) true []] /\
     (t_groupRatio s', t_userUsableGroups s') = serializeGroupPricingRows (t_rows s') /\
     gprId (t_counter s + 1) ∉ map r_id (t_rows s) /\ groupName j ∉ map r_name (t_rows s) /\
     (1 <= j)%Z /\ forall k, (1 <= k < j)%Z -> groupName k ∈ map r_name (t_rows s)).
Proof.
  destruct (reach_sound s Hreach) as [Hc [Hid _]]. pose proof (issued_distinct _ _ _ _ Hid) as Hnd. split_and!; [done|apply Hid|..].
  - intros i row c Hi. unfold tableStep, tableHandle, updateRow. cbn [mbind option_bind].
    rewrite effect_after_emit. by rewrite (change_addressed r_id (changeRow c) _ i row).
  - intros i row Hi. unfold tableStep, tableHandle, removeRow. cbn [mbind option_bind].
    rewrite effect_after_emit. by rewrite (remove_addressed r_id _ i row).
  - destruct (freshIndex_total (t_rows s)) as (j & Hj & Hf & Hle & Hall). eexists j, _. split.
    { unfold tableStep, tableHandle, addRow. rewrite Hj. cbn [mbind option_bind]. rewrite createGroupPricingId_gprId.
      apply effect_after_emit. }
    split_and!; try done. apply (issued_fresh _ _ gprId_inj (t_counter s)); [done|done|lia].
Qed.

Lemma table_edits_address_one_row_witness :
  exists s, mountTable (jsq "{'default': 1}") [] 0 = Some s /\
    exists j s', tableStep AddRow s = Some s' /\ map r_name (t_rows s') = [js "default"; groupName j].
Proof.
  eexists. split; [vm_compute; reflexivity|].
  match goal with |- context [tableStep AddRow ?t] => assert (Hr : tableReach t) end.
  { eapply (reach_mount (jsq "{'default': 1}") [] 0); [lia|vm_compute; reflexivity]. }
  destruct (table_edits_address_one_row _ Hr) as (_ & _ & _ & _ & j & s' & E & Er & _). exists j, s'. split; [exact E|]. by rewrite Er.
Defined.

(** ** What the settings hold *)

(** The rows that are saved under the name [k]. *)
Definition rowsNamed (k : jstr) (rows : list GroupPricingRow) : list GroupPricingRow := List.filter (fun r => trim (r_name r) === k) rows.

Lemma rowsNamed_app k a b : rowsNamed k (a ++ b) = rowsNamed k a ++ rowsNamed k b.
Proof. apply List.filter_app. Qed.
Lemma rowsNamed_one k r : rowsNamed k [r] = if trim (r_name r) === k then [r] else [].
Proof. reflexivity. Qed.

Lemma rowObjects_snoc rows r : rowObjects (rows ++ [r]) = serializeRow (rowObjects rows) r.
Proof. apply foldl_snoc. Qed.

(** The last row of a name gives the ratio, the last selectable one the description. *)
Lemma rowObjects_own rows k : k <> [] ->
  own k (rowObjects rows).1 = (fun r => VNum (normalizeRatio (VNum (r_ratio r)))) <$> last (rowsNamed k rows) /\
  own k (rowObjects rows).2 = (fun r => VStr (r_description r)) <$> last (List.filter r_selectable (rowsNamed k rows)).
Proof.
  intros Hk. induction rows as [|r rows IH] using rev_ind; [done|]. rewrite rowObjects_snoc, rowsNamed_app, rowsNamed_one.
  unfold serializeRow. destruct (rowObjects rows) as [o1 o2]. cbn [fst snd] in *. destruct IH as [IH1 IH2].
  destruct (trim (r_name r)) as [|c n] eqn:En; cbn [truthy_str negb].
  - rewrite bool_decide_false by congruence. by rewrite !app_nil_r.
  - cbn [fst snd]. rewrite own_set_prop. replace (own k (if r_selectable r then _ else o2)) with
      (if (c :: n === k) && r_selectable r then Some (VStr (r_description r)) else own k o2).
    2: { destruct (r_selectable r); [|by rewrite andb_false_r]. rewrite own_set_prop, andb_true_r. repeat case_bool_decide; congruence. }
    rewrite (bool_decide_ext (k = c :: n) (c :: n = k)) by (split; congruence).
    destruct (c :: n === k) eqn:Ek; cbn [andb]; [|by rewrite app_nil_r].
    rewrite last_snoc, List.filter_app. cbn. destruct (r_selectable r); [by rewrite last_snoc|by rewrite app_nil_r].
Qed.

Lemma nameCounts_snoc rows r : nameCounts (rows ++ [r]) =
  let name := trim (r_name r) in if negb (truthy_str name) then nameCounts rows else mset name (S (default 0%nat (mget name (nameCounts rows)))) (nameCounts rows).
Proof. unfold nameCounts. by rewrite foldl_snoc. Qed.

Lemma nameCounts_get rows k : k <> [] -> default 0%nat (mget k (nameCounts rows)) = length (rowsNamed k rows).
Proof.
  intros Hk. induction rows as [|r rows IH] using rev_ind; [done|]. rewrite nameCounts_snoc, rowsNamed_app, rowsNamed_one, length_app. cbv zeta.
  destruct (trim (r_name r)) as [|c n] eqn:En; cbn [truthy_str negb].
  - rewrite IH. rewrite bool_decide_false by congruence. cbn. lia.
  - rewrite mget_mset. rewrite (bool_decide_ext (k = c :: n) (c :: n = k)) by (split; congruence).
    case_bool_decide as E; [subst|]; cbn [length default from_option id]; rewrite IH; lia.
Qed.

Lemma nameCounts_keys rows : NoDup (mkeys (nameCounts rows)) /\ [] ∉ mkeys (nameCounts rows).
Proof.
  induction rows as [|r rows [IH1 IH2]] using rev_ind; [split; [constructor|by intros ?%elem_of_nil]|]. rewrite nameCounts_snoc. cbv zeta.
  destruct (trim (r_name r)) as [|c n] eqn:En; cbn [truthy_str negb]; [done|]. split; [by apply mset_NoDup|].
  rewrite mset_elem. naive_solver.
Qed.

Lemma duplicateNames_elem rows k : k ∈ duplicateNames rows <-> k <> [] /\ (1 < length (rowsNamed k rows))%nat.
Proof.
  destruct (nameCounts_keys rows) as [Hnd Hnil]. unfold duplicateNames. rewrite list_elem_of_fmap. split.
  - intros ([k' n] & -> & Hin). apply list_elem_of_In, List.filter_In in Hin as [Hin%list_elem_of_In Hn]. cbn [fst snd] in *.
    assert (Hk : k' <> []). { intros ->. apply Hnil. apply list_elem_of_fmap. by exists ([], n). }
    split; [done|]. rewrite <- nameCounts_get by done. rewrite (mget_NoDup k' n) by done. by apply Nat.ltb_lt.
  - intros [Hk Hn]. rewrite <- nameCounts_get in Hn by done. destruct (mget k (nameCounts rows)) as [n|] eqn:E; [|cbn in Hn; lia].
    exists (k, n). split; [done|]. apply list_elem_of_In, List.filter_In. split; [by apply list_elem_of_In, mget_elem|by apply Nat.ltb_lt].
Qed.

Lemma rowsNamed_elem k rows r : r ∈ rowsNamed k rows <-> r ∈ rows /\ trim (r_name r) = k.
Proof. unfold rowsNamed. rewrite list_elem_of_In, List.filter_In, <- list_elem_of_In, bool_decide_eq_true. done. Qed.

Lemma rowsNamed_single rows r : (length (rowsNamed (trim (r_name r)) rows) <= 1)%nat -> r ∈ rows -> rowsNamed (trim (r_name r)) rows = [r].
Proof.
  intros Hl Hr. assert (Hin : r ∈ rowsNamed (trim (r_name r)) rows) by (by apply rowsNamed_elem).
  destruct (rowsNamed _ rows) as [|x [|y l]]; [by apply elem_of_nil in Hin| |cbn in Hl; lia].
  by apply list_elem_of_singleton in Hin as ->.
Qed.

Lemma two_named k rows : (1 < length (rowsNamed k rows))%nat <->
  exists i j a b, (i < j)%nat /\ rows !! i = Some a /\ rows !! j = Some b /\ trim (r_name a) = k /\ trim (r_name b) = k.
Proof.
  split.
  - induction rows as [|x rows IH]; [cbn; lia|]. change (rowsNamed k (x :: rows)) with (if trim (r_name x) === k then x :: rowsNamed k rows else rowsNamed k rows).
    case_bool_decide as Ex.
    + cbn [length]. intros H. destruct (rowsNamed k rows) as [|y l] eqn:El; [cbn in H; lia|].
      assert (Hy : y ∈ rowsNamed k rows) by (rewrite El; by left). apply rowsNamed_elem in Hy as [[j Hj]%list_elem_of_lookup Ey].
      exists 0%nat, (S j), x, y. split; [lia|done].
    + intros H. destruct (IH H) as (i & j & a & b & Hij & Hr). exists (S i), (S j), a, b. split; [lia|done].
  - intros (i & j & a & b & Hij & Ha & Hb & Ea & Eb). rewrite <- (take_drop (S i) rows), rowsNamed_app, length_app.
    assert (H1 : a ∈ rowsNamed k (take (S i) rows)).
    { apply rowsNamed_elem. split; [|done]. apply list_elem_of_lookup. exists i. by rewrite lookup_take_lt by lia. }
    assert (H2 : b ∈ rowsNamed k (drop (S i) rows)).
    { apply rowsNamed_elem. split; [|done]. apply list_elem_of_lookup. exists (j - S i)%nat. rewrite lookup_drop.
      by replace (S i + (j - S i))%nat with j by lia. }
    destruct (rowsNamed k (take (S i) rows)); [by apply elem_of_nil in H1|].
    destruct (rowsNamed k (drop (S i) rows)); [by apply elem_of_nil in H2|]. cbn. lia.
Qed.

(** The warning of the table is exact: it lists the names that more than one
    row has after trimming, and when it lists none, every row with a name is
    stored with its own ratio, and is selectable with its description exactly
    when its box is ticked. *)
Theorem duplicate_warning_exact rows :
  (forall k, k ∈ duplicateNames rows <-> k <> [] /\ exists i j a b, (i < j)%nat /\ rows !! i = Some a /\ rows !! j = Some b /\ trim (r_name a) = k /\ trim (r_name b) = k) /\
  (duplicateNames rows = [] -> forall r, r ∈ rows -> trim (r_name r) <> [] ->
     own (trim (r_name r)) (rowObjects rows).1 = Some (VNum (normalizeRatio (VNum (r_ratio r)))) /\
     own (trim (r_name r)) (rowObjects rows).2 = if r_selectable r then Some (VStr (r_description r)) else None).
Proof.
  split.
  - intros k. rewrite duplicateNames_elem, two_named. done.
  - intros Hd r Hr Hn. destruct (rowObjects_own rows _ Hn) as [-> ->]. rewrite rowsNamed_single; [|..].
    + cbn. by destruct (r_selectable r).
    + destruct (le_lt_dec (length (rowsNamed (trim (r_name r)) rows)) 1) as [|H]; [done|]. exfalso.
      assert (Hin : trim (r_name r) ∈ duplicateNames rows) by (by apply duplicateNames_elem). rewrite Hd in Hin. by apply elem_of_nil in Hin.
    + done.
Qed.

Lemma duplicate_warning_exact_witness :
  let rows := [mkRow (js "gpr_1") (js "vip ") (num_of_Z 2) true (js "VIP"); mkRow (js "gpr_2") (js "default") (num_of_Z 1) false []] in
  duplicateNames rows = [] /\ own (js "vip") (rowObjects rows).2 = Some (VStr (js "VIP")).
Proof.
  intros rows. assert (Hd : duplicateNames rows = []) by (vm_compute; reflexivity). split; [exact Hd|].
  refine (proj2 (proj2 (duplicate_warning_exact rows) Hd (mkRow (js "gpr_1") (js "vip ") (num_of_Z 2) true (js "VIP")) _ _)); [by left|by vm_compute].
Defined.

(** ** Reopening the table *)

(** What a row shows, and what of it the settings keep: the description of a
    group that is not selectable is not stored. *)
Definition rowBody (r : GroupPricingRow) : jstr * number * bool * jstr := (r_name r, r_ratio r, r_selectable r, r_description r).
Definition keptBody (r : GroupPricingRow) : jstr * number * bool * jstr :=
  (r_name r, r_ratio r, r_selectable r, if r_selectable r then r_description r else []).

(** Rows under distinct trimmed names that are not array indices, with ratios
    that JSON can write. *)
Record tidyRows (rows : list GroupPricingRow) : Prop := {
  tidy_distinct : NoDup (map r_name rows);
  tidy_names : Forall (fun r => trim (r_name r) = r_name r /\ r_name r <> [] /\ notIndex (r_name r) = true) rows;
  tidy_ratios : Forall (fun r => plainNumber (r_ratio r) = true) rows }.

Lemma normalizeRatio_plain n : plainNumber n = true -> normalizeRatio (VNum n) = n.
Proof. unfold plainNumber, normalizeRatio. cbn. intros H. by destruct (num_is_finite n). Qed.

Definition ratioObject (rows : list GroupPricingRow) : fields := map (fun r => (r_name r, VNum (r_ratio r))) rows.
Definition usableObject (rows : list GroupPricingRow) : fields := map (fun r => (r_name r, VStr (r_description r))) (List.filter r_selectable rows).

Lemma ratioObject_keys rows : map fst (ratioObject rows) = map r_name rows.
Proof. unfold ratioObject. by rewrite map_map. Qed.
Lemma usableObject_keys rows : map fst (usableObject rows) = map r_name (List.filter r_selectable rows).
Proof. unfold usableObject. by rewrite map_map. Qed.
Lemma usableObject_elem rows k : k ∈ map fst (usableObject rows) <-> exists r, r ∈ rows /\ r_selectable r = true /\ r_name r = k.
Proof.
  rewrite usableObject_keys, list_elem_of_fmap. setoid_rewrite list_elem_of_In. setoid_rewrite List.filter_In. naive_solver.
Qed.

Lemma rowObjects_tidy rows : tidyRows rows -> rowObjects rows = (ratioObject rows, usableObject rows).
Proof.
  induction rows as [|r rows IH] using rev_ind; [done|]. intros [Hd Hn Hr].
  rewrite map_app in Hd. apply NoDup_app in Hd as (Hd & Hfresh & _).
  apply Forall_app in Hn as [Hn [(Ht & Hne & _) _]%Forall_cons]. apply Forall_app in Hr as [Hr [Hp _]%Forall_cons].
  rewrite rowObjects_snoc, IH by done. unfold serializeRow. rewrite Ht.
  assert (Hnew : r_name r ∉ map r_name rows) by (intros H; apply (Hfresh _ H); by left).
  destruct (r_name r) as [|c n] eqn:En; [done|]. cbn [truthy_str negb]. rewrite normalizeRatio_plain by done.
  unfold ratioObject, usableObject. rewrite List.filter_app, !map_app. cbn [map List.filter]. f_equal.
  - rewrite set_prop_new by (by rewrite ratioObject_keys). by rewrite En.
  - destruct (r_selectable r); cbn [map]; [|by rewrite app_nil_r]. rewrite En. apply set_prop_new.
    intros (r' & Hr' & _ & E)%usableObject_elem. apply Hnew. rewrite <- E. apply list_elem_of_fmap. by exists r'.
Qed.

Lemma rowObjects_textual rows : tidyRows rows -> textual (VObj (ratioObject rows)) = true /\ textual (VObj (usableObject rows)) = true.
Proof.
  intros [Hd Hn Hr]. rewrite Forall_forall in Hn, Hr. rewrite !textual_fields, ratioObject_keys, usableObject_keys.
  rewrite !Forall_forall. split_and!; try done.
  - intros k (r & -> & H)%list_elem_of_fmap. by apply Hn.
  - intros p (r & -> & H)%list_elem_of_fmap. by apply Hr.
  - by apply map_filter_NoDup.
  - intros k (r & -> & H)%list_elem_of_fmap. apply list_elem_of_In, List.filter_In in H as [H%list_elem_of_In _]. by apply Hn.
  - by intros p (r & -> & H)%list_elem_of_fmap.
Qed.

Lemma usable_own rows r : NoDup (map r_name rows) -> r ∈ rows ->
  own (r_name r) (usableObject rows) = if r_selectable r then Some (VStr (r_description r)) else None.
Proof.
  intros Hnd Hr. destruct (r_selectable r) eqn:Es.
  - apply own_NoDup; [rewrite usableObject_keys; by apply map_filter_NoDup|]. apply list_elem_of_fmap. exists r. split; [done|].
    apply list_elem_of_In, List.filter_In. split; [by apply list_elem_of_In|done].
  - destruct (own _ _) as [v|] eqn:E; [exfalso|done]. assert (H : is_Some (own (r_name r) (usableObject rows))) by (by rewrite E).
    apply own_elem, usableObject_elem in H as (r' & Hr' & Es' & En). apply list_elem_of_lookup in Hr as [i Hi], Hr' as [j Hj].
    assert (i = j); [|congruence]. eapply (NoDup_lookup _ _ _ (r_name r) Hnd).
    + by rewrite list_lookup_fmap, Hi.
    + by rewrite list_lookup_fmap, Hj, <- En.
Qed.

Lemma buildRows_bodies rm um names c rows c' : buildRows rm um names c = (rows, c') ->
  map rowBody rows = map (fun name => (name, normalizeRatio (get_prop name rm), hasOwn um name, textOfValue (get_prop name um))) names.
Proof.
  revert c rows c'. induction names as [|name names IH]; intros c rows c'; cbn [buildRows]; [by intros [= <- <-]|].
  destruct (createGroupPricingId c) as [id c1]. destruct (buildRows rm um names c1) as [rs c2] eqn:E. intros [= <- <-]. cbn [map]. f_equal. by eapply IH.
Qed.

(** Rows that differ in identifiers and in descriptions of groups that are not
    selectable are written alike. *)
Lemma rowObjects_kept rows rows' : map rowBody rows' = map keptBody rows -> rowObjects rows' = rowObjects rows.
Proof.
  unfold rowObjects. generalize (([], []) : fields * fields). revert rows'.
  induction rows as [|r rows IH]; intros [|r' rows'] acc E; try done. cbn [map] in E. injection E as E1 E2 E3 E4 E.
  cbn [foldl]. rewrite (IH rows' _ E). f_equal. unfold serializeRow. destruct acc. rewrite E1, E2, E3.
  destruct (r_selectable r); [by rewrite E4|done].
Qed.

Lemma reopened_rows rows counter : tidyRows rows ->
  exists rows' counter', buildGroupPricingRows (serializeGroupPricingRows rows).1 (serializeGroupPricingRows rows).2 counter = Some (rows', counter') /\
    map rowBody rows' = map keptBody rows /\
    map r_id rows' = map (fun n => gprId (counter + 1 + Z.of_nat n)) (seq 0 (length rows')) /\ counter' = (counter + Z.of_nat (length rows'))%Z.
Proof.
  intros Htidy. destruct (rowObjects_textual rows Htidy) as [H1 H2]. pose proof Htidy as [Hd Hn Hr].
  unfold serializeGroupPricingRows. rewrite rowObjects_tidy by done. cbn [fst snd]. unfold buildGroupPricingRows.
  rewrite !map_read by done. cbn [mbind option_bind]. destruct (buildRows _ _ _ counter) as [rows' c'] eqn:E. exists rows', c'. split; [done|].
  pose proof (buildRows_ids _ _ _ _ _ _ E) as (Hc & Hid & _). split; [|done].
  apply buildRows_bodies in E as ->. rewrite !textual_keys by done.
  rewrite set_from_app.
  - rewrite ratioObject_keys, map_map. apply map_ext_in. intros r Hin%list_elem_of_In. unfold keptBody, hasOwn.
    rewrite !get_own, usable_own by done. rewrite (own_NoDup (r_name r) (VNum (r_ratio r))).
    + cbn [default from_option id]. rewrite Forall_forall in Hr. rewrite normalizeRatio_plain by (by apply Hr). by destruct (r_selectable r).
    + by rewrite ratioObject_keys.
    + apply list_elem_of_fmap. by exists r.
  - by rewrite ratioObject_keys.
  - intros k (r & Hin & _ & <-)%usableObject_elem. rewrite ratioObject_keys. apply list_elem_of_fmap. by exists r.
Qed.

(** [C13] For a table whose group names are distinct, without blanks around them,
    not empty and not array indices, and whose ratios are numbers that JSON text
    keeps: mounting the table on the two texts it has written shows the same
    groups in the same order with their ratios and boxes and with the
    descriptions of the selectable ones, while the description of a group that is
    not selectable is forgotten. The rows get fresh consecutive identifiers from
    the counter, and the effects after writing the rows and after mounting them
    again keep them as they are. *)
Theorem group_table_reopens rows counter (Htidy : tidyRows rows) (texts := serializeGroupPricingRows rows) :
  exists rows' counter', mountTable texts.1 texts.2 counter = Some (mkTable rows' counter' texts.1 texts.2) /\
    map rowBody rows' = map keptBody rows /\
    map r_id rows' = map (fun n => gprId (counter + 1 + Z.of_nat n)) (seq 0 (length rows')) /\ counter' = (counter + Z.of_nat (length rows'))%Z /\
    forall s, tableEffect (emitRows rows s) = Some (emitRows rows s).
Proof.
  destruct (reopened_rows rows counter Htidy) as (rows' & c' & E & Hb & Hid & Hc). exists rows', c'.
  split; [|split_and!; try done; intros s; apply effect_after_emit].
  unfold mountTable, texts. rewrite E. cbn [mbind option_bind].
  assert (Es : serializeGroupPricingRows rows = serializeGroupPricingRows rows') by (unfold serializeGroupPricingRows; by rewrite (rowObjects_kept rows rows')).
  rewrite Es. exact (effect_after_emit rows' (mkTable [] c' [] [])).
Qed.

Lemma group_table_reopens_witness :
  let rows := [mkRow (js "gpr_4") (js "vip") (num_of_str (js "0.5")) true (js "VIP"); mkRow (js "gpr_2") (js "default") (num_of_Z 1) false (js "old")] in
  exists rows' counter', mountTable (serializeGroupPricingRows rows).1 (serializeGroupPricingRows rows).2 7
      = Some (mkTable rows' counter' (serializeGroupPricingRows rows).1 (serializeGroupPricingRows rows).2) /\
    map rowBody rows' = [(js "vip", num_of_str (js "0.5"), true, js "VIP"); (js "default", num_of_Z 1, false, [])].
Proof.
  intros rows. destruct (group_table_reopens rows 7) as (rows' & c' & H1 & H2 & _).
  - split; [apply (bool_decide_unpack _); vm_compute; exact I|repeat constructor; vm_compute; done..].
  - exists rows', c'. split; [exact H1|exact H2].
Defined.

(** ** Ratios between groups *)

(** The ratio stored for users of [u] on group [t]. *)
Definition override (m : fields) (u t : jstr) : option jsval := match own u m with Some (VObj inner) => own t inner | _ => None end.

Lemma override_set m u inner u' t' : override (set_prop u (VObj inner) m) u' t' = if u' === u then own t' inner else override m u' t'.
Proof. unfold override. rewrite own_set_prop. by destruct (u' === u). Qed.

Lemma innerObject_own m u inner t : innerObject (get_prop u m) = Some inner -> own t inner = override m u t.
Proof.
  unfold innerObject, override. rewrite get_own. destruct (own u m) as [v|]; cbn [default from_option id truthy negb]; [|by intros [= <-]].
  destruct (truthy v) eqn:E; cbn [negb]; [by destruct v as [ | | | | | |fs]; cbn; intros [= <-]|]. intros [= <-]. by destruct v.
Qed.

Lemma overrideSaved_spec u t r old m m' u' t' : overrideSaved u t r old m = Some m' ->
  override m' u' t' = if u' === u then
    (if t' === t then Some (VNum r) else if (old === Some t') && truthy_str t' then None else override m u t')
  else override m u' t'.
Proof.
  unfold overrideSaved. destruct (innerObject _) as [inner|] eqn:Ei; [|done]. cbn [mbind option_bind]. intros [= <-].
  rewrite override_set. destruct (u' === u); [|done]. rewrite own_set_prop. case_bool_decide as Et; [done|].
  rewrite <- (innerObject_own _ _ _ t' Ei). destruct old as [o|]; [|done].
  rewrite (bool_decide_ext (Some o = Some t') (o = t')) by (split; congruence).
  destruct (truthy_str o) eqn:Eo; cbn [andb].
  - case_bool_decide as E1; cbn [negb]; [subst; by rewrite bool_decide_false by congruence|].
    rewrite own_delete_prop, (bool_decide_ext (t' = o) (o = t')) by (split; congruence). case_bool_decide; [subst; by rewrite Eo|done].
  - case_bool_decide; [subst; by rewrite Eo|done].
Qed.

Lemma overrideDeleted_spec u t m m' u' t' : overrideDeleted u t m = Some m' ->
  override m' u' t' = (if (u' === u) && (t' === t) then None else override m u' t') /\
  (forall k, k ∈ map fst m' -> k ∈ map fst m) /\ own u m' <> Some (VObj []).
Proof.
  unfold overrideDeleted. destruct (truthy (get_prop u m)) eqn:Et; cbn [negb].
  2: { intros [= <-]. split_and!; [|done|intros E; by rewrite get_own, E in Et]. case_bool_decide as E; [subst|done]. cbn [andb]. case_bool_decide; [subst|done].
       unfold override. rewrite get_own in Et. by destruct (own u m) as [[]|]. }
  destruct (is_plain_object (get_prop u m)) as [inner|] eqn:Ei; [|done]. cbn [mbind option_bind]. intros [= <-].
  assert (Eo : own u m = Some (VObj inner)) by (rewrite get_own in Ei; by destruct (own u m) as [[]|]; cbn in Ei; simplify_eq).
  assert (Hm : forall t, override m u t = own t inner) by (intros x; unfold override; by rewrite Eo).
  assert (Hu : u ∈ map fst m) by (apply own_elem; by rewrite Eo).
  destruct (length (obj_keys (delete_prop t inner)) =? 0)%nat eqn:El.
  - assert (Hnil : delete_prop t inner = []).
    { apply Nat.eqb_eq in El. unfold obj_keys in El. rewrite length_map, (Permutation_length (entries_perm _)) in El. by apply nil_length_inv. }
    split_and!; [|intros k Hk; apply delete_prop_elem in Hk as [_ Hk]; apply set_prop_elem in Hk as [->|Hk]; done|].
    + unfold override at 1. rewrite own_delete_prop, own_set_prop. case_bool_decide as E; cbn [andb]; [subst|done].
      case_bool_decide as E; [done|]. pose proof (own_delete_prop t' t inner) as H. rewrite Hnil, bool_decide_false in H by done. by rewrite Hm, <- H.
    + by rewrite own_delete_prop, bool_decide_true.
  - split_and!; [|intros k Hk; apply set_prop_elem in Hk as [->|Hk]; done|].
    + rewrite override_set. case_bool_decide as E; cbn [andb]; [subst|done]. rewrite own_delete_prop, Hm. done.
    + rewrite own_set_prop, bool_decide_true by done. intros [= E]. by rewrite E in El.
Qed.

(** The setting of ratios between groups: an object of objects. *)
Record overridesStored (m : fields) : Prop := {
  overrides_textual : textual (VObj m) = true;
  overrides_objects : forall u v, own u m = Some v -> exists inner, v = VObj inner }.

Lemma inner_stored m u : overridesStored m -> exists inner, innerObject (get_prop u m) = Some inner /\ textual (VObj inner) = true.
Proof.
  intros [Ht Ho]. rewrite get_own. destruct (own u m) as [v|] eqn:E; [|by exists []].
  destruct (Ho u v E) as [inner ->]. exists inner. split; [done|]. by eapply textual_own.
Qed.

Lemma overrideSaved_stored m u t r old : overridesStored m -> notIndex u = true -> notIndex t = true -> plainNumber r = true ->
  exists m', overrideSaved u t r old m = Some m' /\ textual (VObj m') = true.
Proof.
  intros Hm Hu Ht Hr. destruct (inner_stored m u Hm) as (inner & Ei & Hi). unfold overrideSaved. rewrite Ei. cbn [mbind option_bind].
  eexists. split; [done|]. apply textual_set; [apply Hm| |done]. apply textual_set; [|done|done].
  destruct old as [o|]; [|done]. destruct (_ && _); [by apply textual_delete|done].
Qed.

Lemma overrideDeleted_stored m u t : overridesStored m -> notIndex u = true ->
  exists m', overrideDeleted u t m = Some m' /\ textual (VObj m') = true.
Proof.
  intros Hm Hu. unfold overrideDeleted. destruct (truthy (get_prop u m)) eqn:Et; cbn [negb]; [|exists m; split; [done|apply Hm]].
  destruct (own u m) as [v|] eqn:Eo; [|by rewrite get_own, Eo in Et]. destruct (overrides_objects m Hm u v Eo) as [inner ->].
  rewrite get_own, Eo. cbn [default from_option id is_plain_object mbind option_bind].
  assert (H : textual (VObj (set_prop u (VObj (delete_prop t inner)) m)) = true).
  { apply textual_set; [apply Hm| |done]. apply textual_delete. by eapply textual_own; [apply Hm|]. }
  eexists. split; [done|]. destruct (_ =? _)%nat; [by apply textual_delete|done].
Qed.

(** Saving an override stores the ratio under its two groups, drops the entry
    it was renamed from and leaves every other override as it was; deleting one
    removes just that entry, and never leaves its user group empty.  Both read
    back from the text they write, and saving closes the dialog. *)
Theorem override_edits_exact e m opened edit u t r old
  (Htext : safeJsonParse (g_groupGroupRatio (e_texts e)) = Some m) (Hm : overridesStored m)
  (Hdialog : e_override e = (opened, Some u, edit)) (Hu : u <> []) (Hiu : notIndex u = true) (Hit : notIndex t = true) (Hr : plainNumber r = true) :
  (exists e' m', handleOverrideSave t r old e = Some e' /\ e_override e' = (false, Some u, edit) /\
     safeJsonParse (g_groupGroupRatio (e_texts e')) = Some m' /\
     forall u' t', override m' u' t' = if u' === u then
       (if t' === t then Some (VNum r) else if (old === Some t') && truthy_str t' then None else override m u t')
     else override m u' t') /\
  (exists e' m', handleOverrideDelete u t e = Some e' /\ safeJsonParse (g_groupGroupRatio (e_texts e')) = Some m' /\
     own u m' <> Some (VObj []) /\
     forall u' t', override m' u' t' = if (u' === u) && (t' === t) then None else override m u' t').
Proof.
  split.
  - destruct (overrideSaved_stored m u t r old) as (m' & Es & Ht'); try done. unfold handleOverrideSave. rewrite Hdialog.
    destruct u as [|c n]; [done|]. cbn [truthy_str negb]. rewrite Htext. cbn [mbind option_bind]. rewrite Es. cbn [mbind option_bind].
    eexists _, m'. split; [done|]. split; [done|]. split; [by apply map_read|]. intros u' t'. by apply overrideSaved_spec.
  - destruct (overrideDeleted_stored m u t) as (m' & Es & Ht'); try done. unfold handleOverrideDelete. rewrite Htext. cbn [mbind option_bind].
    rewrite Es. cbn [mbind option_bind]. eexists _, m'. split; [done|]. split; [by apply map_read|]. split.
    + by apply (overrideDeleted_spec u t m m' u t).
    + intros u' t'. by apply (overrideDeleted_spec u t m m' u' t').
Qed.

Lemma override_edits_exact_witness :
  let texts := mkTexts [] [] [] (jsq "{'vip': {'default': 0.9}}") [] in
  let e := mkEditor texts (false, None, None) (false, []) (true, Some (js "vip"), None) (false, []) in
  exists e' m', handleOverrideDelete (js "vip") (js "default") e = Some e' /\ safeJsonParse (g_groupGroupRatio (e_texts e')) = Some m' /\ own (js "vip") m' <> Some (VObj []).
Proof.
  intros texts e.
  assert (Hp : exists m, safeJsonParse (g_groupGroupRatio (e_texts e)) = Some m /\ overridesStored m).
  { eexists. split; [vm_compute; reflexivity|]. split; [vm_compute; reflexivity|]. intros u v. cbn [own]. case_bool_decide; [|done]. intros [= <-]. by eexists. }
  destruct Hp as (m & Hp & Hm).
  destruct (override_edits_exact e m true None (js "vip") (js "default") (num_of_Z 2) None Hp Hm eq_refl ltac:(done) ltac:(by vm_compute) ltac:(by vm_compute) ltac:(by vm_compute))
    as [_ (e' & m' & H1 & H2 & H3 & _)]. by exists e', m'.
Defined.

(** ** Automatic assignment *)

Lemma list_read l : textual (VArr l) = true -> autoGroupsList (listText l) = Some l.
Proof.
  intros H. unfold listText, json_stringify2. destruct (read_back_textual (js "  ") _ ltac:(by repeat constructor) H) as (t & E & P).
  rewrite E. cbn [default from_option id]. destruct (ser_array_trimmed (js "  ") l) as [w Hw]. rewrite E in Hw. injection Hw as ->.
  assert (Ht : trim (91%N :: w ++ [93%N]) = 91%N :: w ++ [93%N]) by (by apply trimmed_trim, trimmed_ends).
  unfold autoGroupsList, safeParse. rewrite Ht, P. done.
Qed.

Lemma swap_inside i j (l : list jsval) x y : l !! i = Some x -> l !! j = Some y -> swap i j l = <[j := x]> (<[i := y]> l).
Proof.
  intros Hi Hj. unfold swap, arr_set, arr_get. rewrite Hi, Hj. cbn [default from_option id].
  apply lookup_lt_Some in Hi, Hj. rewrite (proj2 (Nat.ltb_lt i _)) by done. rewrite (proj2 (Nat.ltb_lt j _)) by (by rewrite length_insert). done.
Qed.

Lemma swap_lookup i (l : list jsval) x y k : l !! S i = Some x -> l !! i = Some y ->
  swap (S i) i l !! k = if decide (k = i) then Some x else if decide (k = S i) then Some y else l !! k.
Proof.
  intros Hx Hy. rewrite (swap_inside (S i) i l x y) by done. pose proof (lookup_lt_Some _ _ _ Hx). pose proof (lookup_lt_Some _ _ _ Hy).
  repeat case_decide; subst.
  - rewrite list_lookup_insert_eq; [done|]. by rewrite length_insert.
  - rewrite list_lookup_insert_ne, list_lookup_insert_eq by lia. done.
  - by rewrite !list_lookup_insert_ne by done.
Qed.

Lemma swap_back i (l : list jsval) x y : l !! S i = Some x -> l !! i = Some y -> swap i (S i) (swap (S i) i l) = l.
Proof.
  intros Hx Hy. pose proof (swap_lookup i l x y) as Hs.
  rewrite (swap_inside i (S i) _ x y).
  2,3: rewrite Hs by done; repeat case_decide; done || lia.
  rewrite (swap_inside (S i) i l x y) by done. rewrite list_insert_insert_eq, (list_insert_insert_ne _ (S i) i), list_insert_insert_eq by lia.
  rewrite (list_insert_id l (S i)) by done. by apply list_insert_id.
Qed.

Lemma swap_textual i j (l : list jsval) x y : l !! i = Some x -> l !! j = Some y -> textual (VArr l) = true -> textual (VArr (swap i j l)) = true.
Proof.
  intros Hi Hj. rewrite (swap_inside i j l x y) by done. cbn [textual]. rewrite !forallb_forall, <- !List.Forall_forall. intros H.
  rewrite Forall_lookup in H. apply Forall_insert; [apply Forall_insert|]; [by apply Forall_lookup|by eapply H|by eapply H].
Qed.

(** Moving a group up swaps it with the one above and nothing else, as read
    back from the stored order, and moving it down again restores the order;
    at either end of the list a move changes nothing. *)
Theorem auto_order_moves e l i x y
  (Htext : autoGroupsList (g_autoGroups (e_texts e)) = Some l) (Hl : textual (VArr l) = true) (Hx : l !! S i = Some x) (Hy : l !! i = Some y) :
  (exists e1 l1 e2, handleAutoGroupMove (S i) Up e = Some e1 /\ autoGroupsList (g_autoGroups (e_texts e1)) = Some l1 /\
     (forall k, l1 !! k = if decide (k = i) then Some x else if decide (k = S i) then Some y else l !! k) /\
     handleAutoGroupMove i Down e1 = Some e2 /\ autoGroupsList (g_autoGroups (e_texts e2)) = Some l) /\
  handleAutoGroupMove 0 Up e = Some e /\ handleAutoGroupMove (length l - 1) Down e = Some e.
Proof.
  assert (Hlen : (S i < length l)%nat) by (by eapply lookup_lt_Some). unfold handleAutoGroupMove. rewrite Htext. cbn [mbind option_bind]. split_and!.
  - replace (Z.of_nat (S i) - 1)%Z with (Z.of_nat i) by lia. rewrite (proj2 (Z.ltb_ge _ _)), (proj2 (Z.leb_gt _ _)) by lia. cbn [orb]. rewrite Nat2Z.id.
    eexists _, (swap (S i) i l), _. split; [done|]. cbn [setAutoList withTexts e_texts setAuto g_autoGroups].
    pose proof (swap_textual (S i) i l x y Hx Hy Hl) as Hs. rewrite !list_read by done. split; [done|]. split; [intros k; by apply swap_lookup|].
    cbn [mbind option_bind]. assert (Hsl : length (swap (S i) i l) = length l) by (rewrite (swap_inside _ _ _ x y) by done; by rewrite !length_insert).
    replace (Z.of_nat i + 1)%Z with (Z.of_nat (S i)) by lia. rewrite Hsl, (proj2 (Z.ltb_ge _ _)), (proj2 (Z.leb_gt _ _)) by lia. cbn [orb]. rewrite Nat2Z.id.
    split; [done|]. cbn [setAutoList withTexts e_texts setAuto g_autoGroups]. rewrite (swap_back i l x y) by done. by apply list_read.
  - by rewrite (proj2 (Z.ltb_lt _ _)) by lia.
  - rewrite (proj2 (Z.leb_le _ _)) by lia. by rewrite orb_true_r.
Qed.

Lemma auto_order_moves_witness :
  let e := mkEditor (mkTexts [] [] [] [] (jsq "['default', 'vip']")) (false, None, None) (false, []) (false, None, None) (false, []) in
  exists e1 l1, handleAutoGroupMove 1 Up e = Some e1 /\ autoGroupsList (g_autoGroups (e_texts e1)) = Some l1 /\ l1 !! 0%nat = Some (VStr (js "vip")).
Proof.
  intros e.
  destruct (auto_order_moves e [VStr (js "default"); VStr (js "vip")] 0 (VStr (js "vip")) (VStr (js "default"))
    ltac:(vm_compute; reflexivity) ltac:(vm_compute; reflexivity) eq_refl eq_refl) as [(e1 & l1 & e2 & H1 & H2 & H3 & _) _].
  exists e1, l1. split_and!; [exact H1|exact H2|by rewrite H3].
Defined.

(** ** Top-up ratios *)

(** Saving a top-up ratio lists the group with the number that its text starts
    with, and leaves the other groups as they were. *)
Theorem topup_ratio_listed e m opened edit name value
  (Htext : safeJsonParse (g_topupGroupRatio (e_texts e)) = Some m) (Hm : textual (VObj m) = true)
  (Hdialog : e_simple e = (opened, Some TopupField, edit)) (Hname : notIndex name = true) (Hvalue : plainNumber (parse_float value) = true) :
  exists e' m', handleSimpleSave name value e = Some e' /\ e_simple e' = (false, Some TopupField, edit) /\
    topupRatioList (g_topupGroupRatio (e_texts e')) = Some (map (fun p => mkSimple p.1 (js_String p.2)) m') /\
    forall k, own k m' = if k === name then Some (VNum (parse_float value)) else if (sg_name <$> edit) === Some k then None else own k m.
Proof.
  set (m1 := match edit with Some g => if negb (sg_name g === name) then delete_prop (sg_name g) m else m | None => m end).
  assert (Hm1 : textual (VObj m1) = true) by (unfold m1; destruct edit as [g|]; [destruct (negb _); [by apply textual_delete|done]|done]).
  assert (Hm2 : textual (VObj (set_prop name (VNum (parse_float value)) m1)) = true) by (by apply textual_set).
  exists (withSimple (false, Some TopupField, edit) (withTexts (setRatioText TopupField (mapText (simpleSaved edit name value m)) (e_texts e)) e)), (simpleSaved edit name value m).
  split_and!.
  - unfold handleSimpleSave. rewrite Hdialog. cbn [ratioText]. rewrite Htext. done.
  - done.
  - cbn [withSimple withTexts e_texts setRatioText g_topupGroupRatio]. unfold topupRatioList. unfold simpleSaved. cbv zeta. fold m1.
    rewrite map_read by done. cbn [mbind option_bind]. by rewrite textual_entries.
  - intros k. unfold simpleSaved. cbv zeta. rewrite own_set_prop. case_bool_decide as Ek; [done|]. destruct edit as [g|]; [|done]. cbn [fmap option_fmap option_map].
    rewrite (bool_decide_ext (Some (sg_name g) = Some k) (k = sg_name g)) by (split; congruence).
    case_bool_decide as Eg; cbn [negb]; [|by rewrite own_delete_prop]. by rewrite bool_decide_false by congruence.
Qed.

Lemma topup_ratio_listed_witness :
  let e := mkEditor (mkTexts [] (jsq "{'default': 1}") [] [] []) (true, Some TopupField, None) (false, []) (false, None, None) (false, []) in
  exists e' m', handleSimpleSave (js "vip") (js "1.5x") e = Some e' /\ topupRatioList (g_topupGroupRatio (e_texts e')) = Some (map (fun p => mkSimple p.1 (js_String p.2)) m') /\
    own (js "vip") m' = Some (VNum (parse_float (js "1.5"))).
Proof.
  intros e.
  destruct (topup_ratio_listed e [(js "default", VNum (num_of_Z 1))] true None (js "vip") (js "1.5x")
    ltac:(vm_compute; reflexivity) ltac:(vm_compute; reflexivity) eq_refl ltac:(vm_compute; reflexivity) ltac:(vm_compute; reflexivity))
    as (e' & m' & H1 & _ & H3 & H4).
  exists e', m'. split_and!; [exact H1|exact H3|]. rewrite H4. reflexivity.
Defined.

(** ** Two surprises *)

(** The dialog accepts a ratio too large for a number, and the setting then
    holds [null] for the group. *)
Example huge_ratio_stored_null :
  let typed := simpleValueInput (js "1e999") (mkSimpleDialog (js "vip") []) in
  let e := mkEditor (mkTexts [] (js "{}") [] [] []) (true, Some TopupField, None) (false, []) (false, None, None) (false, []) in
  simpleDialogSave typed = Some (js "vip", js "1e999") /\
  (e' ← handleSimpleSave (js "vip") (js "1e999") e; safeJsonParse (g_topupGroupRatio (e_texts e'))) = Some [(js "vip", VNull)].
Proof. vm_compute. done. Qed.

(** The new name of [addRow] is compared with untrimmed names: a row called
    [group_1] with a blank before it gets a second row of the same saved name,
    and the ratio of the first is overwritten. *)
Example added_row_overwrites_ratio :
  let s := mkTable [mkRow (js "gpr_1") (js " group_1") (num_of_Z 3) true []] 1 [] [] in
  exists s', tableStep AddRow s = Some s' /\ duplicateNames (t_rows s') = [js "group_1"] /\
    own (js "group_1") (rowObjects (t_rows s)).1 = Some (VNum (num_of_Z 3)) /\
    own (js "group_1") (rowObjects (t_rows s')).1 = Some (VNum (num_of_Z 1)).
Proof. eexists. split_and!; vm_compute; reflexivity. Qed.
