(* ===== verification/GroupRules.v ===== *)
(** * Special usable groups (group-special-usable-editor.tsx)

    One setting says, for each user group, which groups its users may select
    in addition or not at all.  It is the JSON text of an object of objects whose
    keys carry the operation as a prefix: [+:] adds a group, [-:] removes one,
    and a key without prefix appends one.  This file models the editor that
    shows the setting as a list of rules, and proves what it keeps and saves. *)
From stdpp Require Import prelude list strings.
From S2P Require Import Prelude JsString JsNumber JsValue JsMap JsonText.
Open Scope js_scope.

Inductive OpType := OP_ADD | OP_REMOVE | OP_APPEND.
#[export] Instance OpType_dec : EqDecision OpType.
Proof. solve_decision. Defined.

Record Rule := mkRule { r_id : jstr; r_userGroup : jstr; r_op : OpType; r_targetGroup : jstr; r_description : jstr }.

(** The identifier, and the counter after it. *)
Definition uid (counter : Z) : jstr * Z := (js "gsu_" ++ print_nat_dec (counter + 1), counter + 1)%Z.

Definition parsePrefix (rawKey : jstr) : OpType * jstr :=
  if starts_with (js "+:") rawKey then (OP_ADD, drop 2 rawKey)
  else if starts_with (js "-:") rawKey then (OP_REMOVE, drop 2 rawKey)
  else (OP_APPEND, rawKey).

Definition toRawKey (op : OpType) (groupName : jstr) : jstr :=
  match op with OP_ADD => js "+:" ++ groupName | OP_REMOVE => js "-:" ++ groupName | OP_APPEND => groupName end.

Definition safeParseJson (str : jstr) : jsval :=
  if negb (truthy_str str) || negb (truthy_str (trim str)) then VObj [] else default (VObj []) (json_parse str).

(** [Object.entries(v)]: an array or a string has its positions as keys. *)
Definition positions {A} (f : A -> jsval) (xs : list A) : fields :=
  map (fun p => (print_nat_dec (Z.of_nat p.1), f p.2)) (zip (seq 0 (length xs)) xs).
Definition objectEntries (v : jsval) : outcome fields :=
  match v with
  | VUndef | VNull => Throw
  | VObj fs => Ret (entries fs)
  | VArr xs => Ret (positions (fun x => x) xs)
  | VStr s => Ret (positions (fun c => VStr [c]) s)
  | VBool _ | VNum _ => Ret []
  end.

(** The entries of an inner value; one that is not an object is skipped. *)
Definition innerEntries (inner : jsval) : fields :=
  match inner with VObj fs => entries fs | VArr xs => positions (fun x => x) xs | _ => [] end.

Definition flattenRule (userGroup : jstr) (e : jstr * jsval) (id : jstr) : Rule :=
  let '(op, groupName) := parsePrefix e.1 in
  mkRule id userGroup op groupName (if op === OP_REMOVE then js "remove" else match e.2 with VStr desc => desc | _ => [] end).

Fixpoint flattenInner (userGroup : jstr) (es : fields) (counter : Z) : list Rule * Z :=
  match es with
  | [] => ([], counter)
  | e :: es' =>
      let '(id, counter1) := uid counter in
      let '(rules, counter2) := flattenInner userGroup es' counter1 in
      (flattenRule userGroup e id :: rules, counter2)
  end.
Fixpoint flattenOuter (nested : fields) (counter : Z) : list Rule * Z :=
  match nested with
  | [] => ([], counter)
  | (userGroup, inner) :: nested' =>
      let '(rules, counter1) := flattenInner userGroup (innerEntries inner) counter in
      let '(rest, counter2) := flattenOuter nested' counter1 in
      (rules ++ rest, counter2)
  end.
Definition flattenRules (nested : jsval) (counter : Z) : outcome (list Rule * Z) :=
  es <-- objectEntries nested ;; Ret (flattenOuter es counter).

Definition innerFields (v : jsval) : fields := match v with VObj fs => fs | _ => [] end.
Definition nestRule (result : fields) (r : Rule) : fields :=
  if negb (truthy_str (r_userGroup r)) || negb (truthy_str (r_targetGroup r)) then result
  else set_prop (r_userGroup r)
         (VObj (set_prop (toRawKey (r_op r) (r_targetGroup r)) (VStr (r_description r)) (innerFields (get_prop (r_userGroup r) result)))) result.
Definition nestRules (rules : list Rule) : fields := foldl nestRule [] rules.

Definition serializeRules (rules : list Rule) : jstr :=
  let nested := nestRules rules in
  if (length (obj_keys nested) =? 0)%nat then js "{}" else default [] (json_stringify2 (VObj nested)).

(** ** The editor *)

Record RulesEditor := mkRulesEditor { s_rules : list Rule; s_counter : Z; s_newGroupName : jstr; s_value : jstr }.

(** The state of the first render. *)
Definition mountRules (value : jstr) (counter : Z) : outcome RulesEditor :=
  flat <-- flattenRules (safeParseJson value) counter ;; Ret (mkRulesEditor flat.1 flat.2 [] value).

Definition emitChange (newRules : list Rule) (s : RulesEditor) : RulesEditor :=
  mkRulesEditor newRules (s_counter s) (s_newGroupName s) (serializeRules newRules).

(** The fields of a rule that have an input. *)
Inductive RuleChange := SetOp (op : OpType) | SetTargetGroup (v : jstr) | SetDescription (v : jstr).
Definition changeRule (c : RuleChange) (r : Rule) : Rule :=
  match c with
  | SetOp op =>
      let description := if op === OP_REMOVE then js "remove"
                         else if (r_op r === OP_REMOVE) && (r_description r === js "remove") then [] else r_description r in
      mkRule (r_id r) (r_userGroup r) op (r_targetGroup r) description
  | SetTargetGroup v => mkRule (r_id r) (r_userGroup r) (r_op r) v (r_description r)
  | SetDescription v => mkRule (r_id r) (r_userGroup r) (r_op r) (r_targetGroup r) v
  end.
Definition updateRule (id : jstr) (c : RuleChange) (s : RulesEditor) : RulesEditor :=
  emitChange (map (fun r => if r_id r === id then changeRule c r else r) (s_rules s)) s.
Definition removeRule (id : jstr) (s : RulesEditor) : RulesEditor := emitChange (List.filter (fun r => negb (r_id r === id)) (s_rules s)) s.
Definition removeGroup (groupName : jstr) (s : RulesEditor) : RulesEditor :=
  emitChange (List.filter (fun r => negb (r_userGroup r === groupName)) (s_rules s)) s.
Definition addRuleToGroup (groupName : jstr) (s : RulesEditor) : RulesEditor :=
  let '(id, counter) := uid (s_counter s) in
  emitChange (s_rules s ++ [mkRule id groupName OP_APPEND [] []]) (mkRulesEditor (s_rules s) counter (s_newGroupName s) (s_value s)).
Definition setNewGroupName (v : jstr) (s : RulesEditor) : RulesEditor := mkRulesEditor (s_rules s) (s_counter s) v (s_value s).
Definition addNewGroup (s : RulesEditor) : RulesEditor :=
  let name := trim (s_newGroupName s) in
  if negb (truthy_str name) then s else setNewGroupName [] (addRuleToGroup name s).

(** The groups as they are shown. *)
Definition grouped (rules : list Rule) : list (jstr * list Rule) :=
  accumulate r_userGroup (fun _ => []) (fun r items => items ++ [r]) [] (List.filter (fun r => truthy_str (r_userGroup r)) rules).

Inductive RulesEvent :=
| UpdateRule (id : jstr) (c : RuleChange) | RemoveRule (id : jstr) | RemoveGroup (groupName : jstr) | AddRule (groupName : jstr)
| TypeGroupName (v : jstr) | AddNewGroup.
Definition rulesStep (e : RulesEvent) (s : RulesEditor) : RulesEditor :=
  match e with
  | UpdateRule id c => updateRule id c s
  | RemoveRule id => removeRule id s
  | RemoveGroup g => removeGroup g s
  | AddRule g => addRuleToGroup g s
  | TypeGroupName v => setNewGroupName v s
  | AddNewGroup => addNewGroup s
  end.

(** The description input is not shown for a rule that removes a group. *)
Definition offered (e : RulesEvent) (s : RulesEditor) : Prop :=
  match e with
  | UpdateRule id (SetDescription _) => exists r, r ∈ s_rules s /\ r_id r = id /\ r_op r <> OP_REMOVE
  | _ => True
  end.

Inductive rulesReach : RulesEditor -> Prop :=
| rules_mount value counter s : (0 <= counter)%Z -> mountRules value counter = Ret s -> rulesReach s
| rules_step e s : rulesReach s -> offered e s -> rulesReach (rulesStep e s).

(** ** Identifiers and descriptions *)

Definition gsuId (k : Z) : jstr := (uid (k - 1)).1.

Lemma uid_gsuId c : uid c = (gsuId (c + 1), c + 1)%Z.
Proof. unfold gsuId, uid. cbn [fst]. by replace (c + 1 - 1 + 1)%Z with (c + 1)%Z by lia. Qed.

Lemma gsuId_inj a b : (0 < a)%Z -> (0 < b)%Z -> gsuId a = gsuId b -> a = b.
Proof.
  unfold gsuId, uid. cbn [fst]. rewrite !Z.sub_add. intros Ha Hb E%app_inv_head. apply print_nat_dec_inj in E; lia.
Qed.

(** A rule that removes a group has the description [remove]. *)
Definition marked (r : Rule) : Prop := r_op r = OP_REMOVE -> r_description r = js "remove".

Lemma flattenRule_marked g e id : marked (flattenRule g e id).
Proof. unfold flattenRule, marked. destruct (parsePrefix e.1) as [op name]. cbn. intros ->. by rewrite bool_decide_true. Qed.

Lemma flattenRule_id g e id : r_id (flattenRule g e id) = id.
Proof. unfold flattenRule. by destruct (parsePrefix e.1). Qed.

Lemma flattenInner_ids g es c rules c' : flattenInner g es c = (rules, c') ->
  c' = (c + Z.of_nat (length rules))%Z /\ map r_id rules = map (fun n => gsuId (c + 1 + Z.of_nat n)) (seq 0 (length rules)) /\ Forall marked rules.
Proof.
  revert c rules c'. induction es as [|e es IH]; intros c rules c'; cbn [flattenInner]; [intros [= <- <-]; split; [cbn; lia|done]|].
  rewrite uid_gsuId. destruct (flattenInner g es (c + 1)) as [rs c2] eqn:E. intros [= <- <-]. apply IH in E as (-> & Hid & Hm).
  split; [cbn [length]; lia|]. split; [apply numbered_cons; [apply flattenRule_id|done]|]. constructor; [apply flattenRule_marked|done].
Qed.

Lemma flattenOuter_ids nested c rules c' : flattenOuter nested c = (rules, c') ->
  c' = (c + Z.of_nat (length rules))%Z /\ map r_id rules = map (fun n => gsuId (c + 1 + Z.of_nat n)) (seq 0 (length rules)) /\ Forall marked rules.
Proof.
  revert c rules c'. induction nested as [|[g inner] nested IH]; intros c rules c'; cbn [flattenOuter]; [intros [= <- <-]; split; [cbn; lia|done]|].
  destruct (flattenInner g (innerEntries inner) c) as [rs c1] eqn:E1. destruct (flattenOuter nested c1) as [rest c2] eqn:E2. intros [= <- <-].
  apply flattenInner_ids in E1 as (-> & H1 & M1). apply IH in E2 as (-> & H2 & M2). rewrite length_app.
  split; [lia|]. split; [|by apply Forall_app]. rewrite map_app, H1, H2, seq_app, map_app. f_equal. cbn [plus].
  replace (seq (length rs) (length rest)) with (map (Nat.add (length rs)) (seq 0 (length rest))).
  - rewrite map_map. apply map_ext. intros n. f_equal. lia.
  - etransitivity; [apply fmap_add_seq|]. by rewrite Nat.add_0_r.
Qed.

(** The editor as its handlers keep it. *)
Record kept (s : RulesEditor) : Prop := {
  kept_counter : (0 <= s_counter s)%Z;
  kept_ids : issued r_id gsuId (s_counter s) (s_rules s);
  kept_marks : Forall marked (s_rules s) }.

Lemma mount_kept value c s : (0 <= c)%Z -> mountRules value c = Ret s -> kept s.
Proof.
  intros Hc. unfold mountRules, flattenRules. destruct (objectEntries _) as [es|]; [|done]. cbn [obind].
  destruct (flattenOuter es c) as [rules c'] eqn:E. intros [= <-]. apply flattenOuter_ids in E as (-> & Hid & Hm).
  split; [cbn; lia|by apply (issued_numbered _ _ gsuId_inj)|done].
Qed.

Lemma changeRule_id c r : r_id (changeRule c r) = r_id r.
Proof. by destruct c. Qed.

Lemma changeRule_marked c r : marked r -> (forall v, c = SetDescription v -> r_op r <> OP_REMOVE) -> marked (changeRule c r).
Proof.
  unfold marked. destruct c as [op|v|v]; cbn [changeRule r_op r_description]; intros Hm Hc; [|done|].
  - intros ->. by rewrite bool_decide_true.
  - intros E. by destruct (Hc v).
Qed.

Lemma kept_filter s p : kept s -> kept (emitChange (List.filter p (s_rules s)) s).
Proof.
  intros [Hc Hid Hm]. split; [done|by apply issued_filter|]. rewrite Forall_forall in *. intros r Hr.
  apply list_elem_of_In, List.filter_In in Hr as [Hr%list_elem_of_In _]. by apply Hm.
Qed.

Lemma kept_add g s : kept s -> kept (addRuleToGroup g s).
Proof.
  intros [Hc Hid Hm]. unfold addRuleToGroup. rewrite uid_gsuId. split; [cbn; lia|by apply (issued_snoc _ _ gsuId_inj)|].
  apply Forall_app. split; [done|]. by repeat constructor.
Qed.

Lemma kept_update id c s : kept s -> offered (UpdateRule id c) s -> kept (updateRule id c s).
Proof.
  intros [Hc Hid Hm] Ho. split; [done|..].
  - apply issued_change; [|done]. intros r. destruct (_ === _); [apply changeRule_id|done].
  - rewrite Forall_forall in *. intros r' (r & -> & Hr)%list_elem_of_fmap. case_bool_decide as E; [|by apply Hm].
    apply changeRule_marked; [by apply Hm|]. intros v ->. destruct Ho as (r0 & Hr0 & E0 & Hop).
    assert (r = r0) as ->; [|done]. apply list_elem_of_lookup in Hr as [i Hi], Hr0 as [j Hj].
    assert (i = j) as <-; [|congruence]. apply (NoDup_lookup _ i j id (issued_distinct _ _ _ _ Hid)).
    + by rewrite list_lookup_fmap, Hi, <- E.
    + by rewrite list_lookup_fmap, Hj, <- E0.
Qed.

Lemma step_kept e s : kept s -> offered e s -> kept (rulesStep e s).
Proof.
  intros Hs Ho. destruct e; cbn [rulesStep]; [by apply kept_update|by apply kept_filter|by apply kept_filter|by apply kept_add| |].
  - by destruct Hs.
  - unfold addNewGroup. destruct (negb _); [done|]. by destruct (kept_add (trim (s_newGroupName s)) s Hs).
Qed.

Lemma reach_kept s : rulesReach s -> kept s.
Proof. induction 1; [by eapply mount_kept|by apply step_kept]. Qed.

(** In every state of the editor a rule is addressed by its identifier alone:
    an input changes that rule, the bin removes that rule, and the text of the
    setting is the text of the rules.  A rule that removes a group always has
    the description that marks it, whatever was edited before. *)
Theorem rule_edits_address_one s (Hreach : rulesReach s) :
  (forall i r c, s_rules s !! i = Some r ->
     updateRule (r_id r) c s = emitChange (<[i := changeRule c r]> (s_rules s)) s /\
     removeRule (r_id r) s = emitChange (delete i (s_rules s)) s) /\
  (forall g, s_rules (addRuleToGroup g s) = s_rules s ++ [mkRule (gsuId (s_counter s + 1)) g OP_APPEND [] []] /\
     gsuId (s_counter s + 1) ∉ map r_id (s_rules s)) /\
  (forall r, r ∈ s_rules s -> r_op r = OP_REMOVE -> r_description r = js "remove").
Proof.
  destruct (reach_kept s Hreach) as [Hc Hid Hm]. pose proof (issued_distinct _ _ _ _ Hid) as Hnd. split_and!.
  - intros i r c Hi. unfold updateRule, removeRule. by rewrite (change_addressed r_id (changeRule c) _ i r), (remove_addressed r_id _ i r).
  - intros g. unfold addRuleToGroup. rewrite uid_gsuId. split; [done|]. apply (issued_fresh _ _ gsuId_inj (s_counter s)); [done|done|lia].
  - rewrite Forall_forall in Hm. exact Hm.
Qed.

Lemma rule_edits_address_one_witness :
  exists s, mountRules (jsq "{'vip': {'-:free': 'x', 'pro': 'Pro'}}") 0 = Ret s /\
    forall r, r ∈ s_rules s -> r_op r = OP_REMOVE -> r_description r = js "remove".
Proof.
  eexists. split; [vm_compute; reflexivity|].
  match goal with |- context [s_rules ?t] => assert (Hr : rulesReach t) end.
  { eapply (rules_mount (jsq "{'vip': {'-:free': 'x', 'pro': 'Pro'}}") 0); [lia|vm_compute; reflexivity]. }
  exact (proj2 (proj2 (rule_edits_address_one _ Hr))).
Defined.

(** ** Saving and opening again *)

(** What a rule shows. *)
Definition ruleBody (r : Rule) : jstr * OpType * jstr * jstr := (r_userGroup r, r_op r, r_targetGroup r, r_description r).
Definition rawKey (r : Rule) : jstr := toRawKey (r_op r) (r_targetGroup r).

(** An appended group whose name starts like a prefix is read as that prefix. *)
Definition plainTarget (op : OpType) (name : jstr) : bool :=
  match op with OP_APPEND => negb (starts_with (js "+:") name) && negb (starts_with (js "-:") name) | _ => true end.

Lemma prefix_round op name : plainTarget op name = true -> parsePrefix (toRawKey op name) = (op, name).
Proof. unfold parsePrefix. destruct op; cbn [toRawKey plainTarget]; [done|done|]. intros H. bool_hyps. by repeat case_match. Qed.

(** Complete rules: both names present, no two of the same group and key. *)
Record tidyRules (rules : list Rule) : Prop := {
  rules_distinct : NoDup (map (fun r => (r_userGroup r, rawKey r)) rules);
  rules_complete : Forall (fun r => r_userGroup r <> [] /\ r_targetGroup r <> [] /\ notIndex (r_userGroup r) = true /\ notIndex (rawKey r) = true) rules;
  rules_plain : Forall (fun r => plainTarget (r_op r) (r_targetGroup r) = true) rules;
  rules_marked : Forall marked rules }.

Section Groups.
Context (rules : list Rule).
Hypothesis named : Forall (fun r => r_userGroup r <> []) rules.

Lemma grouped_all : grouped rules = accumulate r_userGroup (fun _ => []) (fun r items => items ++ [r]) [] rules.
Proof.
  unfold grouped. f_equal. clear -named. induction rules as [|r l IH]; [done|]. apply Forall_cons in named as [Hr Hl].
  cbn. rewrite (proj2 (truthy_str_spec _)) by done. f_equal. by apply IH.
Qed.

Lemma foldl_snoc_list (acc l : list Rule) : foldl (fun items r => items ++ [r]) acc l = acc ++ l.
Proof. revert acc. induction l as [|r l IH]; intros acc; cbn; [by rewrite app_nil_r|]. by rewrite IH, <- app_assoc. Qed.

Lemma grouped_get u : mget u (grouped rules) =
  match List.filter (fun r => r_userGroup r === u) rules with [] => None | l => Some l end.
Proof.
  rewrite grouped_all, accumulate_get. destruct (List.filter _ rules) as [|r l]; [done|]. f_equal.
  exact (foldl_snoc_list [r] l).
Qed.

Lemma grouped_keys : NoDup (mkeys (grouped rules)).
Proof. rewrite grouped_all. apply accumulate_NoDup. constructor. Qed.

Lemma grouped_items u items : (u, items) ∈ grouped rules ->
  items = List.filter (fun r => r_userGroup r === u) rules /\ exists r, r ∈ rules /\ r_userGroup r = u.
Proof.
  intros H%(mget_NoDup _ _ _ grouped_keys). rewrite grouped_get in H. destruct (List.filter _ rules) as [|r l] eqn:E; [done|].
  injection H as <-. split; [done|]. exists r. assert (Hr : r ∈ List.filter (fun r => r_userGroup r === u) rules) by (rewrite E; by left).
  apply list_elem_of_In, List.filter_In in Hr as [Hr%list_elem_of_In Eu]. by apply bool_decide_eq_true in Eu.
Qed.
End Groups.

(** The object of one group's rules, and of all groups. *)
Definition itemsObject (items : list Rule) : fields := map (fun r => (rawKey r, VStr (r_description r))) items.
Definition groupsObject (groups : list (jstr * list Rule)) : fields := map (fun g => (g.1, VObj (itemsObject g.2))) groups.

Lemma groupsObject_set u items groups : set_prop u (VObj (itemsObject items)) (groupsObject groups) = groupsObject (mset u items groups).
Proof.
  induction groups as [|[u' items'] groups IH]; [done|]. change (mset u items ((u', items') :: groups)) with
    (if u === u' then (u, items) :: groups else (u', items') :: mset u items groups).
  cbn [groupsObject map set_prop fst snd]. case_bool_decide; [by subst|]. cbn [groupsObject map fst snd]. f_equal. apply IH.
Qed.
Lemma groupsObject_get u groups : innerFields (get_prop u (groupsObject groups)) = itemsObject (default [] (mget u groups)).
Proof.
  induction groups as [|[u' items'] groups IH]; [done|]. rewrite mget_cons. cbn [groupsObject map get_prop fst snd]. case_bool_decide; [done|exact IH].
Qed.

Lemma tidy_named rules : tidyRules rules -> Forall (fun r => r_userGroup r <> []) rules.
Proof. intros H. eapply Forall_impl; [apply rules_complete; done|]. by intros r (? & _). Qed.

(** The object that is saved is the shown groups. *)
Lemma nestRules_grouped rules : tidyRules rules -> nestRules rules = groupsObject (grouped rules).
Proof.
  induction rules as [|r rules IH] using rev_ind; [done|]. intros H. pose proof (tidy_named _ H) as Hn. destruct H as [Hd Hc Hp Hm].
  rewrite map_app in Hd. apply NoDup_app in Hd as (Hd & Hf & _). apply Forall_app in Hc as [Hc [(Hu & Ht & _) _]%Forall_cons].
  apply Forall_app in Hp as [Hp _]. apply Forall_app in Hm as [Hm _]. pose proof (Forall_app (fun r => r_userGroup r <> []) rules [r]) as [Hsplit _].
  destruct (Hsplit Hn) as [Hn' _]. unfold nestRules. rewrite foldl_snoc. fold (nestRules rules). rewrite IH by done. unfold nestRule.
  rewrite !(proj2 (truthy_str_spec _)) by done. cbn [negb orb]. rewrite groupsObject_get.
  fold (rawKey r). rewrite (set_prop_new (rawKey r)).
  - rewrite (grouped_all _ Hn). unfold accumulate. rewrite foldl_snoc. fold (accumulate r_userGroup (fun _ => []) (fun r items => items ++ [r]) [] rules).
    rewrite <- (grouped_all _ Hn'). unfold acc_add, upsert. rewrite <- groupsObject_set. unfold itemsObject. rewrite map_app. reflexivity.
  - intros Hk. apply (Hf (r_userGroup r, rawKey r)); [|by left]. unfold itemsObject in Hk. rewrite map_map in Hk. cbn [fst] in Hk.
    apply list_elem_of_fmap in Hk as (r' & E & Hr'). apply list_elem_of_fmap. exists r'.
    rewrite grouped_get in Hr' by done. destruct (List.filter _ rules) as [|x l] eqn:Ef; [by apply elem_of_nil in Hr'|]. cbn [default from_option id] in Hr'.
    rewrite <- Ef in Hr'. apply list_elem_of_In, List.filter_In in Hr' as [Hr'%list_elem_of_In Eu]. apply bool_decide_eq_true in Eu. split; [congruence|done].
Qed.

Lemma flattenInner_bodies u items c rules c' : Forall (fun r => r_userGroup r = u /\ plainTarget (r_op r) (r_targetGroup r) = true /\ marked r) items ->
  flattenInner u (itemsObject items) c = (rules, c') -> map ruleBody rules = map ruleBody items.
Proof.
  intros H. revert c rules c'. induction H as [|r items (Eu & Hp & Hm) _ IH]; intros c rules c'; cbn [itemsObject map flattenInner]; [by intros [= <- <-]|].
  destruct (uid c) as [id c1]. destruct (flattenInner u _ c1) as [rs c2] eqn:E. intros [= <- <-]. cbn [map]. f_equal; [|by eapply IH].
  unfold flattenRule, ruleBody, rawKey. cbn [fst snd]. rewrite prefix_round by done. cbn. rewrite Eu. f_equal.
  case_bool_decide as Er; [by rewrite Hm|done].
Qed.

Lemma flattenOuter_bodies groups c rules c' :
  Forall (fun g => Forall (fun r => r_userGroup r = g.1 /\ plainTarget (r_op r) (r_targetGroup r) = true /\ marked r) g.2 /\
                   innerEntries (VObj (itemsObject g.2)) = itemsObject g.2) groups ->
  flattenOuter (groupsObject groups) c = (rules, c') -> map ruleBody rules = map ruleBody (concat (map snd groups)).
Proof.
  intros H. revert c rules c'. induction H as [|[u items] groups [Hi Ee] _ IH]; intros c rules c'; cbn [groupsObject map flattenOuter]; [by intros [= <- <-]|].
  cbn [fst snd] in *. rewrite Ee. destruct (flattenInner u (itemsObject items) c) as [rs c1] eqn:E1. fold (groupsObject groups).
  destruct (flattenOuter (groupsObject groups) c1) as [rest c2] eqn:E2. intros [= <- <-]. cbn [concat]. rewrite !map_app. f_equal; [|by eapply IH].
  by eapply flattenInner_bodies.
Qed.

Lemma items_tidy rules u items : tidyRules rules -> (u, items) ∈ grouped rules ->
  Forall (fun r => r_userGroup r = u /\ plainTarget (r_op r) (r_targetGroup r) = true /\ marked r) items /\
  textual (VObj (itemsObject items)) = true /\ notIndex u = true.
Proof.
  intros Ht Hin. pose proof (tidy_named _ Ht) as Hn. destruct Ht as [Hd Hc Hp Hm]. rewrite Forall_forall in Hc, Hp, Hm.
  apply grouped_items in Hin as [-> (r0 & Hr0 & E0)]; [|done].
  assert (Hf : forall r, r ∈ List.filter (fun r => r_userGroup r === u) rules -> r ∈ rules /\ r_userGroup r = u).
  { intros r Hr. apply list_elem_of_In, List.filter_In in Hr as [Hr%list_elem_of_In Eu]. by apply bool_decide_eq_true in Eu. }
  split_and!.
  - apply Forall_forall. intros r [Hr Eu]%Hf. split_and!; [done|by apply Hp|by apply Hm].
  - apply textual_fields. unfold itemsObject. rewrite map_map. cbn [fst]. rewrite !Forall_forall. split_and!.
    + apply (map_filter_NoDup _ (fun r => r_userGroup r === u)) in Hd. revert Hd Hf. generalize (List.filter (fun r => r_userGroup r === u) rules).
      intros l Hd Hf. induction l as [|r l IH]; [constructor|]. cbn [map] in *. apply NoDup_cons in Hd as [Hr Hd]. apply NoDup_cons. split.
      * intros (r' & E & Hr')%list_elem_of_fmap. apply Hr. apply list_elem_of_fmap. exists r'. split; [|done].
        destruct (Hf r ltac:(by left)) as [_ ->], (Hf r' ltac:(by right)) as [_ ->]. by rewrite E.
      * apply IH; [done|]. intros x Hx. apply Hf. by right.
    + intros k (r & -> & [Hr _]%Hf)%list_elem_of_fmap. by apply Hc.
    + by intros p (r & -> & _)%list_elem_of_fmap.
  - rewrite <- E0. by apply Hc.
Qed.

Lemma groupsObject_textual rules : tidyRules rules -> textual (VObj (groupsObject (grouped rules))) = true.
Proof.
  intros Ht. pose proof (tidy_named _ Ht) as Hn. apply textual_fields. unfold groupsObject. rewrite map_map. cbn [fst]. rewrite !Forall_forall. split_and!.
  - by apply grouped_keys.
  - intros k ([u items] & -> & Hin)%list_elem_of_fmap. by destruct (items_tidy rules u items Ht Hin) as (_ & _ & H).
  - intros p ([u items] & -> & Hin)%list_elem_of_fmap. by destruct (items_tidy rules u items Ht Hin) as (_ & H & _).
Qed.

Lemma rules_read rules : tidyRules rules -> safeParseJson (serializeRules rules) = VObj (nestRules rules).
Proof.
  intros Ht. unfold serializeRules. rewrite nestRules_grouped by done. pose proof (groupsObject_textual rules Ht) as H.
  rewrite textual_keys by done. revert H. generalize (groupsObject (grouped rules)). intros [|e o] H; [by vm_compute|].
  cbn [map length Nat.eqb]. revert H. generalize (e :: o). clear e o. intros o H.
  unfold json_stringify2. destruct (read_back_textual (js "  ") _ ltac:(by repeat constructor) H) as (t & Et & P). rewrite Et.
  destruct (ser_object_trimmed (js "  ") o) as [w Hw]. rewrite Et in Hw. injection Hw as ->.
  unfold safeParseJson. cbn [default from_option id]. rewrite P. cbn [truthy_str negb orb].
  assert (Htr : trim (123%N :: w ++ [125%N]) = 123%N :: w ++ [125%N]) by (by apply trimmed_trim, trimmed_ends). by rewrite Htr.
Qed.

(** [C30] Opening the saved text again shows the rules the editor showed, in the
    order it showed them: group by group, each group where its first rule is. *)
Theorem rules_reopen rules counter (Htidy : tidyRules rules) :
  exists s, mountRules (serializeRules rules) counter = Ret s /\ map ruleBody (s_rules s) = map ruleBody (concat (map snd (grouped rules))).
Proof.
  unfold mountRules. rewrite rules_read by done. unfold flattenRules. cbn [objectEntries]. rewrite nestRules_grouped by done.
  pose proof (groupsObject_textual rules Htidy) as H.
  assert (entries (groupsObject (grouped rules)) = groupsObject (grouped rules)) as ->.
  { by apply textual_entries. }
  cbn [obind]. destruct (flattenOuter (groupsObject (grouped rules)) counter) as [rs c'] eqn:E. eexists. split; [done|].
  eapply flattenOuter_bodies; [|exact E]. apply Forall_forall. intros [u items] Hin.
  destruct (items_tidy rules u items Htidy Hin) as (H1 & H2 & _). split; [done|]. cbn [snd innerEntries]. by apply textual_entries.
Qed.

Lemma rules_reopen_witness :
  let rules := [mkRule (js "gsu_1") (js "vip") OP_ADD (js "pro") (js "Pro"); mkRule (js "gsu_2") (js "free") OP_REMOVE (js "pro") (js "remove");
                mkRule (js "gsu_3") (js "vip") OP_APPEND (js "beta") []] in
  exists s, mountRules (serializeRules rules) 9 = Ret s /\
    map ruleBody (s_rules s) = [(js "vip", OP_ADD, js "pro", js "Pro"); (js "vip", OP_APPEND, js "beta", []); (js "free", OP_REMOVE, js "pro", js "remove")].
Proof.
  intros rules. refine (rules_reopen rules 9 _). split.
  - apply (bool_decide_unpack _). vm_compute. exact I.
  - repeat constructor; vm_compute; done.
  - repeat constructor; vm_compute; done.
  - repeat constructor; vm_compute; done.
Defined.

(** A group appended under a name that starts with [+:] is saved under that
    name and comes back as an added group without it. *)
Example appended_prefix_reopens_as_add :
  let rules := [mkRule (js "gsu_1") (js "vip") OP_APPEND (js "+:pro") (js "Pro")] in
  (s <-- mountRules (serializeRules rules) 1 ;; Ret (map ruleBody (s_rules s))) = Ret [(js "vip", OP_ADD, js "pro", js "Pro")].
Proof. vm_compute. reflexivity. Qed.

(** The text [null] is valid JSON and makes the editor throw when it opens. *)
Example null_setting_throws counter : mountRules (js "null") counter = Throw.
Proof. reflexivity. Qed.

(** The two rules of a group under one key are saved as the last of them. *)
Example same_key_keeps_last :
  let rules := [mkRule (js "gsu_1") (js "vip") OP_ADD (js "pro") (js "a"); mkRule (js "gsu_2") (js "vip") OP_ADD (js "pro") (js "b")] in
  nestRules rules = [(js "vip", VObj [(js "+:pro", VStr (js "b"))])].
Proof. vm_compute. reflexivity. Qed.
