(* ===== verification/ToolPrices.v ===== *)
(** * Tool prices (tool-price-settings.tsx)

    The price of a tool call is one setting, the JSON text of an object from
    tool names to numbers.  Its page edits it as a table or as JSON; the state
    holds both, and every edit of one rewrites the other.  This file models the
    page and proves that its rows are addressed one at a time, that both forms
    agree, and that saved prices reopen. *)
From stdpp Require Import prelude list strings.
From S2P Require Import Prelude JsString JsNumber JsValue JsonText.
Open Scope js_scope.

Definition OPTION_KEY : jstr := js "tool_price_setting.prices".

Definition DEFAULT_PRICES : fields :=
  [(js "web_search", VNum (num_of_Z 10)); (js "web_search_preview", VNum (num_of_Z 10));
   (js "web_search_preview:gpt-4o*", VNum (num_of_Z 25)); (js "web_search_preview:gpt-4.1*", VNum (num_of_Z 25));
   (js "web_search_preview:gpt-4o-mini*", VNum (num_of_Z 25)); (js "web_search_preview:gpt-4.1-mini*", VNum (num_of_Z 25));
   (js "file_search", VNum (num_of_str (js "2.5"))); (js "google_search", VNum (num_of_Z 14))].

Record ToolPriceRow := mkTool { p_id : Z; p_key : jstr; p_price : number }.

Definition rowsToObject (rows : list ToolPriceRow) : fields :=
  foldl (fun prices row => let k := trim (p_key row) in
    if negb (truthy_str k) then prices else set_prop k (VNum (num_or_zero (p_price row))) prices) [] rows.

Definition objectToRows (prices : fields) : list ToolPriceRow :=
  map (fun p => mkTool (Z.of_nat p.1 + 1) p.2.1 (num_or_zero (js_Number p.2.2))) (zip (seq 0 (length (entries prices))) (entries prices)).

Definition parseInitialPrices (rawValue : option jstr) : fields :=
  match rawValue with
  | None | Some [] => DEFAULT_PRICES
  | Some text =>
      match json_parse text with
      | Some (VObj parsed) => if (0 <? length (obj_keys parsed))%nat then parsed else DEFAULT_PRICES
      | _ => DEFAULT_PRICES
      end
  end.

Inductive EditMode := Visual | Json.
#[export] Instance EditMode_dec : EqDecision EditMode.
Proof. solve_decision. Defined.

(** The error message is kept as whether there is one. *)
Record ToolPage := mkPage { t_editMode : EditMode; t_rows : list ToolPriceRow; t_jsonText : jstr; t_jsonError : bool; t_nextRowId : Z }.

Definition pricesText (prices : fields) : jstr := default [] (json_stringify2 (VObj prices)).

Definition showPrices (mode : EditMode) (prices : fields) : ToolPage :=
  let initialRows := objectToRows prices in
  mkPage mode initialRows (pricesText prices) false (Z.of_nat (length initialRows) + 1).

(** The effect on [defaultValue]. *)
Definition defaultEffect (defaultValue : jstr) (s : ToolPage) : ToolPage := showPrices (t_editMode s) (parseInitialPrices (Some defaultValue)).
Definition openPage (defaultValue : jstr) : ToolPage := defaultEffect defaultValue (mkPage Visual [] [] false 1).

Definition syncFromRows (nextRows : list ToolPriceRow) (s : ToolPage) : ToolPage :=
  mkPage (t_editMode s) nextRows (pricesText (rowsToObject nextRows)) false (t_nextRowId s).

Definition handleJsonChange (text : jstr) (s : ToolPage) : ToolPage :=
  match json_parse text with
  | Some (VObj parsed) =>
      let nextRows := objectToRows parsed in mkPage (t_editMode s) nextRows text false (Z.of_nat (length nextRows) + 1)
  | _ => mkPage (t_editMode s) (t_rows s) text true (t_nextRowId s)
  end.

(** What the two inputs of a row give to [updateRow]. *)
Inductive ToolChange := SetKey (v : jstr) | SetPrice (v : jstr).
Definition changeTool (c : ToolChange) (row : ToolPriceRow) : ToolPriceRow :=
  match c with
  | SetKey v => mkTool (p_id row) v (p_price row)
  | SetPrice v => mkTool (p_id row) (p_key row) (num_or_zero (num_of_str v))
  end.
Definition updateRow (id : Z) (c : ToolChange) (s : ToolPage) : ToolPage :=
  syncFromRows (map (fun r => if bool_decide (p_id r = id) then changeTool c r else r) (t_rows s)) s.
Definition addRow (s : ToolPage) : ToolPage :=
  let newRow := mkTool (t_nextRowId s) [] num_zero in
  syncFromRows (t_rows s ++ [newRow]) (mkPage (t_editMode s) (t_rows s) (t_jsonText s) (t_jsonError s) (t_nextRowId s + 1)).
Definition removeRow (id : Z) (s : ToolPage) : ToolPage := syncFromRows (List.filter (fun r => negb (bool_decide (p_id r = id))) (t_rows s)) s.
Definition resetToDefault (s : ToolPage) : ToolPage := showPrices (t_editMode s) DEFAULT_PRICES.
Definition toggleEditMode (s : ToolPage) : ToolPage :=
  mkPage (match t_editMode s with Visual => Json | Json => Visual end) (t_rows s) (t_jsonText s) (t_jsonError s) (t_nextRowId s).

(** The option that [handleSave] sends, if it sends one. *)
Definition handleSave (s : ToolPage) : option (jstr * jstr) :=
  if (t_editMode s === Json) && t_jsonError s then None
  else Some (OPTION_KEY, default [] (json_stringify (VObj (rowsToObject (t_rows s))))).

Inductive ToolEvent :=
| EditJson (text : jstr) | EditTool (id : Z) (c : ToolChange) | AddTool | RemoveTool (id : Z) | ResetTools | ToggleMode | NewDefault (text : jstr).
Definition toolStep (e : ToolEvent) (s : ToolPage) : ToolPage :=
  match e with
  | EditJson text => handleJsonChange text s
  | EditTool id c => updateRow id c s
  | AddTool => addRow s
  | RemoveTool id => removeRow id s
  | ResetTools => resetToDefault s
  | ToggleMode => toggleEditMode s
  | NewDefault text => defaultEffect text s
  end.
Definition toolRun (es : list ToolEvent) (s : ToolPage) : ToolPage := foldl (fun s e => toolStep e s) s es.

(** ** Row identifiers *)

Definition toolId (k : Z) : Z := k.
Lemma toolId_inj a b : (0 < a)%Z -> (0 < b)%Z -> toolId a = toolId b -> a = b.
Proof. done. Qed.

Record pageSound (s : ToolPage) : Prop := {
  page_next : (1 <= t_nextRowId s)%Z;
  page_ids : issued p_id toolId (t_nextRowId s - 1) (t_rows s) }.

Lemma objectToRows_ids prices : issued p_id toolId (Z.of_nat (length (objectToRows prices))) (objectToRows prices).
Proof.
  apply (issued_numbered _ _ toolId_inj 0 (objectToRows prices)); [lia|]. unfold objectToRows. rewrite length_map, map_map. cbn [p_id].
  rewrite length_zip, length_seq, Nat.min_id. generalize (entries prices). intros es. unfold toolId.
  transitivity (map (fun n => Z.of_nat n + 1)%Z (map fst (zip (seq 0 (length es)) es))).
  - by rewrite map_map.
  - rewrite fst_zip by (by rewrite length_seq). apply map_ext. intros n. lia.
Qed.

Lemma rows_sound mode prices text err :
  pageSound (mkPage mode (objectToRows prices) text err (Z.of_nat (length (objectToRows prices)) + 1)).
Proof. split; cbn [t_nextRowId t_rows]; [lia|]. rewrite Z.add_simpl_r. apply objectToRows_ids. Qed.

Lemma step_sound e s : pageSound s -> pageSound (toolStep e s).
Proof.
  intros [Hn Hid]. destruct e; cbn [toolStep].
  - unfold handleJsonChange. destruct (json_parse text) as [[]|]; try (by split). apply rows_sound.
  - split; [done|]. apply issued_change; [|done]. intros r. case_bool_decide; [by destruct c|done].
  - split; cbn [addRow syncFromRows t_nextRowId t_rows]; [lia|]. rewrite Z.add_simpl_r. replace (t_nextRowId s) with (t_nextRowId s - 1 + 1)%Z at 1 by lia.
    apply (issued_snoc _ _ toolId_inj); [lia|done|]. cbn. unfold toolId. lia.
  - split; [done|]. by apply issued_filter.
  - apply rows_sound.
  - by split.
  - apply rows_sound.
Qed.

Lemma run_sound es defaultValue : pageSound (toolRun es (openPage defaultValue)).
Proof.
  assert (H : pageSound (openPage defaultValue)) by apply rows_sound. revert H. generalize (openPage defaultValue).
  induction es as [|e es IH]; intros s Hs; [done|]. cbn. by apply IH, step_sound.
Qed.

(** In every state of the page an input changes the row it belongs to and the
    bin removes the row it belongs to, whatever JSON was typed before; a new
    row has an identifier that no row has. *)
Theorem tool_edits_address_one es defaultValue (s := toolRun es (openPage defaultValue)) :
  (forall i r c, t_rows s !! i = Some r ->
     updateRow (p_id r) c s = syncFromRows (<[i := changeTool c r]> (t_rows s)) s /\
     removeRow (p_id r) s = syncFromRows (delete i (t_rows s)) s) /\
  t_nextRowId s ∉ map p_id (t_rows s).
Proof.
  destruct (run_sound es defaultValue) as [Hn Hid]. fold s in Hn, Hid. split.
  - intros i r c Hi. unfold updateRow, removeRow. pose proof (issued_distinct _ _ _ _ Hid) as Hd.
    by rewrite (change_addressed p_id (changeTool c) _ i r), (remove_addressed p_id _ i r).
  - apply (issued_fresh _ _ toolId_inj (t_nextRowId s - 1) (t_rows s) (t_nextRowId s)); [lia|done|lia].
Qed.

(** ** The table and the JSON text *)

(** Objects that the table writes. *)
Record priceObject (o : fields) : Prop := {
  price_keys : NoDup (map fst o);
  price_names : Forall (fun p => trim p.1 = p.1 /\ p.1 <> [] /\ exists x, p.2 = VNum x /\ num_or_zero x = x) o }.

Lemma rowsToObject_price rows : priceObject (rowsToObject rows).
Proof.
  unfold rowsToObject. induction rows as [|r rows IH] using rev_ind; [split; constructor|]. rewrite foldl_snoc.
  destruct (trim (p_key r)) as [|c n] eqn:E; cbn [truthy_str negb]; [done|]. destruct IH as [Hk Hn]. split.
  - rewrite set_prop_keys. case_bool_decide; [done|]. apply NoDup_app. split_and!; [done| |apply NoDup_singleton].
    by intros x Hx ->%list_elem_of_singleton.
  - apply set_prop_Forall; [done|]. intros k ->. cbn [fst snd]. split_and!; [rewrite <- E; apply trim_idem|done|].
    eexists. split; [done|]. apply num_or_zero_idem.
Qed.

(** The rows of an object that the table wrote give its entries back. *)
Lemma rows_of_prices o : priceObject o -> rowsToObject (objectToRows o) = entries o.
Proof.
  intros [Hk Hn]. assert (He : priceObject (entries o)).
  { split; [by rewrite entries_perm|]. rewrite Forall_forall in *. intros p Hp. apply Hn. by rewrite entries_perm in Hp. }
  clear Hk Hn. unfold objectToRows. generalize dependent (entries o). clear o. intros es [Hk Hn].
  transitivity (foldl (fun m p => set_prop p.1 p.2 m) [] es); [|by apply (foldl_set_new [] es)]. unfold rowsToObject. generalize (@nil (jstr * jsval)). generalize 0%nat. clear Hk.
  induction Hn as [|[k v] es (Ht & Hne & x & Ev & Hx) _ IH]; intros n acc; [done|]. cbn [fst snd] in Ht, Hne, Ev. subst v.
  cbn [length seq zip map foldl p_key p_price fst snd].
  rewrite Ht. rewrite (proj2 (truthy_str_spec k)) by done. cbn [negb js_Number]. rewrite !Hx. apply IH.
Qed.

(** [text] was written from [o], or reads as [o]. *)
Definition denotes (text : jstr) (o : fields) : Prop := text = pricesText o \/ json_parse text = Some (VObj o).

Lemma run_agrees es defaultValue : let s := toolRun es (openPage defaultValue) in
  t_jsonError s = false -> exists o, denotes (t_jsonText s) o /\ entries (rowsToObject (t_rows s)) = entries (rowsToObject (objectToRows o)).
Proof.
  cbv zeta. induction es as [|e es IH] using rev_ind; [intros _; exists (parseInitialPrices (Some defaultValue)); split; [by left|done]|].
  unfold toolRun. rewrite foldl_snoc. fold (toolRun es (openPage defaultValue)). generalize dependent (toolRun es (openPage defaultValue)). intros s IH.
  assert (Hsync : forall rows s', exists o, denotes (t_jsonText (syncFromRows rows s')) o /\
    entries (rowsToObject (t_rows (syncFromRows rows s'))) = entries (rowsToObject (objectToRows o))).
  { intros rows s'. exists (rowsToObject rows). split; [by left|]. cbn [syncFromRows t_rows]. by rewrite rows_of_prices, entries_idem by apply rowsToObject_price. }
  destruct e; cbn [toolStep].
  - unfold handleJsonChange. destruct (json_parse text) as [[]|] eqn:Ep; cbn [t_jsonError t_jsonText t_rows]; try done.
    intros _. eexists. split; [by right|reflexivity].
  - intros _. apply Hsync.
  - intros _. apply Hsync.
  - intros _. apply Hsync.
  - intros _. exists DEFAULT_PRICES. split; [by left|reflexivity].
  - exact IH.
  - intros _. exists (parseInitialPrices (Some text)). split; [by left|reflexivity].
Qed.

(** Whatever was edited and in whichever form: as long as the JSON text shows
    no error, saving is possible and sends exactly the prices that the text of
    the JSON form denotes. *)
Theorem saved_prices_are_shown_json es defaultValue (s := toolRun es (openPage defaultValue)) (Hok : t_jsonError s = false) :
  exists o, denotes (t_jsonText s) o /\
    handleSave s = Some (OPTION_KEY, default [] (json_stringify (VObj (rowsToObject (objectToRows o))))).
Proof.
  destruct (run_agrees es defaultValue Hok) as (o & Hd & He). fold s in Hd, He. exists o. split; [done|].
  unfold handleSave. rewrite Hok, andb_false_r. do 3 f_equal. by apply stringify_entries.
Qed.

Lemma saved_prices_are_shown_json_witness :
  let s := toolRun [EditJson (jsq "{'10': 2, 'file_search': '3'}"); AddTool; EditTool 3 (SetKey (js " img "))] (openPage []) in
  t_jsonError s = false /\ exists o, denotes (t_jsonText s) o /\
    handleSave s = Some (OPTION_KEY, default [] (json_stringify (VObj (rowsToObject (objectToRows o))))).
Proof.
  assert (H : t_jsonError (toolRun [EditJson (jsq "{'10': 2, 'file_search': '3'}"); AddTool; EditTool 3 (SetKey (js " img "))] (openPage [])) = false)
    by (vm_compute; reflexivity).
  split; [exact H|]. exact (saved_prices_are_shown_json _ _ H).
Defined.

(** ** Saving and opening again *)

Record tidyTools (rows : list ToolPriceRow) : Prop := {
  tools_distinct : NoDup (map p_key rows);
  tools_names : Forall (fun r => trim (p_key r) = p_key r /\ p_key r <> [] /\ notIndex (p_key r) = true) rows;
  tools_prices : Forall (fun r => plainNumber (p_price r) = true /\ num_or_zero (p_price r) = p_price r) rows }.

Lemma rowsToObject_tidy rows : tidyTools rows -> rowsToObject rows = map (fun r => (p_key r, VNum (p_price r))) rows.
Proof.
  intros [Hd Hn Hp]. transitivity (foldl (fun m p => set_prop p.1 p.2 m) [] (map (fun r => (p_key r, VNum (p_price r))) rows)).
  - unfold rowsToObject. generalize (@nil (jstr * jsval)). clear Hd. induction rows as [|r rows IH]; intros acc; [done|].
    apply Forall_cons in Hn as [(Ht & Hne & _) Hn], Hp as [[_ Hz] Hp]. cbn [foldl map fst snd].
    rewrite Ht, (proj2 (truthy_str_spec _)), Hz by done. by apply IH.
  - apply (foldl_set_new []). cbn [app]. by rewrite map_map.
Qed.

Lemma rowsToObject_textual rows : tidyTools rows -> textual (VObj (rowsToObject rows)) = true.
Proof.
  intros H. rewrite rowsToObject_tidy by done. destruct H as [Hd Hn Hp]. rewrite Forall_forall in Hn, Hp.
  apply textual_fields. rewrite map_map. cbn [fst]. rewrite !Forall_forall. split_and!; [done|..].
  - intros k (r & -> & Hr)%list_elem_of_fmap. by apply Hn.
  - intros p (r & -> & Hr)%list_elem_of_fmap. by apply Hp.
Qed.

(** Saved prices come back: the page opened on the text that was sent shows the
    same tools with the same prices in the same order.  A page without tools is
    the exception: what it sends opens as the built-in prices. *)
Theorem tool_prices_reopen mode rows text err next (Htidy : tidyTools rows) (Hmode : mode = Visual \/ err = false) :
  exists sent, handleSave (mkPage mode rows text err next) = Some (OPTION_KEY, sent) /\
    map (fun r => (p_key r, p_price r)) (t_rows (openPage sent)) =
    map (fun r => (p_key r, p_price r)) (if (0 <? length rows)%nat then rows else objectToRows DEFAULT_PRICES).
Proof.
  exists (default [] (json_stringify (VObj (rowsToObject rows)))). split.
  { unfold handleSave. cbn [t_editMode t_jsonError t_rows]. by destruct Hmode as [-> | ->]; rewrite ?andb_false_r. }
  pose proof (rowsToObject_textual rows Htidy) as Ht. destruct (read_back_textual [] _ ltac:(constructor) Ht) as (t & Et & P).
  unfold json_stringify. rewrite Et. cbn [default from_option id]. unfold openPage, defaultEffect, showPrices. cbn [t_rows].
  destruct (ser_object_trimmed [] (rowsToObject rows)) as [w Hw]. rewrite Et in Hw. injection Hw as ->. unfold parseInitialPrices. rewrite P.
  rewrite textual_keys, length_map, rowsToObject_tidy, length_map by done. destruct (0 <? length rows)%nat; [|done].
  unfold objectToRows. rewrite textual_entries by (by rewrite <- rowsToObject_tidy). clear -Htidy. destruct Htidy as [_ _ Hp].
  rewrite length_map, map_map. cbn [p_key p_price]. generalize 0%nat. induction Hp as [|r rows [_ Hz] _ IH]; intros n; [done|].
  cbn [map length seq zip fst snd js_Number]. rewrite Hz. f_equal. apply IH.
Qed.

Lemma tool_prices_reopen_witness :
  let rows := [mkTool 4 (js "img") (num_of_str (js "0.5")); mkTool 2 (js "file_search") num_zero] in
  exists sent, handleSave (mkPage Visual rows [] true 9) = Some (OPTION_KEY, sent) /\
    map (fun r => (p_key r, p_price r)) (t_rows (openPage sent)) = [(js "img", num_of_str (js "0.5")); (js "file_search", num_zero)].
Proof.
  intros rows. refine (tool_prices_reopen Visual rows [] true 9 _ (or_introl eq_refl)). split.
  - apply (bool_decide_unpack _). vm_compute. exact I.
  - repeat constructor; vm_compute; done.
  - repeat constructor; vm_compute; done.
Defined.

(** Invalid JSON blocks saving only while its form is shown: in the table form
    the prices of the rows before it are sent. *)
Example stale_json_is_ignored :
  let s := toolRun [ToggleMode; EditJson (jsq "{'img': 1"); ToggleMode] (openPage (jsq "{'img': 2}")) in
  t_jsonError s = true /\ handleSave s = Some (OPTION_KEY, jsq "{'img':2}") /\ handleSave (toolStep ToggleMode s) = None.
Proof. vm_compute. done. Qed.

(** A price too large for a number is sent as [null] and comes back as zero. *)
Example huge_price_comes_back_zero :
  let s := toolRun [EditTool 1 (SetPrice (js "1e999"))] (openPage (jsq "{'img': 2}")) in
  handleSave s = Some (OPTION_KEY, jsq "{'img':null}") /\ t_rows (openPage (jsq "{'img':null}")) = [mkTool 1 (js "img") num_zero].
Proof. vm_compute. done. Qed.
