(* ===== verification/RatioSave.v ===== *)
(** * Saving the price and group settings (ratio-settings-card.tsx, utils.ts)

    The price and group forms keep the texts of the settings as the administrator
    edits them.  Saving compares each with a baseline, in a normal form of its
    JSON, and sends the settings that differ one after the other.  This file
    models the normal forms, the check of a text, both saves with the answers of
    the server, and the effects that follow new settings from the server. *)
From stdpp Require Import prelude list strings.
From S2P Require Import Prelude JsString JsNumber JsInteger JsRegex JsValue JsMap JsonText ModelPricing UpstreamSync.
Open Scope js_scope.

(** ** Texts (utils.ts) *)

Definition formatJsonForTextarea (value : jstr) : jstr :=
  if negb (truthy_str value) || negb (truthy_str (trim value)) then []
  else match json_parse value with Some parsed => default [] (json_stringify2 parsed) | None => value end.

Definition normalizeJsonString (value : jstr) : jstr :=
  let trimmed := trim value in
  if negb (truthy_str trimmed) then []
  else match json_parse trimmed with Some parsed => default [] (json_stringify parsed) | None => trimmed end.

(** ** Where a text is not JSON *)

Record Position := mkPosition { at_line : option Z; at_column : option Z; at_position : option Z }.

(** [parseInt(digits, 10)] of digits *)
Definition digitsValue (digits : option jstr) : Z := parse_dec (default [] digits).

(** A letter of either case, for the flag [i]. *)
Definition eitherCase (w : string) : regex :=
  rseq (map (fun c => RChar (fun x => (x =? c)%N || ((97 <=? c) && (c <=? 122) && (x + 32 =? c))%N)) (js w)).
Definition RDigits (i : nat) : regex := RGroup i (RPlus (RChar is_digit)).
Definition positionPattern : regex := RSeq (eitherCase "at position ") (RDigits 1).
Definition lineColumnPattern : regex := rseq [eitherCase "at line "; RDigits 1; eitherCase " column "; RDigits 2].
(** [message.match(pattern)] *)
Definition firstMatch (r : regex) (s : jstr) : option caps :=
  match exec_from (S (length s)) r (at_start s) with Some (_, _, c) => Some c | None => None end.

(** [text.substring(0, position).split('\n')]: how many lines, and the last. *)
Fixpoint lastLine (s cur : jstr) (n : Z) : Z * jstr :=
  match s with
  | [] => (n, rev cur)
  | c :: s' => if (c =? 10)%N then lastLine s' [] (n + 1) else lastLine s' (c :: cur) n
  end.

(** [error] is the message of the error that [JSON.parse] throws. *)
Definition extractErrorPosition (message jsonString : jstr) : Position :=
  match firstMatch positionPattern message with
  | Some c =>
      let position := digitsValue (cap 1 c) in
      let '(lines, last) := lastLine (take (Z.to_nat position) jsonString) [] 1 in
      mkPosition (Some lines) (Some (Z.of_nat (length last) + 1)) (Some position)
  | None =>
      match firstMatch lineColumnPattern message with
      | Some c => mkPosition (Some (digitsValue (cap 1 c))) (Some (digitsValue (cap 2 c))) None
      | None => mkPosition None None None
      end
  end.

Inductive JsonValidationError :=
| ErrRequired
| ErrStructure
| ErrSyntax (p : Position) (missingCommaLine : option Z).

Definition buildSyntaxError (message jsonString : jstr) : JsonValidationError :=
  let position := extractErrorPosition message jsonString in
  let isMissingCommaError := includes (js "Expected ','") message || includes (js "Expected property name") message || includes (js "Unexpected string") message in
  ErrSyntax position
    (match at_line position with Some line => if isMissingCommaError && (1 <? line)%Z then Some (line - 1) else None | None => None end)%Z.

(** [a && b] of two numbers or [undefined]: the pair when both are not zero. *)
Definition lineAndColumn (p : Position) : option (Z * Z) :=
  match at_line p, at_column p with
  | Some line, Some column => if (line =? 0) || (column =? 0) then None else Some (line, column)
  | _, _ => None
  end%Z.

Definition formatErrorMessage (message jsonString : jstr) : jstr :=
  let position := extractErrorPosition message jsonString in
  match lineAndColumn position with
  | Some (line, column) =>
      let hint := match buildSyntaxError message jsonString with
                  | ErrSyntax _ (Some l) => js " (check line " ++ print_int l ++ js " for missing comma)"
                  | _ => []
                  end in
      js "Error at line " ++ print_int line ++ js ", column " ++ print_int column ++ js ": " ++ message ++ hint
  | None => match at_position position with
            | Some p => js "Error at position " ++ print_int p ++ js ": " ++ message
            | None => message
            end
  end.

(** The message under a field, for the translation function [t] and the
    numbers it fills in. *)
Definition formatJsonValidationError (t : jstr -> list Z -> jstr) (error : option JsonValidationError) (fallback : jstr) : jstr :=
  match error with
  | None => t fallback []
  | Some ErrRequired => t (js "Value is required") []
  | Some ErrStructure => t (if fallback === js "Invalid JSON" then js "JSON structure is invalid" else fallback) []
  | Some (ErrSyntax p missingCommaLine) =>
      let first := match lineAndColumn p with
                   | Some (line, column) => t (js "JSON is invalid at line {{line}}, column {{column}}.") [line; column]
                   | None => match at_position p with
                             | Some q => t (js "JSON is invalid at position {{position}}.") [q]
                             | None => t (js "JSON is invalid. Please check the syntax.") []
                             end
                   end in
      let hints := match missingCommaLine with
                   | Some l => if (l =? 0)%Z then [] else [t (js "Check line {{line}} for a missing comma.") [l]]
                   | None => []
                   end in
      js_join (js " ") (first :: hints)
  end.

Section Validation.
(** The message of the error of [JSON.parse], which the engine words. *)
Context (parseError : jstr -> jstr).

(** Whether the text is valid, the message and the error. *)
Definition validateJsonString (allowEmpty : bool) (predicate : option (jsval -> bool)) (predicateMessage value : jstr) : bool * jstr * option JsonValidationError :=
  let trimmed := trim value in
  if negb (truthy_str trimmed) then (if allowEmpty then (true, [], None) else (false, js "Value is required", Some ErrRequired))
  else match json_parse trimmed with
       | Some parsed => match predicate with
                        | Some p => if negb (p parsed) then (false, str_or predicateMessage (js "JSON structure is invalid"), Some ErrStructure)
                                    else (true, [], None)
                        | None => (true, [], None)
                        end
       | None => (false, formatErrorMessage (parseError trimmed) trimmed, Some (buildSyntaxError (parseError trimmed) trimmed))
       end.
End Validation.

(** ** The forms (ratio-settings-card.tsx) *)

(** A field is a text or a switch; a form is its fields in their order. *)
Inductive FieldValue := Text (t : jstr) | Switch (b : bool).
#[export] Instance FieldValue_dec : EqDecision FieldValue.
Proof. solve_decision. Defined.
Definition FormValues := list (jstr * FieldValue).

Definition MODEL_FIELDS : list jstr :=
  [js "ModelPrice"; js "ModelRatio"; js "CacheRatio"; js "CreateCacheRatio"; js "CompletionRatio"; js "ImageRatio"; js "AudioRatio";
   js "AudioCompletionRatio"; js "ExposeRatioEnabled"; js "BillingMode"; js "BillingExpr"].
Definition GROUP_FIELDS : list jstr :=
  [js "GroupRatio"; js "TopupGroupRatio"; js "UserUsableGroups"; js "GroupGroupRatio"; js "AutoGroups"; js "DefaultUseAutoGroup";
   js "GroupSpecialUsableGroup"].

Definition onText (f : jstr -> jstr) (v : FieldValue) : FieldValue := match v with Text t => Text (f t) | Switch b => Switch b end.
Definition normalizeForm (form : FormValues) : FormValues := map (fun e => (e.1, onText normalizeJsonString e.2)) form.
Definition formatForm (form : FormValues) : FormValues := map (fun e => (e.1, onText formatJsonForTextarea e.2)) form.

(** [Array.isArray(parsed) && parsed.every((item) => typeof item === 'string')] *)
Definition isStringArray (v : jsval) : bool := match v with VArr xs => forallb (fun x => match x with VStr _ => true | _ => false end) xs | _ => false end.
Definition validField (e : jstr * FieldValue) : bool :=
  match e.2 with
  | Text t => (validateJsonString (fun _ => []) true (if e.1 === js "AutoGroups" then Some isStringArray else None)
                 (js "Expected a JSON array of group identifiers") t).1.1
  | Switch _ => true
  end.

(** The name under which the server keeps a field. *)
Definition apiKey (key : jstr) : jstr :=
  if key === js "BillingMode" then js "billing_setting.billing_mode"
  else if key === js "BillingExpr" then js "billing_setting.billing_expr"
  else if key === js "GroupSpecialUsableGroup" then js "group_ratio_setting.group_special_usable_group"
  else key.

(** The keys whose value is not the one of the baseline. *)
Definition changedFields (normalized baseline : FormValues) : FormValues := List.filter (fun e => negb (mget e.1 baseline === Some e.2)) normalized.
Definition requests (updates : FormValues) : FormValues := map (fun e => (apiKey e.1, e.2)) updates.

(** One of the two forms: its baseline, its values, and what the server has. *)
Record Card := mkCard { c_baseline : FormValues; c_values : FormValues; c_server : FormValues }.
Definition storeAll (server sent : FormValues) : FormValues := foldl (fun s e => mset e.1 e.2 s) server sent.

(** The effect on the settings that the server has sent. *)
Definition defaultsEffect (defaults : FormValues) (c : Card) : Card := mkCard (normalizeForm defaults) (formatForm defaults) (c_server c).

(** Saving: [false] when a request fails, which leaves the handler. *)
Definition saveModelRatios (answers : list Answer) (c : Card) : Card * bool :=
  let normalized := normalizeForm (c_values c) in
  let updates := requests (changedFields normalized (c_baseline c)) in
  match updates with
  | [] => (c, true)
  | _ => let sent := sendUpdates updates answers in
         (mkCard (if sent.2 then normalized else c_baseline c) (c_values c) (storeAll (c_server c) sent.1), sent.2)
  end.
Definition saveGroupRatios (answers : list Answer) (c : Card) : Card * bool :=
  let normalized := normalizeForm (c_values c) in
  let sent := sendUpdates (requests (changedFields normalized (c_baseline c))) answers in
  (mkCard (c_baseline c) (c_values c) (storeAll (c_server c) sent.1), sent.2).

(** The form submits only when every field is valid. *)
Definition submit (save : list Answer -> Card -> Card * bool) (answers : list Answer) (c : Card) : Card * bool :=
  if forallb validField (c_values c) then save answers c else (c, true).

(** ** Normal forms *)

(** A text as the server sends it: without blanks around it, and either not JSON
    or an object or array that JSON keeps as it is. *)
Definition settingText (t : jstr) : Prop :=
  trim t = t /\ match json_parse t with
                | Some (VObj o) => textual (VObj o) = true
                | Some (VArr l) => textual (VArr l) = true
                | Some _ => False
                | None => True
                end.
Definition settingValue (e : jstr * FieldValue) : Prop := match e.2 with Text t => settingText t | Switch _ => True end.

Lemma container_ser gap v : textual v = true -> (exists o, v = VObj o) \/ (exists l, v = VArr l) -> blank gap ->
  exists t, json_ser gap [] v = Some t /\ json_parse t = Some v /\ trim t = t /\ t <> [].
Proof.
  intros Hv Hc Hg. destruct (read_back_textual gap v Hg Hv) as (t & E & P). exists t.
  assert (exists a w b, t = a :: w ++ [b] /\ is_ws a = false /\ is_ws b = false) as (a & w & b & -> & Ha & Hb).
  { destruct Hc as [[o ->]|[l ->]]; [destruct (ser_object_trimmed gap o) as [w Hw]|destruct (ser_array_trimmed gap l) as [w Hw]];
      rewrite E in Hw; injection Hw as ->; eexists _, w, _; by split_and!. }
  split_and!; [done|done|by apply trimmed_trim, trimmed_ends|done].
Qed.

(** A text of the settings, its JSON and its normal form. *)
Lemma settingText_cases t : settingText t -> t = [] \/ (t <> [] /\ trim t = t /\ json_parse t = None) \/
  exists v, trim t = t /\ t <> [] /\ json_parse t = Some v /\ textual v = true /\ ((exists o, v = VObj o) \/ (exists l, v = VArr l)).
Proof.
  intros [Ht Hp]. destruct t as [|c t]; [by left|right]. destruct (json_parse (c :: t)) as [v|] eqn:E; [right|by left].
  destruct v; try done; eexists; split_and!; try done; eauto.
Qed.

Lemma blank_gap n : blank (replicate n 32%N).
Proof. induction n; constructor; done. Qed.

Lemma normalize_value t v : trim t = t -> t <> [] -> json_parse t = Some v -> normalizeJsonString t = default [] (json_stringify v).
Proof. intros Ht Hn Hp. unfold normalizeJsonString. rewrite Ht, (proj2 (truthy_str_spec t)) by done. cbn [negb]. by rewrite Hp. Qed.

(** Formatting a text for the form does not change its normal form, and a
    normal form is its own. *)
Lemma normalize_format t : settingText t -> normalizeJsonString (formatJsonForTextarea t) = normalizeJsonString t.
Proof.
  intros [->|[(Hn & Ht & Hp)|(v & Ht & Hn & Hp & Hv & Hc)]]%settingText_cases; unfold formatJsonForTextarea; [done|..];
    rewrite Ht, (proj2 (truthy_str_spec t)), Hp by done; cbn [negb orb]; [done|].
  destruct (container_ser (js "  ") v Hv Hc (blank_gap 2)) as (t2 & E2 & P2 & T2 & N2). unfold json_stringify2. rewrite E2. cbn [default from_option id].
  by rewrite (normalize_value t2 v), (normalize_value t v).
Qed.

Lemma normalize_idem t : settingText t -> normalizeJsonString (normalizeJsonString t) = normalizeJsonString t.
Proof.
  intros [->|[(Hn & Ht & Hp)|(v & Ht & Hn & Hp & Hv & Hc)]]%settingText_cases; [done|..].
  - assert (E : normalizeJsonString t = t); [|by rewrite !E]. unfold normalizeJsonString. by rewrite Ht, (proj2 (truthy_str_spec t)), Hp by done.
  - rewrite (normalize_value t v) by done. destruct (container_ser [] v Hv Hc (blank_gap 0)) as (t2 & E2 & P2 & T2 & N2).
    unfold json_stringify. rewrite E2. cbn [default from_option id]. rewrite (normalize_value t2 v) by done. unfold json_stringify. by rewrite E2.
Qed.

Lemma normalizeForm_format form : Forall settingValue form -> normalizeForm (formatForm form) = normalizeForm form.
Proof.
  intros H. unfold normalizeForm, formatForm. rewrite map_map. apply map_ext_in. intros [k v] Hin%list_elem_of_In. rewrite Forall_forall in H.
  apply H in Hin. destruct v as [t|b]; [|done]. cbn [fst snd onText]. by rewrite normalize_format.
Qed.

(** ** Saving *)

Lemma changedFields_same form : NoDup (map fst form) -> changedFields form form = [].
Proof.
  intros Hd. unfold changedFields. assert (H : forall l, (forall e, e ∈ l -> mget e.1 form = Some e.2) ->
    List.filter (fun e => negb (mget e.1 form === Some e.2)) l = []).
  { induction l as [|e l IH]; intros H; [done|]. cbn. rewrite bool_decide_true by (apply H; by left). cbn. apply IH. intros x Hx. apply H. by right. }
  apply H. intros [k v] He. by apply mget_NoDup.
Qed.

Lemma normalizeForm_keys form : map fst (normalizeForm form) = map fst form.
Proof. unfold normalizeForm. by rewrite map_map. Qed.

Lemma stored_get server sent k : NoDup (map fst sent) -> mget k (storeAll server sent) = match mget k sent with Some v => Some v | None => mget k server end.
Proof.
  intros Hd. unfold storeAll. revert server. induction sent as [|[k' v] sent IH]; intros server; [done|]. apply NoDup_cons in Hd as [Hk Hd].
  cbn [foldl fst snd]. rewrite IH, mget_mset, mget_cons by done. case_bool_decide; [subst|done]. rewrite (proj2 (mget_None k' sent)); done.
Qed.

Lemma requests_keys updates keys : NoDup (map apiKey keys) -> map fst updates `sublist_of` keys -> NoDup (map fst (requests updates)).
Proof.
  intros Hd Hs. unfold requests. rewrite map_map. cbn [fst]. change (map (fun x => apiKey x.1) updates) with (map (fun x => apiKey (fst x)) updates).
  rewrite <- map_map. eapply sublist_NoDup; [exact Hd|by apply (fmap_sublist apiKey)].
Qed.

Lemma changedFields_sublist normalized baseline : map fst (changedFields normalized baseline) `sublist_of` map fst normalized.
Proof. unfold changedFields. induction normalized as [|e l IH]; [constructor|]. cbn. destruct (negb _); cbn; by constructor. Qed.

(** Looking a field up among the requests for what changed. *)
Lemma requests_get normalized baseline e : NoDup (map apiKey (map fst normalized)) -> e ∈ normalized ->
  mget (apiKey e.1) (requests (changedFields normalized baseline)) = if mget e.1 baseline === Some e.2 then None else Some e.2.
Proof.
  intros Hd He. case_bool_decide as Eb.
  - apply mget_None. unfold mkeys, requests. rewrite map_map. intros (e' & E & He')%list_elem_of_fmap. cbn [fst] in E.
    apply list_elem_of_In, List.filter_In in He' as [He'%list_elem_of_In Hc]. assert (e = e') as <-.
    { apply list_elem_of_lookup in He as [i Hi], He' as [j Hj]. rewrite map_map in Hd.
      assert (i = j) as <-; [|congruence]. apply (NoDup_lookup _ i j (apiKey e.1) Hd); rewrite list_lookup_fmap; [by rewrite Hi|rewrite Hj; cbn; by rewrite E]. }
    by rewrite Eb, bool_decide_true in Hc.
  - apply mget_NoDup.
    + apply (requests_keys _ (map fst normalized)); [done|apply changedFields_sublist].
    + apply list_elem_of_fmap. exists e. split; [done|]. apply list_elem_of_In, List.filter_In. split; [by apply list_elem_of_In|]. by rewrite bool_decide_false.
Qed.

(** Opening a form on the settings of the server and saving it without an edit
    sends nothing and changes nothing. *)
Theorem untouched_form_sends_nothing defaults c answers (Hkeys : NoDup (map fst defaults)) (Htexts : Forall settingValue defaults)
  (opened := defaultsEffect defaults c) :
  submit saveModelRatios answers opened = (opened, true) /\ submit saveGroupRatios answers opened = (opened, true).
Proof.
  assert (H : changedFields (normalizeForm (c_values opened)) (c_baseline opened) = []).
  { unfold opened. cbn [defaultsEffect c_values c_baseline]. rewrite normalizeForm_format by done. apply changedFields_same. by rewrite normalizeForm_keys. }
  unfold submit, saveModelRatios, saveGroupRatios. cbv zeta. rewrite H. cbn [requests map sendUpdates fst snd storeAll foldl].
  split; [by destruct (forallb _ _)|]. destruct (forallb _ _); [|done]. by destruct opened.
Qed.

Lemma untouched_form_sends_nothing_witness :
  let defaults := [(js "GroupRatio", Text (jsq "{'default': 1}")); (js "AutoGroups", Text []); (js "DefaultUseAutoGroup", Switch true)] in
  let opened := defaultsEffect defaults (mkCard [] [] defaults) in
  c_values opened <> defaults /\ submit saveGroupRatios [] opened = (opened, true).
Proof.
  intros defaults opened. split; [by vm_compute|].
  assert (H1 : NoDup (map fst defaults)) by (apply (bool_decide_unpack _); vm_compute; exact I).
  assert (H2 : Forall settingValue defaults) by (repeat constructor; vm_compute; done).
  exact (proj2 (untouched_form_sends_nothing defaults (mkCard [] [] defaults) [] H1 H2)).
Defined.

(** A field that is not among the changed ones has its value in the baseline. *)
Lemma unchanged_in_baseline normalized baseline e : changedFields normalized baseline = [] -> e ∈ normalized -> mget e.1 baseline = Some e.2.
Proof.
  intros H He. assert (Hn : ~ e ∈ changedFields normalized baseline) by (rewrite H; apply not_elem_of_nil).
  destruct (decide (mget e.1 baseline = Some e.2)) as [|Hne]; [done|]. exfalso. apply Hn, list_elem_of_In, List.filter_In.
  split; [by apply list_elem_of_In|]. by rewrite bool_decide_false.
Qed.

(** The server after the requests for what changed were stored. *)
Lemma stored_requests normalized baseline server : NoDup (map apiKey (map fst normalized)) ->
  let server' := storeAll server (requests (changedFields normalized baseline)) in
  (forall e, e ∈ normalized ->
     mget (apiKey e.1) server' = if mget e.1 baseline === Some e.2 then mget (apiKey e.1) server else Some e.2) /\
  (forall k, ~ k ∈ map apiKey (map fst normalized) -> mget k server' = mget k server).
Proof.
  intros Hk server'. unfold server'.
  assert (Hd : NoDup (map fst (requests (changedFields normalized baseline)))) by (apply (requests_keys _ (map fst normalized)); [done|apply changedFields_sublist]).
  split; intros x Hx; rewrite stored_get by done.
  - rewrite requests_get by done. by case_bool_decide.
  - rewrite (proj2 (mget_None x _)); [done|]. intros H. apply Hx. unfold mkeys, requests in H. rewrite map_map in H. cbn [fst] in H.
    apply list_elem_of_fmap in H as (e & -> & He). apply list_elem_of_fmap. exists e.1. split; [done|]. apply list_elem_of_fmap. exists e.
    split; [done|]. by apply list_elem_of_In, List.filter_In in He as [He%list_elem_of_In _].
Qed.

(** [C28] When every field of the model ratio form validates, the fields have
    distinct names on the server and the server accepts every request, saving stores the normal
    form of each field that differs from the baseline under the field's name on
    the server, and leaves every other setting of the server as it was: that of a
    field whose normal form equals the baseline, whatever the server holds there,
    and those of no field. So the server has the normal form of every field
    afterwards if it held the baseline before (which a refused save breaks). The
    baseline then has the normal form of every field and saving again sends
    nothing. *)
Theorem accepted_save_is_complete c answers (Hkeys : NoDup (map apiKey (map fst (c_values c)))) (Hvalid : forallb validField (c_values c) = true)
  (Hanswers : Forall (fun a => a = Accepted) answers)
  (Hlength : length answers = length (changedFields (normalizeForm (c_values c)) (c_baseline c))) :
  exists c', submit saveModelRatios answers c = (c', true) /\
    (forall e, e ∈ normalizeForm (c_values c) ->
       mget (apiKey e.1) (c_server c') = (if mget e.1 (c_baseline c) === Some e.2 then mget (apiKey e.1) (c_server c) else Some e.2) /\
       mget e.1 (c_baseline c') = Some e.2) /\
    (forall k, ~ k ∈ map apiKey (map fst (c_values c)) -> mget k (c_server c') = mget k (c_server c)) /\
    ((forall k v, mget k (c_baseline c) = Some v -> mget (apiKey k) (c_server c) = Some v) ->
     forall e, e ∈ normalizeForm (c_values c) -> mget (apiKey e.1) (c_server c') = Some e.2) /\
    forall answers', submit saveModelRatios answers' c' = (c', true).
Proof.
  unfold submit. rewrite Hvalid. set (normalized := normalizeForm (c_values c)) in *. set (updates := changedFields normalized (c_baseline c)) in *.
  assert (Ek : map fst normalized = map fst (c_values c)) by (unfold normalized; by rewrite normalizeForm_keys). rewrite <- Ek in Hkeys |- *.
  assert (Hs : sendUpdates (requests updates) answers = (requests updates, true)) by (apply send_accepted; [done|unfold requests; by rewrite length_map]).
  destruct (stored_requests normalized (c_baseline c) (c_server c) Hkeys) as [Hget Hother]. fold updates in Hget, Hother.
  assert (Hfull : (forall k v, mget k (c_baseline c) = Some v -> mget (apiKey k) (c_server c) = Some v) ->
    forall e, e ∈ normalized -> mget (apiKey e.1) (storeAll (c_server c) (requests updates)) = Some e.2).
  { intros H e He. rewrite (Hget e He). case_bool_decide; [by apply H|done]. }
  assert (Hdone : changedFields normalized normalized = []) by (apply changedFields_same; by eapply NoDup_fmap_1).
  destruct (requests updates) as [|r rs] eqn:Er.
  - exists c. unfold saveModelRatios. cbv zeta. fold normalized updates. rewrite Er. split_and!; [done| |done..|].
    + intros e He. split; [by apply Hget|]. apply (unchanged_in_baseline normalized); [by apply map_eq_nil in Er|done].
    + intros answers'. by rewrite Hvalid, ?Er.
  - eexists. unfold saveModelRatios. cbv zeta. fold normalized updates. rewrite Er, Hs. cbn [fst snd]. split_and!; [done| |done..|].
    + intros e He. split; [by apply Hget|]. cbn [c_baseline]. apply (unchanged_in_baseline normalized); done.
    + intros answers'. cbn [c_values c_baseline]. rewrite Hvalid. fold normalized. by rewrite Hdone.
Qed.

Lemma accepted_save_is_complete_witness :
  let c := mkCard [(js "ModelPrice", Text (js "{}")); (js "BillingMode", Text (js "{}"))]
                  [(js "ModelPrice", Text (js "{}")); (js "BillingMode", Text (jsq "{ 'a': 'tiered_expr' }"))]
                  [(js "ModelPrice", Text (js "{ }")); (js "billing_setting.billing_mode", Text (js "{}"))] in
  exists c', submit saveModelRatios [Accepted] c = (c', true) /\
    mget (js "billing_setting.billing_mode") (c_server c') = Some (Text (jsq "{'a':'tiered_expr'}")) /\
    mget (js "ModelPrice") (c_server c') = Some (Text (js "{ }")) /\
    forall answers', submit saveModelRatios answers' c' = (c', true).
Proof.
  intros c. destruct (accepted_save_is_complete c [Accepted]) as (c' & H1 & H2 & _ & _ & H3).
  - apply (bool_decide_unpack _). vm_compute. exact I.
  - vm_compute. reflexivity.
  - repeat constructor.
  - vm_compute. reflexivity.
  - exists c'. split; [exact H1|]. split; [|split; [|exact H3]].
    + refine (eq_trans (proj1 (H2 (js "BillingMode", Text (jsq "{'a':'tiered_expr'}")) _)) _); [right; left|vm_compute; reflexivity].
    + refine (eq_trans (proj1 (H2 (js "ModelPrice", Text (js "{}")) _)) _); [left|vm_compute; reflexivity].
Defined.

(** [C15] A refusal goes unnoticed: when the server answers every request with a
    refusal, nothing is stored, yet the form takes its values for the stored
    ones, and saving again sends nothing whatever the server would answer. *)
Theorem refused_save_is_not_resent c answers (Hkeys : NoDup (map fst (c_values c))) (Hvalid : forallb validField (c_values c) = true)
  (Hanswers : Forall (fun a => a = Refused) answers)
  (Hlength : length answers = length (changedFields (normalizeForm (c_values c)) (c_baseline c))) :
  exists c', submit saveModelRatios answers c = (c', true) /\ c_server c' = c_server c /\
    forall answers', submit saveModelRatios answers' c' = (c', true).
Proof.
  unfold submit. rewrite Hvalid. set (normalized := normalizeForm (c_values c)) in *. set (updates := changedFields normalized (c_baseline c)) in *.
  assert (Hs : sendUpdates (requests updates) answers = ([], true)) by (apply send_refused; [done|unfold requests; by rewrite length_map]).
  unfold saveModelRatios. cbv zeta. fold normalized updates. destruct (requests updates) as [|r rs] eqn:Er.
  - exists c. split_and!; [done|done|]. intros answers'. rewrite Hvalid. fold normalized updates. by rewrite Er.
  - rewrite Hs. cbn [fst snd storeAll foldl]. eexists. split_and!; [done|done|]. intros answers'. cbn [c_values c_baseline]. rewrite Hvalid. fold normalized.
    rewrite changedFields_same; [done|]. unfold normalized. by rewrite normalizeForm_keys.
Qed.

Lemma refused_save_is_not_resent_witness :
  let c := mkCard [(js "ModelPrice", Text (js "{}"))] [(js "ModelPrice", Text (jsq "{'a': 2}"))] [(js "ModelPrice", Text (js "{}"))] in
  exists c', submit saveModelRatios [Refused] c = (c', true) /\ c_server c' = [(js "ModelPrice", Text (js "{}"))] /\
    forall answers', submit saveModelRatios answers' c' = (c', true).
Proof.
  intros c. refine (refused_save_is_not_resent c [Refused] _ _ _ _).
  - apply (bool_decide_unpack _). vm_compute. exact I.
  - vm_compute. reflexivity.
  - repeat constructor.
  - vm_compute. reflexivity.
Defined.

(** A request that fails keeps the baseline: the next save sends the same
    fields again, those that were stored before the failure too. *)
Theorem failed_save_is_resent c answers c' (Hfail : saveModelRatios answers c = (c', false)) :
  c_baseline c' = c_baseline c /\ changedFields (normalizeForm (c_values c')) (c_baseline c') = changedFields (normalizeForm (c_values c)) (c_baseline c).
Proof.
  unfold saveModelRatios in Hfail. cbv zeta in Hfail. destruct (requests _) as [|r rs]; [done|]. injection Hfail as <- ->. done.
Qed.

Lemma failed_save_is_resent_witness :
  let c := mkCard [(js "ModelPrice", Text (js "{}"))] [(js "ModelPrice", Text (jsq "{'a': 2}"))] [] in
  exists c', saveModelRatios [Rejected] c = (c', false) /\ c_baseline c' = c_baseline c.
Proof.
  intros c. eexists. split; [vm_compute; reflexivity|]. eapply (proj1 (failed_save_is_resent c [Rejected] _ _)). Unshelve. vm_compute. reflexivity.
Defined.

(** ** Error positions *)

Example position_of_v8_message :
  let text := js "{" ++ [10%N] ++ jsq "  'a': 1" ++ [10%N] ++ jsq "  'b': 2 }" in
  extractErrorPosition (jsq "Expected ',' or '}' after property value in JSON at position 13") text =
    mkPosition (Some 3) (Some 3) (Some 13) /\
  formatErrorMessage (js "Unexpected string in JSON At Position 13") text =
    js "Error at line 3, column 3: Unexpected string in JSON At Position 13 (check line 2 for missing comma)" /\
  extractErrorPosition (js "JSON.parse: bad at line 4 column 21 of the JSON data") text = mkPosition (Some 4) (Some 21) None.
Proof. vm_compute. done. Qed.

(** The check of a text accepts the JSON value [null]. *)
Example null_text_is_valid : validField (js "GroupSpecialUsableGroup", Text (js "null")) = true.
Proof. vm_compute. done. Qed.
