(* ===== verification/Currency.v ===== *)
(** * Amounts on screen (lib/currency.ts, lib/format.ts)

    Balances and prices are kept in US dollars or in quota units and shown in
    the currency the administrator chose: dollars, yuan, a custom unit or tokens.
    This file models the configuration with its fallbacks, the conversion and
    formatting functions, the way back from an input to quota units, and the
    colour of a label.  [Intl.NumberFormat] and [Intl.RelativeTimeFormat] are
    parameters. *)
From stdpp Require Import prelude list strings.
From Stdlib Require Import SpecFloat.
From S2P Require Import Prelude JsString JsNumber JsValue.
Open Scope js_scope.

(** ** Configuration (stores/system-config-store.ts) *)

Inductive CurrencyDisplayType := USD | CNY | TOKENS | CUSTOM.

Record CurrencyConfig := mkConfig {
  displayInCurrency : bool; quotaDisplayType : CurrencyDisplayType; quotaPerUnit : number; usdExchangeRate : number;
  customCurrencySymbol : jstr; customCurrencyExchangeRate : number; paymentCurrencySymbol : jstr }.

(** The yen and currency signs. *)
Definition yen : jstr := [165%N].
Definition DEFAULT_CURRENCY_CONFIG : CurrencyConfig := mkConfig true USD (num_of_Z 500000) (num_of_Z 1) [164%N] (num_of_Z 1) yen.

(** What the store holds, read back from local storage: any field may be
    missing. *)
Record StoredCurrency := mkStored {
  s_displayInCurrency : option bool; s_quotaDisplayType : option CurrencyDisplayType; s_quotaPerUnit : option number; s_usdExchangeRate : option number;
  s_customCurrencySymbol : option jstr; s_customCurrencyExchangeRate : option number; s_paymentCurrencySymbol : option jstr }.

(** [{ ...a, ...b }] of two stored configurations *)
Definition orElse {A} (b a : option A) : option A := match b with Some _ => b | None => a end.
Definition spreadCurrency (a b : StoredCurrency) : StoredCurrency :=
  mkStored (orElse (s_displayInCurrency b) (s_displayInCurrency a)) (orElse (s_quotaDisplayType b) (s_quotaDisplayType a))
    (orElse (s_quotaPerUnit b) (s_quotaPerUnit a)) (orElse (s_usdExchangeRate b) (s_usdExchangeRate a))
    (orElse (s_customCurrencySymbol b) (s_customCurrencySymbol a)) (orElse (s_customCurrencyExchangeRate b) (s_customCurrencyExchangeRate a))
    (orElse (s_paymentCurrencySymbol b) (s_paymentCurrencySymbol a)).

Record SystemConfig := mkSystem {
  systemName : jstr; logo : jstr; footerHtml : option jstr; demoSiteEnabled : option bool; displayTokenStatEnabled : option bool; currency : StoredCurrency }.
(** [setConfig(newConfig)]: the fields that are given, the currency merged. *)
Record PartialConfig := mkPartial {
  n_systemName : option jstr; n_logo : option jstr; n_footerHtml : option jstr; n_demoSiteEnabled : option bool; n_displayTokenStatEnabled : option bool;
  n_currency : option StoredCurrency }.
Definition setConfig (newConfig : PartialConfig) (config : SystemConfig) : SystemConfig :=
  mkSystem (default (systemName config) (n_systemName newConfig)) (default (logo config) (n_logo newConfig))
    (orElse (n_footerHtml newConfig) (footerHtml config)) (orElse (n_demoSiteEnabled newConfig) (demoSiteEnabled config))
    (orElse (n_displayTokenStatEnabled newConfig) (displayTokenStatEnabled config))
    (match n_currency newConfig with Some c => spreadCurrency (currency config) c | None => currency config end).

(** ** The configuration in use (lib/currency.ts) *)

Definition isCurrencyDisplayType (value : jsval) : option CurrencyDisplayType :=
  match value with
  | VStr s => if s === js "USD" then Some USD else if s === js "CNY" then Some CNY else if s === js "TOKENS" then Some TOKENS
              else if s === js "CUSTOM" then Some CUSTOM else None
  | _ => None
  end.
Definition parseCurrencyDisplayType (value : jsval) (fallback : CurrencyDisplayType) : CurrencyDisplayType := default fallback (isCurrencyDisplayType value).

(** [x && x > 0 ? x : fallback] *)
Definition positiveOr (fallback : number) (x : option number) : number :=
  match x with Some x => if num_truthy x && num_ltb num_zero x then x else fallback | None => fallback end.

Definition getConfig (stored : option StoredCurrency) : CurrencyConfig :=
  let d := DEFAULT_CURRENCY_CONFIG in
  match stored with
  | None => d
  | Some c =>
      mkConfig (default (displayInCurrency d) (s_displayInCurrency c)) (default (quotaDisplayType d) (s_quotaDisplayType c))
        (positiveOr (quotaPerUnit d) (s_quotaPerUnit c)) (positiveOr (usdExchangeRate d) (s_usdExchangeRate c))
        (str_or (trim (default [] (s_customCurrencySymbol c))) (customCurrencySymbol d))
        (positiveOr (customCurrencyExchangeRate d) (s_customCurrencyExchangeRate c))
        (default (paymentCurrencySymbol d) (s_paymentCurrencySymbol c))
  end.

Inductive DisplayMeta :=
| MCurrency (symbol currencyCode : jstr) (exchangeRate : number)
| MCustom (symbol : jstr) (exchangeRate : number)
| MTokens (quotaPerUnit : number).

Definition getDisplayMeta (config : CurrencyConfig) : DisplayMeta :=
  match quotaDisplayType config with
  | CNY => MCurrency yen (js "CNY") (usdExchangeRate config)
  | CUSTOM => MCustom (customCurrencySymbol config) (customCurrencyExchangeRate config)
  | TOKENS => MTokens (quotaPerUnit config)
  | USD => MCurrency (js "$") (js "USD") (num_of_Z 1)
  end.

Definition getBillingDisplayMeta (config : CurrencyConfig) : DisplayMeta :=
  match getDisplayMeta config with MTokens _ => MCurrency (js "$") (js "USD") (num_of_Z 1) | meta => meta end.

Definition getPaymentCurrencyMeta (stored : option StoredCurrency) : jstr * number :=
  let config := getConfig stored in
  let rate := if num_ltb num_zero (usdExchangeRate config) then usdExchangeRate config else num_of_Z 1 in
  let symbol := trim (paymentCurrencySymbol config) in
  (if truthy_str symbol then symbol
   else match quotaDisplayType config with USD => js "$" | CNY => yen | CUSTOM => yen | TOKENS => js "$" end, rate).

(** ** Options *)

Record CurrencyFormatOptions := mkOptions {
  o_digitsLarge : option nat; o_digitsSmall : option nat; o_abbreviate : option bool; o_minimumNonZero : option number; o_compact : option bool;
  o_showSymbol : option bool; o_locale : option jstr }.
Record ResolvedOptions := mkResolved {
  digitsLarge : nat; digitsSmall : nat; abbreviate : bool; minimumNonZero : number; compact : bool; showSymbol : bool; locale : option jstr }.
Definition DEFAULT_FORMAT_OPTIONS : ResolvedOptions := mkResolved 2 4 true num_zero false true None.
Definition mergeOptions (options : option CurrencyFormatOptions) : ResolvedOptions :=
  let d := DEFAULT_FORMAT_OPTIONS in
  match options with
  | None => d
  | Some o =>
      mkResolved (default (digitsLarge d) (o_digitsLarge o)) (default (digitsSmall d) (o_digitsSmall o)) (default (abbreviate d) (o_abbreviate o))
        (default (minimumNonZero d) (o_minimumNonZero o)) (default (compact d) (o_compact o)) (default (showSymbol d) (o_showSymbol o))
        (orElse (o_locale o) (locale d))
  end.

(** ** Texts of numbers *)

(** The units without the zeros at their end. *)
Fixpoint dropZeros (s : jstr) : jstr :=
  match s with
  | [] => []
  | c :: s' => match dropZeros s' with [] => if (c =? 48)%N then [] else [c] | t => c :: t end
  end.
(** [str.replace(/(\.[0-9]*?)0+$/, '$1')] with the lazy star: the first point
    after which only digits follow, of which the last is a zero. *)
Fixpoint dropFractionZeros (s : jstr) : jstr :=
  match s with
  | [] => []
  | c :: s' =>
      if (c =? 46)%N && all_digits s' && negb (dropZeros s' === s') then c :: dropZeros s' else c :: dropFractionZeros s'
  end.
(** [str.replace(/\.$/, '')] *)
Fixpoint dropPoint (s : jstr) : jstr :=
  match s with [] => [] | [c] => if (c =? 46)%N then [] else [c] | c :: s' => c :: dropPoint s' end.
Definition removeTrailingZeros (str : jstr) : jstr :=
  if negb (includes (js ".") str) then str else dropPoint (dropFractionZeros str).

Definition formatNumberWithSuffix (value : number) (digitsLarge digitsSmall : nat) (abbreviate : bool) : jstr :=
  let abs := num_abs value in
  if abbreviate && num_leb (num_of_Z 1000) abs then removeTrailingZeros (num_to_fixed 1 (num_div value (num_of_Z 1000))) ++ js "k"
  else let digits := if num_leb (num_of_Z 1) abs then digitsLarge else digitsSmall in removeTrailingZeros (num_to_fixed (Z.of_nat digits) value).

(** [Math.pow(10, -digits)] *)
Definition powTenNeg (digits : nat) : number := num_of_dec false 1 (- Z.of_nat digits).
Definition adjustForMinimum (value : number) (digits : nat) (minimumNonZero : number) : number :=
  if num_eqb value num_zero then value
  else
    let threshold := if num_ltb num_zero minimumNonZero then minimumNonZero else powTenNeg digits in
    let abs := num_abs value in
    if num_ltb num_zero abs && num_ltb abs threshold then if num_ltb num_zero value then threshold else SFopp threshold
    else value.

(** ** Formatting *)

(** The options that reach [Intl.NumberFormat]: the currency, if one is shown,
    compact notation and the fraction digits. *)
Record IntlOptions := mkIntl { i_locale : option jstr; i_currency : option jstr; i_percent : bool; i_compact : bool; i_minDigits : option nat; i_maxDigits : nat }.

(** [Number.isNaN(x)] *)
Definition isNaN (x : number) : bool := match x with S754_nan => true | _ => false end.

Section Formatting.
Context (intl : IntlOptions -> number -> jstr).

Definition formatCurrencyValue (value : number) (options : ResolvedOptions) (meta : DisplayMeta) : jstr :=
  let digits := if num_leb (num_of_Z 1) (num_abs value) then digitsLarge options else digitsSmall options in
  let adjustedValue := adjustForMinimum value digits (minimumNonZero options) in
  let maxDigits := if compact options then 1%nat else digits in
  let decimal := intl (mkIntl (locale options) None false (compact options) (Some 0%nat) maxDigits) adjustedValue in
  match meta with
  | MTokens _ =>
      if compact options then intl (mkIntl (locale options) None false true None 1) value
      else formatNumberWithSuffix value (digitsLarge options) (digitsSmall options) (abbreviate options)
  | MCurrency _ code _ =>
      if negb (showSymbol options) then decimal
      else intl (mkIntl (locale options) (Some code) false (compact options) (Some 0%nat) maxDigits) adjustedValue
  | MCustom symbol _ => symbol ++ js " " ++ decimal
  end.

Context (stored : option StoredCurrency).

Definition getCurrencyDisplay : CurrencyConfig * DisplayMeta := let config := getConfig stored in (config, getDisplayMeta config).

Definition formatCurrencyFromUSD (amountUSD : option number) (options : option CurrencyFormatOptions) : jstr :=
  match amountUSD with
  | None => js "-"
  | Some amount =>
      if isNaN amount then js "-"
      else
        let '(config, meta) := getCurrencyDisplay in
        let merged := mergeOptions options in
        match meta with
        | MTokens _ =>
            let tokens := num_mul amount (quotaPerUnit config) in
            if compact merged then intl (mkIntl (locale merged) None false true None 1) tokens
            else formatNumberWithSuffix tokens 0 (digitsSmall merged) (abbreviate merged)
        | MCurrency _ _ exchangeRate | MCustom _ exchangeRate => formatCurrencyValue (num_mul amount exchangeRate) merged meta
        end
  end.

Definition formatBillingCurrencyFromUSD (amountUSD : option number) (options : option CurrencyFormatOptions) : jstr :=
  match amountUSD with
  | None => js "-"
  | Some amount =>
      if isNaN amount then js "-"
      else
        let meta := getBillingDisplayMeta getCurrencyDisplay.1 in
        let value := match meta with MCurrency _ _ rate | MCustom _ rate => num_mul amount rate | MTokens _ => amount end in
        formatCurrencyValue value (mergeOptions options) meta
  end.

Definition formatQuotaWithCurrency (quota : option number) (options : option CurrencyFormatOptions) : jstr :=
  match quota with
  | None => js "-"
  | Some q => if isNaN q then js "-" else formatCurrencyFromUSD (Some (num_div q (quotaPerUnit getCurrencyDisplay.1))) options
  end.

Definition formatLocalCurrencyAmount (amount : option number) (options : option CurrencyFormatOptions) : jstr :=
  match amount with
  | None => js "-"
  | Some a => if isNaN a then js "-" else formatCurrencyValue a (mergeOptions options) (getBillingDisplayMeta getCurrencyDisplay.1)
  end.

Definition getCurrencyLabel : jstr :=
  let '(config, meta) := getCurrencyDisplay in
  match meta with
  | MTokens _ => js "Tokens"
  | _ => match quotaDisplayType config with
         | CNY => js "CNY"
         | CUSTOM => match meta with MCustom symbol _ => symbol | _ => js "Custom" end
         | USD | TOKENS => js "USD"
         end
  end.
Definition isCurrencyDisplayEnabled : bool := match getCurrencyDisplay.2 with MTokens _ => false | _ => true end.

(** ** lib/format.ts *)

Definition formatNumber (value : option number) (locales : option jstr) : jstr :=
  match value with Some v => if isNaN v then js "-" else intl (mkIntl locales None false false None 2) v | None => js "-" end.
Definition formatCompactNumber (value : option number) (locales : option jstr) : jstr :=
  match value with Some v => if isNaN v then js "-" else intl (mkIntl locales None false true None 1) v | None => js "-" end.
Definition formatPercent (value : option number) : jstr :=
  match value with Some v => if isNaN v then js "-" else intl (mkIntl None None true false None 2) (num_div v (num_of_Z 100)) | None => js "-" end.
Definition formatCurrencyUSD (value : option number) : jstr := formatCurrencyFromUSD value None.
Definition formatQuota (quota : number) : jstr :=
  formatQuotaWithCurrency (Some quota) (Some (mkOptions (Some 2%nat) (Some 4%nat) (Some true) None None None None)).
Definition formatLogQuota (quota : number) : jstr :=
  formatQuotaWithCurrency (Some quota) (Some (mkOptions (Some 4%nat) (Some 6%nat) (Some false) None None None None)).

Definition parseQuotaFromDollars (amount : number) : number :=
  if negb (num_is_finite amount) then num_zero
  else
    let '(config, meta) := getCurrencyDisplay in
    match meta with
    | MTokens _ => num_round amount
    | MCurrency _ _ exchangeRate | MCustom _ exchangeRate =>
        let usdAmount := if num_ltb num_zero exchangeRate then num_div amount exchangeRate else amount in
        num_round (num_mul usdAmount (quotaPerUnit config))
    end.
Definition quotaUnitsToDollars (units : number) : number :=
  let '(config, meta) := getCurrencyDisplay in
  match meta with
  | MTokens _ => units
  | MCurrency _ _ exchangeRate | MCustom _ exchangeRate => num_mul (num_div units (quotaPerUnit config)) exchangeRate
  end.
End Formatting.

Definition formatTokens (tokens : number) : jstr :=
  if num_eqb tokens num_zero then js "-"
  else if num_ltb tokens (num_of_Z 1000) then num_to_str tokens
  else if num_ltb tokens (num_of_Z 1000000) then num_to_fixed 1 (num_div tokens (num_of_Z 1000)) ++ js "K"
  else num_to_fixed 2 (num_div tokens (num_of_Z 1000000)) ++ js "M".

(** [x % y] for a positive integer [y]: exact, with the sign of [x]. *)
Definition num_mod (x : number) (y : positive) : number :=
  match x with
  | S754_finite s m e =>
      if (0 <=? e)%Z then binary_normalize prec64 emax64 ((if s then -1 else 1) * (Z.pos m * 2 ^ e mod Z.pos y)) 0 s
      else binary_normalize prec64 emax64 ((if s then -1 else 1) * (Z.pos m mod (Z.pos y * 2 ^ (- e)))) e s
  | S754_zero s => x
  | _ => num_nan
  end.
Definition formatUseTime (seconds : number) : jstr :=
  if num_ltb seconds (num_of_Z 60) then num_to_fixed 1 seconds ++ js "s"
  else
    let minutes := match num_floor (num_div seconds (num_of_Z 60)) with Some z => print_int z | None => num_to_str (num_div seconds (num_of_Z 60)) end in
    minutes ++ js "m " ++ num_to_fixed 0 (num_mod seconds 60) ++ js "s".

(** The unit and the count given to [Intl.RelativeTimeFormat]. *)
Definition formatTimestampRelative (relative : jstr -> number -> jstr) (now : number) (timestamp : option number) (seconds : bool) : jstr :=
  match timestamp with
  | None => js "-"
  | Some ts =>
      if negb (num_truthy ts) || num_eqb ts (num_of_Z (-1)) then js "-"
      else
        let ms := if seconds then num_mul ts (num_of_Z 1000) else ts in
        let diffSeconds := num_round (num_div (num_sub ms now) (num_of_Z 1000)) in
        let absSeconds := num_abs diffSeconds in
        let count d := num_round (num_div diffSeconds (num_of_Z d)) in
        if num_ltb absSeconds (num_of_Z 60) then relative (js "second") diffSeconds
        else if num_ltb absSeconds (num_of_Z 3600) then relative (js "minute") (count 60%Z)
        else if num_ltb absSeconds (num_of_Z 86400) then relative (js "hour") (count 3600%Z)
        else if num_ltb absSeconds (num_of_Z 2592000) then relative (js "day") (count 86400%Z)
        else if num_ltb absSeconds (num_of_Z 31536000) then relative (js "month") (count 2592000%Z)
        else relative (js "year") (count 31536000%Z)
  end.

(** ** Colours *)

(** The signed 32-bit integer that the bit operators work on. *)
Definition toInt32 (z : Z) : Z := ((z + 2 ^ 31) mod 2 ^ 32 - 2 ^ 31)%Z.
(** [hash = charCode + ((hash << 5) - hash); hash = hash & hash] *)
Definition hashStep (hash : Z) (c : N) : Z := toInt32 (Z.of_N c + (toInt32 (Z.shiftl hash 5) - hash)).
Definition stringHash (str : jstr) : Z := foldl hashStep 0%Z str.
Definition stringToColor (str : jstr) : jstr :=
  match str with
  | [] => js "gray"
  | _ =>
      let hash := stringHash str in
      let hue := Z.abs (Z.rem hash 360) in
      let saturation := (65 + Z.rem (Z.abs hash) 10)%Z in
      let lightness := (55 + Z.rem (Z.abs (Z.shiftr hash 8)) 10)%Z in
      js "hsl(" ++ print_int hue ++ js ", " ++ print_int saturation ++ js "%, " ++ print_int lightness ++ js "%)"
  end.

(** ** The configuration in use *)

Lemma positiveOr_positive fallback x : num_ltb num_zero fallback = true -> num_ltb num_zero (positiveOr fallback x) = true.
Proof. intros H. destruct x as [x|]; [|done]. cbn. destruct (num_truthy x && num_ltb num_zero x) eqn:E; [|done]. by bool_hyps. Qed.

(** Whatever the store holds, after local storage or the server have put
    anything in it: the rates used for conversion are positive, the custom unit
    has a visible symbol without blanks around it, and so has the payment. *)
Theorem config_always_usable stored (config := getConfig stored) :
  num_ltb num_zero (quotaPerUnit config) = true /\ num_ltb num_zero (usdExchangeRate config) = true /\
  num_ltb num_zero (customCurrencyExchangeRate config) = true /\
  trim (customCurrencySymbol config) = customCurrencySymbol config /\ customCurrencySymbol config <> [] /\
  num_ltb num_zero (getPaymentCurrencyMeta stored).2 = true /\ (getPaymentCurrencyMeta stored).1 <> [].
Proof.
  assert (Hrate : num_ltb num_zero (usdExchangeRate config) = true) by (destruct stored as [c|]; [by apply positiveOr_positive|done]).
  split_and!; [destruct stored as [c|]; [by apply positiveOr_positive|done]|exact Hrate|destruct stored as [c|]; [by apply positiveOr_positive|done]|..].
  - destruct stored as [c|]; [|done]. cbn [getConfig customCurrencySymbol config]. unfold config. cbn [getConfig customCurrencySymbol]. unfold str_or.
    destruct (truthy_str _); [apply trim_idem|done].
  - destruct stored as [c|]; [|done]. unfold config. cbn [getConfig customCurrencySymbol]. unfold str_or.
    destruct (truthy_str _) eqn:E; [by apply truthy_str_spec|done].
  - unfold getPaymentCurrencyMeta. fold config. cbv zeta. by rewrite Hrate.
  - unfold getPaymentCurrencyMeta. fold config. cbv zeta. cbn [fst]. destruct (truthy_str _) eqn:E; [by apply truthy_str_spec|].
    by destruct (quotaDisplayType config).
Qed.

(** ** Small amounts *)

Lemma num_abs_opp x : num_abs (SFopp x) = num_abs x.
Proof. by destruct x. Qed.
Lemma num_ltb_zero_pos x : num_ltb num_zero x = true -> (exists m e, x = S754_finite false m e) \/ x = num_inf.
Proof. destruct x as [[]|[]| |[] m e]; try done; intros _; [by right|left; eauto]. Qed.

(** An amount that is not zero is never shown as zero by rounding: it is
    replaced, when it is smaller than the smallest amount with the digits asked
    for, by that amount with its sign, and otherwise shown as it is. *)
Theorem small_amounts_stay_visible value digits minimum (threshold := if num_ltb num_zero minimum then minimum else powTenNeg digits)
  (Hvalue : num_eqb value num_zero = false) (Hnan : isNaN value = false) (Hthreshold : num_ltb num_zero threshold = true) :
  let adjusted := adjustForMinimum value digits minimum in
  num_ltb (num_abs adjusted) threshold = false /\
  num_ltb num_zero adjusted = num_ltb num_zero value /\ num_ltb adjusted num_zero = num_ltb value num_zero /\
  (num_ltb (num_abs value) threshold = false -> adjusted = value).
Proof.
  unfold adjustForMinimum. rewrite Hvalue. fold threshold. cbv zeta.
  assert (Habs : num_ltb num_zero (num_abs value) = true) by (by destruct value as [[]|[]| |[] m e]).
  rewrite Habs. cbn [andb]. destruct (num_ltb (num_abs value) threshold) eqn:Et; [|done].
  assert (Hirr : forall x, num_ltb x x = false) by (intros x; unfold num_ltb, SFltb, SFcompare; destruct x as [[]|[]| |[] m e]; try done; rewrite Z.compare_refl, Pos.compare_refl; done).
  destruct (num_ltb_zero_pos threshold Hthreshold) as [(m & e & E)|E]; rewrite E in *; clear E;
    destruct value as [[]|[]| |[] m' e']; try done; cbn; split_and!; try done; apply Hirr.
Qed.

Lemma small_amounts_stay_visible_witness :
  let value := num_of_str (js "-0.00001") in
  num_ltb (num_abs (adjustForMinimum value 4 num_zero)) (powTenNeg 4) = false /\
  num_ltb (adjustForMinimum value 4 num_zero) num_zero = num_ltb value num_zero.
Proof.
  intros value.
  destruct (small_amounts_stay_visible value 4 num_zero ltac:(vm_compute; reflexivity) ltac:(vm_compute; reflexivity) ltac:(vm_compute; reflexivity)) as (H1 & _ & H3 & _).
  split; [exact H1|exact H3].
Defined.

(** ** Digits *)

Lemma dropZeros_spec s : exists n, s = dropZeros s ++ replicate n 48%N /\ last (dropZeros s) <> Some 48%N.
Proof.
  induction s as [|c s (n & E & Hl)]; [by exists 0%nat|]. cbn [dropZeros]. destruct (dropZeros s) as [|d t] eqn:Ed.
  - destruct (N.eqb_spec c 48) as [->|Hc]; [exists (S n); cbn; split; [by rewrite E at 1|done]|].
    exists n. cbn in *. split; [by rewrite E at 1|]. intros [= ->]. done.
  - exists n. split; [cbn; by rewrite E at 1|]. done.
Qed.

Lemma dropZeros_app a b : dropZeros b <> [] -> dropZeros (a ++ b) = a ++ dropZeros b.
Proof. intros H. induction a as [|c a IH]; [done|]. cbn. rewrite IH. destruct (a ++ dropZeros b) eqn:E; [|done]. by apply app_eq_nil in E as [_ ?]. Qed.

Lemma dropFractionZeros_skip a s : Forall (fun c => (c =? 46)%N = false) a -> dropFractionZeros (a ++ s) = a ++ dropFractionZeros s.
Proof. induction 1 as [|c a Hc _ IH]; [done|]. cbn. by rewrite Hc, IH. Qed.

Lemma dropPoint_last s c : dropPoint (s ++ [c]) = if (c =? 46)%N then s else s ++ [c].
Proof.
  induction s as [|x s IH]; [by cbn; destruct (c =? 46)%N|]. cbn [app dropPoint]. destruct (s ++ [c]) eqn:E; [by destruct s|]. rewrite <- E, IH in *.
  by destruct (c =? 46)%N.
Qed.

Lemma includes_point a b : includes (js ".") (a ++ 46%N :: b) = true.
Proof. apply includes_spec. by exists a, b. Qed.

Lemma digits_no_point s : all_digits s = true -> Forall (fun c => (c =? 46)%N = false) s.
Proof. intros H%all_digits_Forall. eapply Forall_impl; [exact H|]. intros c Hc%is_digit_spec. apply N.eqb_neq. lia. Qed.

Lemma dropPoint_nonpoint s t : t <> [] -> last t <> Some 46%N -> dropPoint (s ++ t) = s ++ t.
Proof.
  intros Ht Hl. destruct t as [|c t _] using rev_ind; [done|]. rewrite app_assoc, dropPoint_last. destruct (N.eqb_spec c 46) as [->|]; [|done].
  by rewrite last_snoc in Hl.
Qed.

(** A number with a fraction loses the zeros at its end and nothing else; if
    the fraction is all zeros it loses the point too. *)
Theorem trailing_zeros_removed ip fp (Hip : all_digits ip = true) (Hfp : all_digits fp = true) :
  exists fp' n, fp = fp' ++ replicate n 48%N /\ last fp' <> Some 48%N /\
    removeTrailingZeros (ip ++ 46%N :: fp) = ip ++ match fp' with [] => [] | _ => 46%N :: fp' end.
Proof.
  destruct (dropZeros_spec fp) as (n & E & Hl). exists (dropZeros fp), n. split_and!; [done|done|].
  unfold removeTrailingZeros. rewrite includes_point. cbn [negb]. rewrite dropFractionZeros_skip by (by apply digits_no_point).
  assert (dropFractionZeros (46%N :: fp) = 46%N :: dropZeros fp) as ->.
  { cbn [dropFractionZeros]. rewrite Hfp. cbn [N.eqb Pos.eqb andb]. case_bool_decide as Ez; [|done]. cbn. f_equal. rewrite Ez.
    rewrite <- (app_nil_r fp) at 1. rewrite dropFractionZeros_skip by (by apply digits_no_point). apply app_nil_r. }
  destruct (dropZeros fp) as [|c t] eqn:Ed; [by rewrite (dropPoint_last ip 46%N), app_nil_r|]. apply dropPoint_nonpoint; [done|].
  change (46%N :: c :: t) with ([46%N] ++ (c :: t)). rewrite last_app_cons. intros H46%last_Some_elem_of.
  apply digits_no_point in Hfp. rewrite Forall_forall in Hfp. assert (Hin : 46%N ∈ fp) by (rewrite E; apply elem_of_app; by left). by apply Hfp in Hin.
Qed.

Lemma trailing_zeros_removed_witness : exists fp' n, js "2500" = fp' ++ replicate n 48%N /\ removeTrailingZeros (js "1.2500") = js "1" ++ match fp' with [] => [] | _ => 46%N :: fp' end.
Proof.
  destruct (trailing_zeros_removed (js "1") (js "2500") eq_refl eq_refl) as (fp' & n & H1 & _ & H3). exists fp', n. split; [exact H1|exact H3].
Defined.

(** ** Colours *)

(** The hash without the limit of 32 bits. *)
Definition polynomialHash (str : jstr) : Z := foldl (fun h c => h * 31 + Z.of_N c)%Z 0%Z str.

Lemma toInt32_cong a b : (a mod 2 ^ 32 = b mod 2 ^ 32)%Z -> toInt32 a = toInt32 b.
Proof. unfold toInt32. intros H. rewrite (Z.add_mod a), (Z.add_mod b), H by done. done. Qed.
Lemma toInt32_mod a : (toInt32 a mod 2 ^ 32 = a mod 2 ^ 32)%Z.
Proof.
  unfold toInt32. rewrite Zminus_mod_idemp_l. f_equal. lia.
Qed.
Lemma toInt32_range a : (- 2 ^ 31 <= toInt32 a < 2 ^ 31)%Z.
Proof. unfold toInt32. pose proof (Z.mod_pos_bound (a + 2 ^ 31) (2 ^ 32) ltac:(done)). lia. Qed.

Lemma hashStep_poly h c : hashStep (toInt32 h) c = toInt32 (h * 31 + Z.of_N c).
Proof.
  unfold hashStep. apply toInt32_cong. rewrite Z.shiftl_mul_pow2 by done.
  rewrite <- Z.add_mod_idemp_r, <- Zminus_mod_idemp_l, toInt32_mod, Zminus_mod_idemp_l, Z.add_mod_idemp_r by done.
  replace (Z.of_N c + (toInt32 h * 2 ^ 5 - toInt32 h))%Z with (toInt32 h * 31 + Z.of_N c)%Z by lia.
  rewrite <- Z.add_mod_idemp_l, <- Z.mul_mod_idemp_l, toInt32_mod, Z.mul_mod_idemp_l, Z.add_mod_idemp_l by done. done.
Qed.

Lemma stringHash_poly str : stringHash str = toInt32 (polynomialHash str).
Proof.
  unfold stringHash, polynomialHash. change 0%Z with (toInt32 0) at 1. generalize 0%Z. induction str as [|c str IH]; intros h; [done|]. cbn [foldl].
  by rewrite hashStep_poly, IH.
Qed.

(** The colour of a label is the one of the base-31 polynomial of its units,
    taken to 32 bits at the end instead of at each step, and every part of it is
    in range although the hash may be negative and overflow. *)
Theorem label_colour_exact str (Hstr : str <> []) (hash := toInt32 (polynomialHash str)) :
  exists hue saturation lightness, stringToColor str =
      js "hsl(" ++ print_int hue ++ js ", " ++ print_int saturation ++ js "%, " ++ print_int lightness ++ js "%)" /\
    (hue = Z.abs hash mod 360 /\ 0 <= hue < 360 /\ saturation = 65 + Z.abs hash mod 10 /\ 65 <= saturation < 75 /\ 55 <= lightness < 65)%Z.
Proof.
  unfold stringToColor. destruct str as [|c s]; [done|]. rewrite stringHash_poly. fold hash. cbv zeta. do 3 eexists. split; [reflexivity|].
  replace (Z.abs (Z.rem hash 360)) with (Z.rem (Z.abs hash) 360) by (by rewrite <- Z.rem_abs).
  pose proof (Z.rem_bound_pos (Z.abs hash) 360 ltac:(lia) ltac:(lia)). pose proof (Z.rem_bound_pos (Z.abs hash) 10 ltac:(lia) ltac:(lia)).
  pose proof (Z.rem_bound_pos (Z.abs (Z.shiftr hash 8)) 10 ltac:(lia) ltac:(lia)).
  rewrite (Z.rem_mod_nonneg (Z.abs hash) 360), (Z.rem_mod_nonneg (Z.abs hash) 10) in * by lia. lia.
Qed.

Lemma label_colour_exact_witness : exists hue saturation lightness, stringToColor (js "production-eu-west-1") =
  js "hsl(" ++ print_int hue ++ js ", " ++ print_int saturation ++ js "%, " ++ print_int lightness ++ js "%)" /\ (0 <= hue < 360)%Z.
Proof.
  destruct (label_colour_exact (js "production-eu-west-1") ltac:(done)) as (h & s & l & H1 & _ & H2 & _). exists h, s, l. split; [exact H1|exact H2].
Defined.

(** ** Quota units *)

(** When amounts are shown as tokens, a whole number of units survives being
    shown in an input and read from it. *)
Theorem token_input_round_trip stored units (Htokens : s_quotaDisplayType stored = Some TOKENS) (Hwhole : num_round units = units)
  (Hfinite : num_is_finite units = true) : parseQuotaFromDollars (Some stored) (quotaUnitsToDollars (Some stored) units) = units.
Proof. unfold quotaUnitsToDollars, parseQuotaFromDollars, getCurrencyDisplay, getDisplayMeta. cbn. rewrite Htokens. cbn. by rewrite Hfinite. Qed.

Lemma token_input_round_trip_witness :
  let stored := mkStored None (Some TOKENS) None None None None None in
  parseQuotaFromDollars (Some stored) (quotaUnitsToDollars (Some stored) (num_of_Z 123456789)) = num_of_Z 123456789.
Proof. intros stored. apply (token_input_round_trip stored (num_of_Z 123456789)); vm_compute; reflexivity. Defined.

(** In yuan at 7.3 to the dollar, every whole number of units up to two
    thousand survives it too, although neither conversion is exact. *)
Example yuan_input_round_trip :
  let stored := Some (mkStored None (Some CNY) None (Some (num_of_str (js "7.3"))) None None None) in
  forallb (fun n => num_eqb (parseQuotaFromDollars stored (quotaUnitsToDollars stored (num_of_Z (Z.of_nat n)))) (num_of_Z (Z.of_nat n))) (seq 0 2000) = true.
Proof. vm_compute. reflexivity. Qed.

(** ** What the comments of the module say *)

(** Ten dollars as tokens are documented as [5,000,000]; a custom unit is
    documented to stand right before the number. *)
Example tokens_are_abbreviated intl :
  formatCurrencyFromUSD intl (Some (mkStored None (Some TOKENS) None None None None None)) (Some (num_of_Z 10)) None = js "5000k".
Proof. vm_compute. reflexivity. Qed.

Example custom_symbol_is_separated intl (stored := mkStored None (Some CUSTOM) None None (Some (js "E")) (Some (num_of_str (js "0.9"))) None) :
  formatCurrencyFromUSD intl (Some stored) (Some (num_of_Z 10)) None = js "E " ++ intl (mkIntl None None false false (Some 0%nat) 2) (num_of_Z 9).
Proof. vm_compute. reflexivity. Qed.

(** The rest of a minute is rounded after the minutes are counted, so it can be
    shown as sixty seconds. *)
Example use_time_samples :
  (map formatUseTime [num_of_str (js "59.94"); num_of_Z 60; num_of_str (js "119.6"); num_of_Z 3725], map formatTokens [num_zero; num_of_Z 999; num_of_Z 1500; num_of_Z 2345678])
  = ([js "59.9s"; js "1m 0s"; js "1m 60s"; js "62m 5s"], [js "-"; js "999"; js "1.5K"; js "2.35M"]).
Proof. vm_compute. reflexivity. Qed.
