(* ===== verification/TierEditor.v ===== *)
(** * The billing expression editor (system-settings/models/tiered-pricing-editor.tsx)

    A model may be priced by an expression.  Its editor shows the expression as
    tiers and request rules or as text, offers presets, and hands both parts of
    the expression to the panel around it.  The state, the properties of the
    panel and the effects are modelled as React runs them: an event or a commit
    changes state and properties together, and after every commit the effects
    whose dependencies changed run in their order, all reading the values of
    the render before them.  [evalExprLocally] compiles text and is left out. *)
From stdpp Require Import prelude list strings.
From S2P Require Import Prelude JsString JsNumber JsValue JsMap JsRegex RequestRules Tiers.
Open Scope js_scope.

(** ** Number inputs *)

Definition priceToUnitCost (price : number) : number := num_or_zero price.
Definition unitCostToPrice (uc : number) : number := num_or_zero uc.

Definition formatNumberDraft (value : number + jstr) : jstr :=
  match value with inl n => if num_is_finite n then num_to_str n else js "0" | inr s => s end.
Definition parseNumberDraft (value : jstr) : number :=
  if trim value === [] then num_zero else let next := num_of_str value in if num_is_finite next then next else num_zero.
Definition isZeroDraft (value : jstr) : bool := negb (trim value === []) && num_eqb (parseNumberDraft value) num_zero.

(** [DraftNumberInput]: what is typed, and the number its owner gets. *)
Record DraftInput := mkDraft { df_draft : jstr; df_focused : bool }.
Definition mountDraft (value : number + jstr) : DraftInput := mkDraft (formatNumberDraft value) false.
Definition draftEffect (value : number + jstr) (d : DraftInput) : DraftInput :=
  if negb (df_focused d) then mkDraft (formatNumberDraft value) false else d.
Definition draftChange (nextDraft : jstr) (d : DraftInput) : DraftInput * number := (mkDraft nextDraft (df_focused d), parseNumberDraft nextDraft).
Definition draftFocus (d : DraftInput) : DraftInput := mkDraft (df_draft d) true.
Definition draftBlur (d : DraftInput) : DraftInput * number :=
  let normalized := parseNumberDraft (df_draft d) in (mkDraft (num_to_str normalized) false, normalized).

(** ** One tier ([VisualTierCard]) *)

(** [xs.filter((_, j) => j !== i)] *)
Definition removeAt {A} (i : nat) (xs : list A) : list A := delete i xs.

Definition withConditions (conditions : list TierConditionInput) (t : VisualTier) : VisualTier :=
  mkVisual (vt_label t) conditions (vt_input t) (vt_output t) (vt_cache_mode t) (vt_extra t).
Definition tierConditionChange (i : nat) (next : TierConditionInput) (t : VisualTier) : VisualTier := withConditions (<[i := next]> (vt_conditions t)) t.
Definition tierConditionRemove (i : nat) (t : VisualTier) : VisualTier := withConditions (removeAt i (vt_conditions t)) t.

Inductive TierField := FLabel (v : jstr) | FInput (v : number) | FOutput (v : number) | FExtra (field : jstr) (v : number).
Definition handlePriceChange (f : TierField) (t : VisualTier) : VisualTier :=
  match f with
  | FLabel v => mkVisual v (vt_conditions t) (vt_input t) (vt_output t) (vt_cache_mode t) (vt_extra t)
  | FInput v => mkVisual (vt_label t) (vt_conditions t) (priceToUnitCost v) (vt_output t) (vt_cache_mode t) (vt_extra t)
  | FOutput v => mkVisual (vt_label t) (vt_conditions t) (vt_input t) (priceToUnitCost v) (vt_cache_mode t) (vt_extra t)
  | FExtra field v => mkVisual (vt_label t) (vt_conditions t) (vt_input t) (vt_output t) (vt_cache_mode t) (mset field (priceToUnitCost v) (vt_extra t))
  end.
Definition handleCacheModeChange (mode : CacheMode) (t : VisualTier) : VisualTier :=
  let oneHour := js "cache_create_1h_unit_cost" in
  mkVisual (vt_label t) (vt_conditions t) (vt_input t) (vt_output t) mode
    (mset oneHour (match mode with Timed => default num_zero (mget oneHour (vt_extra t)) | Generic => num_zero end) (vt_extra t)).

(** ** The tiers ([VisualEditor]) *)

Definition renormalize (t : VisualTier) : VisualTier := normalizeVisualTier (Tiers.toPartial t).
Definition upperBound : TierConditionInput := mkCondInput VarLen OpLt (inl (num_of_Z 200000)).

Definition handleTierChange (index : nat) (next : VisualTier) (config : list VisualTier) : list VisualTier := <[index := renormalize next]> config.

Definition newTier (n : nat) : VisualTier :=
  normalizeVisualTier (Tiers.mkPartial (Some (js "tier_" ++ print_int (Z.of_nat n + 1))) (Some []) (Some num_zero) (Some num_zero) None []).
(** The last tier gets an upper bound when it has no condition. *)
Definition boundLast (config : list VisualTier) : list VisualTier :=
  match last config with
  | Some t => match vt_conditions t with [] => <[(length config - 1)%nat := renormalize (withConditions [upperBound] t)]> config | _ => config end
  | None => config
  end.
Definition handleAddTier (config : list VisualTier) : list VisualTier := boundLast config ++ [newTier (length config)].
Definition handleRemoveTier (index : nat) (config : list VisualTier) : list VisualTier :=
  let tiers := removeAt index config in if (0 <? length tiers)%nat then tiers else config.
Definition isLen (c : TierConditionInput) : bool := match ci_var c with VarLen => true | _ => false end.
Definition handleAddCondition (index : nat) (config : list VisualTier) : list VisualTier :=
  match config !! index with
  | None => config
  | Some tier =>
      if (2 <=? length (vt_conditions tier))%nat then config
      else let nextVar := if existsb isLen (vt_conditions tier) then VarC else VarLen in
           <[index := withConditions (vt_conditions tier ++ [mkCondInput nextVar OpLt (inl (num_of_Z 200000))]) tier]> config
  end.

Inductive TierEvent :=
  | AddTier | RemoveTier (i : nat) | AddCondition (i : nat)
  | TierEdit (i : nat) (f : TierField) | TierCache (i : nat) (m : CacheMode)
  | ConditionEdit (i j : nat) (c : TierConditionInput) | ConditionRemove (i j : nat).
Definition editTier (i : nat) (f : VisualTier -> VisualTier) (config : list VisualTier) : list VisualTier :=
  match config !! i with Some t => handleTierChange i (f t) config | None => config end.
Definition tierHandle (e : TierEvent) (config : list VisualTier) : list VisualTier :=
  match e with
  | AddTier => handleAddTier config
  | RemoveTier i => handleRemoveTier i config
  | AddCondition i => handleAddCondition i config
  | TierEdit i f => editTier i (handlePriceChange f) config
  | TierCache i m => editTier i (handleCacheModeChange m) config
  | ConditionEdit i j c => editTier i (tierConditionChange j c) config
  | ConditionRemove i j => editTier i (tierConditionRemove j) config
  end.
(** An event of the rendered tiers: the card and the list work on the
    normalised configuration. *)
Definition tierStep (visual : option (list VisualTier)) (e : TierEvent) : option (list VisualTier) :=
  Some (tierHandle e (normalizeVisualConfig visual)).

(** ** Request rules ([RuleConditionRow], [RuleGroupCard]) *)

Definition ruleSourceChange (source : jstr) (c : RequestCondition) : RequestCondition :=
  if source === SOURCE_TIME then CTime createEmptyTimeCondition
  else if source === SOURCE_HEADER then CParamHeader (Build_ParamHeaderCondition SrcHeader [] MATCH_EQ [])
  else if source === SOURCE_PARAM then CParamHeader (Build_ParamHeaderCondition SrcParam [] MATCH_EQ [])
  else c.
Definition ruleModeChange (mode : jstr) (c : RequestCondition) : RequestCondition :=
  match c with
  | CTime t => CTime (Build_TimeCondition (timeFunc t) (timezone t) mode (t_value t) (rangeStart t) (rangeEnd t))
  | CParamHeader p => CParamHeader (Build_ParamHeaderCondition (ph_source p) (ph_path p) mode (ph_value p))
  end.
Definition groupConditionChange (i : nat) (next : RequestCondition) (g : RequestRuleGroup) : RequestRuleGroup :=
  Build_RequestRuleGroup (<[i := next]> (conditions g)) (multiplier g).
Definition groupAddCondition (timeMode : bool) (g : RequestRuleGroup) : RequestRuleGroup :=
  Build_RequestRuleGroup (conditions g ++ [if timeMode then CTime createEmptyTimeCondition else CParamHeader createEmptyCondition]) (multiplier g).
Definition groupRemoveCondition (i : nat) (g : RequestRuleGroup) : RequestRuleGroup := Build_RequestRuleGroup (removeAt i (conditions g)) (multiplier g).
Definition groupMultiplier (value : number) (g : RequestRuleGroup) : RequestRuleGroup := Build_RequestRuleGroup (conditions g) (num_to_str value).

(** ** Presets *)

Record Preset := mkPreset { pr_key : jstr; pr_expr : jstr; pr_requestRules : list RequestRuleGroup }.
Definition plainPreset (key expr : string) : Preset := mkPreset (js key) (jsq expr) [].
Definition oneRule (c : RequestCondition) (m : string) : RequestRuleGroup := Build_RequestRuleGroup [c] (js m).
Definition headerRule (path : string) (mode : jstr) (v : string) : RequestCondition := CParamHeader (Build_ParamHeaderCondition SrcHeader (js path) mode (js v)).
Definition paramRule (path : string) (mode : jstr) (v : string) : RequestCondition := CParamHeader (Build_ParamHeaderCondition SrcParam (js path) mode (js v)).
Definition shanghai (f : TimeFunc) (mode : jstr) (v s e : string) : RequestCondition :=
  CTime (Build_TimeCondition f (js "Asia/Shanghai") mode (js v) (js s) (js e)).

Definition PRESET_GROUPS : list (jstr * list Preset) :=
  [(js "Fixed price",
     [plainPreset "flat" "tier('base', p * 2 + c * 4)";
      plainPreset "claude-opus" "tier('base', p * 5 + c * 25 + cr * 0.5 + cc * 6.25 + cc1h * 10)";
      plainPreset "gpt-5.4" "len <= 272000 ? tier('standard', p * 2.5 + c * 15 + cr * 0.25) : tier('long_context', p * 5 + c * 22.5 + cr * 0.5)"]);
   (js "Tiered",
     [plainPreset "claude-sonnet" "len <= 200000 ? tier('standard', p * 3 + c * 15 + cr * 0.3 + cc * 3.75 + cc1h * 6) : tier('long_context', p * 6 + c * 22.5 + cr * 0.6 + cc * 7.5 + cc1h * 12)";
      plainPreset "qwen3-max" "len <= 32000 ? tier('short', p * 1.2 + c * 6 + cr * 0.24 + cc * 1.5) : len <= 128000 ? tier('mid', p * 2.4 + c * 12 + cr * 0.48 + cc * 3) : tier('long', p * 3 + c * 15 + cr * 0.6 + cc * 3.75)";
      plainPreset "glm-4.5-air" "len < 32000 && c < 200 ? tier('short_output', p * 0.8 + c * 2 + cr * 0.16) : len < 32000 && c >= 200 ? tier('long_output', p * 0.8 + c * 6 + cr * 0.16) : tier('mid_context', p * 1.2 + c * 8 + cr * 0.24)";
      plainPreset "doubao-seed-1.8" "len <= 32000 && c <= 200 ? tier('discount', p * 0.8 + c * 2 + cr * 0.16 + cc * 0.17) : len <= 32000 ? tier('short', p * 0.8 + c * 8 + cr * 0.16 + cc * 0.17) : len <= 128000 ? tier('mid', p * 1.2 + c * 16 + cr * 0.16 + cc * 0.17) : tier('long', p * 2.4 + c * 24 + cr * 0.16 + cc * 0.17)"]);
   (js "Multimodal",
     [plainPreset "gpt-image-1-mini" "tier('base', p * 2 + c * 8 + img * 2.5)";
      plainPreset "gemini-2.5-flash" "tier('base', p * 0.3 + c * 2.5 + cr * 0.03 + ai * 1.0)";
      plainPreset "gemini-3-pro-image" "tier('base', p * 2 + c * 12 + img_o * 120)";
      plainPreset "qwen3-omni-flash" "tier('base', p * 0.43 + c * 3.06 + img * 0.78 + ai * 3.81 + ao * 15.11)"]);
   (js "Request rule",
     [mkPreset (js "claude-opus-fast") (jsq "tier('base', p * 5 + c * 25 + cr * 0.5 + cc * 6.25 + cc1h * 10)")
        [oneRule (headerRule "anthropic-beta" MATCH_CONTAINS "fast-mode-2026-02-01") "6"];
      mkPreset (js "gpt-5.4-tiers") (jsq "len <= 272000 ? tier('standard', p * 2.5 + c * 15 + cr * 0.25) : tier('long_context', p * 5 + c * 22.5 + cr * 0.5)")
        [oneRule (paramRule "service_tier" MATCH_EQ "priority") "2"; oneRule (paramRule "service_tier" MATCH_EQ "flex") "0.5"]]);
   (js "Time-based",
     [mkPreset (js "night-discount") (jsq "tier('base', p * 3 + c * 15)") [oneRule (shanghai hour MATCH_RANGE "" "21" "6") "0.5"];
      mkPreset (js "weekend-discount") (jsq "tier('base', p * 3 + c * 15)")
        [oneRule (shanghai weekday MATCH_EQ "0" "" "") "0.8"; oneRule (shanghai weekday MATCH_EQ "6" "" "") "0.8"]])].

(** ** The editor *)

Inductive EditorMode := VisualMode | RawMode.

(** Its state, the reference [initRef], the dependencies the first two effects
    ran with last, and the properties: the name and the two parts of the
    expression, which the panel sets as the editor asks. *)
Record TierEditor := mkTierEditor {
  ed_mode : EditorMode; ed_visual : option (list VisualTier); ed_raw : jstr; ed_groups : list RequestRuleGroup;
  ed_init : bool; ed_lastExprs : option (jstr * jstr); ed_lastName : option jstr;
  p_name : jstr; p_expr : jstr; p_rules : jstr }.

(** [tryParseRequestRuleExpr(text) || []] *)
Definition groupsOf (rules : jstr) : outcome (list RequestRuleGroup) := parsed <-- tryParseRequestRuleExpr rules ;; Ret (default [] parsed).

(** The state of the first render. *)
Definition mountEditor (name expr rules : jstr) : outcome TierEditor :=
  groups <-- groupsOf rules ;;
  Ret (mkTierEditor VisualMode (tryParseVisualConfig (Some expr)) (combineBillingExpr expr rules) groups false None None name expr rules).

Definition effectiveExpr (s : TierEditor) : outcome jstr :=
  match ed_mode s with
  | VisualMode => Ret (generateExprFromVisualConfig (ed_visual s))
  | RawMode => split <-- splitBillingExprAndRequestRules (ed_raw s) ;; Ret (billingExpr split)
  end.

(** The first effect: it reads the properties into the state once per model. *)
Definition initEffect (s : TierEditor) : outcome TierEditor :=
  if (ed_lastExprs s === Some (p_expr s, p_rules s)) || ed_init s then Ret s
  else
    groups <-- groupsOf (p_rules s) ;;
    let '(mode, visual) :=
      match tryParseVisualConfig (Some (p_expr s)) with
      | Some parsed => (VisualMode, Some parsed)
      | None => if truthy_str (p_expr s) then (RawMode, None) else (ed_mode s, Some createDefaultVisualConfig)
      end in
    Ret (mkTierEditor mode visual (combineBillingExpr (p_expr s) (p_rules s)) groups true (ed_lastExprs s) (ed_lastName s) (p_name s) (p_expr s) (p_rules s)).

(** One commit: the four effects after it. *)
Definition commit (s : TierEditor) : outcome TierEditor :=
  effective <-- effectiveExpr s ;;
  s1 <-- initEffect s ;;
  let init := if ed_lastName s === Some (p_name s) then ed_init s1 else false in
  let expr := if effective === p_expr s then p_expr s else effective in
  let rules := match ed_mode s with
               | VisualMode => let ruleExpr := buildRequestRuleExpr (ed_groups s) in if ruleExpr === p_rules s then p_rules s else ruleExpr
               | RawMode => p_rules s
               end in
  Ret (mkTierEditor (ed_mode s1) (ed_visual s1) (ed_raw s1) (ed_groups s1) init (Some (p_expr s, p_rules s)) (Some (p_name s)) (p_name s) expr rules).

Fixpoint commits (n : nat) (s : TierEditor) : outcome TierEditor :=
  match n with O => Ret s | S n' => s' <-- commit s ;; commits n' s' end.

(** *** Events *)

Definition withVisual (mode : EditorMode) (visual : option (list VisualTier)) (raw : jstr) (groups : list RequestRuleGroup) (rules : jstr) (s : TierEditor) : TierEditor :=
  mkTierEditor mode visual raw groups (ed_init s) (ed_lastExprs s) (ed_lastName s) (p_name s) (p_expr s) rules.

Definition handleVisualChange (next : list VisualTier) (s : TierEditor) : TierEditor := withVisual (ed_mode s) (Some next) (ed_raw s) (ed_groups s) (p_rules s) s.
Definition handleRuleGroupsChange (next : list RequestRuleGroup) (s : TierEditor) : TierEditor := withVisual (ed_mode s) (ed_visual s) (ed_raw s) next (p_rules s) s.
Definition handleRawChange (value : jstr) (s : TierEditor) : outcome TierEditor :=
  split <-- splitBillingExprAndRequestRules value ;; Ret (withVisual (ed_mode s) (ed_visual s) value (ed_groups s) (requestRuleExpr split) s).
Definition handleModeChange (next : EditorMode) (s : TierEditor) : outcome TierEditor :=
  match next with
  | VisualMode =>
      split <-- splitBillingExprAndRequestRules (ed_raw s) ;;
      groups <-- groupsOf (requestRuleExpr split) ;;
      let visual := default createDefaultVisualConfig (tryParseVisualConfig (Some (billingExpr split))) in
      Ret (withVisual VisualMode (Some visual) (ed_raw s) groups (requestRuleExpr split) s)
  | RawMode =>
      let expr := generateExprFromVisualConfig (ed_visual s) in
      Ret (withVisual RawMode (ed_visual s) (str_or (combineBillingExpr expr (buildRequestRuleExpr (ed_groups s))) expr) (ed_groups s) (p_rules s) s)
  end.
Definition applyPreset (preset : Preset) (s : TierEditor) : TierEditor :=
  let ruleExpr := buildRequestRuleExpr (pr_requestRules preset) in
  let combined := str_or (combineBillingExpr (pr_expr preset) ruleExpr) (pr_expr preset) in
  match tryParseVisualConfig (Some (pr_expr preset)) with
  | Some parsed => withVisual VisualMode (Some parsed) combined (pr_requestRules preset) ruleExpr s
  | None => withVisual RawMode None combined (pr_requestRules preset) ruleExpr s
  end.
