(* ===== verification/TierEditorCorrect.v ===== *)
(** * The billing expression editor: what is kept and what is lost

    An editor is [settled] when its tiers and rules are written exactly as the
    texts of the panel and those texts open again.  Edits of a settled editor
    reach the panel and settle again ([editor_keeps_edits]); every preset is an
    expression the editor can show ([presets_are_canonical]).  The reference
    [initRef] is cleared by the effect after the one that sets it, so the first
    change after opening reads the properties once more: an expression the
    editor cannot show is replaced by the free one, rules it cannot show are
    erased, and a preset with rules is applied without its prices. *)
From stdpp Require Import prelude list strings.
From S2P Require Import Prelude JsString JsNumber JsValue JsMap JsRegex RequestRules RequestRulesCorrect Tiers TiersCorrect TiersReopen TierEditor.
Open Scope js_scope.

(** ** Texts that open again *)

Definition exprOpens (expr : jstr) : Prop :=
  exists cfg, tryParseVisualConfig (Some expr) = Some cfg /\ generateExprFromVisualConfig (Some cfg) = expr.
Definition rulesOpen (rules : jstr) : Prop := exists gs, groupsOf rules = Ret gs /\ buildRequestRuleExpr gs = rules.

Lemma guarded_tiers_open tiers :
  tiers <> [] -> Forall wfVisual tiers -> guarded tiers ->
  Forall (fun t => Forall stableCondition (vt_conditions t)) tiers -> exprOpens (generateExprFromVisualConfig (Some tiers)).
Proof. intros. eexists. split; [by apply parts_reopen|]. by apply generate_reopened. Qed.

Lemma written_rules_open gs : Forall (fun g => wfGroup g = true) gs -> rulesOpen (buildRequestRuleExpr gs).
Proof. intros H. exists gs. split; [|done]. unfold groupsOf. by rewrite (parse_rules_aux gs H). Qed.

(** The expression written for no tiers is not one the visual editor shows. *)
Lemma zero_closed : tryParseVisualConfig (Some ZERO_EXPR) = None.
Proof. vm_compute. reflexivity. Qed.

Lemma split_free gs : Forall (fun g => wfGroup g = true) gs ->
  splitBillingExprAndRequestRules (combineBillingExpr ZERO_EXPR (buildRequestRuleExpr gs))
  = Ret {| billingExpr := ZERO_EXPR; requestRuleExpr := buildRequestRuleExpr gs |}.
Proof.
  intros H. destruct gs as [|g gs]; [vm_compute; reflexivity|].
  rewrite split_combine by (done || (vm_compute; reflexivity)). f_equal.
Qed.

(** ** Settled editors *)

(** What the editor shows is what the panel has, and both open again. *)
Record showing (s : TierEditor) : Prop := {
  sh_mode : ed_mode s = VisualMode;
  sh_name : ed_lastName s = Some (p_name s);
  sh_tiers : generateExprFromVisualConfig (ed_visual s) = p_expr s;
  sh_rules : buildRequestRuleExpr (ed_groups s) = p_rules s;
  sh_expr_opens : exprOpens (p_expr s);
  sh_rules_open : rulesOpen (p_rules s) }.

Definition quiet (s : TierEditor) : Prop := ed_lastExprs s = Some (p_expr s, p_rules s).
Definition settled (s : TierEditor) : Prop := showing s /\ quiet s.

(** The first effect does not run. *)
Definition idle (s : TierEditor) : Prop := ed_init s = true \/ quiet s.

Lemma init_idle s : idle s -> initEffect s = Ret s.
Proof.
  unfold initEffect, quiet. intros [->| ->]; [by rewrite orb_true_r|]. by rewrite bool_decide_eq_true_2.
Qed.

Lemma init_reads s cfg gs :
  ed_init s = false -> ~ quiet s ->
  tryParseVisualConfig (Some (p_expr s)) = Some cfg -> groupsOf (p_rules s) = Ret gs ->
  initEffect s = Ret (mkTierEditor VisualMode (Some cfg) (combineBillingExpr (p_expr s) (p_rules s)) gs true
                        (ed_lastExprs s) (ed_lastName s) (p_name s) (p_expr s) (p_rules s)).
Proof. intros Hi Hq Hc Hg. unfold initEffect. rewrite Hi, Hc, Hg, bool_decide_eq_false_2 by done. done. Qed.

Lemma same_text (a b : jstr) : (if a === b then b else a) = a.
Proof. case_bool_decide; congruence. Qed.

(** A commit of an idle visual editor hands its texts to the panel. *)
Lemma commit_idle s :
  ed_mode s = VisualMode -> ed_lastName s = Some (p_name s) -> idle s ->
  commit s = Ret (mkTierEditor VisualMode (ed_visual s) (ed_raw s) (ed_groups s) (ed_init s) (Some (p_expr s, p_rules s)) (ed_lastName s)
                    (p_name s) (generateExprFromVisualConfig (ed_visual s)) (buildRequestRuleExpr (ed_groups s))).
Proof.
  intros Hm Hn Hi. unfold commit, effectiveExpr. rewrite Hm. cbn [obind]. rewrite (init_idle s Hi). cbn [obind]. cbv zeta.
  rewrite bool_decide_eq_true_2 by done. rewrite !same_text. by rewrite Hm, <- Hn.
Qed.

Lemma commit_showing s :
  showing s -> exists s', commit s = Ret s' /\ settled s' /\ p_name s' = p_name s /\ p_expr s' = p_expr s /\ p_rules s' = p_rules s.
Proof.
  intros Hs. pose proof Hs as [Hm Hn Ht Hr He Ho]. destruct (ed_init s) eqn:Hi.
  { rewrite commit_idle by (done || by left). eexists. split; [done|]. rewrite Ht, Hr. repeat split; done. }
  destruct (decide (quiet s)) as [Hq|Hq].
  { rewrite commit_idle by (done || by right). eexists. split; [done|]. rewrite Ht, Hr. repeat split; done. }
  destruct He as (cfg & Hc & Hg), Ho as (gs & Hp & Hb).
  unfold commit, effectiveExpr. rewrite Hm. cbn [obind]. rewrite (init_reads s cfg gs) by done. cbn [obind]. cbv zeta.
  rewrite !same_text, Ht, Hr. cbn. eexists. split; [done|].
  repeat split; cbn; (done || by exists cfg || by exists gs).
Qed.

Lemma commits_app n m s : commits (n + m) s = obind (commits n s) (commits m).
Proof. revert s. induction n as [|n IH]; intros s; [done|]. cbn [Nat.add commits]. destruct (commit s); [apply IH|done]. Qed.

Lemma commits_showing n s :
  showing s -> exists s', commits (S n) s = Ret s' /\ settled s' /\ p_name s' = p_name s /\ p_expr s' = p_expr s /\ p_rules s' = p_rules s.
Proof.
  revert s. induction n as [|n IH]; intros s Hs; destruct (commit_showing s Hs) as (s1 & E1 & [H1 H1q] & Hn & He & Hr).
  - exists s1. cbn [commits]. by rewrite E1.
  - destruct (IH s1 H1) as (s2 & E2 & H2 & Hn2 & He2 & Hr2). exists s2. split; [|split; [done|]].
    + change (commits (S (S n)) s) with (obind (commit s) (commits (S n))). by rewrite E1.
    + repeat split; congruence.
Qed.

(** An idle editor whose texts open again is settled after two commits. *)
Lemma edit_settles n s expr rules :
  ed_mode s = VisualMode -> ed_lastName s = Some (p_name s) -> idle s ->
  generateExprFromVisualConfig (ed_visual s) = expr -> buildRequestRuleExpr (ed_groups s) = rules ->
  exprOpens expr -> rulesOpen rules ->
  exists s', commits (2 + n) s = Ret s' /\ settled s' /\ (p_expr s', p_rules s') = (expr, rules).
Proof.
  intros Hm Hn Hi <- <- He Hr. change (commits (2 + n) s) with (obind (commit s) (commits (S n))). rewrite commit_idle by done. cbn [obind].
  edestruct (commits_showing n) as (s' & E & Hs & _ & H1 & H2); [|exists s'; by rewrite H1, H2].
  by constructor.
Qed.

(** ** Edits *)

Inductive Edit := EditTiers (next : list VisualTier) | EditRules (next : list RequestRuleGroup) | EditPreset (preset : Preset).
Definition handleEdit (e : Edit) (s : TierEditor) : TierEditor :=
  match e with
  | EditTiers next => handleVisualChange next s
  | EditRules next => handleRuleGroupsChange next s
  | EditPreset preset => applyPreset preset s
  end.
(** The expression of a preset as the editor writes it. *)
Definition presetText (preset : Preset) : jstr := generateExprFromVisualConfig (tryParseVisualConfig (Some (pr_expr preset))).
Definition shownPreset (preset : Preset) : Prop := tryParseVisualConfig (Some (pr_expr preset)) <> None.

(** The texts an edit asks for. *)
Definition wantedTexts (e : Edit) (s : TierEditor) : jstr * jstr :=
  match e with
  | EditTiers next => (generateExprFromVisualConfig (Some next), p_rules s)
  | EditRules next => (p_expr s, buildRequestRuleExpr next)
  | EditPreset preset => (presetText preset, buildRequestRuleExpr (pr_requestRules preset))
  end.

Lemma preset_shown preset cfg s :
  tryParseVisualConfig (Some (pr_expr preset)) = Some cfg ->
  let ruleExpr := buildRequestRuleExpr (pr_requestRules preset) in
  applyPreset preset s = withVisual VisualMode (Some cfg) (str_or (combineBillingExpr (pr_expr preset) ruleExpr) (pr_expr preset))
                           (pr_requestRules preset) ruleExpr s.
Proof. intros H. unfold applyPreset. by rewrite H. Qed.

(** [C8] A settled editor hands an edit to the panel if the texts the edit asks for
    open again: if the wanted expression is read by the visual editor as tiers
    that are written as the same text, and the wanted rules as groups that are
    written as the same text, then after two commits and for as many more as
    follow the panel has exactly those texts and the editor is settled on them.
    Guarded well-formed tiers and well-formed rule groups are such
    ([guarded_tiers_open], [written_rules_open]); a numeric comparison on a
    request parameter is not, and is not covered.  A preset must be one the visual
    editor shows, and needs that the editor has read its properties before, or
    that it leaves the rules as they are. *)
Theorem editor_keeps_edits e n s :
  settled s -> exprOpens (wantedTexts e s).1 -> rulesOpen (wantedTexts e s).2 ->
  (match e with EditPreset preset => shownPreset preset /\ (ed_init s = true \/ (wantedTexts e s).2 = p_rules s) | _ => True end) ->
  exists s', commits (2 + n) (handleEdit e s) = Ret s' /\ settled s' /\ (p_expr s', p_rules s') = wantedTexts e s.
Proof.
  intros [[Hm Hn Ht Hr Ho Hro] Hq] He Hru Hp. destruct e as [next|next|preset].
  - apply edit_settles; done || by right.
  - apply edit_settles; done || by right.
  - destruct Hp as [Hsh Hp]. cbn [handleEdit wantedTexts fst snd] in *. unfold shownPreset, presetText in *.
    destruct (tryParseVisualConfig (Some (pr_expr preset))) as [cfg|] eqn:Hc; [|done]. rewrite (preset_shown preset cfg s Hc).
    apply edit_settles; try done. destruct Hp as [Hp|Hp]; [by left|right]. unfold quiet, withVisual in *. cbn [ed_lastExprs p_expr p_rules].
    by rewrite Hp.
Qed.

(** ** Opening *)

Lemma open_commit name expr rules cfg gs :
  tryParseVisualConfig (Some expr) = Some cfg -> groupsOf rules = Ret gs ->
  obind (mountEditor name expr rules) commit
  = Ret (mkTierEditor VisualMode (Some cfg) (combineBillingExpr expr rules) gs false (Some (expr, rules)) (Some name) name
           (generateExprFromVisualConfig (Some cfg)) (buildRequestRuleExpr gs)).
Proof.
  intros Hc Hg. unfold mountEditor. rewrite Hg, Hc. cbn [obind]. unfold commit, effectiveExpr. cbn [ed_mode obind ed_visual].
  rewrite (init_reads _ cfg gs) by done. cbn [obind]. cbv zeta. cbn [p_expr p_rules p_name ed_lastName ed_groups ed_mode]. by rewrite !same_text.
Qed.

(** Opening an expression and rules the editor can show changes nothing, and
    leaves the reference cleared. *)
Lemma open_settles name expr rules :
  exprOpens expr -> rulesOpen rules ->
  exists s, obind (mountEditor name expr rules) commit = Ret s /\ settled s /\ ed_init s = false /\ (p_expr s, p_rules s) = (expr, rules).
Proof.
  intros He Hr. pose proof He as (cfg & Hc & Hg). pose proof Hr as (gs & Hp & Hb).
  rewrite (open_commit name expr rules cfg gs) by done. rewrite Hg, Hb. eexists. split; [done|]. repeat split; done.
Qed.

Lemma groupsOf_nil : groupsOf [] = Ret [].
Proof. vm_compute. reflexivity. Qed.

(** Rules the editor cannot show are erased by opening it, also when nothing is
    edited: it writes the empty list of groups it shows for them. *)
Theorem complex_rules_erased name expr rules n :
  exprOpens expr -> tryParseRequestRuleExpr rules = Ret None ->
  exists s, obind (mountEditor name expr rules) (commits (2 + n)) = Ret s /\ settled s /\ (p_expr s, p_rules s) = (expr, []).
Proof.
  intros He Hn. pose proof He as (cfg & Hc & Hg). assert (Hgs : groupsOf rules = Ret []) by (unfold groupsOf; by rewrite Hn).
  pose proof (open_commit name expr rules cfg [] Hc Hgs) as E. rewrite Hg in E. unfold mountEditor in *. rewrite Hgs in *. cbn [obind] in *.
  change (commits (2 + n) ?s) with (obind (commit s) (commits (1 + n))). rewrite E. cbn [obind].
  edestruct (commits_showing n) as (s' & E' & Hs & _ & H1 & H2); [|exists s'; by rewrite H1, H2].
  constructor; try done. by exists [].
Qed.

(** ** An expression the editor cannot show *)

Lemma raw_stays n s rules :
  ed_mode s = RawMode -> ed_init s = true -> ed_lastName s = Some (p_name s) ->
  splitBillingExprAndRequestRules (ed_raw s) = Ret {| billingExpr := ZERO_EXPR; requestRuleExpr := rules |} ->
  exists s', commits (S n) s = Ret s' /\ ed_mode s' = RawMode /\ ed_raw s' = ed_raw s /\ (p_expr s', p_rules s') = (ZERO_EXPR, p_rules s).
Proof.
  revert s. induction n as [|n IH]; intros s Hm Hi Hn Hs.
  all: change (commits (S ?k) s) with (obind (commit s) (commits k)); unfold commit, effectiveExpr; rewrite Hm, Hs; cbn [obind billingExpr].
  all: rewrite init_idle by (by left); cbn [obind]; cbv zeta; rewrite same_text, Hm, Hi, bool_decide_eq_true_2 by done.
  - by eexists.
  - edestruct IH as (s' & E & Hm' & Hr & Ht); [..|exists s'; split; [exact E|split; [exact Hm'|split; [exact Hr|exact Ht]]]]; done.
Qed.

Lemma init_raw s gs :
  ed_init s = false -> ~ quiet s -> tryParseVisualConfig (Some (p_expr s)) = None -> truthy_str (p_expr s) = true -> groupsOf (p_rules s) = Ret gs ->
  initEffect s = Ret (mkTierEditor RawMode None (combineBillingExpr (p_expr s) (p_rules s)) gs true
                        (ed_lastExprs s) (ed_lastName s) (p_name s) (p_expr s) (p_rules s)).
Proof. intros Hi Hq Hc Ht Hg. unfold initEffect. by rewrite Hi, Hc, Ht, Hg, bool_decide_eq_false_2. Qed.

(** [C9] Opening an expression the editor cannot show replaces it.  The first render
    is in visual mode without tiers and writes the free expression over it; the
    cleared reference lets that be read as the new text, and after three
    commits and for as many as follow the panel has the free expression. *)
Theorem complex_expression_replaced name expr gs n :
  expr <> [] -> expr <> ZERO_EXPR -> tryParseVisualConfig (Some expr) = None -> Forall (fun g => wfGroup g = true) gs ->
  splitBillingExprAndRequestRules (combineBillingExpr expr (buildRequestRuleExpr gs))
    = Ret {| billingExpr := expr; requestRuleExpr := buildRequestRuleExpr gs |} ->
  exists s, obind (mountEditor name expr (buildRequestRuleExpr gs)) (commits (3 + n)) = Ret s /\
    ed_mode s = RawMode /\ (p_expr s, p_rules s) = (ZERO_EXPR, buildRequestRuleExpr gs).
Proof.
  intros Hne Hz Hc Hgs Hs. set (rules := buildRequestRuleExpr gs) in *.
  assert (Hg : groupsOf rules = Ret gs) by (unfold groupsOf, rules; by rewrite (parse_rules_aux gs Hgs)).
  assert (Ht : truthy_str expr = true) by by destruct expr.
  unfold mountEditor. rewrite Hg, Hc. cbn [obind]. change (commits (3 + n) ?s) with (obind (commit s) (commits (2 + n))).
  unfold commit at 1, effectiveExpr. cbn [ed_mode ed_visual obind]. rewrite (init_raw _ gs) by done.
  cbn [obind p_expr p_rules p_name ed_lastName ed_lastExprs ed_mode ed_visual ed_raw ed_groups ed_init]. cbv zeta. rewrite !same_text.
  change (generateExprFromVisualConfig None) with ZERO_EXPR. fold rules.
  change (commits (2 + n) ?s) with (obind (commit s) (commits (1 + n))).
  unfold commit at 1, effectiveExpr. cbn [ed_mode ed_raw obind]. rewrite Hs. cbn [obind billingExpr]. 
  rewrite (init_raw _ gs); [|done|unfold quiet; cbn; congruence|apply zero_closed|done|done].
  cbn [obind p_expr p_rules p_name ed_lastName ed_lastExprs ed_mode ed_visual ed_raw ed_groups ed_init]. cbv zeta.
  rewrite same_text, bool_decide_eq_true_2 by done.
  edestruct (raw_stays n) as (s' & E & Hm & _ & Hr); [..|exists s'; split; [exact E|split; [exact Hm|exact Hr]]]; try done.
  by apply split_free.
Qed.

(** ** Presets *)

Definition presets : list Preset := concat (map snd PRESET_GROUPS).
Definition canonicalPreset (p : Preset) : bool :=
  let text := presetText p in
  let rules := buildRequestRuleExpr (pr_requestRules p) in
  match tryParseVisualConfig (Some (pr_expr p)), tryParseVisualConfig (Some text), splitBillingExprAndRequestRules (combineBillingExpr text rules) with
  | Some _, Some cfg, Ret split =>
      (generateExprFromVisualConfig (Some cfg) === text) && (billingExpr split === text) && (requestRuleExpr split === rules)
  | _, _, _ => false
  end && forallb wfGroup (pr_requestRules p) && ((text === pr_expr p) || (pr_key p === js "gemini-2.5-flash")).

(** [C19] A preset applied right after opening, when its rules differ from the
    present ones, changes the rules but not the prices: the rules reach the
    panel first, the cleared reference lets the editor read the old expression
    again, and the old tiers are written over those of the preset. *)
Theorem preset_prices_lost preset n s :
  settled s -> ed_init s = false ->
  shownPreset preset -> rulesOpen (buildRequestRuleExpr (pr_requestRules preset)) ->
  buildRequestRuleExpr (pr_requestRules preset) <> p_rules s ->
  exists s', commits (3 + n) (applyPreset preset s) = Ret s' /\ settled s' /\
    (p_expr s', p_rules s') = (p_expr s, buildRequestRuleExpr (pr_requestRules preset)).
Proof.
  intros [[Hm Hn Ht Hr (old & Ho & Hog) Hro] Hq] Hi Hsh Hru Hne. unfold shownPreset in Hsh.
  destruct (tryParseVisualConfig (Some (pr_expr preset))) as [cfg|] eqn:Hc; [|done]. pose proof Hru as (gs & Hgs & Hb).
  set (rules := buildRequestRuleExpr (pr_requestRules preset)) in *.
  rewrite (preset_shown preset cfg s Hc). fold rules. change (commits (3 + n) ?s) with (obind (commit s) (commits (2 + n))).
  unfold commit at 1, effectiveExpr, withVisual. cbn [ed_mode ed_visual obind].
  rewrite (init_reads _ old gs); [|done|unfold quiet in *; cbn; congruence|done|done].
  cbn [obind p_expr p_rules p_name ed_lastName ed_lastExprs ed_mode ed_visual ed_raw ed_groups ed_init]. cbv zeta.
  rewrite !same_text, bool_decide_eq_true_2 by done. fold rules.
  apply edit_settles; try done; [by left|by exists old].
Qed.

(** Every preset is shown as tiers and written, with its rules, as a text that
    splits into both parts and opens again; the text is the preset's own letter
    for letter, except for one price written as 1.0. *)
Theorem presets_are_canonical : Forall (fun p => canonicalPreset p = true) presets.
Proof. repeat (apply List.Forall_cons; [vm_compute; reflexivity|]). apply List.Forall_nil. Qed.

(** ** Tier lists *)

Definition atMostTwo (config : list VisualTier) : Prop := Forall (fun t => (length (vt_conditions t) <= 2)%nat) config.
Definition tierBounds (config : list VisualTier) : Prop := config <> [] /\ atMostTwo config.

Lemma normalized_bounds visual : atMostTwo (default [] visual) -> tierBounds (normalizeVisualConfig visual).
Proof.
  destruct visual as [[|t ts]|]; intros H; [by split; [|repeat constructor]| |by split; [|repeat constructor]].
  split; [done|]. cbn [normalizeVisualConfig]. apply Forall_map. exact H.
Qed.

Lemma insert_nonempty {A} i (x : A) (l : list A) : l <> [] -> <[i := x]> l <> [].
Proof. destruct l, i; done. Qed.

Lemma edit_bounds i f config :
  (forall t, (length (vt_conditions (f t)) <= length (vt_conditions t))%nat) -> tierBounds config -> tierBounds (editTier i f config).
Proof.
  intros Hf [Hne H]. unfold editTier. destruct (config !! i) as [t|] eqn:E; [|done]. split.
  - by apply insert_nonempty.
  - apply Forall_insert; [done|]. cbn. specialize (Hf t). pose proof (Forall_lookup_1 _ _ _ _ H E) as Ht. cbn in Ht. lia.
Qed.

Lemma bound_last_bounds config : tierBounds config -> tierBounds (boundLast config).
Proof.
  intros [Hne H]. unfold boundLast. destruct (last config) as [t|]; [|done]. destruct (vt_conditions t); [|done]. split.
  - by apply insert_nonempty.
  - apply Forall_insert; [done|]. cbn. lia.
Qed.

Lemma handle_bounds e config : tierBounds config -> tierBounds (tierHandle e config).
Proof.
  intros H. pose proof H as [Hne Hc].
  destruct e as [|i|i|i f|i m|i j c|i j]; cbn [tierHandle].
  4-7: apply edit_bounds; [|done].
  - destruct (bound_last_bounds config H) as [_ Hb]. split; [unfold handleAddTier; by destruct (boundLast config)|].
    apply Forall_app. split; [done|]. apply List.Forall_cons; [cbn; lia|constructor].
  - unfold handleRemoveTier. cbv zeta. destruct (0 <? length (removeAt i config))%nat eqn:E; [|done]. split; [by destruct (removeAt i config)|].
    by apply Forall_delete.
  - unfold handleAddCondition. destruct (config !! i) as [t|] eqn:E; [|done]. destruct (Nat.leb_spec 2 (length (vt_conditions t))); [done|]. split.
    + by apply insert_nonempty.
    + apply Forall_insert; [done|]. cbn. rewrite length_app. cbn. lia.
  - by destruct f.
  - done.
  - intros t. cbn. by rewrite length_insert.
  - intros t. cbn. unfold removeAt. rewrite delete_take_drop, length_app, length_take, length_drop. lia.
Qed.

(** No sequence of edits of the tiers leaves them empty or gives a tier more
    than two conditions, the bounds the visual editor offers, whether it starts
    without tiers or with any that have at most two conditions. *)
Theorem tier_edits_stay_bounded es visual :
  atMostTwo (default [] visual) ->
  (es <> [] -> default [] (foldl tierStep visual es) <> []) /\ atMostTwo (default [] (foldl tierStep visual es)).
Proof.
  revert visual. induction es as [|e es IH] using rev_ind; intros visual H; [done|]. rewrite foldl_app. cbn [foldl].
  destruct (IH visual H) as [_ Hb]. destruct (handle_bounds e _ (normalized_bounds _ Hb)) as [Hne Hc]. by split.
Qed.

(** ** Witnesses *)

Definition flatExpr : jstr := jsq "tier('base', p * 2 + c * 4)".
(** The flat price opened: the reference is cleared, as after [open_settles]. *)
Definition flatEditor (init : bool) : TierEditor :=
  mkTierEditor VisualMode (tryParseVisualConfig (Some flatExpr)) flatExpr [] init (Some (flatExpr, [])) (Some (js "m")) (js "m") flatExpr [].
Definition fastPreset : Preset :=
  mkPreset (js "fast") (jsq "tier('base', p * 5 + c * 25)") [oneRule (headerRule "anthropic-beta" MATCH_CONTAINS "fast-mode-2026-02-01") "6"].

Ltac expr_opens := match goal with |- exprOpens ?e => exists (default [] (tryParseVisualConfig (Some e))); split; vm_compute; reflexivity end.
Ltac rules_open gs := exists gs; split; vm_compute; reflexivity.

Lemma flat_settled init : settled (flatEditor init).
Proof.
  split; [|done]. constructor; [done|done|vm_compute; reflexivity|vm_compute; reflexivity| |by rules_open (@nil RequestRuleGroup)].
  change (exprOpens flatExpr). expr_opens.
Qed.

Lemma editor_keeps_edits_witness :
  exists s, commits 5 (handleEdit (EditPreset fastPreset) (flatEditor true)) = Ret s /\ settled s /\
    (p_expr s, p_rules s) = wantedTexts (EditPreset fastPreset) (flatEditor true).
Proof.
  apply (editor_keeps_edits (EditPreset fastPreset) 3 (flatEditor true)).
  - apply flat_settled.
  - cbn [wantedTexts fst]. expr_opens.
  - cbn [wantedTexts snd]. rules_open (pr_requestRules fastPreset).
  - split; [vm_compute; discriminate|by left].
Defined.

Lemma preset_prices_lost_witness :
  exists s, commits 5 (applyPreset fastPreset (flatEditor false)) = Ret s /\ settled s /\
    (p_expr s, p_rules s) = (flatExpr, buildRequestRuleExpr (pr_requestRules fastPreset)).
Proof.
  apply (preset_prices_lost fastPreset 2 (flatEditor false)).
  - apply flat_settled.
  - reflexivity.
  - vm_compute. discriminate.
  - rules_open (pr_requestRules fastPreset).
  - vm_compute. discriminate.
Defined.

Lemma complex_expression_replaced_witness :
  exists s, obind (mountEditor (js "m") (jsq "tier('base', max(p, 100) * 2)") []) (commits 4) = Ret s /\
    ed_mode s = RawMode /\ (p_expr s, p_rules s) = (ZERO_EXPR, []).
Proof.
  apply (complex_expression_replaced (js "m") (jsq "tier('base', max(p, 100) * 2)") [] 1);
    [discriminate|vm_compute; discriminate|vm_compute; reflexivity|by constructor|vm_compute; reflexivity].
Defined.

Lemma complex_rules_erased_witness :
  let rules := buildRequestRuleExpr [oneRule (paramRule "temperature" MATCH_GT "1") "2"] in
  rules <> [] /\ exists s, obind (mountEditor (js "m") flatExpr rules) (commits 3) = Ret s /\ settled s /\ (p_expr s, p_rules s) = (flatExpr, []).
Proof.
  split; [vm_compute; discriminate|]. apply (complex_rules_erased (js "m") flatExpr _ 1); [expr_opens|vm_compute; reflexivity].
Defined.

Lemma tier_edits_stay_bounded_witness :
  let visual := foldl tierStep None [AddTier; AddCondition 0; AddCondition 0; RemoveTier 1; RemoveTier 0] in
  default [] visual <> [] /\ atMostTwo (default [] visual).
Proof.
  cbv zeta. split; [vm_compute; discriminate|].
  apply (tier_edits_stay_bounded [AddTier; AddCondition 0; AddCondition 0; RemoveTier 1; RemoveTier 0] None). constructor.
Defined.

(** ** Examples *)

(** Leaving expression mode replaces an expression the editor cannot show by
    the default tier. *)
Example leaving_raw_mode_replaces :
  obind (handleModeChange VisualMode (withVisual RawMode None (jsq "max(p, c) * 2") [] [] (flatEditor true))) (commits 2)
    = Ret (let s := flatEditor true in
           mkTierEditor VisualMode (Some createDefaultVisualConfig) (jsq "max(p, c) * 2") [] true
             (Some (generateExprFromVisualConfig (Some createDefaultVisualConfig), [])) (Some (js "m")) (js "m")
             (generateExprFromVisualConfig (Some createDefaultVisualConfig)) []).
Proof. vm_compute. reflexivity. Qed.

(** The first change typed in expression mode after opening returns the editor
    to visual mode; later ones do not. *)
Example first_typing_leaves_raw_mode :
  let typed s := s1 <-- handleModeChange RawMode s ;; s2 <-- commits 2 s1 ;;
                 s3 <-- handleRawChange (jsq "tier('base', p * 25 + c * 4)") s2 ;; s4 <-- commits 3 s3 ;; Ret (ed_mode s4, p_expr s4) in
  typed (flatEditor false) = Ret (VisualMode, jsq "tier('base', p * 25 + c * 4)") /\
  typed (flatEditor true) = Ret (RawMode, jsq "tier('base', p * 25 + c * 4)").
Proof. split; vm_compute; reflexivity. Qed.

(** Without its condition a tier that is not the last is written without
    question mark: two calls joined by a colon. *)
Example unguarded_tier_is_not_an_expression :
  generateExprFromVisualConfig (foldl tierStep None [AddTier; ConditionRemove 0 0]) = jsq "tier('base', p * 0 + c * 0) : tier('tier_2', p * 0 + c * 0)".
Proof. vm_compute. reflexivity. Qed.
