(* ===== verification/UsageCharts.v ===== *)
(** * Usage charts of the dashboard (features/dashboard/lib/charts.ts, lib/time.ts)

    The dashboard's charts are computed from rows of usage, each with a model or
    a user, a time and three counters: shares and ranks of models, usage over
    time stacked by model, and the same by user.  This file models the values
    of every chart, the tooltips and the displayed totals; the styling around
    the values (sizes, axes, legends) is left out.

    Counters are the integers of the server, in [Z]; the code adds them as
    doubles, which is exact while the total of all rows is below [2^53] (every
    partial total lies below it, [chart_counters_bounded]).  A displayed amount
    is binary64.  The formatting of dates is a library's and a parameter, and so
    are [localeCompare] and the formatters of [Intl]. *)
From stdpp Require Import prelude list strings.
From S2P Require Import Prelude JsString JsNumber JsMap FlowGraph Currency.
Open Scope js_scope.
Open Scope Z_scope.

(** A row of usage; a counter may be missing. *)
Record QuotaItem := mkItem {
  q_username : option jstr; q_model : option jstr; q_created : Z; q_tokens : option Z; q_count : option Z; q_quota : option Z }.

Inductive TimeGranularity := Hour | Day | Week.
Definition MAX_CHART_TREND_POINTS : nat := 7.

(** Three counters of a model. *)
Record Stats := mkStats { s_quota : Z; s_count : Z; s_tokens : Z }.
Definition noStats : Stats := mkStats 0 0 0.
Definition itemStats (item : QuotaItem) : Stats := mkStats (default 0 (q_quota item)) (default 0 (q_count item)) (default 0 (q_tokens item)).
Definition addStats (item : QuotaItem) (existing : Stats) : Stats :=
  mkStats (s_quota existing + s_quota (itemStats item)) (s_count existing + s_count (itemStats item)) (s_tokens existing + s_tokens (itemStats item)).

Definition modelOf (item : QuotaItem) : jstr := str_or (default [] (q_model item)) (js "Unknown").
Definition userOf (item : QuotaItem) : jstr := str_or (default [] (q_username item)) (js "unknown").

(** Larger first: [(a, b) => b.value - a.value] *)
Definition byLarger {A} (value : A -> Z) (a b : A) : Z := value b - value a.

(** [array.reduce((sum, x) => sum + f(x), 0)] *)
Definition reduceSum {A} (f : A -> Z) (l : list A) : Z := foldl (fun sum x => sum + f x) 0 l.

Record PieValue := mkPie { pie_type : jstr; pie_value : Z }.
Record UsageValue := mkUsage { u_time : jstr; u_model : jstr; u_rawQuota : Z; u_usage : number; u_timeSum : Z }.
Record TrendValue := mkTrend { v_time : jstr; v_model : jstr; v_count : Z }.
Record RankValue := mkRank { k_model : jstr; k_count : Z }.

Section Charts.
(** [dayjs(ms).format(fmt)], [d.add(days, 'day')], [localeCompare], the integer
    and default formats, the stored currency, the colour schemes, and the
    translations that are used. *)
Context (dayFormat : jstr -> Z -> jstr) (addDays : Z -> Z -> Z) (localeCompare : jstr -> jstr -> Z).
Context (formatInt : Z -> jstr) (toLocaleString : Z -> jstr) (stored : option StoredCurrency).
Context (schemeHead : option Z * list (option jstr)) (schemeTail : list (option Z * list (option jstr))).
Context (otherLabel totalLabel : jstr).

Definition formatChartTime (timestamp : Z) (granularity : TimeGranularity) : jstr :=
  let d := timestamp * 1000 in
  let result := dayFormat (js "MM-DD") d in
  match granularity with
  | Hour => result ++ js " " ++ dayFormat (js "HH") d ++ js ":00"
  | Week => result ++ js " - " ++ dayFormat (js "MM-DD") (addDays 6 d)
  | Day => result
  end.

Definition renderQuotaCompat (rawQuota : Z) (digits : nat) : jstr :=
  let '(config, meta) := getCurrencyDisplay stored in
  match meta with
  | MTokens _ => toLocaleString rawQuota
  | MCurrency symbol _ rate | MCustom symbol rate =>
      let value := num_mul (num_div (num_of_Z rawQuota) (quotaPerUnit config)) rate in
      let fixed := num_to_fixed (Z.of_nat digits) value in
      if num_eqb (parse_float fixed) num_zero && (0 <? rawQuota) && num_ltb num_zero value
      then symbol ++ num_to_fixed (Z.of_nat digits) (powTenNeg digits)
      else symbol ++ fixed
  end.
Definition formatQuotaValue (value : Z) : jstr := renderQuotaCompat value 4.
Definition formatQuotaTotal (value : Z) : jstr := renderQuotaCompat value 2.

(** ** Aggregation *)

Context (data : list QuotaItem) (timeGranularity : TimeGranularity).

Definition timeKeyOf (item : QuotaItem) : jstr := formatChartTime (q_created item) timeGranularity.

(** [modelMap.set(model, existing + item)] *)
Definition addToModel (item : QuotaItem) (modelMap : list (jstr * Stats)) : list (jstr * Stats) :=
  upsert (modelOf item) noStats (addStats item) modelMap.
Definition timeModelMap : list (jstr * list (jstr * Stats)) := accumulate timeKeyOf (fun _ => []) addToModel [] data.
Definition modelTotalsMap : list (jstr * Stats) := accumulate modelOf (fun _ => noStats) addStats [] data.

Definition allModels : list jstr := mkeys modelTotalsMap.
Definition sortedTimes : list jstr := sort_by codeUnitCompare (mkeys timeModelMap).
Definition sortedModels : list jstr := sort_by codeUnitCompare allModels.

Definition modelColorDomain : list jstr := set_from (sortedModels ++ [otherLabel]).
Definition modelColorRange : list jstr := getDashboardChartColors schemeHead schemeTail (Z.of_nat (length modelColorDomain)).

Definition intervalSec : Z := match timeGranularity with Week => 604800 | Day => 86400 | Hour => 3600 end.
(** [Math.max(...times)] of the rows, of which there is at least one *)
Definition lastTime : Z := match data with [] => 0 | item :: rest => foldl Z.max (q_created item) (map q_created rest) end.
Definition padded : list jstr :=
  map (fun i => formatChartTime (lastTime - (Z.of_nat MAX_CHART_TREND_POINTS - 1 - Z.of_nat i) * intervalSec) timeGranularity)
    (seq 0 MAX_CHART_TREND_POINTS).
Definition fillTimePoints (times : list jstr) : list jstr := if (MAX_CHART_TREND_POINTS <=? length times)%nat then times else padded.
Definition chartTimes : list jstr := fillTimePoints sortedTimes.

Definition totalTimes : Z := reduceSum s_count (mvalues modelTotalsMap).
Definition totalQuotaRaw : Z := reduceSum s_quota (mvalues modelTotalsMap).

(** ** Values of the charts by model *)

Definition pieValues : list PieValue := sort_by (byLarger pie_value) (map (fun e => mkPie e.1 (s_count e.2)) modelTotalsMap).

(** [timeModelMap.get(time)?.get(model)], its counters or zero *)
Definition statsAt (time model : jstr) : Stats := default noStats (mget time timeModelMap ≫= mget model).

(** [Number((rawQuota / quotaPerUnit).toFixed(4))], zero for zero *)
Definition usageOf (rawQuota : Z) : number :=
  let usd := if rawQuota =? 0 then num_zero else num_div (num_of_Z rawQuota) (quotaPerUnit (getConfig stored)) in
  if num_truthy usd then num_of_str (num_to_fixed 4 usd) else num_zero.

Definition timeData (time : jstr) : list UsageValue :=
  map (fun model => let rawQuota := s_quota (statsAt time model) in mkUsage time model rawQuota (usageOf rawQuota) 0) sortedModels.
Definition lineAt (time : jstr) : list UsageValue :=
  let timeSum := reduceSum u_rawQuota (timeData time) in
  map (fun item => mkUsage (u_time item) (u_model item) (u_rawQuota item) (u_usage item) timeSum) (sort_by (byLarger u_rawQuota) (timeData time)).
Definition byTime (a b : UsageValue) : Z := localeCompare (u_time a) (u_time b).
Definition lineValues : list UsageValue := sort_by byTime (concat (map lineAt chartTimes)).

Definition MAX_AREA_MODELS : nat := 15.
Definition rankedQuotaModels : list (jstr * Z) := sort_by (byLarger snd) (map (fun e => (e.1, s_quota e.2)) modelTotalsMap).
Definition topAreaModels : list jstr := map fst (take MAX_AREA_MODELS rankedQuotaModels).
Definition areaKey (model : jstr) : jstr := if existsb (fun m => m === model) topAreaModels then model else otherLabel.
Definition addToBucket (time model : jstr) (prev : Z * number) : Z * number :=
  let rawQuota := s_quota (statsAt time model) in
  (prev.1 + rawQuota, num_of_str (num_to_fixed 4 (num_add prev.2 (usageOf rawQuota)))).
Definition buckets (time : jstr) : list (jstr * (Z * number)) := accumulate areaKey (fun _ => (0, num_zero)) (addToBucket time) [] sortedModels.
Definition areaAt (time : jstr) : list UsageValue :=
  let timeSum := reduceSum (fun model => s_quota (statsAt time model)) sortedModels in
  map (fun e => mkUsage time e.1 e.2.1 e.2.2 timeSum) (buckets time).
Definition areaValues : list UsageValue := sort_by byTime (concat (map areaAt chartTimes)).

Definition MAX_TREND_MODELS : nat := 20.
Definition rankedTrendModels : list RankValue := sort_by (byLarger k_count) (map (fun e => mkRank e.1 (s_count e.2)) modelTotalsMap).
Definition topTrendModels : list jstr := map k_model (take MAX_TREND_MODELS rankedTrendModels).
Definition otherTrendModels : list jstr := map k_model (drop MAX_TREND_MODELS rankedTrendModels).
Definition trendAt (time : jstr) : list TrendValue :=
  let count model := s_count (statsAt time model) in
  map (fun model => mkTrend time model (count model)) topTrendModels ++
  if (0 <? length otherTrendModels)%nat then [mkTrend time otherLabel (reduceSum count otherTrendModels)] else [].
Definition modelLineValues : list TrendValue :=
  sort_by (fun a b => localeCompare (v_time a) (v_time b)) (concat (map trendAt chartTimes)).

Definition MAX_RANK_MODELS : nat := 20.
Definition rankValues : list RankValue :=
  let allRankValues := rankedTrendModels in
  if (MAX_RANK_MODELS <? length allRankValues)%nat
  then take MAX_RANK_MODELS allRankValues ++ [mkRank otherLabel (reduceSum k_count (drop MAX_RANK_MODELS allRankValues))]
  else allRankValues.

(** [processChartData]: the values of its five charts and the totals. *)
Record ChartData := mkCharts {
  c_pie : list PieValue; c_line : list UsageValue; c_area : list UsageValue; c_modelLine : list TrendValue; c_rank : list RankValue;
  c_totalQuota : jstr; c_totalCount : jstr }.
Definition processChartData : ChartData :=
  match data with
  | [] => mkCharts [] [] [] [] [] (formatQuotaTotal 0) (formatInt 0)
  | _ => mkCharts pieValues lineValues areaValues modelLineValues rankValues (formatQuotaTotal totalQuotaRaw) (formatInt totalTimes)
  end.

(** ** Tooltips *)

(** A line of a tooltip: its key, the number shown and its datum, of which the
    raw quota and the sum of its time matter. *)
Record TooltipItem := mkTip { t_key : jstr; t_value : Z; t_datum : option (Z * Z) }.
Definition MAX_TOOLTIP_MODELS : nat := 15.
Definition isOtherTooltipKey (item : TooltipItem) : bool := (t_key item === js "Other") || (t_key item === otherLabel).

Definition modelItems (array : list TooltipItem) : list TooltipItem :=
  sort_by (byLarger t_value) (List.filter (fun item => negb (isOtherTooltipKey item)) array).
Definition otherItems (array : list TooltipItem) : list TooltipItem := List.filter isOtherTooltipKey array.

(** The total of the tooltip: the last sum that is not zero. *)
Definition tipSum (array : list TooltipItem) : Z :=
  foldl (fun sum item => match t_datum item with Some (_, timeSum) => if timeSum =? 0 then sum else timeSum | None => sum end) 0 array.
Definition rawOf (item : TooltipItem) : Z := match t_datum item with Some (rawQuota, _) => rawQuota | None => 0 end.

(** The lines as numbers, before they are formatted: the visible models and,
    when they overflow, the rest as one line. *)
Definition tipLines (collapseOverflow : bool) (array : list TooltipItem) : list (jstr * Z) :=
  let models := modelItems array in
  let others := otherItems array in
  if collapseOverflow && (MAX_TOOLTIP_MODELS <? length (models ++ others))%nat
  then map (fun item => (t_key item, t_value item)) (take MAX_TOOLTIP_MODELS models) ++
       [(otherLabel, reduceSum rawOf (drop MAX_TOOLTIP_MODELS models ++ others))]
  else map (fun item => (t_key item, t_value item)) (models ++ others).
Definition updateQuotaTooltip (collapseOverflow : bool) (array : list TooltipItem) : list (jstr * jstr) :=
  (totalLabel, formatQuotaValue (tipSum (modelItems array ++ otherItems array))) ::
  map (fun line => (line.1, formatQuotaValue line.2)) (tipLines collapseOverflow array).

Definition updateCountTooltip (array : list TooltipItem) : list (jstr * jstr) :=
  let items := modelItems array ++ otherItems array in
  (totalLabel, formatInt (reduceSum t_value items)) :: map (fun item => (t_key item, formatInt (t_value item))) items.

(** ** Charts by user *)

Context (limit : nat).

Definition userQuotaTotal : list (jstr * Z) := accumulate userOf (fun _ => 0) (fun item prev => prev + s_quota (itemStats item)) [] data.
Definition sortedUsers : list (jstr * Z) := sort_by (byLarger snd) userQuotaTotal.
Definition topUsers : list jstr := map fst (take limit sortedUsers).
Definition totalUserQuota : Z := reduceSum snd (take limit sortedUsers).

Record UserRank := mkUserRank { ur_user : jstr; ur_rawQuota : Z; ur_usage : number }.
Definition userUsage (quota : Z) : number := num_of_str (num_to_fixed 4 (num_div (num_of_Z quota) (quotaPerUnit (getConfig stored)))).
Definition userRankValues : list UserRank := map (fun e => mkUserRank e.1 e.2 (userUsage e.2)) (take limit sortedUsers).

Definition USER_COLORS : list jstr :=
  [js "#5B8FF9"; js "#5AD8A6"; js "#F6BD16"; js "#E8684A"; js "#6DC8EC"; js "#9270CA"; js "#FF9D4D"; js "#269A99"; js "#FF99C3"; js "#5D7092"].
Definition userColorMap : list (jstr * jstr) :=
  foldl (fun acc e => mset e.2 (default [] (USER_COLORS !! (e.1 mod length USER_COLORS)%nat)) acc) [] (zip (seq 0 (length topUsers)) topUsers).

(** [timeUserMap]: only rows of the top users are entered. *)
Definition topItems : list QuotaItem := List.filter (fun item => existsb (fun u => u === userOf item) topUsers) data.
Definition timeUserMap : list (jstr * list (jstr * Z)) :=
  accumulate timeKeyOf (fun _ => []) (fun item map => upsert (userOf item) 0 (fun prev => prev + s_quota (itemStats item)) map) [] topItems.
Definition sortedTimePoints : list jstr := sort_by codeUnitCompare (set_from (map timeKeyOf data)).
Definition userQuotaAt (time user : jstr) : Z := default 0 (mget time timeUserMap ≫= mget user).

Record UserTrend := mkUserTrend { ut_time : jstr; ut_user : jstr; ut_rawQuota : Z; ut_usage : number }.
Definition userTrendValues : list UserTrend :=
  concat (map (fun time => map (fun user => let q := userQuotaAt time user in mkUserTrend time user q (userUsage q)) topUsers) sortedTimePoints).

Record UserChartData := mkUserCharts { uc_rank : list UserRank; uc_trend : list UserTrend; uc_colors : list (jstr * jstr); uc_total : option jstr }.
Definition processUserChartData : UserChartData :=
  match data with
  | [] => mkUserCharts [] [] [] None
  | _ => mkUserCharts userRankValues userTrendValues userColorMap (Some (renderQuotaCompat totalUserQuota 2))
  end.

(** The tooltips of the two user charts. *)
Definition updateUserRankTooltip (array : list TooltipItem) : list (jstr * jstr) :=
  map (fun item => (t_key item, renderQuotaCompat (match t_datum item with Some (raw, _) => raw | None => t_value item end) 2)) array.
Definition updateUserTrendTooltip (array : list TooltipItem) : list (jstr * jstr) :=
  let items := sort_by (byLarger t_value) array in
  (totalLabel, renderQuotaCompat (reduceSum t_value items) 2) :: map (fun item => (t_key item, renderQuotaCompat (t_value item) 2)) items.
End Charts.
