(* ===== verification/UsageChartsCorrect.v ===== *)
(** * Usage charts: what they add up to

    Every chart by model adds up to the rows it stands for: shares and ranks to
    all of them, the charts over time to the rows whose time is a point of the
    chart ([charts_account_for_usage]).  A tooltip adds up to its time, and the
    trend of a user to the rank.  With few points in time the chart has the last
    seven intervals only, and earlier usage is not on it. *)
From stdpp Require Import prelude list strings.
From S2P Require Import Prelude JsString JsNumber JsMap FlowGraph Currency UsageCharts.
Open Scope js_scope.
Open Scope Z_scope.

Lemma reduceSum_sum {A} (f : A -> Z) l : reduceSum f l = sum_by f l.
Proof.
  unfold reduceSum. assert (H : forall z, foldl (fun sum x => sum + f x) z l = z + sum_by f l).
  { induction l as [|x l IH]; intros z; simpl; [lia|]. rewrite IH. lia. }
  apply H.
Qed.

Lemma sum_by_sorted {A} (cmp : A -> A -> Z) (f : A -> Z) l : sum_by f (sort_by cmp l) = sum_by f l.
Proof. apply sum_by_perm, sort_by_perm. Qed.

#[export] Instance byLarger_consistent {A} (value : A -> Z) : ConsistentComparator (byLarger value).
Proof. split; unfold byLarger; lia. Qed.

(** The first elements of an order by size are at least as large as the rest. *)
Lemma top_dominates {A} (value : A -> Z) (n : nat) l x y :
  x ∈ take n (sort_by (byLarger value) l) -> y ∈ drop n (sort_by (byLarger value) l) -> value y <= value x.
Proof.
  pose proof (sort_by_sorted (byLarger value) l) as H. revert H. generalize (sort_by (byLarger value) l). intros s H. revert n.
  induction H as [|z s Hs IH Hz]; intros n Hx Hy; [by rewrite take_nil in Hx; apply elem_of_nil in Hx|].
  destruct n as [|n]; [by apply elem_of_nil in Hx|]. cbn in Hx, Hy. apply elem_of_cons in Hx as [->|Hx]; [|by eapply IH].
  rewrite Forall_forall in Hz. specialize (Hz y). unfold cmp_le, byLarger in Hz.
  assert (y ∈ s) by (rewrite <- (take_drop n s); apply elem_of_app; by right). specialize (Hz H). lia.
Qed.

(** A counter of the statistics is additive. *)
Record counter (mu : Stats -> Z) : Prop := {
  counter_zero : mu noStats = 0;
  counter_add : forall item v, mu (addStats item v) = mu v + mu (itemStats item) }.
Lemma quota_counter : counter s_quota.
Proof. by split. Qed.
Lemma count_counter : counter s_count.
Proof. by split. Qed.
#[local] Hint Resolve quota_counter count_counter : core.

Section Correct.
Context (dayFormat : jstr -> Z -> jstr) (addDays : Z -> Z -> Z) (localeCompare : jstr -> jstr -> Z) (stored : option StoredCurrency) (otherLabel : jstr).
Context (data : list QuotaItem) (g : TimeGranularity).
Notation timeKey := (timeKeyOf dayFormat addDays g).
Notation times := (chartTimes dayFormat addDays data g).
Notation models := (sortedModels data).
Notation statsAt := (statsAt dayFormat addDays data g).
Notation lineAt := (lineAt dayFormat addDays stored data g).
Notation areaAt := (areaAt dayFormat addDays stored otherLabel data g).
Notation trendAt := (trendAt dayFormat addDays otherLabel data g).
Notation lineValues := (lineValues dayFormat addDays localeCompare stored data g).
Notation areaValues := (areaValues dayFormat addDays localeCompare stored otherLabel data g).
Notation modelLineValues := (modelLineValues dayFormat addDays localeCompare otherLabel data g).

(** ** Totals by model *)

Lemma models_NoDup : NoDup (allModels data).
Proof. apply accumulate_NoDup. constructor. Qed.

Lemma models_elem model : model ∈ models <-> model ∈ map modelOf data.
Proof. unfold sortedModels. rewrite sort_by_elem. unfold allModels, modelTotalsMap. rewrite accumulate_keys. cbn. rewrite elem_of_nil. naive_solver. Qed.

Lemma sortedModels_NoDup : NoDup models.
Proof. unfold sortedModels. rewrite sort_by_perm. apply models_NoDup. Qed.

Lemma model_total mu : counter mu -> sum_by (fun e => mu e.2) (modelTotalsMap data) = sum_by (fun item => mu (itemStats item)) data.
Proof.
  intros [H0 H1]. pose proof (accumulate_sum modelOf (fun _ => noStats) addStats (fun _ => true) mu (fun item => mu (itemStats item)) [] data) as H.
  unfold msum in H. cbn in H. by apply H.
Qed.

(** ** Usage at one time *)

(** The counter [mu] over the rows of one time. *)
Definition usageAt (mu : Stats -> Z) (time : jstr) : Z := sum_by (fun item => if bool_decide (timeKey item = time) then mu (itemStats item) else 0) data.

Lemma statsAt_value mu time model : counter mu ->
  mu (statsAt time model) = sum_by (fun item => if bool_decide (modelOf item = model) then if bool_decide (timeKey item = time) then mu (itemStats item) else 0 else 0) data.
Proof.
  intros [H0 H1]. unfold UsageCharts.statsAt, timeModelMap. rewrite accumulate_get.
  set (p := fun e => bool_decide (timeKey e = time)).
  transitivity (sum_by (fun item => if bool_decide (modelOf item = model) then mu (itemStats item) else 0) (List.filter p data)).
  - rewrite <- (accumulate_value modelOf (fun _ => noStats) addStats mu (fun item => mu (itemStats item))) by done.
    destruct (List.filter p data) as [|e es]; [done|].
    change (accumulate modelOf (fun _ => noStats) addStats [] (e :: es)) with (foldl (fun v e => addToModel e v) (addToModel e []) es).
    cbn [mbind option_bind default]. unfold default at 2. change (mget time []) with (@None (list (jstr * Stats))). cbn [default].
    by destruct (mget model _).
  - rewrite sum_by_filter. apply sum_by_ext, List.Forall_forall. intros item _. unfold p. by repeat case_bool_decide.
Qed.

Lemma usage_over_models mu time (ks : list jstr) : counter mu -> NoDup ks -> (forall k, k ∈ map modelOf data -> k ∈ ks) ->
  sum_by (fun model => mu (statsAt time model)) ks = usageAt mu time.
Proof.
  intros Hmu Hks Hall. rewrite (sum_by_ext _ (fun model => sum_by (fun item => if bool_decide (modelOf item = model) then if bool_decide (timeKey item = time) then mu (itemStats item) else 0 else 0) data)).
  2:{ apply List.Forall_forall. intros k _. by apply statsAt_value. }
  rewrite sum_by_partition by done. unfold usageAt. apply sum_by_ext, List.Forall_forall. intros item Hi%list_elem_of_In.
  rewrite bool_decide_eq_true_2; [done|]. apply Hall. by apply (list_elem_of_fmap_2 modelOf).
Qed.

Lemma usage_sorted_models mu time : counter mu -> sum_by (fun model => mu (statsAt time model)) models = usageAt mu time.
Proof. intros H. apply usage_over_models; [done|apply sortedModels_NoDup|]. intros k Hk. by apply models_elem. Qed.

Lemma timeData_sum time : sum_by u_rawQuota (timeData dayFormat addDays stored data g time) = usageAt s_quota time.
Proof. unfold timeData. rewrite sum_by_map. by apply usage_sorted_models. Qed.

Lemma lineAt_sum time : sum_by u_rawQuota (lineAt time) = usageAt s_quota time.
Proof. unfold UsageCharts.lineAt. cbv zeta. rewrite sum_by_map. cbn [u_rawQuota]. rewrite sum_by_sorted. apply timeData_sum. Qed.

Lemma lineAt_shape time v : v ∈ lineAt time -> u_time v = time /\ u_timeSum v = usageAt s_quota time.
Proof.
  unfold UsageCharts.lineAt. cbv zeta. intros (item & -> & Hi)%list_elem_of_fmap. cbn [u_time u_timeSum].
  rewrite reduceSum_sum, timeData_sum. split; [|done]. apply sort_by_elem in Hi. unfold timeData in Hi.
  by apply list_elem_of_fmap in Hi as (model & -> & _).
Qed.

Lemma areaAt_sum time : sum_by u_rawQuota (areaAt time) = usageAt s_quota time.
Proof.
  unfold UsageCharts.areaAt. cbv zeta. rewrite sum_by_map. cbn [u_rawQuota]. unfold buckets.
  pose proof (accumulate_sum (areaKey otherLabel data) (fun _ => (0, num_zero)) (addToBucket dayFormat addDays stored data g time)
    (fun _ => true) fst (fun model => s_quota (statsAt time model)) [] models) as H.
  unfold msum in H. cbn in H. rewrite H by done. by apply usage_sorted_models.
Qed.

Lemma areaAt_shape time v : v ∈ areaAt time -> u_time v = time /\ u_timeSum v = usageAt s_quota time.
Proof.
  unfold UsageCharts.areaAt. cbv zeta. intros (e & -> & _)%list_elem_of_fmap. cbn [u_time u_timeSum].
  rewrite reduceSum_sum. split; [done|]. by apply usage_sorted_models.
Qed.

Lemma ranked_models : Permutation (map k_model (rankedTrendModels data)) (allModels data).
Proof. unfold rankedTrendModels. rewrite sort_by_perm, map_map. done. Qed.

Lemma trend_models : topTrendModels data ++ otherTrendModels data = map k_model (rankedTrendModels data).
Proof. unfold topTrendModels, otherTrendModels. by rewrite <- map_app, take_drop. Qed.

Lemma trendAt_sum time : sum_by v_count (trendAt time) = usageAt s_count time.
Proof.
  unfold UsageCharts.trendAt. cbv zeta. rewrite sum_by_app, sum_by_map. cbn [v_count].
  transitivity (sum_by (fun model => s_count (statsAt time model)) (topTrendModels data ++ otherTrendModels data)).
  - rewrite sum_by_app. f_equal. rewrite reduceSum_sum. destruct (otherTrendModels data) as [|m ms]; [done|]. simpl. lia.
  - rewrite trend_models. apply usage_over_models; [done|rewrite ranked_models; apply models_NoDup|].
    intros k Hk. rewrite ranked_models. apply models_elem in Hk. unfold sortedModels in Hk. by apply sort_by_elem in Hk.
Qed.

(** ** Over all times *)

(** How often a time is a point of the chart: the padded points are texts that
    may repeat, and a row is drawn at each of them. *)
Definition occurrences (time : jstr) (points : list jstr) : Z := sum_by (fun t => if bool_decide (time = t) then 1 else 0) points.

(** The counter [mu] as the points of the chart show it, each row as often as
    its time occurs, and over the rows whose time is not a point. *)
Definition charted (mu : Stats -> Z) : Z := sum_by (fun item => occurrences (timeKey item) times * mu (itemStats item)) data.
Definition missed (mu : Stats -> Z) : Z := sum_by (fun item => if bool_decide (timeKey item ∈ times) then 0 else mu (itemStats item)) data.

Lemma usage_over_points mu points :
  sum_by (usageAt mu) points = sum_by (fun item => occurrences (timeKey item) points * mu (itemStats item)) data.
Proof.
  induction points as [|t points IH]; cbn [sum_by].
  - symmetry. apply sum_by_zero, List.Forall_forall. intros item _. cbn. lia.
  - rewrite IH. unfold usageAt. rewrite <- sum_by_plus. apply sum_by_ext, List.Forall_forall. intros item _.
    unfold occurrences at 2. cbn [sum_by]. fold (occurrences (timeKey item) points). case_bool_decide; lia.
Qed.

Lemma charted_once mu : NoDup times -> charted mu + missed mu = sum_by (fun item => mu (itemStats item)) data.
Proof.
  intros H. unfold charted, missed. rewrite <- sum_by_plus. apply sum_by_ext, List.Forall_forall. intros item _.
  unfold occurrences. rewrite sum_by_indicator by done. case_bool_decide; lia.
Qed.

Lemma enough_times_shown mu : (MAX_CHART_TREND_POINTS <= length (sortedTimes dayFormat addDays data g))%nat ->
  charted mu = sum_by (fun item => mu (itemStats item)) data.
Proof.
  intros H. assert (Et : times = sortedTimes dayFormat addDays data g) by (unfold chartTimes, fillTimePoints; by apply Nat.leb_le in H as ->).
  rewrite <- charted_once.
  - assert (E : missed mu = 0); [|lia]. unfold missed. apply sum_by_zero, List.Forall_forall. intros item Hi%list_elem_of_In.
    rewrite bool_decide_eq_true_2; [done|]. rewrite Et. unfold sortedTimes. rewrite sort_by_elem. apply accumulate_keys.
    right. by apply (list_elem_of_fmap_2 timeKey).
  - rewrite Et. unfold sortedTimes. rewrite sort_by_perm. apply accumulate_NoDup. constructor.
Qed.

Lemma sum_over_chart {A} (cmp : A -> A -> Z) (f : A -> Z) (at_ : jstr -> list A) mu :
  (forall time, sum_by f (at_ time) = usageAt mu time) -> sum_by f (sort_by cmp (concat (map at_ times))) = charted mu.
Proof. intros H. unfold charted. rewrite <- usage_over_points, sum_by_sorted, sum_by_concat_map. apply sum_by_ext, List.Forall_forall. intros. apply H. Qed.

(** [C10] The charts account for the usage, for counters that are integers with
    sums below [2^53] (which doubles add exactly). Shares, ranks and the displayed
    totals are those of all rows, without any condition. The stacked bars, the
    areas and the call trend show each row exactly as often as its time is among
    the points of the chart. So with at least seven points in time their totals
    are those of all rows; with fewer the points are the last seven intervals,
    and if no label repeats among them, the charts and the rows whose time is not
    on the chart together give the totals. (A label repeats when the clocks are
    put back; the usage at it is then drawn twice.) *)
Theorem charts_account_for_usage :
  let quota := sum_by (fun item => s_quota (itemStats item)) data in
  let count := sum_by (fun item => s_count (itemStats item)) data in
  (totalQuotaRaw data = quota /\ totalTimes data = count) /\
  (sum_by pie_value (pieValues data) = count /\ sum_by k_count (rankValues otherLabel data) = count) /\
  (sum_by u_rawQuota lineValues = charted s_quota /\ sum_by u_rawQuota areaValues = charted s_quota /\
   sum_by v_count modelLineValues = charted s_count) /\
  ((MAX_CHART_TREND_POINTS <= length (sortedTimes dayFormat addDays data g))%nat -> charted s_quota = quota /\ charted s_count = count) /\
  (NoDup times -> charted s_quota + missed s_quota = quota /\ charted s_count + missed s_count = count).
Proof.
  cbv zeta. rewrite <- !model_total by done.
  assert (Hr : sum_by k_count (rankedTrendModels data) = sum_by (fun e => s_count e.2) (modelTotalsMap data)).
  { unfold rankedTrendModels. by rewrite sum_by_sorted, sum_by_map. }
  repeat split.
  - unfold totalQuotaRaw, mvalues. by rewrite reduceSum_sum, sum_by_map.
  - unfold totalTimes, mvalues. by rewrite reduceSum_sum, sum_by_map.
  - unfold pieValues. by rewrite sum_by_sorted, sum_by_map.
  - unfold rankValues. cbv zeta. case_if; [|done]. rewrite sum_by_app. cbn [sum_by k_count]. rewrite reduceSum_sum, <- Hr.
    rewrite <- (take_drop MAX_RANK_MODELS (rankedTrendModels data)) at 3. rewrite sum_by_app. lia.
  - apply (sum_over_chart _ _ _ s_quota lineAt_sum).
  - apply (sum_over_chart _ _ _ s_quota areaAt_sum).
  - apply (sum_over_chart _ _ _ s_count trendAt_sum).
  - rewrite model_total by done. by apply enough_times_shown.
  - rewrite model_total by done. by apply enough_times_shown.
  - rewrite model_total by done. by apply charted_once.
  - rewrite model_total by done. by apply charted_once.
Qed.

(** Every value over time carries the sum of its own time. *)
Lemma values_carry_time_sum v : v ∈ lineValues \/ v ∈ areaValues -> u_timeSum v = usageAt s_quota (u_time v).
Proof.
  unfold UsageCharts.lineValues, UsageCharts.areaValues. rewrite !sort_by_elem, !list_elem_of_In, !List.in_concat.
  intros [(l & (time & <- & Ht)%List.in_map_iff & Hv%list_elem_of_In)|(l & (time & <- & Ht)%List.in_map_iff & Hv%list_elem_of_In)].
  - by destruct (lineAt_shape time v Hv) as [-> ->].
  - by destruct (areaAt_shape time v Hv) as [-> ->].
Qed.

(** ** The models that are shown *)

(** The counter [mu] over the rows of one model. *)
Definition modelUsage (mu : Stats -> Z) (model : jstr) : Z := sum_by (fun item => if bool_decide (modelOf item = model) then mu (itemStats item) else 0) data.

Lemma total_entry mu model s : counter mu -> (model, s) ∈ modelTotalsMap data -> mu s = modelUsage mu model.
Proof.
  intros [H0 H1] Hs. pose proof (accumulate_value modelOf (fun _ => noStats) addStats mu (fun item => mu (itemStats item)) data model) as H.
  fold (modelTotalsMap data) in H. rewrite (mget_NoDup model s) in H by (done || apply models_NoDup). by apply H.
Qed.

(** With non-negative rows every total of a model lies between 0 and the total of
    all rows: if that is below [2^53], all these sums are exact in binary64. *)
Theorem chart_counters_bounded mu model s : counter mu -> Forall (fun item => 0 <= mu (itemStats item)) data ->
  (model, s) ∈ modelTotalsMap data -> 0 <= mu s <= sum_by (fun item => mu (itemStats item)) data.
Proof.
  intros Hmu Hn Hs. rewrite (total_entry mu model s) by done. unfold modelUsage. split.
  - apply sum_by_nonneg. eapply Forall_impl; [exact Hn|]. intros item Hi. cbn in *. by case_bool_decide.
  - apply sum_by_le. eapply Forall_impl; [exact Hn|]. intros item Hi. cbn in *. by case_bool_decide.
Qed.

(** What an order of the models by a counter holds. *)
Lemma ranked_elem {A} (mk : jstr -> Z -> A) (value : A -> Z) mu x : counter mu -> (forall m z, value (mk m z) = z) ->
  x ∈ sort_by (byLarger value) (map (fun e => mk e.1 (mu e.2)) (modelTotalsMap data)) -> exists m, m ∈ models /\ x = mk m (modelUsage mu m).
Proof.
  intros Hmu Hv. rewrite sort_by_elem. intros ([m s] & -> & Hs)%list_elem_of_fmap. exists m. cbn [fst snd]. split.
  - unfold sortedModels. rewrite sort_by_elem. by apply (list_elem_of_fmap_2 fst _ (m, s)).
  - by rewrite (total_entry mu m s).
Qed.

Lemma ranked_top {A} (mk : jstr -> Z -> A) (value : A -> Z) (name : A -> jstr) mu n m m' : counter mu ->
  (forall m z, value (mk m z) = z) -> (forall m z, name (mk m z) = m) ->
  let ranked := sort_by (byLarger value) (map (fun e => mk e.1 (mu e.2)) (modelTotalsMap data)) in
  m ∈ map name (take n ranked) -> m' ∈ models -> m' ∉ map name (take n ranked) -> modelUsage mu m' <= modelUsage mu m.
Proof.
  intros Hmu Hv Hn ranked Hm Hm' Hout.
  assert (Hr : forall x, x ∈ ranked -> value x = modelUsage mu (name x)).
  { intros x (k & _ & ->)%(ranked_elem mk value mu x Hmu Hv). by rewrite Hv, Hn. }
  apply list_elem_of_fmap in Hm as (x & -> & Hx).
  assert (Hall : m' ∈ map name ranked).
  { unfold ranked. unfold sortedModels in Hm'. rewrite sort_by_elem in Hm'. unfold allModels, mkeys in Hm'.
    apply list_elem_of_fmap in Hm' as (e & -> & He). apply list_elem_of_fmap. exists (mk e.1 (mu e.2)). rewrite sort_by_elem.
    split; [done|]. by apply (list_elem_of_fmap_2 (fun e => mk e.1 (mu e.2))). }
  apply list_elem_of_fmap in Hall as (y & -> & Hy). assert (Hyd : y ∈ drop n ranked).
  { rewrite <- (take_drop n ranked) in Hy. apply elem_of_app in Hy as [Hy|Hy]; [|done]. exfalso. apply Hout. by apply (list_elem_of_fmap_2 name). }
  rewrite <- (Hr x), <- (Hr y) by (rewrite <- (take_drop n ranked); apply elem_of_app; auto). by eapply top_dominates.
Qed.

Lemma buckets_bound time : (length (buckets dayFormat addDays stored otherLabel data g time) <= S MAX_AREA_MODELS)%nat.
Proof.
  set (b := buckets _ _ _ _ _ _ _). assert (Hn : NoDup (mkeys b)) by (apply accumulate_NoDup; constructor).
  replace (length b) with (length (mkeys b)) by apply length_map.
  transitivity (length (topAreaModels data ++ [otherLabel])).
  - apply submseteq_length, NoDup_submseteq; [done|]. intros k Hk. unfold b, buckets in Hk. apply accumulate_keys in Hk as [Hk|Hk]; [by apply elem_of_nil in Hk|].
    apply list_elem_of_fmap in Hk as (m & -> & _). unfold areaKey. destruct (existsb _ _) eqn:E; apply elem_of_app; [left|right; left].
    apply existsb_exists in E as (m' & Hm & ->%bool_decide_eq_true). by apply list_elem_of_In.
  - unfold topAreaModels. rewrite length_app, length_map, length_take. cbn [length]. lia.
Qed.

(** [C33] At most fifteen models and one rest are drawn as areas, at most twenty and
    one rest as lines and ranks, and a model that has its own area or line has
    at least the usage of every model in the rest. *)
Theorem busiest_models_lead :
  (forall time, (length (areaAt time) <= 16)%nat /\ (length (trendAt time) <= 21)%nat) /\ (length (rankValues otherLabel data) <= 21)%nat /\
  (forall m m', m ∈ topAreaModels data -> m' ∈ models -> m' ∉ topAreaModels data -> modelUsage s_quota m' <= modelUsage s_quota m) /\
  (forall m m', m ∈ topTrendModels data -> m' ∈ otherTrendModels data -> modelUsage s_count m' <= modelUsage s_count m).
Proof.
  split; [intros time; split|split; [|split]].
  - unfold UsageCharts.areaAt. cbv zeta. rewrite length_map. apply buckets_bound.
  - unfold UsageCharts.trendAt, topTrendModels. cbv zeta. rewrite length_app, !length_map, length_take. unfold MAX_TREND_MODELS. case_if; cbn [length]; lia.
  - unfold rankValues. cbv zeta. destruct (Nat.ltb_spec MAX_RANK_MODELS (length (rankedTrendModels data))); [|unfold MAX_RANK_MODELS in *; lia].
    rewrite length_app, length_take. unfold MAX_RANK_MODELS. cbn [length]. lia.
  - intros m m'. apply (ranked_top (fun m z => (m, z)) snd fst s_quota MAX_AREA_MODELS m m'); done.
  - intros m m' Hm Hm'. apply (ranked_top mkRank k_count k_model s_count MAX_TREND_MODELS m m'); try done.
    + apply models_elem, models_elem. unfold sortedModels. rewrite sort_by_elem, <- ranked_models, <- trend_models. apply elem_of_app. by right.
    + pose proof models_NoDup as Hd. rewrite <- ranked_models, <- trend_models in Hd. apply NoDup_app in Hd as (_ & Hd & _). intros Hin. by apply (Hd m' Hin).
Qed.

(** ** Tooltips *)

(** The lines of the tooltip at one time of the stacked bars. *)
Definition barTips (time : jstr) : list TooltipItem :=
  map (fun v => mkTip (u_model v) (u_rawQuota v) (Some (u_rawQuota v, u_timeSum v))) (lineAt time).

Lemma tips_perm array : Permutation (modelItems otherLabel array ++ otherItems otherLabel array) array.
Proof.
  unfold modelItems, otherItems. rewrite sort_by_perm. induction array as [|x l IH]; [done|]. cbn [List.filter].
  destruct (isOtherTooltipKey otherLabel x); cbn [negb]; [|cbn; by rewrite IH]. by rewrite <- Permutation_middle, IH.
Qed.

Lemma tipSum_same array s : Forall (fun item => exists raw, t_datum item = Some (raw, s)) array -> array <> [] -> tipSum array = s.
Proof.
  intros H Hne. unfold tipSum. rewrite <- (rev_involutive array) in *. destruct (rev array) as [|x l]; [done|]. cbn [rev] in *.
  rewrite foldl_app. cbn [foldl]. rewrite Forall_app, List.Forall_cons_iff in H. destruct H as (Hl & (raw & ->) & _).
  destruct (Z.eqb_spec s 0) as [->|]; [|done]. clear Hne.
  induction (rev l) as [|y l' IH] using rev_ind; [done|]. apply Forall_app in Hl as [Hl Hy]. rewrite foldl_app. cbn [foldl].
  apply Forall_inv in Hy as (raw' & ->). cbn. by apply IH.
Qed.

(** The tooltip of the stacked bars adds up: at every time the shown models and
    the line for the rest, whether it collapses the overflow or not, add up to
    its total, which is the usage of that time. *)
Theorem tooltip_adds_up collapse time :
  sum_by snd (tipLines otherLabel collapse (barTips time)) = usageAt s_quota time /\
  tipSum (modelItems otherLabel (barTips time) ++ otherItems otherLabel (barTips time)) = usageAt s_quota time.
Proof.
  assert (Hv : sum_by t_value (barTips time) = usageAt s_quota time) by (unfold barTips; rewrite sum_by_map; apply lineAt_sum).
  assert (Hraw : forall x, x ∈ barTips time -> rawOf x = t_value x) by (by intros x (v & -> & _)%list_elem_of_fmap).
  split.
  - rewrite <- Hv, <- (sum_by_perm t_value _ _ (tips_perm (barTips time))). unfold tipLines. cbv zeta.
    case_if; [|by rewrite sum_by_map]. set (ms := modelItems otherLabel (barTips time)). set (os := otherItems otherLabel (barTips time)).
    transitivity (sum_by t_value (take MAX_TOOLTIP_MODELS ms) + sum_by t_value (drop MAX_TOOLTIP_MODELS ms ++ os)).
    2:{ by rewrite <- sum_by_app, app_assoc, take_drop. }
    rewrite sum_by_app, sum_by_map. cbn [snd sum_by]. rewrite reduceSum_sum. rewrite (sum_by_ext rawOf t_value), Z.add_0_r; [done|].
    apply List.Forall_forall. intros x Hx%list_elem_of_In. apply Hraw. rewrite <- (tips_perm (barTips time)).
    rewrite <- (take_drop MAX_TOOLTIP_MODELS (modelItems otherLabel (barTips time))). apply elem_of_app in Hx as [Hx|Hx]; rewrite !elem_of_app; auto.
  - destruct (barTips time) as [|x l] eqn:E; [by rewrite <- Hv|]. rewrite <- E. apply tipSum_same.
    + apply List.Forall_forall. intros y Hy%list_elem_of_In. rewrite (tips_perm (barTips time)) in Hy.
      apply list_elem_of_fmap in Hy as (v & -> & Hl). exists (u_rawQuota v). cbn. by destruct (lineAt_shape time v Hl) as [_ ->].
    + intros H0. pose proof (tips_perm (barTips time)) as Hp. rewrite H0, E in Hp. by apply Permutation_nil_cons in Hp.
Qed.

(** ** Users *)

Context (limit : nat).
Notation topUsers := (topUsers data limit).

(** The quota of one user over all rows. *)
Definition userUsageOf (user : jstr) : Z := sum_by (fun item => if bool_decide (userOf item = user) then s_quota (itemStats item) else 0) data.

Lemma users_NoDup : NoDup (mkeys (userQuotaTotal data)).
Proof. apply accumulate_NoDup. constructor. Qed.

Lemma user_entry e : e ∈ sortedUsers data -> e.2 = userUsageOf e.1.
Proof.
  unfold sortedUsers. rewrite sort_by_elem. destruct e as [user q]. intros He.
  pose proof (accumulate_value userOf (fun _ => 0) (fun item prev => prev + s_quota (itemStats item)) id (fun item => s_quota (itemStats item)) data user) as H.
  fold (userQuotaTotal data) in H. rewrite (mget_NoDup user q) in H by (done || apply users_NoDup). by apply H.
Qed.

Lemma topUsers_NoDup : NoDup topUsers.
Proof.
  unfold UsageCharts.topUsers. rewrite <- firstn_map. apply (sublist_NoDup _ (map fst (sortedUsers data))); [|apply sublist_take].
  unfold sortedUsers. rewrite sort_by_perm. apply users_NoDup.
Qed.

Lemma userQuotaAt_value time user : user ∈ topUsers ->
  userQuotaAt dayFormat addDays data g limit time user =
  sum_by (fun item => if bool_decide (timeKey item = time) then if bool_decide (userOf item = user) then s_quota (itemStats item) else 0 else 0) data.
Proof.
  intros Hu. unfold userQuotaAt, timeUserMap. rewrite accumulate_get. set (p := fun e => bool_decide (timeKey e = time)).
  set (q := fun item => s_quota (itemStats item)). set (top := topItems data limit).
  transitivity (sum_by (fun item => if bool_decide (userOf item = user) then q item else 0) (List.filter p top)).
  - rewrite <- (accumulate_value userOf (fun _ => 0) (fun item prev => prev + q item) id q) by done.
    destruct (List.filter p top) as [|e es]; [done|].
    change (accumulate userOf (fun _ => 0) (fun item prev => prev + q item) [] (e :: es))
      with (foldl (fun v e => upsert (userOf e) 0 (fun prev => prev + q e) v) (upsert (userOf e) 0 (fun prev => prev + q e) []) es).
    cbn [mbind option_bind default]. change (mget time []) with (@None (list (jstr * Z))). cbn [default]. by destruct (mget user _).
  - unfold top, topItems. rewrite !sum_by_filter. apply sum_by_ext, List.Forall_forall. intros item _. unfold p.
    destruct (existsb _ _) eqn:E; [done|]. case_bool_decide as H1; [|done]. case_bool_decide as H2; [|done]. exfalso.
    rewrite <- not_true_iff_false, existsb_exists in E. apply E. exists user. rewrite H2. split; [by apply list_elem_of_In|by apply bool_decide_eq_true].
Qed.

(** [C34] The charts by user agree: the rank shows at most [limit] users, each with
    the quota of all its rows and at least that of every user left out, and the
    values of a ranked user over time add up to its rank. *)
Theorem user_charts_agree :
  (length (userRankValues stored data limit) <= limit)%nat /\
  (forall r, r ∈ userRankValues stored data limit -> ur_rawQuota r = userUsageOf (ur_user r) /\
     sum_by (fun v => if bool_decide (ut_user v = ur_user r) then ut_rawQuota v else 0) (userTrendValues dayFormat addDays stored data g limit) = ur_rawQuota r) /\
  (forall r item, r ∈ userRankValues stored data limit -> item ∈ data -> userOf item ∉ topUsers -> userUsageOf (userOf item) <= ur_rawQuota r) /\
  totalUserQuota data limit = sum_by ur_rawQuota (userRankValues stored data limit).
Proof.
  split; [unfold userRankValues; rewrite length_map, length_take; lia|]. split; [|split].
  - intros r (e & -> & He)%list_elem_of_fmap. cbn [ur_rawQuota ur_user].
    assert (Hs : e ∈ sortedUsers data) by (rewrite <- (take_drop limit (sortedUsers data)); apply elem_of_app; auto).
    rewrite (user_entry e Hs). split; [done|]. assert (Hu : e.1 ∈ topUsers) by (by apply (list_elem_of_fmap_2 fst)).
    unfold userTrendValues. rewrite sum_by_concat_map.
    rewrite (sum_by_ext _ (fun time => userQuotaAt dayFormat addDays data g limit time e.1)).
    2:{ apply List.Forall_forall. intros time _. rewrite sum_by_map. cbn [ut_user ut_rawQuota].
        rewrite (sum_by_ext _ (fun user => if bool_decide (e.1 = user) then userQuotaAt dayFormat addDays data g limit time e.1 else 0)).
        - rewrite sum_by_indicator by apply topUsers_NoDup. by rewrite bool_decide_eq_true_2.
        - apply List.Forall_forall. intros user _. repeat case_bool_decide; congruence. }
    rewrite (sum_by_ext _ (fun time => sum_by (fun item => if bool_decide (timeKey item = time) then if bool_decide (userOf item = e.1) then s_quota (itemStats item) else 0 else 0) data)).
    2:{ apply List.Forall_forall. intros time _. by apply userQuotaAt_value. }
    rewrite (sum_by_partition timeKey) by (unfold sortedTimePoints; rewrite sort_by_perm; apply set_from_NoDup).
    unfold userUsageOf. apply sum_by_ext, List.Forall_forall. intros item Hi%list_elem_of_In.
    rewrite (bool_decide_eq_true_2 (timeKey item ∈ _)); [done|]. unfold sortedTimePoints. rewrite sort_by_elem, set_from_elem. by apply (list_elem_of_fmap_2 timeKey).
  - intros r item (e & -> & He)%list_elem_of_fmap Hi Hout. cbn [ur_rawQuota].
    assert (Hk : userOf item ∈ map fst (sortedUsers data)).
    { unfold sortedUsers. rewrite sort_by_perm. apply accumulate_keys. right. by apply (list_elem_of_fmap_2 userOf). }
    apply list_elem_of_fmap in Hk as (e' & Ee & He'). rewrite Ee, <- (user_entry e' He').
    apply (top_dominates snd limit (userQuotaTotal data)); [done|].
    pose proof He' as Hd. rewrite <- (take_drop limit (sortedUsers data)) in Hd. apply elem_of_app in Hd as [Hd|Hd]; [|done].
    exfalso. apply Hout. rewrite Ee. by apply (list_elem_of_fmap_2 fst).
  - unfold totalUserQuota, userRankValues. rewrite reduceSum_sum, sum_by_map. done.
Qed.
End Correct.

(** ** Witness and examples *)

(** Days from the fifteenth of December on. *)
Definition sampleDays : list jstr :=
  map js ["12-15"; "12-16"; "12-17"; "12-18"; "12-19"; "12-20"; "12-21"; "12-22"; "12-23"; "12-24"; "12-25"; "12-26"; "12-27"; "12-28"; "12-29";
          "12-30"; "12-31"; "01-01"; "01-02"; "01-03"; "01-04"; "01-05"]%string.
Definition sampleFormat (fmt : jstr) (ms : Z) : jstr := default [] (sampleDays !! Z.to_nat (ms / 86400000)).
Definition sampleAdd (days ms : Z) : Z := ms + days * 86400000.
Definition sampleRow (model : string) (day quota : Z) : QuotaItem := mkItem None (Some (js model)) (day * 86400) None (Some 1) (Some quota).
Definition sparseRows : list QuotaItem := [sampleRow "a" 0 500000; sampleRow "b" 20 700000].

Lemma charts_account_for_usage_witness :
  let missed := missed sampleFormat sampleAdd sparseRows Day in
  totalQuotaRaw sparseRows = 1200000 /\
  sum_by u_rawQuota (lineValues sampleFormat sampleAdd codeUnitCompare None sparseRows Day) + missed s_quota = 1200000 /\ missed s_quota = 500000.
Proof.
  cbv zeta. destruct (charts_account_for_usage sampleFormat sampleAdd codeUnitCompare None (js "Other") sparseRows Day) as ((H1 & _) & _ & (H2 & _) & _ & H3).
  destruct H3 as [H3 _]; [apply (bool_decide_unpack _); vm_compute; exact I|].
  split; [exact H1|]. rewrite H2. split; [exact H3|]. vm_compute. reflexivity.
Defined.

(** The clock of a place where the hour from one to two comes twice. *)
Definition autumnFormat (fmt : jstr) (ms : Z) : jstr :=
  if fmt === js "HH" then print_nat_dec (let hour := ms / 3600000 in if hour <? 2 then hour else hour - 1) else js "11-02".

(** Among the last seven hours one label repeats, and its usage is drawn twice. *)
Example repeated_hour_counts_twice :
  let rows := [mkItem None (Some (js "a")) (2 * 3600) None (Some 1) (Some 700); mkItem None (Some (js "a")) (6 * 3600) None (Some 1) (Some 50)] in
  totalQuotaRaw rows = 750 /\
  sum_by u_rawQuota (lineValues autumnFormat sampleAdd codeUnitCompare None rows Hour) = 1450.
Proof. vm_compute. split; reflexivity. Qed.

(** With usage on two days only, the chart has the last seven days: the usage of
    the first day is in the total and on no point of the chart. *)
Example sparse_usage_not_charted :
  totalQuotaRaw sparseRows = 1200000 /\
  sum_by u_rawQuota (lineValues sampleFormat sampleAdd codeUnitCompare None sparseRows Day) = 700000 /\
  chartTimes sampleFormat sampleAdd sparseRows Day = map js ["12-29"; "12-30"; "12-31"; "01-01"; "01-02"; "01-03"; "01-04"]%string.
Proof. vm_compute. repeat split. Qed.

(** The points are ordered as texts without the year: around New Year the days
    of January come before those of December. *)
Example new_year_comes_first :
  map u_time (lineValues sampleFormat sampleAdd codeUnitCompare None [sampleRow "a" 20 500000] Day) =
  map js ["01-01"; "01-02"; "01-03"; "01-04"; "12-29"; "12-30"; "12-31"]%string.
Proof. vm_compute. reflexivity. Qed.
