(* ===== verification/UsageLogs.v ===== *)
(** * Usage logs (features/usage-logs/lib: format.ts, utils.ts, filter.ts)

    A log entry has a JSON text with the details of its billing.  This file
    models what is read from it, above all the tier of a billing expression
    that was charged, and the requests for log entries: from the filters of the
    page to the parameters in the URL and the parameters of the server. *)
From stdpp Require Import prelude list strings.
From S2P Require Import Prelude JsString JsNumber JsValue JsMap JsBytes Tiers.
Open Scope js_scope.

(** ** Details of an entry *)

Definition parseAuditLine (line : jstr) : jstr * jstr :=
  match index_of (js " ") line with
  | None | Some O => (line, line)
  | Some firstSpace => (take firstSpace line, drop (firstSpace + 1) line)
  end.

(** [parseLogOther(text)]: an object, or [null]. *)
Definition parseLogOther (other : jstr) : jsval := if negb (truthy_str other) then VNull else default VNull (json_parse other).

(** [other.k] of a value that is not [null]. *)
Definition detail (other : jsval) (k : string) : jsval := match other with VObj fs => get_prop (js k) fs | _ => VUndef end.
(** A detail declared as text or as number. *)
Definition textDetail (other : jsval) (k : string) : jstr := match detail other k with VStr s => s | _ => [] end.
Definition numberDetail (other : jsval) (k : string) : number := match detail other k with VNum n => num_or_zero n | _ => num_zero end.

Definition isViolationFeeLog (other : jsval) : bool :=
  truthy other && (isTrue (detail other "violation_fee") || truthy (detail other "violation_fee_code") || truthy (detail other "violation_fee_marker")).

Inductive TimeColor := Success | Warning | Danger.
Definition getTimeColor (seconds : number) : TimeColor :=
  if num_ltb seconds (num_of_Z 10) then Success else if num_ltb seconds (num_of_Z 30) then Warning else Danger.
Definition getFirstResponseTimeColor (seconds : number) : TimeColor :=
  if num_ltb seconds (num_of_Z 5) then Success else if num_ltb seconds (num_of_Z 10) then Warning else Danger.
Definition getThroughputColor (tokensPerSecond : number) : TimeColor :=
  if num_leb (num_of_Z 30) tokensPerSecond then Success else if num_leb (num_of_Z 15) tokensPerSecond then Warning else Danger.
Definition getResponseTimeColor (seconds completionTokens : number) : TimeColor :=
  if num_ltb completionTokens (num_of_Z 100) || num_leb seconds num_zero then getTimeColor seconds
  else getThroughputColor (num_div completionTokens seconds).

(** The name shown, and the model it is mapped to. *)
Definition formatModelName (modelName other : jstr) : jstr * option jstr :=
  let o := parseLogOther other in
  let upstream := textDetail o "upstream_model_name" in
  (modelName, if truthy (detail o "is_model_mapped") && truthy_str upstream then Some upstream else None).

Inductive DurationUnit := Seconds | Milliseconds.
Definition formatDuration (submitTime finishTime : option number) (unit : DurationUnit) : option (number * bool) :=
  match submitTime, finishTime with
  | Some s, Some f =>
      if negb (num_truthy s) || negb (num_truthy f) then None
      else let durationSec := match unit with Milliseconds => num_div (num_sub f s) (num_of_Z 1000) | Seconds => num_sub f s end in
           Some (durationSec, num_ltb (num_of_Z 60) durationSec)
  | _, _ => None
  end.

(** ** The charged tier *)

(** The bytes of the expression are decoded; malformed base64 gives no text. *)
Definition decodeBillingExprB64 (exprB64 : jstr) : jstr :=
  if negb (truthy_str exprB64) then [] else match atob exprB64 with Some bytes => decodeUtf8 bytes | None => [] end.

(** [text.replace(/x[=]?|b|w[=]?/g, x)] for a sign [x], its form [b] with the
    bar and its wide form [w]; the equal sign may be wide as well. *)
Fixpoint replaceSign (x b w : N) (s : jstr) : jstr :=
  match s with
  | [] => []
  | c :: s' =>
      if (c =? x)%N || (c =? w)%N
      then x :: match s' with e :: s'' => if (e =? 61)%N || (e =? 0xFF1D)%N then replaceSign x b w s'' else replaceSign x b w s' | [] => [] end
      else if (c =? b)%N then x :: replaceSign x b w s' else c :: replaceSign x b w s'
  end.

Section Charged.
Context (toLowerCase : jstr -> jstr).

Definition normalizeTierLabel (label : jstr) : jstr :=
  if negb (truthy_str label) then []
  else toLowerCase (List.filter (fun c => negb (is_ws c)) (replaceSign 62 0x2265 0xFF1E (replaceSign 60 0x2264 0xFF1C label))).

Definition sameLabel (matchedLabel : jstr) (tier : ParsedTier) : bool :=
  let l1 := normalizeTierLabel (pt_label tier) in (l1 === normalizeTierLabel matchedLabel) && negb (l1 === []).
Definition resolveMatchedTier (tiers : list ParsedTier) (matchedLabel : jstr) : option ParsedTier :=
  match tiers with
  | [] => None
  | _ => if negb (truthy_str matchedLabel) then None else List.find (sameLabel matchedLabel) tiers
  end.

Definition hasAnyCacheTokens (other : jsval) : bool :=
  truthy other &&
  existsb (fun k => num_ltb num_zero (numberDetail other k))
    ["cache_tokens"; "cache_creation_tokens"; "cache_creation_tokens_5m"; "cache_creation_tokens_1h"]%string.

Record PriceEntry := mkEntry { e_field : jstr; e_shortLabel : jstr; e_price : number }.
Definition priceEntry (cacheTokensPresent : bool) (tier : ParsedTier) (v : BillingVar) : option PriceEntry :=
  match bv_field v with
  | None => None
  | Some field =>
      if (bv_group v === Some (js "cache")) && negb cacheTokensPresent then None
      else let price := default num_nan (mget field (pt_prices tier)) in
           if num_is_finite price && num_ltb num_zero price then Some (mkEntry field (bv_shortLabel v) price) else None
  end.
Record TieredBillingSummary := mkSummary { s_tiers : list ParsedTier; s_tier : ParsedTier; s_priceEntries : list PriceEntry }.
Definition getTieredBillingSummary (other : jsval) : option TieredBillingSummary :=
  if negb (truthy other) || negb (textDetail other "billing_mode" === js "tiered_expr") then None
  else
    let exprStr := decodeBillingExprB64 (textDetail other "expr_b64") in
    if negb (truthy_str exprStr) then None
    else
      let tiers := parseTiersFromExpr exprStr in
      match resolveMatchedTier tiers (textDetail other "matched_tier") with
      | None => None
      | Some tier => Some (mkSummary tiers tier (omap (priceEntry (hasAnyCacheTokens other) tier) BILLING_PRICING_VARS))
      end.
End Charged.

(** ** Requests *)

(** [a ?? b] *)
Definition nullish (a b : jsval) : jsval := match a with VUndef | VNull => b | _ => a end.
(** [...(condition ? { k: v } : {})] *)
Definition withField (condition : bool) (k : string) (v : jsval) (o : fields) : fields := if condition then set_prop (js k) v o else o.

Section Requests.
(** The range of today: midnight and one hour from now, in milliseconds. *)
Context (todayStart inOneHour : number).

(** [Math.floor(x)] *)
Definition mathFloor (x : number) : number := match num_floor x with Some z => num_of_Z z | None => x end.
Definition timestampToSeconds (ms : jsval) : jsval := VNum (mathFloor (num_div (js_Number ms) (num_of_Z 1000))).
Definition getTimestamp (useMilliseconds : bool) (paramTime : jsval) (defaultTime : option number) : jsval :=
  let time := if truthy paramTime then paramTime else match defaultTime with Some d => VNum d | None => VUndef end in
  if truthy time then if useMilliseconds then time else timestampToSeconds time else VUndef.
Definition buildTimeRangeParams (searchParams : fields) (useMilliseconds : bool) (o : fields) : fields :=
  let startTime := get_prop (js "startTime") searchParams in
  let endTime := get_prop (js "endTime") searchParams in
  let noTimes := negb (truthy (nullish startTime endTime)) in
  set_prop (js "end_timestamp") (getTimestamp useMilliseconds endTime (if noTimes then Some inOneHour else None))
    (set_prop (js "start_timestamp") (getTimestamp useMilliseconds startTime (if noTimes then Some todayStart else None)) o).

Definition pageParams (page pageSize : number) : fields := [(js "p", VNum page); (js "page_size", VNum pageSize)].
Definition buildBaseParams (page pageSize : number) (searchParams : fields) (useMilliseconds : bool) : fields :=
  let channel := get_prop (js "channel") searchParams in
  buildTimeRangeParams searchParams useMilliseconds (withField (truthy channel) "channel_id" (VStr (js_String channel)) (pageParams page pageSize)).

Definition parseType (raw : jsval) : jsval := let type := js_Number raw in if num_is_finite type then VNum type else VUndef.
Definition processType (value : jsval) : jsval :=
  match value with
  | VArr [x] => parseType x
  | VStr (c :: s) => parseType value
  | _ => VUndef
  end.
Definition asText (v : jsval) : jsval := VStr (js_String v).
Definition asChannel (v : jsval) : jsval := VNum (num_or_zero (js_Number v)).

(** The parameters from the search of the URL. *)
Definition searchApiParams (page pageSize : number) (searchParams : fields) (isAdmin : bool) : fields :=
  let get k := get_prop (js k) searchParams in
  let given k := truthy (get k) in
  let o := pageParams page pageSize in
  let o := withField (given "type"%string) "type" (processType (get "type"%string)) o in
  let o := withField (given "model"%string) "model_name" (asText (get "model"%string)) o in
  let o := withField (given "token"%string) "token_name" (asText (get "token"%string)) o in
  let o := withField (given "group"%string) "group" (asText (get "group"%string)) o in
  let o := withField (isAdmin && given "channel"%string) "channel" (asChannel (get "channel"%string)) o in
  let o := withField (isAdmin && given "username"%string) "username" (asText (get "username"%string)) o in
  let o := withField (given "requestId"%string) "request_id" (asText (get "requestId"%string)) o in
  let o := withField (given "upstreamRequestId"%string) "upstream_request_id" (asText (get "upstreamRequestId"%string)) o in
  buildTimeRangeParams searchParams false o.

(** A value that a filter leaves out. *)
Definition isBlank (v : jsval) : bool := match v with VUndef | VNull | VStr [] => true | _ => false end.
(** One column filter over the parameters. *)
Definition columnFilter (isAdmin : bool) (params : fields) (filter : jstr * jsval) : fields :=
  let '(id, value) := filter in
  if isBlank value then params
  else if id === js "type" then set_prop (js "type") (processType value) params
  else if existsb (fun k => id === k) [js "model_name"; js "token_name"; js "group"] then set_prop id (asText value) params
  else if id === js "channel" then withField isAdmin "channel" (asChannel value) params
  else if id === js "username" then withField isAdmin "username" (asText value) params
  else params.
Definition buildApiParams (page pageSize : number) (searchParams : fields) (columnFilters : list (jstr * jsval)) (isAdmin : bool) : fields :=
  foldl (columnFilter isAdmin) (searchApiParams page pageSize searchParams isAdmin) columnFilters.

(** The parameters of the URL: blank values are left out. *)
Definition buildQueryParams (params : fields) : list (jstr * jstr) :=
  map (fun e => (e.1, js_String e.2)) (List.filter (fun e => negb (isBlank e.2)) (entries params)).

(** *** Categories of logs *)

Inductive LogCategory := CommonLogs | DrawingLogs | TaskLogs.
(** The filters of the page; those a category does not have are absent. *)
Record LogFilters := mkFilters {
  f_startTime : option number; f_endTime : option number; f_channel : jstr; f_model : jstr; f_token : jstr; f_group : jstr; f_username : jstr;
  f_requestId : jstr; f_upstreamRequestId : jstr; f_mjId : jstr; f_taskId : jstr }.
Definition withText (k : string) (s : jstr) (o : fields) : fields := withField (truthy_str s) k (VStr s) o.
Definition withTime (k : string) (t : option number) (o : fields) : fields := match t with Some ms => set_prop (js k) (VNum ms) o | None => o end.
Definition buildSearchParams (f : LogFilters) (logCategory : LogCategory) : fields :=
  let base := withText "channel" (f_channel f) (withTime "endTime" (f_endTime f) (withTime "startTime" (f_startTime f) [])) in
  match logCategory with
  | CommonLogs =>
      withText "upstreamRequestId" (f_upstreamRequestId f) (withText "requestId" (f_requestId f) (withText "username" (f_username f)
        (withText "group" (f_group f) (withText "token" (f_token f) (withText "model" (f_model f) base)))))
  | DrawingLogs => withText "filter" (f_mjId f) base
  | TaskLogs => withText "filter" (f_taskId f) base
  end.

(** The request of [fetchLogsByCategory]: the list of all users or of the user
    itself, and its parameters. *)
Inductive LogApi := AllLogs (c : LogCategory) | UserLogs (c : LogCategory).
Definition fetchLogsByCategory (c : LogCategory) (isAdmin : bool) (page pageSize : number) (searchParams : fields) (columnFilters : list (jstr * jsval)) : LogApi * fields :=
  let api := if isAdmin then AllLogs c else UserLogs c in
  let base useMilliseconds := buildBaseParams page pageSize searchParams useMilliseconds in
  match c with
  | CommonLogs => (api, buildApiParams page pageSize searchParams columnFilters isAdmin)
  | DrawingLogs => (api, set_prop (js "mj_id") (get_prop (js "filter") searchParams) (base true))
  | TaskLogs => (api, set_prop (js "task_id") (get_prop (js "filter") searchParams) (base false))
  end.
End Requests.
