(* ===== verification/UsageLogsCorrect.v ===== *)
(** * Usage logs: charged tiers and requests

    The tier a log entry shows is the tier the expression was saved with, its
    text decoded from base64 and UTF-8 ([logged_tier_is_shown]); the filters of
    the page reach the server as typed ([filters_reach_server]); and a member
    never sends the filters of an administrator ([member_sends_no_admin_filter]). *)
From stdpp Require Import prelude list strings.
From S2P Require Import Prelude JsString JsNumber JsValue JsMap JsBytes Tiers TiersCorrect UsageLogs.
Open Scope js_scope.

(** Decides equality of literal keys. *)
Ltac key_eq :=
  repeat match goal with
         | |- context [bool_decide (js ?a = js ?b)] =>
             let r := eval vm_compute in (bool_decide (js a = js b)) in change (bool_decide (js a = js b)) with r
         end.

Lemma get_withField c k k' v o : get_prop (js k') (withField c k v o) = if c && (js k' === js k) then v else get_prop (js k') o.
Proof. unfold withField. destruct c; [|done]. apply get_set_prop. Qed.

(** ** The charged tier *)

Section Charged.
Context (toLowerCase : jstr -> jstr).

Lemma find_first {A} (p : A -> bool) l i x : l !! i = Some x -> p x = true -> (forall j y, (j < i)%nat -> l !! j = Some y -> p y = false) -> List.find p l = Some x.
Proof.
  revert i. induction l as [|y l IH]; intros i Hi Hx Hj; [done|]. destruct i as [|i]; cbn in Hi |- *.
  - simplify_eq. by rewrite Hx.
  - rewrite (Hj 0%nat y) by (done || lia). apply (IH i); [done..|]. intros j z Hlt Hz. apply (Hj (S j)); [lia|done].
Qed.

(** The details of an entry charged by tier [i] of the tiers, as the server
    writes them: the expression as base64 of its UTF-8 bytes, given by the code
    points [cps], and the label of the tier. *)
Definition chargedEntry (cps : list N) (label : jstr) (other : fields) : Prop :=
  get_prop (js "billing_mode") other = VStr (js "tiered_expr") /\
  get_prop (js "expr_b64") other = VStr (b64Encode (encodeUtf8 cps)) /\
  get_prop (js "matched_tier") other = VStr label.

Lemma entry_iff cache tier e :
  e ∈ omap (priceEntry cache tier) BILLING_PRICING_VARS <->
  exists v, v ∈ BILLING_PRICING_VARS /\ bv_field v = Some (e_field e) /\ e_shortLabel e = bv_shortLabel v /\
    (bv_group v = Some (js "cache") -> cache = true) /\
    mget (e_field e) (pt_prices tier) = Some (e_price e) /\ num_is_finite (e_price e) = true /\ num_ltb num_zero (e_price e) = true.
Proof.
  rewrite list_elem_of_omap. split.
  - intros (v & Hv & He). exists v. split; [done|]. revert He. unfold priceEntry. destruct (bv_field v) as [f|]; [|done].
    destruct ((bv_group v === Some (js "cache")) && negb cache) eqn:Ec; [done|]. cbv zeta.
    destruct (mget f (pt_prices tier)) as [x|] eqn:Em; cbn [default from_option id]; [|by change (num_is_finite num_nan) with false].
    destruct (num_is_finite x && num_ltb num_zero x) eqn:Ep; [|done]. intros [= <-]. cbn [e_field e_shortLabel e_price]. bool_hyps.
    repeat split; try done. intros Hg. apply andb_false_iff in Ec as [Ec|Ec]; [by apply bool_decide_eq_false in Ec|by destruct cache].
  - intros (v & Hv & Hf & Hs & Hc & Hm & Hfin & Hpos). exists v. split; [done|]. unfold priceEntry. rewrite Hf.
    destruct ((bv_group v === Some (js "cache")) && negb cache) eqn:Ec.
    { apply andb_true_iff in Ec as [Hg%bool_decide_eq_true Hn]. by rewrite (Hc Hg) in Hn. }
    cbv zeta. rewrite Hm. cbn [default from_option id]. rewrite Hfin, Hpos. cbn [andb]. destruct e as [ef es ep]. cbn in *. by subst es.
Qed.

Lemma parse_nothing : parseTiersFromExpr [] = [].
Proof. vm_compute. reflexivity. Qed.

(** [C7] The log shows the tier that was charged.  For one or more tiers as the
    visual editor saves them (labels without double quotes, finite prices that
    their printed text reads back to, condition values of digits, points,
    exponents and plus signs), an entry with the expression encoded as base64 of
    its UTF-8 bytes and the label of one tier shows exactly that tier: its prices
    are those of the saved tier, a price is listed if and only if it is a positive
    number, and cache prices only when the entry used cache tokens.  Required are
    that the tier's label does not vanish when it is normalised, that no earlier
    tier's label has the same normalised form (of [<32k] and [<=32k] the first is
    shown for both, [similar_labels_show_first_tier]), and that the expression
    does not begin with a byte order mark. *)
Theorem logged_tier_is_shown (tiers : list VisualTier) (i : nat) (tier : ParsedTier) (cps : list N) (other : fields) :
  tiers <> [] -> Forall wfVisual tiers -> map showPart (partsOf tiers) !! i = Some tier ->
  Forall (fun cp => scalar cp = true) cps -> concat (map utf16 cps) = generateExprFromVisualConfig (Some tiers) -> head cps <> Some 0xFEFF%N ->
  chargedEntry cps (pt_label tier) other ->
  normalizeTierLabel toLowerCase (pt_label tier) <> [] ->
  (forall j t, (j < i)%nat -> map showPart (partsOf tiers) !! j = Some t -> normalizeTierLabel toLowerCase (pt_label t) <> normalizeTierLabel toLowerCase (pt_label tier)) ->
  exists s, getTieredBillingSummary toLowerCase (VObj other) = Some s /\ s_tiers s = map showPart (partsOf tiers) /\ s_tier s = tier /\
    forall e, e ∈ s_priceEntries s <->
      exists v, v ∈ BILLING_PRICING_VARS /\ bv_field v = Some (e_field e) /\ e_shortLabel e = bv_shortLabel v /\
        (bv_group v = Some (js "cache") -> hasAnyCacheTokens (VObj other) = true) /\
        mget (e_field e) (pt_prices tier) = Some (e_price e) /\ num_is_finite (e_price e) = true /\ num_ltb num_zero (e_price e) = true.
Proof.
  intros Hne Hwf Hi Hcps Hexpr Hbom (Hmode & Hb64 & Hlabel) Hnz Hfirst.
  assert (Hdec : decodeBillingExprB64 (b64Encode (encodeUtf8 cps)) = generateExprFromVisualConfig (Some tiers)).
  { pose proof (decode_encoded cps Hcps Hbom) as Hd. rewrite <- Hexpr. unfold decodeBillingExprB64.
    destruct (b64Encode (encodeUtf8 cps)) as [|x l].
    - change (decodeUtf8 <$> atob []) with (Some (@nil N)) in Hd. by injection Hd as <-.
    - cbn [truthy_str negb]. destruct (atob (x :: l)); [|done]. by injection Hd as <-. }
  unfold getTieredBillingSummary, textDetail, detail. rewrite Hmode, Hb64, Hlabel, Hdec. cbn [truthy negb orb]. rewrite bool_decide_eq_true_2 by done. cbn [negb].
  cbv zeta. rewrite parse_generated by done.
  destruct (truthy_str (generateExprFromVisualConfig (Some tiers))) eqn:Et.
  2:{ exfalso. destruct (generateExprFromVisualConfig (Some tiers)) eqn:E; [|done].
      pose proof (parse_generated tiers Hne Hwf) as Hp. rewrite E, parse_nothing in Hp. by rewrite <- Hp in Hi. }
  cbn [negb]. assert (Hr : resolveMatchedTier toLowerCase (map showPart (partsOf tiers)) (pt_label tier) = Some tier).
  { unfold resolveMatchedTier. destruct (map showPart (partsOf tiers)) as [|t0 ts] eqn:Em; [done|]. rewrite <- Em in *.
    destruct (truthy_str (pt_label tier)) eqn:El; [|by unfold normalizeTierLabel in Hnz; rewrite El in Hnz]. cbn [negb].
    apply (find_first _ _ i); [by rewrite Em in *|..].
    - unfold sameLabel. cbv zeta. by rewrite bool_decide_eq_true_2, bool_decide_eq_false_2.
    - intros j t Hj Ht. unfold sameLabel. cbv zeta. rewrite bool_decide_eq_false_2; [done|]. apply (Hfirst j t Hj). by rewrite Em in *. }
  rewrite Hr. eexists. split; [done|]. cbn [s_tiers s_tier s_priceEntries]. split; [done|]. split; [done|]. intros e. apply entry_iff.
Qed.
End Charged.

(** ** Requests *)

Section Requests.
Context (todayStart inOneHour : number).
Notation buildApiParams := (buildApiParams todayStart inOneHour).
Notation fetchLogs := (fetchLogsByCategory todayStart inOneHour).

Lemma withField_elem c k v o x : x ∈ map fst (withField c k v o) -> (c = true /\ x = js k) \/ x ∈ map fst o.
Proof. unfold withField. destruct c; [|by right]. intros [->|H]%set_prop_elem; [by left|by right]. Qed.

(** The parameters only an administrator may send. *)
Definition adminKey (k : jstr) : Prop := k = js "channel" \/ k = js "username" \/ k = js "channel_id".

Lemma search_no_admin page size search k : adminKey k -> k ∉ map fst (searchApiParams todayStart inOneHour page size search false).
Proof.
  intros Hk H. unfold searchApiParams, buildTimeRangeParams in H. cbv zeta in H.
  apply set_prop_elem in H as [->|H]; [by destruct Hk as [|[]]|]. apply set_prop_elem in H as [->|H]; [by destruct Hk as [|[]]|].
  repeat (apply withField_elem in H as [[Hc ->]|H]; [by destruct Hk as [|[]]|]).
  cbn in H. rewrite !elem_of_cons, elem_of_nil in H. destruct Hk as [-> | [-> | ->]], H as [H|[H|H]]; done.
Qed.

Lemma filter_no_admin params e k : adminKey k -> k ∉ map fst params -> k ∉ map fst (columnFilter false params e).
Proof.
  intros Hk Hp. unfold columnFilter. destruct e as [id v]. destruct (isBlank v); [done|].
  case_bool_decide; [intros [->|?]%set_prop_elem; [by destruct Hk as [|[]]|done]|].
  destruct (existsb _ _) eqn:E; [|by repeat case_bool_decide].
  intros [->|?]%set_prop_elem; [|done]. destruct Hk as [-> | [-> | ->]]; vm_compute in E; done.
Qed.

Lemma query_keys params k : k ∈ map fst (buildQueryParams params) -> k ∈ map fst params.
Proof.
  unfold buildQueryParams. rewrite map_map. intros (e & -> & He)%list_elem_of_fmap. cbn.
  apply list_elem_of_In, List.filter_In in He as [He _]. apply list_elem_of_In in He. rewrite entries_perm in He. by apply (list_elem_of_fmap_2 fst).
Qed.

Lemma member_common_keys page size search filters k : adminKey k -> k ∉ map fst (buildApiParams page size search filters false).
Proof.
  intros Hk. unfold UsageLogs.buildApiParams. pose proof (search_no_admin page size search k Hk) as H0. revert H0.
  generalize (searchApiParams todayStart inOneHour page size search false). induction filters as [|e l IH]; intros o Ho; [done|].
  apply IH. by apply filter_no_admin.
Qed.

(** The lists of drawings and tasks take the same parameters from every user. *)
Lemma base_keys page size search b k : k ∈ map fst (buildBaseParams todayStart inOneHour page size search b) ->
  k ∈ map js ["p"; "page_size"; "channel_id"; "start_timestamp"; "end_timestamp"]%string.
Proof.
  unfold UsageLogs.buildBaseParams, buildTimeRangeParams. cbv zeta. cbn [map]. rewrite !elem_of_cons.
  intros [->|[->|[[_ ->]|H]%withField_elem]%set_prop_elem]%set_prop_elem; [tauto..|]. cbn in H. rewrite !elem_of_cons, elem_of_nil in H. tauto.
Qed.

Lemma base_channel page size search b :
  get_prop (js "channel_id") (buildBaseParams todayStart inOneHour page size search b) =
  if truthy (get_prop (js "channel") search) then VStr (js_String (get_prop (js "channel") search)) else VUndef.
Proof.
  unfold UsageLogs.buildBaseParams, buildTimeRangeParams. cbv zeta. rewrite !get_set_prop. key_eq. rewrite get_withField. key_eq.
  rewrite andb_true_r. by destruct (truthy _).
Qed.

(** [C26] What a member may ask for. Whatever the search of the URL and the column
    filters hold, the request of a member goes to the list of the member's own
    entries, of every category. For the common logs it carries no channel and no
    user name, neither among the parameters nor in the query. For drawing and task
    logs no user name is sent, but the parameters are exactly those an
    administrator would send: a channel in the search of the URL is sent as
    [channel_id] for members as well. *)
Theorem member_sends_no_admin_filter c page size search filters :
  let request := fetchLogs c false page size search filters in
  request.1 = UserLogs c /\
  js "username" ∉ map fst request.2 /\ js "username" ∉ map fst (buildQueryParams request.2) /\
  (c = CommonLogs -> forall k, adminKey k -> k ∉ map fst request.2 /\ k ∉ map fst (buildQueryParams request.2)) /\
  (c <> CommonLogs ->
   request.2 = (fetchLogs c true page size search filters).2 /\
   get_prop (js "channel_id") request.2 =
     if truthy (get_prop (js "channel") search) then VStr (js_String (get_prop (js "channel") search)) else VUndef).
Proof.
  assert (Hq : forall k (o : fields), k ∉ map fst o -> k ∉ map fst o /\ k ∉ map fst (buildQueryParams o)) by (intros k o H; split; [done|by intros ?%query_keys]).
  cbv zeta. cut (js "username" ∉ map fst (fetchLogs c false page size search filters).2).
  - intros Hu. split; [by destruct c|]. split; [done|]. split; [by apply Hq|]. split.
    + intros -> k Hk. by apply Hq, member_common_keys.
    + intros Hc. split; [by destruct c|]. destruct c; [done|..]; cbn [fetchLogsByCategory snd]; rewrite get_set_prop; key_eq; apply base_channel.
  - destruct c; cbn [fetchLogsByCategory snd].
    + apply member_common_keys. unfold adminKey. tauto.
    + by intros [?|?%base_keys%(bool_decide_eq_true_2 _)]%set_prop_elem.
    + by intros [?|?%base_keys%(bool_decide_eq_true_2 _)]%set_prop_elem.
Qed.

Lemma get_withText k k' s o : get_prop (js k') (withText k s o) = if truthy_str s && (js k' === js k) then VStr s else get_prop (js k') o.
Proof. apply get_withField. Qed.
Lemma get_withTime k k' t o : get_prop (js k') (withTime k t o) = match t with Some ms => if js k' === js k then VNum ms else get_prop (js k') o | None => get_prop (js k') o end.
Proof. unfold withTime. destruct t; [|done]. apply get_set_prop. Qed.

Definition sent (s : jstr) : jsval := if truthy_str s then VStr s else VUndef.

Lemma get_search k s f :
  (k, s) ∈ [("channel", f_channel f); ("model", f_model f); ("token", f_token f); ("group", f_group f); ("username", f_username f);
           ("requestId", f_requestId f); ("upstreamRequestId", f_upstreamRequestId f)]%string ->
  get_prop (js k) (buildSearchParams f CommonLogs) = sent s.
Proof.
  intros H. unfold buildSearchParams, sent. rewrite !elem_of_cons, elem_of_nil in H.
  destruct_or! H; simplify_eq; rewrite ?get_withText, ?get_withTime; key_eq; rewrite ?andb_false_r, ?andb_true_r; destruct (truthy_str _); try done;
    by destruct (f_endTime f), (f_startTime f).
Qed.

Lemma get_search_time k t f : (k, t) ∈ [("startTime", f_startTime f); ("endTime", f_endTime f)]%string ->
  get_prop (js k) (buildSearchParams f CommonLogs) = match t with Some ms => VNum ms | None => VUndef end.
Proof.
  intros H. unfold buildSearchParams. rewrite !elem_of_cons, elem_of_nil in H.
  destruct_or! H; simplify_eq; rewrite ?get_withText, ?get_withTime; key_eq; rewrite ?andb_false_r; by destruct (f_endTime f), (f_startTime f).
Qed.

Lemma given_timestamp b x d : num_truthy x = true -> getTimestamp b (VNum x) d = if b then VNum x else timestampToSeconds (VNum x).
Proof. intros H. unfold getTimestamp. cbv zeta. assert (T : truthy (VNum x) = true) by done. by rewrite !T. Qed.

Lemma end_range search b o (s e : number) : get_prop (js "startTime") search = VNum s -> get_prop (js "endTime") search = VNum e ->
  num_truthy s = true -> num_truthy e = true ->
  buildTimeRangeParams todayStart inOneHour search b o =
  set_prop (js "end_timestamp") (if b then VNum e else timestampToSeconds (VNum e))
    (set_prop (js "start_timestamp") (if b then VNum s else timestampToSeconds (VNum s)) o).
Proof. intros Hs He Ts Te. unfold buildTimeRangeParams. by rewrite Hs, He, !given_timestamp. Qed.

(** The filters of the page reach the server as typed: each text filter that is
    not empty under the parameter of its own, user and channel for an
    administrator only, and both times in whole seconds. *)
Theorem filters_reach_server page size admin f s e :
  f_startTime f = Some s -> f_endTime f = Some e -> num_truthy s = true -> num_truthy e = true ->
  let params := (fetchLogs CommonLogs admin page size (buildSearchParams f CommonLogs) []).2 in
  (get_prop (js "model_name") params = sent (f_model f) /\ get_prop (js "token_name") params = sent (f_token f) /\
   get_prop (js "group") params = sent (f_group f) /\ get_prop (js "request_id") params = sent (f_requestId f) /\
   get_prop (js "upstream_request_id") params = sent (f_upstreamRequestId f)) /\
  get_prop (js "username") params = (if admin then sent (f_username f) else VUndef) /\
  get_prop (js "channel") params = (if admin && truthy_str (f_channel f) then VNum (num_or_zero (num_of_str (f_channel f))) else VUndef) /\
  get_prop (js "start_timestamp") params = VNum (mathFloor (num_div s (num_of_Z 1000))) /\
  get_prop (js "end_timestamp") params = VNum (mathFloor (num_div e (num_of_Z 1000))).
Proof.
  intros Hs He Ts Te. cbv zeta. cbn [fetchLogsByCategory snd]. unfold UsageLogs.buildApiParams. cbn [foldl]. unfold searchApiParams. cbv zeta.
  assert (Gs := get_search_time "startTime" (f_startTime f) f ltac:(set_solver)). assert (Ge := get_search_time "endTime" (f_endTime f) f ltac:(set_solver)).
  rewrite Hs in Gs. rewrite He in Ge. rewrite (end_range _ _ _ s e) by done.
  rewrite !get_set_prop, !get_withField. key_eq. rewrite ?andb_false_r, ?andb_true_r.
  rewrite (get_search "model" (f_model f)), (get_search "token" (f_token f)), (get_search "group" (f_group f)), (get_search "channel" (f_channel f)),
    (get_search "username" (f_username f)), (get_search "requestId" (f_requestId f)), (get_search "upstreamRequestId" (f_upstreamRequestId f)) by set_solver.
  unfold sent. repeat split; repeat match goal with |- context [truthy_str ?x] => destruct (truthy_str x) eqn:?; cbn [truthy] end;
    repeat match goal with H : truthy_str ?x = true |- _ => rewrite H; clear H end; destruct admin; done.
Qed.
End Requests.

(** ** Witnesses and examples *)

Definition sampleTier (label i o : string) : VisualTier :=
  mkVisual (js label) [mkCondInput VarLen OpLe (inr (js "200000"))] (num_of_str (js i)) (num_of_str (js o)) Generic [].
Definition sampleTiers : list VisualTier := [sampleTier "standard" "3" "15"; sampleTier "long context" "6" "22.5"].
Definition sampleText : jstr := generateExprFromVisualConfig (Some sampleTiers).
Definition sampleLog : fields :=
  [(js "billing_mode", VStr (js "tiered_expr")); (js "expr_b64", VStr (b64Encode (encodeUtf8 sampleText))); (js "matched_tier", VStr (js "long context"))].

Lemma logged_tier_is_shown_witness :
  exists s, getTieredBillingSummary id (VObj sampleLog) = Some s /\ map showPart (partsOf sampleTiers) !! 1%nat = Some (s_tier s) /\
    map (fun e => (e_shortLabel e, num_to_str (e_price e))) (s_priceEntries s) = [(js "Input", js "6"); (js "Output", js "22.5")].
Proof.
  destruct (map showPart (partsOf sampleTiers) !! 1%nat) as [tier|] eqn:E; [|vm_compute in E; discriminate E].
  assert (El : pt_label tier = js "long context") by (vm_compute in E; injection E as <-; reflexivity).
  destruct (logged_tier_is_shown id sampleTiers 1 tier sampleText sampleLog) as (s & Hs & _ & Ht & _).
  - discriminate.
  - repeat (apply List.Forall_cons || apply List.Forall_nil || split); vm_compute; reflexivity.
  - exact E.
  - apply List.Forall_forall. apply (proj1 (forallb_forall _ _)). vm_compute. reflexivity.
  - vm_compute. reflexivity.
  - vm_compute. discriminate.
  - rewrite El. repeat split.
  - rewrite El. vm_compute. discriminate.
  - rewrite El. intros j t Hj Ht. assert (j = 0%nat) as -> by lia. vm_compute in Ht. injection Ht as <-. vm_compute. discriminate.
  - exists s. split; [exact Hs|]. split; [by rewrite Ht|]. vm_compute in Hs. injection Hs as <-. vm_compute. reflexivity.
Defined.

Example member_sends_no_admin_filter_witness :
  let search := [(js "channel", VStr (js "7")); (js "model", VStr (js "gpt"))] in
  let request c := (fetchLogsByCategory num_zero num_zero c false (num_of_Z 1) (num_of_Z 20) search [(js "username", VStr (js "root"))]).2 in
  js "channel" ∉ map fst (buildQueryParams (request CommonLogs)) /\ get_prop (js "channel_id") (request TaskLogs) = VStr (js "7").
Proof.
  intros search request. pose (filters := [(js "username", VStr (js "root"))]).
  destruct (member_sends_no_admin_filter num_zero num_zero CommonLogs (num_of_Z 1) (num_of_Z 20) search filters) as (_ & _ & _ & H1 & _).
  destruct (member_sends_no_admin_filter num_zero num_zero TaskLogs (num_of_Z 1) (num_of_Z 20) search filters) as (_ & _ & _ & _ & H2).
  assert (Hc : adminKey (js "channel")) by (by left). split; [exact (proj2 (H1 eq_refl _ Hc))|].
  assert (Ht : TaskLogs <> CommonLogs) by discriminate. exact (proj2 (H2 Ht)).
Defined.

Lemma filters_reach_server_witness :
  let f := mkFilters (Some (num_of_Z 1700000000500)) (Some (num_of_Z 1700003600000)) (js "7") (js "gpt") [] [] (js "root") [] [] [] [] in
  let params := (fetchLogsByCategory num_zero num_zero CommonLogs true (num_of_Z 1) (num_of_Z 20) (buildSearchParams f CommonLogs) []).2 in
  get_prop (js "username") params = VStr (js "root") /\ get_prop (js "start_timestamp") params = VNum (num_of_Z 1700000000).
Proof.
  cbv zeta. set (f := mkFilters _ _ _ _ _ _ _ _ _ _ _).
  destruct (filters_reach_server num_zero num_zero (num_of_Z 1) (num_of_Z 20) true f (num_of_Z 1700000000500) (num_of_Z 1700003600000))
    as (_ & Hu & _ & Hs & _); [reflexivity|reflexivity|vm_compute; reflexivity|vm_compute; reflexivity|].
  split; [exact Hu|]. etransitivity; [exact Hs|]. vm_compute. reflexivity.
Defined.

(** Labels that differ only in the equal sign are the same label: the entry of
    the second of two such tiers shows the prices of the first. *)
Example similar_labels_show_first_tier :
  let tiers := [sampleTier "<32k" "1" "2"; sampleTier "<=32k" "3" "4"] in
  let log := [(js "billing_mode", VStr (js "tiered_expr")); (js "expr_b64", VStr (b64Encode (encodeUtf8 (generateExprFromVisualConfig (Some tiers)))));
              (js "matched_tier", VStr (js "<=32k"))] in
  (fun s => pt_label (s_tier s)) <$> getTieredBillingSummary id (VObj log) = Some (js "<32k").
Proof. vm_compute. reflexivity. Qed.

(** A channel filter that is not a number is sent as zero. *)
Example channel_text_sent_as_zero :
  get_prop (js "channel") (buildApiParams num_zero num_zero (num_of_Z 1) (num_of_Z 20) [(js "channel", VStr (js "abc"))] [] true) = VNum num_zero.
Proof. vm_compute. reflexivity. Qed.
